(* ===== verification/_CoqProject ===== *)
-Q . S2P
Prelude.v
Riscv.v
Memory.v
CString.v
Ring.v
Sys.v
Spinlock.v
Proc.v
Kalloc.v
Vm.v
PageTable.v
Uvm.v
UserCopy.v
Sleeplock.v
Uart.v
Printf.v
Either.v
Pipe.v
ProcMem.v
Asm.v
Console.v
ConsoleOk.v
Bio.v
Block.v
Bcache.v
BufCache.v
Log.v
Kernel.v
Machine.v
Virtio.v
VirtioOk.v
Fs.v
File.v
Sysfile.v
Exec.v
ProcLife.v
Syscall.v
Trap.v
LogDisk.v
LogOk.v
LogCrash.v
LogTx.v
FsPath.v
FsTx.v
FsBlocks.v
FsFile.v
FsUser.v
FsWrite.v
FsOp.v
FsInode.v
FsDir.v
FsDemo.v
DirDemo.v
Mkfs.v
MkfsOk.v
MkfsImage.v
User.v
UserPrintf.v
Umalloc.v
Grep.v
Programs.v
ProgramsOk.v
Shell.v
ShellParse.v
ShellType.v
ShellRun.v
ProgramsRun.v
Primes.v
Grind.v
Usertests.v
UsertestsOk.v
