(* ===== verification/Prelude.v ===== *)
(** * A verification development for the xv6 kernel (RISC-V)

    xv6 is a small multiprocessor Unix-like kernel in C ([src/kernel]) with user
    programs ([src/user]) and a program that makes its disk image ([src/mkfs]).
    The kernel's parts build on each other: spinlocks and the scheduler
    ([spinlock.c], [proc.c]); the page allocator and page tables ([kalloc.c],
    [vm.c]); the console, its UART and [printf]; the disk driver
    ([virtio_disk.c]), the buffer cache over it ([bio.c]), the write-ahead log
    over the cache ([log.c]), and the file system over the log ([fs.c],
    [file.c]); system calls and traps on top ([syscall.c], [sysproc.c],
    [sysfile.c], [exec.c], [trap.c], [main.c]); and the assembly that enters the
    kernel, leaves it and switches between contexts.  Processes run the user
    library and programs on these system calls, from a file system that [mkfs]
    laid out.

    ** How the code is modelled

    A C function is a state transformer [M S A]: from a state it gives an
    [outcome], which is a result and a state, a [panic], spinning on a lock that
    is held, or a [swtch] to another context together with the rest of the
    computation.  Undefined behaviour (an index outside an array, an overflow of
    a stack buffer, a null pointer) is a [panic] whose message starts with
    [undefined].  Integers are [Z] with [u8], [u16], [u32], [u64] and [s32]
    written where the source wraps; memory is bytes; structs that the code keeps
    in pages (page tables, pipes, trap frames, the free list) are at their
    offsets in memory, and on-disk structs at their offsets in blocks.

    A component works on a record of its own state, and the kernel's record
    ([Kernel.v]) contains them all; [zoom] runs a component's code on its part.
    [Machine.v] has the parameters that are not in the sources: what device
    registers read, linker symbols, code addresses.

    ** The files

    - this file: integers, outcomes, the monad, lenses, tactics;
    - [Riscv], [Memory], [Block], [CString], [Ring]: [riscv.h], [memlayout.h],
      [param.h]; memory and block contents; [string.c]; the ring buffers shared
      by [uart.c], [console.c] and [pipe.c];
    - [Sys], [Spinlock], [Proc], [Sleeplock]: [proc.h], [spinlock.c], the part of
      [proc.c] on the process table, [sleeplock.c];
    - [Kalloc], [Vm], [PageTable], [Uvm], [UserCopy]: [kalloc.c] and [vm.c]; page
      tables as trees in memory; user address spaces; [copyin] and [copyout];
    - [Uart], [Printf], [Console], [ConsoleOk], [Either], [Pipe]: [uart.c],
      [printf.c], [console.c], [pipe.c];
    - [ProcMem], [ProcLife]: [allocproc], [wait], [fork], [exit] and the like;
    - [Bio], [Bcache], [BufCache]: [bio.c], its correctness, its interface;
    - [Virtio], [VirtioOk]: [virtio_disk.c], and the driver with a device;
    - [Log], [LogDisk], [LogOk], [LogCrash], [LogTx]: [log.c] and crashes;
    - [Fs], [File], [Sysfile], [Exec], [Syscall], [Trap]: [fs.c], [file.c] and
      [pipealloc], [sysfile.c], [exec.c], [syscall.c] and [sysproc.c], [trap.c],
      [plic.c] and [main.c];
    - [FsTx], [FsBlocks], [FsFile], [FsUser], [FsWrite], [FsOp], [FsDemo]: the
      correctness of [fs.c] inside operations of the log;
    - [FsPath], [FsInode], [FsDir], [DirDemo]: path names, the inode table, and
      directories with the walk of a path;
    - [Asm]: [swtch.S], [trampoline.S], [kernelvec.S], [entry.S], [start.c];
    - [Mkfs], [MkfsOk], [MkfsImage]: [mkfs.c], its invariant, the image it leaves;
    - [User], [UserPrintf], [Umalloc], [Grep]: a process and [ulib.c],
      [user/printf.c], [umalloc.c], [grep.c];
    - [Shell], [ShellParse], [ShellType], [ShellRun]: [sh.c], its parser against a
      grammar, the commands it makes, and a session of the shell;
    - [Programs], [ProgramsOk], [ProgramsRun], [Primes]: [cat.c], [echo.c], [wc.c],
      [kill.c], [ln.c], [mkdir.c], [rm.c], [sleep.c], [zombie.c], [find.c], [ls.c],
      [primes.c], [pingpong.c], [xargs.c], [init.c], [forktest.c], [stressfs.c];
      theorems on the first three, on [xargs] and on [primes];
    - [Grind], [Usertests], [UsertestsOk]: [grind.c] with its random numbers,
      [usertests.c], and what the exit status of [usertests] says.

    A user program is code of the same monad on the memory of a process.  A system
    call is a [Switch] with the request; [drive] runs a program against an
    environment that answers the requests ([Unix]).  What a program relies on of
    the environment is an interface: [Stdio] for the streams it reads and writes,
    [Brk] for [sbrk], [Files] for files opened by name, [Family] for [fork], [exec]
    and descriptors, [Lab] for children that are waited for and free pages.  Where
    processes work together, an evaluation of both sides of a [fork] takes the
    place of [drive]: [execs] ([ShellRun]) collects the programs that all processes
    start, [net] ([Primes]) runs a pipeline from its source, each process before
    its children, and [sync] ([UsertestsOk]) runs a child to its end first.

    ** Interfaces

    [DiskDriver] and [DiskDriverOk] say what the buffer cache needs of a disk
    driver; the kernel's own driver with a device that obeys the virtio protocol
    is shown to provide it, as is a disk without delays.  [CacheOk] says what the
    log needs of the buffer cache, which [Bcache] provides; [TxOk] says what the
    file system needs of the log, which [FsTx] provides.  So the theorems on the
    file system hold with the code below it, down to the device.

    ** What the theorems show

    - Crash safety: a crash at any disk write of a commit or of a recovery is
      followed by a recovery that leaves all or nothing of the transaction; an
      operation is one atomic update of the disk; a [writei] of user data is
      atomic down to the contents of the file ([LogCrash], [LogTx], [FsOp]).
    - The file system: [balloc] and [bfree] on the bitmap, [bmap], [readi] and
      [writei] with user memory ([FsBlocks], [FsUser], [FsOp]); a path leads
      where the directories on the disk say ([FsDir]); the image [mkfs] writes is
      such a file system, with the files under their names ([MkfsImage]).
    - The disk: [bread], [bwrite], replacement, the virtio driver with a device
      ([Bcache], [VirtioOk]).
    - Concurrency: mutual exclusion of spinlocks under every interleaving; no
      wakeup is lost in any interleaving of sleepers and a waker, and none
      deadlocks; [sleep], [wakeup], the scheduler ([Spinlock], [Proc]).
    - Memory: page tables are trees and [walk] and [mappages] look up and update
      the mapping; growing, shrinking and copying address spaces account for
      every page; [copyin] and [copyout] move exactly the user's bytes; the
      allocator loses and duplicates no page ([Kalloc], [PageTable], [Uvm],
      [UserCopy]).
    - Registers: a trap and the return from it, an interrupt of the kernel, and a
      switch of contexts give back every register; the stacks of the harts are
      apart ([Asm]).
    - User programs: [printf] against a reference formatter, the matcher of [grep]
      against the language of a pattern, and [grep] on a stream ([UserPrintf],
      [Grep]); [cat], [wc] and [echo] on their streams and files ([ProgramsOk]);
      [xargs] runs a command per line ([ProgramsRun]); the sieve of [primes]
      prints the primes ([Primes]).
    - The allocator of user programs: blocks in use never overlap, and what is
      freed can be allocated again ([Umalloc]).
    - The shell: the parser implements the grammar of command lines, its commands
      are well formed, and a session starts the programs of each line with their
      arguments, pipes and files ([ShellParse], [ShellType], [ShellRun]).
    - The programs that test the kernel: the random numbers of [grind] run through
      their whole range, and [usertests] exits with 0 exactly when the tests it
      chooses pass and lose no memory ([Grind], [UsertestsOk]).
    - Devices: the UART's queue, [printf] against a reference formatter, the
      console as a line editor, pipes as queues ([Uart], [Printf], [ConsoleOk],
      [Pipe]).

    ** Bounds

    Loops of the code that are not bounded by data take a bound as fuel, and
    running out of it is the outcome [Fuel], which no theorem accepts as success.
    The bounds are computed from the data where the code's termination depends on
    it ([S (length path)] elements of a path, the pages a range touches, the three
    levels of a page table, [NBUF] buffers of the list).  [wake_bound] and
    [poll_bound] of [Machine] bound how often a process may be woken in vain and
    a device polled: that is up to the environment, and every theorem about a
    loop that sleeps either needs no second round or states what happens in
    one round.  User programs take one [bound] for the loops that stop at a nul,
    the end of the input or a full memory; a theorem holds for every bound larger
    than the strings, lines, files or pages it speaks of.

    ** Not modelled

    - Weak memory: the fences of [spinlock.c] and [virtio_disk.c] have no effect
      in the interleaving model.
    - The generated [user/usys.S].
    - The tests of [usertests.c] that hand bad addresses to the kernel or touch
      memory that the process does not have ([copyin], [copyout], [copyinstr1],
      [copyinstr3], [rwsbrk], [sbrkmuch], [kernmem], [MAXVAplus], [sbrkfail],
      [sbrkarg], [validatetest], [argptest], [stacktest], [nowrite], [pgbug],
      [badarg], [badwrite]), and [fsfull], which no table lists: a system call of
      the user model carries the bytes, not the address, and every address of a
      process is memory.  What the kernel does with such addresses is proved
      about [copyin], [copyout] and [copyinstr] themselves ([UserCopy]).
    - Interleavings of user processes: the evaluations above fix one order of the
      processes of a program.
    - The compiled code of C functions: the assembly files are modelled down to
      instructions, the C functions at the level of C. *)

From Stdlib Require Export ZArith Lia.
From Stdlib Require Strings.Byte.
From coqutil Require Export Byte LittleEndianList.
From stdpp Require Export prelude strings gmap list.

#[export] Set Default Goal Selector "!".

Open Scope Z_scope.

Declare Scope kernel_scope.
Delimit Scope kernel_scope with K.
Open Scope kernel_scope.

(** ** Machine integers

    A C integer of width [w] is a [Z]; every place where the source lets a
    value wrap says so with one of these functions. *)

Definition u8 (z : Z) : Z := z mod 2 ^ 8.

Definition u16 (z : Z) : Z := z mod 2 ^ 16.

Definition u32 (z : Z) : Z := z mod 2 ^ 32.

Definition u64 (z : Z) : Z := z mod 2 ^ 64.

(** The [int] a 32-bit pattern denotes. *)
Definition s32 (z : Z) : Z :=
  let r := z mod 2 ^ 32 in if r <? 2 ^ 31 then r else r - 2 ^ 32.

(** The bytes of a string literal, without the terminating nul. *)
Definition bytes_of (s : string) : list byte := String.list_byte_of_string s.

(** ** Outcomes of kernel code

    A kernel function is a state transformer.  It returns ([Ok]), reaches
    [panic(msg)], spins on a lock another hart holds ([Spin]), or hands the
    hart over in [swtch] ([Switch]): the state it leaves behind and the rest of
    its execution, a function of the state it is resumed in.  [Fuel] marks a
    bounded loop of the model whose bound was too small. *)

Inductive outcome (S A : Type) : Type :=
| Ok (a : A) (s : S)
| Panic (msg : string) (s : S)
| Spin (s : S)
| Switch (s : S) (k : S -> outcome S A)
| Fuel.

Arguments Ok {S A} a s.
Arguments Panic {S A} msg s.
Arguments Spin {S A} s.
Arguments Switch {S A} s k.
Arguments Fuel {S A}.

Definition M (S A : Type) : Type := S -> outcome S A.

Fixpoint obind {S A B} (o : outcome S A) (f : A -> M S B) : outcome S B :=
  match o with
  | Ok a s => f a s
  | Panic m s => Panic m s
  | Spin s => Spin s
  | Switch s k => Switch s (fun t => obind (k t) f)
  | Fuel => Fuel
  end.

Definition ret {S A} (a : A) : M S A := fun s => Ok a s.

Definition bind {S A B} (c : M S A) (f : A -> M S B) : M S B :=
  fun s => obind (c s) f.

Definition get {S} : M S S := fun s => Ok s s.

Definition put {S} (s : S) : M S unit := fun _ => Ok tt s.

Definition gets {S A} (f : S -> A) : M S A := fun s => Ok (f s) s.

Definition modify {S} (f : S -> S) : M S unit := fun s => Ok tt (f s).

Definition panic {S A} (msg : string) : M S A := fun s => Panic msg s.

Notation "'let!' x ':=' c 'in' k" := (bind c (fun x => k))
  (at level 10, x pattern, c at level 200, k at level 200) : kernel_scope.

Notation "c ;; k" := (bind c (fun _ => k))
  (at level 100, k at level 200, right associativity) : kernel_scope.

(** [for(i in l) body(i)] *)
Fixpoint forM {S A} (l : list A) (f : A -> M S unit) : M S unit :=
  match l with
  | [] => ret tt
  | x :: l => f x ;; forM l f
  end.

(** [for(i in l) if(body(i)) break/return]: the first result the body gives. *)
Fixpoint find_loop {S A B} (l : list A) (f : A -> M S (option B)) : M S (option B) :=
  match l with
  | [] => ret None
  | x :: l =>
      let! r := f x in
      match r with
      | Some b => ret (Some b)
      | None => find_loop l f
      end
  end.

(** [while(c) body] whose body says whether to go round again, with a bound
    on the number of rounds. *)
Fixpoint while {S A B} (fuel : nat) (body : A -> M S (A + B)) (a : A) : M S B :=
  match fuel with
  | O => fun _ => Fuel
  | Datatypes.S n =>
      let! r := body a in
      match r with
      | inl a' => while n body a'
      | inr b => ret b
      end
  end.

(** ** Components of a state

    A component works on its own record; a client whose state contains that
    record runs the component's code with [zoom]. *)

Record lens (S C : Type) := Lens {
  lget : S -> C;
  lset : C -> S -> S
}.

Arguments Lens {S C} lget lset.
Arguments lget {S C} l s.
Arguments lset {S C} l c s.

Class LensLaws {S C} (l : lens S C) : Prop := {
  lget_lset : forall c s, lget l (lset l c s) = c;
  lset_lget : forall s, lset l (lget l s) s = s;
  lset_lset : forall c c' s, lset l c (lset l c' s) = lset l c s
}.

Fixpoint ozoom {S C A} (l : lens S C) (s : S) (o : outcome C A) : outcome S A :=
  match o with
  | Ok a c => Ok a (lset l c s)
  | Panic m c => Panic m (lset l c s)
  | Spin c => Spin (lset l c s)
  | Switch c k => Switch (lset l c s) (fun t => ozoom l t (k (lget l t)))
  | Fuel => Fuel
  end.

Definition zoom {S C A} (l : lens S C) (c : M C A) : M S A :=
  fun s => ozoom l s (c (lget l s)).

(** ** Lemmas on outcomes *)

Section Outcomes.
Context {S A B : Type}.

Lemma bind_Ok (c : M S A) (f : A -> M S B) s a s' :
  c s = Ok a s' -> bind c f s = f a s'.
Proof. intros H. unfold bind. by rewrite H. Qed.

Lemma bind_Panic (c : M S A) (f : A -> M S B) s m s' :
  c s = Panic m s' -> bind c f s = Panic m s'.
Proof. intros H. unfold bind. by rewrite H. Qed.

Lemma bind_Spin (c : M S A) (f : A -> M S B) s s' :
  c s = Spin s' -> bind c f s = Spin s'.
Proof. intros H. unfold bind. by rewrite H. Qed.

Lemma bind_Switch (c : M S A) (f : A -> M S B) s s' k :
  c s = Switch s' k -> bind c f s = Switch s' (fun t => obind (k t) f).
Proof. intros H. unfold bind. by rewrite H. Qed.

Lemma bind_Ok_inv (c : M S A) (f : A -> M S B) s b s2 :
  bind c f s = Ok b s2 ->
  exists a s1, c s = Ok a s1 /\ f a s1 = Ok b s2.
Proof. unfold bind. destruct (c s); simpl; try discriminate. eauto. Qed.

Lemma bind_ret (a : A) (f : A -> M S B) s : bind (ret a) f s = f a s.
Proof. reflexivity. Qed.

Lemma bind_gets {C} (g : S -> C) (f : C -> M S B) s : bind (gets g) f s = f (g s) s.
Proof. reflexivity. Qed.

Lemma bind_modify (g : S -> S) (f : unit -> M S B) s :
  bind (modify g) f s = f tt (g s).
Proof. reflexivity. Qed.

End Outcomes.

Lemma zoom_Ok {S C A} (l : lens S C) (c : M C A) s a c' :
  c (lget l s) = Ok a c' -> zoom l c s = Ok a (lset l c' s).
Proof. intros H. unfold zoom. by rewrite H. Qed.

Lemma zoom_Switch {S C A} (l : lens S C) (c : M C A) s c' k :
  c (lget l s) = Switch c' k -> zoom l c s = Switch (lset l c' s) (fun t => ozoom l t (k (lget l t))).
Proof. intros H. unfold zoom. by rewrite H. Qed.

Lemma zoom_Panic {S C A} (l : lens S C) (c : M C A) s m c' :
  c (lget l s) = Panic m c' -> zoom l c s = Panic m (lset l c' s).
Proof. intros H. unfold zoom. by rewrite H. Qed.

Lemma zoom_read {S C A} (l : lens S C) `{!LensLaws l} (c : M C A) s a :
  c (lget l s) = Ok a (lget l s) -> zoom l c s = Ok a s.
Proof. intros H. rewrite (zoom_Ok l c s a _ H). by rewrite lset_lget. Qed.

(** A loop whose body preserves [P] and returns preserves [P]. *)
Lemma forM_inv {S A} (P : S -> Prop) (l : list A) (f : A -> M S unit) s :
  (forall x s, x ∈ l -> P s -> exists s', f x s = Ok tt s' /\ P s') ->
  P s -> exists s', forM l f s = Ok tt s' /\ P s'.
Proof.
  revert s. induction l as [|x l IH]; intros s Hf HP; simpl; [by eexists|].
  destruct (Hf x s) as (s1 & H1 & HP1); [by left|done|].
  destruct (IH s1) as (s2 & H2 & HP2); [|done|].
  - intros y t Hy. apply Hf. by right.
  - exists s2. split; [|done]. by rewrite (bind_Ok _ _ _ _ _ H1).
Qed.

(** A loop over [0 .. n-1], with an invariant that knows the round. *)
Lemma forM_seq_inv {S} (P : nat -> S -> Prop) (n : nat) (f : nat -> M S unit) s :
  (forall k s, (k < n)%nat -> P k s -> exists s', f k s = Ok tt s' /\ P (Datatypes.S k) s') ->
  P 0%nat s -> exists s', forM (seq 0 n) f s = Ok tt s' /\ P n s'.
Proof.
  intros Hf HP.
  enough (H : forall m k s, (k + m = n)%nat -> P k s -> exists s', forM (seq k m) f s = Ok tt s' /\ P n s')
    by (by apply (H n 0%nat)).
  clear s HP. induction m as [|m IH]; intros k s Hk HP; simpl.
  - exists s. by replace n with k by lia.
  - destruct (Hf k s ltac:(lia) HP) as (s1 & H1 & HP1).
    destruct (IH (Datatypes.S k) s1 ltac:(lia) HP1) as (s2 & H2 & HP2).
    exists s2. split; [|done]. by rewrite (bind_Ok _ _ _ _ _ H1).
Qed.

(** One step of symbolic execution: run the first command of a sequence with
    an equation that says what it returns. *)
Ltac krun H :=
  lazymatch type of H with
  | _ = Ok _ _ => first [rewrite (bind_Ok _ _ _ _ _ H) | rewrite H]
  | _ = Panic _ _ => first [rewrite (bind_Panic _ _ _ _ _ H) | rewrite H]
  end.

(** Case analysis on the first test of the goal. *)
Ltac kcase :=
  match goal with
  | |- context [ if ?b then _ else _ ] => let E := fresh "E" in destruct b eqn:E
  | |- context [ match ?b with _ => _ end ] => let E := fresh "E" in destruct b eqn:E
  end.

Create HintDb kernel.

(** Linear arithmetic with division and remainder. *)
Ltac dlia := Z.to_euclidean_division_equations; lia.

(** ** Integers *)

Lemma u32_range z : 0 <= u32 z < 2 ^ 32.
Proof. apply Z.mod_pos_bound. lia. Qed.

Lemma u64_range z : 0 <= u64 z < 2 ^ 64.
Proof. apply Z.mod_pos_bound. lia. Qed.

Lemma u64_small z : 0 <= z < 2 ^ 64 -> u64 z = z.
Proof. apply Z.mod_small. Qed.

Lemma u32_small z : 0 <= z < 2 ^ 32 -> u32 z = z.
Proof. apply Z.mod_small. Qed.

Lemma s32_range z : - 2 ^ 31 <= s32 z < 2 ^ 31.
Proof.
  unfold s32. pose proof (Z.mod_pos_bound z (2 ^ 32)).
  case_match eqn:E; rewrite ?Z.ltb_lt, ?Z.ltb_ge in E; lia.
Qed.

Lemma s32_small z : - 2 ^ 31 <= z < 2 ^ 31 -> s32 z = z.
Proof.
  intros H. unfold s32. destruct (decide (0 <= z)).
  - rewrite Z.mod_small by lia. case_match eqn:E; [done|]. rewrite Z.ltb_ge in E. lia.
  - replace (z mod 2 ^ 32) with (z + 2 ^ 32).
    + case_match eqn:E; [|lia]. rewrite Z.ltb_lt in E. lia.
    + apply (Z.mod_unique z (2 ^ 32) (-1)); lia.
Qed.

(** ** Bytes *)

Lemma byte_eqb_spec b c : reflect (b = c) (Byte.eqb b c).
Proof.
  destruct (Byte.eqb b c) eqn:E; constructor.
  - by apply Byte.byte_dec_bl.
  - intros ->. by rewrite Byte.byte_dec_lb in E.
Qed.

#[export] Instance byte_eq_decision : EqDecision byte.
Proof. intros b c. destruct (byte_eqb_spec b c); [by left|by right]. Defined.

#[export] Instance byte_inhabited : Inhabited byte := populate Byte.x00.

#[export] Hint Resolve u32_range u64_range s32_range : kernel.
