(* ===== verification/Riscv.v ===== *)
(** * Machine layout: [kernel/riscv.h], [kernel/memlayout.h], [kernel/param.h]

    The constants and macros the memory code computes with: pages, page-table
    entries, the three 9-bit indices of an Sv39 virtual address, the physical
    memory map and the addresses of the kernel stacks. *)

From S2P Require Import Prelude.

(** ** param.h *)

Definition NPROC : nat := 64.

Definition NCPU : nat := 8.

Definition NOFILE : nat := 16.

Definition NFILE : nat := 100.

Definition NINODE : nat := 50.

Definition NDEV : Z := 10.

Definition ROOTDEV : Z := 1.

Definition MAXARG : nat := 32.

Definition MAXOPBLOCKS : Z := 10.

Definition LOGSIZE : Z := MAXOPBLOCKS * 3.

Definition NBUF : nat := 30.

Definition FSSIZE : Z := 2000.

Definition MAXPATH : Z := 128.

(** [conf/lab.mk] sets [LAB=util], so [LAB_UTIL] is defined. *)
Definition USERSTACK : Z := 2.

(** ** riscv.h: pages and page-table entries *)

Definition PGSIZE : Z := 4096.

#[global] Arguments PGSIZE : simpl never.

Definition PGSHIFT : Z := 12.

Definition PGROUNDUP (sz : Z) : Z := Z.land (u64 (sz + PGSIZE - 1)) (Z.lnot (PGSIZE - 1)).

Definition PGROUNDDOWN (a : Z) : Z := Z.land a (Z.lnot (PGSIZE - 1)).

Definition PTE_V : Z := Z.shiftl 1 0.

Definition PTE_R : Z := Z.shiftl 1 1.

Definition PTE_W : Z := Z.shiftl 1 2.

Definition PTE_X : Z := Z.shiftl 1 3.

Definition PTE_U : Z := Z.shiftl 1 4.

(** [(x & flag) != 0] *)
Definition has (x flag : Z) : bool := negb (Z.land x flag =? 0).

Definition PA2PTE (pa : Z) : Z := Z.shiftl (Z.shiftr pa 12) 10.

Definition PTE2PA (pte : Z) : Z := u64 (Z.shiftl (Z.shiftr pte 10) 12).

Definition PTE_FLAGS (pte : Z) : Z := Z.land pte 0x3FF.

Definition PXMASK : Z := 0x1FF.

Definition PXSHIFT (level : Z) : Z := PGSHIFT + 9 * level.

Definition PX (level va : Z) : Z := Z.land (Z.shiftr va (PXSHIFT level)) PXMASK.

Definition MAXVA : Z := Z.shiftl 1 (9 + 9 + 9 + 12 - 1).

Definition SATP_SV39 : Z := Z.shiftl 8 60.

Definition MAKE_SATP (pagetable : Z) : Z := Z.lor SATP_SV39 (Z.shiftr pagetable 12).

(** ** riscv.h: the supervisor status register *)

Definition SSTATUS_SPP : Z := Z.shiftl 1 8.

Definition SSTATUS_SPIE : Z := Z.shiftl 1 5.

Definition SSTATUS_SIE : Z := Z.shiftl 1 1.

(** ** memlayout.h *)

Definition UART0 : Z := 0x10000000.

Definition UART0_IRQ : Z := 10.

Definition VIRTIO0 : Z := 0x10001000.

Definition VIRTIO0_IRQ : Z := 1.

Definition PLIC : Z := 0x0c000000.

Definition KERNBASE : Z := 0x80000000.

Definition PHYSTOP : Z := KERNBASE + 128 * 1024 * 1024.

Definition TRAMPOLINE : Z := MAXVA - PGSIZE.

Definition KSTACK (p : Z) : Z := TRAMPOLINE - (p + 1) * 2 * PGSIZE.

Definition TRAPFRAME : Z := TRAMPOLINE - PGSIZE.

(** ** Rounding *)

Lemma land_lnot_ones a n : 0 <= n -> Z.land a (Z.lnot (2 ^ n - 1)) = a - a mod 2 ^ n.
Proof.
  intros Hn.
  replace (2 ^ n - 1) with (Z.ones n) by (rewrite Z.ones_equiv; lia).
  rewrite <- Z.ldiff_land, Z.ldiff_ones_r by lia.
  rewrite Z.shiftl_mul_pow2, Z.shiftr_div_pow2 by lia.
  pose proof (Z.div_mod a (2 ^ n)). lia.
Qed.

Lemma PGROUNDDOWN_eq a : PGROUNDDOWN a = a - a mod PGSIZE.
Proof. apply (land_lnot_ones a 12). lia. Qed.

Lemma PGROUNDUP_eq a :
  0 <= a -> a + 4095 < 2 ^ 64 -> PGROUNDUP a = (a + 4095) - (a + 4095) mod PGSIZE.
Proof.
  intros. unfold PGROUNDUP. rewrite u64_small by (unfold PGSIZE; lia).
  replace (a + PGSIZE - 1) with (a + 4095) by (unfold PGSIZE; lia).
  apply (land_lnot_ones _ 12). lia.
Qed.

Lemma PGROUNDDOWN_aligned a : PGROUNDDOWN a mod PGSIZE = 0.
Proof.
  rewrite PGROUNDDOWN_eq. unfold PGSIZE.
  rewrite Zminus_mod, Z.mod_mod, Z.sub_diag by lia. done.
Qed.

Lemma PGROUNDDOWN_bounds a : PGROUNDDOWN a <= a < PGROUNDDOWN a + PGSIZE.
Proof.
  rewrite PGROUNDDOWN_eq. pose proof (Z.mod_pos_bound a PGSIZE). unfold PGSIZE in *. lia.
Qed.

Lemma PGROUNDUP_bounds a :
  0 <= a -> a + 4095 < 2 ^ 64 ->
  a <= PGROUNDUP a < a + PGSIZE /\ PGROUNDUP a mod PGSIZE = 0.
Proof.
  intros. rewrite PGROUNDUP_eq by done. unfold PGSIZE. split.
  - pose proof (Z.mod_pos_bound (a + 4095) 4096). lia.
  - by rewrite Zminus_mod, Z.mod_mod, Z.sub_diag by lia.
Qed.

Lemma PGROUNDUP_aligned_id a :
  0 <= a -> a + 4095 < 2 ^ 64 -> a mod PGSIZE = 0 -> PGROUNDUP a = a.
Proof.
  intros ? ? Ha. destruct (PGROUNDUP_bounds a) as [? Hm]; [done..|].
  unfold PGSIZE in *.
  apply Z.mod_divide in Ha as [x Hx]; [|lia].
  apply Z.mod_divide in Hm as [y Hy]; [|lia]. lia.
Qed.

Lemma PGROUNDDOWN_aligned_id a : a mod PGSIZE = 0 -> PGROUNDDOWN a = a.
Proof. intros H. rewrite PGROUNDDOWN_eq. lia. Qed.

(** ** Flag bits *)

Lemma has_testbit x n : 0 <= n -> has x (Z.shiftl 1 n) = Z.testbit x n.
Proof.
  intros Hn. unfold has. rewrite Z.shiftl_1_l.
  destruct (Z.testbit x n) eqn:E.
  - apply negb_true_iff, Z.eqb_neq. intros H.
    apply (f_equal (fun z => Z.testbit z n)) in H.
    by rewrite Z.land_spec, E, Z.pow2_bits_true, Z.bits_0 in H by lia.
  - apply negb_false_iff, Z.eqb_eq. apply Z.bits_inj'. intros i Hi.
    rewrite Z.land_spec, Z.bits_0, Z.pow2_bits_eqb by lia.
    destruct (Z.eqb_spec n i) as [<-|]; by rewrite ?E, ?andb_false_r.
Qed.

(** Clearing a bit of a word and setting it again. *)
Lemma has_clear x n : 0 <= n -> has (Z.land x (Z.lnot (Z.shiftl 1 n))) (Z.shiftl 1 n) = false.
Proof.
  intros. rewrite has_testbit, Z.land_spec, Z.lnot_spec, Z.shiftl_1_l, Z.pow2_bits_true by lia.
  by rewrite andb_false_r.
Qed.

Lemma has_set x n : 0 <= n -> has (Z.lor x (Z.shiftl 1 n)) (Z.shiftl 1 n) = true.
Proof.
  intros. rewrite has_testbit, Z.lor_spec, Z.shiftl_1_l, Z.pow2_bits_true by lia.
  by rewrite orb_true_r.
Qed.

Lemma set_clear_bit x n :
  0 <= n -> has x (Z.shiftl 1 n) = true ->
  Z.lor (Z.land x (Z.lnot (Z.shiftl 1 n))) (Z.shiftl 1 n) = x.
Proof.
  intros Hn. rewrite has_testbit by done. intros H. apply Z.bits_inj'. intros i Hi.
  rewrite Z.lor_spec, Z.land_spec, Z.lnot_spec, Z.shiftl_1_l, Z.pow2_bits_eqb by lia.
  destruct (Z.eqb_spec n i) as [<-|]; [by rewrite H, orb_true_r|].
  by rewrite andb_true_r, orb_false_r.
Qed.

Lemma clear_clear_bit x n :
  0 <= n -> has x (Z.shiftl 1 n) = false -> Z.land x (Z.lnot (Z.shiftl 1 n)) = x.
Proof.
  intros Hn. rewrite has_testbit by done. intros H. apply Z.bits_inj'. intros i Hi.
  rewrite Z.land_spec, Z.lnot_spec, Z.shiftl_1_l, Z.pow2_bits_eqb by lia.
  destruct (Z.eqb_spec n i) as [<-|]; [by rewrite H|]. by rewrite andb_true_r.
Qed.

(** ** Page-table entries *)

Lemma shift_page a n : 0 <= n -> Z.shiftl (Z.shiftr a n) n = a - a mod 2 ^ n.
Proof.
  intros. rewrite Z.shiftl_mul_pow2, Z.shiftr_div_pow2 by lia.
  pose proof (Z.div_mod a (2 ^ n)). lia.
Qed.

Lemma PA2PTE_eq pa : PA2PTE pa = pa / 4096 * 1024.
Proof. unfold PA2PTE. by rewrite Z.shiftl_mul_pow2, Z.shiftr_div_pow2 by lia. Qed.

Lemma lor_add_low x f n :
  0 <= n -> 0 <= f < 2 ^ n -> Z.lor (x * 2 ^ n) f = x * 2 ^ n + f.
Proof.
  intros Hn Hf. symmetry. rewrite <- Z.add_lor_land.
  replace (Z.land (x * 2 ^ n) f) with 0; [lia|].
  symmetry. apply Z.bits_inj'. intros i Hi.
  rewrite Z.land_spec, Z.bits_0.
  destruct (decide (i < n)).
  - rewrite Z.mul_pow2_bits_low by lia. done.
  - destruct (decide (f = 0)) as [->|]; [by rewrite Z.bits_0, andb_false_r|].
    rewrite (Z.bits_above_log2 f i), andb_false_r; [done|lia|].
    apply Z.log2_lt_pow2; [lia|].
    apply Z.lt_le_trans with (2 ^ n); [lia|]. apply Z.pow_le_mono_r; lia.
Qed.

Lemma lor_range x y n : 0 <= n -> 0 <= x < 2 ^ n -> 0 <= y < 2 ^ n -> 0 <= Z.lor x y < 2 ^ n.
Proof.
  intros Hn Hx Hy. assert (Hp : 0 <= Z.lor x y) by (apply Z.lor_nonneg; lia). split; [done|].
  destruct (decide (Z.lor x y = 0)) as [->|]; [lia|].
  apply Z.log2_lt_pow2; [lia|]. rewrite Z.log2_lor by lia.
  assert (Hl : forall z, 0 <= z < 2 ^ n -> z <> 0 -> Z.log2 z < n)
    by (intros; apply Z.log2_lt_pow2; lia).
  pose proof (Z.log2_nonneg x). pose proof (Z.log2_nonneg y).
  destruct (decide (x = 0)) as [->|Hx0], (decide (y = 0)) as [->|Hy0]; try done;
    [specialize (Hl y Hy Hy0)|specialize (Hl x Hx Hx0)|
     pose proof (Hl x Hx Hx0); specialize (Hl y Hy Hy0)];
    change (Z.log2 0) with 0; lia.
Qed.

Lemma PA2PTE_lor pa f :
  0 <= f < 1024 -> Z.lor (PA2PTE pa) f = pa / 4096 * 1024 + f.
Proof. intros. rewrite PA2PTE_eq. apply (lor_add_low _ _ 10); lia. Qed.

(** An entry built from a page address and flags gives both back. *)
Lemma PTE2PA_PA2PTE pa f :
  0 <= pa < 2 ^ 56 -> pa mod PGSIZE = 0 -> 0 <= f < 1024 ->
  PTE2PA (Z.lor (PA2PTE pa) f) = pa.
Proof.
  intros Hpa Hal Hf. rewrite PA2PTE_lor by done. unfold PTE2PA, PGSIZE in *.
  rewrite Z.shiftl_mul_pow2, Z.shiftr_div_pow2 by lia.
  replace ((pa / 4096 * 1024 + f) / 2 ^ 10) with (pa / 4096).
  - change (2 ^ 12) with 4096. rewrite u64_small; dlia.
  - change (2 ^ 10) with 1024. dlia.
Qed.

Lemma PTE_FLAGS_PA2PTE pa f :
  0 <= pa -> 0 <= f < 1024 -> PTE_FLAGS (Z.lor (PA2PTE pa) f) = f.
Proof.
  intros Hpa Hf. rewrite PA2PTE_lor by done. unfold PTE_FLAGS.
  change 0x3FF with (Z.ones 10). rewrite Z.land_ones by lia.
  change (2 ^ 10) with 1024. dlia.
Qed.

(** The flags of an entry only depend on its low ten bits. *)
Lemma has_flags pte f :
  0 <= f < 1024 -> has pte f = has (PTE_FLAGS pte) f.
Proof.
  intros Hf. unfold has, PTE_FLAGS. rewrite <- Z.land_assoc.
  replace (Z.land 0x3FF f) with f; [done|].
  rewrite Z.land_comm. change 0x3FF with (Z.ones 10).
  rewrite Z.land_ones by lia. rewrite Z.mod_small; [done|]. exact Hf.
Qed.

Lemma has_PA2PTE pa f g :
  0 <= pa -> 0 <= f < 1024 -> 0 <= g < 1024 -> has (Z.lor (PA2PTE pa) f) g = has f g.
Proof. intros. by rewrite has_flags, PTE_FLAGS_PA2PTE by done. Qed.

(** ** The indices of a virtual address *)

Lemma MAXVA_eq : MAXVA = 2 ^ 38.
Proof. reflexivity. Qed.

Lemma PX_eq level va :
  0 <= level -> PX level va = va / 2 ^ (12 + 9 * level) mod 512.
Proof.
  intros. unfold PX, PXMASK, PXSHIFT, PGSHIFT. change 0x1FF with (Z.ones 9).
  rewrite Z.land_ones, Z.shiftr_div_pow2 by lia. done.
Qed.

Lemma PX_range level va : 0 <= level -> 0 <= PX level va < 512.
Proof. intros. rewrite PX_eq by done. apply Z.mod_pos_bound. lia. Qed.

Lemma va_split va :
  0 <= va < 2 ^ 39 ->
  va = PX 2 va * 2 ^ 30 + PX 1 va * 2 ^ 21 + PX 0 va * 2 ^ 12 + va mod PGSIZE.
Proof.
  intros. rewrite !PX_eq by lia. unfold PGSIZE. simpl (12 + 9 * _).
  change (2 ^ 30) with 1073741824. change (2 ^ 21) with 2097152. change (2 ^ 12) with 4096.
  dlia.
Qed.

(** Two page-aligned addresses with the same three indices are equal: no two
    pages share a leaf entry. *)
Lemma PX_inj va vb :
  0 <= va < MAXVA -> 0 <= vb < MAXVA ->
  va mod PGSIZE = 0 -> vb mod PGSIZE = 0 ->
  PX 2 va = PX 2 vb -> PX 1 va = PX 1 vb -> PX 0 va = PX 0 vb -> va = vb.
Proof.
  rewrite MAXVA_eq. intros Ha Hb Hva Hvb H2 H1 H0.
  rewrite (va_split va), (va_split vb) by lia. congruence.
Qed.

#[export] Hint Resolve PX_range PGROUNDDOWN_aligned PGROUNDDOWN_bounds : kernel.
