(* ===== verification/Memory.v ===== *)
(** * Byte-addressed memory

    Physical memory as a finite map from addresses to bytes, with loads and
    stores of byte sequences and of little-endian words.  A missing address
    reads as zero, so a map stands for the whole RAM. *)

From S2P Require Import Prelude.

Abbreviation mem := (gmap Z byte).

Definition ld8 (m : mem) (a : Z) : byte := default Byte.x00 (m !! a).

Definition st8 (m : mem) (a : Z) (b : byte) : mem := <[a := b]> m.

Fixpoint ld_bytes (m : mem) (a : Z) (n : nat) : list byte :=
  match n with
  | O => []
  | S n => ld8 m a :: ld_bytes m (a + 1) n
  end.

Fixpoint st_bytes (m : mem) (a : Z) (bs : list byte) : mem :=
  match bs with
  | [] => m
  | b :: bs => st_bytes (st8 m a b) (a + 1) bs
  end.

Definition ld32 (m : mem) (a : Z) : Z := le_combine (ld_bytes m a 4).

Definition ld64 (m : mem) (a : Z) : Z := le_combine (ld_bytes m a 8).

Definition st32 (m : mem) (a v : Z) : mem := st_bytes m a (le_split 4 v).

Definition st64 (m : mem) (a v : Z) : mem := st_bytes m a (le_split 8 v).

(** [len] bytes from [a] and [len'] bytes from [a'] do not overlap. *)
Definition apart (a len a' len' : Z) : Prop := a + len <= a' \/ a' + len' <= a.

(** ** Single bytes *)

Lemma ld8_st8 m a b a' : ld8 (st8 m a b) a' = if decide (a = a') then b else ld8 m a'.
Proof. unfold ld8, st8. rewrite lookup_insert. by case_decide. Qed.

Lemma ld8_st8_eq m a b : ld8 (st8 m a b) a = b.
Proof. rewrite ld8_st8. by case_decide. Qed.

Lemma ld8_st8_ne m a b a' : a <> a' -> ld8 (st8 m a b) a' = ld8 m a'.
Proof. intros. rewrite ld8_st8. by case_decide. Qed.

(** ** Sequences of bytes *)

Lemma length_ld_bytes m a n : length (ld_bytes m a n) = n.
Proof. revert a. induction n; simpl; auto. Qed.

Lemma ld_bytes_lookup m a n i :
  (i < n)%nat -> ld_bytes m a n !! i = Some (ld8 m (a + Z.of_nat i)).
Proof.
  revert a i. induction n as [|n IH]; intros a i Hi; [lia|].
  destruct i as [|i]; simpl; [by rewrite Z.add_0_r|].
  rewrite IH by lia. do 2 f_equal. lia.
Qed.

Lemma ld_bytes_add m a n k :
  ld_bytes m a (n + k) = ld_bytes m a n ++ ld_bytes m (a + Z.of_nat n) k.
Proof.
  revert a. induction n as [|n IH]; intros a; simpl.
  - by rewrite Z.add_0_r.
  - rewrite IH. do 3 f_equal. lia.
Qed.

Lemma ld_bytes_snoc m a n :
  ld_bytes m a (S n) = ld_bytes m a n ++ [ld8 m (a + Z.of_nat n)].
Proof. replace (S n) with (n + 1)%nat by lia. by rewrite ld_bytes_add. Qed.

Lemma st_bytes_app m a bs bs' :
  st_bytes m a (bs ++ bs') = st_bytes (st_bytes m a bs) (a + Z.of_nat (length bs)) bs'.
Proof.
  revert m a. induction bs as [|b bs IH]; intros m a; simpl.
  - by rewrite Z.add_0_r.
  - rewrite IH. f_equal. lia.
Qed.

Lemma st_bytes_lookup_out m a bs a' :
  ~ (a <= a' < a + Z.of_nat (length bs)) -> st_bytes m a bs !! a' = m !! a'.
Proof.
  revert m a. induction bs as [|b bs IH]; intros m a H; simpl in *; [done|].
  rewrite IH by lia. apply lookup_insert_ne. lia.
Qed.

Lemma st_bytes_lookup_in m a bs i b :
  bs !! i = Some b -> st_bytes m a bs !! (a + Z.of_nat i) = Some b.
Proof.
  revert m a i. induction bs as [|b' bs IH]; intros m a i H; [done|].
  destruct i as [|i]; simpl in *.
  - simplify_eq. rewrite st_bytes_lookup_out by lia.
    rewrite Z.add_0_r. apply lookup_insert_eq.
  - replace (a + Z.of_nat (S i)) with (a + 1 + Z.of_nat i) by lia. by apply IH.
Qed.

Lemma ld8_st_bytes_out m a bs a' :
  ~ (a <= a' < a + Z.of_nat (length bs)) -> ld8 (st_bytes m a bs) a' = ld8 m a'.
Proof. intros. unfold ld8. by rewrite st_bytes_lookup_out. Qed.

Lemma ld8_st_bytes_in m a bs i b :
  bs !! i = Some b -> ld8 (st_bytes m a bs) (a + Z.of_nat i) = b.
Proof. intros. unfold ld8. by erewrite st_bytes_lookup_in. Qed.

Lemma ld_bytes_ext m m' a n :
  (forall i, a <= i < a + Z.of_nat n -> ld8 m i = ld8 m' i) ->
  ld_bytes m a n = ld_bytes m' a n.
Proof.
  revert a. induction n as [|n IH]; intros a H; simpl; [done|].
  f_equal; [apply H; lia|]. apply IH. intros. apply H. lia.
Qed.

Lemma ld_bytes_st_bytes m a bs n :
  n = length bs -> ld_bytes (st_bytes m a bs) a n = bs.
Proof.
  intros ->. apply list_eq. intros i.
  destruct (decide (i < length bs)%nat) as [Hi|Hi].
  - rewrite ld_bytes_lookup by done.
    destruct (lookup_lt_is_Some_2 bs i Hi) as [b Hb].
    rewrite Hb. f_equal. by apply ld8_st_bytes_in.
  - rewrite !lookup_ge_None_2; [done|lia|rewrite length_ld_bytes; lia].
Qed.

Lemma ld_bytes_st_bytes_apart m a bs a' n :
  apart a (Z.of_nat (length bs)) a' (Z.of_nat n) ->
  ld_bytes (st_bytes m a bs) a' n = ld_bytes m a' n.
Proof.
  unfold apart. intros H. apply ld_bytes_ext. intros i Hi.
  apply ld8_st_bytes_out. lia.
Qed.

(** A load from inside a stored sequence. *)
Lemma ld_bytes_st_bytes_sub m a bs i n :
  (i + n <= length bs)%nat ->
  ld_bytes (st_bytes m a bs) (a + Z.of_nat i) n = take n (drop i bs).
Proof.
  intros H. apply list_eq. intros j.
  destruct (decide (j < n)%nat) as [Hj|Hj].
  - rewrite ld_bytes_lookup, lookup_take_lt, lookup_drop by lia.
    destruct (lookup_lt_is_Some_2 bs (i + j)) as [b Hb]; [lia|].
    rewrite Hb. f_equal.
    replace (a + Z.of_nat i + Z.of_nat j) with (a + Z.of_nat (i + j)) by lia.
    by apply ld8_st_bytes_in.
  - rewrite lookup_ge_None_2 by (rewrite length_ld_bytes; lia).
    rewrite lookup_take_ge by lia. done.
Qed.

(** Writing back what is there changes no load. *)
Lemma ld8_st_bytes_ld m a n a' : ld8 (st_bytes m a (ld_bytes m a n)) a' = ld8 m a'.
Proof.
  destruct (decide (a <= a' < a + Z.of_nat n)) as [H|H].
  - replace a' with (a + Z.of_nat (Z.to_nat (a' - a))) by lia.
    apply ld8_st_bytes_in. apply ld_bytes_lookup. lia.
  - apply ld8_st_bytes_out. by rewrite length_ld_bytes.
Qed.

Lemma st_bytes_insert_comm m a bs a' b :
  ~ (a <= a' < a + Z.of_nat (length bs)) ->
  st_bytes (st8 m a' b) a bs = st8 (st_bytes m a bs) a' b.
Proof.
  revert m a. induction bs as [|x bs IH]; intros m a H; simpl in *; [done|].
  rewrite <- IH by lia. f_equal. unfold st8. apply insert_insert_ne. lia.
Qed.

(** ** Words *)

Lemma ld64_range m a : 0 <= ld64 m a < 2 ^ 64.
Proof.
  unfold ld64. pose proof (le_combine_bound (ld_bytes m a 8)) as H.
  by rewrite length_ld_bytes in H.
Qed.

Lemma ld32_range m a : 0 <= ld32 m a < 2 ^ 32.
Proof.
  unfold ld32. pose proof (le_combine_bound (ld_bytes m a 4)) as H.
  by rewrite length_ld_bytes in H.
Qed.

Lemma ld64_st64 m a v : ld64 (st64 m a v) a = u64 v.
Proof.
  unfold ld64, st64. rewrite ld_bytes_st_bytes by (by rewrite length_le_split).
  apply le_combine_split.
Qed.

Lemma ld32_st32 m a v : ld32 (st32 m a v) a = u32 v.
Proof.
  unfold ld32, st32. rewrite ld_bytes_st_bytes by (by rewrite length_le_split).
  apply le_combine_split.
Qed.

Lemma ld64_ext m m' a :
  (forall i, a <= i < a + 8 -> ld8 m i = ld8 m' i) -> ld64 m a = ld64 m' a.
Proof. intros H. unfold ld64. f_equal. apply ld_bytes_ext. intros. apply H. lia. Qed.

Lemma ld32_ext m m' a :
  (forall i, a <= i < a + 4 -> ld8 m i = ld8 m' i) -> ld32 m a = ld32 m' a.
Proof. intros H. unfold ld32. f_equal. apply ld_bytes_ext. intros. apply H. lia. Qed.

Lemma ld64_st_bytes_apart m a bs a' :
  apart a (Z.of_nat (length bs)) a' 8 -> ld64 (st_bytes m a bs) a' = ld64 m a'.
Proof. intros. unfold ld64. f_equal. by apply ld_bytes_st_bytes_apart. Qed.

Lemma ld64_st64_apart m a v a' :
  apart a 8 a' 8 -> ld64 (st64 m a v) a' = ld64 m a'.
Proof. intros. apply ld64_st_bytes_apart. by rewrite length_le_split. Qed.

Lemma ld_bytes_st64_apart m a v a' n :
  apart a 8 a' (Z.of_nat n) -> ld_bytes (st64 m a v) a' n = ld_bytes m a' n.
Proof. intros. apply ld_bytes_st_bytes_apart. by rewrite length_le_split. Qed.

Lemma ld8_st64_out m a v a' : ~ (a <= a' < a + 8) -> ld8 (st64 m a v) a' = ld8 m a'.
Proof. intros. apply ld8_st_bytes_out. by rewrite length_le_split. Qed.

(** Every word of a zeroed range is zero. *)
Lemma ld64_zeroed m a n a' :
  a <= a' -> a' + 8 <= a + Z.of_nat n ->
  ld64 (st_bytes m a (replicate n Byte.x00)) a' = 0.
Proof.
  intros H1 H2. unfold ld64.
  replace a' with (a + Z.of_nat (Z.to_nat (a' - a))) by lia.
  rewrite ld_bytes_st_bytes_sub by (rewrite length_replicate; lia).
  rewrite drop_replicate, take_replicate.
  replace (8 `min` (n - Z.to_nat (a' - a)))%nat with 8%nat by lia. done.
Qed.

#[export] Hint Resolve ld64_range ld32_range : kernel.
