(* ===== verification/CString.v ===== *)
(** * [kernel/string.c]

    The loops of the C memory and string routines over byte memory, and what
    they compute: each is shown equal to a definition without loops.  Lengths
    are the C counts, so a negative count runs no iteration; the source and
    destination objects do not wrap around the address space. *)

From S2P Require Import Prelude Memory.

(** ** memset, memcmp, memmove *)

Fixpoint memset_loop (m : mem) (cdst : Z) (c : byte) (n : nat) : mem :=
  match n with
  | O => m
  | S n => memset_loop (st8 m cdst c) (cdst + 1) c n
  end.

Definition memset (m : mem) (dst c n : Z) : mem :=
  memset_loop m dst (byte.of_Z c) (Z.to_nat n).

Fixpoint memcmp_loop (m : mem) (s1 s2 : Z) (n : nat) : Z :=
  match n with
  | O => 0
  | S n =>
      if Byte.eqb (ld8 m s1) (ld8 m s2)
      then memcmp_loop m (s1 + 1) (s2 + 1) n
      else byte.unsigned (ld8 m s1) - byte.unsigned (ld8 m s2)
  end.

Definition memcmp (m : mem) (v1 v2 n : Z) : Z := memcmp_loop m v1 v2 (Z.to_nat n).

(** [while(n-- > 0) *d++ = *s++] *)
Fixpoint copy_up (m : mem) (d s : Z) (n : nat) : mem :=
  match n with
  | O => m
  | S n => copy_up (st8 m d (ld8 m s)) (d + 1) (s + 1) n
  end.

(** [while(n-- > 0) *--d = *--s] *)
Fixpoint copy_down (m : mem) (d s : Z) (n : nat) : mem :=
  match n with
  | O => m
  | S n => copy_down (st8 m (d - 1) (ld8 m (s - 1))) (d - 1) (s - 1) n
  end.

Definition memmove (m : mem) (dst src n : Z) : mem :=
  if n =? 0 then m
  else if (src <? dst) && (dst <? src + n)
  then copy_down m (dst + n) (src + n) (Z.to_nat n)
  else copy_up m dst src (Z.to_nat n).

Definition memcpy (m : mem) (dst src n : Z) : mem := memmove m dst src n.

(** ** strncmp, strncpy, safestrcpy, strlen *)

Fixpoint strncmp_loop (m : mem) (p q : Z) (n : nat) : Z :=
  match n with
  | O => 0
  | S n' =>
      if negb (Byte.eqb (ld8 m p) Byte.x00) && Byte.eqb (ld8 m p) (ld8 m q)
      then strncmp_loop m (p + 1) (q + 1) n'
      else byte.unsigned (ld8 m p) - byte.unsigned (ld8 m q)
  end.

Definition strncmp (m : mem) (p q n : Z) : Z := strncmp_loop m p q (Z.to_nat n).

(** [while(n-- > 0 && ( *s++ = *t++ ) != 0)]: the memory, the final [s], and how
    many of the [n] bytes are left when a NUL has stopped the loop. *)
Fixpoint strncpy_copy (m : mem) (s t : Z) (n : nat) : mem * Z * nat :=
  match n with
  | O => (m, s, O)
  | S n =>
      let m' := st8 m s (ld8 m t) in
      if Byte.eqb (ld8 m t) Byte.x00 then (m', s + 1, n)
      else strncpy_copy m' (s + 1) (t + 1) n
  end.

(** [while(n-- > 0) *s++ = 0] *)
Fixpoint strncpy_pad (m : mem) (s : Z) (n : nat) : mem :=
  match n with
  | O => m
  | S n => strncpy_pad (st8 m s Byte.x00) (s + 1) n
  end.

Definition strncpy (m : mem) (s t n : Z) : mem :=
  let '(m, s, n) := strncpy_copy m s t (Z.to_nat n) in strncpy_pad m s n.

(** [while(--n > 0 && ( *s++ = *t++ ) != 0)]: the memory and the final [s]. *)
Fixpoint safestrcpy_copy (m : mem) (s t : Z) (n : nat) : mem * Z :=
  match n with
  | O => (m, s)
  | S n =>
      let m' := st8 m s (ld8 m t) in
      if Byte.eqb (ld8 m t) Byte.x00 then (m', s + 1)
      else safestrcpy_copy m' (s + 1) (t + 1) n
  end.

Definition safestrcpy (m : mem) (s t n : Z) : mem :=
  if n <=? 0 then m
  else let '(m, s) := safestrcpy_copy m s t (Z.to_nat (n - 1)) in st8 m s Byte.x00.

(** [for(n = 0; s[n]; n++)], looking at no more than [fuel] bytes. *)
Fixpoint strlen_loop (m : mem) (s n : Z) (fuel : nat) : option Z :=
  match fuel with
  | O => None
  | S fuel =>
      if Byte.eqb (ld8 m (s + n)) Byte.x00 then Some n
      else strlen_loop m s (n + 1) fuel
  end.

Definition strlen (fuel : nat) (m : mem) (s : Z) : option Z := strlen_loop m s 0 fuel.

(** ** Reference definitions *)

(** The bytes of a C string: everything before the first NUL. *)
Fixpoint until_nul (bs : list byte) : list byte :=
  match bs with
  | [] => []
  | b :: bs => if Byte.eqb b Byte.x00 then [] else b :: until_nul bs
  end.

(** [bs] as [strncpy] leaves it in a field of [n] bytes. *)
Definition nul_pad (n : nat) (bs : list byte) : list byte :=
  bs ++ replicate (n - length bs) Byte.x00.

(** ** Lemmas *)

Lemma until_nul_length bs : (length (until_nul bs) <= length bs)%nat.
Proof. induction bs as [|b bs IH]; simpl; [lia|]. destruct (Byte.eqb b Byte.x00); simpl; lia. Qed.

Lemma until_nul_no_nul bs : Byte.x00 ∉ until_nul bs.
Proof.
  induction bs as [|b bs IH]; simpl; [apply not_elem_of_nil|].
  destruct (byte_eqb_spec b Byte.x00); [apply not_elem_of_nil|].
  rewrite not_elem_of_cons. auto.
Qed.

Lemma until_nul_idemp bs : Byte.x00 ∉ bs -> until_nul bs = bs.
Proof.
  induction bs as [|b bs IH]; simpl; [done|].
  rewrite not_elem_of_cons. intros [Hb Hbs].
  destruct (byte_eqb_spec b Byte.x00); [congruence|]. by rewrite IH.
Qed.

Lemma until_nul_app_nul bs bs' : Byte.x00 ∉ bs -> until_nul (bs ++ Byte.x00 :: bs') = bs.
Proof.
  induction bs as [|b bs IH]; simpl; [done|].
  rewrite not_elem_of_cons. intros [Hb Hbs].
  destruct (byte_eqb_spec b Byte.x00); [congruence|]. by rewrite IH.
Qed.

Lemma memset_loop_eq m a c n : memset_loop m a c n = st_bytes m a (replicate n c).
Proof. revert m a. induction n; intros; simpl; auto. Qed.

Lemma memset_eq m dst c n :
  memset m dst c n = st_bytes m dst (replicate (Z.to_nat n) (byte.of_Z c)).
Proof. apply memset_loop_eq. Qed.

Lemma copy_up_eq m d s n :
  d <= s \/ s + Z.of_nat n <= d -> copy_up m d s n = st_bytes m d (ld_bytes m s n).
Proof.
  revert m d s. induction n as [|n IH]; intros m d s H; simpl; [done|].
  rewrite IH by lia. f_equal. apply ld_bytes_ext. intros i Hi. apply ld8_st8_ne. lia.
Qed.

Lemma copy_down_eq m d s n :
  s <= d -> copy_down m (d + Z.of_nat n) (s + Z.of_nat n) n = st_bytes m d (ld_bytes m s n).
Proof.
  revert m. induction n as [|n IH]; intros m H; [done|].
  cbn [copy_down].
  replace (d + Z.of_nat (S n) - 1) with (d + Z.of_nat n) by lia.
  replace (s + Z.of_nat (S n) - 1) with (s + Z.of_nat n) by lia.
  rewrite IH by done.
  rewrite ld_bytes_snoc, st_bytes_app, length_ld_bytes. cbn [st_bytes].
  rewrite (ld_bytes_ext (st8 _ _ _) m).
  - apply st_bytes_insert_comm. rewrite length_ld_bytes. lia.
  - intros i Hi. apply ld8_st8_ne. lia.
Qed.

Lemma memmove_eq m dst src n :
  0 <= n -> memmove m dst src n = st_bytes m dst (ld_bytes m src (Z.to_nat n)).
Proof.
  intros Hn. unfold memmove.
  destruct (Z.eqb_spec n 0) as [->|]; [done|].
  destruct (Z.ltb_spec src dst), (Z.ltb_spec dst (src + n)); simpl;
    try (apply copy_up_eq; lia).
  rewrite <- (copy_down_eq m dst src (Z.to_nat n)) by lia.
  by rewrite Z2Nat.id.
Qed.

Lemma memcmp_loop_eq m a b n :
  memcmp_loop m a b n = 0 /\ ld_bytes m a n = ld_bytes m b n \/
  exists i, (i < n)%nat /\ ld_bytes m a i = ld_bytes m b i /\
    ld8 m (a + Z.of_nat i) <> ld8 m (b + Z.of_nat i) /\
    memcmp_loop m a b n =
      byte.unsigned (ld8 m (a + Z.of_nat i)) - byte.unsigned (ld8 m (b + Z.of_nat i)).
Proof.
  revert a b. induction n as [|n IH]; intros a b; simpl; [by left|].
  destruct (byte_eqb_spec (ld8 m a) (ld8 m b)) as [E|E].
  - destruct (IH (a + 1) (b + 1)) as [[-> H]|(i & Hi & Hp & Hne & ->)].
    + left. by rewrite E, H.
    + right. exists (S i).
      replace (a + Z.of_nat (S i)) with (a + 1 + Z.of_nat i) by lia.
      replace (b + Z.of_nat (S i)) with (b + 1 + Z.of_nat i) by lia.
      simpl. rewrite E, Hp. split_and!; [lia|done..].
  - right. exists O. rewrite !Z.add_0_r. split_and!; [lia|done..].
Qed.

Lemma strncmp_loop_zero m p q n :
  strncmp_loop m p q n = 0 <-> until_nul (ld_bytes m p n) = until_nul (ld_bytes m q n).
Proof.
  revert p q. induction n as [|n IH]; intros p q; simpl; [done|].
  destruct (byte_eqb_spec (ld8 m p) Byte.x00) as [E|E], (byte_eqb_spec (ld8 m p) (ld8 m q))
    as [E'|E']; simpl.
  - rewrite <- E', E. simpl. split; [done|intros _; by destruct (ld8 m p)].
  - destruct (byte_eqb_spec (ld8 m q) Byte.x00); [congruence|].
    split; [|done]. intros H. destruct E'. apply byte.unsigned_inj. lia.
  - rewrite <- E'. destruct (byte_eqb_spec (ld8 m p) Byte.x00); [done|].
    rewrite IH. split; congruence.
  - split.
    + intros H. destruct E'. apply byte.unsigned_inj. lia.
    + destruct (byte_eqb_spec (ld8 m q) Byte.x00); [done|congruence].
Qed.

Lemma strncpy_pad_eq m s n : strncpy_pad m s n = st_bytes m s (replicate n Byte.x00).
Proof. revert m s. induction n; intros; simpl; auto. Qed.

Lemma strncpy_loops_eq m s t n :
  apart s (Z.of_nat n) t (Z.of_nat n) ->
  (let '(m', s', n') := strncpy_copy m s t n in strncpy_pad m' s' n') =
  st_bytes m s (nul_pad n (until_nul (ld_bytes m t n))).
Proof.
  unfold nul_pad, apart. revert m s t. induction n as [|n IH]; intros m s t H; simpl; [done|].
  destruct (byte_eqb_spec (ld8 m t) Byte.x00) as [E|E]; simpl.
  - rewrite strncpy_pad_eq. by rewrite E.
  - rewrite IH by lia.
    rewrite (ld_bytes_ext (st8 m s (ld8 m t)) m); [done|].
    intros i Hi. apply ld8_st8_ne. lia.
Qed.

Lemma safestrcpy_loop_eq m s t n :
  apart s (Z.of_nat n + 1) t (Z.of_nat n) ->
  exists k, (k <= n)%nat /\
  (let '(m', s') := safestrcpy_copy m s t n in st8 m' s' Byte.x00) =
  st_bytes m s (until_nul (ld_bytes m t n) ++ replicate k Byte.x00 ++ [Byte.x00]) /\
  (length (until_nul (ld_bytes m t n)) + k <= n)%nat.
Proof.
  unfold apart. revert m s t. induction n as [|n IH]; intros m s t H; simpl.
  - exists O. split_and!; done || lia.
  - destruct (byte_eqb_spec (ld8 m t) Byte.x00) as [E|E]; simpl.
    + exists 1%nat. rewrite E. split_and!; done || lia.
    + destruct (IH (st8 m s (ld8 m t)) (s + 1) (t + 1)) as (k & Hk & Heq & Hl); [lia|].
      rewrite (ld_bytes_ext (st8 m s (ld8 m t)) m) in Heq, Hl
        by (intros; apply ld8_st8_ne; lia).
      exists k. rewrite Heq. split_and!; done || lia.
Qed.

Lemma strlen_loop_eq m s n fuel :
  (length (until_nul (ld_bytes m (s + n) fuel)) < fuel)%nat ->
  strlen_loop m s n fuel = Some (n + Z.of_nat (length (until_nul (ld_bytes m (s + n) fuel)))).
Proof.
  revert n. induction fuel as [|fuel IH]; intros n H; simpl in *; [lia|].
  destruct (byte_eqb_spec (ld8 m (s + n)) Byte.x00); simpl in *; [f_equal; lia|].
  replace (s + n + 1) with (s + (n + 1)) in * by lia.
  rewrite IH by lia. f_equal. lia.
Qed.

(** ** Properties *)

(** [memmove] copies the [n] bytes that were at [src] before the call to
    [dst], whatever the overlap of the two ranges, and changes nothing else:
    both the forward and the backward loop equal one simultaneous copy. *)
Theorem memmove_correct (m : mem) (dst src n : Z) (Hn : 0 <= n) :
  ld_bytes (memmove m dst src n) dst (Z.to_nat n) = ld_bytes m src (Z.to_nat n) /\
  forall a, ~ (dst <= a < dst + n) -> ld8 (memmove m dst src n) a = ld8 m a.
Proof.
  rewrite memmove_eq by done. split.
  - apply ld_bytes_st_bytes. by rewrite length_ld_bytes.
  - intros a Ha. apply ld8_st_bytes_out. rewrite length_ld_bytes. lia.
Qed.

(** Bytes 1 2 3 4 5 at address 100; the three at 100 are moved to 101. *)
Definition mem12345 : mem :=
  st_bytes ∅ 100 [Byte.x01; Byte.x02; Byte.x03; Byte.x04; Byte.x05].

Lemma memmove_correct_witness :
  ld_bytes (memmove mem12345 101 100 3) 101 3 = [Byte.x01; Byte.x02; Byte.x03] /\
  ld8 (memmove mem12345 101 100 3) 104 = Byte.x05.
Proof.
  destruct (memmove_correct mem12345 101 100 3) as [H1 H2]; [lia|].
  split; [exact H1|]. rewrite H2 by lia. vm_compute. reflexivity.
Defined.

(** [strncmp] is zero exactly when the two C strings, cut at [n] bytes,
    are the same. *)
Theorem strncmp_correct (m : mem) (p q n : Z) :
  strncmp m p q n = 0 <->
  until_nul (ld_bytes m p (Z.to_nat n)) = until_nul (ld_bytes m q (Z.to_nat n)).
Proof. apply strncmp_loop_zero. Qed.

(** [strncpy] into a field of [n] bytes writes the source string, cut at
    [n], then NULs to the end of the field, and nothing outside it. *)
Theorem strncpy_correct (m : mem) (s t n : Z) (Hn : 0 <= n) (Hap : apart s n t n) :
  strncpy m s t n =
  st_bytes m s (nul_pad (Z.to_nat n) (until_nul (ld_bytes m t (Z.to_nat n)))).
Proof. apply strncpy_loops_eq. by rewrite Z2Nat.id. Qed.

Lemma strncpy_correct_witness :
  strncpy mem12345 200 100 7 =
  st_bytes mem12345 200
    [Byte.x01; Byte.x02; Byte.x03; Byte.x04; Byte.x05; Byte.x00; Byte.x00].
Proof.
  rewrite strncpy_correct; [|lia|unfold apart; lia].
  vm_compute. reflexivity.
Defined.

(** [safestrcpy] always leaves a NUL-terminated string in the [n] bytes
    at [s], the source string cut at [n - 1] bytes, and writes nothing outside
    those [n] bytes. *)
Theorem safestrcpy_correct (m : mem) (s t n : Z) (Hn : 0 < n) (Hap : apart s n t (n - 1)) :
  let str := until_nul (ld_bytes m t (Z.to_nat (n - 1))) in
  (length str < Z.to_nat n)%nat /\
  ld_bytes (safestrcpy m s t n) s (S (length str)) = str ++ [Byte.x00] /\
  forall a, ~ (s <= a < s + n) -> ld8 (safestrcpy m s t n) a = ld8 m a.
Proof.
  intros str. unfold safestrcpy. destruct (Z.leb_spec n 0); [lia|].
  destruct (safestrcpy_loop_eq m s t (Z.to_nat (n - 1))) as (k & Hk & -> & Hl).
  { unfold apart in *. lia. }
  fold str in Hl |- *. set (bs := str ++ _).
  assert (Hbs : length bs = (length str + k + 1)%nat).
  { unfold bs. rewrite !length_app, length_replicate. simpl. lia. }
  split_and!; [lia| |].
  - pose proof (ld_bytes_st_bytes_sub m s bs 0 (S (length str))) as Hld.
    rewrite Z.add_0_r in Hld. rewrite Hld by lia.
    unfold bs. rewrite drop_0, take_app_ge by lia.
    replace (S (length str) - length str)%nat with 1%nat by lia.
    by destruct k.
  - intros a Ha. apply ld8_st_bytes_out. lia.
Qed.

Lemma safestrcpy_correct_witness :
  ld_bytes (safestrcpy mem12345 200 100 4) 200 4 = [Byte.x01; Byte.x02; Byte.x03; Byte.x00].
Proof.
  destruct (safestrcpy_correct mem12345 200 100 4) as (_ & H & _); [lia|unfold apart; lia|].
  exact H.
Defined.

(** Proofs about callers use the lemmas above, not the loops. *)
#[global] Opaque memset memmove.
