(* ===== verification/Ring.v ===== *)
(** * Ring buffers with wrapping counters

    The console, the UART and the pipes keep a queue in an array of [N] slots
    with counters of a machine width: the slot of a counter is its value modulo
    [N], and the counters run on modulo [W].  [N] divides [W], so a counter that
    wraps around still names the next slot. *)

From S2P Require Import Prelude.

Section Ring.
Context {A : Type} `{!Inhabited A} (N W : Z).
Hypothesis HN : 0 < N.
Hypothesis HNW : N < W.
Hypothesis Hdiv : (N | W).
Implicit Types (buf : list A) (r w : Z).

Definition slot w : nat := Z.to_nat (w mod N).

Definition count r w : Z := (w - r) mod W.

(** The queue between the counters [r] and [w]. *)
Definition contents buf r w : list A :=
  map (fun k => buf !!! slot (r + Z.of_nat k)) (seq 0 (Z.to_nat (count r w))).

Record ring_ok buf r w : Prop := {
  rg_len : length buf = Z.to_nat N;
  rg_r : 0 <= r < W;
  rg_w : 0 <= w < W;
  rg_count : count r w <= N
}.

Lemma count_range r w : 0 <= count r w < W.
Proof. apply Z.mod_pos_bound. lia. Qed.

Lemma contents_len buf r w : length (contents buf r w) = Z.to_nat (count r w).
Proof. unfold contents. by rewrite length_map, length_seq. Qed.

Lemma count_empty r w : 0 <= r < W -> 0 <= w < W -> (count r w = 0 <-> r = w).
Proof.
  intros Hr Hw. unfold count. split; [|intros ->; by rewrite Z.sub_diag, Z.mod_0_l by lia].
  intros H. destruct (decide (r <= w)).
  - rewrite Z.mod_small in H by lia. lia.
  - rewrite <- (Z.mod_add _ 1), Z.mod_small in H by lia. lia.
Qed.

Lemma count_full r w : 0 <= r < W -> 0 <= w < W -> (w = (r + N) mod W <-> count r w = N).
Proof.
  intros Hr Hw. unfold count. split.
  - intros ->. rewrite Zminus_mod_idemp_l. replace (r + N - r) with N by lia. apply Z.mod_small. lia.
  - intros H. rewrite <- H. rewrite Zplus_mod_idemp_r. replace (r + (w - r)) with w by lia.
    by rewrite Z.mod_small.
Qed.

Lemma count_succ r w : count r w + 1 < W -> count r ((w + 1) mod W) = count r w + 1.
Proof.
  intros H. pose proof (count_range r w). unfold count in *. rewrite Zminus_mod_idemp_l.
  replace (w + 1 - r) with (w - r + 1) by lia. rewrite <- Zplus_mod_idemp_l. apply Z.mod_small. lia.
Qed.

Lemma count_pred r w : 0 < count r w -> count r ((w - 1) mod W) = count r w - 1.
Proof.
  intros H. pose proof (count_range r w). unfold count in *. rewrite Zminus_mod_idemp_l.
  replace (w - 1 - r) with (w - r - 1) by lia. rewrite <- Zminus_mod_idemp_l. apply Z.mod_small. lia.
Qed.

Lemma count_next r w : 0 < count r w -> count ((r + 1) mod W) w = count r w - 1.
Proof.
  intros H. pose proof (count_range r w). unfold count in *. rewrite Zminus_mod_idemp_r.
  replace (w - (r + 1)) with (w - r - 1) by lia. rewrite <- Zminus_mod_idemp_l. apply Z.mod_small. lia.
Qed.

(** The slot of a counter is that of its value before the wrap-around. *)
Lemma slot_wrap w : slot (w mod W) = slot w.
Proof. unfold slot. by rewrite Z.mod_mod_divide. Qed.

Lemma slot_lt w : (slot w < Z.to_nat N)%nat.
Proof. unfold slot. pose proof (Z.mod_pos_bound w N HN). lia. Qed.

(** Slots that differ by less than [N] are different. *)
Lemma slot_inj w k : 0 < k < N -> slot (w - k) <> slot w.
Proof.
  intros Hk H. unfold slot in H. pose proof (Z.mod_pos_bound w N HN). pose proof (Z.mod_pos_bound (w - k) N HN).
  assert (E : (w - k) mod N = w mod N) by lia.
  assert (Hd : k mod N = 0).
  { replace k with (w - (w - k)) by lia. rewrite Zminus_mod, E, Z.sub_diag. by apply Z.mod_0_l; lia. }
  rewrite Z.mod_small in Hd by lia. lia.
Qed.

Lemma slot_count r w k : 0 <= w < W -> slot (r + Z.of_nat k) = slot (w - (count r w - Z.of_nat k)).
Proof.
  intros Hw. rewrite <- (slot_wrap (r + _)), <- (slot_wrap (w - _)). f_equal. unfold count.
  replace (w - ((w - r) mod W - Z.of_nat k)) with (w + Z.of_nat k - (w - r) mod W) by lia.
  rewrite Zminus_mod_idemp_r. f_equal. lia.
Qed.

(** ** The operations of a queue *)

Lemma ring_push buf r w x :
  ring_ok buf r w -> count r w < N ->
  contents (<[slot w := x]> buf) r ((w + 1) mod W) = contents buf r w ++ [x] /\
  ring_ok (<[slot w := x]> buf) r ((w + 1) mod W).
Proof.
  intros [R1 R2 R3 R4] Hc. pose proof (count_range r w) as Hr. pose proof (slot_lt w) as Hs.
  assert (E : count r ((w + 1) mod W) = count r w + 1) by (apply count_succ; lia). split.
  - unfold contents. rewrite E. replace (Z.to_nat (count r w + 1)) with (S (Z.to_nat (count r w))) by lia.
    rewrite seq_S, map_app. f_equal.
    + apply map_ext_in. intros k Hk%list_elem_of_In%elem_of_seq.
      rewrite (slot_count r w) by done. apply list_lookup_total_insert_ne. apply not_eq_sym, slot_inj. lia.
    + simpl. rewrite (slot_count r w) by done. replace (w - _) with w by lia.
      rewrite list_lookup_total_insert_eq by lia. done.
  - split; [by rewrite length_insert|done| |lia]. apply Z.mod_pos_bound. lia.
Qed.

Lemma ring_pop buf r w :
  ring_ok buf r w -> 0 < count r w ->
  contents buf r w = buf !!! slot r :: contents buf ((r + 1) mod W) w /\ ring_ok buf ((r + 1) mod W) w.
Proof.
  intros [R1 R2 R3 R4] Hc. pose proof (count_next r w Hc) as E. split.
  - unfold contents. rewrite E. replace (Z.to_nat (count r w)) with (S (Z.to_nat (count r w - 1))) by lia.
    simpl. rewrite Z.add_0_r. f_equal. rewrite <- seq_shift, map_map. apply map_ext. intros k.
    rewrite <- (slot_wrap ((r + 1) mod W + Z.of_nat k)), Zplus_mod_idemp_l, slot_wrap. do 2 f_equal. lia.
  - split; [done| |done|lia]. apply Z.mod_pos_bound. lia.
Qed.

(** Taking back the last element. *)
Lemma ring_unpush buf r w :
  ring_ok buf r w -> 0 < count r w ->
  contents buf r w = contents buf r ((w - 1) mod W) ++ [buf !!! slot (w - 1)] /\ ring_ok buf r ((w - 1) mod W).
Proof.
  intros [R1 R2 R3 R4] Hc. pose proof (count_pred r w Hc) as E. split.
  - unfold contents. rewrite E. replace (Z.to_nat (count r w)) with (S (Z.to_nat (count r w - 1))) at 1 by lia.
    rewrite seq_S, map_app. simpl. do 2 f_equal. rewrite (slot_count r w) by done. do 2 f_equal. lia.
  - split; [done|done| |lia]. apply Z.mod_pos_bound. lia.
Qed.

(** A queue is the part up to a counter in between, and the rest. *)
Lemma contents_split buf r m w :
  0 <= r < W -> 0 <= m < W -> count r m + count m w = count r w ->
  contents buf r w = contents buf r m ++ contents buf m w.
Proof.
  intros Hr Hm H. pose proof (count_range r m). pose proof (count_range m w). unfold contents. rewrite <- H.
  rewrite Z2Nat.inj_add, seq_app, map_app by lia. f_equal. simpl.
  assert (E : forall c n, seq c n = map (Nat.add c) (seq 0 n)).
  { intros c n. rewrite <- (Nat.add_0_r c) at 1. symmetry. apply fmap_add_seq. }
  rewrite E, map_map. apply map_ext. intros k. f_equal.
  rewrite <- (slot_wrap (m + _)), <- (slot_wrap (r + _)). f_equal.
  rewrite Nat2Z.inj_add, Z2Nat.id by lia. unfold count.
  replace (r + ((m - r) mod W + Z.of_nat k)) with ((m - r) mod W + (r + Z.of_nat k)) by lia.
  rewrite Zplus_mod_idemp_l. f_equal. lia.
Qed.

End Ring.
