(* ===== verification/Sys.v ===== *)
(** * Shared kernel structures: [kernel/proc.h], [kernel/spinlock.h]

    The per-hart [struct cpu], spinlocks, the process table with [nextpid] and
    [initproc], and the record [sys] that holds them.  Kernel code is modelled as one hart sees it between
    two context switches: [scpu] is the [struct cpu] of that hart, and other
    harts show up only as owners of locks.  Locks and sleep channels, which the
    source identifies by address, are identified by name. *)

From S2P Require Import Prelude Riscv.

(** ** Names of locks and sleep channels *)

Inductive lockid :=
| L_kmem | L_pid | L_wait | L_ticks | L_bcache | L_log | L_itable | L_ftable
| L_cons | L_uart_tx | L_pr | L_vdisk
| L_proc (i : nat)
| L_buf (i : nat)      (* bcache.buf[i].lock.lk *)
| L_inode (i : nat)    (* itable.inode[i].lock.lk *)
| L_pipe (pi : Z).

#[export] Instance lockid_eq_dec : EqDecision lockid.
Proof. solve_decision. Defined.

Definition lockid_code (l : lockid) : nat * Z :=
  match l with
  | L_kmem => (0%nat, 0) | L_pid => (1%nat, 0) | L_wait => (2%nat, 0) | L_ticks => (3%nat, 0)
  | L_bcache => (4%nat, 0) | L_log => (5%nat, 0) | L_itable => (6%nat, 0) | L_ftable => (7%nat, 0)
  | L_cons => (8%nat, 0) | L_uart_tx => (9%nat, 0) | L_pr => (10%nat, 0) | L_vdisk => (11%nat, 0)
  | L_proc i => (12%nat, Z.of_nat i) | L_buf i => (13%nat, Z.of_nat i)
  | L_inode i => (14%nat, Z.of_nat i) | L_pipe pi => (15%nat, pi)
  end.

Definition lockid_decode (c : nat * Z) : lockid :=
  match c.1 with
  | 0 => L_kmem | 1 => L_pid | 2 => L_wait | 3 => L_ticks
  | 4 => L_bcache | 5 => L_log | 6 => L_itable | 7 => L_ftable
  | 8 => L_cons | 9 => L_uart_tx | 10 => L_pr | 11 => L_vdisk
  | 12 => L_proc (Z.to_nat c.2) | 13 => L_buf (Z.to_nat c.2)
  | 14 => L_inode (Z.to_nat c.2) | _ => L_pipe c.2
  end%nat.

#[export] Instance lockid_countable : Countable lockid.
Proof.
  apply (inj_countable' lockid_code lockid_decode).
  intros []; unfold lockid_decode, lockid_code; simpl; rewrite ?Nat2Z.id; reflexivity.
Defined.

Inductive chan :=
| Ch_proc (i : nat) | Ch_ticks | Ch_log
| Ch_buflock (i : nat) | Ch_inodelock (i : nat) | Ch_buf (i : nat)
| Ch_nread (pi : Z) | Ch_nwrite (pi : Z)
| Ch_cons_r | Ch_uart_tx_r | Ch_disk_free.

#[export] Instance chan_eq_dec : EqDecision chan.
Proof. solve_decision. Defined.

(** ** struct spinlock *)

Record spinlock := Spinlock {
  lk_locked : bool;
  lk_name : string;
  lk_cpu : option nat
}.

Definition set_lk_locked (x : bool) (s : spinlock) : spinlock :=
  {| lk_locked := x; lk_name := lk_name s; lk_cpu := lk_cpu s |}.

Definition set_lk_name (x : string) (s : spinlock) : spinlock :=
  {| lk_locked := lk_locked s; lk_name := x; lk_cpu := lk_cpu s |}.

Definition set_lk_cpu (x : option nat) (s : spinlock) : spinlock :=
  {| lk_locked := lk_locked s; lk_name := lk_name s; lk_cpu := x |}.

Definition spinlock_zero : spinlock := Spinlock false "" None.

(** ** struct cpu, and the [sstatus] register of its hart *)

Record cpu := Cpu {
  c_id : nat;
  c_proc : option nat;
  c_noff : Z;
  c_intena : bool;
  c_sstatus : Z
}.

Definition set_c_id (x : nat) (c : cpu) : cpu :=
  {| c_id := x; c_proc := c_proc c; c_noff := c_noff c; c_intena := c_intena c;
     c_sstatus := c_sstatus c |}.

Definition set_c_proc (x : option nat) (c : cpu) : cpu :=
  {| c_id := c_id c; c_proc := x; c_noff := c_noff c; c_intena := c_intena c;
     c_sstatus := c_sstatus c |}.

Definition set_c_noff (x : Z) (c : cpu) : cpu :=
  {| c_id := c_id c; c_proc := c_proc c; c_noff := x; c_intena := c_intena c;
     c_sstatus := c_sstatus c |}.

Definition set_c_intena (x : bool) (c : cpu) : cpu :=
  {| c_id := c_id c; c_proc := c_proc c; c_noff := c_noff c; c_intena := x;
     c_sstatus := c_sstatus c |}.

Definition set_c_sstatus (x : Z) (c : cpu) : cpu :=
  {| c_id := c_id c; c_proc := c_proc c; c_noff := c_noff c; c_intena := c_intena c;
     c_sstatus := x |}.

(** ** struct context and struct proc *)

Record context := Context { ctx_ra : Z; ctx_sp : Z; ctx_s : list Z }.

Definition context_zero : context := Context 0 0 (replicate 12 0).

Inductive procstate := UNUSED | USED | SLEEPING | RUNNABLE | RUNNING | ZOMBIE.

#[export] Instance procstate_eq_dec : EqDecision procstate.
Proof. solve_decision. Defined.

Record proc := Proc {
  p_state : procstate;
  p_chan : option chan;
  p_killed : Z;
  p_xstate : Z;
  p_pid : Z;
  p_parent : option nat;
  p_kstack : Z;
  p_sz : Z;
  p_pagetable : Z;
  p_trapframe : Z;
  p_context : context;
  p_ofile : list (option nat);
  p_cwd : option nat;
  p_name : list byte
}.

Definition set_p_state (x : procstate) (p : proc) : proc :=
  {| p_state := x; p_chan := p_chan p; p_killed := p_killed p; p_xstate := p_xstate p;
     p_pid := p_pid p; p_parent := p_parent p; p_kstack := p_kstack p; p_sz := p_sz p;
     p_pagetable := p_pagetable p; p_trapframe := p_trapframe p;
     p_context := p_context p; p_ofile := p_ofile p; p_cwd := p_cwd p;
     p_name := p_name p |}.

Definition set_p_chan (x : option chan) (p : proc) : proc :=
  {| p_state := p_state p; p_chan := x; p_killed := p_killed p; p_xstate := p_xstate p;
     p_pid := p_pid p; p_parent := p_parent p; p_kstack := p_kstack p; p_sz := p_sz p;
     p_pagetable := p_pagetable p; p_trapframe := p_trapframe p;
     p_context := p_context p; p_ofile := p_ofile p; p_cwd := p_cwd p;
     p_name := p_name p |}.

Definition set_p_killed (x : Z) (p : proc) : proc :=
  {| p_state := p_state p; p_chan := p_chan p; p_killed := x; p_xstate := p_xstate p;
     p_pid := p_pid p; p_parent := p_parent p; p_kstack := p_kstack p; p_sz := p_sz p;
     p_pagetable := p_pagetable p; p_trapframe := p_trapframe p;
     p_context := p_context p; p_ofile := p_ofile p; p_cwd := p_cwd p;
     p_name := p_name p |}.

Definition set_p_xstate (x : Z) (p : proc) : proc :=
  {| p_state := p_state p; p_chan := p_chan p; p_killed := p_killed p; p_xstate := x;
     p_pid := p_pid p; p_parent := p_parent p; p_kstack := p_kstack p; p_sz := p_sz p;
     p_pagetable := p_pagetable p; p_trapframe := p_trapframe p;
     p_context := p_context p; p_ofile := p_ofile p; p_cwd := p_cwd p;
     p_name := p_name p |}.

Definition set_p_pid (x : Z) (p : proc) : proc :=
  {| p_state := p_state p; p_chan := p_chan p; p_killed := p_killed p;
     p_xstate := p_xstate p; p_pid := x; p_parent := p_parent p; p_kstack := p_kstack p;
     p_sz := p_sz p; p_pagetable := p_pagetable p; p_trapframe := p_trapframe p;
     p_context := p_context p; p_ofile := p_ofile p; p_cwd := p_cwd p;
     p_name := p_name p |}.

Definition set_p_parent (x : option nat) (p : proc) : proc :=
  {| p_state := p_state p; p_chan := p_chan p; p_killed := p_killed p;
     p_xstate := p_xstate p; p_pid := p_pid p; p_parent := x; p_kstack := p_kstack p;
     p_sz := p_sz p; p_pagetable := p_pagetable p; p_trapframe := p_trapframe p;
     p_context := p_context p; p_ofile := p_ofile p; p_cwd := p_cwd p;
     p_name := p_name p |}.

Definition set_p_kstack (x : Z) (p : proc) : proc :=
  {| p_state := p_state p; p_chan := p_chan p; p_killed := p_killed p;
     p_xstate := p_xstate p; p_pid := p_pid p; p_parent := p_parent p; p_kstack := x;
     p_sz := p_sz p; p_pagetable := p_pagetable p; p_trapframe := p_trapframe p;
     p_context := p_context p; p_ofile := p_ofile p; p_cwd := p_cwd p;
     p_name := p_name p |}.

Definition set_p_sz (x : Z) (p : proc) : proc :=
  {| p_state := p_state p; p_chan := p_chan p; p_killed := p_killed p;
     p_xstate := p_xstate p; p_pid := p_pid p; p_parent := p_parent p;
     p_kstack := p_kstack p; p_sz := x; p_pagetable := p_pagetable p;
     p_trapframe := p_trapframe p; p_context := p_context p; p_ofile := p_ofile p;
     p_cwd := p_cwd p; p_name := p_name p |}.

Definition set_p_pagetable (x : Z) (p : proc) : proc :=
  {| p_state := p_state p; p_chan := p_chan p; p_killed := p_killed p;
     p_xstate := p_xstate p; p_pid := p_pid p; p_parent := p_parent p;
     p_kstack := p_kstack p; p_sz := p_sz p; p_pagetable := x;
     p_trapframe := p_trapframe p; p_context := p_context p; p_ofile := p_ofile p;
     p_cwd := p_cwd p; p_name := p_name p |}.

Definition set_p_trapframe (x : Z) (p : proc) : proc :=
  {| p_state := p_state p; p_chan := p_chan p; p_killed := p_killed p;
     p_xstate := p_xstate p; p_pid := p_pid p; p_parent := p_parent p;
     p_kstack := p_kstack p; p_sz := p_sz p; p_pagetable := p_pagetable p;
     p_trapframe := x; p_context := p_context p; p_ofile := p_ofile p; p_cwd := p_cwd p;
     p_name := p_name p |}.

Definition set_p_context (x : context) (p : proc) : proc :=
  {| p_state := p_state p; p_chan := p_chan p; p_killed := p_killed p;
     p_xstate := p_xstate p; p_pid := p_pid p; p_parent := p_parent p;
     p_kstack := p_kstack p; p_sz := p_sz p; p_pagetable := p_pagetable p;
     p_trapframe := p_trapframe p; p_context := x; p_ofile := p_ofile p;
     p_cwd := p_cwd p; p_name := p_name p |}.

Definition set_p_ofile (x : list (option nat)) (p : proc) : proc :=
  {| p_state := p_state p; p_chan := p_chan p; p_killed := p_killed p;
     p_xstate := p_xstate p; p_pid := p_pid p; p_parent := p_parent p;
     p_kstack := p_kstack p; p_sz := p_sz p; p_pagetable := p_pagetable p;
     p_trapframe := p_trapframe p; p_context := p_context p; p_ofile := x;
     p_cwd := p_cwd p; p_name := p_name p |}.

Definition set_p_cwd (x : option nat) (p : proc) : proc :=
  {| p_state := p_state p; p_chan := p_chan p; p_killed := p_killed p;
     p_xstate := p_xstate p; p_pid := p_pid p; p_parent := p_parent p;
     p_kstack := p_kstack p; p_sz := p_sz p; p_pagetable := p_pagetable p;
     p_trapframe := p_trapframe p; p_context := p_context p; p_ofile := p_ofile p;
     p_cwd := x; p_name := p_name p |}.

Definition set_p_name (x : list byte) (p : proc) : proc :=
  {| p_state := p_state p; p_chan := p_chan p; p_killed := p_killed p;
     p_xstate := p_xstate p; p_pid := p_pid p; p_parent := p_parent p;
     p_kstack := p_kstack p; p_sz := p_sz p; p_pagetable := p_pagetable p;
     p_trapframe := p_trapframe p; p_context := p_context p; p_ofile := p_ofile p;
     p_cwd := p_cwd p; p_name := x |}.

Definition proc_zero : proc :=
  Proc UNUSED None 0 0 0 None 0 0 0 0 context_zero (replicate NOFILE None) None
    (replicate 16 Byte.x00).

#[export] Instance proc_inhabited : Inhabited proc := populate proc_zero.

(** ** The state shared by all components *)

Record sys := Sys {
  scpu : cpu;
  slocks : gmap lockid spinlock;
  sprocs : list proc;
  snextpid : Z;
  sinitproc : option nat
}.

Definition set_scpu (x : cpu) (s : sys) : sys :=
  {| scpu := x; slocks := slocks s; sprocs := sprocs s; snextpid := snextpid s;
     sinitproc := sinitproc s |}.

Definition set_slocks (x : gmap lockid spinlock) (s : sys) : sys :=
  {| scpu := scpu s; slocks := x; sprocs := sprocs s; snextpid := snextpid s;
     sinitproc := sinitproc s |}.

Definition set_sprocs (x : list proc) (s : sys) : sys :=
  {| scpu := scpu s; slocks := slocks s; sprocs := x; snextpid := snextpid s;
     sinitproc := sinitproc s |}.

Definition set_snextpid (x : Z) (s : sys) : sys :=
  {| scpu := scpu s; slocks := slocks s; sprocs := sprocs s; snextpid := x;
     sinitproc := sinitproc s |}.

Definition set_sinitproc (x : option nat) (s : sys) : sys :=
  {| scpu := scpu s; slocks := slocks s; sprocs := sprocs s; snextpid := snextpid s;
     sinitproc := x |}.

(** The lock named [l]; a lock never initialised is zero, as in [.bss]. *)
Definition lock_of (s : sys) (l : lockid) : spinlock := default spinlock_zero (slocks s !! l).

Definition upd_cpu (f : cpu -> cpu) : M sys unit := modify (fun s => set_scpu (f (scpu s)) s).

Definition upd_lock (l : lockid) (f : spinlock -> spinlock) : M sys unit :=
  modify (fun s => set_slocks (<[l := f (lock_of s l)]> (slocks s)) s).

Definition proc_of (s : sys) (i : nat) : proc := sprocs s !!! i.

Definition upd_proc (i : nat) (f : proc -> proc) : M sys unit :=
  modify (fun s => set_sprocs (alter f i (sprocs s)) s).

Definition fresh_cpu (id : nat) : cpu := Cpu id None 0 false 0.

(** The lock is free, as every lock is outside a critical section. *)
Definition lock_free (s : sys) (l : lockid) : Prop := lk_locked (lock_of s l) = false.

(** This hart holds the lock. *)
Definition lock_mine (s : sys) (l : lockid) : Prop :=
  lk_locked (lock_of s l) = true /\ lk_cpu (lock_of s l) = Some (c_id (scpu s)).
