(* ===== verification/Spinlock.v ===== *)
(** * [kernel/spinlock.c]

    The sequential behaviour of spinlocks on one hart ([push_off], [pop_off],
    [acquire], [release], [holding]), and an interleaving model in which any
    number of harts run [acquire] and [release] of one lock, one memory access
    at a time. *)

From S2P Require Import Prelude Riscv Sys.

(** ** riscv.h: interrupts *)

Definition intr_on : M sys unit :=
  upd_cpu (fun c => set_c_sstatus (Z.lor (c_sstatus c) SSTATUS_SIE) c).

Definition intr_off : M sys unit :=
  upd_cpu (fun c => set_c_sstatus (Z.land (c_sstatus c) (Z.lnot SSTATUS_SIE)) c).

Definition cpu_intr (c : cpu) : bool := has (c_sstatus c) SSTATUS_SIE.

Definition intr_get : M sys bool := gets (fun s => cpu_intr (scpu s)).

(** ** spinlock.c *)

Definition mycpu : M sys cpu := gets scpu.

Definition initlock (l : lockid) (name : string) : M sys unit :=
  upd_lock l (set_lk_name name) ;;
  upd_lock l (set_lk_locked false) ;;
  upd_lock l (set_lk_cpu None).

Definition holding (l : lockid) : M sys bool :=
  let! lk := gets (fun s => lock_of s l) in
  let! c := mycpu in
  ret (lk_locked lk && bool_decide (lk_cpu lk = Some (c_id c))).

Definition push_off : M sys unit :=
  let! old := intr_get in
  intr_off ;;
  let! c := mycpu in
  (if c_noff c =? 0 then upd_cpu (set_c_intena old) else ret tt) ;;
  upd_cpu (fun c => set_c_noff (c_noff c + 1) c).

Definition pop_off : M sys unit :=
  let! on := intr_get in
  if on then panic "pop_off - interruptible" else
  let! c := mycpu in
  if c_noff c <? 1 then panic "pop_off" else
  upd_cpu (fun c => set_c_noff (c_noff c - 1) c) ;;
  let! c := mycpu in
  if (c_noff c =? 0) && c_intena c then intr_on else ret tt.

(** [while(__sync_lock_test_and_set(&lk->locked, 1) != 0);] succeeds on a free
    lock; on a taken one it spins until another hart stores to it. *)
Definition acquire (l : lockid) : M sys unit :=
  push_off ;;
  let! h := holding l in
  if h then panic "acquire" else
  let! lk := gets (fun s => lock_of s l) in
  if lk_locked lk then (fun s => Spin s) else
  upd_lock l (set_lk_locked true) ;;
  let! c := mycpu in
  upd_lock l (set_lk_cpu (Some (c_id c))).

Definition release (l : lockid) : M sys unit :=
  let! h := holding l in
  if negb h then panic "release" else
  upd_lock l (set_lk_cpu None) ;;
  upd_lock l (set_lk_locked false) ;;
  pop_off.

(** ** The effect of the operations on the state *)

(** The hart after [push_off] and after [pop_off]. *)
Definition cpu_push (c : cpu) : cpu :=
  Cpu (c_id c) (c_proc c) (c_noff c + 1)
    (if c_noff c =? 0 then cpu_intr c else c_intena c)
    (Z.land (c_sstatus c) (Z.lnot SSTATUS_SIE)).

Definition cpu_pop (c : cpu) : cpu :=
  set_c_noff (c_noff c - 1)
    (if (c_noff c - 1 =? 0) && c_intena c
     then set_c_sstatus (Z.lor (c_sstatus c) SSTATUS_SIE) c else c).

(** [push_off(); pop_off()] leaves a hart unchanged, but for [intena], which
    has no meaning when [noff] is zero. *)
Definition settle (c : cpu) : cpu :=
  if c_noff c =? 0 then set_c_intena (cpu_intr c) c else c.

(** Interrupts are off while any [push_off] is pending. *)
Definition cpu_wf (c : cpu) : Prop :=
  0 <= c_noff c /\ (0 < c_noff c -> cpu_intr c = false).

(** An initialised lock nobody holds. *)
Definition lock_idle (s : sys) (l : lockid) : Prop :=
  exists name, slocks s !! l = Some (Spinlock false name None).

(** The state inside and after the critical section of [l]. *)
Definition locked (l : lockid) (s : sys) : sys :=
  set_scpu (cpu_push (scpu s))
    (set_slocks
       (<[l := Spinlock true (lk_name (lock_of s l)) (Some (c_id (scpu s)))]> (slocks s)) s).

Definition unlocked (l : lockid) (s : sys) : sys :=
  set_scpu (cpu_pop (scpu s))
    (set_slocks (<[l := Spinlock false (lk_name (lock_of s l)) None]> (slocks s)) s).

(** The hart and the locks of [s] put back into [t], once the critical section
    entered from [s] has been left. *)
Definition restored (s t : sys) : sys := set_scpu (settle (scpu s)) (set_slocks (slocks s) t).

Lemma cpu_push_noff c : c_noff (cpu_push c) = c_noff c + 1.
Proof. done. Qed.

Lemma cpu_push_intr c : cpu_intr (cpu_push c) = false.
Proof. apply (has_clear (c_sstatus c) 1). lia. Qed.

Lemma cpu_push_wf c : cpu_wf c -> cpu_wf (cpu_push c).
Proof. intros [H _]. split; [rewrite cpu_push_noff; lia|]. intros _. apply cpu_push_intr. Qed.

Lemma cpu_pop_push c : cpu_wf c -> cpu_pop (cpu_push c) = settle c.
Proof.
  intros [H1 H2]. unfold cpu_pop, settle. rewrite cpu_push_noff.
  replace (c_noff c + 1 - 1) with (c_noff c) by lia.
  destruct c as [id p n i x]; unfold cpu_push, cpu_intr, set_c_noff, set_c_sstatus, set_c_intena in *; simpl in *.
  destruct (Z.eqb_spec n 0) as [->|]; simpl.
  - destruct (has x SSTATUS_SIE) eqn:E; simpl.
    + f_equal. by apply (set_clear_bit x 1).
    + f_equal. by apply (clear_clear_bit x 1).
  - f_equal. apply (clear_clear_bit x 1); [lia|]. apply H2. lia.
Qed.

Lemma cpu_pop_wf c : 1 <= c_noff c -> cpu_intr c = false -> cpu_wf (cpu_pop c).
Proof.
  intros Hn Hi. unfold cpu_pop, cpu_wf, cpu_intr in *.
  destruct (Z.eqb_spec (c_noff c - 1) 0), (c_intena c); simpl; split; try lia; done.
Qed.

Lemma settle_idemp c : settle (settle c) = settle c.
Proof. unfold settle. destruct (c_noff c =? 0) eqn:E; simpl; by rewrite E. Qed.

Lemma settle_wf c : cpu_wf c -> cpu_wf (settle c).
Proof. unfold settle. by destruct (c_noff c =? 0). Qed.

Lemma settle_id c : c_id (settle c) = c_id c.
Proof. unfold settle. by destruct (c_noff c =? 0). Qed.

Lemma settle_proc c : c_proc (settle c) = c_proc c.
Proof. unfold settle. by destruct (c_noff c =? 0). Qed.

Lemma settle_noff c : c_noff (settle c) = c_noff c.
Proof. unfold settle. by destruct (c_noff c =? 0). Qed.

Lemma settle_intr c : cpu_intr (settle c) = cpu_intr c.
Proof. unfold settle. by destruct (c_noff c =? 0). Qed.

(** Inside a critical section there is nothing to settle. *)
Lemma settle_nested c : 0 < c_noff c -> settle c = c.
Proof. intros. unfold settle. destruct (Z.eqb_spec (c_noff c) 0); [lia|done]. Qed.

Lemma lock_of_Some s l lk : slocks s !! l = Some lk -> lock_of s l = lk.
Proof. intros H. unfold lock_of. by rewrite H. Qed.

Lemma push_off_ok s : push_off s = Ok tt (set_scpu (cpu_push (scpu s)) s).
Proof.
  destruct s as [[id p n i x] ls ps np ip].
  unfold push_off, bind, intr_get, intr_off, mycpu, upd_cpu, gets, modify; simpl.
  by destruct (n =? 0) eqn:E; unfold cpu_push; simpl; rewrite E.
Qed.

Lemma pop_off_ok s :
  cpu_intr (scpu s) = false -> 1 <= c_noff (scpu s) ->
  pop_off s = Ok tt (set_scpu (cpu_pop (scpu s)) s).
Proof.
  intros H1 H2. unfold pop_off, intr_get. rewrite bind_gets, H1.
  unfold mycpu. rewrite bind_gets.
  destruct (Z.ltb_spec (c_noff (scpu s)) 1); [lia|].
  unfold upd_cpu. rewrite bind_modify, bind_gets. simpl.
  unfold cpu_pop, intr_on, upd_cpu, modify, ret.
  destruct s as [[id p n i x] ls ps np ip]; simpl.
  by destruct ((n - 1 =? 0) && i).
Qed.

Lemma holding_eq l s :
  holding l s = Ok (lk_locked (lock_of s l) &&
                    bool_decide (lk_cpu (lock_of s l) = Some (c_id (scpu s)))) s.
Proof. done. Qed.

Lemma holding_mine l s : lock_mine s l -> holding l s = Ok true s.
Proof. intros [H1 H2]. rewrite holding_eq, H1, bool_decide_true; done. Qed.

Lemma acquire_ok l s : lock_free s l -> acquire l s = Ok tt (locked l s).
Proof.
  unfold lock_free. intros H. unfold acquire.
  rewrite (bind_Ok _ _ _ _ _ (push_off_ok s)).
  rewrite (bind_Ok _ _ _ _ _ (holding_eq l _)).
  change (lock_of (set_scpu _ s) l) with (lock_of s l). rewrite H, andb_false_l.
  rewrite bind_gets. change (lock_of (set_scpu _ s) l) with (lock_of s l). rewrite H.
  unfold upd_lock, mycpu. rewrite bind_modify, bind_gets. unfold modify, locked. simpl.
  f_equal. f_equal. rewrite insert_insert_eq. f_equal.
  unfold lock_of at 1. simpl. rewrite lookup_insert_eq. simpl. done.
Qed.

Lemma release_ok l s :
  lock_mine s l -> cpu_intr (scpu s) = false -> 1 <= c_noff (scpu s) ->
  release l s = Ok tt (unlocked l s).
Proof.
  intros Hm Hi Hn. unfold release.
  rewrite (bind_Ok _ _ _ _ _ (holding_mine _ _ Hm)). cbn [negb].
  unfold upd_lock. rewrite !bind_modify. rewrite pop_off_ok by done.
  unfold unlocked, set_scpu, set_slocks; simpl. f_equal. f_equal.
  rewrite insert_insert_eq. f_equal.
  unfold lock_of at 1. simpl. by rewrite lookup_insert_eq.
Qed.

Lemma lock_idle_free s l : lock_idle s l -> lock_free s l.
Proof. intros [n H]. unfold lock_free. by rewrite (lock_of_Some _ _ _ H). Qed.

Lemma locked_mine l s : lock_mine (locked l s) l.
Proof. unfold lock_mine, locked, lock_of. simpl. by rewrite lookup_insert_eq. Qed.

(** Leaving the critical section that was entered from [s], when the code in
    between has not touched the locks or the hart. *)
Lemma unlocked_locked l s t :
  cpu_wf (scpu s) -> lock_idle s l ->
  scpu t = scpu (locked l s) -> slocks t = slocks (locked l s) ->
  unlocked l t = restored s t.
Proof.
  intros Hwf [n Hl] Hc Hk. unfold unlocked, restored, lock_of. rewrite Hc, Hk. simpl.
  rewrite cpu_pop_push, lookup_insert_eq, insert_insert_eq by done. simpl.
  rewrite insert_id; [done|]. unfold lock_of. by rewrite Hl.
Qed.

Lemma release_locked l s t :
  cpu_wf (scpu s) -> lock_idle s l ->
  scpu t = scpu (locked l s) -> slocks t = slocks (locked l s) ->
  release l t = Ok tt (restored s t).
Proof.
  intros Hwf Hl Hc Hk. rewrite <- (unlocked_locked l s t) by done.
  apply release_ok; rewrite ?Hc.
  - destruct (locked_mine l s) as [H1 H2]. unfold lock_mine, lock_of in *. by rewrite Hc, Hk.
  - apply cpu_push_intr.
  - simpl. destruct Hwf. lia.
Qed.

(** A critical section: [acquire], a body that leaves locks and hart alone,
    [release]. *)
Lemma critical_section {A} l (s : sys) (body : M sys A) a t :
  cpu_wf (scpu s) -> lock_idle s l ->
  body (locked l s) = Ok a t ->
  scpu t = scpu (locked l s) -> slocks t = slocks (locked l s) ->
  (acquire l ;; let! r := body in release l ;; ret r) s = Ok a (restored s t).
Proof.
  intros Hwf Hl Hb Hc Hk.
  krun (acquire_ok l s (lock_idle_free _ _ Hl)). krun Hb.
  by krun (release_locked l s t Hwf Hl Hc Hk).
Qed.

(** [push_off(); pop_off()] has no effect on this hart: a [push_off] is pending,
    or [intena] is up to date. *)
Definition settled (s : sys) : Prop := cpu_wf (scpu s) /\ settle (scpu s) = scpu s.

Lemma settled_nested s : cpu_wf (scpu s) -> 0 < c_noff (scpu s) -> settled s.
Proof. intros. split; [done|]. by apply settle_nested. Qed.

Lemma restored_settled s t : settled s -> restored s t = set_scpu (scpu s) (set_slocks (slocks s) t).
Proof. intros [_ H]. unfold restored. by rewrite H. Qed.

Lemma set_scpu_same s c : scpu s = c -> set_scpu c s = s.
Proof. intros <-. by destruct s. Qed.

Lemma set_slocks_same s l : slocks s = l -> set_slocks l s = s.
Proof. intros <-. by destruct s. Qed.

Lemma release_settled l s t :
  settled s -> lock_idle s l ->
  scpu t = scpu (locked l s) -> slocks t = slocks (locked l s) ->
  release l t = Ok tt (set_scpu (scpu s) (set_slocks (slocks s) t)).
Proof.
  intros Hs Hl Hc Hk. rewrite (release_locked l s t) by (done || apply Hs).
  by rewrite restored_settled.
Qed.

(** The same for a client whose state contains the hart's. *)
Section Zoom.
Context {S : Type} (ls : lens S sys) `{!LensLaws ls}.

Lemma zoom_acquire l s :
  lock_idle (lget ls s) l ->
  zoom ls (acquire l) s = Ok tt (lset ls (locked l (lget ls s)) s).
Proof. intros H. by apply zoom_Ok, acquire_ok, lock_idle_free. Qed.

Lemma zoom_release l s0 t :
  settled s0 -> lock_idle s0 l -> lget ls t = locked l s0 ->
  zoom ls (release l) t = Ok tt (lset ls s0 t).
Proof.
  intros Hs Hl Ht. unfold zoom. rewrite Ht, (release_settled l s0) by done. simpl.
  by destruct s0.
Qed.

(** [acquire(l); body; release(l)] with a body that leaves locks, hart and
    process table alone runs as the body alone. *)
Lemma zoom_critical {A B} l s (body : M S A) (k : A -> M S B) a t :
  settled (lget ls s) -> lock_idle (lget ls s) l ->
  body (lset ls (locked l (lget ls s)) s) = Ok a t ->
  lget ls t = locked l (lget ls s) ->
  (zoom ls (acquire l) ;; let! r := body in zoom ls (release l) ;; k r) s =
  k a (lset ls (lget ls s) t).
Proof.
  intros Hs Hl Hb Ht. krun (zoom_acquire l s Hl). krun Hb.
  by krun (zoom_release l (lget ls s) t Hs Hl Ht).
Qed.

End Zoom.

Lemma acquire_held l s :
  lock_mine s l -> acquire l s = Panic "acquire" (set_scpu (cpu_push (scpu s)) s).
Proof.
  intros [H1 H2]. unfold acquire. krun (push_off_ok s).
  rewrite (bind_Ok _ _ _ _ _ (holding_eq l _)).
  change (lock_of (set_scpu _ s) l) with (lock_of s l). simpl c_id.
  by rewrite H1, H2, bool_decide_true.
Qed.

Lemma initlock_ok l name s :
  initlock l name s = Ok tt (set_slocks (<[l := Spinlock false name None]> (slocks s)) s).
Proof.
  unfold initlock, upd_lock. rewrite !bind_modify. unfold modify. f_equal.
  unfold lock_of, set_slocks; simpl. rewrite !lookup_insert_eq. simpl. by rewrite !insert_insert_eq.
Qed.

Lemma initlock_idle l name s :
  lock_idle (set_slocks (<[l := Spinlock false name None]> (slocks s)) s) l.
Proof. exists name. simpl. apply lookup_insert_eq. Qed.

(** ** Nesting of push_off and pop_off *)

Fixpoint push_n (n : nat) : M sys unit :=
  match n with O => ret tt | S n => push_off ;; push_n n end.

Fixpoint pop_n (n : nat) : M sys unit :=
  match n with O => ret tt | S n => pop_off ;; pop_n n end.

Fixpoint push_iter (n : nat) (c : cpu) : cpu :=
  match n with O => c | S n => cpu_push (push_iter n c) end.

Lemma push_iter_push n c : push_iter n (cpu_push c) = cpu_push (push_iter n c).
Proof. induction n as [|n IH]; simpl; [done|]. by rewrite IH. Qed.

Lemma push_n_ok n s : push_n n s = Ok tt (set_scpu (push_iter n (scpu s)) s).
Proof.
  revert s. induction n as [|n IH]; intros s; cbn [push_n]; [by destruct s|].
  krun (push_off_ok s). rewrite IH. unfold set_scpu; simpl. by rewrite push_iter_push.
Qed.

Lemma push_iter_noff n c : c_noff (push_iter n c) = c_noff c + Z.of_nat n.
Proof. induction n as [|n IH]; cbn [push_iter]; rewrite ?cpu_push_noff; lia. Qed.

Lemma push_iter_wf n c : cpu_wf c -> cpu_wf (push_iter n c).
Proof. induction n; intros; simpl; auto using cpu_push_wf. Qed.

Lemma pop_n_ok c k n s :
  cpu_wf c -> (k <= n)%nat -> scpu s = push_iter n c ->
  pop_n k s = Ok tt (set_scpu (if decide (k = n) then if decide (n = O) then c else settle c
                               else push_iter (n - k) c) s).
Proof.
  intros Hwf. revert n s. induction k as [|k IH]; intros n s Hk Hs.
  - destruct n; simpl in Hs |- *; destruct s; simpl in *; by rewrite Hs.
  - destruct n as [|n]; [lia|]. cbn [pop_n].
    rewrite (bind_Ok _ _ _ tt (set_scpu (settle (push_iter n c)) s)).
    + destruct (decide (n = O)) as [->|Hn].
      * assert (k = O) as -> by lia. done.
      * rewrite (IH n); [|lia|].
        -- destruct (decide (k = n)), (decide (S k = S n)); try lia; [|done].
           by destruct (decide (n = O)), (decide (S n = O)).
        -- simpl. apply settle_nested. rewrite push_iter_noff. destruct Hwf. lia.
    + rewrite pop_off_ok; rewrite Hs; simpl.
      * by rewrite cpu_pop_push by (by apply push_iter_wf).
      * apply cpu_push_intr.
      * rewrite push_iter_noff. destruct Hwf. lia.
Qed.

(** ** Interleavings of acquire and release *)

Module Interleave.

(** Where a hart is in [acquire(lk)] or [release(lk)]: [A_] and [R_] points
    name the next access to make.  [Crit] is the critical section. *)
Inductive pc :=
| Idle
| A_push | A_locked | A_cpu | A_swap | A_setcpu
| Crit
| R_locked | R_cpu | R_clear | R_unlock | R_pop
| Panicked.

#[export] Instance pc_eq_dec : EqDecision pc.
Proof. solve_decision. Defined.

Record hart := Hart { h_pc : pc; h_cpu : cpu }.

(** One lock, [locked] and [cpu], and the harts that use it. *)
Record conf := Conf {
  g_locked : bool;
  g_cpu : option nat;
  g_harts : list hart
}.

Definition goto (i : nat) (p : pc) (h : hart) (locked : bool) (lcpu : option nat)
    (g : conf) : conf :=
  Conf locked lcpu (<[i := Hart p (h_cpu h)]> (g_harts g)).

(** One access of hart [i] in state [h]. *)
Definition hart_step (i : nat) (h : hart) (g : conf) : conf :=
  let keep p := goto i p h (g_locked g) (g_cpu g) g in
  match h_pc h with
  | Idle => keep A_push
  | A_push => (* push_off() *)
      goto i A_locked (Hart A_push (cpu_push (h_cpu h))) (g_locked g) (g_cpu g) g
  | A_locked => (* holding(): lk->locked *)
      if g_locked g then keep A_cpu else keep A_swap
  | A_cpu => (* holding(): lk->cpu == mycpu() *)
      if bool_decide (g_cpu g = Some (c_id (h_cpu h))) then keep Panicked else keep A_swap
  | A_swap => (* amoswap *)
      if g_locked g then goto i A_swap h true (g_cpu g) g
      else goto i A_setcpu h true (g_cpu g) g
  | A_setcpu => goto i Crit h (g_locked g) (Some (c_id (h_cpu h))) g
  | Crit => keep R_locked
  | R_locked => if g_locked g then keep R_cpu else keep Panicked
  | R_cpu =>
      if bool_decide (g_cpu g = Some (c_id (h_cpu h))) then keep R_clear else keep Panicked
  | R_clear => goto i R_unlock h (g_locked g) None g
  | R_unlock => goto i R_pop h false (g_cpu g) g
  | R_pop => (* pop_off() *)
      if cpu_intr (h_cpu h) || (c_noff (h_cpu h) <? 1) then keep Panicked
      else goto i Idle (Hart R_pop (cpu_pop (h_cpu h))) (g_locked g) (g_cpu g) g
  | Panicked => keep Panicked
  end.

Inductive step : conf -> conf -> Prop :=
| step_hart g i h : g_harts g !! i = Some h -> step g (hart_step i h g).

(** All harts outside, the lock initialised. *)
Definition initial (g : conf) : Prop :=
  g_locked g = false /\ g_cpu g = None /\
  forall i h, g_harts g !! i = Some h ->
    h_pc h = Idle /\ c_id (h_cpu h) = i /\ cpu_wf (h_cpu h).

(** The hart has won the swap and not yet stored 0. *)
Definition owns (p : pc) : bool :=
  match p with A_setcpu | Crit | R_locked | R_cpu | R_clear | R_unlock => true | _ => false end.

(** [lk->cpu] names the hart. *)
Definition named (p : pc) : bool :=
  match p with Crit | R_locked | R_cpu | R_clear => true | _ => false end.

(** [push_off] is pending. *)
Definition pushed (p : pc) : bool :=
  match p with Idle | A_push | Panicked => false | _ => true end.

Record inv (g : conf) : Prop := {
  inv_owns : forall i h, g_harts g !! i = Some h -> owns (h_pc h) = true -> g_locked g = true;
  inv_unique : forall i j hi hj, g_harts g !! i = Some hi -> g_harts g !! j = Some hj ->
    owns (h_pc hi) = true -> owns (h_pc hj) = true -> i = j;
  inv_cpu : forall i h, g_harts g !! i = Some h ->
    (g_cpu g = Some i <-> named (h_pc h) = true);
  inv_range : forall i, g_cpu g = Some i -> is_Some (g_harts g !! i);
  inv_hart : forall i h, g_harts g !! i = Some h ->
    c_id (h_cpu h) = i /\ cpu_wf (h_cpu h) /\ h_pc h <> Panicked /\
    (pushed (h_pc h) = true -> 1 <= c_noff (h_cpu h) /\ cpu_intr (h_cpu h) = false)
}.

Lemma initial_inv g : initial g -> inv g.
Proof.
  intros (Hl & Hc & Hh). split.
  - intros i h Hi. destruct (Hh i h Hi) as (-> & _). done.
  - intros i j hi hj Hi Hj. destruct (Hh i hi Hi) as (-> & _). done.
  - intros i h Hi. destruct (Hh i h Hi) as (-> & _). rewrite Hc. done.
  - rewrite Hc. done.
  - intros i h Hi. destruct (Hh i h Hi) as (-> & ? & ?). done.
Qed.

(** Moving hart [i] to [p], with the lock's fields changed to [l] and [k],
    keeps the invariant when the other harts cannot tell. *)
Lemma inv_goto g i h p c l k :
  inv g -> g_harts g !! i = Some h ->
  c_id c = i -> cpu_wf c -> p <> Panicked ->
  (pushed p = true -> 1 <= c_noff c /\ cpu_intr c = false) ->
  (owns p = true -> l = true /\ (owns (h_pc h) = true \/ g_locked g = false)) ->
  (l = false -> owns (h_pc h) = true \/ g_locked g = false) ->
  (k = Some i <-> named p = true) ->
  (forall j, j <> i -> k = Some j <-> g_cpu g = Some j) ->
  inv (Conf l k (<[i := Hart p c]> (g_harts g))).
Proof.
  intros [I1 I2 I3 I4 I5] Hi Hid Hwf Hp Hpush Hown Hl Hk Hk'.
  assert (Hlt : (i < length (g_harts g))%nat) by eauto using lookup_lt_Some.
  assert (Hlk : forall j hj, <[i := Hart p c]> (g_harts g) !! j = Some hj ->
    j = i /\ hj = Hart p c \/ j <> i /\ g_harts g !! j = Some hj).
  { intros j hj. destruct (decide (j = i)) as [->|].
    - rewrite list_lookup_insert_eq by done. intros; simplify_eq. by left.
    - rewrite list_lookup_insert_ne by done. by right. }
  split; simpl.
  - intros j hj [[-> ->]|[Hj Hjl]]%Hlk Ho; [by apply Hown|].
    destruct l; [done|]. exfalso. pose proof (I1 j hj Hjl Ho).
    destruct Hl as [Ho'|]; [done| |congruence].
    apply Hj. symmetry. by eapply I2.
  - assert (Hx : forall j hj, j <> i -> g_harts g !! j = Some hj ->
      owns (h_pc hj) = true -> owns p = true -> False).
    { intros j hj Hj Hjl Ho Hop. destruct (Hown Hop) as [_ [Ho'|Hf]].
      - apply Hj. by eapply I2.
      - pose proof (I1 j hj Hjl Ho). congruence. }
    intros j j' hj hj' [[-> ->]|[Hj Hjl]]%Hlk [[-> ->]|[Hj' Hjl']]%Hlk Ho Ho'; simpl in *.
    + done.
    + exfalso; eauto.
    + exfalso; eauto.
    + by eapply I2.
  - intros j hj [[-> ->]|[Hj Hjl]]%Hlk; [done|]. rewrite Hk' by done. by apply I3.
  - intros j Hj. apply lookup_lt_is_Some. rewrite length_insert.
    destruct (decide (j = i)) as [->|Hji]; [done|].
    apply lookup_lt_is_Some, I4. by apply Hk'.
  - intros j hj [[-> ->]|[Hj Hjl]]%Hlk; [done|]. by apply I5.
Qed.

(** Discharge the routine premises of [inv_goto]. *)
Ltac move_to I Hi E :=
  eapply inv_goto; [exact I | exact Hi | ..]; rewrite ?E; simpl;
  try solve [done | auto | by intros; auto | by split | by intuition congruence];
  try (intros _).

Lemma inv_step g g' : inv g -> step g g' -> inv g'.
Proof.
  intros I Hs. destruct Hs as [g0 i h Hi]. pose proof I as [I1 I2 I3 I4 I5].
  destruct (I5 i h Hi) as (Hid & Hwf & Hp & Hpush).
  pose proof (I3 i h Hi) as Hc. pose proof (I1 i h Hi) as Ho.
  assert (Hsame : forall j, j <> i -> g_cpu g0 = Some j <-> g_cpu g0 = Some j) by done.
  assert (Hfree : g_locked g0 = false -> forall j, g_cpu g0 <> Some j).
  { intros Hf j Hj. destruct (I4 j Hj) as [hj Hhj]. apply (I3 j hj Hhj) in Hj.
    rewrite (I1 j hj Hhj) in Hf; [done|]. by destruct (h_pc hj). }
  assert (Hown : owns (h_pc h) = true -> forall j, j <> i -> g_cpu g0 <> Some j).
  { intros Hh j Hji Hj. destruct (I4 j Hj) as [hj Hhj]. apply (I3 j hj Hhj) in Hj.
    apply Hji. eapply I2; [done..| |done]. by destruct (h_pc hj). }
  clear I1 I2 I3 I4 I5.
  unfold hart_step, goto. destruct (h_pc h) eqn:E; simpl in *; rewrite ?Hid.
  - move_to I Hi E.
  - move_to I Hi E; [by apply cpu_push_wf|].
    split; [destruct Hwf; lia|apply cpu_push_intr].
  - destruct (g_locked g0) eqn:El; move_to I Hi E.
  - rewrite bool_decide_false by (by intros ?%Hc). move_to I Hi E.
  - destruct (g_locked g0) eqn:El; move_to I Hi E.
  - move_to I Hi E. intros j Hji. split; [congruence|]. intros Hk. by destruct (Hown eq_refl j Hji).
  - move_to I Hi E.
  - rewrite Ho by done. move_to I Hi E.
  - rewrite bool_decide_true by (by apply Hc). move_to I Hi E.
  - move_to I Hi E.
  - move_to I Hi E.
  - destruct Hpush as [Hn Hx]; [done|]. rewrite Hx.
    destruct (Z.ltb_spec (c_noff (h_cpu h)) 1); [lia|]. simpl.
    move_to I Hi E; [by destruct (_ && c_intena _)|by apply cpu_pop_wf].
  - done.
Qed.

Lemma inv_reachable g g' : initial g -> rtc step g g' -> inv g'.
Proof.
  intros Hi Hr. apply initial_inv in Hi. induction Hr; [done|]. eauto using inv_step.
Qed.

(** C5: mutual exclusion.  However the accesses of [acquire] and [release]
    interleave on any number of harts, at most one hart is in the critical
    section, interrupts are off on it, and neither [holding] test panics. *)
Theorem spinlock_mutual_exclusion (g g' : conf) (i j : nat) (hi hj : hart)
    (Hinit : initial g) (Hrun : rtc step g g')
    (Hi : g_harts g' !! i = Some hi) (Hj : g_harts g' !! j = Some hj) :
  (h_pc hi = Crit -> h_pc hj = Crit -> i = j) /\
  (h_pc hi = Crit -> cpu_intr (h_cpu hi) = false) /\
  h_pc hi <> Panicked.
Proof.
  destruct (inv_reachable g g' Hinit Hrun) as [I1 I2 I3 I4 I5].
  destruct (I5 i hi Hi) as (_ & _ & Hp & Hpush). split_and!; [|..|done].
  - intros Ei Ej. apply (I2 i j hi hj); rewrite ?Ei, ?Ej; done.
  - intros Ei. apply Hpush. by rewrite Ei.
Qed.

(** Two harts; hart 0 runs [acquire] up to its critical section, hart 1 runs
    [acquire] as far as the swap, and spins. *)
Definition two_harts : conf :=
  Conf false None [Hart Idle (Cpu 0 None 0 false 2); Hart Idle (Cpu 1 None 0 false 2)].

Definition sched_step (g : conf) (i : nat) : conf :=
  match g_harts g !! i with Some h => hart_step i h g | None => g end.

Definition contended : conf :=
  foldl sched_step two_harts [0; 0; 1; 0; 1; 0; 1; 1; 0; 1; 1]%nat.

Lemma sched_reachable g l : rtc step g (foldl sched_step g l).
Proof.
  revert g. induction l as [|i l IH]; intros g; simpl; [done|].
  unfold sched_step at 2. destruct (g_harts g !! i) as [h|] eqn:E; [|apply IH].
  eapply rtc_l; [|apply IH]. by constructor.
Qed.

Lemma two_harts_initial : initial two_harts.
Proof.
  split_and!; [done|done|]. intros [|[|i]] h H; simplify_eq/=; split_and!; done.
Qed.

Lemma spinlock_mutual_exclusion_witness :
  exists h0 h1, g_harts contended !! 0%nat = Some h0 /\ g_harts contended !! 1%nat = Some h1 /\
    h_pc h0 = Crit /\ h_pc h1 = A_swap /\ cpu_intr (h_cpu h0) = false.
Proof.
  do 2 eexists. split; [vm_compute; reflexivity|]. split; [vm_compute; reflexivity|].
  split; [done|]. split; [done|].
  apply (spinlock_mutual_exclusion two_harts contended 0 1 _ (Hart A_swap (Cpu 1 None 1 true 0))
           two_harts_initial (sched_reachable _ _)); reflexivity.
Defined.

End Interleave.

(** ** Properties *)

(** [push_off]/[pop_off] are matched.  After [n] nested [push_off]s, as
    long as fewer than [n] [pop_off]s have run, interrupts are off; [n]
    [pop_off]s bring [sstatus] and [noff] back to what they were. *)
Theorem push_pop_nested (s : sys) (n k : nat) (Hwf : cpu_wf (scpu s)) (Hk : (k <= n)%nat) :
  exists s', (push_n n ;; pop_n k) s = Ok tt s' /\
    c_noff (scpu s') = c_noff (scpu s) + Z.of_nat n - Z.of_nat k /\
    cpu_intr (scpu s') = (if decide (k = n) then cpu_intr (scpu s) else false) /\
    (k = n -> c_sstatus (scpu s') = c_sstatus (scpu s)) /\
    slocks s' = slocks s /\ sprocs s' = sprocs s.
Proof.
  eexists. split.
  - krun (push_n_ok n s). by apply (pop_n_ok (scpu s)).
  - simpl. destruct (decide (k = n)) as [->|Hne].
    + destruct (decide (n = O)) as [->|]; rewrite ?settle_noff, ?settle_intr; split_and!;
        try lia; try done. intros _. unfold settle. by destruct (c_noff (scpu s) =? 0).
    + rewrite push_iter_noff. split_and!; try lia; try done.
      destruct (n - k)%nat eqn:E; [lia|]. simpl. apply cpu_push_intr.
Qed.

Definition sys_boot : sys :=
  Sys (Cpu 0 None 0 false 2) (<[L_kmem := Spinlock false "kmem" None]> ∅) [] 1 None.

Lemma push_pop_nested_witness :
  exists s', (push_n 3 ;; pop_n 2) sys_boot = Ok tt s' /\ cpu_intr (scpu s') = false.
Proof.
  destruct (push_pop_nested sys_boot 3 2) as (s' & H & _ & Hi & _); [done|lia|].
  exists s'. split; [exact H|exact Hi].
Defined.

(** [acquire] of a free lock succeeds and takes it; taking it again from
    the same hart panics; [release] by the holder frees it and restores the
    hart, and a second [release] panics. *)
Theorem acquire_release_correct (s : sys) (l : lockid)
    (Hwf : cpu_wf (scpu s)) (Hl : lock_idle s l) :
  acquire l s = Ok tt (locked l s) /\ lock_mine (locked l s) l /\
  (exists s', (acquire l ;; acquire l) s = Panic "acquire" s') /\
  (acquire l ;; release l) s = Ok tt (set_scpu (settle (scpu s)) s) /\
  (acquire l ;; release l ;; release l) s = Panic "release" (set_scpu (settle (scpu s)) s).
Proof.
  pose proof (acquire_ok l s (lock_idle_free _ _ Hl)) as Ha.
  assert (Hr : release l (locked l s) = Ok tt (set_scpu (settle (scpu s)) s)).
  { by rewrite (release_locked l s (locked l s)). }
  split_and!; [done|apply locked_mine| | |].
  - eexists. krun Ha. apply acquire_held, locked_mine.
  - by krun Ha.
  - krun Ha. krun Hr. destruct Hl as [nm Hl]. unfold release, bind. rewrite holding_eq.
    change (lock_of (set_scpu _ s) l) with (lock_of s l).
    by rewrite (lock_of_Some _ _ _ Hl).
Qed.

Lemma acquire_release_correct_witness :
  (acquire L_kmem ;; release L_kmem) sys_boot = Ok tt (set_scpu (settle (scpu sys_boot)) sys_boot).
Proof.
  apply (acquire_release_correct sys_boot L_kmem); [done|by eexists].
Defined.
