(* ===== verification/Proc.v ===== *)
(** * [kernel/proc.c]: scheduling, sleep and wakeup

    The part of [proc.c] that works on the process table and the hart alone:
    [myproc], [allocpid], [sched], [yield], [sleep], [wakeup], [kill], the
    scheduler.  [swtch] is the [Switch] outcome: control leaves, and comes back
    in whatever state the process is next resumed. *)

From S2P Require Import Prelude Riscv Sys Spinlock.

(** A null [struct proc *] that the kernel follows faults into [kerneltrap]. *)
Definition deref {A} (o : option A) : M sys A :=
  match o with Some a => ret a | None => panic "kerneltrap" end.

Definition cpuid : M sys nat := gets (fun s => c_id (scpu s)).

Definition myproc : M sys (option nat) :=
  push_off ;;
  let! c := mycpu in
  let p := c_proc c in
  pop_off ;;
  ret p.

Definition procinit : M sys unit :=
  initlock L_pid "nextpid" ;;
  initlock L_wait "wait_lock" ;;
  forM (seq 0 NPROC) (fun i =>
    initlock (L_proc i) "proc" ;;
    upd_proc i (set_p_state UNUSED) ;;
    upd_proc i (set_p_kstack (KSTACK (Z.of_nat i)))).

Definition allocpid : M sys Z :=
  acquire L_pid ;;
  let! pid := gets snextpid in
  modify (set_snextpid (s32 (pid + 1))) ;;
  release L_pid ;;
  ret pid.

(** [swtch(&old, &new)] *)
Definition swtch : M sys unit := fun s => Switch s (fun t => Ok tt t).

Definition sched : M sys unit :=
  let! p := myproc in
  let! i := deref p in
  let! h := holding (L_proc i) in
  if negb h then panic "sched p->lock" else
  let! c := mycpu in
  if negb (c_noff c =? 1) then panic "sched locks" else
  let! p := gets (fun s => proc_of s i) in
  if decide (p_state p = RUNNING) then panic "sched running" else
  let! on := intr_get in
  if on then panic "sched interruptible" else
  let! c := mycpu in
  let intena := c_intena c in
  swtch ;;
  upd_cpu (set_c_intena intena).

Definition yield : M sys unit :=
  let! p := myproc in
  let! i := deref p in
  acquire (L_proc i) ;;
  upd_proc i (set_p_state RUNNABLE) ;;
  sched ;;
  release (L_proc i).

Definition sleep (ch : chan) (lk : lockid) : M sys unit :=
  let! p := myproc in
  let! i := deref p in
  acquire (L_proc i) ;;
  release lk ;;
  upd_proc i (set_p_chan (Some ch)) ;;
  upd_proc i (set_p_state SLEEPING) ;;
  sched ;;
  upd_proc i (set_p_chan None) ;;
  release (L_proc i) ;;
  acquire lk.

(** The body of the loop of [wakeup]. *)
Definition wakeup_one (ch : chan) (i : nat) : M sys unit :=
  let! me := myproc in
  if decide (Some i = me) then ret tt else
  acquire (L_proc i) ;;
  let! p := gets (fun s => proc_of s i) in
  (if decide (p_state p = SLEEPING /\ p_chan p = Some ch)
   then upd_proc i (set_p_state RUNNABLE) else ret tt) ;;
  release (L_proc i).

Definition wakeup (ch : chan) : M sys unit := forM (seq 0 NPROC) (wakeup_one ch).

(** The body of the loop of [kill]: [Some r] is [return r]. *)
Definition kill_one (pid : Z) (i : nat) : M sys (option Z) :=
  acquire (L_proc i) ;;
  let! p := gets (fun s => proc_of s i) in
  if p_pid p =? pid then
    upd_proc i (set_p_killed 1) ;;
    let! p := gets (fun s => proc_of s i) in
    (if decide (p_state p = SLEEPING) then upd_proc i (set_p_state RUNNABLE) else ret tt) ;;
    release (L_proc i) ;;
    ret (Some 0)
  else
    release (L_proc i) ;;
    ret None.

Definition kill (pid : Z) : M sys Z :=
  let! r := find_loop (seq 0 NPROC) (kill_one pid) in
  ret (default (-1) r).

Definition setkilled (i : nat) : M sys unit :=
  acquire (L_proc i) ;;
  upd_proc i (set_p_killed 1) ;;
  release (L_proc i).

Definition killed (i : nat) : M sys Z :=
  acquire (L_proc i) ;;
  let! p := gets (fun s => proc_of s i) in
  let k := p_killed p in
  release (L_proc i) ;;
  ret k.

(** Pass the children of process [p] to init. *)
Definition reparent (p : nat) : M sys unit :=
  forM (seq 0 NPROC) (fun i =>
    let! pp := gets (fun s => proc_of s i) in
    if decide (p_parent pp = Some p) then
      let! ip := gets sinitproc in
      upd_proc i (set_p_parent ip) ;;
      let! ini := deref ip in
      wakeup (Ch_proc ini)
    else ret tt).

(** The inner loop of [scheduler]: [found] tells whether some process ran. *)
Fixpoint scheduler_scan (l : list nat) (found : bool) : M sys bool :=
  match l with
  | [] => ret found
  | i :: l =>
      acquire (L_proc i) ;;
      let! p := gets (fun s => proc_of s i) in
      let! found := (if decide (p_state p = RUNNABLE) then
        upd_proc i (set_p_state RUNNING) ;;
        upd_cpu (set_c_proc (Some i)) ;;
        swtch ;;
        upd_cpu (set_c_proc None) ;;
        ret true
      else ret found) in
      release (L_proc i) ;;
      scheduler_scan l found
  end.

(** One round of the [for(;;)] of [scheduler]. *)
Definition scheduler_round : M sys bool :=
  intr_on ;;
  let! found := scheduler_scan (seq 0 NPROC) false in
  (if found then ret tt else intr_on) ;;
  ret found.

(** ** The effect of the operations *)

Lemma myproc_ok s :
  cpu_wf (scpu s) -> myproc s = Ok (c_proc (scpu s)) (set_scpu (settle (scpu s)) s).
Proof.
  intros Hwf. unfold myproc. krun (push_off_ok s).
  unfold mycpu. rewrite bind_gets.
  rewrite (bind_Ok _ _ _ tt (set_scpu (settle (scpu s)) s)); [done|].
  rewrite pop_off_ok; simpl.
  - by rewrite cpu_pop_push.
  - apply cpu_push_intr.
  - destruct Hwf. lia.
Qed.

Lemma myproc_settled s : settled s -> myproc s = Ok (c_proc (scpu s)) s.
Proof. intros [Hwf Hs]. rewrite myproc_ok, Hs, set_scpu_same; done. Qed.

(** What the loop body of [wakeup] does to a process. *)
Definition wake (ch : chan) (p : proc) : proc :=
  if decide (p_state p = SLEEPING /\ p_chan p = Some ch) then set_p_state RUNNABLE p else p.

Lemma alter_same {A} (f : A -> A) (l : list A) i :
  (forall x, l !! i = Some x -> f x = x) -> alter f i l = l.
Proof.
  intros H. apply list_eq. intros j. rewrite list_lookup_alter.
  case_decide as E; [|done]. subst. destruct (l !! j) eqn:El; simpl; [|done].
  f_equal. by apply H.
Qed.

Lemma alter_ext_at {A} (f g : A -> A) (l : list A) i :
  (forall x, l !! i = Some x -> f x = g x) -> alter f i l = alter g i l.
Proof.
  intros H. apply list_eq. intros j. rewrite !list_lookup_alter.
  case_decide as E; [|done]. subst. destruct (l !! j) eqn:El; simpl; [|done].
  f_equal. by apply H.
Qed.

Lemma alter_insert {A} (f : A -> A) (l : list A) i x :
  l !! i = Some x -> alter f i l = <[i := f x]> l.
Proof.
  revert i. induction l as [|y l IH]; intros [|i] H; simplify_eq/=; [done|]. f_equal. auto.
Qed.

Lemma proc_of_lookup s i p : sprocs s !! i = Some p -> proc_of s i = p.
Proof. intros H. unfold proc_of. by apply list_lookup_total_correct. Qed.

Lemma wakeup_one_ok ch i s :
  settled s -> lock_idle s (L_proc i) ->
  wakeup_one ch i s =
  Ok tt (set_sprocs (alter (fun p => if decide (Some i = c_proc (scpu s)) then p else wake ch p)
                       i (sprocs s)) s).
Proof.
  intros Hs Hl. unfold wakeup_one. krun (myproc_settled s Hs).
  destruct (decide (Some i = c_proc (scpu s))).
  - unfold ret. f_equal. rewrite alter_same by done. by destruct s.
  - krun (acquire_ok _ s (lock_idle_free _ _ Hl)). rewrite bind_gets.
    rewrite (bind_Ok _ _ _ tt (set_sprocs (alter (wake ch) i (sprocs s)) (locked (L_proc i) s))).
    + rewrite (release_settled _ s) by done. by destruct s.
    + change (proc_of (locked (L_proc i) s) i) with (proc_of s i).
      assert (Hw : forall x, sprocs s !! i = Some x -> proc_of s i = x) by (intros; by apply proc_of_lookup).
      case_decide as E.
      * unfold upd_proc, modify. do 2 f_equal. simpl. apply alter_ext_at.
        intros x Hx. rewrite (Hw x Hx) in E. unfold wake. by rewrite decide_True.
      * unfold ret. f_equal. rewrite alter_same; [by destruct s|].
        intros x Hx. rewrite (Hw x Hx) in E. unfold wake. by rewrite decide_False.
Qed.

(** A loop over the table whose body alters one process at a time. *)
Lemma forM_alter (f : nat -> proc -> proc) (body : nat -> M sys unit) l s :
  (forall i t, i ∈ l -> scpu t = scpu s -> slocks t = slocks s ->
     body i t = Ok tt (set_sprocs (alter (f i) i (sprocs t)) t)) ->
  forM l body s =
  Ok tt (set_sprocs (foldl (fun ps i => alter (f i) i ps) (sprocs s) l) s).
Proof.
  revert s. induction l as [|i l IH]; intros s H; simpl; [by destruct s|].
  krun (H i s ltac:(by left) eq_refl eq_refl). rewrite IH; [done|].
  intros j t Hj. apply H. by right.
Qed.

Lemma foldl_alter_lookup (f : nat -> proc -> proc) l (ps : list proc) j :
  NoDup l ->
  foldl (fun ps i => alter (f i) i ps) ps l !! j =
  if decide (j ∈ l) then f j <$> ps !! j else ps !! j.
Proof.
  revert ps. induction l as [|i l IH]; intros ps Hnd; cbn [foldl].
  - rewrite decide_False; [done|]. apply not_elem_of_nil.
  - apply NoDup_cons in Hnd as [Hi Hnd]. rewrite IH by done.
    rewrite list_lookup_alter. destruct (decide (j = i)) as [->|Hj].
    + rewrite (decide_False (P := i ∈ l)) by done.
      rewrite decide_True by done. rewrite decide_True by (by left). done.
    + rewrite (decide_False (P := i = j)) by done.
      destruct (decide (j ∈ l)); [rewrite decide_True by (by right); done|].
      rewrite decide_False; [done|]. by rewrite elem_of_cons; intros [].
Qed.

Lemma foldl_alter_imap (f : nat -> proc -> proc) (ps : list proc) n :
  length ps = n ->
  foldl (fun ps i => alter (f i) i ps) ps (seq 0 n) = imap f ps.
Proof.
  intros Hn. apply list_eq. intros j.
  rewrite foldl_alter_lookup by apply NoDup_seq. rewrite list_lookup_imap.
  case_decide as E; [done|]. rewrite elem_of_seq in E.
  rewrite lookup_ge_None_2 by lia. done.
Qed.

(** Every lock of the process table is idle. *)
Definition procs_idle (s : sys) : Prop := forall i, (i < NPROC)%nat -> lock_idle s (L_proc i).

Lemma wakeup_ok ch s :
  settled s -> procs_idle s -> length (sprocs s) = NPROC ->
  wakeup ch s =
  Ok tt (set_sprocs (imap (fun i p => if decide (Some i = c_proc (scpu s)) then p else wake ch p)
                       (sprocs s)) s).
Proof.
  intros Hs Hl Hn. unfold wakeup.
  rewrite (forM_alter (fun i p => if decide (Some i = c_proc (scpu s)) then p else wake ch p)).
  - by rewrite foldl_alter_imap.
  - intros i t Hi Hc Hk. rewrite <- Hc.
    apply wakeup_one_ok; unfold settled, lock_idle in *; rewrite ?Hc, ?Hk; [done|].
    apply Hl. apply elem_of_seq in Hi. lia.
Qed.

(** ** sleep *)

#[local] Arguments cpu_pop : simpl never.

Lemma lock_of_locked l s l' :
  lock_of (locked l s) l' =
  if decide (l = l') then Spinlock true (lk_name (lock_of s l)) (Some (c_id (scpu s)))
  else lock_of s l'.
Proof. unfold lock_of, locked; simpl. rewrite lookup_insert. by case_decide. Qed.

Lemma lock_of_unlocked l s l' :
  lock_of (unlocked l s) l' =
  if decide (l = l') then Spinlock false (lk_name (lock_of s l)) None else lock_of s l'.
Proof. unfold lock_of, unlocked; simpl. rewrite lookup_insert. by case_decide. Qed.

Lemma cpu_pop_c_id c : c_id (cpu_pop c) = c_id c.
Proof. unfold cpu_pop. by destruct ((c_noff c - 1 =? 0) && c_intena c). Qed.

Lemma cpu_pop_c_proc c : c_proc (cpu_pop c) = c_proc c.
Proof. unfold cpu_pop. by destruct ((c_noff c - 1 =? 0) && c_intena c). Qed.

Lemma cpu_pop_noff c : c_noff (cpu_pop c) = c_noff c - 1.
Proof. unfold cpu_pop. by destruct ((c_noff c - 1 =? 0) && c_intena c). Qed.

Lemma proc_of_upd (f : proc -> proc) i s :
  (i < length (sprocs s))%nat ->
  proc_of (set_sprocs (alter f i (sprocs s)) s) i = f (proc_of s i).
Proof.
  intros H. apply proc_of_lookup. simpl. rewrite list_lookup_alter_eq.
  destruct (lookup_lt_is_Some_2 _ _ H) as [p Hp]. rewrite Hp.
  by rewrite (proc_of_lookup _ _ _ Hp).
Qed.

(** The part of [sched] before and after [swtch]. *)
Lemma sched_ok i s :
  c_proc (scpu s) = Some i -> lock_mine s (L_proc i) -> c_noff (scpu s) = 1 ->
  cpu_intr (scpu s) = false -> p_state (proc_of s i) <> RUNNING ->
  sched s = Switch s (fun t => Ok tt (set_scpu (set_c_intena (c_intena (scpu s)) (scpu t)) t)).
Proof.
  intros Hp Hm Hn Hi Hst.
  assert (Hs : settled s) by (apply settled_nested; [split; intros; lia || done|lia]).
  unfold sched. krun (myproc_settled s Hs). rewrite Hp. cbn [deref]. rewrite bind_ret.
  krun (holding_mine _ _ Hm). cbn [negb]. unfold mycpu. rewrite bind_gets, Hn. cbn [Z.eqb negb Pos.eqb].
  rewrite bind_gets, decide_False by done. unfold intr_get. rewrite bind_gets, Hi.
  rewrite bind_gets. done.
Qed.

(** A process about to sleep: it runs, and holds [lk] and no other lock. *)
Record sleep_pre (i : nat) (lk : lockid) (s : sys) : Prop := {
  sp_proc : c_proc (scpu s) = Some i;
  sp_len : (i < length (sprocs s))%nat;
  sp_noff : c_noff (scpu s) = 1;
  sp_intr : cpu_intr (scpu s) = false;
  sp_mine : lock_mine s lk;
  sp_free : lock_free s (L_proc i);
  sp_ne : lk <> L_proc i
}.

(** The state in which [sleep] leaves the hart. *)
Definition asleep (i : nat) (ch : chan) (lk : lockid) (s : sys) : sys :=
  set_sprocs (alter (fun p => set_p_state SLEEPING (set_p_chan (Some ch) p)) i (sprocs s))
    (unlocked lk (locked (L_proc i) s)).

(** What [sleep] does when it is resumed. *)
Definition wake_rest (i : nat) (lk : lockid) (intena : bool) : M sys unit :=
  upd_cpu (set_c_intena intena) ;;
  upd_proc i (set_p_chan None) ;;
  release (L_proc i) ;;
  acquire lk.

Lemma sleep_ok i ch lk s :
  sleep_pre i lk s ->
  exists k, sleep ch lk s = Switch (asleep i ch lk s) k /\
    forall t, k t = wake_rest i lk (c_intena (scpu s)) t.
Proof.
  intros [Hp Hlen Hn Hi Hm Hf Hne]. set (s1 := locked (L_proc i) s).
  assert (Hs : settled s) by (apply settled_nested; [split; intros; lia || done|lia]).
  assert (Hm1 : lock_mine s1 lk).
  { unfold lock_mine, s1. rewrite !lock_of_locked, !decide_False by done. exact Hm. }
  unfold sleep. krun (myproc_settled s Hs). rewrite Hp. cbn [deref]. rewrite bind_ret.
  krun (acquire_ok _ _ Hf). fold s1.
  assert (Hr : release lk s1 = Ok tt (unlocked lk s1)).
  { apply release_ok; [done|apply cpu_push_intr|]. simpl. lia. }
  krun Hr. unfold upd_proc. rewrite !bind_modify.
  match goal with |- context [ bind sched _ ?t ] => assert (Ht : t = asleep i ch lk s) end.
  { unfold asleep, set_sprocs; simpl. f_equal.
    by rewrite list_alter_alter_eq. }
  rewrite Ht. unfold bind at 1. rewrite (sched_ok i).
  - eexists. split; [reflexivity|]. intros t.
    assert (E : c_intena (scpu (asleep i ch lk s)) = c_intena (scpu s)).
    { change (c_intena (cpu_pop (cpu_push (scpu s))) = c_intena (scpu s)). unfold cpu_pop.
      rewrite cpu_push_noff, Hn. simpl. by rewrite Hn. }
    by rewrite <- E.
  - change (c_proc (cpu_pop (cpu_push (scpu s))) = Some i). by rewrite cpu_pop_c_proc.
  - unfold lock_mine. change (lock_of (asleep i ch lk s)) with (lock_of (unlocked lk s1)).
    unfold s1. rewrite lock_of_unlocked, decide_False, lock_of_locked, decide_True by done.
    split; [done|]. change (scpu (asleep i ch lk s)) with (cpu_pop (cpu_push (scpu s))).
    by rewrite cpu_pop_c_id.
  - change (c_noff (cpu_pop (cpu_push (scpu s))) = 1). rewrite cpu_pop_noff, cpu_push_noff. lia.
  - change (cpu_intr (cpu_pop (cpu_push (scpu s))) = false).
    unfold cpu_pop. rewrite cpu_push_noff, Hn. apply cpu_push_intr.
  - unfold asleep. rewrite (proc_of_upd _ i (unlocked lk s1)) by done. done.
Qed.

(** The process that has been resumed, before it takes its lock again. *)
Definition awake (i : nat) (intena : bool) (t : sys) : sys :=
  unlocked (L_proc i)
    (set_sprocs (alter (set_p_chan None) i (sprocs t)) (set_scpu (set_c_intena intena (scpu t)) t)).

Lemma wake_rest_run i lk b t :
  lock_mine t (L_proc i) -> c_noff (scpu t) = 1 -> cpu_intr (scpu t) = false ->
  lock_free t lk -> lk <> L_proc i ->
  wake_rest i lk b t = Ok tt (locked lk (awake i b t)).
Proof.
  intros Hm Hn Hi Hf Hne. unfold wake_rest, upd_cpu, upd_proc. rewrite !bind_modify.
  assert (Hr : release (L_proc i) (set_sprocs (alter (set_p_chan None) i (sprocs t))
    (set_scpu (set_c_intena b (scpu t)) t)) = Ok tt (awake i b t)).
  { apply release_ok; [exact Hm|exact Hi|]. simpl. lia. }
  krun Hr. apply acquire_ok. unfold lock_free, awake.
  rewrite lock_of_unlocked, decide_False by done. exact Hf.
Qed.

Lemma wake_rest_ok i lk b t :
  lock_mine t (L_proc i) -> c_noff (scpu t) = 1 -> cpu_intr (scpu t) = false ->
  lock_free t lk -> lk <> L_proc i ->
  exists s', wake_rest i lk b t = Ok tt s' /\
    lock_mine s' lk /\ lock_free s' (L_proc i) /\
    c_noff (scpu s') = 1 /\ cpu_intr (scpu s') = false /\ c_proc (scpu s') = c_proc (scpu t) /\
    sprocs s' = alter (set_p_chan None) i (sprocs t).
Proof.
  intros Hm Hn Hi Hf Hne. exists (locked lk (awake i b t)). split; [by apply wake_rest_run|].
  split; [apply locked_mine|]. split.
  { unfold lock_free. rewrite lock_of_locked, decide_False by done.
    unfold awake. by rewrite lock_of_unlocked, decide_True. }
  change (scpu (locked _ _)) with (cpu_push (cpu_pop (set_c_intena b (scpu t)))).
  rewrite cpu_push_noff, cpu_push_intr, cpu_pop_noff.
  change (c_proc (cpu_push ?c)) with (c_proc c). rewrite cpu_pop_c_proc.
  split_and!; [simpl; lia|done..].
Qed.

(** ** kill *)

(** What [kill] does to its victim. *)
Definition kill_victim (p : proc) : proc :=
  let p := set_p_killed 1 p in
  if decide (p_state p = SLEEPING) then set_p_state RUNNABLE p else p.

Lemma kill_one_ok pid i s :
  settled s -> lock_idle s (L_proc i) -> (i < length (sprocs s))%nat ->
  kill_one pid i s =
  if p_pid (proc_of s i) =? pid
  then Ok (Some 0) (set_sprocs (alter kill_victim i (sprocs s)) s) else Ok None s.
Proof.
  intros Hs Hi Hlen. unfold kill_one. krun (acquire_ok _ s (lock_idle_free _ _ Hi)).
  rewrite bind_gets. change (proc_of (locked (L_proc i) s) i) with (proc_of s i).
  destruct (p_pid (proc_of s i) =? pid).
  - unfold upd_proc. rewrite bind_modify, bind_gets.
    rewrite (proc_of_upd _ i (locked (L_proc i) s)) by done.
    set (t := set_sprocs (alter kill_victim i (sprocs s)) (locked (L_proc i) s)).
    rewrite (bind_Ok _ _ _ tt t).
    + krun (release_settled _ s t Hs Hi eq_refl eq_refl). by destruct s.
    + change (p_state (set_p_killed 1 (proc_of (locked (L_proc i) s) i)))
        with (p_state (proc_of s i)).
      assert (Hw : forall x, sprocs s !! i = Some x -> proc_of s i = x)
        by (intros; by apply proc_of_lookup).
      case_decide as Es; unfold modify, ret, t; apply (f_equal (Ok tt)); simpl;
        apply (f_equal (fun l => set_sprocs l (locked (L_proc i) s))).
      * rewrite list_alter_alter_eq. apply alter_ext_at. intros x Hx.
        rewrite (Hw x Hx) in Es. unfold kill_victim. simpl. by rewrite decide_True.
      * apply alter_ext_at. intros x Hx.
        rewrite (Hw x Hx) in Es. unfold kill_victim. simpl. by rewrite decide_False.
  - krun (release_settled _ s (locked (L_proc i) s) Hs Hi eq_refl eq_refl). by destruct s.
Qed.

Lemma kill_loop_ok pid l s :
  settled s -> (forall i, i ∈ l -> lock_idle s (L_proc i) /\ (i < length (sprocs s))%nat) ->
  find_loop l (kill_one pid) s =
  match list_find (fun i => p_pid (proc_of s i) = pid) l with
  | Some (_, i) => Ok (Some 0) (set_sprocs (alter kill_victim i (sprocs s)) s)
  | None => Ok None s
  end.
Proof.
  intros Hs. induction l as [|i l IH]; intros Hl; [done|].
  destruct (Hl i) as [Hi Hlen]; [by left|].
  assert (Hl' : forall j, j ∈ l -> lock_idle s (L_proc j) /\ (j < length (sprocs s))%nat)
    by (intros; apply Hl; by right).
  cbn [find_loop list_find]. pose proof (kill_one_ok pid i s Hs Hi Hlen) as Hk.
  destruct (Z.eqb_spec (p_pid (proc_of s i)) pid) as [E|E]; krun Hk.
  - by rewrite decide_True.
  - rewrite decide_False by done. rewrite IH by done.
    by destruct (list_find _ l) as [[]|].
Qed.

(** ** scheduler *)

(** The states between two [swtch]es of a scheduler differ in the hart only. *)
Definition same_table (s t : sys) : Prop :=
  cpu_wf (scpu t) /\ c_noff (scpu t) = c_noff (scpu s) /\ c_id (scpu t) = c_id (scpu s) /\
  slocks t = slocks s /\ sprocs t = sprocs s.

Lemma scheduler_skip i l f s :
  cpu_wf (scpu s) -> lock_idle s (L_proc i) -> p_state (proc_of s i) <> RUNNABLE ->
  exists t, scheduler_scan (i :: l) f s = scheduler_scan l f t /\ same_table s t.
Proof.
  intros Hwf Hi Hst. exists (set_scpu (settle (scpu s)) s). split.
  - cbn [scheduler_scan]. krun (acquire_ok _ s (lock_idle_free _ _ Hi)). rewrite bind_gets.
    change (proc_of (locked (L_proc i) s) i) with (proc_of s i).
    rewrite decide_False by done. rewrite bind_ret.
    krun (release_locked (L_proc i) s (locked (L_proc i) s) Hwf Hi eq_refl eq_refl).
    by destruct s.
  - unfold same_table; simpl. rewrite settle_noff, settle_id. split_and!; try done.
    by apply settle_wf.
Qed.

(** The state in which the scheduler switches to process [i]. *)
Definition dispatched (i : nat) (s t : sys) : Prop :=
  c_proc (scpu t) = Some i /\ lock_mine t (L_proc i) /\ c_noff (scpu t) = c_noff (scpu s) + 1 /\
  cpu_intr (scpu t) = false /\ sprocs t = alter (set_p_state RUNNING) i (sprocs s) /\
  slocks t = slocks (locked (L_proc i) s) /\ c_id (scpu t) = c_id (scpu s).

Lemma scheduler_scan_ok l f s :
  cpu_wf (scpu s) -> (forall i, i ∈ l -> lock_idle s (L_proc i)) ->
  match list_find (fun i => p_state (proc_of s i) = RUNNABLE) l with
  | Some (_, i) => exists t k, scheduler_scan l f s = Switch t k /\ dispatched i s t
  | None => exists t, scheduler_scan l f s = Ok f t /\ same_table s t
  end.
Proof.
  revert s. induction l as [|i l IH]; intros s Hwf Hl.
  - exists s. done.
  - assert (Hi : lock_idle s (L_proc i)) by (apply Hl; by left).
    cbn [list_find]. destruct (decide (p_state (proc_of s i) = RUNNABLE)) as [E|E].
    + cbn [scheduler_scan]. do 2 eexists. split.
      * krun (acquire_ok _ s (lock_idle_free _ _ Hi)). rewrite bind_gets.
        change (proc_of (locked (L_proc i) s) i) with (proc_of s i).
        rewrite decide_True by done. reflexivity.
      * unfold dispatched, upd_cpu; simpl. split_and!; try done.
        -- destruct (locked_mine (L_proc i) s) as [H1 H2]. by split.
        -- apply cpu_push_intr.
    + destruct (scheduler_skip i l f s Hwf Hi E) as (t & -> & Hwft & Hn & Hid & Hk & Hp).
      assert (Hpo : forall j, proc_of t j = proc_of s j) by (intros; unfold proc_of; by rewrite Hp).
      specialize (IH t Hwft).
      assert (Hlt : forall j, j ∈ l -> lock_idle t (L_proc j)).
      { intros j Hj. unfold lock_idle. rewrite Hk. apply Hl. by right. }
      specialize (IH Hlt).
      rewrite (list_find_ext (fun i => p_state (proc_of t i) = RUNNABLE)
                 (fun i => p_state (proc_of s i) = RUNNABLE)) in IH
        by (intros; by rewrite Hpo).
      destruct (list_find _ l) as [[n j]|]; simpl.
      * destruct IH as (t' & k & -> & ? & ? & Hn' & ? & Hp' & Hk' & Hid'). do 2 eexists. split; [done|].
        unfold dispatched. rewrite Hn', Hp', Hk', Hid', Hn, Hp, Hid. simpl. unfold lock_of.
        by rewrite Hk, Hid.
      * destruct IH as (t' & -> & ? & Hn' & Hid' & Hk' & Hp'). eexists. split; [done|].
        unfold same_table. rewrite Hn', Hid', Hk', Hp'. done.
Qed.

(** ** Interleavings of sleep and wakeup

    Any number of processes run
    [acquire(lk); while(!cond) sleep(chan, lk); release(lk);] while another runs
    [acquire(lk); cond = 1; wakeup(chan); release(lk);], one access at a time in
    any order.  A sleeping process comes back when a scheduler finds it
    RUNNABLE and takes its lock. *)

Module SleepWakeup.

Inductive actor := Waker | Sleeper (j : nat).

#[export] Instance actor_eq_dec : EqDecision actor.
Proof. solve_decision. Defined.

(** Where a sleeper is: the next access to make. *)
Inductive spc :=
| S_acquire                     (* acquire(lk) *)
| S_test                        (* while(!cond) *)
| S_plock                       (* sleep: acquire(&p->lock) *)
| S_rel                         (* sleep: release(lk) *)
| S_chan                        (* sleep: p->chan = chan *)
| S_state                       (* sleep: p->state = SLEEPING *)
| S_sched                       (* sleep: sched(); the scheduler releases p->lock *)
| S_off                         (* switched out *)
| S_clear                       (* sleep: p->chan = 0 *)
| S_unlock                      (* sleep: release(&p->lock) *)
| S_reacquire                   (* sleep: acquire(lk) *)
| S_release                     (* release(lk) *)
| S_done.

Inductive wpc :=
| W_acquire                     (* acquire(lk) *)
| W_set                         (* cond = 1 *)
| W_plock (j : nat)             (* wakeup: acquire(&p->lock) of process j *)
| W_look (j : nat)              (* wakeup: test and set p->state *)
| W_unlock (j : nat)            (* wakeup: release(&p->lock) *)
| W_release                     (* release(lk) *)
| W_done.

#[export] Instance spc_eq_dec : EqDecision spc.
Proof. solve_decision. Defined.

#[export] Instance wpc_eq_dec : EqDecision wpc.
Proof. solve_decision. Defined.

Record sleeper := Sleep { q_pc : spc; q_lock : option actor; q_state : procstate; q_chan : bool }.

Record conf := Conf {
  g_lk : option actor;
  g_cond : bool;
  g_waker : wpc;
  g_procs : list sleeper
}.

(** The next access of sleeper [j] in state [q]; [None] when it has to wait. *)
Definition sleeper_step (j : nat) (q : sleeper) (g : conf) : option conf :=
  let '(Sleep pc lock st ch) := q in
  let upd lk q := Some (Conf lk (g_cond g) (g_waker g) (<[j := q]> (g_procs g))) in
  match pc with
  | S_acquire =>
      if g_lk g is None then upd (Some (Sleeper j)) (Sleep S_test lock st ch) else None
  | S_test => upd (g_lk g) (Sleep (if g_cond g then S_release else S_plock) lock st ch)
  | S_plock =>
      if lock is None then upd (g_lk g) (Sleep S_rel (Some (Sleeper j)) st ch) else None
  | S_rel => upd None (Sleep S_chan lock st ch)
  | S_chan => upd (g_lk g) (Sleep S_state lock st true)
  | S_state => upd (g_lk g) (Sleep S_sched lock SLEEPING ch)
  | S_sched => upd (g_lk g) (Sleep S_off None st ch)
  | S_off =>
      match lock, st with
      | None, RUNNABLE => upd (g_lk g) (Sleep S_clear (Some (Sleeper j)) RUNNING ch)
      | _, _ => None
      end
  | S_clear => upd (g_lk g) (Sleep S_unlock lock st false)
  | S_unlock => upd (g_lk g) (Sleep S_reacquire None st ch)
  | S_reacquire =>
      if g_lk g is None then upd (Some (Sleeper j)) (Sleep S_test lock st ch) else None
  | S_release => upd None (Sleep S_done lock st ch)
  | S_done => None
  end.

(** The next process [wakeup] looks at, or the end of its loop. *)
Definition scan (j : nat) (ps : list sleeper) : wpc :=
  if (j <? length ps)%nat then W_plock j else W_release.

Definition waker_step (g : conf) : option conf :=
  let '(Conf lk cond w ps) := g in
  match w with
  | W_acquire => if lk is None then Some (Conf (Some Waker) cond W_set ps) else None
  | W_set => Some (Conf lk true (scan 0 ps) ps)
  | W_plock j =>
      match ps !! j with
      | Some (Sleep pc None st ch) =>
          Some (Conf lk cond (W_look j) (<[j := Sleep pc (Some Waker) st ch]> ps))
      | _ => None
      end
  | W_look j =>
      match ps !! j with
      | Some (Sleep pc lock st ch) =>
          let st := if decide (st = SLEEPING /\ ch = true) then RUNNABLE else st in
          Some (Conf lk cond (W_unlock j) (<[j := Sleep pc lock st ch]> ps))
      | None => None
      end
  | W_unlock j =>
      match ps !! j with
      | Some (Sleep pc lock st ch) =>
          Some (Conf lk cond (scan (S j) ps) (<[j := Sleep pc None st ch]> ps))
      | None => None
      end
  | W_release => Some (Conf None cond W_done ps)
  | W_done => None
  end.

Inductive step : conf -> conf -> Prop :=
| step_sleeper g j q g' :
    g_procs g !! j = Some q -> sleeper_step j q g = Some g' -> step g g'
| step_waker g g' : waker_step g = Some g' -> step g g'.

Definition initial (n : nat) : conf :=
  Conf None false W_acquire (replicate n (Sleep S_acquire None RUNNING false)).

(** ** The invariant *)

Definition holds_lk (pc : spc) : bool :=
  match pc with S_test | S_plock | S_rel | S_release => true | _ => false end.

Definition holds_p (pc : spc) : bool :=
  match pc with S_rel | S_chan | S_state | S_sched | S_clear | S_unlock => true | _ => false end.

(** The waker holds [lk]. *)
Definition waking (w : wpc) : bool :=
  match w with W_acquire | W_done => false | _ => true end.

Definition has_set (w : wpc) : bool :=
  match w with W_acquire | W_set => false | _ => true end.

(** The waker has not tested process [j] yet. *)
Definition unseen (w : wpc) (j : nat) : Prop :=
  match w with
  | W_acquire | W_set => True
  | W_plock k | W_look k => (k <= j)%nat
  | W_unlock k => (k < j)%nat
  | W_release | W_done => False
  end.

(** The waker holds the lock of process [j]. *)
Definition waker_at (w : wpc) (j : nat) : bool :=
  match w with W_look k | W_unlock k => (k =? j)%nat | _ => false end.

(** The sleeper found [cond] false, and has not been made RUNNABLE. *)
Definition dozing (q : sleeper) : Prop :=
  match q_pc q with
  | S_plock | S_rel | S_chan | S_state | S_sched => True
  | S_off => q_state q = SLEEPING
  | _ => False
  end.

Definition state_ok (cond : bool) (q : sleeper) : Prop :=
  match q_pc q with
  | S_acquire | S_test | S_plock | S_rel | S_chan | S_release | S_done => q_state q = RUNNING
  | S_state => q_state q = RUNNING /\ q_chan q = true
  | S_sched => q_state q = SLEEPING /\ q_chan q = true
  | S_off => (q_state q = SLEEPING /\ q_chan q = true) \/ (q_state q = RUNNABLE /\ cond = true)
  | S_clear | S_unlock | S_reacquire => q_state q = RUNNING /\ cond = true
  end.

(** What holds of sleeper [j], given the shared variables. *)
Record ok (lk : option actor) (cond : bool) (w : wpc) (j : nat) (q : sleeper) : Prop := {
  ok_lk : lk = Some (Sleeper j) <-> holds_lk (q_pc q) = true;
  ok_lock : q_lock q = if holds_p (q_pc q) then Some (Sleeper j)
                       else if waker_at w j then Some Waker else None;
  ok_excl : holds_p (q_pc q) = true -> waker_at w j = false;
  ok_state : state_ok cond q;
  ok_seen : dozing q -> cond = true -> unseen w j
}.

Record inv (g : conf) : Prop := {
  inv_procs : forall j q, g_procs g !! j = Some q -> ok (g_lk g) (g_cond g) (g_waker g) j q;
  inv_waker : g_lk g = Some Waker <-> waking (g_waker g) = true;
  inv_cond : g_cond g = has_set (g_waker g);
  inv_lk : forall j, g_lk g = Some (Sleeper j) -> (j < length (g_procs g))%nat;
  inv_scan : forall j, g_waker g = W_plock j \/ waker_at (g_waker g) j = true ->
    (j < length (g_procs g))%nat
}.

(** [lk] changes from or to sleeper [j] only. *)
Definition lk_move (a : actor) (lk lk' : option actor) : Prop :=
  lk' = lk \/ (lk = None /\ lk' = Some a) \/ (lk = Some a /\ lk' = None).

Lemma sleeper_step_ok j q g g' :
  inv g -> g_procs g !! j = Some q -> sleeper_step j q g = Some g' ->
  exists lk q', g' = Conf lk (g_cond g) (g_waker g) (<[j := q']> (g_procs g)) /\
    lk_move (Sleeper j) (g_lk g) lk /\ ok lk (g_cond g) (g_waker g) j q'.
Proof.
  intros Hinv Hq E. destruct (inv_procs g Hinv j q Hq) as [H1 H2 H3 H4 H5].
  destruct q as [pc lock st ch]. unfold lk_move.
  destruct pc; simpl in *; repeat case_match; try discriminate E;
    injection E as <-; do 2 eexists;
    (split; [done|]); (split; [tauto|]); split; simpl; try (tauto || congruence);
    
    unfold state_ok, dozing in *; simpl in *; destruct (waker_at (g_waker g) j) eqn:?;
    intuition congruence.
Qed.

(** Steps of others keep what holds of a sleeper. *)
Lemma ok_other lk lk' cond cond' w w' j q :
  ok lk cond w j q ->
  (lk' = Some (Sleeper j) <-> lk = Some (Sleeper j)) -> waker_at w' j = waker_at w j ->
  (cond = true -> cond' = true) -> (dozing q -> cond' = true -> unseen w' j) ->
  ok lk' cond' w' j q.
Proof.
  intros [H1 H2 H3 H4 H5] Hl Hw Hc Hs. split; rewrite ?Hw; try tauto.
  unfold state_ok in *. destruct (q_pc q); tauto.
Qed.

Lemma lk_move_other a lk lk' b :
  lk_move a lk lk' -> a <> b -> (lk' = Some b <-> lk = Some b).
Proof. unfold lk_move. intuition congruence. Qed.

Lemma inv_sleeper j q g g' :
  inv g -> g_procs g !! j = Some q -> sleeper_step j q g = Some g' -> inv g'.
Proof.
  intros Hinv Hq E. destruct (sleeper_step_ok j q g g' Hinv Hq E) as (lk & q' & -> & Hl & Hok).
  apply lookup_lt_Some in Hq. destruct Hinv as [I1 I2 I3 I4 I5].
  split; simpl; rewrite ?length_insert; try done.
  - intros k r Hk. destruct (decide (k = j)) as [->|Hn].
    + rewrite list_lookup_insert_eq in Hk by done. by injection Hk as <-.
    + rewrite list_lookup_insert_ne in Hk by done. specialize (I1 k r Hk).
      apply (ok_other _ _ _ _ _ _ _ _ I1); try done.
      * apply (lk_move_other _ _ _ _ Hl). congruence.
      * by destruct I1.
  - rewrite <- I2. by apply (lk_move_other _ _ _ _ Hl).
  - intros k Hk. destruct (decide (k = j)) as [->|Hn]; [done|]. apply I4.
    apply (lk_move_other _ _ _ _ Hl); congruence.
Qed.

Lemma scan_spec j ps k :
  waker_at (scan j ps) k = false /\ ((j <= k < length ps)%nat -> unseen (scan j ps) k) /\
  has_set (scan j ps) = true /\ waking (scan j ps) = true /\
  (scan j ps = W_plock k -> (k < length ps)%nat).
Proof.
  unfold scan. destruct (Nat.ltb_spec j (length ps)); simpl; split_and!; intros; try done;
    try lia. simplify_eq. done.
Qed.

(** A process the waker may look at: its lock is free. *)
Lemma ok_plock lk cond pc st ch j :
  ok lk cond (W_plock j) j (Sleep pc None st ch) ->
  ok lk cond (W_look j) j (Sleep pc (Some Waker) st ch).
Proof.
  intros [H1 H2 H3 H4 H5]. simpl in *.
  destruct (holds_p pc) eqn:Ep; [done|]. split; simpl; rewrite ?Ep, ?Nat.eqb_refl; try done.
Qed.

Lemma ok_look pc lock st ch j :
  ok (Some Waker) true (W_look j) j (Sleep pc lock st ch) ->
  ok (Some Waker) true (W_unlock j) j
    (Sleep pc lock (if decide (st = SLEEPING /\ ch = true) then RUNNABLE else st) ch).
Proof.
  intros [H1 H2 H3 H4 H5]. unfold state_ok, dozing in *. simpl in *.
  rewrite Nat.eqb_refl in *. split; simpl; rewrite ?Nat.eqb_refl; try done;
    unfold state_ok, dozing in *; case_decide; destruct pc; simpl in *; intuition congruence.
Qed.

Lemma ok_unlock lk ps pc lock st ch j :
  ok lk true (W_unlock j) j (Sleep pc lock st ch) ->
  ok lk true (scan (S j) ps) j (Sleep pc None st ch).
Proof.
  intros [H1 H2 H3 H4 H5]. simpl in *. rewrite Nat.eqb_refl in *.
  destruct (scan_spec (S j) ps j) as (Hw & _).
  destruct (holds_p pc) eqn:Ep; [by specialize (H3 eq_refl)|].
  split; simpl; rewrite ?Ep, ?Hw; try done.
  intros Hd. exfalso. specialize (H5 Hd eq_refl). lia.
Qed.

(** The waker moves on and changes process [j], whose lock it takes or has. *)
Lemma inv_touch lk cond w w' ps j q q' :
  inv (Conf lk cond w ps) -> ps !! j = Some q -> ok lk cond w' j q' ->
  waking w = true -> waking w' = true -> has_set w' = has_set w ->
  (forall k, k <> j -> (k < length ps)%nat ->
     waker_at w' k = waker_at w k /\ (unseen w k -> unseen w' k)) ->
  (forall k, w' = W_plock k \/ waker_at w' k = true -> (k < length ps)%nat) ->
  inv (Conf lk cond w' (<[j := q']> ps)).
Proof.
  intros [I1 I2 I3 I4 I5] Hj Hok Hw Hw' Hs Hk Hr. simpl in *.
  split; simpl; rewrite ?length_insert, ?Hs, ?Hw'; try done; [|by rewrite I2, Hw].
  intros k r Hkr. destruct (decide (k = j)) as [->|Hn].
  - apply lookup_lt_Some in Hj. rewrite list_lookup_insert_eq in Hkr by done. by injection Hkr as <-.
  - rewrite list_lookup_insert_ne in Hkr by done. specialize (I1 k r Hkr).
    destruct (Hk k Hn) as [? ?]; [by eapply lookup_lt_Some|].
    apply (ok_other _ _ _ _ _ _ _ _ I1); try done. destruct I1. eauto.
Qed.

(** The waker moves on and changes [lk] or [cond]. *)
Lemma inv_move lk lk' cond cond' w w' ps :
  inv (Conf lk cond w ps) -> lk_move Waker lk lk' -> (lk' = Some Waker <-> waking w' = true) ->
  cond' = has_set w' -> (cond = true -> cond' = true) ->
  (forall k, (k < length ps)%nat ->
     waker_at w' k = waker_at w k /\ (cond' = true -> (cond = true -> unseen w k) -> unseen w' k)) ->
  (forall k, w' = W_plock k \/ waker_at w' k = true -> (k < length ps)%nat) ->
  inv (Conf lk' cond' w' ps).
Proof.
  intros [I1 I2 I3 I4 I5] Hl Hw Hs Hc Hk Hr. simpl in *. split; simpl; try done.
  - intros k r Hkr. specialize (I1 k r Hkr).
    destruct (Hk k) as [? Hu]; [by eapply lookup_lt_Some|].
    apply (ok_other _ _ _ _ _ _ _ _ I1); try done.
    + by apply (lk_move_other _ _ _ _ Hl).
    + destruct I1. eauto.
  - intros j Hj. apply I4. by apply (lk_move_other _ _ _ _ Hl).
Qed.

Lemma inv_waker_step g g' : inv g -> waker_step g = Some g' -> inv g'.
Proof.
  destruct g as [lk cond w ps]. intros Hinv E. pose proof Hinv as [I1 I2 I3 I4 I5]. simpl in *.
  unfold lk_move in *. destruct w as [| |j|j|j| |]; simpl in *.
  - destruct lk; [done|]. injection E as <-.
    eapply inv_move; unfold lk_move; try done; eauto; [naive_solver..|]. by intros k [|].
  - injection E as <-. destruct (scan_spec 0 ps 0) as (_ & _ & H3 & H4 & _).
    eapply inv_move; unfold lk_move; rewrite ?H4; eauto.
    + intros k Hk. destruct (scan_spec 0 ps k) as (H1 & H2 & _). split; [done|].
      intros _ _. apply H2. lia.
    + intros k [Hk|Hk]; destruct (scan_spec 0 ps k) as (H1 & _ & _ & _ & H5); [auto|congruence].
  - destruct (ps !! j) as [[pc [|] st ch]|] eqn:Hj; try done. injection E as <-.
    eapply inv_touch; eauto using ok_plock; simpl.
    + intros k Hk _. split; [by apply Nat.eqb_neq|done].
    + intros k [Hk|Hk]; [done|]. apply Nat.eqb_eq in Hk as <-. by eapply lookup_lt_Some.
  - destruct (ps !! j) as [[pc lock st ch]|] eqn:Hj; try done. injection E as <-.
    assert (lk = Some Waker) as -> by (by apply I2). subst cond.
    eapply inv_touch; eauto using ok_look; simpl.
    + intros k Hk _. split; [done|lia].
    + intros k [Hk|Hk]; [done|]. apply Nat.eqb_eq in Hk as <-. by eapply lookup_lt_Some.
  - destruct (ps !! j) as [[pc lock st ch]|] eqn:Hj; try done. injection E as <-. subst cond.
    destruct (scan_spec (S j) ps 0) as (_ & _ & H3 & H4 & _).
    eapply inv_touch; eauto using ok_unlock; simpl.
    + intros k Hk Hl. destruct (scan_spec (S j) ps k) as (H1 & H2 & _). rewrite H1.
      split; [symmetry; by apply Nat.eqb_neq|]. intros. apply H2. lia.
    + intros k [Hk|Hk]; destruct (scan_spec (S j) ps k) as (H1 & _ & _ & _ & H5);
        [auto|congruence].
  - injection E as <-. assert (lk = Some Waker) as -> by (by apply I2).
    eapply inv_move; unfold lk_move; simpl; eauto; [done|naive_solver|by intros k [|]].
  - done.
Qed.

Lemma sleep_wakeup_step g g' : step g g' -> inv g -> inv g'.
Proof. destruct 1; eauto using inv_sleeper, inv_waker_step. Qed.

Lemma inv_initial n : inv (initial n).
Proof.
  split; simpl; try done.
  - intros j q [-> _]%lookup_replicate. split; done.
  - by intros k [|].
Qed.

(** ** Progress *)

(** The holder of [lk] can move, once no process waits for the waker. *)
Lemma holder_moves g j :
  inv g -> waker_at (g_waker g) j = false -> g_lk g = Some (Sleeper j) -> exists g', step g g'.
Proof.
  intros [I1 I2 I3 I4 I5] Hw Hl. destruct (lookup_lt_is_Some_2 _ _ (I4 j Hl)) as [q Hq].
  pose proof (I1 j q Hq) as [H1 H2 _ _ _]. rewrite Hw in H2.
  apply H1 in Hl. destruct q as [pc lock st ch].
  destruct pc; try discriminate Hl; simpl in H2; subst lock;
    eexists; by eapply step_sleeper.
Qed.

Lemma waker_moves g : inv g -> g_waker g <> W_done -> exists g', step g g'.
Proof.
  intros Hinv Hw. pose proof Hinv as [I1 I2 I3 I4 I5]. destruct g as [lk cond w ps]; simpl in *.
  destruct w as [| |j|j|j| |]; try done; try (by eexists; apply step_waker).
  - destruct lk as [[|j]|]; [naive_solver|by eapply (holder_moves _ j)|]. by eexists; apply step_waker.
  - destruct (lookup_lt_is_Some_2 _ _ (I5 j (or_introl eq_refl))) as [[pc lock st ch] Hq].
    pose proof (I1 j _ Hq) as [H1 H2 _ _ _]. simpl in H2. destruct (holds_p pc) eqn:Hp.
    + destruct pc; try discriminate Hp; eexists; by eapply step_sleeper.
    + subst. eexists. apply step_waker. simpl. by rewrite Hq.
  - destruct (lookup_lt_is_Some_2 _ _ (I5 j (or_intror (Nat.eqb_refl j)))) as [[pc lock st ch] Hq].
    eexists. apply step_waker. simpl. by rewrite Hq.
  - destruct (lookup_lt_is_Some_2 _ _ (I5 j (or_intror (Nat.eqb_refl j)))) as [[pc lock st ch] Hq].
    eexists. apply step_waker. simpl. by rewrite Hq.
Qed.

Lemma sleeper_moves g j q :
  inv g -> g_waker g = W_done -> g_procs g !! j = Some q -> q_pc q <> S_done ->
  exists g', step g g'.
Proof.
  intros Hinv Hw Hq Hpc. pose proof Hinv as [I1 I2 I3 I4 I5].
  destruct (I1 j q Hq) as [H1 H2 H3 H4 H5]. rewrite Hw in *. simpl in *.
  destruct (g_lk g) as [[|k]|] eqn:El;
    [naive_solver|eapply (holder_moves g k); eauto; by rewrite Hw|].
  destruct q as [pc lock st ch]. unfold state_ok, dozing in *.
  assert (Hst : pc = S_off -> st = RUNNABLE).
  { intros ->. simpl in *. destruct H4 as [[E _]|[E _]]; [|done].
    exfalso. by apply H5. }
  destruct pc; simpl in *; subst; try done; eexists; eapply step_sleeper; eauto;
    simpl; rewrite ?El; try reflexivity. by rewrite Hst.
Qed.

(** ** Termination *)

(** A bound on the accesses a sleeper has left, and on the waker's. *)
Definition sleeper_work (cond : bool) (q : sleeper) : nat :=
  match q_pc q with
  | S_acquire => 13
  | S_test => if cond then 2 else 12
  | S_plock => 11
  | S_rel => 10
  | S_chan => 9
  | S_state => 8
  | S_sched => 7
  | S_off => 6
  | S_clear => 5
  | S_unlock => 4
  | S_reacquire => 3
  | S_release => 1
  | S_done => 0
  end.

Definition waker_work (n : nat) (w : wpc) : nat :=
  match w with
  | W_acquire => 3 * n + 3
  | W_set => 3 * n + 2
  | W_plock j => 3 * (n - j) + 1
  | W_look j => 3 * (n - j)
  | W_unlock j => 3 * (n - j) - 1
  | W_release => 1
  | W_done => 0
  end.

Definition work (g : conf) : nat :=
  sum_list_with (sleeper_work (g_cond g)) (g_procs g) +
  waker_work (length (g_procs g)) (g_waker g).

Lemma sum_list_with_insert {A} (f : A -> nat) l j x y :
  l !! j = Some x ->
  (sum_list_with f (<[j := y]> l) + f x = sum_list_with f l + f y)%nat.
Proof.
  revert j. induction l as [|z l IH]; intros [|j] H; simpl in *; try done.
  - injection H as <-. lia.
  - specialize (IH j H). lia.
Qed.

Lemma sum_list_with_le {A} (f g : A -> nat) l :
  (forall x, f x <= g x)%nat -> (sum_list_with f l <= sum_list_with g l)%nat.
Proof. intros H. induction l as [|x l IH]; simpl; [lia|]. specialize (H x). lia. Qed.

Lemma sleeper_work_step j q g g' :
  inv g -> g_procs g !! j = Some q -> sleeper_step j q g = Some g' ->
  exists lk q', g' = Conf lk (g_cond g) (g_waker g) (<[j := q']> (g_procs g)) /\
    (sleeper_work (g_cond g) q' < sleeper_work (g_cond g) q)%nat.
Proof.
  intros Hinv Hq E. pose proof (ok_state _ _ _ _ _ (inv_procs g Hinv j q Hq)) as Hst.
  destruct q as [pc lock st ch]. unfold state_ok in Hst. simpl in Hst.
  destruct pc; simpl in E; repeat case_match; try discriminate E; injection E as <-;
    do 2 eexists; (split; [reflexivity|]); unfold sleeper_work; simpl; repeat case_match;
    try lia; naive_solver.
Qed.

Lemma work_step g g' : inv g -> step g g' -> (work g' < work g)%nat.
Proof.
  intros Hinv Hs. revert Hinv. destruct Hs as [g0 j q g0' Hq E|g0 g0' E]; intros Hinv; unfold work.
  - destruct (sleeper_work_step j q g0 g0' Hinv Hq E) as (lk & q' & -> & Hlt). simpl.
    rewrite length_insert.
    pose proof (sum_list_with_insert (sleeper_work (g_cond g0)) _ _ _ q' Hq). lia.
  - destruct Hinv as [_ _ _ _ I5]. destruct g0 as [lk cond w ps]. simpl in *.
    destruct w as [| |j|j|j| |]; simpl in *.
    + destruct lk; [done|]. injection E as <-. simpl. lia.
    + injection E as <-. simpl.
      assert (Hle : (sum_list_with (sleeper_work true) ps <= sum_list_with (sleeper_work cond) ps)%nat).
      { apply sum_list_with_le. intros [[] ? ? ?]; destruct cond; unfold sleeper_work; simpl; lia. }
      unfold scan. destruct (Nat.ltb_spec 0 (length ps)); simpl; lia.
    + destruct (ps !! j) as [[pc [|] st ch]|] eqn:Hj; try done. injection E as <-.
      pose proof (sum_list_with_insert (sleeper_work cond) _ _ _ (Sleep pc (Some Waker) st ch) Hj) as Hi.
      apply lookup_lt_Some in Hj. unfold sleeper_work in *. simpl in *. rewrite length_insert. lia.
    + destruct (ps !! j) as [[pc lock st ch]|] eqn:Hj; try done. injection E as <-.
      match goal with |- context [ <[j := ?q]> ps ] =>
        pose proof (sum_list_with_insert (sleeper_work cond) _ _ _ q Hj) as Hi end.
      apply lookup_lt_Some in Hj. unfold sleeper_work in *. simpl in *. rewrite length_insert. lia.
    + destruct (ps !! j) as [[pc lock st ch]|] eqn:Hj; try done. injection E as <-.
      pose proof (sum_list_with_insert (sleeper_work cond) _ _ _ (Sleep pc None st ch) Hj) as Hi.
      apply lookup_lt_Some in Hj. unfold sleeper_work in *. simpl in *. rewrite length_insert.
      unfold scan. destruct (Nat.ltb_spec (S j) (length ps)); simpl; lia.
    + injection E as <-. simpl. lia.
    + done.
Qed.

Lemma work_initial n : work (initial n) = (16 * n + 3)%nat.
Proof.
  unfold work, initial. simpl. rewrite length_replicate.
  assert (sum_list_with (sleeper_work false) (replicate n (Sleep S_acquire None RUNNING false)) = 13 * n)%nat
    as -> by (induction n; simpl; lia).
  lia.
Qed.

Lemma nsteps_work m g g' : nsteps step m g g' -> inv g -> inv g' /\ (work g' + m <= work g)%nat.
Proof.
  induction 1 as [|m x y z Hs Hn IH]; intros Hinv; [split; [done|lia]|].
  pose proof (work_step _ _ Hinv Hs). destruct IH as [? ?]; [by eapply sleep_wakeup_step|].
  split; [done|lia].
Qed.

Definition all_done (g : conf) : Prop :=
  g_waker g = W_done /\ forall j q, g_procs g !! j = Some q -> q_pc q = S_done.

Lemma progress g : inv g -> (exists g', step g g') \/ all_done g.
Proof.
  intros Hinv. destruct (decide (g_waker g = W_done)) as [Hw|Hw]; [|left; by apply waker_moves].
  destruct (decide (Forall (fun q => q_pc q = S_done) (g_procs g))) as [Hd|Hd].
  - right. split; [done|]. intros j q Hq. by eapply Forall_lookup in Hd.
  - left. apply not_Forall_Exists, Exists_exists in Hd; [|solve_decision].
    destruct Hd as (q & [j Hq]%list_elem_of_lookup & Hpc). by eapply sleeper_moves.
Qed.

(** C12: No wakeup is lost: however the accesses of [n] sleepers and a waker
    interleave, a run makes at most [16 n + 3] of them, and one that cannot be
    continued has let every sleeper return from [sleep] and leave. *)
Theorem no_lost_wakeup n m g :
  nsteps step m (initial n) g ->
  (m <= 16 * n + 3)%nat /\ ((exists g', step g g') \/ all_done g).
Proof.
  intros H. destruct (nsteps_work _ _ _ H (inv_initial n)) as [Hinv Hw].
  rewrite work_initial in Hw. split; [lia|by apply progress].
Qed.

(** A run in the order of a given list of actors. *)
Fixpoint run (l : list actor) (g : conf) : option conf :=
  match l with
  | [] => Some g
  | Waker :: l => waker_step g ≫= run l
  | Sleeper j :: l => (g_procs g !! j ≫= fun q => sleeper_step j q g) ≫= run l
  end.

Lemma run_nsteps l g g' : run l g = Some g' -> nsteps step (length l) g g'.
Proof.
  revert g. induction l as [|[|j] l IH]; simpl; intros g H.
  - injection H as <-. constructor.
  - destruct (waker_step g) as [g1|] eqn:E; [|done]. econstructor; [by apply step_waker|auto].
  - destruct (g_procs g !! j) as [q|] eqn:Eq; [|done]. simpl in H.
    destruct (sleeper_step j q g) as [g1|] eqn:E; [|done].
    econstructor; [by eapply step_sleeper|auto].
Qed.

(** The sleeper sleeps, the waker runs, the sleeper returns and leaves. *)
Definition sleep_then_wake : list actor :=
  replicate 7 (Sleeper 0) ++ replicate 6 Waker ++ replicate 6 (Sleeper 0).

Lemma no_lost_wakeup_witness :
  exists g, run sleep_then_wake (initial 1) = Some g /\ (length sleep_then_wake <= 19)%nat /\
    ((exists g', step g g') \/ all_done g).
Proof.
  eexists. split; [vm_compute; reflexivity|].
  apply (no_lost_wakeup 1 (length sleep_then_wake)). apply run_nsteps. vm_compute. reflexivity.
Defined.

End SleepWakeup.

(** ** Properties *)

Definition procs_idleb (s : sys) : bool :=
  forallb (fun i => match slocks s !! L_proc i with
                    | Some (Spinlock false _ None) => true | _ => false end) (seq 0 NPROC).

Lemma procs_idleb_sound s : procs_idleb s = true -> procs_idle s.
Proof.
  intros H i Hi. unfold procs_idleb in H. rewrite forallb_forall in H.
  specialize (H i ltac:(apply in_seq; lia)). unfold lock_idle.
  destruct (slocks s !! L_proc i) as [[[] nm []]|]; try done. by exists nm.
Qed.

(** The process table after [procinit], with three processes: the running one,
    one asleep on the ticks counter and one asleep on the console. *)
Definition table : sys :=
  match procinit (Sys (Cpu 0 (Some 0%nat) 0 true 2) ∅ (replicate NPROC proc_zero) 1 None) with
  | Ok _ s =>
      set_sprocs (<[0%nat := set_p_pid 1 (set_p_state RUNNING proc_zero)]>
        (<[1%nat := set_p_pid 2 (set_p_state SLEEPING (set_p_chan (Some Ch_ticks) proc_zero))]>
        (<[2%nat := set_p_pid 3 (set_p_state SLEEPING (set_p_chan (Some Ch_cons_r) proc_zero))]>
          (sprocs s)))) s
  | _ => sys_boot
  end.

(** [wakeup(chan)] makes every other process that sleeps on [chan] RUNNABLE,
    and changes nothing else: no other process, lock or hart state. *)
Theorem wakeup_correct (ch : chan) (s : sys)
    (Hs : settled s) (Hl : procs_idle s) (Hn : length (sprocs s) = NPROC) :
  exists ps, wakeup ch s = Ok tt (set_sprocs ps s) /\ length ps = NPROC /\
  forall i p, sprocs s !! i = Some p ->
    (p_state p = SLEEPING /\ p_chan p = Some ch /\ c_proc (scpu s) <> Some i ->
      ps !! i = Some (set_p_state RUNNABLE p)) /\
    (~ (p_state p = SLEEPING /\ p_chan p = Some ch /\ c_proc (scpu s) <> Some i) ->
      ps !! i = Some p).
Proof.
  rewrite (wakeup_ok ch s Hs Hl Hn). eexists. split; [reflexivity|].
  rewrite length_imap. split; [done|]. intros i p Hp. rewrite list_lookup_imap, Hp. simpl.
  unfold wake. repeat case_decide; naive_solver.
Qed.

Lemma wakeup_correct_witness :
  exists ps, wakeup Ch_ticks table = Ok tt (set_sprocs ps table) /\ length ps = NPROC.
Proof.
  destruct (wakeup_correct Ch_ticks table) as (ps & H & Hn & _);
    [split; [by vm_compute|by vm_compute]|by apply procs_idleb_sound; vm_compute|by vm_compute|].
  exists ps. split; [exact H|exact Hn].
Defined.

(** [sleep(chan, lk)] of the running process, which holds [lk] and no other
    lock, leaves the hart with the process SLEEPING on [chan], [lk] free and
    its own lock held across the switch; resumed with its lock held while [lk]
    is free, it returns with [lk] held, its own lock free and no channel. *)
Theorem sleep_correct (i : nat) (ch : chan) (lk : lockid) (s : sys) (Hpre : sleep_pre i lk s) :
  exists k, sleep ch lk s = Switch (asleep i ch lk s) k /\
  lock_mine (asleep i ch lk s) (L_proc i) /\ lock_free (asleep i ch lk s) lk /\
  p_state (proc_of (asleep i ch lk s) i) = SLEEPING /\
  p_chan (proc_of (asleep i ch lk s) i) = Some ch /\
  forall t, lock_mine t (L_proc i) -> c_noff (scpu t) = 1 -> cpu_intr (scpu t) = false ->
    lock_free t lk ->
    exists s', k t = Ok tt s' /\ lock_mine s' lk /\ lock_free s' (L_proc i) /\
      c_noff (scpu s') = 1 /\ cpu_intr (scpu s') = false /\
      sprocs s' = alter (set_p_chan None) i (sprocs t).
Proof.
  destruct (sleep_ok i ch lk s Hpre) as (k & Hk & Hr). exists k. split; [done|].
  destruct Hpre as [_ Hlen _ _ _ _ Hne].
  split.
  { unfold lock_mine. change (lock_of (asleep i ch lk s)) with (lock_of (unlocked lk (locked (L_proc i) s))).
    rewrite lock_of_unlocked, decide_False, lock_of_locked, decide_True by done.
    change (scpu (asleep i ch lk s)) with (cpu_pop (cpu_push (scpu s))). by rewrite cpu_pop_c_id. }
  split.
  { unfold lock_free. change (lock_of (asleep i ch lk s)) with (lock_of (unlocked lk (locked (L_proc i) s))).
    by rewrite lock_of_unlocked, decide_True. }
  unfold asleep. rewrite (proc_of_upd _ i (unlocked lk (locked (L_proc i) s))) by done.
  split; [done|]. split; [done|]. intros t H1 H2 H3 H4.
  destruct (wake_rest_ok i lk (c_intena (scpu s)) t H1 H2 H3 H4 Hne) as (s' & E & ? & ? & ? & ? & _ & ?).
  exists s'. rewrite Hr. done.
Qed.

(** [table] with the running process in a critical section. *)
Definition busy : sys := locked L_ticks table.

Lemma sleep_correct_witness :
  exists k, sleep Ch_ticks L_ticks busy = Switch (asleep 0 Ch_ticks L_ticks busy) k.
Proof.
  destruct (sleep_correct 0 Ch_ticks L_ticks busy) as (k & H & _); [|by exists k].
  split; try (by vm_compute). vm_compute; lia.
Defined.

(** [kill(pid)] marks the first process with that pid as killed and makes
    it RUNNABLE if it sleeps, and returns 0; when there is none it returns -1
    and changes nothing. *)
Theorem kill_correct (pid : Z) (s : sys)
    (Hs : settled s) (Hl : procs_idle s) (Hn : length (sprocs s) = NPROC) :
  (forall i p, sprocs s !! i = Some p -> p_pid p = pid ->
    (forall j q, (j < i)%nat -> sprocs s !! j = Some q -> p_pid q <> pid) ->
    kill pid s = Ok 0 (set_sprocs (<[i :=
      set_p_killed 1 (if decide (p_state p = SLEEPING) then set_p_state RUNNABLE p else p)]>
      (sprocs s)) s)) /\
  ((forall i p, sprocs s !! i = Some p -> p_pid p <> pid) -> kill pid s = Ok (-1) s).
Proof.
  assert (Hk : find_loop (seq 0 NPROC) (kill_one pid) s =
    match list_find (fun i => p_pid (proc_of s i) = pid) (seq 0 NPROC) with
    | Some (_, i) => Ok (Some 0) (set_sprocs (alter kill_victim i (sprocs s)) s)
    | None => Ok None s end).
  { apply kill_loop_ok; [done|]. intros i Hi%elem_of_seq. split; [apply Hl; lia|lia]. }
  split.
  - intros i p Hp Hpid Hmin. assert (Hi : (i < NPROC)%nat) by (rewrite <- Hn; by eapply lookup_lt_Some).
    assert (E : list_find (fun i => p_pid (proc_of s i) = pid) (seq 0 NPROC) = Some (i, i)).
    { apply list_find_Some. split; [by apply lookup_seq_lt|]. split; [by rewrite (proc_of_lookup _ _ _ Hp)|].
      intros j y Hy Hlt. apply lookup_seq in Hy as [-> Hj]. simpl.
      destruct (lookup_lt_is_Some_2 (sprocs s) j) as [q Hq]; [lia|].
      rewrite (proc_of_lookup _ _ _ Hq). by apply (Hmin j). }
    rewrite E in Hk. unfold kill. krun Hk. unfold ret. simpl. do 2 f_equal.
    rewrite (alter_insert _ _ _ _ Hp). f_equal. unfold kill_victim; simpl. by case_decide.
  - intros Hnone.
    assert (E : list_find (fun i => p_pid (proc_of s i) = pid) (seq 0 NPROC) = None).
    { apply list_find_None, Forall_forall. intros i Hi%elem_of_seq.
      destruct (lookup_lt_is_Some_2 (sprocs s) i) as [q Hq]; [lia|].
      rewrite (proc_of_lookup _ _ _ Hq). by eapply Hnone. }
    rewrite E in Hk. unfold kill. by krun Hk.
Qed.

Lemma kill_correct_witness :
  exists s', kill 2 table = Ok 0 s' /\ p_state (proc_of s' 1) = RUNNABLE /\
    p_killed (proc_of s' 1) = 1.
Proof.
  eexists. split.
  - apply (kill_correct 2 table) with (i := 1%nat);
      [split; [by vm_compute|by vm_compute]|by apply procs_idleb_sound; vm_compute|by vm_compute|
       vm_compute; reflexivity|done|].
    intros [|j] q Hj Hq; [vm_compute in Hq; by simplify_eq|lia].
  - split; vm_compute; reflexivity.
Defined.

(** One pass of the scheduler over the process table switches to the first
    RUNNABLE process, marked RUNNING, with its lock held, interrupts off and
    [c->proc] naming it; with no RUNNABLE process it visits the whole table and
    changes no process and no lock. *)
Theorem scheduler_correct (s : sys) (Hwf : cpu_wf (scpu s)) (Hl : procs_idle s) :
  match list_find (fun i => p_state (proc_of s i) = RUNNABLE) (seq 0 NPROC) with
  | Some (_, i) =>
      exists t k, scheduler_scan (seq 0 NPROC) false s = Switch t k /\
        c_proc (scpu t) = Some i /\ lock_mine t (L_proc i) /\ cpu_intr (scpu t) = false /\
        c_noff (scpu t) = c_noff (scpu s) + 1 /\
        sprocs t = alter (set_p_state RUNNING) i (sprocs s)
  | None =>
      exists t, scheduler_scan (seq 0 NPROC) false s = Ok false t /\
        sprocs t = sprocs s /\ slocks t = slocks s
  end.
Proof.
  pose proof (scheduler_scan_ok (seq 0 NPROC) false s Hwf) as H.
  destruct (list_find _ _) as [[n i]|].
  - destruct H as (t & k & ? & ? & ? & ? & ? & ? & _); [|by exists t, k].
    intros i' Hi%elem_of_seq. apply Hl. lia.
  - destruct H as (t & ? & ? & ? & ? & ? & ?); [|by exists t].
    intros i' Hi%elem_of_seq. apply Hl. lia.
Qed.

Lemma scheduler_correct_witness :
  exists t, scheduler_scan (seq 0 NPROC) false table = Ok false t /\ sprocs t = sprocs table.
Proof.
  pose proof (scheduler_correct table ltac:(by vm_compute)
    ltac:(by apply procs_idleb_sound; vm_compute)) as H.
  replace (list_find _ _) with (@None (nat * nat)) in H by (vm_compute; reflexivity).
  destruct H as (t & H1 & H2 & _). exists t. split; [exact H1|exact H2].
Defined.
