(* ===== verification/Kalloc.v ===== *)
(** * [kernel/kalloc.c]: the physical page allocator

    The free list is threaded through the free pages themselves: the first
    eight bytes of a free page hold the address of the next one.  [kend] is the
    linker's symbol [end], the first address after the kernel. *)

From S2P Require Import Prelude Riscv Memory CString Sys Spinlock.

(** What the allocator and its clients work on. *)
Record kmem := Kmem {
  km_sys : sys;
  km_freelist : Z;
  km_mem : mem
}.

Definition set_km_sys (x : sys) (s : kmem) : kmem := Kmem x (km_freelist s) (km_mem s).

Definition set_km_freelist (x : Z) (s : kmem) : kmem := Kmem (km_sys s) x (km_mem s).

Definition set_km_mem (x : mem) (s : kmem) : kmem := Kmem (km_sys s) (km_freelist s) x.

Definition km_sysL : lens kmem sys := Lens km_sys set_km_sys.

#[export] Instance km_sysL_laws : LensLaws km_sysL.
Proof. by split; intros; try destruct s. Qed.

Definition upd_mem (f : mem -> mem) : M kmem unit := modify (fun s => set_km_mem (f (km_mem s)) s).

Section Kalloc.
Variable kend : Z.

Definition kfree (pa : Z) : M kmem unit :=
  if negb (pa mod PGSIZE =? 0) || (pa <? kend) || (PHYSTOP <=? pa) then panic "kfree" else
  (* Fill with junk to catch dangling refs. *)
  upd_mem (fun m => memset m pa 1 PGSIZE) ;;
  let r := pa in
  zoom km_sysL (acquire L_kmem) ;;
  let! fl := gets km_freelist in
  upd_mem (fun m => st64 m r fl) ;;
  modify (set_km_freelist r) ;;
  zoom km_sysL (release L_kmem).

(** The loop makes at most one round per page up to [pa_end]. *)
Definition freerange (pa_start pa_end : Z) : M kmem unit :=
  let p := PGROUNDUP pa_start in
  while (S (Z.to_nat ((pa_end - p) / PGSIZE))) (fun p =>
    if p + PGSIZE <=? pa_end then kfree p ;; ret (inl (p + PGSIZE)) else ret (inr tt)) p.

Definition kinit : M kmem unit :=
  zoom km_sysL (initlock L_kmem "kmem") ;;
  freerange kend PHYSTOP.

Definition kalloc : M kmem Z :=
  zoom km_sysL (acquire L_kmem) ;;
  let! r := gets km_freelist in
  (if negb (r =? 0) then modify (fun s => set_km_freelist (ld64 (km_mem s) r) s) else ret tt) ;;
  zoom km_sysL (release L_kmem) ;;
  (if negb (r =? 0) then upd_mem (fun m => memset m r 5 PGSIZE) else ret tt) ;;
  ret r.

(** ** The invariant *)

(** A page the allocator may own. *)
Definition page_ok (p : Z) : Prop := p mod PGSIZE = 0 /\ kend <= p < PHYSTOP.

(** [l] is the list that starts at [fl]. *)
Fixpoint chain (m : mem) (fl : Z) (l : list Z) : Prop :=
  match l with
  | [] => fl = 0
  | p :: l => fl = p /\ chain m (ld64 m p) l
  end.

(** [l] is the free list: distinct pages, chained in memory. *)
Record free_pages (l : list Z) (s : kmem) : Prop := {
  fp_chain : chain (km_mem s) (km_freelist s) l;
  fp_nodup : NoDup l;
  fp_ok : Forall page_ok l
}.

(** No lock is held and interrupts are in order. *)
Definition ready (s : kmem) : Prop := settled (km_sys s) /\ lock_idle (km_sys s) L_kmem.

(** Memory outside [n] bytes at [a] is the same. *)
Definition same_but (a n : Z) (m m' : mem) : Prop :=
  forall x, ~ (a <= x < a + n) -> ld8 m' x = ld8 m x.

Hypothesis kend_pos : 0 < kend.

Lemma page_ok_pos p : page_ok p -> 0 < p /\ p + PGSIZE <= PHYSTOP.
Proof. unfold page_ok, PGSIZE, PHYSTOP, KERNBASE. intros. split; dlia. Qed.

Lemma page_ok_apart p q : page_ok p -> page_ok q -> p <> q -> apart p PGSIZE q PGSIZE.
Proof. unfold page_ok, apart, PGSIZE. intros. dlia. Qed.

Lemma same_but_ld64 a n m m' x : same_but a n m m' -> apart a n x 8 -> ld64 m' x = ld64 m x.
Proof.
  intros H Ha. apply ld64_ext. intros i Hi. apply H. unfold apart in Ha. lia.
Qed.

Lemma same_but_trans a n m1 m2 m3 : same_but a n m1 m2 -> same_but a n m2 m3 -> same_but a n m1 m3.
Proof. intros H1 H2 x Hx. by rewrite H2, H1. Qed.

Lemma same_but_st_bytes m a n a' bs :
  a <= a' -> a' + Z.of_nat (length bs) <= a + n -> same_but a n m (st_bytes m a' bs).
Proof. intros H1 H2 x Hx. apply ld8_st_bytes_out. lia. Qed.

Lemma same_but_memset m a c : same_but a PGSIZE m (memset m a c PGSIZE).
Proof. rewrite memset_eq. apply same_but_st_bytes; [lia|]. rewrite length_replicate. by unfold PGSIZE. Qed.

Lemma chain_ext m m' fl l :
  (forall p, p ∈ l -> ld64 m' p = ld64 m p) -> chain m fl l -> chain m' fl l.
Proof.
  revert fl. induction l as [|p l IH]; intros fl H Hc; simpl in *; [done|].
  destruct Hc as [-> Hc]. split; [done|]. rewrite H by (by left).
  apply IH; [|done]. intros q Hq. apply H. by right.
Qed.

Lemma chain_same_but m m' fl l p :
  same_but p PGSIZE m m' -> page_ok p -> Forall page_ok l -> p ∉ l ->
  chain m fl l -> chain m' fl l.
Proof.
  intros Hs Hp Hl Hn. apply chain_ext. intros q Hq.
  apply (same_but_ld64 p PGSIZE); [done|].
  rewrite Forall_forall in Hl. destruct (page_ok_apart p q); auto; [congruence|..];
    unfold apart, PGSIZE in *; lia.
Qed.

Lemma chain_head_zero m l : Forall page_ok l -> chain m 0 l -> l = [].
Proof.
  destruct l as [|p l]; [done|]. intros Hl [<- _]. apply Forall_cons in Hl as [Hl _].
  apply page_ok_pos in Hl. lia.
Qed.

(** ** kfree *)

Lemma kfree_bad pa s :
  ~ page_ok pa -> kfree pa s = Panic "kfree" s.
Proof.
  intros H. unfold kfree. rewrite (proj2 (Bool.orb_true_iff _ _)); [done|].
  unfold page_ok in H.
  destruct (Z.eqb_spec (pa mod PGSIZE) 0), (Z.ltb_spec pa kend), (Z.leb_spec PHYSTOP pa);
    simpl; auto. exfalso. apply H. lia.
Qed.

Lemma kfree_run pa s :
  page_ok pa -> ready s ->
  kfree pa s = Ok tt (Kmem (km_sys s) pa (st64 (memset (km_mem s) pa 1 PGSIZE) pa (km_freelist s))).
Proof.
  intros [H1 H2] [Hs Hl]. unfold kfree.
  rewrite (proj2 (Z.eqb_eq _ _) H1), (proj2 (Z.ltb_ge _ _)), (proj2 (Z.leb_gt _ _)) by lia.
  simpl. unfold upd_mem. rewrite bind_modify.
  set (s1 := set_km_mem _ s).
  krun (zoom_acquire km_sysL L_kmem s1 Hl). rewrite bind_gets, !bind_modify.
  by rewrite (zoom_release km_sysL L_kmem (km_sys s)).
Qed.

Lemma kfree_ok l pa s :
  free_pages l s -> ready s -> page_ok pa -> pa ∉ l ->
  exists m, kfree pa s = Ok tt (Kmem (km_sys s) pa m) /\
    free_pages (pa :: l) (Kmem (km_sys s) pa m) /\ same_but pa PGSIZE (km_mem s) m.
Proof.
  intros [Hc Hn Ho] Hr Hp Hnot. eexists. split; [by apply kfree_run|].
  set (m := st64 _ _ _).
  assert (Hsame : same_but pa PGSIZE (km_mem s) m).
  { eapply same_but_trans; [apply (same_but_memset _ _ 1)|].
    apply same_but_st_bytes; [lia|]. rewrite length_le_split. unfold PGSIZE. lia. }
  split; [|done]. split; [|by constructor|by constructor]. simpl. split; [done|].
  replace (ld64 m pa) with (km_freelist s); [by eapply chain_same_but|].
  unfold m. rewrite ld64_st64, u64_small; [done|].
  destruct l as [|q l]; simpl in Hc; [lia|].
  destruct Hc as [-> _]. apply Forall_cons in Ho as [Hq _]. apply page_ok_pos in Hq.
  unfold PHYSTOP, KERNBASE, PGSIZE in *. lia.
Qed.

(** ** kalloc *)

Lemma kalloc_empty s : free_pages [] s -> ready s -> kalloc s = Ok 0 s.
Proof.
  intros [Hc _ _] [Hs Hl]. simpl in Hc. unfold kalloc.
  krun (zoom_acquire km_sysL L_kmem s Hl). rewrite bind_gets. simpl. rewrite Hc. simpl.
  rewrite bind_ret. krun (zoom_release km_sysL L_kmem (km_sys s)
    (set_km_sys (locked L_kmem (km_sys s)) s) Hs Hl eq_refl).
  destruct s; simpl in *. by subst.
Qed.

Lemma kalloc_run p l s :
  free_pages (p :: l) s -> ready s ->
  kalloc s = Ok p (Kmem (km_sys s) (ld64 (km_mem s) p) (memset (km_mem s) p 5 PGSIZE)).
Proof.
  intros [[Hc _] _ Ho] [Hs Hl]. apply Forall_cons in Ho as [Hp _]. apply page_ok_pos in Hp.
  unfold kalloc. krun (zoom_acquire km_sysL L_kmem s Hl). rewrite bind_gets.
  change (km_freelist (lset _ _ s)) with (km_freelist s). rewrite Hc.
  rewrite (proj2 (Z.eqb_neq _ _)) by lia. simpl negb. cbn [negb]. rewrite bind_modify.
  set (t := set_km_freelist _ _).
  krun (zoom_release km_sysL L_kmem (km_sys s) t Hs Hl eq_refl). done.
Qed.

Lemma kalloc_ok p l s :
  free_pages (p :: l) s -> ready s ->
  exists fl m, kalloc s = Ok p (Kmem (km_sys s) fl m) /\ page_ok p /\
    free_pages l (Kmem (km_sys s) fl m) /\ same_but p PGSIZE (km_mem s) m /\
    ld_bytes m p (Z.to_nat PGSIZE) = replicate (Z.to_nat PGSIZE) (byte.of_Z 5).
Proof.
  intros Hf Hr. do 2 eexists. split; [by apply (kalloc_run p l)|].
  destruct Hf as [[_ Hc] Hn Ho]. apply Forall_cons in Ho as [Hp Ho].
  apply NoDup_cons in Hn as [Hnot Hn].
  split; [done|]. split; [|split; [apply same_but_memset|]].
  - split; [|done|done]. simpl. eapply chain_same_but; eauto using same_but_memset.
  - rewrite memset_eq. by rewrite ld_bytes_st_bytes by (by rewrite length_replicate).
Qed.

(** ** kinit *)

(** [n] pages from [p] on. *)
Fixpoint page_range (p : Z) (n : nat) : list Z :=
  match n with
  | O => []
  | S n => p :: page_range (p + PGSIZE) n
  end.

Lemma freerange_loop_ok pa_end n p l s fuel :
  (n < fuel)%nat -> p + Z.of_nat n * PGSIZE <= pa_end < p + Z.of_nat n * PGSIZE + PGSIZE ->
  p mod PGSIZE = 0 -> kend <= p -> pa_end <= PHYSTOP ->
  free_pages l s -> ready s -> Forall (fun q => q < p) l ->
  exists fl m,
    while fuel (fun p => if p + PGSIZE <=? pa_end then kfree p ;; ret (inl (p + PGSIZE))
                         else ret (inr tt)) p s = Ok tt (Kmem (km_sys s) fl m) /\
    free_pages (reverse (page_range p n) ++ l) (Kmem (km_sys s) fl m).
Proof.
  revert p l s fuel. induction n as [|n IH]; intros p l s [|fuel] Hf Hp Ha Hk He Hl Hr Hlt;
    try lia; cbn [while].
  - rewrite (proj2 (Z.leb_gt _ _)) by lia. destruct s. by do 2 eexists.
  - rewrite (proj2 (Z.leb_le _ _)) by (unfold PGSIZE in *; lia).
    destruct (kfree_ok l p s) as (m & Hfree & Hl' & _); [done|done| |..].
    { split; [done|]. unfold PGSIZE in *. lia. }
    { intros Hin. rewrite Forall_forall in Hlt. specialize (Hlt p Hin). lia. }
    rewrite (bind_Ok _ _ _ (inl (p + PGSIZE)) (Kmem (km_sys s) p m)) by (by krun Hfree).
    destruct (IH (p + PGSIZE) (p :: l) (Kmem (km_sys s) p m) fuel) as (fl & m' & Hw & Hl2);
      try done; try (unfold PGSIZE in *; dlia).
    + constructor; [unfold PGSIZE; lia|]. eapply Forall_impl; [done|]. unfold PGSIZE. lia.
    + exists fl, m'. split; [done|]. simpl. rewrite reverse_cons. by rewrite <- app_assoc.
Qed.

Lemma page_range_elem p n q :
  p mod PGSIZE = 0 ->
  q ∈ page_range p n <-> q mod PGSIZE = 0 /\ p <= q < p + Z.of_nat n * PGSIZE.
Proof.
  unfold PGSIZE. revert p. induction n as [|n IH]; intros p Hp; simpl.
  - split; [by intros ?%not_elem_of_nil|lia].
  - unfold PGSIZE. rewrite elem_of_cons, IH by dlia. split; [|intros].
    + intros [->|]; lia.
    + destruct (decide (q = p)); [by left|right]. dlia.
Qed.

(** ** Clients *)

(** What a client of the allocator may do: allocate, or free its [i]th page. *)
Inductive client_op := OpAlloc | OpFree (i : nat).

(** [owned] are the pages the client has. *)
Definition client_do (o : client_op) (owned : list Z) : M kmem (list Z) :=
  match o with
  | OpAlloc => let! p := kalloc in ret (if p =? 0 then owned else p :: owned)
  | OpFree i =>
      match owned !! i with
      | Some p => kfree p ;; ret (delete i owned)
      | None => ret owned
      end
  end.

Fixpoint client_run (os : list client_op) (owned : list Z) : M kmem (list Z) :=
  match os with
  | [] => ret owned
  | o :: os => let! owned := client_do o owned in client_run os owned
  end.

Lemma client_do_ok o owned l s :
  free_pages l s -> ready s -> NoDup (owned ++ l) -> Forall page_ok owned ->
  exists owned' l' s', client_do o owned s = Ok owned' s' /\ km_sys s' = km_sys s /\
    free_pages l' s' /\ owned' ++ l' ≡ₚ owned ++ l /\ Forall page_ok owned'.
Proof.
  intros Hl Hr Hn Ho. destruct o as [|i]; simpl.
  - destruct l as [|p l].
    + exists owned, [], s. by krun (kalloc_empty s Hl Hr).
    + destruct (kalloc_ok p l s Hl Hr) as (fl & m & Ha & Hp & Hl' & _).
      exists (p :: owned), l, (Kmem (km_sys s) fl m). krun Ha.
      apply page_ok_pos in Hp as Hp'. rewrite (proj2 (Z.eqb_neq _ _)) by lia.
      split_and!; try done; [|by constructor]. simpl. by rewrite Permutation_middle.
  - destruct (owned !! i) as [p|] eqn:Ei; [|by exists owned, l, s].
    apply NoDup_app in Hn as (_ & Hdis & _).
    destruct (kfree_ok l p s) as (m & Hf & Hl' & _); try done.
    { eapply Forall_lookup_1; eauto. }
    { apply Hdis. by eapply list_elem_of_lookup_2. }
    exists (delete i owned), (p :: l), (Kmem (km_sys s) p m). krun Hf.
    split_and!; try done; [|by apply Forall_delete].
    rewrite (delete_Permutation owned i p Ei) at 2. simpl. by rewrite Permutation_middle.
Qed.

Lemma client_run_ok os owned l s :
  free_pages l s -> ready s -> NoDup (owned ++ l) -> Forall page_ok owned ->
  exists owned' l' s', client_run os owned s = Ok owned' s' /\ km_sys s' = km_sys s /\
    free_pages l' s' /\ owned' ++ l' ≡ₚ owned ++ l /\ NoDup (owned' ++ l').
Proof.
  revert owned l s. induction os as [|o os IH]; intros owned l s Hl Hr Hn Ho; simpl.
  - by exists owned, l, s.
  - destruct (client_do_ok o owned l s) as (o1 & l1 & s1 & H1 & Hs1 & Hl1 & Hp1 & Ho1); try done.
    krun H1. destruct (IH o1 l1 s1) as (o2 & l2 & s2 & H2 & Hs2 & Hl2 & Hp2 & Hn2); try done.
    { unfold ready. by rewrite Hs1. }
    { by rewrite Hp1. }
    exists o2, l2, s2. split_and!; try done; [by rewrite Hs2|by rewrite Hp2].
Qed.

End Kalloc.

(** ** Properties *)

(** [kinit] puts every page between the end of the kernel and the end of
    memory on the free list, once, and leaves the allocator's lock free. *)
Theorem kinit_correct (kend : Z) (s : kmem)
    (Hend : 0 < kend <= PHYSTOP) (Hs : settled (km_sys s)) (Hfl : km_freelist s = 0) :
  exists s' l, kinit kend s = Ok tt s' /\ free_pages kend l s' /\ ready s' /\
    forall p, p ∈ l <-> p mod PGSIZE = 0 /\ PGROUNDUP kend <= p < PHYSTOP.
Proof.
  destruct (PGROUNDUP_bounds kend) as [Hb Ha]; [lia|unfold PHYSTOP, KERNBASE in *; lia|].
  set (p := PGROUNDUP kend) in *. set (n := Z.to_nat ((PHYSTOP - p) / PGSIZE)).
  set (s1 := set_km_sys (set_slocks (<[L_kmem := Spinlock false "kmem" None]> (slocks (km_sys s))) (km_sys s)) s).
  assert (Hp : p <= PHYSTOP) by (unfold PGSIZE, PHYSTOP, KERNBASE in *; dlia).
  destruct (freerange_loop_ok kend ltac:(lia) PHYSTOP n p [] s1 (S n)) as (fl & m & Hw & Hl);
    try done; try lia.
  - unfold n, PGSIZE in *. dlia.
  - split; [exact Hfl|constructor|constructor].
  - split; [exact Hs|]. apply initlock_idle.
  - exists (Kmem (km_sys s1) fl m), (reverse (page_range p n) ++ []).
    split; [|split; [exact Hl|]]; [|split].
    + unfold kinit. rewrite (bind_Ok _ _ _ tt s1); [exact Hw|].
      by apply zoom_Ok, initlock_ok.
    + split; [exact Hs|]. apply initlock_idle.
    + intros q. rewrite app_nil_r, elem_of_reverse, page_range_elem by done.
      unfold n, PGSIZE, PHYSTOP, KERNBASE in *. split; intros; dlia.
Qed.

(** A kernel that leaves sixteen pages of memory. *)
Definition small_end : Z := PHYSTOP - 16 * PGSIZE - 100.

Lemma small_end_pos : 0 < small_end.
Proof. done. Qed.

(** No free page, with interrupts off. *)
Definition kmem_idle : kmem :=
  Kmem (locked L_pid (set_slocks (<[L_kmem := Spinlock false "kmem" None]> ∅) sys_boot)) 0 ∅.

Lemma kmem_idle_ready : ready kmem_idle.
Proof. split; [by split; vm_compute|]. by exists "kmem"%string. Qed.

(** Twelve free pages. *)
Definition demo_pages : list Z := map (fun i => PHYSTOP - (Z.of_nat i + 1) * PGSIZE) (seq 0 12).

Fixpoint chain_mem (l : list Z) : mem :=
  match l with
  | p :: ((q :: _) as l') => st64 (chain_mem l') p q
  | _ => ∅
  end.

Definition kmem_demo : kmem := Kmem (km_sys kmem_idle) (PHYSTOP - PGSIZE) (chain_mem demo_pages).

Lemma kmem_demo_free : free_pages small_end demo_pages kmem_demo.
Proof.
  split.
  - by vm_compute.
  - by apply (bool_decide_unpack _); vm_compute.
  - repeat constructor; by vm_compute.
Qed.

Lemma kinit_correct_witness :
  exists s' l, kinit small_end kmem_idle = Ok tt s' /\ free_pages small_end l s' /\
    PHYSTOP - PGSIZE ∈ l.
Proof.
  destruct (kinit_correct small_end kmem_idle) as (s' & l & H1 & H2 & _ & H3);
    [by vm_compute|apply kmem_idle_ready|done|].
  exists s', l. split; [exact H1|]. split; [exact H2|]. apply H3. split; [reflexivity|]. split; [|reflexivity]. vm_compute. discriminate.
Defined.

(** [kalloc] and [kfree] are each other's inverse on the free list: freeing
    a page the allocator does not have puts it in front and touches no other
    memory, and the next [kalloc] returns that page, filled with junk, and
    restores the list. *)
Theorem kfree_kalloc_roundtrip (kend : Z) (l : list Z) (pa : Z) (s : kmem)
    (Hend : 0 < kend) (Hl : free_pages kend l s) (Hr : ready s)
    (Hp : page_ok kend pa) (Hn : pa ∉ l) :
  exists s1 s2, kfree kend pa s = Ok tt s1 /\ free_pages kend (pa :: l) s1 /\
    kalloc s1 = Ok pa s2 /\ free_pages kend l s2 /\
    km_sys s2 = km_sys s /\ km_freelist s2 = km_freelist s /\
    same_but pa PGSIZE (km_mem s) (km_mem s2) /\
    ld_bytes (km_mem s2) pa (Z.to_nat PGSIZE) = replicate (Z.to_nat PGSIZE) (byte.of_Z 5).
Proof.
  destruct (kfree_ok kend Hend l pa s Hl Hr Hp Hn) as (m & Hf & Hl1 & Hm).
  set (s1 := Kmem (km_sys s) pa m) in *.
  assert (Hr1 : ready s1) by exact Hr.
  destruct (kalloc_ok kend Hend pa l s1 Hl1 Hr1) as (fl & m2 & Ha & _ & Hl2 & Hm2 & Hj).
  assert (Hfl : fl = km_freelist s).
  { destruct Hl as [Hc _ _], Hl2 as [Hc2 _ _]. cbn [chain km_freelist km_mem] in *.
    destruct l as [|q l]; cbn [chain] in *; [congruence|]. by destruct Hc as [-> _], Hc2 as [-> _]. }
  exists s1, (Kmem (km_sys s) fl m2).
  split; [exact Hf|]. split; [exact Hl1|]. split; [exact Ha|]. split; [exact Hl2|].
  split; [reflexivity|]. split; [exact Hfl|]. split; [|exact Hj].
  eapply same_but_trans; [exact Hm|exact Hm2].
Qed.

Lemma kfree_kalloc_roundtrip_witness :
  exists s1 s2, kfree small_end (PHYSTOP - PGSIZE) kmem_idle = Ok tt s1 /\
    kalloc s1 = Ok (PHYSTOP - PGSIZE) s2.
Proof.
  destruct (kfree_kalloc_roundtrip small_end [] (PHYSTOP - PGSIZE) kmem_idle)
    as (s1 & s2 & H1 & _ & H2 & _).
  - by vm_compute.
  - split; [done|by constructor|by constructor].
  - apply kmem_idle_ready.
  - by vm_compute.
  - by apply not_elem_of_nil.
  - exists s1, s2. split; [exact H1|exact H2].
Defined.

(** C16: whatever sequence of allocations and frees of its own pages a client
    makes, no page is lost, duplicated or handed out twice: the client's pages
    and the free list stay a rearrangement of those at the start, all distinct. *)
Theorem kalloc_conservation (kend : Z) (os : list client_op) (owned l : list Z) (s : kmem)
    (Hend : 0 < kend) (Hl : free_pages kend l s) (Hr : ready s)
    (Hn : NoDup (owned ++ l)) (Ho : Forall (page_ok kend) owned) :
  exists owned' l' s', client_run kend os owned s = Ok owned' s' /\
    free_pages kend l' s' /\ owned' ++ l' ≡ₚ owned ++ l /\ NoDup (owned' ++ l').
Proof.
  destruct (client_run_ok kend Hend os owned l s Hl Hr Hn Ho)
    as (owned' & l' & s' & H1 & _ & H2 & H3 & H4).
  by exists owned', l', s'.
Qed.

Lemma kalloc_conservation_witness :
  exists owned' l' s', client_run small_end [OpFree 1; OpAlloc; OpAlloc; OpFree 0]
      [PHYSTOP - PGSIZE; PHYSTOP - 2 * PGSIZE] kmem_idle
      = Ok owned' s' /\ owned' ++ l' ≡ₚ [PHYSTOP - PGSIZE; PHYSTOP - 2 * PGSIZE].
Proof.
  destruct (kalloc_conservation small_end [OpFree 1; OpAlloc; OpAlloc; OpFree 0]
      [PHYSTOP - PGSIZE; PHYSTOP - 2 * PGSIZE] [] kmem_idle)
    as (owned' & l' & s' & H1 & _ & H3 & _).
  - by vm_compute.
  - split; [done|by constructor|by constructor].
  - apply kmem_idle_ready.
  - simpl. by apply (bool_decide_unpack _); vm_compute.
  - repeat constructor; by vm_compute.
  - exists owned', l', s'. split; [exact H1|exact H3].
Defined.
