(* ===== verification/Vm.v ===== *)
(** * [kernel/vm.c]: page tables and user memory

    The code of [vm.c] over the allocator's state.  A page table is a page of
    512 little-endian words in memory, as the hardware reads it.  The kernel
    runs on a direct map, so a kernel pointer is a physical address.  The
    kernel-side buffer of [copyout], [copyin] and [copyinstr] is the sequence
    of bytes it holds.  [etext] and [trampoline] are linker symbols. *)

From S2P Require Import Prelude Riscv Memory CString Sys Spinlock Kalloc.

(** [*p] and [*p = v] for a [uint64 *p] *)
Definition ldm (p : Z) : M kmem Z := gets (fun s => ld64 (km_mem s) p).

Definition stm (p v : Z) : M kmem unit := upd_mem (fun m => st64 m p v).

(** [&pagetable[i]] *)
Definition pte_at (pagetable i : Z) : Z := pagetable + 8 * i.

Section Vm.
Variable kend : Z.

(** The loop of [walk], one round per level. *)
Fixpoint walk_levels (levels : list Z) (pagetable va : Z) (alloc : bool) : M kmem Z :=
  match levels with
  | [] => ret (pte_at pagetable (PX 0 va))
  | level :: levels =>
      let pte := pte_at pagetable (PX level va) in
      let! v := ldm pte in
      if has v PTE_V then walk_levels levels (PTE2PA v) va alloc
      else if negb alloc then ret 0
      else
        let! pagetable := kalloc in
        if pagetable =? 0 then ret 0 else
        upd_mem (fun m => memset m pagetable 0 PGSIZE) ;;
        stm pte (Z.lor (PA2PTE pagetable) PTE_V) ;;
        walk_levels levels pagetable va alloc
  end.

Definition walk (pagetable va : Z) (alloc : bool) : M kmem Z :=
  if MAXVA <=? va then panic "walk" else walk_levels [2; 1] pagetable va alloc.

Definition walkaddr (pagetable va : Z) : M kmem Z :=
  if MAXVA <=? va then ret 0 else
  let! pte := walk pagetable va false in
  if pte =? 0 then ret 0 else
  let! v := ldm pte in
  if negb (has v PTE_V) then ret 0 else
  if negb (has v PTE_U) then ret 0 else
  ret (PTE2PA v).

(** The body of the loop of [mappages]. *)
Definition mappages_body (pagetable perm last : Z) : Z * Z -> M kmem (Z * Z + Z) :=
  fun '(a, pa) =>
    let! pte := walk pagetable a true in
    if pte =? 0 then ret (inr (-1)) else
    let! v := ldm pte in
    if has v PTE_V then panic "mappages: remap" else
    stm pte (Z.lor (Z.lor (PA2PTE pa) perm) PTE_V) ;;
    if a =? last then ret (inr 0) else
    ret (inl (u64 (a + PGSIZE), u64 (pa + PGSIZE))).

Definition mappages (pagetable va size pa perm : Z) : M kmem Z :=
  if negb (va mod PGSIZE =? 0) then panic "mappages: va not aligned" else
  if negb (size mod PGSIZE =? 0) then panic "mappages: size not aligned" else
  if size =? 0 then panic "mappages: size" else
  let last := u64 (va + size - PGSIZE) in
  while (Z.to_nat (size / PGSIZE)) (mappages_body pagetable perm last) (va, pa).

Definition kvmmap (kpgtbl va pa sz perm : Z) : M kmem unit :=
  let! r := mappages kpgtbl va sz pa perm in
  if negb (r =? 0) then panic "kvmmap" else ret tt.

(** The loop of [uvmunmap], test and body. *)
Definition uvmunmap_body (pagetable end_ : Z) (do_free : bool) (a : Z) : M kmem (Z + unit) :=
  if a <? end_ then
    let! pte := walk pagetable a false in
    if pte =? 0 then panic "uvmunmap: walk" else
    let! v := ldm pte in
    if negb (has v PTE_V) then panic "uvmunmap: not mapped" else
    if PTE_FLAGS v =? PTE_V then panic "uvmunmap: not a leaf" else
    (if do_free then kfree kend (PTE2PA v) else ret tt) ;;
    stm pte 0 ;;
    ret (inl (u64 (a + PGSIZE)))
  else ret (inr tt).

Definition uvmunmap (pagetable va npages : Z) (do_free : bool) : M kmem unit :=
  if negb (va mod PGSIZE =? 0) then panic "uvmunmap: not aligned" else
  while (S (Z.to_nat npages)) (uvmunmap_body pagetable (u64 (va + npages * PGSIZE)) do_free) va.

Definition uvmcreate : M kmem Z :=
  let! pagetable := kalloc in
  if pagetable =? 0 then ret 0 else
  upd_mem (fun m => memset m pagetable 0 PGSIZE) ;;
  ret pagetable.

Definition uvmfirst (pagetable : Z) (src : list byte) : M kmem unit :=
  if PGSIZE <=? Z.of_nat (length src) then panic "uvmfirst: more than a page" else
  let! mem := kalloc in
  upd_mem (fun m => memset m mem 0 PGSIZE) ;;
  let! _ := mappages pagetable 0 PGSIZE mem (Z.lor (Z.lor (Z.lor PTE_W PTE_R) PTE_X) PTE_U) in
  upd_mem (fun m => st_bytes m mem src).

Definition uvmdealloc (pagetable oldsz newsz : Z) : M kmem Z :=
  if oldsz <=? newsz then ret oldsz else
  (if PGROUNDUP newsz <? PGROUNDUP oldsz then
     let npages := s32 ((PGROUNDUP oldsz - PGROUNDUP newsz) / PGSIZE) in
     uvmunmap pagetable (PGROUNDUP newsz) (u64 npages) true
   else ret tt) ;;
  ret newsz.

(** The loop of [uvmalloc], test and body. *)
Definition uvmalloc_body (pagetable oldsz newsz xperm a : Z) : M kmem (Z + Z) :=
  if a <? newsz then
    let! mem := kalloc in
    if mem =? 0 then
      let! _ := uvmdealloc pagetable a oldsz in
      ret (inr 0)
    else
    upd_mem (fun m => memset m mem 0 PGSIZE) ;;
    let! r := mappages pagetable a PGSIZE mem (Z.lor (Z.lor PTE_R PTE_U) xperm) in
    if negb (r =? 0) then
      kfree kend mem ;;
      let! _ := uvmdealloc pagetable a oldsz in
      ret (inr 0)
    else ret (inl (u64 (a + PGSIZE)))
  else ret (inr newsz).

Definition uvmalloc (pagetable oldsz newsz xperm : Z) : M kmem Z :=
  if newsz <? oldsz then ret oldsz else
  let oldsz := PGROUNDUP oldsz in
  while (S (Z.to_nat ((newsz - oldsz + PGSIZE - 1) / PGSIZE)))
    (uvmalloc_body pagetable oldsz newsz xperm) oldsz.

(** [freewalk] recurses over the levels of the tree: [depth] bounds them. *)
Fixpoint freewalk (depth : nat) (pagetable : Z) : M kmem unit :=
  match depth with
  | O => fun _ => Fuel
  | S depth =>
      forM (seq 0 512) (fun i =>
        let! pte := ldm (pte_at pagetable (Z.of_nat i)) in
        if has pte PTE_V && negb (has pte (Z.lor (Z.lor PTE_R PTE_W) PTE_X)) then
          let child := PTE2PA pte in
          freewalk depth child ;;
          stm (pte_at pagetable (Z.of_nat i)) 0
        else if has pte PTE_V then panic "freewalk: leaf"
        else ret tt) ;;
      kfree kend pagetable
  end.

(** Sv39 has three levels of page-table pages. *)
Definition uvmfree (pagetable sz : Z) : M kmem unit :=
  (if 0 <? sz then uvmunmap pagetable 0 (PGROUNDUP sz / PGSIZE) true else ret tt) ;;
  freewalk 3 pagetable.

(** [err:] of [uvmcopy] *)
Definition uvmcopy_err (new i : Z) : M kmem (Z + Z) :=
  uvmunmap new 0 (i / PGSIZE) true ;; ret (inr (-1)).

(** The loop of [uvmcopy], test and body. *)
Definition uvmcopy_body (old new sz i : Z) : M kmem (Z + Z) :=
  if i <? sz then
    let! pte := walk old i false in
    if pte =? 0 then panic "uvmcopy: pte should exist" else
    let! v := ldm pte in
    if negb (has v PTE_V) then panic "uvmcopy: page not present" else
    let pa := PTE2PA v in
    let flags := PTE_FLAGS v in
    let! mem := kalloc in
    if mem =? 0 then uvmcopy_err new i else
    upd_mem (fun m => memmove m mem pa PGSIZE) ;;
    let! r := mappages new i PGSIZE mem flags in
    if negb (r =? 0) then kfree kend mem ;; uvmcopy_err new i else
    ret (inl (u64 (i + PGSIZE)))
  else ret (inr 0).

Definition uvmcopy (old new sz : Z) : M kmem Z :=
  while (S (Z.to_nat ((sz + PGSIZE - 1) / PGSIZE))) (uvmcopy_body old new sz) 0.

Definition uvmclear (pagetable va : Z) : M kmem unit :=
  let! pte := walk pagetable va false in
  if pte =? 0 then panic "uvmclear" else
  let! v := ldm pte in
  stm pte (Z.land v (Z.lnot PTE_U)).

(** The loops of [copyout], [copyin] and [copyinstr] go round once per page that
    the buffer touches, and once more. *)
Definition copy_fuel (len : Z) : nat := 3 + Z.to_nat (len / PGSIZE).

(** The loop of [copyout], test and body. *)
Definition copyout_body (pagetable : Z) : Z * list byte -> M kmem (Z * list byte + Z) :=
  fun '(dstva, src) =>
    let len := Z.of_nat (length src) in
    if 0 <? len then
      let va0 := PGROUNDDOWN dstva in
      if MAXVA <=? va0 then ret (inr (-1)) else
      let! pte := walk pagetable va0 false in
      if pte =? 0 then ret (inr (-1)) else
      let! v := ldm pte in
      if negb (has v PTE_V) || negb (has v PTE_U) || negb (has v PTE_W) then ret (inr (-1)) else
      let pa0 := PTE2PA v in
      let n := PGSIZE - (dstva - va0) in
      let n := if len <? n then len else n in
      upd_mem (fun m => st_bytes m (pa0 + (dstva - va0)) (take (Z.to_nat n) src)) ;;
      ret (inl (u64 (va0 + PGSIZE), drop (Z.to_nat n) src))
    else ret (inr 0).

(** [src] holds the [len] bytes to copy. *)
Definition copyout (pagetable dstva : Z) (src : list byte) : M kmem Z :=
  while (copy_fuel (Z.of_nat (length src))) (copyout_body pagetable) (dstva, src).

(** The loop of [copyin], test and body: [dst] is what it has copied. *)
Definition copyin_body (pagetable : Z) :
    Z * Z * list byte -> M kmem (Z * Z * list byte + Z * list byte) :=
  fun '(srcva, len, dst) =>
    if 0 <? len then
      let va0 := PGROUNDDOWN srcva in
      let! pa0 := walkaddr pagetable va0 in
      if pa0 =? 0 then ret (inr (-1, dst)) else
      let n := PGSIZE - (srcva - va0) in
      let n := if len <? n then len else n in
      let! m := gets km_mem in
      let dst := dst ++ ld_bytes m (pa0 + (srcva - va0)) (Z.to_nat n) in
      ret (inl (u64 (va0 + PGSIZE), len - n, dst))
    else ret (inr (0, dst)).

(** The result is the return value and the bytes written to [dst]. *)
Definition copyin (pagetable srcva len : Z) : M kmem (Z * list byte) :=
  while (copy_fuel len) (copyin_body pagetable) (srcva, len, []).

(** The inner loop of [copyinstr]: the bytes copied, and whether the last is
    the terminator. *)
Fixpoint copyinstr_page (m : mem) (p : Z) (n : nat) : list byte * bool :=
  match n with
  | O => ([], false)
  | S n =>
      if Byte.eqb (ld8 m p) Byte.x00 then ([Byte.x00], true)
      else let '(bs, got_null) := copyinstr_page m (p + 1) n in (ld8 m p :: bs, got_null)
  end.

(** The outer loop of [copyinstr], test and body. *)
Definition copyinstr_body (pagetable : Z) :
    Z * Z * list byte * bool -> M kmem (Z * Z * list byte * bool + Z * list byte) :=
  fun '(srcva, max, dst, got_null) =>
    if negb got_null && (0 <? max) then
      let va0 := PGROUNDDOWN srcva in
      let! pa0 := walkaddr pagetable va0 in
      if pa0 =? 0 then ret (inr (-1, dst)) else
      let n := PGSIZE - (srcva - va0) in
      let n := if max <? n then max else n in
      let! m := gets km_mem in
      let '(bs, got_null) := copyinstr_page m (pa0 + (srcva - va0)) (Z.to_nat n) in
      ret (inl (u64 (va0 + PGSIZE), max - n, dst ++ bs, got_null))
    else ret (inr (if got_null then 0 else -1, dst)).

Definition copyinstr (pagetable srcva max : Z) : M kmem (Z * list byte) :=
  while (copy_fuel max) (copyinstr_body pagetable) (srcva, max, [], false).

(** ** The kernel's own page table *)

Variable etext : Z.
Variable trampoline : Z.

(** [proc_mapstacks] of [proc.c] *)
Definition proc_mapstacks (kpgtbl : Z) : M kmem unit :=
  forM (seq 0 NPROC) (fun i =>
    let! pa := kalloc in
    if pa =? 0 then panic "kalloc" else
    let va := KSTACK (Z.of_nat i) in
    kvmmap kpgtbl va pa PGSIZE (Z.lor PTE_R PTE_W)).

Definition kvmmake : M kmem Z :=
  let! kpgtbl := kalloc in
  upd_mem (fun m => memset m kpgtbl 0 PGSIZE) ;;
  (* uart registers *)
  kvmmap kpgtbl UART0 UART0 PGSIZE (Z.lor PTE_R PTE_W) ;;
  (* virtio mmio disk interface *)
  kvmmap kpgtbl VIRTIO0 VIRTIO0 PGSIZE (Z.lor PTE_R PTE_W) ;;
  (* PLIC *)
  kvmmap kpgtbl PLIC PLIC 0x4000000 (Z.lor PTE_R PTE_W) ;;
  (* kernel text executable and read-only *)
  kvmmap kpgtbl KERNBASE KERNBASE (etext - KERNBASE) (Z.lor PTE_R PTE_X) ;;
  (* kernel data and the physical RAM *)
  kvmmap kpgtbl etext etext (PHYSTOP - etext) (Z.lor PTE_R PTE_W) ;;
  (* the trampoline *)
  kvmmap kpgtbl TRAMPOLINE trampoline PGSIZE (Z.lor PTE_R PTE_X) ;;
  (* a kernel stack for each process *)
  proc_mapstacks kpgtbl ;;
  ret kpgtbl.

End Vm.
