(* ===== verification/PageTable.v ===== *)
(** * Page tables as trees

    The three-level radix tree that [walk] builds in memory, as a map from
    paths to page-table pages, and its leaf entries as a function of the
    virtual address.  [walk] and [mappages] are shown to implement lookup and
    update of that function, allocating from the free list and touching no
    other memory. *)

From S2P Require Import Prelude Riscv Memory CString Sys Spinlock Kalloc Vm.

(** The path of a page-table page: the indices from the root, last one first.
    [[]] is the root, [[i]] a level-1 page, [[j; i]] a level-0 page. *)
Abbreviation ptree := (gmap (list Z) Z).

Definition pt_pages (t : ptree) : list Z := (map_to_list t).*2.

(** The level-0 page and the word of it that hold the entry of [va]. *)
Definition leaf_path (va : Z) : list Z := [PX 1 va; PX 2 va].

Definition leaf (m : mem) (t : ptree) (va : Z) : Z :=
  match t !! leaf_path va with
  | Some p => ld64 m (pte_at p (PX 0 va))
  | None => 0
  end.

(** The entry in memory that stands for a child. *)
Definition child_pte (o : option Z) : Z :=
  match o with Some q => Z.lor (PA2PTE q) PTE_V | None => 0 end.

(** Memory outside the given pages is the same. *)
Definition same_outside (ps : list Z) (m m' : mem) : Prop :=
  forall x, Forall (fun p => ~ (p <= x < p + PGSIZE)) ps -> ld8 m' x = ld8 m x.

Lemma same_outside_refl ps m : same_outside ps m m.
Proof. by intros x _. Qed.

Lemma same_outside_trans ps m1 m2 m3 :
  same_outside ps m1 m2 -> same_outside ps m2 m3 -> same_outside ps m1 m3.
Proof. intros H1 H2 x Hx. by rewrite H2, H1. Qed.

Lemma same_outside_mono ps ps' m m' :
  (forall p, p ∈ ps -> p ∈ ps') -> same_outside ps m m' -> same_outside ps' m m'.
Proof.
  intros Hsub H x Hx. apply H. rewrite Forall_forall in *. intros p Hp. by apply Hx, Hsub.
Qed.

#[export] Instance same_outside_proper : Proper ((≡ₚ) ==> eq ==> eq ==> iff) same_outside.
Proof.
  intros ps ps' Hp m ? <- m' ? <-. split; apply same_outside_mono; intros q; by rewrite Hp.
Qed.

Lemma same_but_outside p ps m m' : same_but p PGSIZE m m' -> p ∈ ps -> same_outside ps m m'.
Proof. intros H Hp x Hx. apply H. by rewrite Forall_forall in Hx; apply Hx. Qed.

Section PageTable.
Variable kend : Z.
Hypothesis kend_pos : 0 < kend.

(** [t] is the tree with root page [root] that memory holds. *)
Record pt_wf (m : mem) (root : Z) (t : ptree) : Prop := {
  wf_root : t !! [] = Some root;
  wf_path : forall path p, t !! path = Some p ->
    (length path <= 2)%nat /\ Forall (fun i => 0 <= i < 512) path /\ page_ok kend p;
  wf_parent : forall i path p, t !! (i :: path) = Some p -> is_Some (t !! path);
  wf_word : forall path p i, t !! path = Some p -> (length path < 2)%nat -> 0 <= i < 512 ->
    ld64 m (pte_at p i) = child_pte (t !! (i :: path));
  wf_distinct : NoDup (pt_pages t)
}.

(** The page table, the free list and the locks together. *)
Record vm (root : Z) (t : ptree) (l : list Z) (s : kmem) : Prop := {
  vm_free : free_pages kend l s;
  vm_ready : ready s;
  vm_wf : pt_wf (km_mem s) root t;
  vm_distinct : NoDup (pt_pages t ++ l)
}.

(** What an operation that may add page-table pages keeps. *)
Record extends (t : ptree) (l : list Z) (s : kmem) (t' : ptree) (l' : list Z) (s' : kmem) : Prop := {
  ex_sys : km_sys s' = km_sys s;
  ex_tree : t ⊆ t';
  ex_pages : pt_pages t' ++ l' ≡ₚ pt_pages t ++ l;
  ex_same : same_outside (pt_pages t ++ l) (km_mem s) (km_mem s')
}.

(** ** Pages and words *)

Lemma page_word_apart p q i j :
  page_ok kend p -> page_ok kend q -> 0 <= i < 512 -> 0 <= j < 512 -> (p, i) <> (q, j) ->
  apart (pte_at p i) 8 (pte_at q j) 8.
Proof.
  intros Hp Hq Hi Hj Hne. unfold pte_at. destruct (decide (p = q)) as [->|Hpq].
  - assert (i <> j) by congruence. unfold apart. lia.
  - destruct (page_ok_apart kend p q Hp Hq Hpq); unfold apart, PGSIZE in *; lia.
Qed.

Lemma word_in_page p i : 0 <= i < 512 -> p <= pte_at p i /\ pte_at p i + 8 <= p + PGSIZE.
Proof. unfold pte_at, PGSIZE. lia. Qed.

Lemma word_same_but p q i m m' :
  page_ok kend p -> page_ok kend q -> p <> q -> 0 <= i < 512 -> same_but q PGSIZE m m' ->
  ld64 m' (pte_at p i) = ld64 m (pte_at p i).
Proof.
  intros Hp Hq Hne Hi Hs. apply (same_but_ld64 q PGSIZE); [done|].
  destruct (word_in_page p i Hi).
  destruct (page_ok_apart kend p q Hp Hq Hne); unfold apart in *; lia.
Qed.

Lemma word_same_outside ps p i m m' :
  same_outside ps m m' -> page_ok kend p -> Forall (page_ok kend) ps -> p ∉ ps -> 0 <= i < 512 ->
  ld64 m' (pte_at p i) = ld64 m (pte_at p i).
Proof.
  intros Hs Hp Hps Hn Hi. apply ld64_ext. intros x Hx. apply Hs.
  apply Forall_forall. intros q Hq Hin. rewrite Forall_forall in Hps.
  destruct (word_in_page p i Hi).
  destruct (page_ok_apart kend p q Hp (Hps q Hq)); [congruence|..]; unfold PGSIZE in *; lia.
Qed.

Lemma same_but_word m p i v : 0 <= i < 512 -> same_but p PGSIZE m (st64 m (pte_at p i) v).
Proof.
  intros Hi. destruct (word_in_page p i Hi). apply same_but_st_bytes; [done|].
  rewrite length_le_split. done.
Qed.

Lemma pt_pages_lookup t path p : t !! path = Some p -> p ∈ pt_pages t.
Proof.
  intros H. unfold pt_pages. apply list_elem_of_fmap. exists (path, p). split; [done|].
  by apply elem_of_map_to_list.
Qed.

Lemma pt_pages_elem t p : p ∈ pt_pages t -> exists path, t !! path = Some p.
Proof.
  intros ([path q] & -> & H)%list_elem_of_fmap. exists path. by apply elem_of_map_to_list.
Qed.

Lemma pt_pages_insert t path p :
  t !! path = None -> pt_pages (<[path := p]> t) ≡ₚ p :: pt_pages t.
Proof. intros H. unfold pt_pages. by rewrite map_to_list_insert. Qed.

(** Two paths do not lead to the same page. *)
Lemma pt_inj t path path' p :
  NoDup (pt_pages t) -> t !! path = Some p -> t !! path' = Some p -> path = path'.
Proof.
  intros Hn H1 H2. destruct (decide (path = path')) as [|Hne]; [done|exfalso].
  rewrite <- (insert_delete_id t path p H1) in Hn.
  rewrite pt_pages_insert in Hn by apply lookup_delete_eq.
  apply NoDup_cons in Hn as [Hn _]. apply Hn. apply (pt_pages_lookup _ path').
  by rewrite lookup_delete_ne.
Qed.

Lemma pt_wf_pages_ok m root t : pt_wf m root t -> Forall (page_ok kend) (pt_pages t).
Proof.
  intros Hwf. apply Forall_forall. intros p [path H]%pt_pages_elem. by apply (wf_path _ _ _ Hwf path).
Qed.

(** Changes elsewhere in memory keep a tree and its leaves. *)
Lemma pt_wf_frame ps m m' root t :
  same_outside ps m m' -> Forall (page_ok kend) ps -> (forall p, p ∈ pt_pages t -> p ∉ ps) ->
  pt_wf m root t -> pt_wf m' root t /\ forall va, leaf m' t va = leaf m t va.
Proof.
  intros Hs Hps Hd Hwf. pose proof (pt_wf_pages_ok _ _ _ Hwf) as Hok. rewrite Forall_forall in Hok.
  assert (Hw : forall path p i, t !! path = Some p -> 0 <= i < 512 ->
    ld64 m' (pte_at p i) = ld64 m (pte_at p i)).
  { intros path p i Hp%pt_pages_lookup Hi. eapply word_same_outside; eauto. }
  destruct Hwf as [W1 W2 W3 W4 W5]. split; [split; try done|].
  - intros path p i Hp Hl Hi. erewrite Hw by done. by apply W4.
  - intros va. unfold leaf. destruct (t !! leaf_path va) eqn:E; [|done].
    eapply Hw; [done|]. apply PX_range. lia.
Qed.

(** The same for the free list. *)
Lemma free_pages_frame ps l s m' :
  same_outside ps (km_mem s) m' -> Forall (page_ok kend) ps -> (forall p, p ∈ l -> p ∉ ps) ->
  free_pages kend l s -> free_pages kend l (set_km_mem m' s).
Proof.
  intros Hs Hps Hd [F1 F2 F3]. split; try done. simpl. eapply chain_ext; [|done].
  intros p Hp. replace p with (pte_at p 0) by (unfold pte_at; lia).
  rewrite Forall_forall in F3. eapply word_same_outside; eauto. lia.
Qed.

(** ** Adding a page-table page *)

Lemma child_pte_u64 q : page_ok kend q -> u64 (child_pte (Some q)) = child_pte (Some q).
Proof.
  intros Hq. apply u64_small. simpl. change PTE_V with 1. rewrite PA2PTE_lor by lia.
  destruct (page_ok_pos kend kend_pos q Hq). unfold PGSIZE, PHYSTOP, KERNBASE in *. dlia.
Qed.

Lemma child_pte_valid q : page_ok kend q -> has (child_pte (Some q)) PTE_V = true.
Proof.
  intros Hq. simpl. change PTE_V with 1. rewrite has_PA2PTE; [done| |lia|lia].
  destruct (page_ok_pos kend kend_pos q Hq). lia.
Qed.

Lemma child_pte_pa q : page_ok kend q -> PTE2PA (child_pte (Some q)) = q.
Proof.
  intros Hq. destruct (page_ok_pos kend kend_pos q Hq). apply PTE2PA_PA2PTE.
  - unfold PGSIZE, PHYSTOP, KERNBASE in *. lia.
  - apply Hq.
  - change PTE_V with 1. lia.
Qed.

(** Memory after [memset(q, 0, PGSIZE); pagetable[i] = PA2PTE(q) | PTE_V]. *)
Definition link_child (m : mem) (p i q : Z) : mem :=
  st64 (memset m q 0 PGSIZE) (pte_at p i) (Z.lor (PA2PTE q) PTE_V).

Lemma link_child_same m p i q :
  0 <= i < 512 -> same_outside [p; q] m (link_child m p i q).
Proof.
  intros Hi. eapply same_outside_trans.
  - eapply same_but_outside; [apply (same_but_memset m q 0)|]. set_solver.
  - eapply same_but_outside; [by apply same_but_word|]. set_solver.
Qed.

Lemma ld64_memset_zero m q i : 0 <= i < 512 -> ld64 (memset m q 0 PGSIZE) (pte_at q i) = 0.
Proof.
  intros Hi. rewrite memset_eq. apply ld64_zeroed; unfold pte_at, PGSIZE; lia.
Qed.

Lemma link_child_wf m root t path p i q :
  pt_wf m root t -> t !! path = Some p -> (length path < 2)%nat -> 0 <= i < 512 ->
  t !! (i :: path) = None -> page_ok kend q -> q ∉ pt_pages t ->
  pt_wf (link_child m p i q) root (<[i :: path := q]> t) /\
  forall va, leaf (link_child m p i q) (<[i :: path := q]> t) va = leaf m t va.
Proof.
  intros Hwf Hp Hlen Hi Hnone Hq Hnot. pose proof Hwf as [W1 W2 W3 W4 W5].
  destruct (W2 path p Hp) as (_ & Hpath & Hpok).
  assert (Hpq : p <> q) by (intros ->; by apply Hnot, (pt_pages_lookup _ path)).
  assert (Hold : forall path' p' j, t !! path' = Some p' -> 0 <= j < 512 -> (p', j) <> (p, i) ->
    ld64 (link_child m p i q) (pte_at p' j) = ld64 m (pte_at p' j)).
  { intros path' p' j Hp' Hj Hne. destruct (W2 path' p' Hp') as (_ & _ & Hok'). unfold link_child.
    rewrite ld64_st64_apart by (apply page_word_apart; done || congruence).
    apply (word_same_but p' q); try done; [|apply same_but_memset].
    intros ->. by apply Hnot, (pt_pages_lookup _ path'). }
  assert (Hnew : forall j, 0 <= j < 512 -> ld64 (link_child m p i q) (pte_at q j) = 0).
  { intros j Hj. unfold link_child.
    rewrite ld64_st64_apart by (apply page_word_apart; done || congruence).
    by apply ld64_memset_zero. }
  split; [split|].
  - by rewrite lookup_insert_ne.
  - intros path' p' [[<- <-]|[_ H]]%lookup_insert_Some; [|by apply W2].
    split; [simpl; lia|]. split; [by constructor|done].
  - intros j path' p' H. destruct (decide (path' = i :: path)) as [->|Hne];
      [by rewrite lookup_insert_eq|]. rewrite lookup_insert_ne by done.
    apply lookup_insert_Some in H as [[E _]|[_ H]]; [|by eapply W3].
    injection E as -> <-. done.
  - intros path' p' j Hp' Hl Hj. apply lookup_insert_Some in Hp' as [[<- <-]|[Hne Hp']].
    + rewrite Hnew by done. rewrite lookup_insert_ne.
      * destruct (t !! (j :: i :: path)) eqn:E; [|done].
        destruct (W3 _ _ _ E) as [? ?]. congruence.
      * intros E. apply (f_equal length) in E. simpl in E. lia.
    + destruct (decide ((p', j) = (p, i))) as [E|Hne'].
      * injection E as -> ->. assert (path' = path) as -> by (by eapply pt_inj).
        rewrite lookup_insert_eq. unfold link_child. rewrite ld64_st64. by apply child_pte_u64.
      * erewrite Hold by done. rewrite lookup_insert_ne; [by apply W4|].
        intros E. injection E as <- <-. apply Hne'. congruence.
  - rewrite pt_pages_insert by done. by constructor.
  - intros va. unfold leaf. destruct (decide (i :: path = leaf_path va)) as [E|E].
    + rewrite <- E, lookup_insert_eq, Hnone. apply Hnew. apply PX_range. lia.
    + rewrite lookup_insert_ne by done. destruct (t !! leaf_path va) as [p0|] eqn:E0; [|done].
      eapply Hold; [done|apply PX_range; lia|]. intros E1. injection E1 as -> _.
      assert (leaf_path va = path) by (by eapply pt_inj). subst path. simpl in Hlen. lia.
Qed.

(** ** walk *)

(** [levels] are the rounds [walk] has left at the page of [path]. *)
Inductive walks (va : Z) : list Z -> list Z -> Prop :=
| walks_2 : walks va [2; 1] []
| walks_1 : walks va [1] [PX 2 va]
| walks_0 : walks va [] (leaf_path va).

(** The address of the leaf entry of [va], 0 when its page does not exist. *)
Definition leaf_addr (t : ptree) (va : Z) : Z :=
  match t !! leaf_path va with
  | Some p => pte_at p (PX 0 va)
  | None => 0
  end.

Lemma walks_cons va level levels path :
  walks va (level :: levels) path ->
  walks va levels (PX level va :: path) /\ (length path < 2)%nat /\ 0 <= PX level va < 512 /\
  (forall m root t, pt_wf m root t -> t !! (PX level va :: path) = None -> t !! leaf_path va = None).
Proof.
  inversion 1; subst; (split; [constructor|]); (split; [simpl; lia|]);
    (split; [apply PX_range; lia|]); intros m root t Hwf Hn; [|done].
  unfold leaf_path. destruct (t !! [PX 1 va; PX 2 va]) eqn:E; [|done].
  destruct (wf_parent _ _ _ Hwf _ _ _ E) as [? ?]. congruence.
Qed.

Lemma walk_levels_find levels path p va root t s :
  walks va levels path -> pt_wf (km_mem s) root t -> t !! path = Some p ->
  walk_levels levels p va false s = Ok (leaf_addr t va) s.
Proof.
  revert path p. induction levels as [|level levels IH]; intros path p Hw Hwf Hp.
  - inversion Hw; subst. unfold leaf_addr. by rewrite Hp.
  - destruct (walks_cons _ _ _ _ Hw) as (Hw' & Hlen & Hi & Hno).
    cbn [walk_levels]. unfold ldm. rewrite bind_gets, (wf_word _ _ _ Hwf path) by done.
    destruct (t !! (PX level va :: path)) as [q|] eqn:E.
    + destruct (wf_path _ _ _ Hwf _ _ E) as (_ & _ & Hq).
      rewrite child_pte_valid, child_pte_pa by done. by eapply IH.
    + unfold leaf_addr. by rewrite (Hno _ _ _ Hwf E).
Qed.

Lemma walk_find va root t s :
  pt_wf (km_mem s) root t -> 0 <= va < MAXVA -> walk root va false s = Ok (leaf_addr t va) s.
Proof.
  intros Hwf Hva. unfold walk. rewrite (proj2 (Z.leb_gt _ _)) by lia.
  apply (walk_levels_find _ [] _ _ root); [constructor|done|by destruct Hwf].
Qed.

Lemma walk_bad root va b s : MAXVA <= va -> walk root va b s = Panic "walk" s.
Proof. intros H. unfold walk. by rewrite (proj2 (Z.leb_le _ _)). Qed.

Lemma extends_refl t l s : extends t l s t l s.
Proof. split; done || apply same_outside_refl. Qed.

Lemma extends_trans t1 l1 s1 t2 l2 s2 t3 l3 s3 :
  extends t1 l1 s1 t2 l2 s2 -> extends t2 l2 s2 t3 l3 s3 -> extends t1 l1 s1 t3 l3 s3.
Proof.
  intros [A1 A2 A3 A4] [B1 B2 B3 B4]. split.
  - by rewrite B1.
  - by etransitivity.
  - by rewrite B3.
  - eapply same_outside_trans; [done|]. by rewrite <- A3.
Qed.

(** One round of [walk] that allocates. *)
Lemma walk_alloc_page root t l s path p i q l' :
  vm root t l s -> l = q :: l' -> t !! path = Some p -> (length path < 2)%nat -> 0 <= i < 512 ->
  t !! (i :: path) = None ->
  exists s1, kalloc s = Ok q s1 /\ q <> 0 /\
    let s2 := set_km_mem (link_child (km_mem s1) p i q) s1 in
    vm root (<[i :: path := q]> t) l' s2 /\ extends t l s (<[i :: path := q]> t) l' s2 /\
    forall va, leaf (km_mem s2) (<[i :: path := q]> t) va = leaf (km_mem s) t va.
Proof.
  intros [Hf Hr Hwf Hd] -> Hp Hlen Hi Hnone.
  destruct (kalloc_ok kend kend_pos q l' s Hf Hr) as (fl & m & Ha & Hq & Hf' & Hsame & _).
  apply NoDup_app in Hd as Hd'. destruct Hd' as (_ & Hdis & _).
  assert (Hqt : q ∉ pt_pages t) by (intros H; apply (Hdis q H); by left).
  assert (Hperm : pt_pages (<[i :: path := q]> t) ++ l' ≡ₚ pt_pages t ++ q :: l').
  { rewrite pt_pages_insert by done. simpl. by rewrite Permutation_middle. }
  assert (Hsame1 : same_outside [q] (km_mem s) m).
  { eapply same_but_outside; [done|]. by left. }
  destruct (pt_wf_frame [q] (km_mem s) m root t) as [Hwf1 Hl1]; try done.
  { constructor; [done|constructor]. }
  { set_solver. }
  exists (Kmem (km_sys s) fl m). split; [done|]. split; [destruct (page_ok_pos kend kend_pos q Hq); lia|].
  destruct (link_child_wf m root t path p i q) as [Hwf2 Hl2]; try done.
  assert (Hin : p ∈ pt_pages t) by (by eapply pt_pages_lookup).
  assert (Hsame2 : same_outside (pt_pages t ++ q :: l') m (link_child m p i q)).
  { eapply same_outside_mono; [|by apply link_child_same]. set_solver. }
  simpl. split; [split|split; [split|]].
  - eapply (free_pages_frame [p; q]); [by apply link_child_same| | |done].
    + constructor; [by apply (wf_path _ _ _ Hwf path)|]. constructor; [done|constructor].
    + apply NoDup_app in Hd as (_ & _ & Hd). apply NoDup_cons in Hd as [Hd _]. set_solver.
  - done.
  - done.
  - by rewrite Hperm.
  - done.
  - by apply insert_subseteq.
  - done.
  - eapply same_outside_trans; [|done]. eapply same_outside_mono; [|done]. set_solver.
  - intros va. by rewrite Hl2, Hl1.
Qed.

Lemma walk_levels_alloc levels path p va root t l s :
  walks va levels path -> vm root t l s -> t !! path = Some p ->
  exists r t' l' s', walk_levels levels p va true s = Ok r s' /\
    vm root t' l' s' /\ extends t l s t' l' s' /\
    (forall x, leaf (km_mem s') t' x = leaf (km_mem s) t x) /\
    (r = 0 /\ l' = [] \/ exists p0, t' !! leaf_path va = Some p0 /\ r = pte_at p0 (PX 0 va)).
Proof.
  revert path p t l s. induction levels as [|level levels IH]; intros path p t l s Hw Hvm Hp.
  - inversion Hw; subst. exists (pte_at p (PX 0 va)), t, l, s.
    split; [done|]. split; [done|]. split; [apply extends_refl|]. split; [done|]. right. by exists p.
  - destruct (walks_cons _ _ _ _ Hw) as (Hw' & Hlen & Hi & Hno).
    cbn [walk_levels]. unfold ldm. rewrite bind_gets.
    rewrite (wf_word _ _ _ (vm_wf _ _ _ _ Hvm) path) by done.
    destruct (t !! (PX level va :: path)) as [q|] eqn:E.
    + destruct (wf_path _ _ _ (vm_wf _ _ _ _ Hvm) _ _ E) as (_ & _ & Hq).
      rewrite child_pte_valid, child_pte_pa by done. by apply (IH (PX level va :: path)).
    + cbn [child_pte negb]. change (has 0 PTE_V) with false. cbv iota. destruct l as [|q l].
      * krun (kalloc_empty kend s (vm_free _ _ _ _ Hvm) (vm_ready _ _ _ _ Hvm)).
        exists 0, t, [], s. split; [done|]. split; [done|]. split; [apply extends_refl|].
        split; [done|by left].
      * destruct (walk_alloc_page root t (q :: l) s path p (PX level va) q l)
          as (s1 & Ha & Hq0 & Hvm1 & Hex1 & Hlf1); try done.
        cbv zeta in *.
        krun Ha. rewrite (proj2 (Z.eqb_neq _ _)) by done. unfold stm, upd_mem. rewrite !bind_modify.
        destruct (IH (PX level va :: path) q _ l _ Hw' Hvm1) as (r & t' & l' & s' & H1 & H2 & H3 & H4 & H5);
          [by rewrite lookup_insert_eq|].
        exists r, t', l', s'. split; [exact H1|]. split; [exact H2|].
        split; [eapply extends_trans; [exact Hex1|exact H3]|]. split; [|exact H5].
        intros x. by rewrite H4, Hlf1.
Qed.

(** ** Setting a leaf entry *)

Lemma same_page x y :
  0 <= x < MAXVA -> 0 <= y < MAXVA ->
  leaf_path x = leaf_path y /\ PX 0 x = PX 0 y <-> x / PGSIZE = y / PGSIZE.
Proof.
  rewrite MAXVA_eq. intros Hx Hy. unfold leaf_path, PGSIZE. split.
  - intros [E E0]. injection E as E1 E2.
    pose proof (va_split x ltac:(lia)). pose proof (va_split y ltac:(lia)).
    unfold PGSIZE in *. rewrite E1, E2, E0 in *. dlia.
  - intros E. rewrite !PX_eq by lia.
    change (2 ^ (12 + 9 * 2)) with (4096 * 2 ^ 18). change (2 ^ (12 + 9 * 1)) with (4096 * 2 ^ 9).
    change (2 ^ (12 + 9 * 0)) with 4096. rewrite <- !Z.div_div by lia. by rewrite E.
Qed.

Lemma leaf_page m t x y :
  0 <= x < MAXVA -> 0 <= y < MAXVA -> x / PGSIZE = y / PGSIZE -> leaf m t x = leaf m t y.
Proof.
  intros Hx Hy E. apply same_page in E as [E E0]; [|done..]. unfold leaf. by rewrite E, E0.
Qed.

Lemma vm_outside root t l s ps m' :
  vm root t l s -> same_outside ps (km_mem s) m' -> Forall (page_ok kend) ps ->
  (forall p, p ∈ pt_pages t ++ l -> p ∉ ps) ->
  vm root t l (set_km_mem m' s) /\ forall va, leaf m' t va = leaf (km_mem s) t va.
Proof.
  intros [Hf Hr Hwf Hd] Hs Hps Hn.
  destruct (pt_wf_frame ps (km_mem s) m' root t) as [Hwf' Hl]; try done.
  { intros p Hp. apply Hn, elem_of_app. by left. }
  split; [|done]. split; try done. eapply free_pages_frame; try done.
  intros p Hp. apply Hn, elem_of_app. by right.
Qed.

Lemma set_leaf root t l s va p0 v :
  vm root t l s -> 0 <= va < MAXVA -> t !! leaf_path va = Some p0 ->
  let m' := st64 (km_mem s) (pte_at p0 (PX 0 va)) v in
  vm root t l (set_km_mem m' s) /\ extends t l s t l (set_km_mem m' s) /\
  forall x, 0 <= x < MAXVA ->
    leaf m' t x = if decide (x / PGSIZE = va / PGSIZE) then u64 v else leaf (km_mem s) t x.
Proof.
  intros [Hf Hr Hwf Hd] Hva Hp0 m'. pose proof Hwf as [W1 W2 W3 W4 W5].
  assert (Hi : 0 <= PX 0 va < 512) by (apply PX_range; lia).
  destruct (W2 _ _ Hp0) as (_ & _ & Hok).
  assert (Hsame : same_outside [p0] (km_mem s) m').
  { eapply same_but_outside; [by apply same_but_word|]. by left. }
  assert (Hin : p0 ∈ pt_pages t) by (by eapply pt_pages_lookup).
  apply NoDup_app in Hd as Hd'. destruct Hd' as (_ & Hdis & _).
  split; [split; try done|split; [split; try done|]].
  - eapply (free_pages_frame [p0]); try done; [constructor; [done|constructor]|].
    intros p Hp ->%list_elem_of_singleton. by apply (Hdis p0).
  - split; try done. intros path p i Hp Hl Hi'. unfold m'. simpl.
    rewrite ld64_st64_apart; [by apply W4|]. apply page_word_apart; try done; [by eapply W2|].
    intros E. injection E as E _. subst p. assert (E : leaf_path va = path) by (by eapply pt_inj).
    subst path. simpl in Hl. lia.
  - eapply same_outside_mono; [|done]. intros p ->%list_elem_of_singleton. set_solver.
  - intros x Hx. unfold leaf. case_decide as E.
    + destruct (proj2 (same_page x va Hx Hva) E) as [E1 E2]. rewrite E1, Hp0, E2. apply ld64_st64.
    + destruct (t !! leaf_path x) as [p|] eqn:Ex; [|done]. unfold m'.
      rewrite ld64_st64_apart; [done|]. apply page_word_apart; try done; [by eapply W2|apply PX_range; lia|].
      intros E'. injection E' as E1 E0. subst p. apply E, same_page; [done..|]. split; [|done].
      by eapply pt_inj.
Qed.

(** ** mappages *)

Definition mapped_pte (pa perm : Z) : Z := Z.lor (Z.lor (PA2PTE pa) perm) PTE_V.

(** [f] with [n] pages mapped from [va] on. *)
Definition map_leafs (f : Z -> Z) (va n pa perm : Z) (x : Z) : Z :=
  if decide (va / PGSIZE <= x / PGSIZE < va / PGSIZE + n)
  then mapped_pte (pa + (x / PGSIZE - va / PGSIZE) * PGSIZE) perm else f x.

Lemma perm_valid_range perm : 0 <= perm < 1024 -> 0 <= Z.lor perm PTE_V < 1024.
Proof. intros H. apply (lor_range _ _ 10); [lia|done|]. change PTE_V with 1. lia. Qed.

Lemma mapped_pte_eq pa perm : mapped_pte pa perm = Z.lor (PA2PTE pa) (Z.lor perm PTE_V).
Proof. unfold mapped_pte. by rewrite Z.lor_assoc. Qed.

Lemma mapped_pte_u64 pa perm :
  0 <= pa < 2 ^ 56 -> 0 <= perm < 1024 -> u64 (mapped_pte pa perm) = mapped_pte pa perm.
Proof.
  intros Hpa Hperm. apply u64_small. rewrite mapped_pte_eq, PA2PTE_lor by (by apply perm_valid_range).
  pose proof (perm_valid_range perm Hperm). dlia.
Qed.

Lemma mapped_pte_pa pa perm :
  0 <= pa < 2 ^ 56 -> pa mod PGSIZE = 0 -> 0 <= perm < 1024 -> PTE2PA (mapped_pte pa perm) = pa.
Proof. intros. rewrite mapped_pte_eq. apply PTE2PA_PA2PTE; auto using perm_valid_range. Qed.

Lemma mapped_pte_flags pa perm :
  0 <= pa -> 0 <= perm < 1024 -> PTE_FLAGS (mapped_pte pa perm) = Z.lor perm PTE_V.
Proof. intros. rewrite mapped_pte_eq. apply PTE_FLAGS_PA2PTE; auto using perm_valid_range. Qed.

(** One round of [mappages]. *)
Lemma mappages_page root t l s va :
  vm root t l s -> 0 <= va < MAXVA ->
  exists r t' l' s', walk root va true s = Ok r s' /\ vm root t' l' s' /\ extends t l s t' l' s' /\
    (forall x, leaf (km_mem s') t' x = leaf (km_mem s) t x) /\
    (r = 0 /\ l' = [] \/
     r <> 0 /\ ld64 (km_mem s') r = leaf (km_mem s) t va /\
     exists p0, t' !! leaf_path va = Some p0 /\ r = pte_at p0 (PX 0 va)).
Proof.
  intros Hvm Hva. unfold walk. rewrite (proj2 (Z.leb_gt _ _)) by lia.
  destruct (walk_levels_alloc [2; 1] [] root va root t l s) as (r & t' & l' & s' & H1 & H2 & H3 & H4 & H5);
    [constructor|done|apply (wf_root _ _ _ (vm_wf _ _ _ _ Hvm))|].
  exists r, t', l', s'. split; [done|]. split; [done|]. split; [done|]. split; [done|].
  destruct H5 as [H5|(p0 & Hp0 & ->)]; [by left|right]. split; [|split; [|by exists p0]].
  - destruct (wf_path _ _ _ (vm_wf _ _ _ _ H2) _ _ Hp0) as (_ & _ & Hok).
    destruct (page_ok_pos kend kend_pos p0 Hok), (PX_range 0 va); [lia|]. unfold pte_at. lia.
  - rewrite <- H4. unfold leaf. by rewrite Hp0.
Qed.

Lemma mappages_body_ok root va pa perm last t l s :
  vm root t l s -> 0 <= va < MAXVA -> 0 <= pa < 2 ^ 56 -> 0 <= perm < 1024 ->
  has (leaf (km_mem s) t va) PTE_V = false ->
  (exists t' s', mappages_body root perm last (va, pa) s = Ok (inr (-1)) s' /\
     vm root t' [] s' /\ extends t l s t' [] s' /\
     forall x, leaf (km_mem s') t' x = leaf (km_mem s) t x) \/
  (exists t' l' s', mappages_body root perm last (va, pa) s =
       Ok (if va =? last then inr 0 else inl (u64 (va + PGSIZE), u64 (pa + PGSIZE))) s' /\
     vm root t' l' s' /\ extends t l s t' l' s' /\
     forall x, 0 <= x < MAXVA ->
       leaf (km_mem s') t' x = map_leafs (leaf (km_mem s) t) va 1 pa perm x).
Proof.
  intros Hvm Hva Hpa Hperm Hno. unfold mappages_body.
  destruct (mappages_page root t l s va Hvm Hva)
    as (r & t1 & l1 & s1 & Hw & Hvm1 & Hex1 & Hlf1 & [[-> ->]|(Hr & Hv & p0 & Hp0 & Er)]).
  - left. exists t1, s1. krun Hw. done.
  - right. krun Hw. rewrite (proj2 (Z.eqb_neq _ _)) by done. unfold ldm, stm, upd_mem.
    rewrite bind_gets, Hv, Hno, bind_modify. subst r.
    destruct (set_leaf root t1 l1 s1 va p0 (mapped_pte pa perm)) as (Hvm2 & Hex2 & Hlf2); try done.
    cbv zeta in *.
    exists t1, l1, (set_km_mem (st64 (km_mem s1) (pte_at p0 (PX 0 va)) (mapped_pte pa perm)) s1).
    split; [by destruct (va =? last)|]. split; [done|].
    split; [eapply extends_trans; done|]. intros x Hx. rewrite Hlf2 by done. unfold map_leafs.
    rewrite mapped_pte_u64 by done. destruct (decide (x / PGSIZE = va / PGSIZE)) as [E|E].
    + rewrite decide_True by lia. f_equal. lia.
    + rewrite decide_False by lia. by rewrite Hlf1.
Qed.

Lemma map_leafs_more f g va k pa perm x :
  (forall x, 0 <= x < MAXVA -> g x = map_leafs f va 1 pa perm x) -> 0 <= x < MAXVA -> 0 <= k ->
  map_leafs g (va + PGSIZE) k (pa + PGSIZE) perm x = map_leafs f va (k + 1) pa perm x.
Proof.
  intros Hg Hx Hk. unfold map_leafs in *. unfold PGSIZE in *.
  replace ((va + 4096) / 4096) with (va / 4096 + 1) by dlia. rewrite Hg by done.
  repeat case_decide; try lia; try (f_equal; lia).
Qed.

Lemma mappages_loop_ok n : forall fuel root va pa perm last t l s,
  (n < fuel)%nat -> vm root t l s -> 0 <= va -> va mod PGSIZE = 0 ->
  last = va + Z.of_nat n * PGSIZE -> last < MAXVA ->
  0 <= pa -> pa + Z.of_nat n * PGSIZE < 2 ^ 56 -> 0 <= perm < 1024 ->
  (forall x, 0 <= x < MAXVA -> va / PGSIZE <= x / PGSIZE <= last / PGSIZE ->
     has (leaf (km_mem s) t x) PTE_V = false) ->
  exists r k t' l' s',
    while fuel (mappages_body root perm last) (va, pa) s = Ok r s' /\
    vm root t' l' s' /\ extends t l s t' l' s' /\
    (forall x, 0 <= x < MAXVA ->
       leaf (km_mem s') t' x = map_leafs (leaf (km_mem s) t) va k pa perm x) /\
    (r = 0 /\ k = Z.of_nat n + 1 \/ r = -1 /\ l' = [] /\ 0 <= k <= Z.of_nat n).
Proof.
  assert (H0 : forall f va pa perm x, map_leafs f va 0 pa perm x = f x).
  { intros. unfold map_leafs. by rewrite decide_False by lia. }
  induction n as [|n IH]; intros [|fuel] root va pa perm last t l s Hf Hvm Hva Hal Hlast Hmax Hpa Hpa' Hperm Hno;
    try lia; cbn [while].
  all: assert (Hpg : va <= last /\ va / PGSIZE <= last / PGSIZE)
    by (subst last; unfold PGSIZE; split; [lia|apply Z.div_le_mono; lia]).
  all: destruct (mappages_body_ok root va pa perm last t l s) as [(t1 & s1 & Hb & Hvm1 & Hex1 & Hlf1)|
    (t1 & l1 & s1 & Hb & Hvm1 & Hex1 & Hlf1)];
    [done|lia|unfold PGSIZE in *; lia|done|apply Hno; lia|..].
  - krun Hb. exists (-1), 0, t1, [], s1. split; [done|]. split; [done|]. split; [done|].
    split; [intros; by rewrite H0|]. right. split; [done|]. split; [done|lia].
  - rewrite (proj2 (Z.eqb_eq _ _)) in Hb by lia. krun Hb.
    exists 0, 1, t1, l1, s1. split; [done|]. split; [done|]. split; [done|]. split; [done|]. left. lia.
  - krun Hb. exists (-1), 0, t1, [], s1. split; [done|]. split; [done|]. split; [done|].
    split; [intros; by rewrite H0|]. right. split; [done|]. split; [done|lia].
  - rewrite (proj2 (Z.eqb_neq _ _)) in Hb by (unfold PGSIZE in *; lia).
    rewrite !u64_small in Hb by (rewrite MAXVA_eq in *; unfold PGSIZE in *; lia).
    krun Hb.
    destruct (IH fuel root (va + PGSIZE) (pa + PGSIZE) perm last t1 l1 s1)
      as (r & k & t' & l' & s' & H1 & H2 & H3 & H4 & H5); try done;
      try (rewrite ?MAXVA_eq in *; unfold PGSIZE in *; lia).
    + unfold PGSIZE in *. dlia.
    + intros x Hx Hpx. rewrite Hlf1 by done. unfold map_leafs. unfold PGSIZE in *.
      rewrite decide_False by dlia. apply Hno; [done|]. dlia.
    + exists r, (k + 1), t', l', s'. split; [done|]. split; [done|].
      split; [eapply extends_trans; done|]. split.
      * intros x Hx. rewrite H4 by done. apply map_leafs_more; [done|done|lia].
      * destruct H5 as [[-> ->]|(-> & -> & ?)]; [left; lia|right]. split; [done|]. split; [done|lia].
Qed.

Lemma mappages_ok root va n pa perm t l s :
  vm root t l s -> 0 <= va -> va mod PGSIZE = 0 -> 0 < n -> va + n * PGSIZE <= MAXVA ->
  0 <= pa -> pa + n * PGSIZE <= 2 ^ 56 -> 0 <= perm < 1024 ->
  (forall x, 0 <= x < MAXVA -> va / PGSIZE <= x / PGSIZE < va / PGSIZE + n ->
     has (leaf (km_mem s) t x) PTE_V = false) ->
  exists r k t' l' s',
    mappages root va (n * PGSIZE) pa perm s = Ok r s' /\
    vm root t' l' s' /\ extends t l s t' l' s' /\
    (forall x, 0 <= x < MAXVA ->
       leaf (km_mem s') t' x = map_leafs (leaf (km_mem s) t) va k pa perm x) /\
    (r = 0 /\ k = n \/ r = -1 /\ l' = [] /\ 0 <= k < n).
Proof.
  intros Hvm Hva Hal Hn Hmax Hpa Hpa' Hperm Hno. unfold mappages.
  rewrite (proj2 (Z.eqb_eq _ _) Hal), Z.mod_mul, (proj2 (Z.eqb_neq (n * PGSIZE) 0))
    by (unfold PGSIZE; lia).
  cbn [negb Z.eqb]. rewrite Z.div_mul by (unfold PGSIZE; lia).
  rewrite u64_small by (rewrite MAXVA_eq in *; unfold PGSIZE in *; lia).
  destruct (mappages_loop_ok (Z.to_nat (n - 1)) (Z.to_nat n) root va pa perm (va + n * PGSIZE - PGSIZE) t l s)
    as (r & k & t' & l' & s' & H1 & H2 & H3 & H4 & H5); try done;
    try (rewrite ?MAXVA_eq in *; unfold PGSIZE in *; lia).
  - intros x Hx Hpx. apply Hno; [done|]. unfold PGSIZE in *. dlia.
  - exists r, k, t', l', s'. split; [done|]. split; [done|]. split; [done|]. split; [done|].
    destruct H5 as [[-> ->]|(-> & -> & ?)]; [left; lia|right]. split; [done|]. split; [done|lia].
Qed.

End PageTable.

(** ** An empty page table *)

Lemma uvmcreate_ok kend q l s :
  0 < kend -> free_pages kend (q :: l) s -> ready s ->
  exists s1, uvmcreate s = Ok q s1 /\ vm kend q {[ [] := q ]} l s1 /\ km_sys s1 = km_sys s /\
    same_outside (q :: l) (km_mem s) (km_mem s1) /\
    forall va, leaf (km_mem s1) {[ [] := q ]} va = 0.
Proof.
  intros Hend Hf Hr.
  destruct (kalloc_ok kend Hend q l s Hf Hr) as (fl & m & Ha & Hq & Hf' & Hs & _).
  destruct (page_ok_pos kend Hend q Hq). pose proof (fp_nodup _ _ _ Hf) as Hnd.
  apply NoDup_cons in Hnd as [Hn Hnd].
  exists (set_km_mem (memset m q 0 PGSIZE) (Kmem (km_sys s) fl m)).
  assert (Hs2 : same_outside [q] m (memset m q 0 PGSIZE)).
  { eapply same_but_outside; [apply same_but_memset|by left]. }
  assert (Hpages : pt_pages {[ [] := q ]} = [q]).
  { unfold pt_pages. by rewrite map_to_list_singleton. }
  split; [|split; [split|split; [done|split]]].
  - unfold uvmcreate. krun Ha. by rewrite (proj2 (Z.eqb_neq _ _)) by lia.
  - eapply (free_pages_frame kend [q] l (Kmem (km_sys s) fl m)); try done.
    + constructor; [done|constructor].
    + intros p Hp ->%list_elem_of_singleton. done.
  - done.
  - split.
    + apply lookup_singleton_eq.
    + intros path p [<- <-]%lookup_singleton_Some. split; [simpl; lia|]. split; [constructor|done].
    + intros i path p [E _]%lookup_singleton_Some. done.
    + intros path p i [<- <-]%lookup_singleton_Some _ Hi. rewrite lookup_singleton_ne by done.
      by apply ld64_memset_zero.
    + rewrite Hpages. apply NoDup_singleton.
  - rewrite Hpages. simpl. by constructor.
  - eapply same_outside_trans; (eapply same_outside_mono; [|]);
      [|eapply same_but_outside; [exact Hs|by left]| |exact Hs2];
      intros p ->%list_elem_of_singleton; by left.
  - intros va. unfold leaf. by rewrite lookup_singleton_ne.
Qed.

(** ** Properties *)

(** [walk] looks up the leaf entry of an address in the tree: without
    [alloc] it returns the address of the entry, or 0 when a page-table page is
    missing, and changes nothing; with [alloc] it adds the missing pages from
    the free list, keeps every leaf entry and all other memory, and returns 0
    only when the free list is used up; beyond [MAXVA] it panics. *)
Theorem walk_correct (kend root : Z) (t : ptree) (l : list Z) (s : kmem) (va : Z)
    (Hend : 0 < kend) (Hvm : vm kend root t l s) (Hva : 0 <= va < MAXVA) :
  walk root va false s = Ok (leaf_addr t va) s /\
  walk root MAXVA true s = Panic "walk" s /\
  exists r t' l' s', walk root va true s = Ok r s' /\ vm kend root t' l' s' /\
    (pt_pages t' ++ l' ≡ₚ pt_pages t ++ l) /\
    same_outside (pt_pages t ++ l) (km_mem s) (km_mem s') /\
    (forall x, leaf (km_mem s') t' x = leaf (km_mem s) t x) /\
    (r = 0 -> l' = []) /\
    (r <> 0 -> r = leaf_addr t' va /\ ld64 (km_mem s') r = leaf (km_mem s) t va).
Proof.
  split; [by eapply walk_find, Hva; [|apply Hvm]|]. split; [by apply walk_bad|].
  destruct (mappages_page kend Hend root t l s va Hvm Hva)
    as (r & t' & l' & s' & H1 & H2 & H3 & H4 & H5).
  exists r, t', l', s'. split; [done|]. split; [done|]. split; [apply H3|]. split; [apply H3|].
  split; [done|]. destruct H5 as [[-> ->]|(Hr & Hv & p0 & Hp0 & ->)]; [done|].
  split; [done|]. intros _. split; [|done]. unfold leaf_addr. by rewrite Hp0.
Qed.

Lemma demo_table :
  exists s, uvmcreate kmem_demo = Ok (PHYSTOP - PGSIZE) s /\
    vm small_end (PHYSTOP - PGSIZE) {[ [] := PHYSTOP - PGSIZE ]} (tail demo_pages) s /\
    forall va, leaf (km_mem s) {[ [] := PHYSTOP - PGSIZE ]} va = 0.
Proof.
  destruct (uvmcreate_ok small_end (PHYSTOP - PGSIZE) (tail demo_pages) kmem_demo)
    as (s & H1 & H2 & _ & _ & H3); [done|exact kmem_demo_free|exact kmem_idle_ready|].
  by exists s.
Qed.

Lemma walk_correct_witness :
  exists s r s', uvmcreate kmem_demo = Ok (PHYSTOP - PGSIZE) s /\
    walk (PHYSTOP - PGSIZE) 0x123456000 false s = Ok 0 s /\
    walk (PHYSTOP - PGSIZE) 0x123456000 true s = Ok r s'.
Proof.
  destruct demo_table as (s & H1 & H2 & _).
  destruct (walk_correct small_end _ _ _ s 0x123456000 ltac:(by vm_compute) H2 ltac:(by vm_compute))
    as (H3 & _ & r & t' & l' & s' & H4 & _).
  exists s, r, s'. split; [exact H1|]. split; [exact H3|exact H4].
Defined.

(** C15: [mappages] of [n] unmapped pages maps all of them, to consecutive
    physical pages with the given permissions, and returns 0; or it runs out of
    page-table pages, returns -1 and has mapped a prefix.  No other leaf entry
    and no memory outside the page table and the free list changes. *)
Theorem mappages_correct (kend root va n pa perm : Z) (t : ptree) (l : list Z) (s : kmem)
    (Hend : 0 < kend) (Hvm : vm kend root t l s)
    (Hva : 0 <= va) (Hal : va mod PGSIZE = 0) (Hn : 0 < n) (Hmax : va + n * PGSIZE <= MAXVA)
    (Hpa : 0 <= pa) (Hpa' : pa + n * PGSIZE <= 2 ^ 56) (Hperm : 0 <= perm < 1024)
    (Hno : forall x, 0 <= x < MAXVA -> va / PGSIZE <= x / PGSIZE < va / PGSIZE + n ->
       has (leaf (km_mem s) t x) PTE_V = false) :
  exists r k t' l' s',
    mappages root va (n * PGSIZE) pa perm s = Ok r s' /\ vm kend root t' l' s' /\
    (r = 0 /\ k = n \/ r = -1 /\ l' = [] /\ 0 <= k < n) /\
    (forall x, 0 <= x < MAXVA -> leaf (km_mem s') t' x =
       if decide (va / PGSIZE <= x / PGSIZE < va / PGSIZE + k)
       then mapped_pte (pa + (x / PGSIZE - va / PGSIZE) * PGSIZE) perm
       else leaf (km_mem s) t x) /\
    same_outside (pt_pages t ++ l) (km_mem s) (km_mem s').
Proof.
  destruct (mappages_ok kend Hend root va n pa perm t l s)
    as (r & k & t' & l' & s' & H1 & H2 & H3 & H4 & H5); try done.
  exists r, k, t', l', s'. split; [done|]. split; [done|]. split; [done|]. split; [done|apply H3].
Qed.

Lemma mappages_correct_witness :
  exists s r s', uvmcreate kmem_demo = Ok (PHYSTOP - PGSIZE) s /\
    mappages (PHYSTOP - PGSIZE) 0 (2 * PGSIZE) KERNBASE (Z.lor PTE_R PTE_W) s = Ok r s'.
Proof.
  destruct demo_table as (s & H1 & H2 & H3).
  destruct (mappages_correct small_end _ 0 2 KERNBASE (Z.lor PTE_R PTE_W) _ _ s
    ltac:(by vm_compute) H2) as (r & k & t' & l' & s' & H4 & _);
    [by vm_compute|by vm_compute|by vm_compute|by vm_compute|by vm_compute|by vm_compute|by vm_compute|
     intros x _ _; by rewrite H3|].
  exists s, r, s'. split; [exact H1|exact H4].
Defined.
