(* ===== verification/Uvm.v ===== *)
(** * User address spaces

    A user page table with the pages it maps: the unmapping, growing, copying
    and freeing functions of [vm.c] as operations on a finite map from page
    numbers to pages and permissions, with every page accounted for. *)

From S2P Require Import Prelude Riscv Memory CString Sys Spinlock Kalloc Vm PageTable.

(** Page number to physical page and permissions. *)
Abbreviation umap := (gmap Z (Z * Z)).

Definition upages (us : umap) : list Z := (map_to_list us).*2.*1.

(** [perm] makes a leaf entry. *)
Definition leaf_perm (perm : Z) : Prop := 0 <= perm < 1024 /\ Z.lor perm PTE_V <> PTE_V.

(** The contents of the mapped pages are the same. *)
Definition keeps (us : umap) (m m' : mem) : Prop :=
  forall i pa perm x, us !! i = Some (pa, perm) -> pa <= x < pa + PGSIZE -> ld8 m' x = ld8 m x.

(** The pages below page number [n] are mapped, and no others. *)
Definition full (n : Z) (us : umap) : Prop := forall i, is_Some (us !! i) <-> 0 <= i < n.

Lemma upages_lookup us i pa perm : us !! i = Some (pa, perm) -> pa ∈ upages us.
Proof.
  intros H. unfold upages. rewrite <- list_fmap_compose. apply list_elem_of_fmap.
  exists (i, (pa, perm)). split; [done|]. by apply elem_of_map_to_list.
Qed.

Lemma upages_elem us pa : pa ∈ upages us -> exists i perm, us !! i = Some (pa, perm).
Proof.
  unfold upages. rewrite <- list_fmap_compose.
  intros ([i [pa' perm]] & -> & H)%list_elem_of_fmap. exists i, perm. by apply elem_of_map_to_list.
Qed.

Lemma upages_insert us i pa perm :
  us !! i = None -> upages (<[i := (pa, perm)]> us) ≡ₚ pa :: upages us.
Proof. intros H. unfold upages. by rewrite map_to_list_insert. Qed.

Lemma upages_delete us i pa perm :
  us !! i = Some (pa, perm) -> upages us ≡ₚ pa :: upages (delete i us).
Proof.
  intros H. rewrite <- (insert_delete_id us i (pa, perm) H) at 1.
  apply upages_insert, lookup_delete_eq.
Qed.

Lemma nodup_mid {A} (a b c : list A) p :
  NoDup (a ++ (p :: b) ++ c) ->
  (p ∉ a ++ c) /\ (p ∉ b) /\ (a ++ b ++ (p :: c) ≡ₚ a ++ (p :: b) ++ c) /\ NoDup (a ++ b ++ (p :: c)).
Proof.
  intros H. assert (E : a ++ b ++ (p :: c) ≡ₚ a ++ (p :: b) ++ c).
  { simpl. by rewrite (Permutation_middle b c p). }
  rewrite E. apply NoDup_app in H as H'. destruct H' as (_ & H1 & H2).
  simpl in H2. apply NoDup_cons in H2 as [H2 _]. rewrite elem_of_app in H2.
  split; [|split; [tauto|done]]. rewrite elem_of_app. intros [Hp|Hp]; [|tauto].
  apply (H1 p Hp). by left.
Qed.

Lemma keeps_refl us m : keeps us m m.
Proof. done. Qed.

Lemma keeps_trans us m1 m2 m3 : keeps us m1 m2 -> keeps us m2 m3 -> keeps us m1 m3.
Proof. intros H1 H2 i pa perm x Hi Hx. rewrite (H2 i pa perm), (H1 i pa perm); done. Qed.

Lemma keeps_mono us us' m m' : us ⊆ us' -> keeps us' m m' -> keeps us m m'.
Proof.
  intros Hsub H i pa perm x Hi Hx. eapply H; [|done]. by eapply lookup_weaken.
Qed.

(** [us] without the [n] pages from [i] on. *)
Fixpoint del_range (us : umap) (i : Z) (n : nat) : umap :=
  match n with
  | O => us
  | S n => del_range (delete i us) (i + 1) n
  end.

Lemma del_range_lookup us i n k :
  del_range us i n !! k = if decide (i <= k < i + Z.of_nat n) then None else us !! k.
Proof.
  revert us i. induction n as [|n IH]; intros us i; simpl.
  - by rewrite decide_False by lia.
  - rewrite IH. destruct (decide (k = i)) as [->|Hne].
    + rewrite lookup_delete_eq. by repeat case_decide; try lia.
    + rewrite lookup_delete_ne by done. by repeat case_decide; try lia.
Qed.

Lemma del_range_subseteq us i n : del_range us i n ⊆ us.
Proof.
  apply map_subseteq_spec. intros k e. rewrite del_range_lookup. by case_decide.
Qed.

Definition zero_page (m : mem) (pa : Z) : Prop :=
  forall x, pa <= x < pa + PGSIZE -> ld8 m x = Byte.x00.

Lemma zero_page_memset m pa : zero_page (memset m pa 0 PGSIZE) pa.
Proof.
  intros x Hx. rewrite memset_eq.
  replace x with (pa + Z.of_nat (Z.to_nat (x - pa))) by lia.
  apply ld8_st_bytes_in. apply lookup_replicate. split; [done|]. unfold PGSIZE in *. lia.
Qed.

Lemma subseteq_full n i us us1 us' :
  us ⊆ us1 -> us' ⊆ us1 -> full i us -> full n us' -> n <= i -> us' ⊆ us.
Proof.
  intros H1 H2 Hi Hn Hle. apply map_subseteq_spec. intros j e Hj.
  assert (Hr : 0 <= j < n) by (apply Hn; by exists e).
  destruct (proj2 (Hi j) ltac:(lia)) as [e' He']. rewrite He'.
  eapply lookup_weaken in Hj; [|done]. eapply lookup_weaken in He'; [|done]. congruence.
Qed.

Lemma full_insert i us e : full i us -> 0 <= i -> full (i + 1) (<[i := e]> us).
Proof.
  intros Hf Hi j. destruct (decide (j = i)) as [->|Hne].
  - rewrite lookup_insert_eq. split; [lia|by eexists].
  - rewrite lookup_insert_ne by done. rewrite (Hf j). lia.
Qed.

Lemma leaf_perm_user xperm : 0 <= xperm < 1024 -> leaf_perm (Z.lor (Z.lor PTE_R PTE_U) xperm).
Proof.
  intros H. split.
  - change (Z.lor PTE_R PTE_U) with 18. pose proof (lor_range 18 xperm 10). lia.
  - intros E. apply (f_equal (fun z => Z.testbit z 1)) in E. revert E.
    rewrite !Z.lor_spec. done.
Qed.

Section Uvm.
Variable kend : Z.
Hypothesis kend_pos : 0 < kend.

(** Page numbers below [top] are the user's; [us] says what they map to. *)
Record uspace (top root : Z) (t : ptree) (us : umap) (l : list Z) (s : kmem) : Prop := {
  us_vm : vm kend root t l s;
  us_top : 0 <= top /\ top * PGSIZE <= MAXVA;
  us_dom : forall i pa perm, us !! i = Some (pa, perm) ->
    0 <= i < top /\ page_ok kend pa /\ leaf_perm perm;
  us_leaf : forall i pa perm, us !! i = Some (pa, perm) ->
    leaf (km_mem s) t (i * PGSIZE) = mapped_pte pa perm;
  us_none : forall i, 0 <= i < top -> us !! i = None ->
    has (leaf (km_mem s) t (i * PGSIZE)) PTE_V = false;
  us_distinct : NoDup (pt_pages t ++ upages us ++ l)
}.

(** What the operations keep: locks and processes, the set of pages in use or
    free, and memory outside of them. *)
Record conserves (t : ptree) (us : umap) (l : list Z) (s : kmem)
    (t' : ptree) (us' : umap) (l' : list Z) (s' : kmem) : Prop := {
  co_sys : km_sys s' = km_sys s;
  co_pages : pt_pages t' ++ upages us' ++ l' ≡ₚ pt_pages t ++ upages us ++ l;
  co_same : same_outside (pt_pages t ++ upages us ++ l) (km_mem s) (km_mem s')
}.

Lemma conserves_refl t us l s : conserves t us l s t us l s.
Proof. split; done || apply same_outside_refl. Qed.

Lemma conserves_trans t1 us1 l1 s1 t2 us2 l2 s2 t3 us3 l3 s3 :
  conserves t1 us1 l1 s1 t2 us2 l2 s2 -> conserves t2 us2 l2 s2 t3 us3 l3 s3 ->
  conserves t1 us1 l1 s1 t3 us3 l3 s3.
Proof.
  intros [A1 A2 A3] [B1 B2 B3]. split.
  - by rewrite B1.
  - by rewrite B2.
  - eapply same_outside_trans; [done|]. by rewrite <- A2.
Qed.

Lemma uspace_page_range top root t us l s i :
  uspace top root t us l s -> 0 <= i < top -> 0 <= i * PGSIZE < MAXVA.
Proof. intros H Hi. destruct (us_top _ _ _ _ _ _ H). unfold PGSIZE in *. lia. Qed.

Lemma page_div i : i * PGSIZE / PGSIZE = i.
Proof. apply Z.div_mul. by unfold PGSIZE. Qed.

Lemma uspace_all_ok top root t us l s :
  uspace top root t us l s -> Forall (page_ok kend) (pt_pages t ++ upages us ++ l).
Proof.
  intros H. apply Forall_app. split; [|apply Forall_app; split].
  - eapply pt_wf_pages_ok, vm_wf, us_vm, H.
  - apply Forall_forall. intros p (i & perm & Hi)%upages_elem. by apply (us_dom _ _ _ _ _ _ H i p perm).
  - apply (fp_ok _ _ _ (vm_free _ _ _ _ _ (us_vm _ _ _ _ _ _ H))).
Qed.

(** Memory changes outside the pages of [us] keep their contents. *)
Lemma keeps_outside us ps m m' :
  same_outside ps m m' -> Forall (page_ok kend) ps -> Forall (page_ok kend) (upages us) ->
  (forall p, p ∈ upages us -> p ∉ ps) -> keeps us m m'.
Proof.
  intros Hs Hps Hus Hd i pa perm x Hi%upages_lookup Hx. apply Hs. apply Forall_forall.
  intros q Hq Hin. rewrite Forall_forall in Hps, Hus.
  destruct (page_ok_apart kend pa q (Hus pa Hi) (Hps q Hq)); [|lia|lia].
  intros ->. by apply (Hd q).
Qed.

Lemma mapped_valid pa perm :
  page_ok kend pa -> leaf_perm perm ->
  has (mapped_pte pa perm) PTE_V = true /\ PTE2PA (mapped_pte pa perm) = pa /\
  PTE_FLAGS (mapped_pte pa perm) = Z.lor perm PTE_V.
Proof.
  intros Hp [Hr Hl]. destruct (page_ok_pos kend kend_pos pa Hp).
  assert (0 <= pa < 2 ^ 56) by (unfold PGSIZE, PHYSTOP, KERNBASE in *; lia).
  split; [apply (has_set _ 0); lia|]. split.
  - apply mapped_pte_pa; [done|apply Hp|done].
  - apply mapped_pte_flags; [lia|done].
Qed.

(** The entry of a mapped page has an address. *)
Lemma leaf_valid_addr m t va :
  has (leaf m t va) PTE_V = true ->
  exists p0, t !! leaf_path va = Some p0 /\ leaf m t va = ld64 m (pte_at p0 (PX 0 va)).
Proof.
  unfold leaf. destruct (t !! leaf_path va) as [p0|]; [by exists p0|]. intros H. by vm_compute in H.
Qed.

Lemma leaf_addr_nonzero m root t va p0 :
  pt_wf kend m root t -> t !! leaf_path va = Some p0 -> leaf_addr t va = pte_at p0 (PX 0 va) /\ leaf_addr t va <> 0.
Proof.
  intros Hwf Hp0. unfold leaf_addr. rewrite Hp0. split; [done|].
  destruct (wf_path _ _ _ _ Hwf _ _ Hp0) as (_ & _ & Hok).
  destruct (page_ok_pos kend kend_pos p0 Hok), (PX_range 0 va); [lia|]. unfold pte_at. lia.
Qed.

(** ** Unmapping a page *)

(** The free list takes a page that is not a page-table page. *)
Lemma vm_kfree root t l s pa :
  vm kend root t l s -> page_ok kend pa -> pa ∉ pt_pages t ++ l ->
  exists m, kfree kend pa s = Ok tt (Kmem (km_sys s) pa m) /\
    vm kend root t (pa :: l) (Kmem (km_sys s) pa m) /\ same_outside [pa] (km_mem s) m /\
    forall va, leaf m t va = leaf (km_mem s) t va.
Proof.
  intros [Hf Hr Hwf Hd] Hp Hn. rewrite elem_of_app in Hn.
  destruct (kfree_ok kend kend_pos l pa s) as (m & Hk & Hf' & Hs); try done; [tauto|].
  assert (Hs' : same_outside [pa] (km_mem s) m) by (eapply same_but_outside; [done|by left]).
  destruct (pt_wf_frame kend [pa] (km_mem s) m root t) as [Hwf' Hl]; try done.
  { constructor; [done|constructor]. }
  { intros p H1 ->%list_elem_of_singleton. tauto. }
  exists m. split; [done|]. split; [split; try done|done].
  rewrite <- Permutation_middle. constructor; [|done]. by rewrite elem_of_app.
Qed.

Lemma uvmunmap_body_ok top root t us l s i pa perm end_ :
  uspace top root t us l s -> us !! i = Some (pa, perm) -> i * PGSIZE < end_ ->
  exists s', uvmunmap_body kend root end_ true (i * PGSIZE) s = Ok (inl ((i + 1) * PGSIZE)) s' /\
    uspace top root t (delete i us) (pa :: l) s' /\
    conserves t us l s t (delete i us) (pa :: l) s' /\ keeps (delete i us) (km_mem s) (km_mem s').
Proof.
  intros Hu Hi Hend. pose proof Hu as [Hvm Htop Hdom Hlf Hnone Hd].
  destruct (Hdom _ _ _ Hi) as (Hrange & Hpa & Hperm).
  pose proof (uspace_page_range _ _ _ _ _ _ i Hu Hrange) as Hva.
  destruct (mapped_valid pa perm Hpa Hperm) as (HV & HPA & HFL).
  destruct (leaf_valid_addr (km_mem s) t (i * PGSIZE)) as (p0 & Hp0 & Hld); [by rewrite (Hlf _ _ _ Hi)|].
  destruct (leaf_addr_nonzero _ root t _ p0 (vm_wf _ _ _ _ _ Hvm) Hp0) as [Haddr Hnz].
  pose proof (upages_delete us i pa perm Hi) as Hdel. rewrite Hdel in Hd.
  destruct (nodup_mid _ _ _ _ Hd) as (Hpn & Hpn' & Hpages & Hd').
  destruct (vm_kfree root t l s pa Hvm Hpa Hpn) as (m1 & Hk & Hvm1 & Hs1 & Hl1).
  set (s1 := Kmem (km_sys s) pa m1) in *.
  destruct (set_leaf kend kend_pos root t (pa :: l) s1 (i * PGSIZE) p0 0 Hvm1 Hva Hp0) as (Hvm2 & Hex2 & Hlf2).
  cbv zeta in *. set (m2 := st64 (km_mem s1) (pte_at p0 (PX 0 (i * PGSIZE))) 0) in *.
  assert (Hs2 : same_outside (pt_pages t ++ pa :: l) (km_mem s) m2).
  { eapply same_outside_trans; [|apply (ex_same _ _ _ _ _ _ Hex2)].
    eapply same_outside_mono; [|exact Hs1]. intros q ->%list_elem_of_singleton.
    rewrite elem_of_app, elem_of_cons. tauto. }
  exists (set_km_mem m2 s1). split; [|split; [|split]].
  - unfold uvmunmap_body. rewrite (proj2 (Z.ltb_lt _ _)) by done.
    krun (walk_find kend kend_pos (i * PGSIZE) root t s (vm_wf _ _ _ _ _ Hvm) Hva).
    rewrite (proj2 (Z.eqb_neq _ _)) by done. unfold ldm. rewrite bind_gets, Haddr, <- Hld.
    rewrite (Hlf _ _ _ Hi), HV, HFL. cbn [negb].
    rewrite (proj2 (Z.eqb_neq _ _)) by apply Hperm. rewrite HPA. krun Hk.
    unfold stm, upd_mem. rewrite bind_modify. rewrite u64_small; [|rewrite MAXVA_eq in *; unfold PGSIZE in *; lia].
    by replace (i * PGSIZE + PGSIZE) with ((i + 1) * PGSIZE) by lia.
  - split; [exact Hvm2|exact Htop|..].
    + intros j pa' perm' [_ Hj]%lookup_delete_Some. by eapply Hdom.
    + intros j pa' perm' [Hne Hj]%lookup_delete_Some. destruct (Hdom _ _ _ Hj) as (Hjr & _).
      simpl. rewrite Hlf2 by (by eapply uspace_page_range). rewrite !page_div, decide_False by done.
      rewrite Hl1. by eapply Hlf.
    + intros j Hj Hnj. simpl. rewrite Hlf2 by (by eapply uspace_page_range). rewrite !page_div.
      case_decide as E; [done|]. rewrite Hl1. apply Hnone; [done|].
      by rewrite lookup_delete_ne in Hnj.
    + exact Hd'.
  - split; [done|by rewrite Hdel|]. rewrite Hdel. eapply same_outside_mono; [|exact Hs2].
    intros q. rewrite !elem_of_app, !elem_of_cons. tauto.
  - eapply keeps_outside; [exact Hs2|..].
    + pose proof (uspace_all_ok _ _ _ _ _ _ Hu) as Hall. rewrite Hdel in Hall.
      rewrite Forall_app in *. rewrite Forall_app, Forall_cons in Hall. rewrite Forall_cons. tauto.
    + pose proof (uspace_all_ok _ _ _ _ _ _ Hu) as Hall. rewrite Hdel in Hall.
      rewrite !Forall_app, Forall_cons in Hall. tauto.
    + intros q Hq. apply NoDup_app in Hd' as (_ & H1 & H2). apply NoDup_app in H2 as (_ & H2 & _).
      rewrite elem_of_app. intros [Hq'|Hq']; [|by apply (H2 q)].
      apply (H1 q Hq'). apply elem_of_app. by left.
Qed.

Lemma uvmunmap_loop_ok n : forall fuel top root t us l s i,
  (n < fuel)%nat -> uspace top root t us l s -> 0 <= i ->
  (forall k, i <= k < i + Z.of_nat n -> is_Some (us !! k)) ->
  exists l' s', while fuel (uvmunmap_body kend root ((i + Z.of_nat n) * PGSIZE) true) (i * PGSIZE) s = Ok tt s' /\
    uspace top root t (del_range us i n) l' s' /\
    conserves t us l s t (del_range us i n) l' s' /\ keeps (del_range us i n) (km_mem s) (km_mem s').
Proof.
  induction n as [|n IH]; intros [|fuel] top root t us l s i Hf Hu Hi0 Hus; try lia; cbn [while].
  - unfold uvmunmap_body at 1. rewrite (proj2 (Z.ltb_ge _ _)) by lia.
    exists l, s. split; [done|]. split; [done|]. split; [apply conserves_refl|apply keeps_refl].
  - destruct (Hus i ltac:(lia)) as [[pa perm] Hi].
    destruct (uvmunmap_body_ok top root t us l s i pa perm ((i + Z.of_nat (S n)) * PGSIZE) Hu Hi)
      as (s1 & Hb & Hu1 & Hc1 & Hk1); [unfold PGSIZE; lia|]. krun Hb.
    replace (i + Z.of_nat (S n)) with (i + 1 + Z.of_nat n) by lia.
    destruct (IH fuel top root t (delete i us) (pa :: l) s1 (i + 1)) as (l' & s' & H1 & H2 & H3 & H4);
      [lia|done|lia| |].
    { intros k Hk. rewrite lookup_delete_ne by lia. apply Hus. lia. }
    exists l', s'. split; [done|]. split; [done|]. split; [by eapply conserves_trans|].
    eapply keeps_trans; [|done]. eapply keeps_mono; [|exact Hk1]. apply (del_range_subseteq (delete i us)).
Qed.

Lemma uvmunmap_ok top root t us l s i n :
  uspace top root t us l s -> 0 <= i -> 0 <= n ->
  (forall k, i <= k < i + n -> is_Some (us !! k)) ->
  exists l' s', uvmunmap kend root (i * PGSIZE) n true s = Ok tt s' /\
    uspace top root t (del_range us i (Z.to_nat n)) l' s' /\
    conserves t us l s t (del_range us i (Z.to_nat n)) l' s' /\
    keeps (del_range us i (Z.to_nat n)) (km_mem s) (km_mem s').
Proof.
  intros Hu Hi Hn Hus. unfold uvmunmap. rewrite Z.mod_mul by (by unfold PGSIZE). cbn [negb Z.eqb].
  destruct (decide (n = 0)) as [->|Hn0].
  - exists l, s. change (Z.to_nat 0) with O. cbn [while]. unfold uvmunmap_body.
    rewrite (proj2 (Z.ltb_ge _ _)).
    + split; [done|]. split; [done|]. split; [apply conserves_refl|apply keeps_refl].
    + rewrite Z.mul_0_l, Z.add_0_r. unfold u64. apply Z.mod_le; unfold PGSIZE; lia.
  - destruct (Hus (i + n - 1) ltac:(lia)) as [[pa perm] Hlast].
    destruct (us_dom _ _ _ _ _ _ Hu _ _ _ Hlast) as (Hr & _). destruct (us_top _ _ _ _ _ _ Hu) as [_ Ht].
    rewrite u64_small by (rewrite MAXVA_eq in *; unfold PGSIZE in *; lia).
    replace (i * PGSIZE + n * PGSIZE) with ((i + Z.of_nat (Z.to_nat n)) * PGSIZE) by lia.
    apply uvmunmap_loop_ok; [lia|done|done|]. intros k Hk. apply Hus. lia.
Qed.

(** ** uvmdealloc *)

(** The number of pages that hold [sz] bytes. *)
Definition npages (sz : Z) : Z := PGROUNDUP sz / PGSIZE.

Lemma npages_PGROUNDUP sz :
  0 <= sz <= MAXVA -> PGROUNDUP sz = npages sz * PGSIZE /\ 0 <= npages sz /\ sz <= npages sz * PGSIZE < sz + PGSIZE.
Proof.
  rewrite MAXVA_eq. intros H. unfold npages. destruct (PGROUNDUP_bounds sz) as [Hb Ha]; [lia..|].
  unfold PGSIZE in *. dlia.
Qed.

Lemma full_del_range n n' us :
  full n us -> 0 <= n' <= n -> full n' (del_range us n' (Z.to_nat (n - n'))).
Proof.
  intros Hf Hn i. rewrite del_range_lookup. case_decide.
  - split; [by intros [? ?]|lia].
  - rewrite (Hf i). lia.
Qed.

Lemma uvmdealloc_ok top root t us l s oldsz newsz :
  uspace top root t us l s -> full (npages oldsz) us -> 0 <= newsz <= oldsz -> oldsz <= MAXVA ->
  exists us' l' s', uvmdealloc kend root oldsz newsz s = Ok newsz s' /\
    uspace top root t us' l' s' /\ full (npages newsz) us' /\ us' ⊆ us /\
    conserves t us l s t us' l' s' /\ keeps us' (km_mem s) (km_mem s').
Proof.
  intros Hu Hf Hsz Hmax.
  destruct (npages_PGROUNDUP oldsz) as (E1 & H1 & H1'); [lia|].
  destruct (npages_PGROUNDUP newsz) as (E2 & H2 & H2'); [lia|].
  assert (Hle : npages newsz <= npages oldsz).
  { unfold npages in *. unfold PGSIZE in *. dlia. }
  unfold uvmdealloc. destruct (Z.leb_spec oldsz newsz).
  - assert (oldsz = newsz) as -> by lia. exists us, l, s. split; [done|]. split; [done|]. split; [done|].
    split; [done|]. split; [apply conserves_refl|apply keeps_refl].
  - rewrite E1, E2. destruct (Z.ltb_spec (npages newsz * PGSIZE) (npages oldsz * PGSIZE)) as [Hlt|Hge].
    + replace ((npages oldsz * PGSIZE - npages newsz * PGSIZE) / PGSIZE) with (npages oldsz - npages newsz)
        by (rewrite <- Z.mul_sub_distr_r, Z.div_mul; [done|by unfold PGSIZE]).
      rewrite s32_small, u64_small by (rewrite MAXVA_eq in *; unfold PGSIZE in *; lia).
      destruct (uvmunmap_ok top root t us l s (npages newsz) (npages oldsz - npages newsz))
        as (l' & s' & Hu1 & Hu2 & Hu3 & Hu4); try done; [lia| |].
      { intros k Hk. apply Hf. lia. }
      eexists _, l', s'. split; [by krun Hu1|]. split; [done|].
      split; [apply full_del_range; [done|lia]|]. split; [apply del_range_subseteq|]. done.
    + assert (E : npages newsz = npages oldsz) by (unfold PGSIZE in *; lia).
      exists us, l, s. split; [done|]. split; [done|]. split; [by rewrite E|].
      split; [done|]. split; [apply conserves_refl|apply keeps_refl].
Qed.

(** ** Mapping a new page *)

Lemma uspace_kalloc top root t us q l s :
  uspace top root t us (q :: l) s ->
  exists s1, kalloc s = Ok q s1 /\ q <> 0 /\ page_ok kend q /\ (q ∉ pt_pages t ++ upages us ++ l) /\
  forall m2, same_outside [q] (km_mem s1) m2 ->
    uspace top root t us l (set_km_mem m2 s1) /\ same_outside [q] (km_mem s) m2 /\
    km_sys s1 = km_sys s.
Proof.
  intros Hu. pose proof Hu as [Hvm Htop Hdom Hlf Hnone Hd]. pose proof Hvm as [Hf Hr Hwf _].
  destruct (kalloc_ok kend kend_pos q l s Hf Hr) as (fl & m & Ha & Hq & Hf' & Hs & _).
  assert (E : pt_pages t ++ upages us ++ q :: l ≡ₚ q :: (pt_pages t ++ upages us ++ l)).
  { rewrite (app_assoc _ _ (q :: l)), (app_assoc _ _ l). symmetry. apply Permutation_middle. }
  rewrite E in Hd. apply NoDup_cons in Hd as [Hn Hd].
  exists (Kmem (km_sys s) fl m). split; [done|].
  split; [destruct (page_ok_pos kend kend_pos q Hq); lia|]. split; [done|]. split; [done|].
  simpl. intros m2 Hs2.
  assert (Hqok : Forall (page_ok kend) [q]) by (constructor; [done|constructor]).
  assert (Hs' : same_outside [q] (km_mem s) m2).
  { eapply same_outside_trans; [|done]. eapply same_but_outside; [done|by left]. }
  rewrite !elem_of_app in Hn.
  destruct (pt_wf_frame kend [q] (km_mem s) m2 root t) as [Hwf' Hl']; try done.
  { intros p Hp ->%list_elem_of_singleton. tauto. }
  split; [|done]. split; try done.
  - split; try done.
    + apply (free_pages_frame kend [q] l (Kmem (km_sys s) fl m)); try done.
      intros p Hp ->%list_elem_of_singleton. tauto.
    + apply NoDup_app in Hd as (H1 & H2 & H3). apply NoDup_app in H3 as (_ & _ & H3).
      apply NoDup_app. split; [done|]. split; [|done]. intros x Hx Hx'. apply (H2 x Hx).
      apply elem_of_app. by right.
  - intros j pa perm Hj. simpl. rewrite Hl'. by eapply Hlf.
  - intros j Hj Hnj. simpl. rewrite Hl'. by apply Hnone.
Qed.

Lemma map_user_page top root t us q l s i perm :
  uspace top root t us l s -> page_ok kend q -> q ∉ pt_pages t ++ upages us ++ l ->
  0 <= i < top -> us !! i = None -> leaf_perm perm ->
  exists r t' l' s', mappages root (i * PGSIZE) PGSIZE q perm s = Ok r s' /\
    extends t l s t' l' s' /\ (q ∉ pt_pages t' ++ upages us ++ l') /\
    (r = 0 /\ uspace top root t' (<[i := (q, perm)]> us) l' s' \/
     r = -1 /\ l' = [] /\ uspace top root t' us [] s').
Proof.
  intros Hu Hq Hn Hi Hnone Hperm. pose proof Hu as [Hvm Htop Hdom Hlf Hno Hd].
  pose proof (uspace_page_range _ _ _ _ _ _ i Hu Hi) as Hva.
  destruct (page_ok_pos kend kend_pos q Hq).
  destruct (mappages_ok kend kend_pos root (i * PGSIZE) 1 q perm t l s)
    as (r & k & t' & l' & s' & Hm & Hvm' & Hex & Hlf' & Hres);
    try done; try (unfold PGSIZE, PHYSTOP, KERNBASE, leaf_perm in *; lia).
  { by apply Z.mod_mul. }
  { intros x Hx. rewrite page_div. intros Hpx. rewrite (leaf_page _ _ x (i * PGSIZE)); auto.
    rewrite page_div. lia. }
  rewrite Z.mul_1_l in Hm. exists r, t', l', s'. split; [done|]. split; [done|].
  assert (Hp : pt_pages t' ++ upages us ++ l' ≡ₚ pt_pages t ++ upages us ++ l).
  { rewrite (Permutation_app_comm (upages us)), (Permutation_app_comm (upages us) l).
    rewrite !app_assoc. by rewrite (ex_pages _ _ _ _ _ _ Hex). }
  rewrite Hp. split; [done|].
  assert (Hleaf : forall j, 0 <= j < top -> leaf (km_mem s') t' (j * PGSIZE) =
    if decide (j = i /\ k = 1) then mapped_pte q perm else leaf (km_mem s) t (j * PGSIZE)).
  { intros j Hj. rewrite Hlf' by (by eapply uspace_page_range). unfold map_leafs. rewrite !page_div.
    destruct Hres as [[_ ->]|(_ & _ & Hk)]; repeat case_decide; try lia; try done.
    f_equal. lia. }
  destruct Hres as [[-> ->]|(-> & -> & Hk)]; [left|right].
  - split; [done|]. split; try done.
    + intros j pa perm' [[<- [= <- <-]]|[_ Hj]]%lookup_insert_Some; [done|by eapply Hdom].
    + intros j pa perm' [[<- [= <- <-]]|[Hne Hj]]%lookup_insert_Some.
      * rewrite Hleaf by done. by rewrite decide_True.
      * destruct (Hdom _ _ _ Hj). rewrite Hleaf, decide_False by (done || lia). by eapply Hlf.
    + intros j Hj [Hnj Hne]%lookup_insert_None. rewrite Hleaf, decide_False by (done || lia).
      by apply Hno.
    + rewrite upages_insert by done. simpl. rewrite <- Permutation_middle, Hp. by constructor.
  - split; [done|]. split; [done|]. split; try done.
    + intros j pa perm' Hj. destruct (Hdom _ _ _ Hj). rewrite Hleaf, decide_False by (done || lia).
      by eapply Hlf.
    + intros j Hj Hnj. rewrite Hleaf, decide_False by (done || lia). by apply Hno.
    + by rewrite Hp.
Qed.

Lemma uspace_kfree top root t us l s q :
  uspace top root t us l s -> page_ok kend q -> q ∉ pt_pages t ++ upages us ++ l ->
  exists m, kfree kend q s = Ok tt (Kmem (km_sys s) q m) /\
    uspace top root t us (q :: l) (Kmem (km_sys s) q m) /\ same_outside [q] (km_mem s) m.
Proof.
  intros [Hvm Htop Hdom Hlf Hno Hd] Hq Hn.
  destruct (vm_kfree root t l s q Hvm Hq) as (m & Hk & Hvm' & Hs & Hl).
  { rewrite !elem_of_app in *. tauto. }
  exists m. split; [done|]. split; [|done]. split; try done.
  - intros j pa perm Hj. simpl. rewrite Hl. by eapply Hlf.
  - intros j Hj Hnj. simpl. rewrite Hl. by apply Hno.
  - rewrite (app_assoc _ _ (q :: l)), <- Permutation_middle, <- app_assoc. by constructor.
Qed.

Lemma page_same_outside ps q m m' x :
  same_outside ps m m' -> Forall (page_ok kend) ps -> page_ok kend q -> q ∉ ps ->
  q <= x < q + PGSIZE -> ld8 m' x = ld8 m x.
Proof.
  intros Hs Hps Hq Hn Hx. apply Hs, Forall_forall. intros p Hp Hin. rewrite Forall_forall in Hps.
  destruct (page_ok_apart kend q p Hq (Hps p Hp)); [congruence|lia|lia].
Qed.

(** [kalloc] a page, fill it, and map it as page [i]; when the page table cannot
    grow, give it back. *)
Lemma alloc_user_page top root t us q l s i perm (fill : mem -> mem) :
  uspace top root t us (q :: l) s -> 0 <= i < top -> us !! i = None -> leaf_perm perm ->
  (forall m, same_outside [q] m (fill m)) ->
  exists s1, kalloc s = Ok q s1 /\ q <> 0 /\ page_ok kend q /\ (q ∉ upages us) /\
    same_outside [q] (km_mem s) (km_mem s1) /\
    let us' := <[i := (q, perm)]> us in
    let s2 := set_km_mem (fill (km_mem s1)) s1 in
    ((exists t' l' s3, mappages root (i * PGSIZE) PGSIZE q perm s2 = Ok 0 s3 /\
        uspace top root t' us' l' s3 /\ conserves t us (q :: l) s t' us' l' s3 /\
        keeps us (km_mem s) (km_mem s3) /\
        forall x, q <= x < q + PGSIZE -> ld8 (km_mem s3) x = ld8 (km_mem s2) x) \/
     (exists t' s3 s4, mappages root (i * PGSIZE) PGSIZE q perm s2 = Ok (-1) s3 /\
        kfree kend q s3 = Ok tt s4 /\ uspace top root t' us [q] s4 /\
        conserves t us (q :: l) s t' us [q] s4 /\ keeps us (km_mem s) (km_mem s4))).
Proof.
  intros Hu Hi Hnone Hperm Hfill.
  destruct (uspace_kalloc top root t us q l s Hu) as (s1 & Ha & Hq0 & Hq & Hn & Huse).
  destruct (Huse (fill (km_mem s1)) (Hfill _)) as (Hu2 & Hs2 & Hsys).
  destruct (Huse (km_mem s1) (same_outside_refl _ _)) as (_ & Hs1 & _).
  pose proof (uspace_all_ok _ _ _ _ _ _ Hu) as Hall. pose proof (us_distinct _ _ _ _ _ _ Hu) as Hd.
  rewrite !elem_of_app in Hn. rewrite !Forall_app, Forall_cons in Hall.
  exists s1. split; [done|]. split; [done|]. split; [done|]. split; [tauto|]. split; [done|]. cbv zeta.
  set (s2 := set_km_mem (fill (km_mem s1)) s1) in *.
  destruct (map_user_page top root t us q l s2 i perm) as (r & t' & l' & s3 & Hm & Hex & Hn' & Hres);
    try done; [by rewrite !elem_of_app|].
  pose proof (ex_same _ _ _ _ _ _ Hex) as Hs3.
  assert (Hs : same_outside (q :: pt_pages t ++ l) (km_mem s) (km_mem s3)).
  { apply (same_outside_trans _ _ (km_mem s2));
      [eapply same_outside_mono; [|exact Hs2]|eapply same_outside_mono; [|exact Hs3]].
    - intros p ->%list_elem_of_singleton. by left.
    - intros p Hp. by right. }
  assert (Hk : forall m, same_outside (q :: pt_pages t ++ l) (km_mem s) m -> keeps us (km_mem s) m).
  { intros m Hm'. eapply keeps_outside; [done|..].
    - rewrite Forall_cons, Forall_app. tauto.
    - tauto.
    - apply NoDup_app in Hd as (_ & H1 & H2). apply NoDup_app in H2 as (_ & H2 & _).
      intros p Hp. rewrite elem_of_cons, elem_of_app. intros [->|[Hp'|Hp']]; [tauto|..].
      + apply (H1 p Hp'). apply elem_of_app. by left.
      + apply (H2 p Hp). by right. }
  assert (Hout : forall m, same_outside (q :: pt_pages t ++ l) (km_mem s) m ->
    same_outside (pt_pages t ++ upages us ++ q :: l) (km_mem s) m).
  { intros m. apply same_outside_mono. intros p. rewrite !elem_of_cons, !elem_of_app, !elem_of_cons. tauto. }
  assert (Hpp : q :: (pt_pages t' ++ upages us ++ l') ≡ₚ pt_pages t ++ upages us ++ q :: l).
  { rewrite (Permutation_app_comm (upages us) l'), (Permutation_app_comm (upages us) (q :: l)).
    rewrite !app_assoc, (ex_pages _ _ _ _ _ _ Hex), app_comm_cons.
    by rewrite (Permutation_middle (pt_pages t) l q). }
  destruct Hres as [[-> Hu3]|(-> & -> & Hu3)]; [left|right].
  - exists t', l', s3. split; [done|]. split; [done|]. split; [split|split; [by apply Hk|]].
    + by rewrite (ex_sys _ _ _ _ _ _ Hex).
    + rewrite upages_insert by done. simpl. by rewrite <- Permutation_middle.
    + by apply Hout.
    + intros x Hx. eapply page_same_outside;
        [exact Hs3|rewrite Forall_app; tauto|exact Hq|rewrite elem_of_app; tauto|done].
  - destruct (uspace_kfree top root t' us [] s3 q Hu3 Hq Hn') as (m4 & Hf & Hu4 & Hs4).
    assert (Hs' : same_outside (q :: pt_pages t ++ l) (km_mem s) m4).
    { eapply same_outside_trans; [done|]. eapply same_outside_mono; [|done].
      intros p ->%list_elem_of_singleton. by left. }
    exists t', s3, (Kmem (km_sys s3) q m4). split; [done|]. split; [done|]. split; [done|].
    split; [split|by apply Hk].
    + simpl. by rewrite (ex_sys _ _ _ _ _ _ Hex).
    + rewrite <- Hpp, (app_assoc _ _ [q]), app_nil_r. symmetry. apply Permutation_cons_append.
    + by apply Hout.
Qed.

(** ** uvmalloc *)

Lemma uvmalloc_body_ok top root t us l s i n0 newsz xperm :
  uspace top root t us l s -> full i us -> 0 <= n0 <= i -> i * PGSIZE < newsz -> newsz <= top * PGSIZE ->
  0 <= xperm < 1024 ->
  (exists q t' l' s', uvmalloc_body kend root (n0 * PGSIZE) newsz xperm (i * PGSIZE) s =
       Ok (inl ((i + 1) * PGSIZE)) s' /\
     let us' := <[i := (q, Z.lor (Z.lor PTE_R PTE_U) xperm)]> us in
     uspace top root t' us' l' s' /\ conserves t us l s t' us' l' s' /\
     keeps us (km_mem s) (km_mem s') /\ zero_page (km_mem s') q) \/
  (exists us' t' l' s', uvmalloc_body kend root (n0 * PGSIZE) newsz xperm (i * PGSIZE) s = Ok (inr 0) s' /\
     uspace top root t' us' l' s' /\ full n0 us' /\ us' ⊆ us /\
     conserves t us l s t' us' l' s' /\ keeps us' (km_mem s) (km_mem s')).
Proof.
  intros Hu Hfull Hi Hlt Htop Hx. unfold uvmalloc_body. rewrite (proj2 (Z.ltb_lt _ _)) by done.
  pose proof (us_vm _ _ _ _ _ _ Hu) as Hvm. destruct (us_top _ _ _ _ _ _ Hu) as [_ Hmax].
  assert (Hnp : forall j, 0 <= j <= top -> npages (j * PGSIZE) = j).
  { intros j Hj. unfold npages. rewrite PGROUNDUP_aligned_id; [apply page_div|..];
      try (by apply Z.mod_mul); rewrite MAXVA_eq in *; unfold PGSIZE in *; lia. }
  assert (Hit : i < top) by (unfold PGSIZE in *; lia).
  assert (Hde : forall t1 l1 s1, uspace top root t1 us l1 s1 ->
    exists us' l' s', uvmdealloc kend root (i * PGSIZE) (n0 * PGSIZE) s1 = Ok (n0 * PGSIZE) s' /\
      uspace top root t1 us' l' s' /\ full n0 us' /\ us' ⊆ us /\
      conserves t1 us l1 s1 t1 us' l' s' /\ keeps us' (km_mem s1) (km_mem s')).
  { intros t1 l1 s1 Hu1.
    destruct (uvmdealloc_ok top root t1 us l1 s1 (i * PGSIZE) (n0 * PGSIZE))
      as (us' & l' & s' & H); try done; [by rewrite Hnp by lia|unfold PGSIZE in *; lia..|].
    rewrite Hnp in H by lia. by exists us', l', s'. }
  destruct l as [|q l].
  - right. krun (kalloc_empty kend s (vm_free _ _ _ _ _ Hvm) (vm_ready _ _ _ _ _ Hvm)). simpl.
    destruct (Hde t [] s Hu) as (us' & l' & s' & H1 & H2).
    exists us', t, l', s'. split; [by krun H1|done].
  - assert (Hni : us !! i = None) by (apply eq_None_not_Some; rewrite (Hfull i); lia).
    destruct (alloc_user_page top root t us q l s i (Z.lor (Z.lor PTE_R PTE_U) xperm)
      (fun m => memset m q 0 PGSIZE)) as (s1 & Ha & Hq0 & Hq & _ & _ & Hres);
      [done|lia|done|by apply leaf_perm_user| |].
    { intros m. eapply same_but_outside; [apply same_but_memset|by left]. }
    krun Ha. rewrite (proj2 (Z.eqb_neq _ _)) by done. unfold upd_mem. rewrite bind_modify.
    cbv zeta in Hres.
    destruct Hres as [(t' & l' & s3 & Hm & Hu3 & Hc & Hk & Hz)|(t' & s3 & s4 & Hm & Hf & Hu4 & Hc & Hk)].
    + left. exists q, t', l', s3. krun Hm. cbn [negb Z.eqb].
      split; [|split; [done|split; [done|split; [done|]]]].
      * rewrite u64_small by (rewrite MAXVA_eq in *; unfold PGSIZE in *; lia).
        by replace (i * PGSIZE + PGSIZE) with ((i + 1) * PGSIZE) by lia.
      * intros x Hqx. rewrite Hz by done. by apply zero_page_memset.
    + right. krun Hm. cbn [negb Z.eqb]. krun Hf.
      destruct (Hde t' [q] s4 Hu4) as (us' & l' & s' & H1 & H2 & H3 & H4 & H5 & H6).
      exists us', t', l', s'. split; [by krun H1|]. split; [done|]. split; [done|]. split; [done|].
      split; [by eapply conserves_trans|]. eapply keeps_trans; [by eapply keeps_mono|done].
Qed.

(** The pages of [us'] that [us] lacks are zeroed, with permission [perm]. *)
Definition fresh_pages (perm : Z) (us us' : umap) (m' : mem) : Prop :=
  forall j pa p, us !! j = None -> us' !! j = Some (pa, p) -> p = perm /\ zero_page m' pa.

Lemma uvmalloc_loop_ok n : forall fuel top root t us l s i n0 newsz xperm,
  (n < fuel)%nat -> uspace top root t us l s -> full i us -> 0 <= n0 <= i ->
  (i + Z.of_nat n) * PGSIZE < newsz + PGSIZE -> newsz <= (i + Z.of_nat n) * PGSIZE ->
  newsz <= top * PGSIZE -> 0 <= xperm < 1024 ->
  exists r us' t' l' s',
    while fuel (uvmalloc_body kend root (n0 * PGSIZE) newsz xperm) (i * PGSIZE) s = Ok r s' /\
    uspace top root t' us' l' s' /\ conserves t us l s t' us' l' s' /\
    (r = newsz /\ full (i + Z.of_nat n) us' /\ us ⊆ us' /\ keeps us (km_mem s) (km_mem s') /\
       fresh_pages (Z.lor (Z.lor PTE_R PTE_U) xperm) us us' (km_mem s') \/
     r = 0 /\ full n0 us' /\ us' ⊆ us /\ keeps us' (km_mem s) (km_mem s')).
Proof.
  induction n as [|n IH]; intros [|fuel] top root t us l s i n0 newsz xperm Hf Hu Hfull Hi Hb1 Hb2 Htop Hx;
    try lia; cbn [while].
  - unfold uvmalloc_body at 1. rewrite (proj2 (Z.ltb_ge _ _)) by lia.
    exists newsz, us, t, l, s. split; [done|]. split; [done|]. split; [apply conserves_refl|]. left.
    rewrite Z.add_0_r. split_and!; try done. intros j pa p H1 H2. congruence.
  - destruct (uvmalloc_body_ok top root t us l s i n0 newsz xperm)
      as [(q & t1 & l1 & s1 & Hb & Hu1 & Hc1 & Hk1 & Hz1)|(us' & t1 & l1 & s1 & Hb & Hu1 & Hf1 & Hsub & Hc1 & Hk1)];
      try done; try (unfold PGSIZE in *; lia).
    + cbv zeta in *. krun Hb. set (us1 := <[i := _]> us) in *.
      assert (Hni : us !! i = None) by (apply eq_None_not_Some; rewrite (Hfull i); lia).
      assert (Hsub : us ⊆ us1) by (by apply insert_subseteq).
      destruct (IH fuel top root t1 us1 l1 s1 (i + 1) n0 newsz xperm)
        as (r & us' & t' & l' & s' & H1 & H2 & H3 & H4); try done; try (unfold PGSIZE in *; lia).
      { apply full_insert; [done|lia]. }
      exists r, us', t', l', s'. split; [done|]. split; [done|].
      split; [by eapply conserves_trans|].
      destruct H4 as [(-> & Hfull' & Hsub' & Hk' & Hfr)|(-> & Hf0 & Hsub' & Hk')]; [left|right].
      * split; [done|]. split; [by replace (i + Z.of_nat (S n)) with (i + 1 + Z.of_nat n) by lia|].
        split; [by etransitivity|]. split; [eapply keeps_trans; [done|by eapply keeps_mono]|].
        intros j pa p Hj Hj'. destruct (decide (j = i)) as [->|Hne].
        -- assert (Hq : us1 !! i = Some (q, Z.lor (Z.lor PTE_R PTE_U) xperm)) by apply lookup_insert_eq.
           pose proof (lookup_weaken _ _ _ _ Hq Hsub') as E. rewrite Hj' in E. injection E as -> ->.
           split; [done|]. intros x Hqx. rewrite (Hk' _ _ _ _ Hq Hqx). by apply Hz1.
        -- apply (Hfr j pa p); [|done]. by unfold us1; rewrite lookup_insert_ne.
      * assert (Hsub2 : us' ⊆ us) by (by apply (subseteq_full n0 i us us1 us'); try lia).
        split; [done|]. split; [done|]. split; [done|].
        eapply keeps_trans; [|done]. by eapply keeps_mono.
    + krun Hb. exists 0, us', t1, l1, s1. split; [done|]. split; [done|]. split; [done|]. right. done.
Qed.

Lemma uvmalloc_ok top root t us l s oldsz newsz xperm :
  uspace top root t us l s -> full (npages oldsz) us -> 0 <= oldsz <= newsz -> newsz <= top * PGSIZE ->
  0 <= xperm < 1024 ->
  exists r us' t' l' s', uvmalloc kend root oldsz newsz xperm s = Ok r s' /\
    uspace top root t' us' l' s' /\ conserves t us l s t' us' l' s' /\
    keeps us (km_mem s) (km_mem s') /\
    (r = newsz /\ full (npages newsz) us' /\ us ⊆ us' /\
       fresh_pages (Z.lor (Z.lor PTE_R PTE_U) xperm) us us' (km_mem s') \/
     r = 0 /\ us' = us).
Proof.
  intros Hu Hfull Hsz Htop Hx. unfold uvmalloc. rewrite (proj2 (Z.ltb_ge _ _)) by lia.
  destruct (us_top _ _ _ _ _ _ Hu) as [_ Hmax].
  destruct (npages_PGROUNDUP oldsz) as (E1 & H1 & H1'); [lia|].
  destruct (npages_PGROUNDUP newsz) as (E2 & H2 & H2'); [lia|].
  assert (Hle : npages oldsz <= npages newsz) by (unfold npages in *; unfold PGSIZE in *; dlia).
  rewrite E1.
  destruct (uvmalloc_loop_ok (Z.to_nat (npages newsz - npages oldsz))
    (S (Z.to_nat ((newsz - npages oldsz * PGSIZE + PGSIZE - 1) / PGSIZE)))
    top root t us l s (npages oldsz) (npages oldsz) newsz xperm)
    as (r & us' & t' & l' & s' & Hw & Hu' & Hc & Hres); try done;
    try (rewrite ?Z2Nat.id by lia; unfold PGSIZE in *; dlia).
  exists r, us', t', l', s'. split; [done|]. split; [done|]. split; [done|].
  destruct Hres as [(-> & Hf' & Hsub & Hk & Hfr)|(-> & Hf' & Hsub & Hk)].
  - split; [done|]. left. rewrite Z2Nat.id in Hf' by lia.
    replace (npages oldsz + (npages newsz - npages oldsz)) with (npages newsz) in Hf' by lia. done.
  - assert (us' = us) as ->.
    { apply map_eq. intros j. destruct (us !! j) as [e|] eqn:E.
      - assert (Hr : 0 <= j < npages oldsz) by (apply Hfull; by eexists).
        destruct (proj2 (Hf' j) Hr) as [e' He']. pose proof (lookup_weaken _ _ _ _ He' Hsub). congruence.
      - destruct (us' !! j) as [e|] eqn:E'; [|done].
        pose proof (lookup_weaken _ _ _ _ E' Hsub). congruence. }
    split; [done|]. by right.
Qed.

(** ** uvmcopy *)

(** A page table that is only read: the parent's. *)
Record source (root : Z) (t : ptree) (us : umap) (m : mem) : Prop := {
  so_wf : pt_wf kend m root t;
  so_dom : forall i pa perm, us !! i = Some (pa, perm) ->
    0 <= i * PGSIZE < MAXVA /\ page_ok kend pa /\ leaf_perm perm;
  so_leaf : forall i pa perm, us !! i = Some (pa, perm) -> leaf m t (i * PGSIZE) = mapped_pte pa perm
}.

(** Its pages are none of [ps]. *)
Definition apart_from (t : ptree) (us : umap) (ps : list Z) : Prop :=
  forall p, p ∈ pt_pages t ++ upages us -> p ∉ ps.

Lemma source_outside root t us m m' ps :
  source root t us m -> apart_from t us ps -> Forall (page_ok kend) ps -> same_outside ps m m' ->
  source root t us m' /\ keeps us m m'.
Proof.
  intros [Hwf Hdom Hlf] Hap Hps Hs. unfold apart_from in Hap. setoid_rewrite elem_of_app in Hap.
  destruct (pt_wf_frame kend ps m m' root t Hs Hps) as [Hwf' Hl]; [auto|done|].
  split; [split; try done|].
  - intros i pa perm Hi. rewrite Hl. by eapply Hlf.
  - eapply keeps_outside; try done; [|auto].
    apply Forall_forall. intros p (i & perm & Hi)%upages_elem. by eapply Hdom.
Qed.

(** Page [i] of the copy has the flags and the contents of the original. *)
Definition page_copied (m : mem) (e e' : Z * Z) : Prop :=
  e'.2 = Z.lor e.2 PTE_V /\
  forall k, 0 <= k < PGSIZE -> ld8 m (e'.1 + k) = ld8 m (e.1 + k).

(** The first [n] pages are copied. *)
Definition copied (n : Z) (us us' : umap) (m : mem) : Prop :=
  full n us' /\ forall i e e', us !! i = Some e -> us' !! i = Some e' -> page_copied m e e'.

Lemma leaf_perm_valid perm : leaf_perm perm -> leaf_perm (Z.lor perm PTE_V).
Proof.
  intros [Hr Hn]. split; [by apply perm_valid_range|]. by rewrite <- Z.lor_assoc, Z.lor_diag.
Qed.

Lemma uvmcopy_err_ok top root t us l s i :
  uspace top root t us l s -> full i us -> 0 <= i ->
  exists l' s', uvmcopy_err kend root (i * PGSIZE) s = Ok (inr (-1)) s' /\
    uspace top root t ∅ l' s' /\ conserves t us l s t ∅ l' s'.
Proof.
  intros Hu Hf Hi. unfold uvmcopy_err. rewrite page_div.
  destruct (uvmunmap_ok top root t us l s 0 i) as (l' & s' & H1 & H2 & H3 & _); try done.
  { intros k Hk. apply Hf. lia. }
  assert (E : del_range us 0 (Z.to_nat i) = ∅).
  { apply map_eq. intros j. rewrite del_range_lookup, lookup_empty. case_decide; [done|].
    apply eq_None_not_Some. rewrite (Hf j). lia. }
  rewrite E in *. exists l', s'. rewrite Z.mul_0_l in H1. split; [by krun H1|]. done.
Qed.

Lemma uvmcopy_body_ok top old t0 us0 root t us l s i n sz :
  uspace top root t us l s -> source old t0 us0 (km_mem s) -> full n us0 ->
  apart_from t0 us0 (pt_pages t ++ upages us ++ l) -> copied i us0 us (km_mem s) ->
  0 <= i < n -> i < top -> i * PGSIZE < sz ->
  (exists e t' l' s', uvmcopy_body kend old root sz (i * PGSIZE) s = Ok (inl ((i + 1) * PGSIZE)) s' /\
     uspace top root t' (<[i := e]> us) l' s' /\ conserves t us l s t' (<[i := e]> us) l' s' /\
     copied (i + 1) us0 (<[i := e]> us) (km_mem s')) \/
  (exists t' l' s', uvmcopy_body kend old root sz (i * PGSIZE) s = Ok (inr (-1)) s' /\
     uspace top root t' ∅ l' s' /\ conserves t us l s t' ∅ l' s').
Proof.
  intros Hu Hso Hfull0 Hap Hcp Hi Htop Hlt. destruct Hcp as [Hfull Hcp].
  destruct (proj2 (Hfull0 i) Hi) as [[pa perm] Hpa].
  destruct (so_dom _ _ _ _ Hso _ _ _ Hpa) as (Hva & Hpok & Hperm).
  destruct (mapped_valid pa perm Hpok Hperm) as (HV & HPA & HFL).
  destruct (leaf_valid_addr (km_mem s) t0 (i * PGSIZE)) as (p0 & Hp0 & Hld);
    [by rewrite (so_leaf _ _ _ _ Hso _ _ _ Hpa)|].
  destruct (leaf_addr_nonzero _ old t0 _ p0 (so_wf _ _ _ _ Hso) Hp0) as [Haddr Hnz].
  unfold uvmcopy_body. rewrite (proj2 (Z.ltb_lt _ _)) by done.
  krun (walk_find kend kend_pos (i * PGSIZE) old t0 s (so_wf _ _ _ _ Hso) Hva).
  rewrite (proj2 (Z.eqb_neq _ _)) by done. unfold ldm. rewrite bind_gets, Haddr, <- Hld.
  rewrite (so_leaf _ _ _ _ Hso _ _ _ Hpa), HV. cbn [negb]. rewrite HPA, HFL.
  destruct l as [|q l].
  - right. pose proof (us_vm _ _ _ _ _ _ Hu) as Hvm.
    krun (kalloc_empty kend s (vm_free _ _ _ _ _ Hvm) (vm_ready _ _ _ _ _ Hvm)). cbn [Z.eqb].
    destruct (uvmcopy_err_ok top root t us [] s i Hu Hfull) as (l' & s' & H); [lia|]. by exists t, l', s'.
  - assert (Hni : us !! i = None) by (apply eq_None_not_Some; rewrite (Hfull i); lia).
    assert (Hpq : pa <> q).
    { intros ->. apply (Hap q); rewrite !elem_of_app; [right; by eapply upages_lookup|].
      right. right. by left. }
    destruct (alloc_user_page top root t us q l s i (Z.lor perm PTE_V)
      (fun m => memmove m q pa PGSIZE)) as (s1 & Ha & Hq0 & Hq & _ & Hs1 & Hres);
      [done|lia|done|by apply leaf_perm_valid| |].
    { intros m. rewrite memmove_eq by (by unfold PGSIZE). eapply same_but_outside; [|by left].
      apply same_but_st_bytes; [lia|]. rewrite length_ld_bytes. by unfold PGSIZE. }
    krun Ha. rewrite (proj2 (Z.eqb_neq _ _)) by done. unfold upd_mem. rewrite bind_modify.
    cbv zeta in Hres.
    destruct Hres as [(t' & l' & s3 & Hm & Hu3 & Hc & Hk & Hz)|(t' & s3 & s4 & Hm & Hf & Hu4 & Hc & Hk)].
    + left. exists (q, Z.lor perm PTE_V), t', l', s3. krun Hm. cbn [negb Z.eqb].
      split; [|split; [done|split; [done|]]].
      { rewrite u64_small by (rewrite MAXVA_eq in *; unfold PGSIZE in *; lia).
        by replace (i * PGSIZE + PGSIZE) with ((i + 1) * PGSIZE) by lia. }
      destruct (source_outside old t0 us0 (km_mem s) (km_mem s3) (pt_pages t ++ upages us ++ q :: l))
        as [_ Hk0]; try done; [by eapply uspace_all_ok|by destruct Hc|].
      split; [apply full_insert; [done|lia]|]. intros j e e' Hj Hj'.
      destruct (decide (j = i)) as [->|Hne].
      * rewrite Hpa in Hj. rewrite lookup_insert_eq in Hj'. injection Hj as <-. injection Hj' as <-.
        split; [done|]. simpl. intros k Hkr. rewrite Hz by lia. simpl.
        rewrite (Hk0 _ _ _ (pa + k) Hpa) by lia. rewrite memmove_eq by (by unfold PGSIZE).
        replace (q + k) with (q + Z.of_nat (Z.to_nat k)) by lia.
        rewrite (ld8_st_bytes_in _ _ _ _ (ld8 (km_mem s1) (pa + k))).
        -- eapply page_same_outside; [exact Hs1|..|exact Hpok| |lia].
           ++ constructor; [done|constructor].
           ++ by intros ->%list_elem_of_singleton.
        -- rewrite ld_bytes_lookup by (unfold PGSIZE in *; lia). do 2 f_equal. lia.
      * rewrite lookup_insert_ne in Hj' by done. destruct (Hcp j e e' Hj Hj') as [Hp1 Hp2].
        split; [done|]. intros k Hkr. destruct e as [a p], e' as [a' p']. simpl in *.
        rewrite (Hk _ _ _ (a' + k) Hj'), (Hk0 _ _ _ (a + k) Hj) by lia. by apply Hp2.
    + right. krun Hm. cbn [negb Z.eqb]. krun Hf.
      destruct (uvmcopy_err_ok top root t' us [q] s4 i Hu4 Hfull) as (l' & s' & H1 & H2 & H3); [lia|].
      exists t', l', s'. split; [done|]. split; [done|]. by eapply conserves_trans.
Qed.

Lemma uvmcopy_loop_ok k : forall fuel top old t0 us0 root t us l s i n sz,
  (k < fuel)%nat -> uspace top root t us l s -> source old t0 us0 (km_mem s) -> full n us0 ->
  apart_from t0 us0 (pt_pages t ++ upages us ++ l) -> copied i us0 us (km_mem s) ->
  0 <= i -> n = i + Z.of_nat k -> n <= top -> sz <= n * PGSIZE < sz + PGSIZE ->
  exists r us' t' l' s', while fuel (uvmcopy_body kend old root sz) (i * PGSIZE) s = Ok r s' /\
    uspace top root t' us' l' s' /\ conserves t us l s t' us' l' s' /\
    (r = 0 /\ copied n us0 us' (km_mem s') \/ r = -1 /\ us' = ∅).
Proof.
  induction k as [|k IH]; intros [|fuel] top old t0 us0 root t us l s i n sz Hf Hu Hso Hfull Hap Hcp Hi -> Htop Hsz;
    try lia; cbn [while].
  - unfold uvmcopy_body at 1. rewrite (proj2 (Z.ltb_ge _ _)) by lia.
    exists 0, us, t, l, s. split; [done|]. split; [done|]. split; [apply conserves_refl|]. left.
    by rewrite Z.add_0_r.
  - destruct (uvmcopy_body_ok top old t0 us0 root t us l s i (i + Z.of_nat (S k)) sz)
      as [(e & t1 & l1 & s1 & Hb & Hu1 & Hc1 & Hcp1)|(t1 & l1 & s1 & Hb & Hu1 & Hc1)];
      try done; try (unfold PGSIZE in *; lia).
    + krun Hb.
      destruct (source_outside old t0 us0 (km_mem s) (km_mem s1) (pt_pages t ++ upages us ++ l))
        as [Hso1 _]; try done; [by eapply uspace_all_ok|by destruct Hc1|].
      destruct (IH fuel top old t0 us0 root t1 (<[i := e]> us) l1 s1 (i + 1) (i + Z.of_nat (S k)) sz)
        as (r & us' & t' & l' & s' & H1 & H2 & H3 & H4); try done; try lia.
      { intros p Hp. rewrite (co_pages _ _ _ _ _ _ _ _ Hc1). by apply Hap. }
      exists r, us', t', l', s'. split; [done|]. split; [done|]. split; [by eapply conserves_trans|done].
    + krun Hb. exists (-1), ∅, t1, l1, s1. split; [done|]. split; [done|]. split; [done|]. by right.
Qed.

Lemma uvmcopy_ok top old t0 us0 root t l s sz :
  uspace top root t ∅ l s -> source old t0 us0 (km_mem s) -> full (npages sz) us0 ->
  apart_from t0 us0 (pt_pages t ++ l) -> 0 <= sz <= top * PGSIZE ->
  exists r us' t' l' s', uvmcopy kend old root sz s = Ok r s' /\
    uspace top root t' us' l' s' /\ conserves t ∅ l s t' us' l' s' /\
    source old t0 us0 (km_mem s') /\ keeps us0 (km_mem s) (km_mem s') /\
    (r = 0 /\ copied (npages sz) us0 us' (km_mem s') \/ r = -1 /\ us' = ∅).
Proof.
  intros Hu Hso Hfull Hap Hsz. destruct (us_top _ _ _ _ _ _ Hu) as [_ Hmax].
  destruct (npages_PGROUNDUP sz) as (E & H1 & H2); [lia|].
  destruct (uvmcopy_loop_ok (Z.to_nat (npages sz)) (S (Z.to_nat ((sz + PGSIZE - 1) / PGSIZE)))
    top old t0 us0 root t ∅ l s 0 (npages sz) sz) as (r & us' & t' & l' & s' & Hw & Hu' & Hc & Hr);
    try done; try (rewrite ?Z2Nat.id by lia; unfold PGSIZE in *; dlia).
  { split; [|intros i e e' _ H; by rewrite lookup_empty in H].
    intros i. rewrite lookup_empty. split; [by intros [? ?]|lia]. }
  destruct (source_outside old t0 us0 (km_mem s) (km_mem s') (pt_pages t ++ upages ∅ ++ l))
    as [Hso' Hk']; try done; [by eapply uspace_all_ok|by destruct Hc|].
  exists r, us', t', l', s'. rewrite Z.mul_0_l in Hw. done.
Qed.

End Uvm.

(** ** Properties *)

Lemma uspace_empty kend root t l s :
  vm kend root t l s -> (forall va, leaf (km_mem s) t va = 0) -> uspace kend (2 ^ 26) root t ∅ l s.
Proof.
  intros Hvm Hl. split; try done.
  - intros i _ _. by rewrite Hl.
  - apply Hvm.
Qed.

(** A process that has just grown by two pages. *)
Definition demo_grown : M kmem Z :=
  let! root := uvmcreate in uvmalloc small_end root 0 (2 * PGSIZE) PTE_W.

Lemma demo_grown_result :
  match demo_grown kmem_demo with Ok r _ => r =? 2 * PGSIZE | _ => false end = true.
Proof. vm_compute. reflexivity. Qed.

Lemma demo_space :
  exists us t l s, demo_grown kmem_demo = Ok (2 * PGSIZE) s /\
    uspace small_end (2 ^ 26) (PHYSTOP - PGSIZE) t us l s /\ full (npages (2 * PGSIZE)) us /\
    fresh_pages (Z.lor (Z.lor PTE_R PTE_U) PTE_W) ∅ us (km_mem s).
Proof.
  destruct demo_table as (s1 & H1 & H2 & H3).
  destruct (uvmalloc_ok small_end small_end_pos (2 ^ 26) (PHYSTOP - PGSIZE)
    {[ [] := PHYSTOP - PGSIZE ]} ∅ (tail demo_pages) s1 0 (2 * PGSIZE) PTE_W)
    as (r & us & t & l & s & Ha & Hu & _ & _ & Hr).
  - by apply uspace_empty.
  - intros i. rewrite lookup_empty. split; [by intros [? ?]|by change (npages 0) with 0; lia].
  - by vm_compute.
  - by vm_compute.
  - by vm_compute.
  - pose proof demo_grown_result as Hd. unfold demo_grown, bind in Hd. rewrite H1 in Hd. simpl in Hd.
    rewrite Ha in Hd. apply Z.eqb_eq in Hd. destruct Hr as [(_ & Hf & _ & Hfr)|[-> _]]; [|by vm_compute in Hd].
    subst r. exists us, t, l, s. split; [|done]. unfold demo_grown. by krun H1.
Qed.

(** [uvmalloc] grows an address space from [oldsz] to [newsz] bytes with
    zeroed, user-readable pages, keeps the pages that were there and their
    contents, and returns [newsz]; when memory runs out it returns 0 and the
    address space is what it was.  No page is lost either way. *)
Theorem uvmalloc_correct (kend top root oldsz newsz xperm : Z) (t : ptree) (us : umap) (l : list Z) (s : kmem)
    (Hend : 0 < kend) (Hu : uspace kend top root t us l s) (Hfull : full (npages oldsz) us)
    (Hsz : 0 <= oldsz <= newsz) (Htop : newsz <= top * PGSIZE) (Hx : 0 <= xperm < 1024) :
  exists r us' t' l' s', uvmalloc kend root oldsz newsz xperm s = Ok r s' /\
    uspace kend top root t' us' l' s' /\ keeps us (km_mem s) (km_mem s') /\
    (pt_pages t' ++ upages us' ++ l' ≡ₚ pt_pages t ++ upages us ++ l) /\
    (r = newsz /\ full (npages newsz) us' /\ us ⊆ us' /\
       fresh_pages (Z.lor (Z.lor PTE_R PTE_U) xperm) us us' (km_mem s') \/
     r = 0 /\ us' = us).
Proof.
  destruct (uvmalloc_ok kend Hend top root t us l s oldsz newsz xperm Hu Hfull Hsz Htop Hx)
    as (r & us' & t' & l' & s' & H1 & H2 & H3 & H4 & H5).
  exists r, us', t', l', s'. split; [done|]. split; [done|]. split; [done|]. split; [apply H3|done].
Qed.

Lemma uvmalloc_correct_witness :
  exists r s s', demo_grown kmem_demo = Ok (2 * PGSIZE) s /\
    uvmalloc small_end (PHYSTOP - PGSIZE) (2 * PGSIZE) (3 * PGSIZE - 5) PTE_X s = Ok r s'.
Proof.
  destruct demo_space as (us & t & l & s & H1 & H2 & H3 & _).
  destruct (uvmalloc_correct small_end (2 ^ 26) (PHYSTOP - PGSIZE) (2 * PGSIZE) (3 * PGSIZE - 5) PTE_X
    t us l s small_end_pos H2 H3) as (r & us' & t' & l' & s' & H4 & _);
    [clear; unfold PGSIZE; lia|clear; unfold PGSIZE; lia|clear; done|].
  exists r, s, s'. split; [exact H1|exact H4].
Defined.

(** [uvmdealloc] shrinks an address space to [newsz] bytes: exactly the
    pages beyond it are unmapped and go back to the free list, the others keep
    their contents, and it returns the new size. *)
Theorem uvmdealloc_correct (kend top root oldsz newsz : Z) (t : ptree) (us : umap) (l : list Z) (s : kmem)
    (Hend : 0 < kend) (Hu : uspace kend top root t us l s) (Hfull : full (npages oldsz) us)
    (Hsz : 0 <= newsz <= oldsz) (Hmax : oldsz <= MAXVA) :
  exists us' l' s', uvmdealloc kend root oldsz newsz s = Ok newsz s' /\
    uspace kend top root t us' l' s' /\ full (npages newsz) us' /\ us' ⊆ us /\
    keeps us' (km_mem s) (km_mem s') /\ upages us' ++ l' ≡ₚ upages us ++ l.
Proof.
  destruct (uvmdealloc_ok kend Hend top root t us l s oldsz newsz Hu Hfull Hsz Hmax)
    as (us' & l' & s' & H1 & H2 & H3 & H4 & H5 & H6).
  exists us', l', s'. split; [done|]. split; [done|]. split; [done|]. split; [done|]. split; [done|].
  eapply Permutation_app_inv_l, H5.
Qed.

Lemma uvmdealloc_correct_witness :
  exists s s', demo_grown kmem_demo = Ok (2 * PGSIZE) s /\
    uvmdealloc small_end (PHYSTOP - PGSIZE) (2 * PGSIZE) 100 s = Ok 100 s'.
Proof.
  destruct demo_space as (us & t & l & s & H1 & H2 & H3 & _).
  destruct (uvmdealloc_correct small_end (2 ^ 26) (PHYSTOP - PGSIZE) (2 * PGSIZE) 100
    t us l s small_end_pos H2 H3) as (us' & l' & s' & H4 & _); [clear; unfold PGSIZE; lia|clear; done|].
  exists s, s'. split; [exact H1|exact H4].
Defined.


Lemma uspace_source kend top root t us l s :
  uspace kend top root t us l s -> source kend root t us (km_mem s).
Proof.
  intros Hu. split.
  - apply Hu.
  - intros i pa perm Hi. destruct (us_dom _ _ _ _ _ _ _ Hu _ _ _ Hi) as (? & ? & ?).
    split; [by eapply uspace_page_range|done].
  - apply Hu.
Qed.

(** Work on another page table keeps an empty one. *)
Lemma uspace_other kend top root t l0 s root2 t2 l s' ps :
  uspace kend top root t ∅ l0 s -> vm kend root2 t2 l s' ->
  same_outside ps (km_mem s) (km_mem s') -> Forall (page_ok kend) ps ->
  (forall p, p ∈ pt_pages t -> p ∉ ps) -> (forall p, p ∈ l -> p ∈ ps) ->
  uspace kend top root t ∅ l s'.
Proof.
  intros Hu Hvm2 Hs Hps Hd Hl.
  destruct (pt_wf_frame kend ps (km_mem s) (km_mem s') root t Hs Hps Hd) as [Hwf Hlf]; [apply Hu|].
  assert (Hnd : NoDup (pt_pages t ++ l)).
  { apply NoDup_app. split; [apply (wf_distinct _ _ _ _ Hwf)|]. split.
    - intros p Hp Hp'. apply (Hd p Hp). by apply Hl.
    - apply (fp_nodup _ _ _ (vm_free _ _ _ _ _ Hvm2)). }
  split; [|apply Hu|by intros i pa perm H|by intros i pa perm H| |done].
  - split; [apply Hvm2|apply Hvm2|done|done].
  - intros i Hi _. rewrite Hlf. by apply (us_none _ _ _ _ _ _ _ Hu).
Qed.

(** A child's empty page table and a parent that has grown by two pages. *)
Definition demo_pair : M kmem Z :=
  let! child := uvmcreate in
  let! parent := uvmcreate in
  uvmalloc small_end parent 0 (2 * PGSIZE) PTE_W.

Lemma demo_pair_result :
  match demo_pair kmem_demo with Ok r _ => r =? 2 * PGSIZE | _ => false end = true.
Proof. vm_compute. reflexivity. Qed.

Lemma demo_pair_ok :
  exists us0 t0 l s, demo_pair kmem_demo = Ok (2 * PGSIZE) s /\
    uspace small_end (2 ^ 26) (PHYSTOP - PGSIZE) {[ [] := PHYSTOP - PGSIZE ]} ∅ l s /\
    source small_end (PHYSTOP - 2 * PGSIZE) t0 us0 (km_mem s) /\
    full (npages (2 * PGSIZE)) us0 /\
    apart_from t0 us0 (pt_pages {[ [] := PHYSTOP - PGSIZE ]} ++ l).
Proof.
  set (c := PHYSTOP - PGSIZE). set (q := PHYSTOP - 2 * PGSIZE). set (l2 := tail (tail demo_pages)).
  destruct demo_table as (s1 & H1 & H2 & H3). fold c in H1, H2, H3.
  pose proof (uspace_empty _ _ _ _ _ H2 H3) as Hu1.
  destruct (uvmcreate_ok small_end q l2 s1 small_end_pos (vm_free _ _ _ _ _ H2) (vm_ready _ _ _ _ _ H2))
    as (s2 & H4 & H5 & _ & H6 & H7).
  destruct (uvmalloc_ok small_end small_end_pos (2 ^ 26) q {[ [] := q ]} ∅ l2 s2 0 (2 * PGSIZE) PTE_W)
    as (r & us & t & l & s & Ha & Hu & Hc & _ & Hr).
  - by apply uspace_empty.
  - intros i. rewrite lookup_empty. split; [by intros [? ?]|by change (npages 0) with 0; lia].
  - clear; unfold PGSIZE; lia.
  - clear; by vm_compute.
  - clear; by vm_compute.
  - assert (Ep : pt_pages t ++ upages us ++ l ≡ₚ tail demo_pages).
    { rewrite (co_pages _ _ _ _ _ _ _ _ Hc). unfold pt_pages. by rewrite map_to_list_singleton. }
    assert (Ec : pt_pages {[ [] := c ]} = [c]) by (unfold pt_pages; by rewrite map_to_list_singleton).
    assert (Hcn : c ∉ tail demo_pages).
    { pose proof (fp_nodup _ _ _ kmem_demo_free) as Hn. by apply NoDup_cons in Hn as [Hn _]. }
    assert (Er : r = 2 * PGSIZE).
    { pose proof demo_pair_result as Hd. unfold demo_pair, bind in Hd. rewrite H1 in Hd. simpl in Hd.
      rewrite H4 in Hd. simpl in Hd. rewrite Ha in Hd. by apply Z.eqb_eq in Hd. }
    exists us, t, l, s. split; [|split; [|split; [|split]]].
    + unfold demo_pair. krun H1. krun H4. by rewrite Ha, Er.
    + eapply (uspace_other small_end (2 ^ 26) c _ _ s1 q t l s (tail demo_pages)).
      * exact Hu1.
      * apply Hu.
      * eapply same_outside_trans; [exact H6|].
        pose proof (co_same _ _ _ _ _ _ _ _ Hc) as Hs. unfold pt_pages in Hs.
        by rewrite map_to_list_singleton in Hs.
      * apply (fp_ok _ _ _ (vm_free _ _ _ _ _ H2)).
      * rewrite Ec. by intros p ->%list_elem_of_singleton.
      * intros p Hp. rewrite <- Ep, !elem_of_app. tauto.
    + by eapply uspace_source.
    + destruct Hr as [(_ & Hf & _)|(-> & _)]; [done|]. clear - Er. by vm_compute in Er.
    + rewrite Ec. intros p Hp [->%list_elem_of_singleton|Hl]%elem_of_app.
      * apply Hcn. rewrite <- Ep, app_assoc, elem_of_app. by left.
      * pose proof (us_distinct _ _ _ _ _ _ _ Hu) as Hd. rewrite app_assoc in Hd.
        apply NoDup_app in Hd as (_ & Hd & _). by apply (Hd p).
Qed.


(** The examples are run by [vm_compute] only. *)
#[global] Opaque demo_grown demo_pair.
