(* ===== verification/UserCopy.v ===== *)
(** * Copying between user and kernel memory

    [copyin], [copyinstr] and [copyout] against the bytes a user program sees
    at its virtual addresses. *)

From S2P Require Import Prelude Riscv Memory CString Sys Spinlock Kalloc Vm PageTable Uvm.

(** The byte at user address [va]. *)
Definition ubyte (us : umap) (m : mem) (va : Z) : option byte :=
  match us !! (va / PGSIZE) with
  | Some (pa, perm) => if has perm PTE_U then Some (ld8 m (pa + va mod PGSIZE)) else None
  | None => None
  end.

Fixpoint ubytes (us : umap) (m : mem) (va : Z) (n : nat) : option (list byte) :=
  match n with
  | O => Some []
  | S n => b ← ubyte us m va; bs ← ubytes us m (va + 1) n; Some (b :: bs)
  end.

(** The string at [va], with its terminator, if it ends within [max] bytes. *)
Fixpoint ustring (us : umap) (m : mem) (va : Z) (max : nat) : option (list byte) :=
  match max with
  | O => None
  | S max =>
      b ← ubyte us m va;
      if Byte.eqb b Byte.x00 then Some [b] else bs ← ustring us m (va + 1) max; Some (b :: bs)
  end.

(** The user may write at [va]. *)
Definition uwritable (us : umap) (va : Z) : bool :=
  match us !! (va / PGSIZE) with
  | Some (_, perm) => has perm PTE_U && has perm PTE_W
  | None => false
  end.

Lemma ubytes_app us m va n k :
  ubytes us m va (n + k) =
  (bs ← ubytes us m va n; bs' ← ubytes us m (va + Z.of_nat n) k; Some (bs ++ bs')).
Proof.
  revert va. induction n as [|n IH]; intros va; simpl.
  - rewrite Z.add_0_r. by destruct (ubytes us m va k).
  - destruct (ubyte us m va) as [b|]; [|done]. simpl. rewrite IH.
    destruct (ubytes us m (va + 1) n) as [bs|]; [|done]. simpl.
    replace (va + 1 + Z.of_nat n) with (va + Z.of_nat (S n)) by lia.
    by destruct (ubytes us m (va + Z.of_nat (S n)) k).
Qed.

Lemma ubytes_length us m va n bs : ubytes us m va n = Some bs -> length bs = n.
Proof.
  revert va bs. induction n as [|n IH]; simpl; intros va bs H; [by injection H as <-|].
  destruct (ubyte us m va); [|done]. simpl in H. destruct (ubytes us m (va + 1) n) eqn:E; [|done].
  injection H as <-. simpl. f_equal. by eapply IH.
Qed.

(** Addresses in one page. *)
Lemma page_split va k :
  0 <= k -> va mod PGSIZE + k < PGSIZE -> (va + k) / PGSIZE = va / PGSIZE /\ (va + k) mod PGSIZE = va mod PGSIZE + k.
Proof. unfold PGSIZE. intros. dlia. Qed.

Lemma ubyte_page us m va k pa perm :
  us !! (va / PGSIZE) = Some (pa, perm) -> has perm PTE_U = true ->
  0 <= k -> va mod PGSIZE + k < PGSIZE ->
  ubyte us m (va + k) = Some (ld8 m (pa + va mod PGSIZE + k)).
Proof.
  intros Hi Hu Hk Hr. unfold ubyte. destruct (page_split va k Hk Hr) as [-> ->].
  rewrite Hi, Hu. by rewrite Z.add_assoc.
Qed.

Lemma ubytes_page us m va n pa perm :
  us !! (va / PGSIZE) = Some (pa, perm) -> has perm PTE_U = true ->
  va mod PGSIZE + Z.of_nat n <= PGSIZE ->
  ubytes us m va n = Some (ld_bytes m (pa + va mod PGSIZE) n).
Proof.
  intros Hi Hu Hr.
  assert (H : forall k j, (j + k <= n)%nat ->
    ubytes us m (va + Z.of_nat j) k = Some (ld_bytes m (pa + va mod PGSIZE + Z.of_nat j) k)).
  { induction k as [|k IH]; intros j Hj; simpl; [done|].
    rewrite (ubyte_page us m va _ pa perm) by (done || lia). simpl.
    replace (va + Z.of_nat j + 1) with (va + Z.of_nat (S j)) by lia.
    rewrite IH by lia. simpl. do 3 f_equal. lia. }
  specialize (H n O). rewrite !Z.add_0_r in H. apply H. lia.
Qed.

Section UserCopy.
Variable kend : Z.
Hypothesis kend_pos : 0 < kend.

(** [us] is what the page table at [root] lets the user access. *)
Record utable (root : Z) (t : ptree) (us : umap) (m : mem) : Prop := {
  ut_wf : pt_wf kend m root t;
  ut_some : forall va pa perm, 0 <= va -> us !! (va / PGSIZE) = Some (pa, perm) ->
    va < MAXVA /\ page_ok kend pa /\ leaf_perm perm /\ leaf m t va = mapped_pte pa perm;
  ut_none : forall va, 0 <= va < MAXVA -> us !! (va / PGSIZE) = None ->
    has (leaf m t va) PTE_V = false \/ has (leaf m t va) PTE_U = false
}.

Lemma mapped_has pa perm f :
  page_ok kend pa -> leaf_perm perm -> 0 <= f < 1024 -> f <> PTE_V ->
  has (mapped_pte pa perm) f = has (Z.lor perm PTE_V) f.
Proof.
  intros Hp [Hr _] Hf _. rewrite mapped_pte_eq. apply has_PA2PTE; [|by apply perm_valid_range|done].
  destruct (page_ok_pos kend kend_pos pa Hp). lia.
Qed.

Lemma mapped_has_bit pa perm n :
  page_ok kend pa -> leaf_perm perm -> 0 < n < 10 ->
  has (mapped_pte pa perm) (Z.shiftl 1 n) = has perm (Z.shiftl 1 n).
Proof.
  intros Hp Hl Hn. rewrite mapped_has; try done.
  - rewrite !has_testbit, Z.lor_spec by lia. unfold PTE_V. rewrite !Z.shiftl_1_l, Z.pow2_bits_false by lia.
    by rewrite orb_false_r.
  - rewrite Z.shiftl_1_l. split; [lia|]. change 1024 with (2 ^ 10). apply Z.pow_lt_mono_r; lia.
  - unfold PTE_V. rewrite !Z.shiftl_1_l. intros E. apply Z.pow_inj_r in E; lia.
Qed.

Lemma walkaddr_ok root t us s va :
  utable root t us (km_mem s) -> 0 <= va ->
  walkaddr root va s =
  Ok (match us !! (va / PGSIZE) with
      | Some (pa, perm) => if has perm PTE_U then pa else 0
      | None => 0
      end) s.
Proof.
  intros [Hwf Hso Hno] Hva. unfold walkaddr. destruct (Z.leb_spec MAXVA va) as [Hbig|Hlt].
  - destruct (us !! (va / PGSIZE)) as [[pa perm]|] eqn:E; [|done].
    destruct (Hso va pa perm Hva E). lia.
  - krun (walk_find kend kend_pos va root t s Hwf ltac:(lia)).
    destruct (t !! leaf_path va) as [p0|] eqn:Ep0.
    + destruct (leaf_addr_nonzero kend kend_pos _ root t va p0 Hwf Ep0) as [Ha Hnz].
      rewrite (proj2 (Z.eqb_neq _ _)) by done. unfold ldm. rewrite bind_gets, Ha.
      assert (El : leaf (km_mem s) t va = ld64 (km_mem s) (pte_at p0 (PX 0 va)))
        by (unfold leaf; by rewrite Ep0).
      rewrite <- El. destruct (us !! (va / PGSIZE)) as [[pa perm]|] eqn:E.
      * destruct (Hso va pa perm Hva E) as (_ & Hp & Hl & ->).
        destruct (mapped_valid kend kend_pos pa perm Hp Hl) as (-> & -> & _).
        unfold PTE_U. rewrite mapped_has_bit by (done || lia). by destruct (has perm _).
      * destruct (Hno va ltac:(lia) E) as [-> | ->]; [done|]. by destruct (has _ PTE_V).
    + unfold leaf_addr. rewrite Ep0. cbn [Z.eqb]. destruct (us !! (va / PGSIZE)) as [[pa perm]|] eqn:E; [|done].
      destruct (Hso va pa perm Hva E) as (_ & Hp & Hl & El). unfold leaf in El. rewrite Ep0 in El.
      destruct (mapped_valid kend kend_pos pa perm Hp Hl) as (HV & _). by rewrite <- El in HV.
Qed.

(** ** copyin *)

Lemma PGROUNDDOWN_page va : PGROUNDDOWN va / PGSIZE = va / PGSIZE /\ va - PGROUNDDOWN va = va mod PGSIZE.
Proof. rewrite PGROUNDDOWN_eq. unfold PGSIZE. dlia. Qed.

(** The bytes of a round: up to the end of the page, at most [len]. *)
Definition chunk (va len : Z) : Z := Z.min len (PGSIZE - va mod PGSIZE).

Definition next_page (va : Z) : Z := va + (PGSIZE - va mod PGSIZE).

Lemma chunk_eq va len :
  (if len <? PGSIZE - (va - PGROUNDDOWN va) then len else PGSIZE - (va - PGROUNDDOWN va)) = chunk va len.
Proof.
  destruct (PGROUNDDOWN_page va) as [_ ->]. unfold chunk.
  destruct (Z.ltb_spec len (PGSIZE - va mod PGSIZE)); lia.
Qed.

Lemma next_page_eq va : va < MAXVA -> 0 <= va -> u64 (PGROUNDDOWN va + PGSIZE) = next_page va.
Proof.
  intros Hm H0. rewrite PGROUNDDOWN_eq, u64_small.
  - unfold next_page. lia.
  - rewrite MAXVA_eq in Hm. unfold PGSIZE. dlia.
Qed.

Lemma chunk_bounds va len : 0 < len -> 0 < chunk va len <= len /\ va mod PGSIZE + chunk va len <= PGSIZE.
Proof. intros H. unfold chunk. pose proof (Z.mod_pos_bound va PGSIZE). unfold PGSIZE in *. lia. Qed.

(** When a round does not finish, the next one starts at a page. *)
Lemma chunk_rest va len :
  chunk va len < len -> va + chunk va len = next_page va /\ next_page va mod PGSIZE = 0.
Proof. unfold chunk, next_page. intros H. split; [lia|]. unfold PGSIZE in *. dlia. Qed.

Lemma ut_page root t us m va pa perm :
  utable root t us m -> 0 <= va -> us !! (va / PGSIZE) = Some (pa, perm) ->
  va < MAXVA /\ pa <> 0 /\ page_ok kend pa.
Proof.
  intros Ht H0 E. destruct (ut_some _ _ _ _ Ht va pa perm H0 E) as (? & Hp & _).
  destruct (page_ok_pos kend kend_pos pa Hp). split_and!; [done|lia|done].
Qed.

Lemma PGROUNDDOWN_nonneg va : 0 <= va -> 0 <= PGROUNDDOWN va.
Proof. rewrite PGROUNDDOWN_eq. unfold PGSIZE. intros. dlia. Qed.

Lemma copyin_body_ok root t us s srcva len dst :
  utable root t us (km_mem s) -> 0 <= srcva -> 0 < len ->
  (srcva < MAXVA /\ exists bs, ubytes us (km_mem s) srcva (Z.to_nat (chunk srcva len)) = Some bs /\
     copyin_body root (srcva, len, dst) s = Ok (inl (next_page srcva, len - chunk srcva len, dst ++ bs)) s) \/
  (ubyte us (km_mem s) srcva = None /\ copyin_body root (srcva, len, dst) s = Ok (inr (-1, dst)) s).
Proof.
  intros Ht H0 Hlen. unfold copyin_body. rewrite (proj2 (Z.ltb_lt _ _)) by done. rewrite chunk_eq.
  destruct (PGROUNDDOWN_page srcva) as [Hpg Hoff]. rewrite Hoff.
  krun (walkaddr_ok root t us s (PGROUNDDOWN srcva) Ht (PGROUNDDOWN_nonneg _ H0)). rewrite Hpg.
  destruct (us !! (srcva / PGSIZE)) as [[pa perm]|] eqn:E.
  2: { right. unfold ubyte. rewrite E. done. }
  destruct (ut_page root t us (km_mem s) srcva pa perm Ht H0 E) as (Hmax & Hpa & _).
  destruct (has perm PTE_U) eqn:EU.
  - left. split; [done|]. rewrite (proj2 (Z.eqb_neq _ _)) by done. rewrite bind_gets.
    destruct (chunk_bounds srcva len Hlen).
    eexists. split; [eapply ubytes_page; [done|done|lia]|]. by rewrite next_page_eq.
  - right. unfold ubyte. rewrite E, EU. done.
Qed.

Lemma copyin_loop_ok n : forall fuel root t us s srcva len dst,
  (n < fuel)%nat -> utable root t us (km_mem s) -> 0 <= srcva -> 0 <= len ->
  srcva mod PGSIZE + len <= Z.of_nat n * PGSIZE ->
  match ubytes us (km_mem s) srcva (Z.to_nat len) with
  | Some bs => while fuel (copyin_body root) (srcva, len, dst) s = Ok (0, dst ++ bs) s
  | None => exists bs, while fuel (copyin_body root) (srcva, len, dst) s = Ok (-1, dst ++ bs) s
  end.
Proof.
  induction n as [|n IH]; intros [|fuel] root t us s srcva len dst Hf Ht Hva Hlen Hn; try lia;
    (destruct (decide (len = 0)) as [->|Hne]; [simpl; by rewrite app_nil_r|]); cbn [while].
  - exfalso. pose proof (Z.mod_pos_bound srcva PGSIZE). unfold PGSIZE in *. lia.
  - set (c := chunk srcva len). destruct (chunk_bounds srcva len) as [Hc Hc']; [lia|].
    assert (El : Z.to_nat len = (Z.to_nat c + Z.to_nat (len - c))%nat) by (unfold c; lia).
    destruct (copyin_body_ok root t us s srcva len dst Ht Hva ltac:(lia)) as [(Hmax & bs & Hbs & Hb)|[Hbs Hb]].
    + krun Hb. fold c in Hbs, Hb |- *. rewrite El, ubytes_app, Hbs. simpl.
      destruct (decide (c = len)) as [->|Hcl].
      { rewrite Z.sub_diag. simpl. destruct fuel; [lia|]. simpl. by rewrite app_nil_r. }
      destruct (chunk_rest srcva len) as [Hnx Hal]; [unfold c in *; lia|].
      rewrite Z2Nat.id, <- Hnx by (unfold c; lia). fold c in Hnx |- *. rewrite Hnx.
      specialize (IH fuel root t us s (next_page srcva) (len - c) (dst ++ bs)).
      assert (Hnext : next_page srcva mod PGSIZE + (len - c) <= Z.of_nat n * PGSIZE).
      { rewrite Hal. unfold c, chunk in *. lia. }
      specialize (IH ltac:(lia) Ht ltac:(lia) ltac:(lia) Hnext).
      destruct (ubytes us (km_mem s) (next_page srcva) (Z.to_nat (len - c))) as [bs'|]; simpl.
      * by rewrite app_assoc.
      * destruct IH as [bs' IH]. exists (bs ++ bs'). by rewrite app_assoc.
    + krun Hb. replace (Z.to_nat len) with (S (Z.to_nat (len - 1))) by lia. simpl. rewrite Hbs. simpl.
      exists []. by rewrite app_nil_r.
Qed.

Lemma copy_fuel_enough va len :
  0 <= len -> exists n, (n < copy_fuel len)%nat /\ va mod PGSIZE + len <= Z.of_nat n * PGSIZE.
Proof.
  intros H. exists (2 + Z.to_nat (len / PGSIZE))%nat. unfold copy_fuel. split; [lia|].
  pose proof (Z.mod_pos_bound va PGSIZE). unfold PGSIZE in *. dlia.
Qed.

(** ** copyinstr *)

Lemma copyinstr_page_ok us m va pa perm n k :
  us !! (va / PGSIZE) = Some (pa, perm) -> has perm PTE_U = true ->
  va mod PGSIZE + Z.of_nat n <= PGSIZE ->
  let '(bs, got_null) := copyinstr_page m (pa + va mod PGSIZE) n in
  ustring us m va (n + k) =
  if got_null then Some bs else bs' ← ustring us m (va + Z.of_nat n) k; Some (bs ++ bs').
Proof.
  intros Hi Hu Hr.
  assert (H : forall d j, (j + d <= n)%nat ->
    let '(bs, got_null) := copyinstr_page m (pa + va mod PGSIZE + Z.of_nat j) d in
    ustring us m (va + Z.of_nat j) (d + k) =
    if got_null then Some bs
    else bs' ← ustring us m (va + Z.of_nat j + Z.of_nat d) k; Some (bs ++ bs')).
  { induction d as [|d IH]; intros j Hj; simpl.
    - rewrite Z.add_0_r. by destruct (ustring us m _ k).
    - rewrite (ubyte_page us m va _ pa perm) by (done || lia). simpl.
      destruct (byte_eqb_spec (ld8 m (pa + va mod PGSIZE + Z.of_nat j)) Byte.x00) as [->|_]; [done|].
      specialize (IH (S j) ltac:(lia)).
      replace (pa + va mod PGSIZE + Z.of_nat (S j)) with (pa + va mod PGSIZE + Z.of_nat j + 1) in IH by lia.
      replace (va + Z.of_nat (S j)) with (va + Z.of_nat j + 1) in IH by lia.
      destruct (copyinstr_page m _ d) as [bs g]. rewrite IH. destruct g; [done|]. simpl.
      replace (va + Z.of_nat j + 1 + Z.of_nat d) with (va + Z.of_nat j + Z.of_nat (S d)) by lia.
      by destruct (ustring us m (va + Z.of_nat j + Z.of_nat (S d)) k). }
  specialize (H n O). rewrite !Z.add_0_r in H. apply H. lia.
Qed.

Lemma copyinstr_body_ok root t us s srcva max dst :
  utable root t us (km_mem s) -> 0 <= srcva -> 0 < max ->
  let c := chunk srcva max in
  (exists bs g, copyinstr_body root (srcva, max, dst, false) s =
       Ok (inl (next_page srcva, max - c, dst ++ bs, g)) s /\
     ustring us (km_mem s) srcva (Z.to_nat max) =
     if g then Some bs
     else bs' ← ustring us (km_mem s) (srcva + c) (Z.to_nat (max - c)); Some (bs ++ bs')) \/
  (ustring us (km_mem s) srcva (Z.to_nat max) = None /\
   copyinstr_body root (srcva, max, dst, false) s = Ok (inr (-1, dst)) s).
Proof.
  intros Ht H0 Hmax c. unfold copyinstr_body. rewrite (proj2 (Z.ltb_lt _ _)) by done. cbn [negb andb].
  rewrite chunk_eq. fold c. destruct (PGROUNDDOWN_page srcva) as [Hpg Hoff]. rewrite Hoff.
  destruct (chunk_bounds srcva max Hmax) as [Hc Hc']. fold c in Hc, Hc'.
  krun (walkaddr_ok root t us s (PGROUNDDOWN srcva) Ht (PGROUNDDOWN_nonneg _ H0)). rewrite Hpg.
  assert (Hnone : ubyte us (km_mem s) srcva = None -> ustring us (km_mem s) srcva (Z.to_nat max) = None).
  { intros E. replace (Z.to_nat max) with (S (Z.to_nat (max - 1))) by lia. simpl. by rewrite E. }
  destruct (us !! (srcva / PGSIZE)) as [[pa perm]|] eqn:E.
  2: { right. split; [apply Hnone; unfold ubyte; by rewrite E|done]. }
  destruct (ut_page root t us (km_mem s) srcva pa perm Ht H0 E) as (Hlt & Hpa & _).
  destruct (has perm PTE_U) eqn:EU.
  - left. rewrite (proj2 (Z.eqb_neq _ _)) by done. rewrite bind_gets.
    pose proof (copyinstr_page_ok us (km_mem s) srcva pa perm (Z.to_nat c) (Z.to_nat (max - c)) E EU) as Hp.
    destruct (copyinstr_page _ _ _) as [bs g]. exists bs, g. split; [by rewrite next_page_eq|].
    replace (Z.to_nat max) with (Z.to_nat c + Z.to_nat (max - c))%nat by lia.
    rewrite Hp by lia. by rewrite Z2Nat.id by lia.
  - right. split; [apply Hnone; unfold ubyte; by rewrite E, EU|done].
Qed.

Lemma copyinstr_loop_ok n : forall fuel root t us s srcva max dst,
  (n < fuel)%nat -> utable root t us (km_mem s) -> 0 <= srcva -> 0 <= max ->
  srcva mod PGSIZE + max <= Z.of_nat n * PGSIZE ->
  match ustring us (km_mem s) srcva (Z.to_nat max) with
  | Some bs => while fuel (copyinstr_body root) (srcva, max, dst, false) s = Ok (0, dst ++ bs) s
  | None => exists bs, while fuel (copyinstr_body root) (srcva, max, dst, false) s = Ok (-1, dst ++ bs) s
  end.
Proof.
  induction n as [|n IH]; intros [|fuel] root t us s srcva max dst Hf Ht Hva Hmax Hn; try lia;
    (destruct (decide (max = 0)) as [->|Hne]; [simpl; exists []; by rewrite app_nil_r|]); cbn [while].
  - exfalso. pose proof (Z.mod_pos_bound srcva PGSIZE). unfold PGSIZE in *. lia.
  - set (c := chunk srcva max). destruct (chunk_bounds srcva max) as [Hc Hc']; [lia|]. fold c in Hc, Hc'.
    destruct (copyinstr_body_ok root t us s srcva max dst Ht Hva ltac:(lia)) as [(bs & g & Hb & Hs)|[Hs Hb]].
    + krun Hb. rewrite Hs. fold c. destruct g.
      { destruct fuel; [lia|]. done. }
      destruct (decide (c = max)) as [->|Hcl].
      { rewrite Z.sub_diag. simpl. destruct fuel; [lia|]. simpl. by exists bs. }
      destruct (chunk_rest srcva max) as [Hnx Hal]; [unfold c in *; lia|]. fold c in Hnx. rewrite Hnx.
      specialize (IH fuel root t us s (next_page srcva) (max - c) (dst ++ bs)).
      assert (Hnext : next_page srcva mod PGSIZE + (max - c) <= Z.of_nat n * PGSIZE).
      { rewrite Hal. unfold c, chunk in *. lia. }
      specialize (IH ltac:(lia) Ht ltac:(lia) ltac:(lia) Hnext).
      destruct (ustring us (km_mem s) (next_page srcva) (Z.to_nat (max - c))) as [bs'|]; simpl.
      * by rewrite app_assoc.
      * destruct IH as [bs' IH]. exists (bs ++ bs'). by rewrite app_assoc.
    + krun Hb. rewrite Hs. exists []. by rewrite app_nil_r.
Qed.

(** ** copyout *)

Lemma upages_inj us i j pa p p' :
  NoDup (upages us) -> us !! i = Some (pa, p) -> us !! j = Some (pa, p') -> i = j.
Proof.
  intros Hn Hi Hj. destruct (decide (i = j)) as [|Hne]; [done|exfalso].
  rewrite (upages_delete us i pa p Hi) in Hn. apply NoDup_cons in Hn as [Hn _].
  apply Hn, (upages_lookup _ j pa p'). by rewrite lookup_delete_ne.
Qed.

(** The user's memory after [bs] is written at [va]; nothing else changes. *)
Definition wrote (us : umap) (m m' : mem) (va : Z) (bs : list byte) : Prop :=
  (forall a, 0 <= a -> ubyte us m' a =
    if decide (va <= a < va + Z.of_nat (length bs)) then bs !! Z.to_nat (a - va) else ubyte us m a) /\
  same_outside (upages us) m m'.

Lemma wrote_nil us m va : wrote us m m va [].
Proof. split; [|apply same_outside_refl]. intros a _. by rewrite decide_False by (simpl; lia). Qed.

Lemma wrote_app us m m1 m2 va bs bs' :
  wrote us m m1 va bs -> wrote us m1 m2 (va + Z.of_nat (length bs)) bs' -> wrote us m m2 va (bs ++ bs').
Proof.
  intros [H1 S1] [H2 S2]. split; [|by eapply same_outside_trans].
  intros a Ha. rewrite length_app, H2, H1 by done. repeat case_decide; try lia; try done.
  - rewrite lookup_app_r by lia. f_equal. lia.
  - by rewrite lookup_app_l by lia.
Qed.

Lemma wrote_ubytes us m m' va bs : wrote us m m' va bs -> 0 <= va -> ubytes us m' va (length bs) = Some bs.
Proof.
  intros [H _] Hva.
  assert (G : forall k j, (j + k = length bs)%nat -> ubytes us m' (va + Z.of_nat j) k = Some (drop j bs)).
  { induction k as [|k IH]; intros j Hj; cbn [ubytes].
    - by rewrite drop_ge by lia.
    - rewrite H, decide_True by lia. replace (Z.to_nat (va + Z.of_nat j - va)) with j by lia.
      destruct (lookup_lt_is_Some_2 bs j) as [b Hb]; [lia|]. rewrite Hb. simpl.
      replace (va + Z.of_nat j + 1) with (va + Z.of_nat (S j)) by lia. rewrite IH by lia. simpl.
      by rewrite (drop_S _ _ _ Hb). }
  specialize (G (length bs) O ltac:(lia)). by rewrite Z.add_0_r in G.
Qed.

Lemma wrote_page us m va pa perm bs :
  NoDup (upages us) -> Forall (page_ok kend) (upages us) ->
  us !! (va / PGSIZE) = Some (pa, perm) -> has perm PTE_U = true ->
  va mod PGSIZE + Z.of_nat (length bs) <= PGSIZE ->
  wrote us m (st_bytes m (pa + va mod PGSIZE) bs) va bs.
Proof.
  intros Hnd Hok Hi Hu Hr. pose proof (Z.mod_pos_bound va PGSIZE ltac:(by unfold PGSIZE)) as Hmod.
  rewrite Forall_forall in Hok. split.
  - intros a Ha. case_decide as Hin.
    + replace a with (va + (a - va)) at 1 by lia.
      rewrite (ubyte_page us _ va (a - va) pa perm) by (done || lia).
      destruct (lookup_lt_is_Some_2 bs (Z.to_nat (a - va))) as [b Hb]; [lia|]. rewrite Hb. f_equal.
      replace (pa + va mod PGSIZE + (a - va)) with (pa + va mod PGSIZE + Z.of_nat (Z.to_nat (a - va))) by lia.
      by apply ld8_st_bytes_in.
    + unfold ubyte. destruct (us !! (a / PGSIZE)) as [[pa' perm']|] eqn:Ea; [|done].
      destruct (has perm' PTE_U); [|done]. f_equal. apply ld8_st_bytes_out.
      pose proof (Z.mod_pos_bound a PGSIZE ltac:(by unfold PGSIZE)) as Hmod'.
      destruct (decide (pa' = pa)) as [->|Hne].
      * assert (E : a / PGSIZE = va / PGSIZE) by (by eapply upages_inj).
        unfold PGSIZE in *. dlia.
      * destruct (page_ok_apart kend pa pa'); [by eapply Hok, upages_lookup..|congruence|lia|lia].
  - eapply same_but_outside; [|by eapply upages_lookup]. apply same_but_st_bytes; lia.
Qed.

Lemma utable_outside root t us m m' :
  utable root t us m -> NoDup (pt_pages t ++ upages us) -> same_outside (upages us) m m' ->
  Forall (page_ok kend) (upages us) -> utable root t us m'.
Proof.
  intros [Hwf Hso Hno] Hd Hs Hok. apply NoDup_app in Hd as (_ & Hd & _).
  destruct (pt_wf_frame kend (upages us) m m' root t) as [Hwf' Hl]; try done.
  split; [done|..].
  - intros va pa perm H0 E. rewrite Hl. by apply Hso.
  - intros va Hva E. rewrite Hl. by apply Hno.
Qed.

Lemma ut_pages_ok root t us m :
  utable root t us m -> (forall i e, us !! i = Some e -> 0 <= i) -> Forall (page_ok kend) (upages us).
Proof.
  intros Ht Hpos. apply Forall_forall. intros p (i & perm & Hi)%upages_elem.
  apply (ut_some _ _ _ _ Ht (i * PGSIZE) p perm); [|by rewrite page_div].
  specialize (Hpos _ _ Hi). unfold PGSIZE. lia.
Qed.

Lemma uwritable_page us va k :
  0 <= k -> va mod PGSIZE + k < PGSIZE -> uwritable us (va + k) = uwritable us va.
Proof. intros Hk Hr. unfold uwritable. by destruct (page_split va k Hk Hr) as [-> _]. Qed.

Lemma copyout_body_ok root t us s dstva src :
  utable root t us (km_mem s) -> NoDup (upages us) -> Forall (page_ok kend) (upages us) ->
  0 <= dstva -> src <> [] ->
  let c := Z.to_nat (chunk dstva (Z.of_nat (length src))) in
  if uwritable us dstva then
    exists m', copyout_body root (dstva, src) s =
        Ok (inl (next_page dstva, drop c src)) (set_km_mem m' s) /\
      wrote us (km_mem s) m' dstva (take c src) /\ dstva < MAXVA
  else copyout_body root (dstva, src) s = Ok (inr (-1)) s.
Proof.
  intros Ht Hnd Hok H0 Hsrc c. unfold copyout_body.
  assert (Hlen : 0 < Z.of_nat (length src)) by (destruct src; [done|simpl; lia]).
  rewrite (proj2 (Z.ltb_lt _ _)) by done. rewrite chunk_eq.
  destruct (PGROUNDDOWN_page dstva) as [Hpg Hoff]. rewrite Hoff. fold c.
  destruct (chunk_bounds dstva _ Hlen) as [Hc Hc'].
  pose proof (PGROUNDDOWN_nonneg _ H0) as Hr0. pose proof (PGROUNDDOWN_bounds dstva) as Hb.
  assert (Hround : PGROUNDDOWN dstva < MAXVA -> dstva < MAXVA).
  { pose proof (PGROUNDDOWN_aligned dstva). rewrite MAXVA_eq. unfold PGSIZE in *. intros. dlia. }
  unfold uwritable. destruct (Z.leb_spec MAXVA (PGROUNDDOWN dstva)) as [Hbig|Hlt].
  { destruct (us !! (dstva / PGSIZE)) as [[pa perm]|] eqn:E; [|done].
    destruct (ut_page root t us (km_mem s) dstva pa perm Ht H0 E). lia. }
  krun (walk_find kend kend_pos (PGROUNDDOWN dstva) root t s (ut_wf _ _ _ _ Ht) ltac:(lia)).
  unfold ldm.
  destruct (us !! (dstva / PGSIZE)) as [[pa perm]|] eqn:E.
  - rewrite <- Hpg in E. destruct (ut_some _ _ _ _ Ht _ pa perm Hr0 E) as (_ & Hp & Hl & El).
    destruct (mapped_valid kend kend_pos pa perm Hp Hl) as (HV & HPA & _).
    destruct (leaf_valid_addr (km_mem s) t (PGROUNDDOWN dstva)) as (p0 & Hp0 & Hld); [by rewrite El|].
    destruct (leaf_addr_nonzero kend kend_pos _ root t _ p0 (ut_wf _ _ _ _ Ht) Hp0) as [Ha Hnz].
    rewrite (proj2 (Z.eqb_neq _ _)) by done. rewrite bind_gets, Ha, <- Hld, El, HV, HPA.
    unfold PTE_U, PTE_W. rewrite !mapped_has_bit by (done || lia).
    fold PTE_U. fold PTE_W. rewrite Hpg in E.
    destruct (has perm PTE_U) eqn:EU, (has perm PTE_W) eqn:EW; try done. cbn [negb andb orb].
    eexists. split; [|split; [|lia]].
    + unfold upd_mem. rewrite bind_modify. by rewrite next_page_eq by lia.
    + eapply wrote_page; try done. rewrite length_take. lia.
  - rewrite <- Hpg in E. destruct (t !! leaf_path (PGROUNDDOWN dstva)) as [p0|] eqn:Ep0.
    + destruct (leaf_addr_nonzero kend kend_pos _ root t _ p0 (ut_wf _ _ _ _ Ht) Ep0) as [Ha Hnz].
      rewrite (proj2 (Z.eqb_neq _ _)) by done. rewrite bind_gets, Ha.
      assert (El : leaf (km_mem s) t (PGROUNDDOWN dstva) = ld64 (km_mem s) (pte_at p0 (PX 0 (PGROUNDDOWN dstva))))
        by (unfold leaf; by rewrite Ep0).
      rewrite <- El. destruct (ut_none _ _ _ _ Ht (PGROUNDDOWN dstva) ltac:(lia) E) as [-> | ->]; [done|].
      cbn [negb]. by rewrite orb_true_r.
    + unfold leaf_addr. by rewrite Ep0.
Qed.

Lemma copyout_loop_ok n : forall fuel root t us s dstva src,
  (n < fuel)%nat -> utable root t us (km_mem s) -> NoDup (pt_pages t ++ upages us) ->
  Forall (page_ok kend) (upages us) -> 0 <= dstva ->
  dstva mod PGSIZE + Z.of_nat (length src) <= Z.of_nat n * PGSIZE ->
  exists r m', while fuel (copyout_body root) (dstva, src) s = Ok r (set_km_mem m' s) /\
    (r = 0 /\ wrote us (km_mem s) m' dstva src /\
       (forall k, 0 <= k < Z.of_nat (length src) -> uwritable us (dstva + k) = true) \/
     r = -1 /\ exists k, (k < length src)%nat /\ uwritable us (dstva + Z.of_nat k) = false /\
       wrote us (km_mem s) m' dstva (take k src)).
Proof.
  induction n as [|n IH]; intros [|fuel] root t us s dstva src Hf Ht Hd Hok Hva Hn; try lia;
    (destruct src as [|b src0] eqn:Es; [exists 0, (km_mem s); split;
       [by destruct s|left; split; [done|split; [apply wrote_nil|simpl; lia]]]|]); cbn [while]; rewrite <- Es in *.
  { exfalso. pose proof (Z.mod_pos_bound dstva PGSIZE). subst src. unfold PGSIZE in *. simpl in Hn. lia. }
  assert (Hne : src <> []) by (by subst). set (len := Z.of_nat (length src)) in *.
  assert (Hlen : 0 < len) by (unfold len; subst src; simpl; lia).
  destruct (chunk_bounds dstva len Hlen) as [Hc Hc']. set (c := chunk dstva len) in *.
  assert (Hnd : NoDup (upages us)) by (by apply NoDup_app in Hd as (_ & _ & ?)).
  pose proof (copyout_body_ok root t us s dstva src Ht Hnd Hok Hva Hne) as Hb. cbv zeta in Hb.
  fold len in Hb. fold c in Hb. destruct (uwritable us dstva) eqn:Ew.
  2: { krun Hb. exists (-1), (km_mem s). split; [by destruct s|]. right. split; [done|]. exists O.
       rewrite Z.add_0_r. split; [lia|]. split; [done|apply wrote_nil]. }
  destruct Hb as (m1 & Hb & Hw & Hmax). krun Hb.
  assert (Ht1 : utable root t us m1) by (eapply utable_outside; try done; apply Hw).
  assert (Ewc : forall k, 0 <= k < c -> uwritable us (dstva + k) = true)
    by (intros k Hk; by rewrite uwritable_page by lia).
  destruct (decide (c = len)) as [Ecl|Hcl].
  - rewrite drop_ge by lia. rewrite take_ge in Hw by lia. destruct fuel; [lia|].
    exists 0, m1. split; [done|]. left. split; [done|]. split; [done|]. by rewrite <- Ecl.
  - destruct (chunk_rest dstva len) as [Hnx Hal]; [lia|]. fold c in Hnx.
    destruct (IH fuel root t us (set_km_mem m1 s) (next_page dstva) (drop (Z.to_nat c) src))
      as (r & m' & Hwh & Hres); [lia|done|done|done|lia| |].
    { rewrite Hal, length_drop. unfold c, chunk in *. lia. }
    exists r, m'. split; [done|]. simpl in Hres. rewrite length_drop in Hres.
    rewrite <- Hnx in Hres.
    assert (Elen : Z.of_nat (length (take (Z.to_nat c) src)) = c) by (rewrite length_take; lia).
    assert (Happ : forall bs, wrote us m1 m' (dstva + c) bs ->
      wrote us (km_mem s) m' dstva (take (Z.to_nat c) src ++ bs)).
    { intros bs Hbs. eapply wrote_app; [done|]. by rewrite Elen. }
    destruct Hres as [(-> & Hw2 & Hall)|(-> & k & Hk & Ewk & Hw2)]; [left|right].
    + split; [done|]. split; [apply Happ in Hw2; by rewrite take_drop in Hw2|].
      intros k Hk. destruct (decide (k < c)); [apply Ewc; lia|].
      replace (dstva + k) with (dstva + c + (k - c)) by lia. apply Hall. lia.
    + split; [done|]. exists (Z.to_nat c + k)%nat. split; [lia|].
      replace (dstva + Z.of_nat (Z.to_nat c + k)) with (dstva + c + Z.of_nat k) by lia.
      split; [done|]. rewrite <- take_take_drop. by apply Happ.
Qed.

End UserCopy.

(** ** Properties *)

Lemma uspace_utable kend root t us l s :
  uspace kend (2 ^ 26) root t us l s -> utable kend root t us (km_mem s).
Proof.
  intros Hu. assert (Hpg : forall va, 0 <= va < MAXVA -> leaf (km_mem s) t va = leaf (km_mem s) t (va / PGSIZE * PGSIZE)).
  { intros va Hva. apply leaf_page; [done| |by rewrite page_div]. rewrite MAXVA_eq in *. unfold PGSIZE. dlia. }
  split.
  - apply Hu.
  - intros va pa perm H0 E. destruct (us_dom _ _ _ _ _ _ _ Hu _ _ _ E) as (Hr & Hp & Hl).
    assert (Hva : va < MAXVA) by (rewrite MAXVA_eq; unfold PGSIZE in Hr; dlia).
    split; [done|]. split; [done|]. split; [done|]. rewrite Hpg by done.
    by apply (us_leaf _ _ _ _ _ _ _ Hu).
  - intros va Hva E. left. rewrite Hpg by done. apply (us_none _ _ _ _ _ _ _ Hu); [|done].
    rewrite MAXVA_eq in Hva. unfold PGSIZE. dlia.
Qed.

Lemma uspace_pages_ok kend top root t us l s :
  uspace kend top root t us l s -> Forall (page_ok kend) (upages us) /\ NoDup (pt_pages t ++ upages us).
Proof.
  intros Hu. pose proof (uspace_all_ok _ _ _ _ _ _ _ Hu) as H.
  rewrite !Forall_app in H. split; [tauto|].
  pose proof (us_distinct _ _ _ _ _ _ _ Hu) as Hd. rewrite app_assoc in Hd.
  by apply NoDup_app in Hd as (Hd & _).
Qed.

Lemma copyin_ok (kend root srcva len : Z) (t : ptree) (us : umap) (s : kmem)
    (Hend : 0 < kend) (Ht : utable kend root t us (km_mem s)) (Hva : 0 <= srcva) (Hlen : 0 <= len) :
  match ubytes us (km_mem s) srcva (Z.to_nat len) with
  | Some bs => copyin root srcva len s = Ok (0, bs) s
  | None => exists bs, copyin root srcva len s = Ok (-1, bs) s
  end.
Proof.
  destruct (copy_fuel_enough srcva len Hlen) as (n & Hf & Hn).
  exact (copyin_loop_ok kend Hend n (copy_fuel len) root t us s srcva len [] Hf Ht Hva Hlen Hn).
Qed.

(** [copyin] returns 0 with the [len] bytes the user sees at [srcva], and -1
    exactly when one of them is not readable by the user; it never changes
    memory. *)
Theorem copyin_correct (kend root srcva len : Z) (t : ptree) (us : umap) (s : kmem)
    (Hend : 0 < kend) (Ht : utable kend root t us (km_mem s)) (Hva : 0 <= srcva) (Hlen : 0 <= len) :
  match ubytes us (km_mem s) srcva (Z.to_nat len) with
  | Some bs => copyin root srcva len s = Ok (0, bs) s
  | None => exists bs, copyin root srcva len s = Ok (-1, bs) s
  end.
Proof. exact (copyin_ok kend root srcva len t us s Hend Ht Hva Hlen). Qed.

Lemma demo_utable :
  exists us t s, demo_grown kmem_demo = Ok (2 * PGSIZE) s /\
    utable small_end (PHYSTOP - PGSIZE) t us (km_mem s) /\
    NoDup (pt_pages t ++ upages us) /\ Forall (page_ok small_end) (upages us).
Proof.
  destruct demo_space as (us & t & l & s & H1 & H2 & _). exists us, t, s. split; [done|].
  split; [by eapply uspace_utable|]. destruct (uspace_pages_ok _ _ _ _ _ _ _ H2). by split.
Qed.

(** The first byte of a fresh address space. *)
Lemma demo_first us m :
  full (npages (2 * PGSIZE)) us -> fresh_pages (Z.lor (Z.lor PTE_R PTE_U) PTE_W) ∅ us m ->
  (forall m', exists b, ubyte us m' 0 = Some b) /\ uwritable us 0 = true.
Proof.
  intros Hf Hp. destruct (proj2 (Hf 0) ltac:(done)) as [[pa perm] E0].
  destruct (Hp 0 pa perm (lookup_empty 0) E0) as [Hperm _]. unfold ubyte, uwritable. change (0 / PGSIZE) with 0.
  rewrite E0, Hperm. split; [intros m'; eexists|]; reflexivity.
Qed.

Lemma copyin_correct_witness :
  exists s r, demo_grown kmem_demo = Ok (2 * PGSIZE) s /\
    copyin (PHYSTOP - PGSIZE) 4090 10 s = Ok r s.
Proof.
  destruct demo_utable as (us & t & s & H1 & H2 & _).
  pose proof (copyin_correct small_end (PHYSTOP - PGSIZE) 4090 10 t us s small_end_pos H2
    ltac:(clear; done) ltac:(clear; done)) as H.
  destruct (ubytes _ _ _ _) as [bs|].
  - exists s, (0, bs). split; [exact H1|exact H].
  - destruct H as [bs H]. exists s, (-1, bs). split; [exact H1|exact H].
Defined.

Lemma copyinstr_ok (kend root srcva max : Z) (t : ptree) (us : umap) (s : kmem)
    (Hend : 0 < kend) (Ht : utable kend root t us (km_mem s)) (Hva : 0 <= srcva) (Hmax : 0 <= max) :
  match ustring us (km_mem s) srcva (Z.to_nat max) with
  | Some bs => copyinstr root srcva max s = Ok (0, bs) s
  | None => exists bs, copyinstr root srcva max s = Ok (-1, bs) s
  end.
Proof.
  destruct (copy_fuel_enough srcva max Hmax) as (n & Hf & Hn).
  exact (copyinstr_loop_ok kend Hend n (copy_fuel max) root t us s srcva max [] Hf Ht Hva Hmax Hn).
Qed.

(** [copyinstr] returns 0 with the string at [srcva], terminator included,
    when it ends within [max] bytes that the user can read, and -1 otherwise;
    it never changes memory. *)
Theorem copyinstr_correct (kend root srcva max : Z) (t : ptree) (us : umap) (s : kmem)
    (Hend : 0 < kend) (Ht : utable kend root t us (km_mem s)) (Hva : 0 <= srcva) (Hmax : 0 <= max) :
  match ustring us (km_mem s) srcva (Z.to_nat max) with
  | Some bs => copyinstr root srcva max s = Ok (0, bs) s
  | None => exists bs, copyinstr root srcva max s = Ok (-1, bs) s
  end.
Proof. exact (copyinstr_ok kend root srcva max t us s Hend Ht Hva Hmax). Qed.

Lemma copyinstr_correct_witness :
  exists s r, demo_grown kmem_demo = Ok (2 * PGSIZE) s /\
    copyinstr (PHYSTOP - PGSIZE) 8190 128 s = Ok r s.
Proof.
  destruct demo_utable as (us & t & s & H1 & H2 & _).
  pose proof (copyinstr_correct small_end (PHYSTOP - PGSIZE) 8190 128 t us s small_end_pos H2
    ltac:(clear; done) ltac:(clear; done)) as H.
  destruct (ustring _ _ _ _) as [bs|].
  - exists s, (0, bs). split; [exact H1|exact H].
  - destruct H as [bs H]. exists s, (-1, bs). split; [exact H1|exact H].
Defined.

Lemma copyout_ok (kend root dstva : Z) (src : list byte) (t : ptree) (us : umap) (s : kmem)
    (Hend : 0 < kend) (Ht : utable kend root t us (km_mem s)) (Hd : NoDup (pt_pages t ++ upages us))
    (Hok : Forall (page_ok kend) (upages us)) (Hva : 0 <= dstva) :
  exists r m', copyout root dstva src s = Ok r (set_km_mem m' s) /\ utable kend root t us m' /\
    (r = 0 /\ wrote us (km_mem s) m' dstva src /\
       (forall k, 0 <= k < Z.of_nat (length src) -> uwritable us (dstva + k) = true) \/
     r = -1 /\ exists k, (k < length src)%nat /\ uwritable us (dstva + Z.of_nat k) = false /\
       wrote us (km_mem s) m' dstva (take k src)).
Proof.
  destruct (copy_fuel_enough dstva (Z.of_nat (length src))) as (n & Hf & Hn); [lia|].
  destruct (copyout_loop_ok kend Hend n _ root t us s dstva src Hf Ht Hd Hok Hva Hn) as (r & m' & Hw & Hr).
  exists r, m'. split; [done|]. split; [|done].
  eapply utable_outside; try done. by destruct Hr as [(_ & [_ ?] & _)|(_ & k & _ & _ & [_ ?])].
Qed.

(** [copyout] writes the bytes of [src] at [dstva] and nowhere else in the
    user's memory, and returns 0, when every byte is in a page the user may
    write; otherwise it returns -1 after the bytes before the first page that
    is not.  Only pages of the user change, and the page table stays. *)
Theorem copyout_correct (kend root dstva : Z) (src : list byte) (t : ptree) (us : umap) (s : kmem)
    (Hend : 0 < kend) (Ht : utable kend root t us (km_mem s)) (Hd : NoDup (pt_pages t ++ upages us))
    (Hok : Forall (page_ok kend) (upages us)) (Hva : 0 <= dstva) :
  exists r m', copyout root dstva src s = Ok r (set_km_mem m' s) /\ utable kend root t us m' /\
    (r = 0 /\ wrote us (km_mem s) m' dstva src /\
       (forall k, 0 <= k < Z.of_nat (length src) -> uwritable us (dstva + k) = true) \/
     r = -1 /\ exists k, (k < length src)%nat /\ uwritable us (dstva + Z.of_nat k) = false /\
       wrote us (km_mem s) m' dstva (take k src)).
Proof. exact (copyout_ok kend root dstva src t us s Hend Ht Hd Hok Hva). Qed.

Lemma copyout_correct_witness :
  exists s r s', demo_grown kmem_demo = Ok (2 * PGSIZE) s /\
    copyout (PHYSTOP - PGSIZE) 4094 [Byte.x68; Byte.x69; Byte.x21; Byte.x00] s = Ok r s'.
Proof.
  destruct demo_utable as (us & t & s & H1 & H2 & H3 & H4).
  destruct (copyout_correct small_end (PHYSTOP - PGSIZE) 4094 [Byte.x68; Byte.x69; Byte.x21; Byte.x00]
    t us s small_end_pos H2 H3 H4 ltac:(clear; done)) as (r & m' & H5 & _).
  exists s, r, (set_km_mem m' s). split; [exact H1|exact H5].
Defined.

(** C34: what [copyout] has stored at a user address, [copyin] reads back. *)
Theorem copyout_copyin_roundtrip (kend root va : Z) (bs : list byte) (t : ptree) (us : umap) (s s' : kmem)
    (Hend : 0 < kend) (Ht : utable kend root t us (km_mem s)) (Hd : NoDup (pt_pages t ++ upages us))
    (Hok : Forall (page_ok kend) (upages us)) (Hva : 0 <= va)
    (Hout : copyout root va bs s = Ok 0 s') :
  copyin root va (Z.of_nat (length bs)) s' = Ok (0, bs) s'.
Proof.
  destruct (copy_fuel_enough va (Z.of_nat (length bs))) as (n & Hf & Hn); [lia|].
  destruct (copyout_loop_ok kend Hend n _ root t us s va bs Hf Ht Hd Hok Hva Hn) as (r & m' & Hw & Hr).
  unfold copyout in Hout. rewrite Hw in Hout. injection Hout as -> <-.
  destruct Hr as [(_ & Hwr & _)|[? _]]; [|done].
  assert (Ht' : utable kend root t us m') by (eapply utable_outside; try done; apply Hwr).
  pose proof (copyin_loop_ok kend Hend n _ root t us (set_km_mem m' s) va (Z.of_nat (length bs)) []
    Hf Ht' Hva ltac:(lia) Hn) as Hin.
  simpl km_mem in Hin. rewrite Nat2Z.id, (wrote_ubytes _ _ _ _ _ Hwr Hva) in Hin. exact Hin.
Qed.

Definition demo_msg : list byte := [Byte.x68; Byte.x69; Byte.x21; Byte.x00].

Lemma demo_out_result :
  match (demo_grown ;; copyout (PHYSTOP - PGSIZE) 4094 demo_msg) kmem_demo with
  | Ok r _ => r =? 0 | _ => false
  end = true.
Proof. vm_compute. reflexivity. Qed.

Lemma copyout_copyin_roundtrip_witness :
  exists s s', demo_grown kmem_demo = Ok (2 * PGSIZE) s /\
    copyout (PHYSTOP - PGSIZE) 4094 demo_msg s = Ok 0 s' /\
    copyin (PHYSTOP - PGSIZE) 4094 4 s' = Ok (0, demo_msg) s'.
Proof.
  destruct demo_utable as (us & t & s & H1 & H2 & H3 & H4).
  pose proof demo_out_result as Hr. unfold bind in Hr. rewrite H1 in Hr. cbn [obind] in Hr.
  destruct (copyout (PHYSTOP - PGSIZE) 4094 demo_msg s) as [r s'| | | |] eqn:Hout; try discriminate Hr.
  apply Z.eqb_eq in Hr. subst r. exists s, s'. split; [exact H1|]. split; [exact Hout|].
  exact (copyout_copyin_roundtrip small_end (PHYSTOP - PGSIZE) 4094 demo_msg t us s s' small_end_pos
    H2 H3 H4 ltac:(clear; done) Hout).
Defined.
