(* ===== verification/Sleeplock.v ===== *)
(** * [kernel/sleeplock.c]: locks held across sleeps

    A sleep-lock is a flag and a pid under a spinlock of its own.  [rounds]
    bounds how often [acquiresleep] may be woken to find the lock taken again.
    [calm] describes the hart between two operations: the locks of the kernel
    are free, and a process runs. *)

From S2P Require Import Prelude Riscv Sys Spinlock Proc.

(** [struct sleeplock]; its spinlock [lk] is the lock [slk_spin]. *)
Record sleeplock := Sleeplock {
  sl_locked : bool;
  sl_name : string;
  sl_pid : Z
}.

Definition sleeplock_zero : sleeplock := Sleeplock false "" 0.

(** The sleep-locks of the kernel: those of the buffers and of the inodes. *)
Inductive slid := SBuf (i : nat) | SInode (i : nat).

#[export] Instance slid_eq_dec : EqDecision slid.
Proof. solve_decision. Defined.

#[export] Instance slid_countable : Countable slid.
Proof.
  apply (inj_countable' (fun l => match l with SBuf i => inl i | SInode i => inr i end)
    (fun c => match c with inl i => SBuf i | inr i => SInode i end)).
  by intros [].
Defined.

Definition slk_spin (l : slid) : lockid :=
  match l with SBuf i => L_buf i | SInode i => L_inode i end.

Definition slk_chan (l : slid) : chan :=
  match l with SBuf i => Ch_buflock i | SInode i => Ch_inodelock i end.

Record slk := Slk {
  sk_sys : sys;
  sk_locks : gmap slid sleeplock
}.

Definition set_sk_sys (x : sys) (s : slk) : slk := Slk x (sk_locks s).

Definition set_sk_locks (x : gmap slid sleeplock) (s : slk) : slk := Slk (sk_sys s) x.

Definition sk_sysL : lens slk sys := Lens sk_sys set_sk_sys.

#[export] Instance sk_sysL_laws : LensLaws sk_sysL.
Proof. by split; intros; try destruct s. Qed.

Definition slk_of (s : slk) (l : slid) : sleeplock := default sleeplock_zero (sk_locks s !! l).

Definition upd_slk (l : slid) (f : sleeplock -> sleeplock) : M slk unit :=
  modify (fun s => set_sk_locks (<[l := f (slk_of s l)]> (sk_locks s)) s).

(** [myproc()->pid] *)
Definition my_pid : M slk Z :=
  let! p := zoom sk_sysL myproc in
  let! i := zoom sk_sysL (deref p) in
  gets (fun s => p_pid (proc_of (sk_sys s) i)).

Definition initsleeplock (l : slid) (name : string) : M slk unit :=
  zoom sk_sysL (initlock (slk_spin l) "sleep lock") ;;
  upd_slk l (fun k => Sleeplock (sl_locked k) name (sl_pid k)) ;;
  upd_slk l (fun k => Sleeplock false (sl_name k) (sl_pid k)) ;;
  upd_slk l (fun k => Sleeplock (sl_locked k) (sl_name k) 0).

Section Sleeplock.
Variable rounds : nat.

(** [while (lk->locked) sleep(lk, &lk->lk);] *)
Definition acquiresleep_wait (l : slid) : M slk unit :=
  while (S rounds) (fun _ =>
    let! k := gets (fun s => slk_of s l) in
    if sl_locked k then zoom sk_sysL (sleep (slk_chan l) (slk_spin l)) ;; ret (inl tt)
    else ret (inr tt)) tt.

Definition acquiresleep (l : slid) : M slk unit :=
  zoom sk_sysL (acquire (slk_spin l)) ;;
  acquiresleep_wait l ;;
  upd_slk l (fun k => Sleeplock true (sl_name k) (sl_pid k)) ;;
  let! pid := my_pid in
  upd_slk l (fun k => Sleeplock (sl_locked k) (sl_name k) pid) ;;
  zoom sk_sysL (release (slk_spin l)).

End Sleeplock.

Definition releasesleep (l : slid) : M slk unit :=
  zoom sk_sysL (acquire (slk_spin l)) ;;
  upd_slk l (fun k => Sleeplock false (sl_name k) (sl_pid k)) ;;
  upd_slk l (fun k => Sleeplock (sl_locked k) (sl_name k) 0) ;;
  zoom sk_sysL (wakeup (slk_chan l)) ;;
  zoom sk_sysL (release (slk_spin l)).

Definition holdingsleep (l : slid) : M slk bool :=
  zoom sk_sysL (acquire (slk_spin l)) ;;
  let! k := gets (fun s => slk_of s l) in
  let! r := (if sl_locked k then
    let! pid := my_pid in
    let! k := gets (fun s => slk_of s l) in
    ret (sl_pid k =? pid) else ret false) in
  zoom sk_sysL (release (slk_spin l)) ;;
  ret r.

(** ** The hart between operations *)

(** The locks that [main] initialises. *)
Definition static_lock (l : lockid) : Prop :=
  match l with
  | L_proc i => (i < NPROC)%nat
  | L_buf i => (i < NBUF)%nat
  | L_inode i => (i < NINODE)%nat
  | L_pipe _ => False
  | _ => True
  end.

(** Process [me] runs with no lock of the kernel held. *)
Record calm (me : nat) (s : sys) : Prop := {
  ca_settled : settled s;
  ca_idle : forall l, static_lock l -> lock_idle s l;
  ca_procs : length (sprocs s) = NPROC;
  ca_me : c_proc (scpu s) = Some me;
  ca_me_proc : (me < NPROC)%nat;
  ca_noff : c_noff (scpu s) = 0;
  ca_chan : p_chan (proc_of s me) = None
}.

(** The same process but for its run state. *)
Definition only_woken (p p' : proc) : Prop := p' = set_p_state (p_state p') p.

#[export] Instance only_woken_preorder : PreOrder only_woken.
Proof.
  split.
  - by intros [].
  - intros p1 p2 p3 H12 H23. unfold only_woken in *. rewrite H23 at 1. by rewrite H12.
Qed.

Lemma only_woken_wake ch p : only_woken p (wake ch p).
Proof. unfold wake. case_decide; [done|reflexivity]. Qed.

(** Only the run states of sleeping processes differ. *)
Record woken (s s' : sys) : Prop := {
  wo_cpu : scpu s' = scpu s;
  wo_locks : slocks s' = slocks s;
  wo_procs : length (sprocs s') = length (sprocs s);
  wo_rest : forall i, only_woken (proc_of s i) (proc_of s' i)
}.

#[export] Instance woken_preorder : PreOrder woken.
Proof.
  split.
  - intros s. by split; [..|intros i].
  - intros s1 s2 s3 [A1 A2 A3 A4] [B1 B2 B3 B4]. split; [congruence..|].
    intros i. etrans; [apply A4|apply B4].
Qed.

Lemma wo_pid s s' i : woken s s' -> p_pid (proc_of s' i) = p_pid (proc_of s i).
Proof. intros H. by rewrite (wo_rest _ _ H i). Qed.

Lemma wo_killed s s' i : woken s s' -> p_killed (proc_of s' i) = p_killed (proc_of s i).
Proof. intros H. by rewrite (wo_rest _ _ H i). Qed.

Lemma wo_pagetable s s' i : woken s s' -> p_pagetable (proc_of s' i) = p_pagetable (proc_of s i).
Proof. intros H. by rewrite (wo_rest _ _ H i). Qed.

Lemma calm_woken me s s' : calm me s -> woken s s' -> calm me s'.
Proof.
  intros [C1 C2 C3 C4 C5 C6 C7] [W1 W2 W3 W4]. split; [| |congruence..|].
  - unfold settled. by rewrite W1.
  - intros l Hl. unfold lock_idle. rewrite W2. by apply C2.
  - by rewrite (W4 me).
Qed.

Lemma calm_initlock me l name s :
  calm me s -> calm me (set_slocks (<[l := Spinlock false name None]> (slocks s)) s).
Proof.
  intros [C1 C2 C3 C4 C5 C6 C7]. split; [done| |done..]. intros l' Hl. unfold lock_idle. simpl.
  destruct (decide (l = l')) as [->|Hne]; [exists name; apply lookup_insert_eq|].
  rewrite lookup_insert_ne by done. by apply C2.
Qed.

(** A [wakeup] in a critical section of a lock other than a process's. *)
Lemma wakeup_in_critical me ch l s :
  calm me s -> static_lock l -> (forall i, l <> L_proc i) ->
  exists ps, wakeup ch (locked l s) = Ok tt (set_sprocs ps (locked l s)) /\ length ps = length (sprocs s) /\
    forall i, only_woken (sprocs s !!! i) (ps !!! i).
Proof.
  intros [C1 C2 C3 C4 C5 _ _] Hl Hne. rewrite wakeup_ok.
  - eexists. split; [reflexivity|]. split; [by rewrite length_imap|]. intros i.
    rewrite !list_lookup_total_alt, list_lookup_imap. change (sprocs (locked l s)) with (sprocs s).
    destruct (sprocs s !! i) as [p|]; [|reflexivity]. simpl. case_decide; [reflexivity|apply only_woken_wake].
  - apply settled_nested; [apply cpu_push_wf, C1|]. destruct C1 as [[? _] _]. simpl. lia.
  - intros i Hi. destruct (C2 (L_proc i) Hi) as [nm Hk]. exists nm. simpl.
    by rewrite lookup_insert_ne by apply Hne.
  - done.
Qed.

(** Harts that can run [wakeup]. *)
Record wakeable (s : sys) : Prop := {
  wk_settled : settled s;
  wk_idle : procs_idle s;
  wk_len : length (sprocs s) = NPROC
}.

Lemma wakeup_woken ch s : wakeable s -> exists s', wakeup ch s = Ok tt s' /\ woken s s'.
Proof.
  intros [H1 H2 H3]. rewrite wakeup_ok by done. eexists. split; [done|]. split; [done|done|by apply length_imap|].
  intros i. unfold proc_of. simpl. rewrite !list_lookup_total_alt, list_lookup_imap.
  destruct (sprocs s !! i) as [p|]; [|reflexivity]. simpl. case_decide; [reflexivity|apply only_woken_wake].
Qed.

Lemma wakeable_woken s s' : wakeable s -> woken s s' -> wakeable s'.
Proof.
  intros [H1 H2 H3] [W1 W2 W3 W4]. split; [unfold settled; by rewrite W1| |congruence].
  intros i Hi. unfold lock_idle. rewrite W2. by apply H2.
Qed.

Lemma wakeable_locked l s : wakeable s -> (forall i, l <> L_proc i) -> wakeable (locked l s).
Proof.
  intros [H1 H2 H3] Hl. split; [| |done].
  - apply settled_nested; [apply cpu_push_wf, H1|]. destruct H1 as [[? _] _]. simpl. lia.
  - intros i Hi. unfold lock_idle. simpl. rewrite lookup_insert_ne by done. by apply H2.
Qed.

(** A critical section in which processes are woken up. *)
Lemma woken_locked l s t : woken (locked l s) t -> exists y, t = locked l y /\ woken s y.
Proof.
  intros [W1 W2 W3 W4]. exists (Sys (scpu s) (slocks s) (sprocs t) (snextpid t) (sinitproc t)). split.
  - destruct t. unfold locked, set_scpu, set_slocks, lock_of in *. simpl in *. by subst.
  - by split.
Qed.

Lemma wakeable_calm me s : calm me s -> wakeable s.
Proof. intros [C1 C2 C3 C4 C5 _ _]. split; [done| |done]. intros i Hi. by apply C2. Qed.

Lemma woken_settled x y : woken x y -> settled x -> settled y.
Proof. intros [W _ _ _]. unfold settled. by rewrite W. Qed.

Lemma calm_locked_settled me l s : calm me s -> settled (locked l s).
Proof.
  intros [C1 _ _ _ _ _ _]. apply settled_nested; [apply cpu_push_wf, C1|].
  destruct C1 as [[? _] _]. simpl. lia.
Qed.

Lemma my_pid_ok me s :
  settled (sk_sys s) -> c_proc (scpu (sk_sys s)) = Some me ->
  my_pid s = Ok (p_pid (proc_of (sk_sys s) me)) s.
Proof.
  intros Hs Hp. unfold my_pid.
  rewrite (bind_Ok _ _ _ (Some me) s).
  - rewrite (bind_Ok _ _ _ me s); [done|]. unfold zoom. simpl. by destruct s.
  - unfold zoom. simpl. rewrite myproc_settled, Hp by done. simpl. by destruct s.
Qed.

Lemma slk_static_ne l i : slk_spin l <> L_proc i.
Proof. by destruct l. Qed.

(** The lock after the process with pid [pid] has taken it. *)
Definition taken (pid : Z) (k : sleeplock) : sleeplock := Sleeplock true (sl_name k) pid.

Definition freed (k : sleeplock) : sleeplock := Sleeplock false (sl_name k) 0.

Definition set_slk (l : slid) (k : sleeplock) (s : slk) : slk :=
  set_sk_locks (<[l := k]> (sk_locks s)) s.

Lemma slk_of_set l k s : slk_of (set_slk l k s) l = k.
Proof. unfold slk_of, set_slk. simpl. by rewrite lookup_insert_eq. Qed.

Lemma slk_of_set_ne l l' k s : l <> l' -> slk_of (set_slk l k s) l' = slk_of s l'.
Proof. intros H. unfold slk_of, set_slk. simpl. by rewrite lookup_insert_ne. Qed.

Lemma acquiresleep_ok rounds me l s :
  calm me (sk_sys s) -> static_lock (slk_spin l) -> sl_locked (slk_of s l) = false ->
  acquiresleep rounds l s =
  Ok tt (set_slk l (taken (p_pid (proc_of (sk_sys s) me)) (slk_of s l)) s).
Proof.
  intros Hc Hl Hk. unfold acquiresleep. pose proof (ca_idle _ _ Hc _ Hl) as Hidle.
  krun (zoom_acquire sk_sysL (slk_spin l) s Hidle). set (s1 := lset _ _ s).
  rewrite (bind_Ok _ _ _ tt s1).
  2: { unfold acquiresleep_wait. cbn [while]. rewrite (bind_Ok _ _ _ (inr tt) s1); [done|].
       rewrite bind_gets. change (slk_of s1 l) with (slk_of s l). by rewrite Hk. }
  unfold upd_slk at 1. rewrite bind_modify. set (s2 := set_sk_locks _ s1).
  rewrite (bind_Ok _ _ _ (p_pid (proc_of (sk_sys s) me)) s2).
  2: { rewrite (my_pid_ok me); [done|by apply (calm_locked_settled me)|apply Hc]. }
  unfold upd_slk. rewrite bind_modify.
  rewrite (zoom_release sk_sysL (slk_spin l) (sk_sys s)); [|apply Hc|done|done].
  f_equal. unfold set_slk, set_sk_locks, s2, s1, taken, slk_of; simpl.
  rewrite lookup_insert_eq, insert_insert_eq. by destruct s.
Qed.

Lemma releasesleep_ok me l s :
  calm me (sk_sys s) -> static_lock (slk_spin l) ->
  exists y, releasesleep l s = Ok tt (Slk y (<[l := freed (slk_of s l)]> (sk_locks s))) /\
    woken (sk_sys s) y.
Proof.
  intros Hc Hl. unfold releasesleep. pose proof (ca_idle _ _ Hc _ Hl) as Hidle.
  krun (zoom_acquire sk_sysL (slk_spin l) s Hidle). unfold upd_slk. rewrite !bind_modify.
  set (s1 := set_sk_locks _ _).
  destruct (wakeup_in_critical me (slk_chan l) (slk_spin l) (sk_sys s) Hc Hl (slk_static_ne l))
    as (ps & Hw & Hlen & Hpid).
  rewrite (bind_Ok _ _ _ tt (set_sk_sys (set_sprocs ps (locked (slk_spin l) (sk_sys s))) s1)).
  2: { unfold zoom. change (lget sk_sysL s1) with (locked (slk_spin l) (sk_sys s)). by rewrite Hw. }
  unfold zoom. simpl. rewrite (release_settled (slk_spin l) (sk_sys s)); [|apply Hc|done|done|done].
  eexists. split.
  - simpl. unfold set_sk_sys. simpl. f_equal. f_equal. unfold s1, slk_of; simpl.
    rewrite lookup_insert_eq, insert_insert_eq. done.
  - by split.
Qed.

Lemma holdingsleep_ok me l s :
  calm me (sk_sys s) -> static_lock (slk_spin l) ->
  holdingsleep l s =
  Ok (sl_locked (slk_of s l) && (sl_pid (slk_of s l) =? p_pid (proc_of (sk_sys s) me))) s.
Proof.
  intros Hc Hl. unfold holdingsleep. pose proof (ca_idle _ _ Hc _ Hl) as Hidle.
  krun (zoom_acquire sk_sysL (slk_spin l) s Hidle). set (s1 := lset _ _ s).
  rewrite bind_gets. change (slk_of s1 l) with (slk_of s l).
  rewrite (bind_Ok _ _ _ (sl_locked (slk_of s l) && (sl_pid (slk_of s l) =? p_pid (proc_of (sk_sys s) me))) s1).
  - krun (zoom_release sk_sysL (slk_spin l) (sk_sys s) s1 (ca_settled _ _ Hc) Hidle eq_refl).
    by destruct s.
  - destruct (sl_locked (slk_of s l)); [|done].
    rewrite (bind_Ok _ _ _ (p_pid (proc_of (sk_sys s) me)) s1); [done|].
    rewrite (my_pid_ok me); [done|by apply (calm_locked_settled me)|apply Hc].
Qed.

(** Sleeping processes at most were woken, and the locks of the inodes are as
    they were. *)
Record undisturbed (s s' : slk) : Prop := {
  qu_sys : woken (sk_sys s) (sk_sys s');
  qu_inode : forall i, slk_of s' (SInode i) = slk_of s (SInode i)
}.

#[export] Instance undisturbed_preorder : PreOrder undisturbed.
Proof.
  split.
  - intros s. by split.
  - intros s1 s2 s3 [H1 H2] [H3 H4]. split; [by etrans|]. intros i. by rewrite H4.
Qed.

Lemma undisturbed_buf s y i k : woken (sk_sys s) y -> undisturbed s (Slk y (<[SBuf i := k]> (sk_locks s))).
Proof. intros H. split; [done|]. intros j. unfold slk_of. simpl. by rewrite lookup_insert_ne. Qed.

(** A process that finds the lock taken goes to sleep on it. *)
Lemma acquiresleep_blocks rounds me l s :
  calm me (sk_sys s) -> static_lock (slk_spin l) -> c_noff (scpu (sk_sys s)) = 0 ->
  sl_locked (slk_of s l) = true ->
  exists k, acquiresleep rounds l s =
    Switch (Slk (asleep me (slk_chan l) (slk_spin l) (locked (slk_spin l) (sk_sys s))) (sk_locks s)) k.
Proof.
  intros Hc Hl Hn Hk. unfold acquiresleep. pose proof (ca_idle _ _ Hc _ Hl) as Hidle.
  krun (zoom_acquire sk_sysL (slk_spin l) s Hidle). set (s1 := lset _ _ s).
  destruct (sleep_ok me (slk_chan l) (slk_spin l) (locked (slk_spin l) (sk_sys s))) as (k & Hs & _).
  { split; simpl.
    - apply Hc.
    - rewrite (ca_procs _ _ Hc). apply Hc.
    - lia.
    - apply cpu_push_intr.
    - apply locked_mine.
    - unfold lock_free. rewrite lock_of_locked, decide_False by apply slk_static_ne.
      apply lock_idle_free, (ca_idle _ _ Hc), (ca_me_proc _ _ Hc).
    - apply slk_static_ne. }
  apply (zoom_Switch sk_sysL _ s1) in Hs.
  eexists. apply bind_Switch. unfold acquiresleep_wait. cbn [while].
  apply bind_Switch. rewrite bind_gets. change (slk_of s1 l) with (slk_of s l). rewrite Hk.
  exact (bind_Switch _ _ _ _ _ Hs).
Qed.

(** ** Properties *)

(** A sleep-lock: taking a free one makes its holder the caller and
    [holdingsleep] true; releasing it makes it free again, wakes the waiting
    processes only, and [holdingsleep] false; a process that finds it taken goes
    to sleep on it with the lock's spinlock released. *)
Theorem sleeplock_correct (rounds me : nat) (l : slid) (s : slk)
    (Hc : calm me (sk_sys s)) (Hl : static_lock (slk_spin l)) :
  (sl_locked (slk_of s l) = false ->
   exists s1 s2, acquiresleep rounds l s = Ok tt s1 /\ holdingsleep l s1 = Ok true s1 /\
     releasesleep l s1 = Ok tt s2 /\ holdingsleep l s2 = Ok false s2 /\
     woken (sk_sys s) (sk_sys s2) /\ sl_locked (slk_of s2 l) = false) /\
  (sl_locked (slk_of s l) = true -> c_noff (scpu (sk_sys s)) = 0 ->
   exists s1 k, acquiresleep rounds l s = Switch s1 k /\ sk_locks s1 = sk_locks s /\
     p_state (proc_of (sk_sys s1) me) = SLEEPING /\
     p_chan (proc_of (sk_sys s1) me) = Some (slk_chan l) /\ lock_free (sk_sys s1) (slk_spin l)).
Proof.
  split.
  - intros Hk. eexists. destruct (releasesleep_ok me l
      (set_slk l (taken (p_pid (proc_of (sk_sys s) me)) (slk_of s l)) s) Hc Hl) as (y & Hr & Hw).
    eexists. split; [by apply acquiresleep_ok|]. split; [|split; [exact Hr|split; [|split; [exact Hw|]]]].
    + rewrite (holdingsleep_ok me) by done. rewrite slk_of_set. simpl. by rewrite Z.eqb_refl.
    + rewrite (holdingsleep_ok me); [|by eapply calm_woken|done]. unfold slk_of at 1. simpl.
      by rewrite lookup_insert_eq.
    + unfold slk_of at 1. simpl. by rewrite lookup_insert_eq.
  - intros Hk Hn. destruct (acquiresleep_blocks rounds me l s Hc Hl Hn Hk) as (k & Hs).
    eexists _, k. split; [exact Hs|]. split; [done|]. simpl. unfold asleep.
    rewrite (proc_of_upd _ me (unlocked (slk_spin l) (locked (L_proc me) (locked (slk_spin l) (sk_sys s)))))
      by (simpl; rewrite (ca_procs _ _ Hc); apply Hc).
    split; [done|]. split; [done|]. unfold lock_free.
    change (lk_locked (lock_of (unlocked (slk_spin l) (locked (L_proc me) (locked (slk_spin l) (sk_sys s)))) (slk_spin l)) = false).
    by rewrite lock_of_unlocked, decide_True.
Qed.

(** The kernel with its locks initialised and process 0 running. *)
Definition calm_locks : gmap lockid spinlock :=
  foldr (fun l m => <[l := Spinlock false "lock" None]> m) ∅
    ([L_kmem; L_pid; L_wait; L_ticks; L_bcache; L_log; L_itable; L_ftable; L_cons; L_uart_tx; L_pr; L_vdisk]
     ++ map L_proc (seq 0 NPROC) ++ map L_buf (seq 0 NBUF) ++ map L_inode (seq 0 NINODE)).

Definition calm_sys : sys :=
  Sys (Cpu 0 (Some 0%nat) 0 true 2) calm_locks
    (set_p_pid 1 (set_p_state RUNNING proc_zero) :: replicate (NPROC - 1) proc_zero) 2 (Some 0%nat).

Lemma foldr_idle ls l :
  l ∈ ls -> foldr (fun l (m : gmap lockid spinlock) => <[l := Spinlock false "lock" None]> m) ∅ ls !! l =
  Some (Spinlock false "lock" None).
Proof.
  induction ls as [|l' ls IH]; intros H; [by apply not_elem_of_nil in H|]. simpl.
  destruct (decide (l = l')) as [->|Hne]; [by rewrite lookup_insert_eq|].
  rewrite lookup_insert_ne by done. apply IH. by apply elem_of_cons in H as [|].
Qed.

Lemma calm_sys_ok : calm 0 calm_sys.
Proof.
  split.
  - by split; vm_compute.
  - intros l Hl. exists "lock"%string. apply foldr_idle.
    rewrite !elem_of_app, !list_elem_of_fmap. destruct l; simpl in Hl; try (by left; set_solver).
    + right. left. eexists. split; [done|]. apply elem_of_seq. lia.
    + right. right. left. eexists. split; [done|]. apply elem_of_seq. lia.
    + right. right. right. eexists. split; [done|]. apply elem_of_seq. lia.
  - done.
  - done.
  - unfold NPROC. lia.
  - done.
  - done.
Qed.

Lemma sleeplock_correct_witness :
  exists s1 s2, acquiresleep 5 (SBuf 3) (Slk calm_sys ∅) = Ok tt s1 /\ releasesleep (SBuf 3) s1 = Ok tt s2.
Proof.
  destruct (sleeplock_correct 5 0 (SBuf 3) (Slk calm_sys ∅) calm_sys_ok) as [H _].
  - simpl. unfold NBUF. lia.
  - destruct (H eq_refl) as (s1 & s2 & H1 & _ & H2 & _). exists s1, s2. split; [exact H1|exact H2].
Defined.
