(* ===== verification/Uart.v ===== *)
(** * [kernel/uart.c]: the driver of the 16550a UART

    The device is memory mapped.  The driver's accesses to its registers are a
    trace, and what a read returns is a function of the trace so far: the
    parameter [dev], about which only what a theorem states is assumed.  The
    transmit buffer is a ring of 32 slots with 64-bit counters. *)

From S2P Require Import Prelude Riscv Ring Sys Spinlock Proc Sleeplock.

(** ** Registers *)

Definition RHR : Z := 0.

Definition THR : Z := 0.

Definition IER : Z := 1.

Definition IER_RX_ENABLE : Z := 1.

Definition IER_TX_ENABLE : Z := 2.

Definition FCR : Z := 2.

Definition FCR_FIFO_ENABLE : Z := 1.

Definition FCR_FIFO_CLEAR : Z := 6.

Definition ISR : Z := 2.

Definition LCR : Z := 3.

Definition LCR_EIGHT_BITS : Z := 3.

Definition LCR_BAUD_LATCH : Z := 128.

Definition LSR : Z := 5.

Definition LSR_RX_READY : Z := 1.

Definition LSR_TX_IDLE : Z := 32.

Inductive event := Rd (reg v : Z) | Wr (reg v : Z).

(** ** State: uart.c's variables, and [panicked] and [pr.locking] of printf.c *)

Definition UART_TX_BUF_SIZE : Z := 32.

Record tty := Tty {
  tt_sys : sys;
  tt_trace : list event;
  uart_tx_buf : list byte;
  uart_tx_w : Z;
  uart_tx_r : Z;
  panicked : bool;
  pr_locking : bool
}.

Definition set_tt_sys (x : sys) (s : tty) : tty :=
  Tty x (tt_trace s) (uart_tx_buf s) (uart_tx_w s) (uart_tx_r s) (panicked s) (pr_locking s).

Definition set_tt_trace (x : list event) (s : tty) : tty :=
  Tty (tt_sys s) x (uart_tx_buf s) (uart_tx_w s) (uart_tx_r s) (panicked s) (pr_locking s).

Definition set_tx_buf (x : list byte) (s : tty) : tty :=
  Tty (tt_sys s) (tt_trace s) x (uart_tx_w s) (uart_tx_r s) (panicked s) (pr_locking s).

Definition set_tx_w (x : Z) (s : tty) : tty :=
  Tty (tt_sys s) (tt_trace s) (uart_tx_buf s) x (uart_tx_r s) (panicked s) (pr_locking s).

Definition set_tx_r (x : Z) (s : tty) : tty :=
  Tty (tt_sys s) (tt_trace s) (uart_tx_buf s) (uart_tx_w s) x (panicked s) (pr_locking s).

Definition set_panicked (x : bool) (s : tty) : tty :=
  Tty (tt_sys s) (tt_trace s) (uart_tx_buf s) (uart_tx_w s) (uart_tx_r s) x (pr_locking s).

Definition set_pr_locking (x : bool) (s : tty) : tty :=
  Tty (tt_sys s) (tt_trace s) (uart_tx_buf s) (uart_tx_w s) (uart_tx_r s) (panicked s) x.

Definition tt_sysL : lens tty sys := Lens tt_sys set_tt_sys.

#[export] Instance tt_sysL_laws : LensLaws tt_sysL.
Proof. by split; intros; try destruct s. Qed.

Definition tx_slot (w : Z) : nat := slot UART_TX_BUF_SIZE w.

Section Uart.

(** What the device answers to a read, by the accesses so far; the bound on the
    polls of [uartputc_sync]; the bound on the wake-ups a sleep may need. *)
Variable dev : list event -> Z -> Z.
Variable spins rounds : nat.

Definition ReadReg (reg : Z) : M tty Z := fun s =>
  let v := u8 (dev (tt_trace s) reg) in
  Ok v (set_tt_trace (tt_trace s ++ [Rd reg v]) s).

Definition WriteReg (reg v : Z) : M tty unit :=
  modify (fun s => set_tt_trace (tt_trace s ++ [Wr reg (u8 v)]) s).

Definition uartinit : M tty unit :=
  (* disable interrupts. *)
  WriteReg IER 0 ;;
  (* special mode to set baud rate. *)
  WriteReg LCR LCR_BAUD_LATCH ;;
  (* LSB, then MSB for baud rate of 38.4K. *)
  WriteReg 0 3 ;;
  WriteReg 1 0 ;;
  (* leave set-baud mode, and set word length to 8 bits, no parity. *)
  WriteReg LCR LCR_EIGHT_BITS ;;
  (* reset and enable FIFOs. *)
  WriteReg FCR (Z.lor FCR_FIFO_ENABLE FCR_FIFO_CLEAR) ;;
  (* enable transmit and receive interrupts. *)
  WriteReg IER (Z.lor IER_TX_ENABLE IER_RX_ENABLE) ;;
  zoom tt_sysL (initlock L_uart_tx "uart").

(** One round of [uartstart]'s loop. *)
Definition uartstart_body (_ : unit) : M tty (unit + unit) :=
  let! s := get in
  if uart_tx_w s =? uart_tx_r s then
    (* transmit buffer is empty. *)
    let! _ := ReadReg ISR in ret (inr tt)
  else
  let! lsr := ReadReg LSR in
  if negb (has lsr LSR_TX_IDLE) then ret (inr tt) else
  let! s := get in
  let c := uart_tx_buf s !!! tx_slot (uart_tx_r s) in
  modify (set_tx_r (u64 (uart_tx_r s + 1))) ;;
  (* maybe uartputc() is waiting for space in the buffer. *)
  zoom tt_sysL (wakeup Ch_uart_tx_r) ;;
  WriteReg THR (byte.unsigned c) ;;
  ret (inl tt).

(** Every round but the last sends one of at most 32 characters. *)
Definition uartstart : M tty unit := while 33 uartstart_body tt.

Definition uartputc_wait (_ : unit) : M tty (unit + unit) :=
  let! s := get in
  if uart_tx_w s =? u64 (uart_tx_r s + UART_TX_BUF_SIZE) then
    (* buffer is full: wait for uartstart() to open up space in the buffer. *)
    zoom tt_sysL (sleep Ch_uart_tx_r L_uart_tx) ;; ret (inl tt)
  else ret (inr tt).

Definition uartputc (c : Z) : M tty unit :=
  zoom tt_sysL (acquire L_uart_tx) ;;
  let! p := gets panicked in
  if p then (fun s => Spin s) else
  while (S rounds) uartputc_wait tt ;;
  modify (fun s => set_tx_buf (<[tx_slot (uart_tx_w s) := byte.of_Z c]> (uart_tx_buf s)) s) ;;
  modify (fun s => set_tx_w (u64 (uart_tx_w s + 1)) s) ;;
  uartstart ;;
  zoom tt_sysL (release L_uart_tx).

(** [while((ReadReg(LSR) & LSR_TX_IDLE) == 0);] *)
Definition uartputc_poll (_ : unit) : M tty (unit + unit) :=
  let! lsr := ReadReg LSR in
  ret (if has lsr LSR_TX_IDLE then inr tt else inl tt).

Definition uartputc_sync (c : Z) : M tty unit :=
  zoom tt_sysL push_off ;;
  let! p := gets panicked in
  if p then (fun s => Spin s) else
  while spins uartputc_poll tt ;;
  WriteReg THR c ;;
  zoom tt_sysL pop_off.

Definition uartgetc : M tty Z :=
  let! lsr := ReadReg LSR in
  if has lsr LSR_RX_READY then ReadReg RHR else ret (-1).

(** ** What goes over the wire *)

(** Whether the baud-rate latch, which shadows the transmit register, is open. *)
Fixpoint latched (d : bool) (h : list event) : bool :=
  match h with
  | [] => d
  | Wr reg v :: h => latched (if reg =? LCR then has v LCR_BAUD_LATCH else d) h
  | Rd _ _ :: h => latched d h
  end.

(** The characters given to the device to transmit. *)
Fixpoint wire (d : bool) (h : list event) : list Z :=
  match h with
  | [] => []
  | Wr reg v :: h =>
      if reg =? LCR then wire (has v LCR_BAUD_LATCH) h
      else if (reg =? THR) && negb d then v :: wire d h else wire d h
  | Rd _ _ :: h => wire d h
  end.

Definition sent (s : tty) : list Z := wire false (tt_trace s).

(** The characters waiting in the transmit buffer. *)
Definition queued (s : tty) : list Z :=
  map byte.unsigned (contents UART_TX_BUF_SIZE (2 ^ 64) (uart_tx_buf s) (uart_tx_r s) (uart_tx_w s)).

Definition tx_room (s : tty) : Prop := count (2 ^ 64) (uart_tx_r s) (uart_tx_w s) < UART_TX_BUF_SIZE.

Record tty_ok (s : tty) : Prop := {
  ty_ring : ring_ok UART_TX_BUF_SIZE (2 ^ 64) (uart_tx_buf s) (uart_tx_r s) (uart_tx_w s);
  ty_latch : latched false (tt_trace s) = false
}.

Lemma latched_app d h h' : latched d (h ++ h') = latched (latched d h) h'.
Proof. revert d. induction h as [|[] h IH]; intros d; simpl; [done|apply IH|apply IH]. Qed.

Lemma wire_app d h h' : wire d (h ++ h') = wire d h ++ wire (latched d h) h'.
Proof.
  revert d. induction h as [|[] h IH]; intros d; simpl; [done|apply IH|].
  destruct (reg =? LCR); [apply IH|]. destruct ((reg =? THR) && negb d); simpl; by rewrite IH.
Qed.

(** *** uartstart *)

Lemma tx_slot_read s : tty_ok s -> uart_tx_w s <> uart_tx_r s ->
  queued s = byte.unsigned (uart_tx_buf s !!! tx_slot (uart_tx_r s)) :: queued (set_tx_r (u64 (uart_tx_r s + 1)) s) /\
  ring_ok UART_TX_BUF_SIZE (2 ^ 64) (uart_tx_buf s) (u64 (uart_tx_r s + 1)) (uart_tx_w s).
Proof.
  intros [R L] Hne. destruct (ring_pop (A := byte) UART_TX_BUF_SIZE (2 ^ 64)) with (buf := uart_tx_buf s)
    (r := uart_tx_r s) (w := uart_tx_w s) as [E R']; [done|done|by exists (2 ^ 59)|done| |].
  - pose proof (count_range UART_TX_BUF_SIZE (2 ^ 64) ltac:(done) ltac:(done) (uart_tx_r s) (uart_tx_w s)).
    pose proof (count_empty UART_TX_BUF_SIZE (2 ^ 64) ltac:(done) ltac:(done) (uart_tx_r s) (uart_tx_w s)
      (rg_r _ _ _ _ _ R) (rg_w _ _ _ _ _ R)) as [He _].
    destruct (decide (count (2 ^ 64) (uart_tx_r s) (uart_tx_w s) = 0)); [|lia].
    exfalso. apply Hne. symmetry. by apply He.
  - unfold queued. rewrite E. split; [done|exact R'].
Qed.

(** Characters go from the buffer to the wire in order, none lost, none twice. *)
Record conveyed (s s' : tty) : Prop := {
  cv_ok : tty_ok s';
  cv_sys : woken (tt_sys s) (tt_sys s');
  cv_fifo : sent s' ++ queued s' = sent s ++ queued s;
  cv_panicked : panicked s' = panicked s;
  cv_locking : pr_locking s' = pr_locking s
}.

Lemma conveyed_trans s1 s2 s3 : conveyed s1 s2 -> conveyed s2 s3 -> conveyed s1 s3.
Proof. intros [A1 A2 A3 A4 A5] [B1 B2 B3 B4 B5]. split; [done|by etrans|congruence..]. Qed.

Lemma conveyed_read reg v s : tty_ok s -> conveyed s (set_tt_trace (tt_trace s ++ [Rd reg v]) s).
Proof.
  intros [R L]. split; [split; [done|]|done| |done|done].
  - simpl. by rewrite latched_app, L.
  - unfold sent, queued. simpl. by rewrite wire_app, app_nil_r.
Qed.

(** A character taken from the buffer is written to the device. *)
Lemma uartstart_send s (Hok : tty_ok s) (Hwk : wakeable (tt_sys s)) :
  uart_tx_w s <> uart_tx_r s -> has (u8 (dev (tt_trace s) LSR)) LSR_TX_IDLE = true ->
  exists s', uartstart_body tt s = Ok (inl tt) s' /\ conveyed s s' /\ (length (queued s') < length (queued s))%nat.
Proof.
  intros Hne Hi. set (lsr := u8 (dev (tt_trace s) LSR)) in *.
  set (s1 := set_tt_trace (tt_trace s ++ [Rd LSR lsr]) s).
  set (s2 := set_tx_r (u64 (uart_tx_r s + 1)) s1).
  destruct (wakeup_woken Ch_uart_tx_r (tt_sys s) Hwk) as (y & Hw & Hy).
  destruct (tx_slot_read s Hok Hne) as [Eq R']. destruct Hok as [R L].
  set (c := uart_tx_buf s !!! tx_slot (uart_tx_r s)) in *.
  exists (set_tt_trace ((tt_trace s ++ [Rd LSR lsr]) ++ [Wr THR (u8 (byte.unsigned c))]) (set_tt_sys y s2)).
  split; [|split].
  - unfold uartstart_body. unfold bind at 1, get; cbn [obind].
    destruct (Z.eqb_spec (uart_tx_w s) (uart_tx_r s)); [done|].
    rewrite (bind_Ok (ReadReg LSR) _ _ lsr s1 eq_refl), Hi. cbn [negb].
    unfold bind at 1, get; cbn [obind]. rewrite bind_modify.
    by krun (zoom_Ok tt_sysL (wakeup Ch_uart_tx_r) s2 tt y Hw).
  - split; [split; [done|]|done| |done|done].
    + simpl. by rewrite !latched_app, L.
    + unfold sent. simpl. rewrite !wire_app, latched_app, L. simpl. rewrite app_nil_r, Eq, <- app_assoc.
      unfold u8. rewrite Z.mod_small by (pose proof (byte.unsigned_range c); lia). done.
  - rewrite Eq. simpl. change (queued _) with (queued (set_tx_r (u64 (uart_tx_r s + 1)) s)) at 1. lia.
Qed.

Lemma uartstart_round s (Hok : tty_ok s) (Hwk : wakeable (tt_sys s)) :
  exists r s', uartstart_body tt s = Ok r s' /\ conveyed s s' /\
    match r with inl _ => (length (queued s') < length (queued s))%nat | inr _ => True end.
Proof.
  destruct (decide (uart_tx_w s = uart_tx_r s)) as [He|Hne].
  - do 2 eexists. split; [|split; [by apply (conveyed_read ISR)|]].
    + unfold uartstart_body. unfold bind at 1, get; cbn [obind]. by rewrite He, Z.eqb_refl.
    + done.
  - destruct (has (u8 (dev (tt_trace s) LSR)) LSR_TX_IDLE) eqn:Hi.
    + destruct (uartstart_send s Hok Hwk Hne Hi) as (s' & H). by exists (inl tt), s'.
    + do 2 eexists. split; [|split; [by apply (conveyed_read LSR)|]].
      * unfold uartstart_body. unfold bind at 1, get; cbn [obind].
        destruct (Z.eqb_spec (uart_tx_w s) (uart_tx_r s)); [done|].
        unfold ReadReg at 1, bind at 1; cbn [obind]. by rewrite Hi.
      * done.
Qed.

Lemma uartstart_loop n s :
  tty_ok s -> wakeable (tt_sys s) -> (length (queued s) < n)%nat ->
  exists s', while n uartstart_body tt s = Ok tt s' /\ conveyed s s'.
Proof.
  revert s. induction n as [|n IH]; intros s Hok Hwk Hn; [lia|]. cbn [while].
  destruct (uartstart_round s Hok Hwk) as ([[]|[]] & s1 & E & Hcv & Hlt); krun E.
  - destruct (IH s1) as (s' & Hs' & Hcv'); [apply Hcv|by eapply wakeable_woken; [|apply Hcv]|lia|].
    exists s'. split; [done|]. by eapply conveyed_trans.
  - by exists s1.
Qed.

Lemma uartstart_ok s : tty_ok s -> wakeable (tt_sys s) -> exists s', uartstart s = Ok tt s' /\ conveyed s s'.
Proof.
  intros Hok Hwk. apply uartstart_loop; [done|done|]. unfold queued. rewrite length_map, contents_len.
  pose proof (rg_count _ _ _ _ _ (ty_ring _ Hok)). unfold UART_TX_BUF_SIZE in *. lia.
Qed.

(** *** uartputc *)

(** For every behaviour of the device, [uartputc(c)] on a transmit buffer with
    room returns, and the characters sent followed by those still buffered are
    the old ones followed by [c]: output is a FIFO, whether a character leaves
    at once or with a later interrupt. *)
Theorem uartputc_fifo (c : Z) (s : tty)
  (Hok : tty_ok s) (Hwk : wakeable (tt_sys s)) (Hl : lock_idle (tt_sys s) L_uart_tx)
  (Hp : panicked s = false) (Hroom : tx_room s) :
  exists s', uartputc c s = Ok tt s' /\ tty_ok s' /\ woken (tt_sys s) (tt_sys s') /\
    sent s' ++ queued s' = sent s ++ queued s ++ [u8 c].
Proof.
  pose proof Hok as [R L]. unfold uartputc. krun (zoom_acquire tt_sysL L_uart_tx s Hl).
  set (s1 := lset _ _ s). rewrite bind_gets. change (panicked s1) with (panicked s). rewrite Hp.
  assert (E1 : while (S rounds) uartputc_wait tt s1 = Ok tt s1).
  { cbn [while]. rewrite (bind_Ok _ _ _ (inr tt) s1); [done|]. unfold uartputc_wait, bind at 1, get; cbn [obind].
    destruct (Z.eqb_spec (uart_tx_w s1) (u64 (uart_tx_r s1 + UART_TX_BUF_SIZE))) as [Hf|]; [|done].
    apply (count_full UART_TX_BUF_SIZE (2 ^ 64)) in Hf; [|done|done|apply R|apply R]. unfold tx_room in Hroom.
    change (count (2 ^ 64) (uart_tx_r s) (uart_tx_w s) = 32) in Hf. unfold UART_TX_BUF_SIZE in Hroom. lia. }
  krun E1. rewrite !bind_modify. set (s2 := set_tx_w _ _).
  destruct (ring_push (A := byte) UART_TX_BUF_SIZE (2 ^ 64)) with (buf := uart_tx_buf s)
    (r := uart_tx_r s) (w := uart_tx_w s) (x := byte.of_Z c) as [Eq R']; [done|done|by exists (2 ^ 59)|done|done|].
  assert (Hok2 : tty_ok s2) by (split; [exact R'|exact L]).
  destruct (uartstart_ok s2 Hok2) as (s3 & E3 & [V1 V2 V3 V4 V5]); [by apply wakeable_locked|]. krun E3.
  destruct (woken_locked _ _ _ V2) as (y & Hy & Wy).
  assert (Hr : zoom tt_sysL (release L_uart_tx) s3 = Ok tt (lset tt_sysL y s3)).
  { apply zoom_release; [| |exact Hy].
    - unfold settled. rewrite (wo_cpu _ _ Wy). apply Hwk.
    - unfold lock_idle. by rewrite (wo_locks _ _ Wy). }
  rewrite Hr. exists (lset tt_sysL y s3). split; [done|]. split; [by split; apply V1|]. split; [exact Wy|].
  change (sent s3 ++ queued s3 = sent s ++ queued s ++ [u8 c]). rewrite V3. unfold sent, queued.
  change (uart_tx_buf s2) with (<[slot UART_TX_BUF_SIZE (uart_tx_w s) := byte.of_Z c]> (uart_tx_buf s)).
  change (uart_tx_r s2) with (uart_tx_r s). change (uart_tx_w s2) with ((uart_tx_w s + 1) mod 2 ^ 64).
  rewrite Eq, map_app. simpl. by rewrite byte.unsigned_of_Z.
Qed.

(** *** uartputc_sync *)

(** The trace after [k] polls of the line status register. *)
Fixpoint polls (k : nat) (h : list event) : list event :=
  match k with
  | O => h
  | S k => polls k (h ++ [Rd LSR (u8 (dev h LSR))])
  end.

(** A device that becomes ready to transmit within [spins] polls. *)
Definition dev_drains : Prop :=
  forall h, exists k, (k < spins)%nat /\ has (u8 (dev (polls k h) LSR)) LSR_TX_IDLE = true.

(** The characters [cs] were sent, and nothing else happened. *)
Definition emitted (cs : list Z) (s s' : tty) : Prop :=
  exists h, s' = set_tt_trace (tt_trace s ++ h) s /\ wire false h = cs /\ latched false h = false.

Lemma emitted_nil s : emitted [] s s.
Proof. exists []. rewrite app_nil_r. by destruct s. Qed.

Lemma emitted_app cs cs' s1 s2 s3 : emitted cs s1 s2 -> emitted cs' s2 s3 -> emitted (cs ++ cs') s1 s3.
Proof.
  intros (h & -> & W & L) (h' & -> & W' & L'). exists (h ++ h').
  rewrite app_assoc, wire_app, latched_app, L, W, W'. done.
Qed.

Lemma emitted_sent cs s s' : latched false (tt_trace s) = false -> emitted cs s s' -> sent s' = sent s ++ cs.
Proof. intros L (h & -> & W & _). unfold sent. simpl. by rewrite wire_app, L, W. Qed.

Lemma emitted_ok cs s s' : tty_ok s -> emitted cs s s' -> tty_ok s'.
Proof. intros [R L] (h & -> & _ & L'). split; [done|]. simpl. by rewrite latched_app, L. Qed.

Lemma poll_loop n k s :
  has (u8 (dev (polls k (tt_trace s)) LSR)) LSR_TX_IDLE = true -> (k < n)%nat ->
  exists s', while n uartputc_poll tt s = Ok tt s' /\ emitted [] s s'.
Proof.
  revert k s. induction n as [|n IH]; intros k s Hk Hn; [lia|]. cbn [while].
  set (lsr := u8 (dev (tt_trace s) LSR)). set (s1 := set_tt_trace (tt_trace s ++ [Rd LSR lsr]) s).
  assert (E1 : emitted [] s s1) by by exists [Rd LSR lsr].
  destruct (has lsr LSR_TX_IDLE) eqn:Hi.
  - exists s1. split; [|done]. rewrite (bind_Ok _ _ _ (inr tt) s1); [done|].
    unfold uartputc_poll. rewrite (bind_Ok (ReadReg LSR) _ _ lsr s1 eq_refl). by rewrite Hi.
  - destruct k as [|k]; [exfalso; unfold lsr in Hi; cbn [polls] in Hk; by rewrite Hk in Hi|].
    destruct (IH k s1) as (s' & H' & E'); [exact Hk|lia|].
    exists s'. split; [|by apply (emitted_app [] [] s s1)]. rewrite (bind_Ok _ _ _ (inl tt) s1); [done|].
    unfold uartputc_poll. rewrite (bind_Ok (ReadReg LSR) _ _ lsr s1 eq_refl). by rewrite Hi.
Qed.

Lemma uartputc_sync_ok c s :
  dev_drains -> settled (tt_sys s) -> panicked s = false ->
  exists s', uartputc_sync c s = Ok tt s' /\ emitted [u8 c] s s'.
Proof.
  intros Hd [Hwf Hst] Hp. unfold uartputc_sync. krun (zoom_Ok tt_sysL _ s _ _ (push_off_ok (tt_sys s))).
  rewrite bind_gets. set (s1 := lset _ _ s). change (panicked s1) with (panicked s). rewrite Hp.
  destruct (Hd (tt_trace s)) as (k & Hk & Hi).
  destruct (poll_loop spins k s1) as (s2 & E2 & h & -> & W & L); [exact Hi|done|]. krun E2.
  unfold WriteReg. rewrite bind_modify. set (s3 := set_tt_trace _ _).
  assert (E3 : zoom tt_sysL pop_off s3 = Ok tt (lset tt_sysL (tt_sys s) s3)).
  { unfold zoom. simpl. rewrite pop_off_ok; simpl.
    - rewrite cpu_pop_push, Hst by done. f_equal. unfold set_tt_sys. f_equal. by destruct (tt_sys s).
    - apply cpu_push_intr.
    - destruct Hwf. lia. }
  rewrite E3. eexists. split; [reflexivity|]. exists (h ++ [Wr THR (u8 c)]). split; [|split].
  - unfold s3. simpl. by rewrite app_assoc.
  - by rewrite wire_app, W, L.
  - by rewrite latched_app, L.
Qed.

End Uart.

(** A device that is always ready to transmit and has no input. *)
Definition ready_dev (_ : list event) (reg : Z) : Z := if reg =? LSR then LSR_TX_IDLE else 0.

Definition tty_boot : tty := Tty calm_sys [] (replicate 32 Byte.x00) 0 0 false true.

Lemma tty_boot_ok : tty_ok tty_boot.
Proof. by repeat split. Qed.

Lemma uartputc_fifo_witness :
  exists s', uartputc ready_dev 1 65 tty_boot = Ok tt s' /\ sent s' ++ queued s' = [65].
Proof.
  destruct (uartputc_fifo ready_dev 1 65 tty_boot) as (s' & E & _ & _ & F).
  - exact tty_boot_ok.
  - exact (wakeable_calm 0 _ calm_sys_ok).
  - by apply (ca_idle 0 _ calm_sys_ok).
  - done.
  - done.
  - exists s'. by split.
Defined.
