(* ===== verification/Printf.v ===== *)
(** * [kernel/printf.c], with [consputc] of [kernel/console.c]

    Formatted output to the console.  The arguments of [printf] are a list of
    numbers and strings; a conversion that finds no argument of its kind, or a
    numeral that does not fit [printint]'s buffer, is undefined behaviour and is
    a panic of the model whose message starts with [undefined].

    [format] is a reference formatter, by pattern matching on the directives;
    [printf] sends what it gives. *)

From S2P Require Import Prelude Riscv Sys Spinlock Proc Sleeplock Uart.

Definition BACKSPACE : Z := 256.

Definition digits : list byte := String.list_byte_of_string "0123456789abcdef".

(** The [long long] a 64-bit pattern denotes. *)
Definition s64 (z : Z) : Z :=
  let r := z mod 2 ^ 64 in if r <? 2 ^ 63 then r else r - 2 ^ 64.

(** An argument of [printf]: a number, or a string ([None] is the null pointer). *)
Inductive va := Num (z : Z) | Str (s : option (list byte)).

(** [va_arg(ap, int)], [va_arg(ap, uint64)] and [va_arg(ap, char star)]. *)
Definition va_int (ap : list va) : option (Z * list va) :=
  match ap with Num z :: ap => Some (s32 z, ap) | _ => None end.

Definition va_u64 (ap : list va) : option (Z * list va) :=
  match ap with Num z :: ap => Some (u64 z, ap) | _ => None end.

Definition va_str (ap : list va) : option (option (list byte) * list va) :=
  match ap with Str s :: ap => Some (s, ap) | _ => None end.

Definition va_get {A} (o : option A) : M tty A :=
  match o with Some x => ret x | None => panic "undefined: va_arg" end.

Definition null_string : list byte := String.list_byte_of_string "(null)".

Section Printf.
Variable dev : list event -> Z -> Z.
Variable spins : nat.

Definition consputc (c : Z) : M tty unit :=
  if c =? BACKSPACE then
    (* if the user typed backspace, overwrite with a space. *)
    uartputc_sync dev spins 8 ;; uartputc_sync dev spins 32 ;; uartputc_sync dev spins 8
  else uartputc_sync dev spins c.

Definition putb (b : byte) : M tty unit := consputc (byte.unsigned b).

(** [buf[i++] = c] for [char buf[16]]. *)
Definition printint_push (c : byte) (buf : list byte) : M tty (list byte) :=
  if (length buf <? 16)%nat then ret (buf ++ [c]) else panic "undefined: printint buf".

Definition printint_body (base : Z) : Z * list byte -> M tty (Z * list byte + list byte) :=
  fun '(x, buf) =>
    let! buf := printint_push (digits !!! Z.to_nat (x mod base)) buf in
    let x := x / base in
    ret (if x =? 0 then inr buf else inl (x, buf)).

(** A 64-bit number has at most 64 digits. *)
Definition printint (xx base : Z) (sign : bool) : M tty unit :=
  let sign := sign && (xx <? 0) in
  let x := if sign then u64 (- xx) else u64 xx in
  let! buf := while 64 (printint_body base) (x, []) in
  let! buf := (if sign then printint_push Byte.x2d buf else ret buf) in
  forM (reverse buf) putb.

Fixpoint printptr_loop (n : nat) (x : Z) : M tty unit :=
  match n with
  | O => ret tt
  | S n => putb (digits !!! Z.to_nat (Z.shiftr x 60)) ;; printptr_loop n (u64 (Z.shiftl x 4))
  end.

Definition printptr (x : Z) : M tty unit :=
  consputc 48 ;;
  consputc 120 ;;
  printptr_loop 16 x.

(** The [if] chain on the characters after a [%]: the index and the arguments
    to go on with, or the end of the format. *)
Definition printf_conv (c0 c1 c2 : Z) (i : nat) (ap : list va) : M tty (nat * list va + unit) :=
  let int base sign k :=
    let! (x, ap) := va_get (va_int ap) in
    printint x base sign ;; ret (inl ((i + k)%nat, ap)) in
  let long base sign k :=
    let! (x, ap) := va_get (va_u64 ap) in
    printint (s64 x) base sign ;; ret (inl ((i + k)%nat, ap)) in
  if c0 =? 100 (* d *) then int 10 true 0%nat
  else if (c0 =? 108) && (c1 =? 100) then long 10 true 1%nat
  else if (c0 =? 108) && (c1 =? 108) && (c2 =? 100) then long 10 true 2%nat
  else if c0 =? 117 (* u *) then int 10 false 0%nat
  else if (c0 =? 108) && (c1 =? 117) then long 10 false 1%nat
  else if (c0 =? 108) && (c1 =? 108) && (c2 =? 117) then long 10 false 2%nat
  else if c0 =? 120 (* x *) then int 16 false 0%nat
  else if (c0 =? 108) && (c1 =? 120) then long 16 false 1%nat
  else if (c0 =? 108) && (c1 =? 108) && (c2 =? 120) then long 16 false 2%nat
  else if c0 =? 112 (* p *) then
    let! (x, ap) := va_get (va_u64 ap) in
    printptr x ;; ret (inl (i, ap))
  else if c0 =? 115 (* s *) then
    let! (s, ap) := va_get (va_str ap) in
    forM (default null_string s) putb ;; ret (inl (i, ap))
  else if c0 =? 37 (* %% *) then consputc 37 ;; ret (inl (i, ap))
  else if c0 =? 0 then ret (inr tt)
  else
    (* Print unknown % sequence to draw attention. *)
    consputc 37 ;;
    consputc c0 ;;
    ret (inl (i, ap)).

Definition fmt_at (fmt : list byte) (i : nat) : Z := byte.unsigned (fmt !!! i).

(** One round of the loop over the format, whose terminating nul is the end of
    the list. *)
Definition printf_body (fmt : list byte) : nat * list va -> M tty (nat * list va + unit) :=
  fun '(i, ap) =>
    let cx := fmt_at fmt i in
    if cx =? 0 then ret (inr tt) else
    if negb (cx =? 37) then consputc cx ;; ret (inl (S i, ap)) else
    let i := S i in
    let c0 := fmt_at fmt i in
    let c1 := if negb (c0 =? 0) then fmt_at fmt (i + 1) else 0 in
    let c2 := if negb (c1 =? 0) then fmt_at fmt (i + 2) else 0 in
    let! r := printf_conv c0 c1 c2 i ap in
    ret (match r with inl (i, ap) => inl (S i, ap) | inr _ => inr tt end).

Definition printf (fmt : list byte) (ap : list va) : M tty Z :=
  let! locking := gets pr_locking in
  (if locking then zoom tt_sysL (acquire L_pr) else ret tt) ;;
  while (S (length fmt)) (printf_body fmt) (0%nat, ap) ;;
  (if locking then zoom tt_sysL (release L_pr) else ret tt) ;;
  ret 0.

(** [panic] of printf.c, which the rest of the development takes as the outcome
    [Panic]. *)
Definition panic_print (s : list byte) : M tty unit :=
  modify (set_pr_locking false) ;;
  let! _ := printf (String.list_byte_of_string "panic: ") [] in
  let! _ := printf (String.list_byte_of_string "%s" ++ [Byte.x0a]) [Str (Some s)] in
  modify (set_panicked true) ;;   (* freeze uart output from other CPUs *)
  (fun s => Spin s).

Definition printfinit : M tty unit :=
  zoom tt_sysL (initlock L_pr "pr") ;;
  modify (set_pr_locking true).

(** ** The reference *)

(** The digits of [x], most significant first. *)
Fixpoint numeral_aux (fuel : nat) (base x : Z) (acc : list byte) : list byte :=
  match fuel with
  | O => acc
  | S fuel =>
      let acc := (digits !!! Z.to_nat (x mod base)) :: acc in
      if x / base =? 0 then acc else numeral_aux fuel base (x / base) acc
  end.

Definition numeral (base x : Z) : list byte := numeral_aux 64 base x [].

Arguments numeral : simpl never.

(** The number a list of digits denotes. *)
Definition digit_value (b : byte) : Z :=
  let z := byte.unsigned b in if z <? 58 then z - 48 else z - 87.

Definition numeral_value (base : Z) (ds : list byte) : Z :=
  foldl (fun v d => v * base + digit_value d) 0 ds.

Definition signed_numeral (base x : Z) (sign : bool) : list byte :=
  if sign && (x <? 0) then Byte.x2d :: numeral base (- x) else numeral base (u64 x).

Inductive directive :=
| DNum (long : bool) (base : Z) (sign : bool)
| DPtr | DStr | DPercent | DEnd | DUnknown (c : byte).

(** The directive after a [%], and the length of its modifiers. *)
Definition directive_of (c0 c1 c2 : byte) : directive * nat :=
  match c0, c1, c2 with
  | Byte.x64, _, _ => (DNum false 10 true, 0)
  | Byte.x6c, Byte.x64, _ => (DNum true 10 true, 1)
  | Byte.x6c, Byte.x6c, Byte.x64 => (DNum true 10 true, 2)
  | Byte.x75, _, _ => (DNum false 10 false, 0)
  | Byte.x6c, Byte.x75, _ => (DNum true 10 false, 1)
  | Byte.x6c, Byte.x6c, Byte.x75 => (DNum true 10 false, 2)
  | Byte.x78, _, _ => (DNum false 16 false, 0)
  | Byte.x6c, Byte.x78, _ => (DNum true 16 false, 1)
  | Byte.x6c, Byte.x6c, Byte.x78 => (DNum true 16 false, 2)
  | Byte.x70, _, _ => (DPtr, 0)
  | Byte.x73, _, _ => (DStr, 0)
  | Byte.x25, _, _ => (DPercent, 0)
  | Byte.x00, _, _ => (DEnd, 0)
  | c, _, _ => (DUnknown c, 0)
  end%nat.

(** [n] hexadecimal digits of a pointer, from the most significant one on. *)
Fixpoint hex16 (n : nat) (x : Z) : list byte :=
  match n with
  | O => []
  | S n => (digits !!! Z.to_nat (x / 16 ^ Z.of_nat n mod 16)) :: hex16 n x
  end.

(** What a directive prints, and the remaining arguments. *)
Definition directive_out (d : directive) (ap : list va) : option (list byte * list va) :=
  match d with
  | DNum long base sign =>
      '(x, ap) ← (if long then va_u64 ap else va_int ap);
      let out := signed_numeral base (if long then s64 x else x) sign in
      if (length out <=? 16)%nat then Some (out, ap) else None
  | DPtr => '(x, ap) ← va_u64 ap; Some (Byte.x30 :: Byte.x78 :: hex16 16 x, ap)
  | DStr => '(s, ap) ← va_str ap; Some (default null_string s, ap)
  | DPercent => Some ([Byte.x25], ap)
  | DEnd => Some ([], ap)
  | DUnknown c => Some ([Byte.x25; c], ap)
  end.

(** What [printf(fmt, ap)] prints; [None] where that is undefined. *)
Fixpoint format (fuel : nat) (fmt : list byte) (ap : list va) : option (list byte) :=
  match fuel, fmt with
  | S fuel, Byte.x25 :: fmt =>
      let '(d, k) := directive_of (fmt !!! 0%nat) (fmt !!! 1%nat) (fmt !!! 2%nat) in
      '(out, ap) ← directive_out d ap;
      rest ← format fuel (drop (S k) fmt) ap;
      Some (out ++ rest)
  | S fuel, c :: fmt => rest ← format fuel fmt ap; Some (c :: rest)
  | _, _ => Some []
  end.

(** ** Numerals *)

Lemma digit_value_digits k : 0 <= k < 16 -> digit_value (digits !!! Z.to_nat k) = k.
Proof.
  intros H. assert (Hk : (Z.to_nat k < 16)%nat) by lia. rewrite <- (Z2Nat.id k) at 2 by lia.
  revert Hk. generalize (Z.to_nat k). intros n Hn. do 16 (destruct n as [|n]; [reflexivity|]). lia.
Qed.

Lemma numeral_aux_value n base x acc v0 :
  2 <= base <= 16 -> 0 <= x < base ^ Z.of_nat n -> v0 = 0 ->
  foldl (fun v d => v * base + digit_value d) v0 (numeral_aux n base x acc) =
  foldl (fun v d => v * base + digit_value d) x acc.
Proof.
  intros Hb Hx ->. revert x acc Hx. induction n as [|n IH]; intros x acc Hx; [simpl in *; f_equal; lia|].
  cbn [numeral_aux]. assert (Hm : 0 <= x mod base < 16) by (pose proof (Z.mod_pos_bound x base); lia).
  destruct (Z.eqb_spec (x / base) 0) as [Hz|Hnz].
  - cbn [foldl]. rewrite digit_value_digits by done. f_equal. rewrite (Z.div_mod x base) at 2 by lia. rewrite Hz. lia.
  - rewrite IH.
    + cbn [foldl]. rewrite digit_value_digits by done. f_equal. rewrite (Z.div_mod x base) at 3 by lia. lia.
    + rewrite Nat2Z.inj_succ, Z.pow_succ_r in Hx by lia. split; [apply Z.div_pos; lia|].
      apply Z.div_lt_upper_bound; lia.
Qed.

Lemma digit_pow x base n : 2 <= base -> 0 <= x < base ^ Z.of_nat (S n) -> 0 <= x / base < base ^ Z.of_nat n.
Proof.
  intros Hb Hx. rewrite Nat2Z.inj_succ, Z.pow_succ_r in Hx by lia.
  split; [apply Z.div_pos; lia|]. apply Z.div_lt_upper_bound; lia.
Qed.

(** A number of at least [base ^ k] has more than [k] digits. *)
Lemma numeral_aux_long n base x acc k :
  2 <= base -> 0 <= x < base ^ Z.of_nat n -> base ^ Z.of_nat k <= x ->
  (k + length acc < length (numeral_aux n base x acc))%nat.
Proof.
  intros Hb. revert x acc k. induction n as [|n IH]; intros x acc k Hx Hk.
  - simpl in Hx. pose proof (Z.pow_pos_nonneg base (Z.of_nat k)). lia.
  - cbn [numeral_aux]. destruct (Z.eqb_spec (x / base) 0) as [Hz|Hnz].
    + apply Z.div_small_iff in Hz; [|lia]. destruct k; [simpl; lia|].
      rewrite Nat2Z.inj_succ, Z.pow_succ_r in Hk by lia. pose proof (Z.pow_pos_nonneg base (Z.of_nat k)). nia.
    + destruct k as [|k].
      * eapply Nat.le_lt_trans; [|apply (IH _ _ 0%nat)]; [simpl; lia|by apply digit_pow|].
        change (base ^ Z.of_nat 0) with 1. pose proof (digit_pow x base n Hb Hx). lia.
      * eapply Nat.le_lt_trans; [|apply (IH _ _ k)]; [simpl; lia|by apply digit_pow|].
        rewrite Nat2Z.inj_succ, Z.pow_succ_r in Hk by lia. by apply Z.div_le_lower_bound; lia.
Qed.

Lemma numeral_value_ok base x :
  2 <= base <= 16 -> 0 <= x < 2 ^ 64 -> numeral_value base (numeral base x) = x.
Proof.
  intros Hb Hx. unfold numeral_value, numeral. rewrite numeral_aux_value; [done|done| |done].
  split; [lia|]. apply (Z.lt_le_trans _ (2 ^ 64)); [lia|]. apply Z.pow_le_mono_l. lia.
Qed.

Lemma numeral_aux_short n base x acc k :
  2 <= base -> 0 <= x < base ^ Z.of_nat (S k) -> (length (numeral_aux n base x acc) <= S k + length acc)%nat.
Proof.
  intros Hb. revert x acc k. induction n as [|n IH]; intros x acc k Hx; cbn [numeral_aux]; [lia|].
  destruct (Z.eqb_spec (x / base) 0) as [Hz|Hnz]; [simpl; lia|]. destruct k as [|k].
  - rewrite Z.pow_1_r in Hx. exfalso. apply Hnz, Z.div_small. lia.
  - etrans; [apply (IH _ _ k); by apply digit_pow|simpl; lia].
Qed.

Lemma signed_numeral_short base x :
  10 <= base -> - 2 ^ 31 <= x < 2 ^ 31 -> (length (signed_numeral base x true) <= 11)%nat.
Proof.
  intros Hb Hx. assert (Hp : 10 ^ 10 <= base ^ Z.of_nat 10) by (apply Z.pow_le_mono_l; lia).
  unfold signed_numeral, numeral. destruct (Z.ltb_spec x 0); cbn [andb length].
  - pose proof (numeral_aux_short 64 base (- x) [] 9 ltac:(lia) ltac:(lia)) as H1. cbn [length] in H1. lia.
  - rewrite u64_small by lia. pose proof (numeral_aux_short 64 base x [] 9 ltac:(lia) ltac:(lia)) as H1. cbn [length] in H1. lia.
Qed.

Lemma numeral_aux_acc n base x acc : (length acc <= length (numeral_aux n base x acc))%nat.
Proof.
  revert x acc. induction n as [|n IH]; intros x acc; [done|]. cbn [numeral_aux].
  destruct (x / base =? 0); [simpl; lia|]. etrans; [|apply IH]. simpl. lia.
Qed.

(** ** printint *)

Lemma printint_loop n base x buf s :
  2 <= base -> 0 <= x < base ^ Z.of_nat (S n) ->
  while (S n) (printint_body base) (x, buf) s =
  (if decide (length (numeral_aux (S n) base x (reverse buf)) <= 16)%nat
   then Ok (reverse (numeral_aux (S n) base x (reverse buf))) s else Panic "undefined: printint buf" s).
Proof.
  intros Hb. revert x buf. induction n as [|n IH]; intros x buf Hx.
  - assert (Hz : x / base = 0) by (apply Z.div_small; rewrite Z.pow_1_r in Hx; lia).
    cbn [while numeral_aux]. rewrite Hz. simpl Z.eqb. cbn [while]. unfold printint_body, printint_push.
    destruct (Nat.ltb_spec (length buf) 16); case_decide as Hd; simpl in Hd; rewrite length_reverse in Hd; try lia.
    + simpl. rewrite Hz. simpl. unfold ret. by rewrite reverse_cons, reverse_involutive.
    + done.
  - remember (S n) as m eqn:Hm. cbn [while numeral_aux].
    unfold printint_body at 1, printint_push.
    pose proof (numeral_aux_acc m base (x / base) (digits !!! Z.to_nat (x mod base) :: reverse buf)) as Hacc.
    simpl in Hacc. rewrite length_reverse in Hacc.
    destruct (Nat.ltb_spec (length buf) 16).
    + unfold bind, ret. cbn [obind]. destruct (Z.eqb_spec (x / base) 0) as [Hz|Hz].
      * rewrite decide_True by (simpl; rewrite length_reverse; lia). by rewrite reverse_cons, reverse_involutive.
      * subst m. rewrite (IH (x / base)) by (by apply digit_pow). rewrite reverse_snoc. done.
    + rewrite decide_False; [done|]. destruct (x / base =? 0); [simpl; rewrite length_reverse; lia|lia].
Qed.

(** ** What is sent *)

Hypothesis drains : dev_drains dev spins.

(** The computation returns [a] after sending [out], whatever the state. *)
Definition emits {A} (c : M tty A) (a : A) (out : list byte) : Prop :=
  forall s, settled (tt_sys s) -> panicked s = false ->
  exists s', c s = Ok a s' /\ emitted (map byte.unsigned out) s s'.

Lemma emits_ret {A} (a : A) : emits (ret a) a [].
Proof. intros s _ _. exists s. split; [done|apply emitted_nil]. Qed.

Lemma emits_bind {A B} (c : M tty A) (f : A -> M tty B) a b o1 o2 :
  emits c a o1 -> emits (f a) b o2 -> emits (bind c f) b (o1 ++ o2).
Proof.
  intros Hc Hf s Hs Hp. destruct (Hc s Hs Hp) as (s1 & E1 & M1).
  destruct (Hf s1) as (s2 & E2 & M2); [by destruct M1 as (h & -> & _)..|].
  exists s2. split; [by krun E1|]. rewrite map_app. by eapply emitted_app.
Qed.

Lemma emits_putb b : emits (putb b) tt [b].
Proof.
  intros s Hs Hp. unfold putb, consputc. pose proof (byte.unsigned_range b).
  destruct (Z.eqb_spec (byte.unsigned b) BACKSPACE); [unfold BACKSPACE in *; lia|].
  destruct (uartputc_sync_ok dev spins (byte.unsigned b) s drains Hs Hp) as (s' & E & Hm).
  exists s'. split; [done|]. unfold u8 in Hm. rewrite Z.mod_small in Hm by lia. exact Hm.
Qed.

Lemma emits_forM (l : list byte) : emits (forM l putb) tt l.
Proof.
  induction l as [|b l IH]; [apply emits_ret|]. cbn [forM].
  change (b :: l) with ([b] ++ l). eapply emits_bind; [apply emits_putb|done].
Qed.

(** What [printint] leaves in its buffer, backwards. *)
Lemma printint_out xx base sign :
  2 <= base <= 16 -> - 2 ^ 63 <= xx < 2 ^ 64 -> (length (signed_numeral base xx sign) <= 16)%nat ->
  emits (printint xx base sign) tt (signed_numeral base xx sign).
Proof.
  intros Hb Hx Hl. unfold signed_numeral in *. unfold printint.
  assert (Hpow : 2 ^ 64 <= base ^ Z.of_nat 64) by (apply Z.pow_le_mono_l; lia).
  destruct (sign && (xx <? 0)) eqn:E; intros s Hs Hp.
  - apply andb_true_iff in E as [_ E%Z.ltb_lt]. rewrite u64_small by lia.
    rewrite (bind_Ok _ _ _ (reverse (numeral base (- xx))) s).
    + unfold printint_push. rewrite length_reverse. cbn [length] in Hl.
      destruct (Nat.ltb_spec (length (numeral base (- xx))) 16); [|lia]. rewrite bind_ret.
      rewrite reverse_snoc, reverse_involutive. by apply emits_forM.
    + rewrite (printint_loop 63); [|lia|lia]. cbn [length] in Hl.
      change (reverse (@nil byte)) with (@nil byte). fold (numeral base (- xx)). rewrite decide_True by lia. done.
  - pose proof (u64_range xx). rewrite (bind_Ok _ _ _ (reverse (numeral base (u64 xx))) s).
    + rewrite bind_ret, reverse_involutive. by apply emits_forM.
    + rewrite (printint_loop 63); [|lia|lia]. change (reverse (@nil byte)) with (@nil byte).
      fold (numeral base (u64 xx)). by rewrite decide_True.
Qed.

(** [printint] sends the numeral of its argument in the given base, a sign
    first where one is wanted: digits whose value is the magnitude.  Its
    16-character buffer is a precondition. *)
Theorem printint_correct (xx base : Z) (sign : bool) (s : tty)
  (Hb : 2 <= base <= 16) (Hx : - 2 ^ 63 <= xx < 2 ^ 63)
  (Hs : settled (tt_sys s)) (Hp : panicked s = false)
  (Hl : (length (signed_numeral base xx sign) <= 16)%nat) :
  (exists s', printint xx base sign s = Ok tt s' /\
     emitted (map byte.unsigned (signed_numeral base xx sign)) s s') /\
  (if sign && (xx <? 0)
   then exists ds, signed_numeral base xx sign = Byte.x2d :: ds /\ numeral_value base ds = - xx
   else numeral_value base (signed_numeral base xx sign) = u64 xx).
Proof.
  split; [apply printint_out; [done|lia|done|done|done]|].
  unfold signed_numeral. destruct (sign && (xx <? 0)) eqn:E.
  - apply andb_true_iff in E as [_ E%Z.ltb_lt]. eexists. split; [reflexivity|]. apply numeral_value_ok; [done|lia].
  - apply numeral_value_ok; [done|apply u64_range].
Qed.


(** ** printf *)

Lemma ptr_digit x n :
  0 <= x -> (n < 16)%nat ->
  Z.shiftr (u64 (x * 16 ^ (16 - Z.of_nat (S n)))) 60 = x / 16 ^ Z.of_nat n mod 16.
Proof.
  intros Hx Hn. unfold u64. rewrite Z.shiftr_div_pow2 by lia.
  set (q := 16 - Z.of_nat (S n)). assert (Hq : 16 ^ q > 0) by (apply Z.lt_gt, Z.pow_pos_nonneg; lia).
  replace (2 ^ 64) with (16 ^ Z.of_nat (S n) * 16 ^ q) by (rewrite <- Z.pow_add_r by lia; unfold q; by replace (Z.of_nat (S n) + _) with 16 by lia).
  replace (2 ^ 60) with (16 ^ Z.of_nat n * 16 ^ q) by (rewrite <- Z.pow_add_r by lia; unfold q; by replace (Z.of_nat n + _) with 15 by lia).
  rewrite Z.mul_mod_distr_r by (try apply Z.pow_nonzero; lia).
  rewrite Z.div_mul_cancel_r by (try apply Z.pow_nonzero; lia).
  rewrite Nat2Z.inj_succ, Z.pow_succ_r, (Z.mul_comm 16) by lia.
  pose proof (Z.pow_pos_nonneg 16 (Z.of_nat n)). rewrite Z.rem_mul_r by lia.
  rewrite Z.mul_comm, Z.div_add by lia. rewrite Z.div_small by (apply Z.mod_pos_bound; lia). lia.
Qed.

Lemma emits_ptr_loop n x :
  0 <= x -> (n <= 16)%nat -> emits (printptr_loop n (u64 (x * 16 ^ (16 - Z.of_nat n)))) tt (hex16 n x).
Proof.
  intros Hx. induction n as [|n IH]; intros Hn; [apply emits_ret|].
  change (hex16 (S n) x) with ([digits !!! Z.to_nat (x / 16 ^ Z.of_nat n mod 16)] ++ hex16 n x).
  cbn [printptr_loop]. rewrite ptr_digit by (done || lia).
  eapply emits_bind; [apply emits_putb|]. rewrite Z.shiftl_mul_pow2 by lia.
  replace (u64 _) with (u64 (x * 16 ^ (16 - Z.of_nat n))); [apply IH; lia|].
  unfold u64. rewrite Zmult_mod_idemp_l, <- Z.mul_assoc. do 2 f_equal.
  change (2 ^ 4) with (16 ^ 1). rewrite <- Z.pow_add_r by lia. f_equal. lia.
Qed.

Lemma emits_ptr x : 0 <= x < 2 ^ 64 -> emits (printptr x) tt (Byte.x30 :: Byte.x78 :: hex16 16 x).
Proof.
  intros Hx. unfold printptr. change (Byte.x30 :: Byte.x78 :: hex16 16 x) with ([Byte.x30] ++ [Byte.x78] ++ hex16 16 x).
  eapply emits_bind; [apply (emits_putb Byte.x30)|]. eapply emits_bind; [apply (emits_putb Byte.x78)|].
  pose proof (emits_ptr_loop 16 x ltac:(lia) ltac:(lia)) as H.
  change (16 ^ (16 - Z.of_nat 16)) with 1 in H. rewrite Z.mul_1_r, u64_small in H by lia. exact H.
Qed.

(** What the [if] chain runs for a directive. *)
Definition directive_run (d : directive * nat) (i : nat) (ap : list va) : M tty (nat * list va + unit) :=
  match d.1 with
  | DNum false base sign =>
      let! (x, ap) := va_get (va_int ap) in printint x base sign ;; ret (inl ((i + d.2)%nat, ap))
  | DNum true base sign =>
      let! (x, ap) := va_get (va_u64 ap) in printint (s64 x) base sign ;; ret (inl ((i + d.2)%nat, ap))
  | DPtr => let! (x, ap) := va_get (va_u64 ap) in printptr x ;; ret (inl (i, ap))
  | DStr => let! (s, ap) := va_get (va_str ap) in forM (default null_string s) putb ;; ret (inl (i, ap))
  | DPercent => consputc 37 ;; ret (inl (i, ap))
  | DEnd => ret (inr tt)
  | DUnknown c => consputc 37 ;; consputc (byte.unsigned c) ;; ret (inl (i, ap))
  end.

Lemma printf_conv_directive c0 c1 c2 i ap :
  printf_conv (byte.unsigned c0) (byte.unsigned c1) (byte.unsigned c2) i ap =
  directive_run (directive_of c0 c1 c2) i ap.
Proof.
  destruct c0; try reflexivity. destruct c1; try reflexivity. destruct c2; reflexivity.
Qed.

Lemma directive_of_base c0 c1 c2 d k :
  directive_of c0 c1 c2 = (d, k) ->
  match d with DNum _ base _ => 10 <= base <= 16 | DEnd => c0 = Byte.x00 | _ => k = 0%nat end.
Proof.
  destruct c0; try (intros [= <- <-]; (reflexivity || lia)).
  destruct c1; try (intros [= <- <-]; (reflexivity || lia)).
  destruct c2; intros [= <- <-]; (reflexivity || lia).
Qed.

Lemma s64_range z : - 2 ^ 63 <= s64 z < 2 ^ 63.
Proof.
  unfold s64. pose proof (Z.mod_pos_bound z (2 ^ 64)).
  case_match eqn:E; rewrite ?Z.ltb_lt, ?Z.ltb_ge in E; lia.
Qed.

Lemma emits_get {A B} (o : option A) x (f : A -> M tty B) b out :
  o = Some x -> emits (f x) b out -> emits (bind (va_get o) f) b out.
Proof. intros -> H s. apply H. Qed.

Lemma emits_then {A B} (c : M tty A) a (b : B) out : emits c a out -> emits (c ;; ret b) b out.
Proof. intros H. rewrite <- (app_nil_r out). eapply emits_bind; [exact H|apply emits_ret]. Qed.

(** A directive prints what the reference says. *)
Lemma emits_directive c0 c1 c2 d k i ap out ap' :
  directive_of c0 c1 c2 = (d, k) -> directive_out d ap = Some (out, ap') ->
  emits (directive_run (d, k) i ap) (if decide (c0 = Byte.x00) then inr tt else inl ((i + k)%nat, ap')) out.
Proof.
  intros Hd Ho. pose proof (directive_of_base _ _ _ _ _ Hd) as Hb.
  assert (Hz : c0 = Byte.x00 -> d = DEnd) by (intros ->; destruct c1; by injection Hd).
  destruct d as [long base sign| | | | |c]; unfold directive_run; cbn [fst snd]; cbn [directive_out] in Ho.
  - rewrite decide_False by (intros ?%Hz; done).
    destruct ap as [|[z|] ap]; [by destruct long..| |by destruct long].
    assert (Hr : - 2 ^ 63 <= (if long then s64 (u64 z) else s32 z) < 2 ^ 63)
      by (destruct long; [apply s64_range|pose proof (s32_range z); lia]).
    destruct long; cbn in Ho; case_match eqn:E; try done; injection Ho as <- <-; apply Nat.leb_le in E;
      (eapply emits_get; [reflexivity|]); eapply emits_then; apply printint_out; (done || lia).
  - rewrite decide_False by (intros ?%Hz; done). subst k. rewrite Nat.add_0_r.
    destruct ap as [|[z|] ap]; try done. injection Ho as <- <-.
    eapply emits_get; [reflexivity|]. eapply emits_then, emits_ptr, u64_range.
  - rewrite decide_False by (intros ?%Hz; done). subst k. rewrite Nat.add_0_r.
    destruct ap as [|[|z] ap]; try done. injection Ho as <- <-.
    eapply emits_get; [reflexivity|]. eapply emits_then, emits_forM.
  - rewrite decide_False by (intros ?%Hz; done). subst k. rewrite Nat.add_0_r. injection Ho as <- <-.
    eapply emits_then, (emits_putb Byte.x25).
  - rewrite decide_True by done. injection Ho as <- <-. apply emits_ret.
  - rewrite decide_False by (intros ?%Hz; done). subst k. rewrite Nat.add_0_r. injection Ho as <- <-.
    apply (emits_bind _ _ tt _ [Byte.x25] [c]); [apply (emits_putb Byte.x25)|]. eapply emits_then, (emits_putb c).
Qed.

Lemma format_cons n c rest ap :
  format (S n) (c :: rest) ap =
  if decide (c = Byte.x25) then
    let '(d, k) := directive_of (rest !!! 0%nat) (rest !!! 1%nat) (rest !!! 2%nat) in
    '(out, ap) ← directive_out d ap; more ← format n (drop (S k) rest) ap; Some (out ++ more)
  else more ← format n rest ap; Some (c :: more).
Proof. destruct c, (decide _); (reflexivity || done). Qed.

Lemma drop_cons_at (fmt : list byte) i c rest :
  drop i fmt = c :: rest -> fmt !!! i = c /\ rest = drop (S i) fmt /\ forall j, fmt !!! (S i + j)%nat = rest !!! j.
Proof.
  intros H. assert (Hr : rest = drop (S i) fmt) by (by rewrite <- Nat.add_1_r, <- drop_drop, H).
  split; [|split; [done|]].
  - rewrite <- (Nat.add_0_r i), <- lookup_total_drop, H. done.
  - intros j. by rewrite Hr, lookup_total_drop.
Qed.

Lemma byte_zero b : byte.unsigned b = 0 -> b = Byte.x00.
Proof. by destruct b. Qed.

Section Loop.
Variable fmt : list byte.
Hypothesis nonul : Byte.x00 ∉ fmt.

Lemma suffix_zero i j : (drop i fmt !!! j) = Byte.x00 -> (length (drop i fmt) <= j)%nat.
Proof.
  intros H. apply Nat.nlt_ge. intros Hj. apply nonul. apply (subseteq_drop i). rewrite <- H.
  by apply list_elem_of_lookup_total_2.
Qed.

(** One directive of the format. *)
Lemma emits_percent i ap d k out ap' rest :
  drop i fmt = Byte.x25 :: rest ->
  directive_of (rest !!! 0%nat) (rest !!! 1%nat) (rest !!! 2%nat) = (d, k) -> directive_out d ap = Some (out, ap') ->
  emits (printf_body fmt (i, ap)) (if decide (rest = []) then inr tt else inl (S (S i + k), ap')) out.
Proof.
  intros H Hd Ho. destruct (drop_cons_at _ _ _ _ H) as (Hc & Hr & Hj). unfold printf_body, fmt_at. rewrite Hc. cbn [byte.unsigned].
  change (byte.unsigned Byte.x25) with 37. cbn [Z.eqb negb Pos.eqb].
  pose proof (Hj 0%nat) as H0. rewrite Nat.add_0_r in H0. rewrite H0, !Hj.
  assert (E1 : (if negb (byte.unsigned (rest !!! 0%nat) =? 0) then byte.unsigned (rest !!! 1%nat) else 0) = byte.unsigned (rest !!! 1%nat)).
  { destruct (Z.eqb_spec (byte.unsigned (rest !!! 0%nat)) 0) as [Hz%byte_zero|]; [|done]. simpl.
    rewrite Hr in Hz. apply suffix_zero in Hz. rewrite <- Hr in Hz. by destruct rest; [|simpl in Hz; lia]. }
  assert (E2 : (if negb (byte.unsigned (rest !!! 1%nat) =? 0) then byte.unsigned (rest !!! 2%nat) else 0) = byte.unsigned (rest !!! 2%nat)).
  { destruct (Z.eqb_spec (byte.unsigned (rest !!! 1%nat)) 0) as [Hz%byte_zero|]; [|done]. simpl.
    rewrite Hr in Hz. apply suffix_zero in Hz. rewrite <- Hr in Hz. by destruct rest as [|? [|]]; [| |simpl in Hz; lia]. }
  rewrite E1, E2, printf_conv_directive, Hd. rewrite <- (app_nil_r out).
  eapply emits_bind; [by eapply emits_directive|].
  assert (Hiff : rest !!! 0%nat = Byte.x00 <-> rest = []).
  { split; [|by intros ->]. intros Hz. rewrite Hr in Hz. apply suffix_zero in Hz. rewrite <- Hr in Hz.
    by destruct rest; [|simpl in Hz; lia]. }
  destruct (decide (rest = [])) as [He|Hne].
  - rewrite decide_True by tauto. apply emits_ret.
  - rewrite decide_False by tauto. apply emits_ret.
Qed.

Lemma emits_end n i ap : drop i fmt = [] -> emits (while (S n) (printf_body fmt) (i, ap)) tt [].
Proof.
  intros H. cbn [while]. apply (emits_bind _ _ (inr tt) _ [] []); [|apply emits_ret]. unfold printf_body, fmt_at.
  rewrite <- (Nat.add_0_r i), <- lookup_total_drop, Nat.add_0_r, H. apply emits_ret.
Qed.

(** An ordinary character of the format. *)
Lemma emits_char i ap c rest :
  drop i fmt = c :: rest -> c <> Byte.x25 -> emits (printf_body fmt (i, ap)) (inl (S i, ap)) [c].
Proof.
  intros H Hne. destruct (drop_cons_at _ _ _ _ H) as (Hc & _ & _). unfold printf_body, fmt_at. rewrite Hc.
  destruct (Z.eqb_spec (byte.unsigned c) 0) as [Hz%byte_zero|].
  { exfalso. apply nonul, (subseteq_drop i). rewrite H, Hz. left. }
  destruct (Z.eqb_spec (byte.unsigned c) 37) as [Hz|]; [by destruct c|]. cbn [negb]. eapply emits_then, (emits_putb c).
Qed.

Lemma emits_format n i ap out :
  format n (drop i fmt) ap = Some out -> (length (drop i fmt) <= n)%nat ->
  emits (while (S n) (printf_body fmt) (i, ap)) tt out.
Proof.
  revert i ap out. induction n as [|n IH]; intros i ap out Hf Hn.
  - assert (H : drop i fmt = []) by (by destruct (drop i fmt); [|simpl in Hn; lia]). rewrite H in Hf.
    injection Hf as <-. by apply emits_end.
  - destruct (drop i fmt) as [|c rest] eqn:H; [injection Hf as <-; by apply emits_end|].
    rewrite format_cons in Hf. destruct (drop_cons_at _ _ _ _ H) as (_ & Hr & _). simpl in Hn.
    assert (HL : (length (drop (S i) fmt) <= n)%nat) by (rewrite <- Hr; lia).
    remember (S n) as m. cbn [while]. subst m. destruct (decide (c = Byte.x25)) as [->|Hne].
    + destruct (directive_of _ _ _) as [d k] eqn:Hd. destruct (directive_out d ap) as [[o ap']|] eqn:Ho; [|done]. cbn in Hf.
      destruct (format n (drop (S k) rest) ap') as [more|] eqn:Hm; [|done]. injection Hf as <-.
      eapply emits_bind; [by eapply emits_percent|]. destruct (decide (rest = [])) as [->|Hre].
      * rewrite drop_nil in Hm. destruct n; injection Hm as <-; apply emits_ret.
      * replace (S (S i + k)) with (S i + S k)%nat by lia.
        apply IH; rewrite <- drop_drop; [by rewrite <- Hr|rewrite length_drop; lia].
    + destruct (format n rest ap) as [more|] eqn:Hm; [|done]. injection Hf as <-.
      apply (emits_bind _ _ (inl (S i, ap)) _ [c] more); [by eapply emits_char|]. apply IH; [by rewrite <- Hr|done].
Qed.

End Loop.

Lemma printf_sends (fmt : list byte) (ap : list va) (out : list byte) (s : tty)
  (Hn : Byte.x00 ∉ fmt) (Hf : format (length fmt) fmt ap = Some out)
  (Hs : settled (tt_sys s)) (Hl : lock_idle (tt_sys s) L_pr) (Hp : panicked s = false) :
  exists s', printf fmt ap s = Ok 0 s' /\ emitted (map byte.unsigned out) s s'.
Proof.
  pose proof (emits_format fmt Hn (length fmt) 0 ap out Hf ltac:(rewrite drop_0; lia)) as He.
  unfold printf. rewrite bind_gets. destruct (pr_locking s).
  - krun (zoom_acquire tt_sysL L_pr s Hl). set (s1 := lset _ _ s).
    destruct (He s1) as (s2 & E2 & h & -> & W & L); [|done|].
    { apply settled_nested; [apply cpu_push_wf, Hs|]. destruct Hs as [[? _] _]. simpl. lia. }
    krun E2. krun (zoom_release tt_sysL L_pr (tt_sys s) (set_tt_trace (tt_trace s1 ++ h) s1) Hs Hl eq_refl).
    eexists. split; [reflexivity|]. exists h. split; [by destruct s|done].
  - rewrite bind_ret. destruct (He s) as (s2 & E2 & Hm); [done|done|]. krun E2. rewrite bind_ret. by exists s2.
Qed.


End Printf.

Lemma ready_dev_drains : dev_drains ready_dev 1.
Proof. intros h. exists 0%nat. split; [lia|reflexivity]. Qed.

Lemma printint_correct_witness :
  exists s', printint ready_dev 1 (-42) 10 true tty_boot = Ok tt s' /\ sent s' = [45; 52; 50].
Proof.
  destruct (printint_correct ready_dev 1 ready_dev_drains (-42) 10 true tty_boot) as [(s' & E & He) _].
  - lia.
  - lia.
  - apply calm_sys_ok.
  - done.
  - apply Nat.leb_le. by vm_compute.
  - exists s'. split; [exact E|]. rewrite (emitted_sent _ _ _ (ty_latch _ tty_boot_ok) He). by vm_compute.
Defined.


