(* ===== verification/Either.v ===== *)
(** * [either_copyout] and [either_copyin] of [kernel/proc.c]

    Copies between a buffer of the kernel, whose contents are the list of bytes,
    and an address that is a user address of the current process or an address
    in the kernel's own memory. *)

From S2P Require Import Prelude Riscv Memory CString Sys Spinlock Proc Kalloc Vm.

(** [myproc()->pagetable] *)
Definition my_pagetable : M kmem Z :=
  let! p := zoom km_sysL myproc in
  let! i := zoom km_sysL (deref p) in
  gets (fun s => p_pagetable (proc_of (km_sys s) i)).

Definition either_copyout (user_dst : bool) (dst : Z) (src : list byte) : M kmem Z :=
  if user_dst then
    let! pagetable := my_pagetable in
    copyout pagetable dst src
  else
    upd_mem (fun m => st_bytes m dst src) ;; ret 0.

(** The result and the bytes copied. *)
Definition either_copyin (user_src : bool) (src len : Z) : M kmem (Z * list byte) :=
  if user_src then
    let! pagetable := my_pagetable in
    copyin pagetable src len
  else gets (fun s => (0, ld_bytes (km_mem s) src (Z.to_nat len))).
