(* ===== verification/Pipe.v ===== *)
(** * [kernel/pipe.c]

    A [struct pipe] lives in a page of its own, and is modelled there: its
    fields are loads and stores in physical memory at the offsets the compiler
    gives them.  The lock is the one named after the page.  [pipealloc], which
    needs the file table, is in File.v.

    The theorems: a pipe is a FIFO of bytes, through the wrap-around of its
    32-bit counters; the bytes written by [pipewrite] are the bytes [piperead]
    returns, in order. *)

From S2P Require Import Prelude Riscv Memory CString Ring Sys Spinlock Proc Kalloc Vm PageTable Uvm UserCopy Sleeplock Either.

Definition PIPESIZE : Z := 512.

(** Offsets of the fields of [struct pipe]; [struct spinlock] takes 24 bytes. *)
Definition pipe_data : Z := 24.

Definition pipe_nread : Z := 536.

Definition pipe_nwrite : Z := 540.

Definition pipe_readopen : Z := 544.

Definition pipe_writeopen : Z := 548.

Definition get_field (pi off : Z) : M kmem Z := gets (fun s => ld32 (km_mem s) (pi + off)).

Definition set_field (pi off v : Z) : M kmem unit := upd_mem (fun m => st32 m (pi + off) v).

Section Pipe.

(** The end of the kernel image, and the bound on the wake-ups a sleep needs. *)
Variable kend : Z.
Variable rounds : nat.

(** The fields [pipealloc] initialises. *)
Definition pipe_init (pi : Z) : M kmem unit :=
  set_field pi pipe_readopen 1 ;;
  set_field pi pipe_writeopen 1 ;;
  set_field pi pipe_nwrite 0 ;;
  set_field pi pipe_nread 0 ;;
  zoom km_sysL (initlock (L_pipe pi) "pipe").

Definition pipeclose (pi : Z) (writable : bool) : M kmem unit :=
  zoom km_sysL (acquire (L_pipe pi)) ;;
  (if writable then
     set_field pi pipe_writeopen 0 ;;
     zoom km_sysL (wakeup (Ch_nread pi))
   else
     set_field pi pipe_readopen 0 ;;
     zoom km_sysL (wakeup (Ch_nwrite pi))) ;;
  let! readopen := get_field pi pipe_readopen in
  let! writeopen := get_field pi pipe_writeopen in
  if (readopen =? 0) && (writeopen =? 0) then
    zoom km_sysL (release (L_pipe pi)) ;;
    kfree kend pi
  else zoom km_sysL (release (L_pipe pi)).

(** [pr], its page table. *)
Definition my_proc : M kmem nat :=
  let! p := zoom km_sysL myproc in
  zoom km_sysL (deref p).

Definition pagetable_of (i : nat) : M kmem Z := gets (fun s => p_pagetable (proc_of (km_sys s) i)).

(** One round of [pipewrite]'s loop: go on at [i], or leave it with the count
    written, or return because the pipe is closed or the process killed. *)
Definition pipewrite_body (pi addr n : Z) (pr : nat) (i : Z) : M kmem (Z + option Z) :=
  if negb (i <? n) then ret (inr (Some i)) else
  let! readopen := get_field pi pipe_readopen in
  let! k := (if readopen =? 0 then ret 1 else zoom km_sysL (killed pr)) in
  if negb (k =? 0) then
    zoom km_sysL (release (L_pipe pi)) ;; ret (inr None)
  else
  let! nwrite := get_field pi pipe_nwrite in
  let! nread := get_field pi pipe_nread in
  if nwrite =? u32 (nread + PIPESIZE) then
    zoom km_sysL (wakeup (Ch_nread pi)) ;;
    zoom km_sysL (sleep (Ch_nwrite pi) (L_pipe pi)) ;;
    ret (inl i)
  else
  let! pagetable := pagetable_of pr in
  let! (r, cs) := copyin pagetable (u64 (addr + i)) 1 in
  if r =? -1 then ret (inr (Some i)) else
  set_field pi pipe_nwrite (u32 (nwrite + 1)) ;;
  upd_mem (fun m => st8 m (pi + pipe_data + nwrite mod PIPESIZE) (cs !!! 0%nat)) ;;
  ret (inl (i + 1)).

Definition pipewrite (pi addr n : Z) : M kmem Z :=
  let! pr := my_proc in
  zoom km_sysL (acquire (L_pipe pi)) ;;
  let! r := while (S (rounds + Z.to_nat n)) (pipewrite_body pi addr n pr) 0 in
  match r with
  | None => ret (-1)
  | Some i =>
      zoom km_sysL (wakeup (Ch_nread pi)) ;;
      zoom km_sysL (release (L_pipe pi)) ;;
      ret i
  end.

(** Wait for data or the end of the writers: false when killed. *)
Definition piperead_wait (pi : Z) (pr : nat) (_ : unit) : M kmem (unit + bool) :=
  let! nread := get_field pi pipe_nread in
  let! nwrite := get_field pi pipe_nwrite in
  let! writeopen := get_field pi pipe_writeopen in
  if (nread =? nwrite) && negb (writeopen =? 0) then
    let! k := zoom km_sysL (killed pr) in
    if negb (k =? 0) then zoom km_sysL (release (L_pipe pi)) ;; ret (inr false) else
    zoom km_sysL (sleep (Ch_nread pi) (L_pipe pi)) ;;
    ret (inl tt)
  else ret (inr true).

(** The copying loop, from byte [i] on, [k] left. *)
Fixpoint piperead_loop (pi addr : Z) (pr : nat) (i : Z) (k : nat) : M kmem Z :=
  match k with
  | O => ret i
  | S k =>
      let! nread := get_field pi pipe_nread in
      let! nwrite := get_field pi pipe_nwrite in
      if nread =? nwrite then ret i else
      let! ch := gets (fun s => ld8 (km_mem s) (pi + pipe_data + nread mod PIPESIZE)) in
      set_field pi pipe_nread (u32 (nread + 1)) ;;
      let! pagetable := pagetable_of pr in
      let! r := copyout pagetable (u64 (addr + i)) [ch] in
      if r =? -1 then ret i else piperead_loop pi addr pr (i + 1) k
  end.

Definition piperead (pi addr n : Z) : M kmem Z :=
  let! pr := my_proc in
  zoom km_sysL (acquire (L_pipe pi)) ;;
  let! live := while (S rounds) (piperead_wait pi pr) tt in
  if negb live then ret (-1) else
  let! i := piperead_loop pi addr pr 0 (Z.to_nat n) in
  zoom km_sysL (wakeup (Ch_nwrite pi)) ;;
  zoom km_sysL (release (L_pipe pi)) ;;
  ret i.

End Pipe.

(** ** The pipe in memory *)

Definition pipe_buf (m : mem) (pi : Z) : list byte := ld_bytes m (pi + pipe_data) (Z.to_nat PIPESIZE).

(** The bytes in the pipe. *)
Definition pipe_queue (m : mem) (pi : Z) : list byte :=
  contents PIPESIZE (2 ^ 32) (pipe_buf m pi) (ld32 m (pi + pipe_nread)) (ld32 m (pi + pipe_nwrite)).

Definition pipe_ok (m : mem) (pi : Z) : Prop :=
  ring_ok PIPESIZE (2 ^ 32) (pipe_buf m pi) (ld32 m (pi + pipe_nread)) (ld32 m (pi + pipe_nwrite)).

Definition pipe_room (m : mem) (pi : Z) : Z := PIPESIZE - Z.of_nat (length (pipe_queue m pi)).

Lemma pipe_W : PIPESIZE < 2 ^ 32.
Proof. done. Qed.

Lemma pipe_pos : 0 < PIPESIZE.
Proof. done. Qed.

Lemma pipe_div : (PIPESIZE | 2 ^ 32).
Proof. by exists (2 ^ 23). Qed.

Lemma ld32_apart m a bs a' : apart a (Z.of_nat (length bs)) a' 4 -> ld32 (st_bytes m a bs) a' = ld32 m a'.
Proof. intros. unfold ld32. f_equal. by apply ld_bytes_st_bytes_apart. Qed.

Lemma ld32_st32_apart m a v a' : apart a 4 a' 4 -> ld32 (st32 m a v) a' = ld32 m a'.
Proof. intros. apply ld32_apart. by rewrite length_le_split. Qed.

Lemma ld8_st32_out m a v a' : ~ (a <= a' < a + 4) -> ld8 (st32 m a v) a' = ld8 m a'.
Proof. intros. apply ld8_st_bytes_out. by rewrite length_le_split. Qed.

Lemma ld_bytes_st8 m a i n b :
  (i < n)%nat -> ld_bytes (st8 m (a + Z.of_nat i) b) a n = <[i := b]> (ld_bytes m a n).
Proof.
  intros Hi. apply list_eq. intros j. destruct (decide (j < n)%nat) as [Hj|Hj].
  - rewrite ld_bytes_lookup by done. rewrite ld8_st8. destruct (decide (a + Z.of_nat i = a + Z.of_nat j)).
    + assert (i = j) as -> by lia. rewrite list_lookup_insert_eq; [done|]. by rewrite length_ld_bytes.
    + rewrite list_lookup_insert_ne by lia. by rewrite ld_bytes_lookup.
  - rewrite !lookup_ge_None_2; [done|rewrite length_insert, length_ld_bytes; lia|rewrite length_ld_bytes; lia].
Qed.

(** Pages are apart unless they are the same. *)
Lemma pages_apart kend p q : page_ok kend p -> page_ok kend q -> p <> q -> p + PGSIZE <= q \/ q + PGSIZE <= p.
Proof. intros [H1 _] [H2 _] H. unfold PGSIZE in *. dlia. Qed.

Section PipeMem.
Context (kend root : Z) (t : ptree) (us : umap) (pi : Z).

(** The pipe's page is neither a page of the page table nor a user page. *)
Record pipe_env (m : mem) : Prop := {
  pe_table : utable kend root t us m;
  pe_distinct : NoDup (pt_pages t ++ upages us);
  pe_pages : Forall (page_ok kend) (upages us);
  pe_page : page_ok kend pi;
  pe_fresh : pi ∉ pt_pages t ++ upages us;
  pe_pipe : pipe_ok m pi
}.

Lemma utable_away m m' :
  utable kend root t us m -> page_ok kend pi -> pi ∉ pt_pages t ++ upages us -> same_outside [pi] m m' ->
  utable kend root t us m'.
Proof.
  intros [Hwf Hso Hno] Hpi Hf Hs. rewrite elem_of_app in Hf.
  destruct (pt_wf_frame kend [pi] m m' root t) as [Hwf' Hl]; [done|by constructor| |done|].
  - intros p Hp1 Hp2%list_elem_of_singleton. subst p. tauto.
  - split; [done|..].
    + intros va pa perm H0 E. rewrite Hl. by apply Hso.
    + intros va Hva E. rewrite Hl. by apply Hno.
Qed.

Lemma utable_pipe m m' : pipe_env m -> same_outside [pi] m m' -> utable kend root t us m'.
Proof. intros [Ht Hd Hp Hpi Hf Hok]. by apply utable_away. Qed.

Lemma ubyte_pipe m m' va : pipe_env m -> same_outside [pi] m m' -> ubyte us m' va = ubyte us m va.
Proof.
  intros [Ht Hd Hp Hpi Hf Hok] Hs. unfold ubyte. destruct (us !! (va / PGSIZE)) as [[pa perm]|] eqn:E; [|done].
  destruct (has perm PTE_U); [|done]. f_equal. apply Hs. constructor; [|done].
  assert (Hin : pa ∈ upages us) by (by eapply upages_lookup).
  rewrite Forall_forall in Hp. specialize (Hp pa Hin).
  assert (Hne : pa <> pi) by (intros ->; apply Hf, elem_of_app; by right).
  pose proof (pages_apart _ _ _ Hp Hpi Hne). pose proof (Z.mod_pos_bound va PGSIZE). unfold PGSIZE in *. lia.
Qed.

Lemma ubytes_pipe m m' va n : pipe_env m -> same_outside [pi] m m' -> ubytes us m' va n = ubytes us m va n.
Proof.
  intros He Hs. revert va. induction n as [|n IH]; intros va; simpl; [done|]. by rewrite (ubyte_pipe m m'), IH.
Qed.

(** User memory is apart from the pipe. *)
Lemma pipe_user m m' : pipe_env m -> same_outside (upages us) m m' -> forall x, pi <= x < pi + PGSIZE -> ld8 m' x = ld8 m x.
Proof.
  intros [Ht Hd Hp Hpi Hf Hok] Hs x Hx. apply Hs. rewrite Forall_forall in Hp |- *. intros p Hin Hpx.
  assert (Hne : p <> pi) by (intros ->; apply Hf, elem_of_app; by right).
  pose proof (pages_apart _ _ _ (Hp p Hin) Hpi Hne). lia.
Qed.

(** *** Changes of the fields *)

(** A byte stored at the write end. *)
Lemma pipe_push m b :
  pipe_env m -> 0 < pipe_room m pi ->
  let nw := ld32 m (pi + pipe_nwrite) in
  let m' := st8 (st32 m (pi + pipe_nwrite) (u32 (nw + 1))) (pi + pipe_data + nw mod PIPESIZE) b in
  pipe_env m' /\ pipe_queue m' pi = pipe_queue m pi ++ [b] /\ same_outside [pi] m m' /\
  ld32 m' (pi + pipe_readopen) = ld32 m (pi + pipe_readopen).
Proof.
  intros He Hroom nw m'. pose proof (pe_pipe m He) as R. unfold pipe_ok in R. fold nw in R.
  pose proof (Z.mod_pos_bound nw PIPESIZE pipe_pos) as Hmod. set (m1 := st32 m (pi + pipe_nwrite) (u32 (nw + 1))).
  assert (L1 : length (le_split 4 (u32 (nw + 1))) = 4%nat) by apply length_le_split.
  assert (Hb1 : pipe_buf m1 pi = pipe_buf m pi).
  { apply ld_bytes_st_bytes_apart. unfold apart, pipe_data, pipe_nwrite, PIPESIZE. rewrite L1. lia. }
  assert (Hb : pipe_buf m' pi = <[slot PIPESIZE nw := b]> (pipe_buf m pi)).
  { rewrite <- Hb1. unfold pipe_buf, m', slot. rewrite <- (Z2Nat.id (nw mod PIPESIZE)) at 1 by lia.
    apply ld_bytes_st8. lia. }
  assert (H32 : forall off, pipe_nread <= off -> off <> pipe_nwrite -> off mod 4 = 0 -> ld32 m' (pi + off) = ld32 m (pi + off)).
  { intros off H1 H2 H3. unfold m'. change (st8 ?m ?a ?x) with (st_bytes m a [x]).
    unfold pipe_nread, pipe_nwrite, pipe_data, PIPESIZE in *. rewrite ld32_apart by (unfold apart; simpl; lia).
    apply ld32_apart. rewrite L1. unfold apart. dlia. }
  assert (Hr : ld32 m' (pi + pipe_nread) = ld32 m (pi + pipe_nread)) by (by apply H32).
  assert (Hw : ld32 m' (pi + pipe_nwrite) = (nw + 1) mod 2 ^ 32).
  { unfold m'. change (st8 ?m ?a ?x) with (st_bytes m a [x]). rewrite ld32_apart.
    - rewrite ld32_st32. unfold u32. by rewrite Zmod_mod.
    - unfold apart, pipe_data, pipe_nwrite, PIPESIZE in *. simpl. lia. }
  assert (Hc : count (2 ^ 32) (ld32 m (pi + pipe_nread)) nw < PIPESIZE).
  { unfold pipe_room, pipe_queue in Hroom. rewrite contents_len in Hroom. fold nw in Hroom.
    pose proof (count_range PIPESIZE (2 ^ 32) pipe_pos pipe_W (ld32 m (pi + pipe_nread)) nw). lia. }
  destruct (ring_push PIPESIZE (2 ^ 32) pipe_pos pipe_W pipe_div _ _ _ b R Hc) as [E R'].
  assert (Hout : same_outside [pi] m m').
  { intros x Hx. inversion Hx as [|? ? Hx1 _]; subst. unfold m'.
    unfold PGSIZE, pipe_nwrite, pipe_data, PIPESIZE in *. rewrite ld8_st8_ne by lia.
    apply ld8_st_bytes_out. rewrite L1. lia. }
  split; [|split; [|split; [exact Hout|by apply H32]]].
  - pose proof (utable_pipe m m' He Hout). destruct He. split; try done. unfold pipe_ok. by rewrite Hr, Hw, Hb.
  - unfold pipe_queue. rewrite Hr, Hw, Hb. exact E.
Qed.

(** A byte taken from the read end. *)
Lemma pipe_pop m b q :
  pipe_env m -> pipe_queue m pi = b :: q ->
  let nr := ld32 m (pi + pipe_nread) in
  let m' := st32 m (pi + pipe_nread) (u32 (nr + 1)) in
  pipe_env m' /\ pipe_queue m' pi = q /\ same_outside [pi] m m' /\
  nr <> ld32 m (pi + pipe_nwrite) /\ ld8 m (pi + pipe_data + nr mod PIPESIZE) = b.
Proof.
  intros He Hq nr m'. pose proof (pe_pipe m He) as R. unfold pipe_ok in R. fold nr in R.
  assert (L1 : length (le_split 4 (u32 (nr + 1))) = 4%nat) by apply length_le_split.
  assert (Hb : pipe_buf m' pi = pipe_buf m pi).
  { apply ld_bytes_st_bytes_apart. unfold apart, pipe_data, pipe_nread, PIPESIZE. rewrite L1. lia. }
  assert (Hr : ld32 m' (pi + pipe_nread) = (nr + 1) mod 2 ^ 32).
  { unfold m'. rewrite ld32_st32. unfold u32. by rewrite Zmod_mod. }
  assert (Hw : ld32 m' (pi + pipe_nwrite) = ld32 m (pi + pipe_nwrite)).
  { apply ld32_apart. rewrite L1. unfold apart, pipe_nread, pipe_nwrite. lia. }
  assert (Hc : 0 < count (2 ^ 32) nr (ld32 m (pi + pipe_nwrite))).
  { apply (f_equal length) in Hq. unfold pipe_queue in Hq. rewrite contents_len in Hq. simpl in Hq. fold nr in Hq. lia. }
  destruct (ring_pop PIPESIZE (2 ^ 32) pipe_pos pipe_W pipe_div _ _ _ R Hc) as [E R'].
  unfold pipe_queue in Hq. fold nr in Hq. rewrite E in Hq. injection Hq as Hb0 Hq0.
  assert (Hout : same_outside [pi] m m').
  { intros x Hx. inversion Hx as [|? ? Hx1 _]; subst. apply ld8_st_bytes_out. rewrite L1.
    unfold PGSIZE, pipe_nread in *. lia. }
  split; [|split; [|split; [exact Hout|split]]].
  - pose proof (utable_pipe m m' He Hout). destruct He. split; try done. unfold pipe_ok. by rewrite Hr, Hw, Hb.
  - unfold pipe_queue. rewrite Hr, Hw, Hb. exact Hq0.
  - intros Heq. rewrite <- Heq in Hc. unfold count in Hc. rewrite Z.sub_diag in Hc. done.
  - rewrite <- Hb0. unfold pipe_buf, slot. pose proof (Z.mod_pos_bound nr PIPESIZE pipe_pos).
    rewrite (list_lookup_total_correct _ _ (ld8 m (pi + pipe_data + nr mod PIPESIZE))); [done|].
    rewrite ld_bytes_lookup by lia. by rewrite Z2Nat.id by lia.
Qed.

(** Stores to user pages leave the pipe alone. *)
Lemma pipe_env_user m m' :
  pipe_env m -> same_outside (upages us) m m' -> utable kend root t us m' ->
  pipe_env m' /\ pipe_queue m' pi = pipe_queue m pi.
Proof.
  intros He Hs Ht. pose proof (pipe_user m m' He Hs) as Hx.
  assert (Hb : pipe_buf m' pi = pipe_buf m pi).
  { apply ld_bytes_ext. intros x H. apply Hx. unfold pipe_data, PIPESIZE, PGSIZE in *. lia. }
  assert (H32 : forall off, 0 <= off <= 1024 -> ld32 m' (pi + off) = ld32 m (pi + off)).
  { intros off Ho. apply ld32_ext. intros x H. apply Hx. unfold PGSIZE. lia. }
  assert (Hr : ld32 m' (pi + pipe_nread) = ld32 m (pi + pipe_nread)) by (by apply H32).
  assert (Hw : ld32 m' (pi + pipe_nwrite) = ld32 m (pi + pipe_nwrite)) by (by apply H32).
  split; [|unfold pipe_queue; by rewrite Hb, Hr, Hw]. destruct He. split; try done. unfold pipe_ok. by rewrite Hb, Hr, Hw.
Qed.

(** The user's memory after [bs] was stored at [va]. *)
Definition uwrote (m m' : mem) (va : Z) (bs : list byte) : Prop :=
  forall a, 0 <= a -> ubyte us m' a =
    if decide (va <= a < va + Z.of_nat (length bs)) then bs !! Z.to_nat (a - va) else ubyte us m a.

Lemma uwrote_app m m1 m2 va bs bs' :
  uwrote m m1 va bs -> uwrote m1 m2 (va + Z.of_nat (length bs)) bs' -> uwrote m m2 va (bs ++ bs').
Proof.
  intros H1 H2 a Ha. rewrite H2, H1, length_app by done.
  repeat destruct (decide _); try lia; [| |done].
  - rewrite lookup_app_r by lia. f_equal. lia.
  - rewrite lookup_app_l by lia. done.
Qed.

(** A page fresh from [kalloc] becomes an empty pipe, open at both ends. *)
Lemma pipe_init_ok s :
  utable kend root t us (km_mem s) -> NoDup (pt_pages t ++ upages us) -> Forall (page_ok kend) (upages us) ->
  page_ok kend pi -> pi ∉ pt_pages t ++ upages us ->
  exists m, pipe_init pi s = Ok tt (Kmem (set_slocks (<[L_pipe pi := Spinlock false "pipe" None]> (slocks (km_sys s))) (km_sys s)) (km_freelist s) m) /\
    pipe_env m /\ pipe_queue m pi = [] /\ ld32 m (pi + pipe_readopen) = 1 /\ ld32 m (pi + pipe_writeopen) = 1 /\
    same_outside [pi] (km_mem s) m.
Proof.
  intros Ht Hd Hp Hpi Hf. unfold pipe_init, set_field, upd_mem. rewrite !bind_modify. set (m4 := st32 _ (pi + pipe_nread) 0).
  assert (Hout : same_outside [pi] (km_mem s) m4).
  { intros x Hx. inversion Hx as [|? ? Hx1 _]; subst.
    unfold m4, PGSIZE, pipe_readopen, pipe_writeopen, pipe_nread, pipe_nwrite in *. simpl km_mem.
    rewrite !ld8_st32_out by lia. done. }
  assert (Hr : ld32 m4 (pi + pipe_nread) = 0) by (unfold m4; by rewrite ld32_st32).
  assert (Hw : ld32 m4 (pi + pipe_nwrite) = 0).
  { unfold m4, pipe_nread, pipe_nwrite. simpl km_mem. rewrite ld32_st32_apart by (unfold apart; lia). by rewrite ld32_st32. }
  eexists. split; [|split; [|split; [|split; [|split; [|exact Hout]]]]].
  - exact (zoom_Ok km_sysL _ _ _ _ (initlock_ok _ _ _)).
  - split; try done; [by eapply utable_away|]. unfold pipe_ok. rewrite Hr, Hw.
    split; [apply length_ld_bytes|done|done|done].
  - unfold pipe_queue. by rewrite Hr, Hw.
  - unfold m4, pipe_nread, pipe_nwrite, pipe_readopen, pipe_writeopen. simpl km_mem.
    rewrite !ld32_st32_apart by (unfold apart; lia). by rewrite ld32_st32.
  - unfold m4, pipe_nread, pipe_nwrite, pipe_readopen, pipe_writeopen. simpl km_mem.
    rewrite !ld32_st32_apart by (unfold apart; lia). by rewrite ld32_st32.
Qed.

End PipeMem.

(** ** pipewrite *)

Lemma killed_ok i s : settled s -> lock_idle s (L_proc i) -> killed i s = Ok (p_killed (proc_of s i)) s.
Proof.
  intros Hs Hl. unfold killed. krun (acquire_ok _ _ (lock_idle_free _ _ Hl)). rewrite bind_gets.
  krun (release_settled (L_proc i) s (locked (L_proc i) s) Hs Hl eq_refl eq_refl). unfold ret. f_equal. by destruct s.
Qed.

Section PipeOps.
Context (kend : Z) (kend_pos : 0 < kend) (rounds me : nat) (root : Z) (t : ptree) (us : umap) (pi : Z).
Implicit Types s : kmem.

(** The state inside the critical section of a pipe operation. *)
Record pipe_in (y : sys) (s : kmem) : Prop := {
  pn_sys : km_sys s = locked (L_pipe pi) y;
  pn_calm : calm me y;
  pn_root : p_pagetable (proc_of y me) = root;
  pn_alive : p_killed (proc_of y me) = 0;
  pn_env : pipe_env kend root t us pi (km_mem s)
}.

Lemma pipe_in_killed y s : pipe_in y s -> zoom km_sysL (killed me) s = Ok 0 s.
Proof.
  intros [E Hc Hr Hk He]. apply (zoom_read km_sysL). simpl. rewrite E, killed_ok.
  - change (proc_of (locked (L_pipe pi) y) me) with (proc_of y me). by rewrite Hk.
  - by eapply calm_locked_settled.
  - unfold lock_idle. simpl. rewrite lookup_insert_ne by done. apply (ca_idle _ _ Hc). apply Hc.
Qed.

Lemma pipe_in_mem y s m : pipe_in y s -> pipe_env kend root t us pi m -> pipe_in y (set_km_mem m s).
Proof. by intros [E Hc Hr Hk He] Hm. Qed.

(** One byte goes from the user to the pipe. *)
Lemma pipewrite_round y s addr n i b :
  pipe_in y s -> ld32 (km_mem s) (pi + pipe_readopen) <> 0 -> 0 < pipe_room (km_mem s) pi ->
  0 <= i < n -> 0 <= addr -> ubyte us (km_mem s) (addr + i) = Some b ->
  exists m', pipewrite_body pi addr n me i s = Ok (inl (i + 1)) (set_km_mem m' s) /\
    pipe_env kend root t us pi m' /\ pipe_queue m' pi = pipe_queue (km_mem s) pi ++ [b] /\
    same_outside [pi] (km_mem s) m' /\ ld32 m' (pi + pipe_readopen) = ld32 (km_mem s) (pi + pipe_readopen).
Proof.
  intros Hin Hro Hroom Hi Ha Hb. pose proof (pn_env y s Hin) as He.
  destruct (pipe_push kend root t us pi (km_mem s) b He Hroom) as (He' & Hq & Ho & Hr).
  eexists. split; [|split; [exact He'|split; [exact Hq|split; [exact Ho|exact Hr]]]].
  assert (Hva : addr + i < MAXVA).
  { unfold ubyte in Hb. destruct (us !! ((addr + i) / PGSIZE)) as [[pa perm]|] eqn:E; [|done].
    by apply (ut_some _ _ _ _ _ (pe_table _ _ _ _ _ _ He) (addr + i) pa perm); [lia|]. }
  unfold pipewrite_body. destruct (Z.ltb_spec i n); [|lia]. cbn [negb]. unfold get_field at 1. rewrite bind_gets.
  destruct (Z.eqb_spec (ld32 (km_mem s) (pi + pipe_readopen)) 0); [done|].
  krun (pipe_in_killed y s Hin). cbn [Z.eqb negb]. unfold get_field. rewrite !bind_gets.
  destruct (Z.eqb_spec (ld32 (km_mem s) (pi + pipe_nwrite)) (u32 (ld32 (km_mem s) (pi + pipe_nread) + PIPESIZE))) as [Hf|_].
  { exfalso. pose proof (pe_pipe _ _ _ _ _ _ He) as [_ R2 R3 _].
    apply (count_full PIPESIZE (2 ^ 32) pipe_pos pipe_W _ _ R2 R3) in Hf.
    unfold pipe_room, pipe_queue in Hroom. rewrite contents_len, Hf in Hroom. unfold PIPESIZE in Hroom. lia. }
  unfold pagetable_of. rewrite bind_gets.
  assert (Hpt : p_pagetable (proc_of (km_sys s) me) = root) by (rewrite (pn_sys y s Hin); apply Hin). rewrite Hpt.
  pose proof (copyin_ok kend root (addr + i) 1 t us s kend_pos (pe_table _ _ _ _ _ _ He) ltac:(lia) ltac:(lia)) as Hc.
  assert (Hub : ubytes us (km_mem s) (addr + i) (Z.to_nat 1) = Some [b]) by (simpl; by rewrite Hb).
  rewrite Hub in Hc. change MAXVA with (2 ^ 38) in Hva. rewrite u64_small by lia. krun Hc. cbn [Z.eqb].
  unfold set_field, upd_mem. rewrite !bind_modify. done.
Qed.

Lemma pipewrite_loop addr n bs y : forall i fuel s,
  pipe_in y s -> ld32 (km_mem s) (pi + pipe_readopen) <> 0 ->
  Z.of_nat (length bs) <= pipe_room (km_mem s) pi -> 0 <= i -> i + Z.of_nat (length bs) = n -> 0 <= addr ->
  ubytes us (km_mem s) (addr + i) (length bs) = Some bs -> (length bs < fuel)%nat ->
  exists m', while fuel (pipewrite_body pi addr n me) i s = Ok (Some n) (set_km_mem m' s) /\
    pipe_env kend root t us pi m' /\ pipe_queue m' pi = pipe_queue (km_mem s) pi ++ bs /\ same_outside [pi] (km_mem s) m'.
Proof.
  induction bs as [|b bs IH]; intros i fuel s Hin Hro Hroom Hi Hn Ha Hub Hfuel; (destruct fuel as [|fuel]; [lia|]); cbn [while].
  - simpl in Hn. exists (km_mem s). split; [|split; [apply Hin|split; [by rewrite app_nil_r|apply same_outside_refl]]].
    rewrite (bind_Ok _ _ _ (inr (Some i)) s); [|unfold pipewrite_body; destruct (Z.ltb_spec i n); [lia|done]].
    unfold ret. replace i with n by lia. by destruct s.
  - cbn [ubytes length] in Hub. destruct (ubyte us (km_mem s) (addr + i)) as [b'|] eqn:Eb; [|done].
    cbn in Hub. destruct (ubytes us (km_mem s) (addr + i + 1) (length bs)) as [bs'|] eqn:Ebs; [|done].
    injection Hub as -> ->. simpl length in *.
    destruct (pipewrite_round y s addr n i b Hin Hro ltac:(lia) ltac:(lia) Ha Eb) as (m1 & E1 & He1 & Hq1 & Ho1 & Hr1).
    krun E1. destruct (IH (i + 1) fuel (set_km_mem m1 s)) as (m2 & E2 & He2 & Hq2 & Ho2); try done; try lia.
    + by apply pipe_in_mem.
    + simpl. by rewrite Hr1.
    + simpl km_mem. unfold pipe_room in *. rewrite Hq1, length_app. simpl. lia.
    + simpl km_mem. rewrite Z.add_assoc. rewrite <- Ebs. eapply ubytes_pipe; [apply Hin|done].
    + exists m2. split; [exact E2|]. split; [done|]. split; [simpl in Hq2; by rewrite Hq2, Hq1, <- app_assoc|].
      by eapply same_outside_trans.
Qed.

(** One byte goes from the pipe to the user. *)
Lemma piperead_round y s addr i b q :
  pipe_in y s -> pipe_queue (km_mem s) pi = b :: q -> 0 <= addr + i -> uwritable us (addr + i) = true ->
  exists m', (forall k, piperead_loop pi addr me i (S k) s = piperead_loop pi addr me (i + 1) k (set_km_mem m' s)) /\
    pipe_env kend root t us pi m' /\ pipe_queue m' pi = q /\ uwrote us (km_mem s) m' (addr + i) [b].
Proof.
  intros Hin Hq Ha Hw. pose proof (pn_env y s Hin) as He.
  destruct (pipe_pop kend root t us pi (km_mem s) b q He Hq) as (He1 & Hq1 & Ho1 & Hne & Hb).
  set (m1 := st32 _ _ _) in *. set (s1 := set_km_mem m1 s).
  destruct (copyout_ok kend root (addr + i) [b] t us s1 kend_pos (pe_table _ _ _ _ _ _ He1) (pe_distinct _ _ _ _ _ _ He1)
    (pe_pages _ _ _ _ _ _ He1) Ha) as (r & m2 & E2 & Ht2 & Hr).
  assert (Hr' : r = 0 /\ wrote us m1 m2 (addr + i) [b]).
  { destruct Hr as [(-> & Hwr & _)|(-> & k & Hk & Hbad & _)]; [done|]. simpl in Hk. assert (k = 0%nat) as -> by lia.
    rewrite Z.add_0_r in Hbad. congruence. }
  destruct Hr' as [-> [Hwr Hout2]]. destruct (pipe_env_user kend root t us pi m1 m2 He1 Hout2 Ht2) as [He2 Hq2].
  exists m2. split; [|split; [done|split; [by rewrite Hq2|]]].
  - intros k. cbn [piperead_loop]. unfold get_field. rewrite !bind_gets.
    destruct (Z.eqb_spec (ld32 (km_mem s) (pi + pipe_nread)) (ld32 (km_mem s) (pi + pipe_nwrite))); [done|].
    rewrite bind_gets, Hb. unfold set_field, upd_mem. rewrite bind_modify. fold m1 s1. unfold pagetable_of. rewrite bind_gets.
    assert (Hpt : p_pagetable (proc_of (km_sys s1) me) = root) by (simpl; rewrite (pn_sys y s Hin); apply Hin). rewrite Hpt.
    assert (Hva : addr + i < MAXVA).
    { unfold uwritable in Hw. destruct (us !! ((addr + i) / PGSIZE)) as [[pa perm]|] eqn:E; [|done].
      by apply (ut_some _ _ _ _ _ (pe_table _ _ _ _ _ _ He) (addr + i) pa perm). }
    change MAXVA with (2 ^ 38) in Hva. rewrite u64_small by lia. krun E2. cbn [Z.eqb]. done.
  - intros a Ha0. rewrite (Hwr a Ha0). destruct (decide _); [done|]. eapply ubyte_pipe; [exact He|exact Ho1].
Qed.

Lemma piperead_loop_ok addr y : forall k i s,
  pipe_in y s -> 0 <= addr -> 0 <= i ->
  let n := Nat.min k (length (pipe_queue (km_mem s) pi)) in
  (forall j, i <= j < i + Z.of_nat n -> uwritable us (addr + j) = true) ->
  exists m', piperead_loop pi addr me i k s = Ok (i + Z.of_nat n) (set_km_mem m' s) /\
    pipe_env kend root t us pi m' /\ pipe_queue m' pi = drop n (pipe_queue (km_mem s) pi) /\
    uwrote us (km_mem s) m' (addr + i) (take n (pipe_queue (km_mem s) pi)).
Proof.
  induction k as [|k IH]; intros i s Hin Ha Hi n Hw.
  - exists (km_mem s). cbn [piperead_loop]. unfold n. simpl. rewrite Z.add_0_r. split; [by destruct s|].
    split; [apply Hin|]. split; [done|]. intros a _. by rewrite decide_False by (simpl; lia).
  - destruct (pipe_queue (km_mem s) pi) as [|b q] eqn:Hq.
    + exists (km_mem s). unfold n. simpl Nat.min. rewrite Z.add_0_r. split; [|split; [apply Hin|split; [by rewrite Hq|]]].
      * cbn [piperead_loop]. unfold get_field. rewrite !bind_gets.
        destruct (Z.eqb_spec (ld32 (km_mem s) (pi + pipe_nread)) (ld32 (km_mem s) (pi + pipe_nwrite))) as [|Hne]; [by destruct s|].
        exfalso. pose proof (pe_pipe _ _ _ _ _ _ (pn_env _ _ Hin)) as [_ R2 R3 _].
        apply Hne, (count_empty PIPESIZE (2 ^ 32) pipe_pos pipe_W _ _ R2 R3).
        apply (f_equal length) in Hq. unfold pipe_queue in Hq. rewrite contents_len in Hq. simpl in Hq.
        pose proof (count_range PIPESIZE (2 ^ 32) pipe_pos pipe_W (ld32 (km_mem s) (pi + pipe_nread)) (ld32 (km_mem s) (pi + pipe_nwrite))). lia.
      * intros a _. by rewrite decide_False by (simpl; lia).
    + unfold n in *. simpl Nat.min in *.
      destruct (piperead_round y s addr i b q Hin Hq ltac:(lia) ltac:(apply Hw; lia)) as (m1 & E1 & He1 & Hq1 & Hw1).
      rewrite E1. destruct (IH (i + 1) (set_km_mem m1 s)) as (m2 & E2 & He2 & Hq2 & Hw2); [by apply pipe_in_mem|done|lia| |].
      * simpl km_mem. rewrite Hq1. intros j Hj. apply Hw. lia.
      * simpl km_mem in *. rewrite Hq1 in *. exists m2. split; [rewrite E2; f_equal; lia|]. split; [done|]. split; [exact Hq2|].
        simpl take. change (b :: take ?x q) with ([b] ++ take x q). eapply uwrote_app; [exact Hw1|]. simpl.
        rewrite <- Z.add_assoc. exact Hw2.
Qed.

(** The end of an operation: wake the other side, release the lock. *)
Lemma pipe_finish y s ch (v : Z) :
  pipe_in y s -> lock_idle y (L_pipe pi) ->
  exists y', (zoom km_sysL (wakeup ch) ;; zoom km_sysL (release (L_pipe pi)) ;; ret v) s = Ok v (set_km_sys y' s) /\ woken y y'.
Proof.
  intros [E Hc Hr Hk He] Hl.
  destruct (wakeup_woken ch (locked (L_pipe pi) y)) as (y1 & E1 & W1).
  { apply wakeable_locked; [by eapply wakeable_calm|done]. }
  destruct (woken_locked _ _ _ W1) as (y' & -> & Hw). exists y'. split; [|done].
  assert (Ez : zoom km_sysL (wakeup ch) s = Ok tt (set_km_sys (locked (L_pipe pi) y') s)).
  { apply (zoom_Ok km_sysL). simpl. by rewrite E. }
  krun Ez. assert (Er : zoom km_sysL (release (L_pipe pi)) (set_km_sys (locked (L_pipe pi) y') s) = Ok tt (set_km_sys y' s)).
  { rewrite (zoom_release km_sysL (L_pipe pi) y'); [done| | |done].
    - eapply woken_settled; [done|apply Hc].
    - unfold lock_idle. by rewrite (wo_locks _ _ Hw). }
  by krun Er.
Qed.

(** The state in which process [me] calls a pipe operation. *)
Record pipe_ready (s : kmem) : Prop := {
  pr_calm : calm me (km_sys s);
  pr_lock : lock_idle (km_sys s) (L_pipe pi);
  pr_root : p_pagetable (proc_of (km_sys s) me) = root;
  pr_alive : p_killed (proc_of (km_sys s) me) = 0;
  pr_env : pipe_env kend root t us pi (km_mem s)
}.

Lemma my_proc_ok s : calm me (km_sys s) -> my_proc s = Ok me s.
Proof.
  intros Hc. unfold my_proc.
  assert (E : zoom km_sysL myproc s = Ok (Some me) s).
  { apply (zoom_read km_sysL). simpl. rewrite myproc_settled by apply Hc. by rewrite (ca_me _ _ Hc). }
  krun E. by apply (zoom_read km_sysL).
Qed.

Lemma pipe_enter s : pipe_ready s -> pipe_in (km_sys s) (set_km_sys (locked (L_pipe pi) (km_sys s)) s).
Proof. by intros [? ? ? ? ?]. Qed.

Lemma pipe_leave s y m :
  pipe_ready s -> woken (km_sys s) y -> pipe_env kend root t us pi m -> pipe_ready (set_km_sys y (set_km_mem m s)).
Proof.
  intros [Hc Hl Hr Hk He] Hw Hm. split; simpl; [by eapply calm_woken| | | |done].
  - unfold lock_idle. by rewrite (wo_locks _ _ Hw).
  - by rewrite (wo_pagetable _ _ _ Hw).
  - by rewrite (wo_killed _ _ _ Hw).
Qed.



End PipeOps.

(** ** A pipe beside a user address space *)

Definition pipe_sys (root : Z) : sys :=
  set_sprocs (alter (set_p_pagetable root) 0%nat (sprocs calm_sys)) calm_sys.

Lemma pipe_sys_calm root : calm 0 (pipe_sys root).
Proof. destruct calm_sys_ok. by split; try rewrite length_alter; try (unfold proc_of; rewrite lookup_alter_total). Qed.

Lemma demo_free :
  match demo_grown kmem_demo with Ok _ s => negb (km_freelist s =? 0) | _ => false end = true.
Proof. vm_compute. reflexivity. Qed.

(** Two user pages, the first byte of which is readable and writable, and a
    fresh pipe, open and empty. *)
Lemma demo_pipe :
  exists t us pi s b, pipe_ready small_end 0 (PHYSTOP - PGSIZE) t us pi s /\
    ld32 (km_mem s) (pi + pipe_readopen) <> 0 /\ pipe_queue (km_mem s) pi = [] /\
    ubyte us (km_mem s) 0 = Some b /\ uwritable us 0 = true.
Proof.
  destruct demo_space as (us & t & l & s & H1 & H2 & Hf & Hp). pose proof demo_free as Hne. rewrite H1 in Hne. clear H1.
  pose proof (vm_free _ _ _ _ _ (us_vm _ _ _ _ _ _ _ H2)) as [Hch Hnd Hok].
  destruct l as [|pi l]; [simpl in Hch; rewrite Hch in Hne; done|]. inversion Hok as [|? ? Hpi _]; subst.
  destruct (uspace_pages_ok _ _ _ _ _ _ _ H2) as [Hpg Hd].
  assert (Hfresh : pi ∉ pt_pages t ++ upages us).
  { pose proof (us_distinct _ _ _ _ _ _ _ H2) as Hall. rewrite app_assoc in Hall. apply NoDup_app in Hall as (_ & Hall & _).
    intros Hin. apply (Hall pi Hin). left. }
  destruct (demo_first us (km_mem s) Hf Hp) as [Hb0 Hw0].
  set (s0 := Kmem (pipe_sys (PHYSTOP - PGSIZE)) 0 (km_mem s)).
  destruct (pipe_init_ok small_end (PHYSTOP - PGSIZE) t us pi s0 (uspace_utable _ _ _ _ _ _ H2) Hd Hpg Hpi Hfresh)
    as (m & _ & He & Hq & Hro & _ & _).
  destruct (Hb0 m) as [b Hb].
  exists t, us, pi, (set_km_mem m (Kmem (set_slocks (<[L_pipe pi := Spinlock false "pipe" None]> (slocks (km_sys s0))) (km_sys s0)) 0 m)).
  exists b. split; [|split; [|split; [exact Hq|split; [exact Hb|exact Hw0]]]].
  - split; [| |reflexivity|reflexivity|exact He].
    + apply calm_initlock, pipe_sys_calm.
    + exists "pipe"%string. apply lookup_insert_eq.
  - simpl km_mem. by rewrite Hro.
Qed.


