(* ===== verification/ProcMem.v ===== *)
(** * [kernel/proc.c] and [kernel/syscall.c]: processes and their memory

    The operations on a process that need physical memory and page tables:
    allocating and freeing a [struct proc], its page table and trap frame,
    growing its memory, [wait], and fetching system call arguments from the
    trap frame and from user memory.  The trap frame is the page
    [p->trapframe], read and written at the offsets of proc.h. *)

From S2P Require Import Prelude Riscv Memory CString Sys Spinlock Proc Kalloc Vm Sleeplock Either Pipe.

(** ** struct trapframe: offsets *)

Definition tf_kernel_satp : Z := 0.

Definition tf_kernel_sp : Z := 8.

Definition tf_kernel_trap : Z := 16.

Definition tf_epc : Z := 24.

Definition tf_kernel_hartid : Z := 32.

Definition tf_sp : Z := 48.

Definition tf_a0 : Z := 112.

(** Argument register [n], for [n] up to 7. *)
Definition tf_a (n : Z) : Z := tf_a0 + 8 * n.

Definition sizeof_trapframe : Z := 288.

Definition get_proc (i : nat) : M kmem proc := gets (fun s => proc_of (km_sys s) i).

Definition set_proc (i : nat) (f : proc -> proc) : M kmem unit := zoom km_sysL (upd_proc i f).

Definition get_tf (i : nat) (off : Z) : M kmem Z :=
  let! p := get_proc i in
  ldm (p_trapframe p + off).

Definition set_tf (i : nat) (off v : Z) : M kmem unit :=
  let! p := get_proc i in
  stm (p_trapframe p + off) v.

(** [safestrcpy] between two arrays of the kernel: [dst] of [n] bytes and the
    string [src]. *)
Definition safestrcpy_bytes (dst src : list byte) : list byte :=
  let n := length dst in
  ld_bytes (safestrcpy (st_bytes (st_bytes ∅ 0 dst) (Z.of_nat n) (src ++ [Byte.x00])) 0 (Z.of_nat n) (Z.of_nat n)) 0 n.

Section ProcMem.

(** The end of the kernel image, the physical address of the trampoline page and
    the address of [forkret], which the linker fixes; the bound on the wake-ups
    a sleep needs. *)
Variable kend trampoline forkret_addr : Z.
Variable rounds : nat.

(** ** Page tables of processes *)

Definition proc_pagetable (p : nat) : M kmem Z :=
  (* An empty page table. *)
  let! pagetable := uvmcreate in
  if pagetable =? 0 then ret 0 else
  (* map the trampoline code (for system call return)
     at the highest user virtual address. *)
  let! r := mappages pagetable TRAMPOLINE PGSIZE trampoline (Z.lor PTE_R PTE_X) in
  if r <? 0 then uvmfree kend pagetable 0 ;; ret 0 else
  (* map the trapframe page just below the trampoline page. *)
  let! q := get_proc p in
  let! r := mappages pagetable TRAPFRAME PGSIZE (p_trapframe q) (Z.lor PTE_R PTE_W) in
  if r <? 0 then
    uvmunmap kend pagetable TRAMPOLINE 1 false ;;
    uvmfree kend pagetable 0 ;;
    ret 0
  else ret pagetable.

Definition proc_freepagetable (pagetable sz : Z) : M kmem unit :=
  uvmunmap kend pagetable TRAMPOLINE 1 false ;;
  uvmunmap kend pagetable TRAPFRAME 1 false ;;
  uvmfree kend pagetable sz.

Definition freeproc (p : nat) : M kmem unit :=
  let! q := get_proc p in
  (if negb (p_trapframe q =? 0) then kfree kend (p_trapframe q) else ret tt) ;;
  set_proc p (set_p_trapframe 0) ;;
  let! q := get_proc p in
  (if negb (p_pagetable q =? 0) then proc_freepagetable (p_pagetable q) (p_sz q) else ret tt) ;;
  set_proc p (set_p_pagetable 0) ;;
  set_proc p (set_p_sz 0) ;;
  set_proc p (set_p_pid 0) ;;
  set_proc p (set_p_parent None) ;;
  set_proc p (fun q => set_p_name (<[0%nat := Byte.x00]> (p_name q)) q) ;;
  set_proc p (set_p_chan None) ;;
  set_proc p (set_p_killed 0) ;;
  set_proc p (set_p_xstate 0) ;;
  set_proc p (set_p_state UNUSED).

(** The search of [allocproc]: the lock of the slot it finds stays held. *)
Definition allocproc_find (i : nat) : M kmem (option nat) :=
  zoom km_sysL (acquire (L_proc i)) ;;
  let! q := get_proc i in
  if decide (p_state q = UNUSED) then ret (Some i) else
  zoom km_sysL (release (L_proc i)) ;; ret None.

Definition allocproc_fail (p : nat) : M kmem (option nat) :=
  freeproc p ;;
  zoom km_sysL (release (L_proc p)) ;;
  ret None.

Definition allocproc : M kmem (option nat) :=
  let! found := find_loop (seq 0 NPROC) allocproc_find in
  match found with
  | None => ret None
  | Some p =>
      let! pid := zoom km_sysL allocpid in
      set_proc p (set_p_pid pid) ;;
      set_proc p (set_p_state USED) ;;
      (* Allocate a trapframe page. *)
      let! tf := kalloc in
      set_proc p (set_p_trapframe tf) ;;
      if tf =? 0 then allocproc_fail p else
      (* An empty user page table. *)
      let! pt := proc_pagetable p in
      set_proc p (set_p_pagetable pt) ;;
      if pt =? 0 then allocproc_fail p else
      (* Set up new context to start executing at forkret,
         which returns to user space. *)
      set_proc p (set_p_context context_zero) ;;
      set_proc p (fun q => set_p_context (Context forkret_addr (ctx_sp (p_context q)) (ctx_s (p_context q))) q) ;;
      set_proc p (fun q => set_p_context (Context (ctx_ra (p_context q)) (p_kstack q + PGSIZE) (ctx_s (p_context q))) q) ;;
      ret (Some p)
  end.

Definition growproc (n : Z) : M kmem Z :=
  let! p := my_proc in
  let! q := get_proc p in
  let sz := p_sz q in
  if 0 <? n then
    let! sz := uvmalloc kend (p_pagetable q) sz (u64 (sz + n)) PTE_W in
    if sz =? 0 then ret (-1) else
    set_proc p (set_p_sz sz) ;; ret 0
  else
    let! sz := (if n <? 0 then uvmdealloc kend (p_pagetable q) sz (u64 (sz + n)) else ret sz) in
    set_proc p (set_p_sz sz) ;; ret 0.

(** ** wait *)

(** One slot of the scan of [wait]: the call's result, or whether a child was
    seen. *)
Definition wait_one (p : nat) (addr : Z) (havekids : bool) (pp : nat) : M kmem (Z + bool) :=
  let! q := get_proc pp in
  if decide (p_parent q = Some p) then
    (* make sure the child isn't still in exit() or swtch(). *)
    zoom km_sysL (acquire (L_proc pp)) ;;
    let! q := get_proc pp in
    if decide (p_state q = ZOMBIE) then
      let pid := p_pid q in
      let! me := get_proc p in
      let! r := (if negb (addr =? 0) then copyout (p_pagetable me) addr (le_split 4 (p_xstate q)) else ret 0) in
      if r <? 0 then
        zoom km_sysL (release (L_proc pp)) ;;
        zoom km_sysL (release L_wait) ;;
        ret (inl (-1))
      else
        freeproc pp ;;
        zoom km_sysL (release (L_proc pp)) ;;
        zoom km_sysL (release L_wait) ;;
        ret (inl pid)
    else zoom km_sysL (release (L_proc pp)) ;; ret (inr true)
  else ret (inr havekids).

Fixpoint wait_scan (p : nat) (addr : Z) (l : list nat) (havekids : bool) : M kmem (Z + bool) :=
  match l with
  | [] => ret (inr havekids)
  | pp :: l =>
      let! r := wait_one p addr havekids pp in
      match r with
      | inl res => ret (inl res)
      | inr havekids => wait_scan p addr l havekids
      end
  end.

Definition wait_body (p : nat) (addr : Z) (_ : unit) : M kmem (unit + Z) :=
  (* Scan through table looking for exited children. *)
  let! r := wait_scan p addr (seq 0 NPROC) false in
  match r with
  | inl res => ret (inr res)
  | inr havekids =>
      (* No point waiting if we don't have any children. *)
      let! k := (if negb havekids then ret 1 else zoom km_sysL (killed p)) in
      if negb (k =? 0) then
        zoom km_sysL (release L_wait) ;; ret (inr (-1))
      else
        (* Wait for a child to exit. *)
        zoom km_sysL (sleep (Ch_proc p) L_wait) ;; ret (inl tt)
  end.

Definition wait (addr : Z) : M kmem Z :=
  let! p := my_proc in
  zoom km_sysL (acquire L_wait) ;;
  while (S rounds) (wait_body p addr) tt.

End ProcMem.

(** ** syscall.c: arguments *)

(** The word at [addr], when the call succeeds. *)
Definition fetchaddr (addr : Z) : M kmem (option Z) :=
  let! p := my_proc in
  let! q := get_proc p in
  if (p_sz q <=? addr) || (p_sz q <? u64 (addr + 8)) then ret None else
  let! (r, bs) := copyin (p_pagetable q) addr 8 in
  ret (if negb (r =? 0) then None else Some (le_combine bs)).

(** The return value, and the bytes stored in the buffer. *)
Definition fetchstr (addr max : Z) : M kmem (Z * list byte) :=
  let! p := my_proc in
  let! q := get_proc p in
  let! (r, bs) := copyinstr (p_pagetable q) addr max in
  ret (if r <? 0 then (-1, bs) else (Z.of_nat (length (until_nul bs)), bs)).

Definition argraw (n : Z) : M kmem Z :=
  let! p := my_proc in
  if (0 <=? n) && (n <=? 5) then get_tf p (tf_a n) else panic "argraw".

Definition argint (n : Z) : M kmem Z :=
  let! v := argraw n in
  ret (s32 v).

Definition argaddr (n : Z) : M kmem Z := argraw n.

(** The string, when the call succeeds. *)
Definition argstr (n max : Z) : M kmem (option (list byte)) :=
  let! addr := argaddr n in
  let! (r, bs) := fetchstr addr max in
  ret (if r <? 0 then None else Some (until_nul bs)).
