(* ===== verification/Asm.v ===== *)
(** * The assembly code and [kernel/start.c]

    [entry.S], [swtch.S], [trampoline.S] and [kernelvec.S] as instruction
    sequences of a hart with its registers, memory and control registers, and
    the machine-mode set-up of [start.c].  Loads and stores go through the
    address translation of the hart, a parameter; instruction fetch is not
    modelled, a block runs from its label to its jump. *)

From S2P Require Import Prelude Riscv Memory CString Sys Spinlock Proc Kalloc Vm Sleeplock Either Pipe ProcMem.

(** ** Harts *)

Inductive reg :=
  | ra | sp | gp | tp | t0 | t1 | t2 | s0 | s1 | a0 | a1 | a2 | a3 | a4 | a5 | a6 | a7
  | s2 | s3 | s4 | s5 | s6 | s7 | s8 | s9 | s10 | s11 | t3 | t4 | t5 | t6.

#[export] Instance reg_eq_dec : EqDecision reg.
Proof. solve_decision. Defined.

Definition all_regs : list reg :=
  [ra; sp; gp; tp; t0; t1; t2; s0; s1; a0; a1; a2; a3; a4; a5; a6; a7;
   s2; s3; s4; s5; s6; s7; s8; s9; s10; s11; t3; t4; t5; t6].

Inductive csrname := Sscratch | Satp | Mhartid.

#[export] Instance csrname_eq_dec : EqDecision csrname.
Proof. solve_decision. Defined.

Record hart := Hart { h_regs : reg -> Z; h_csrs : csrname -> Z; h_mem : mem }.

Definition set_reg (r : reg) (v : Z) (s : hart) : hart :=
  Hart (fun r' => if decide (r = r') then v else h_regs s r') (h_csrs s) (h_mem s).

Definition set_csr (c : csrname) (v : Z) (s : hart) : hart :=
  Hart (h_regs s) (fun c' => if decide (c = c') then v else h_csrs s c') (h_mem s).

Definition set_mem (m : mem) (s : hart) : hart := Hart (h_regs s) (h_csrs s) m.

Inductive instr :=
  | Sd (rs : reg) (off : Z) (base : reg)
  | Ld (rd : reg) (off : Z) (base : reg)
  | Csrw (c : csrname) (rs : reg)
  | Csrr (rd : reg) (c : csrname)
  | Li (rd : reg) (v : Z)
  | Addi (rd rs : reg) (v : Z)
  | Add (rd rs rt : reg)
  | Mul (rd rs rt : reg)
  | Sfence_vma.

(** How a block ends. *)
Inductive control :=
  | Jr (rs : reg)
  | Ret
  | Sret
  | Call (pc : Z).

(** Where a block goes to: an address, or the one in [sepc]. *)
Inductive target := To (pc : Z) | ToSepc.

(** The translation of the hart: memory, [satp], virtual address. *)
Class Mmu := translate : mem -> Z -> Z -> option Z.

Section Asm.
Context {mmu : Mmu}.

(** The physical address of an aligned double word. *)
Definition at_va (s : hart) (va : Z) : option Z :=
  if va mod 8 =? 0 then translate (h_mem s) (h_csrs s Satp) va else None.

(** One instruction; [None] when it traps. *)
Definition exec (i : instr) (s : hart) : option hart :=
  match i with
  | Sd rs off base =>
      match at_va s (u64 (h_regs s base + off)) with
      | Some pa => Some (set_mem (st64 (h_mem s) pa (h_regs s rs)) s)
      | None => None
      end
  | Ld rd off base =>
      match at_va s (u64 (h_regs s base + off)) with
      | Some pa => Some (set_reg rd (ld64 (h_mem s) pa) s)
      | None => None
      end
  | Csrw c rs => Some (set_csr c (h_regs s rs) s)
  | Csrr rd c => Some (set_reg rd (h_csrs s c) s)
  | Li rd v => Some (set_reg rd v s)
  | Addi rd rs v => Some (set_reg rd (u64 (h_regs s rs + v)) s)
  | Add rd rs rt => Some (set_reg rd (u64 (h_regs s rs + h_regs s rt)) s)
  | Mul rd rs rt => Some (set_reg rd (u64 (h_regs s rs * h_regs s rt)) s)
  | Sfence_vma => Some s
  end.

Fixpoint run (c : list instr) (s : hart) : option hart :=
  match c with
  | [] => Some s
  | i :: c => match exec i s with Some s => run c s | None => None end
  end.

(** [call] sets [ra] to the address of the next instruction, here [next]. *)
Definition leave (c : control) (next : Z) (s : hart) : target * hart :=
  match c with
  | Jr rs => (To (h_regs s rs), s)
  | Ret => (To (h_regs s ra), s)
  | Sret => (ToSepc, s)
  | Call pc => (To pc, set_reg ra next s)
  end.

Definition block (c : list instr * control) (next : Z) (s : hart) : option (target * hart) :=
  match run c.1 s with Some s => Some (leave c.2 next s) | None => None end.

(** ** The code *)

Definition swtch : list instr * control :=
  ([Sd ra 0 a0; Sd sp 8 a0; Sd s0 16 a0; Sd s1 24 a0; Sd s2 32 a0; Sd s3 40 a0; Sd s4 48 a0; Sd s5 56 a0;
    Sd s6 64 a0; Sd s7 72 a0; Sd s8 80 a0; Sd s9 88 a0; Sd s10 96 a0; Sd s11 104 a0;
    Ld ra 0 a1; Ld sp 8 a1; Ld s0 16 a1; Ld s1 24 a1; Ld s2 32 a1; Ld s3 40 a1; Ld s4 48 a1; Ld s5 56 a1;
    Ld s6 64 a1; Ld s7 72 a1; Ld s8 80 a1; Ld s9 88 a1; Ld s10 96 a1; Ld s11 104 a1],
   Ret).

Definition uservec : list instr * control :=
  ([(* save user a0 in sscratch so a0 can be used to get at TRAPFRAME. *)
    Csrw Sscratch a0;
    Li a0 TRAPFRAME;
    (* save the user registers in TRAPFRAME *)
    Sd ra 40 a0; Sd sp 48 a0; Sd gp 56 a0; Sd tp 64 a0; Sd t0 72 a0; Sd t1 80 a0; Sd t2 88 a0; Sd s0 96 a0;
    Sd s1 104 a0; Sd a1 120 a0; Sd a2 128 a0; Sd a3 136 a0; Sd a4 144 a0; Sd a5 152 a0; Sd a6 160 a0;
    Sd a7 168 a0; Sd s2 176 a0; Sd s3 184 a0; Sd s4 192 a0; Sd s5 200 a0; Sd s6 208 a0; Sd s7 216 a0;
    Sd s8 224 a0; Sd s9 232 a0; Sd s10 240 a0; Sd s11 248 a0; Sd t3 256 a0; Sd t4 264 a0; Sd t5 272 a0;
    Sd t6 280 a0;
    (* save the user a0 in p->trapframe->a0 *)
    Csrr t0 Sscratch; Sd t0 112 a0;
    (* initialize kernel stack pointer, from p->trapframe->kernel_sp *)
    Ld sp 8 a0;
    (* make tp hold the current hartid, from p->trapframe->kernel_hartid *)
    Ld tp 32 a0;
    (* load the address of usertrap(), from p->trapframe->kernel_trap *)
    Ld t0 16 a0;
    (* fetch the kernel page table address, from p->trapframe->kernel_satp. *)
    Ld t1 0 a0;
    Sfence_vma;
    (* install the kernel page table. *)
    Csrw Satp t1;
    Sfence_vma],
   Jr t0).

Definition userret : list instr * control :=
  ([(* switch to the user page table. *)
    Sfence_vma; Csrw Satp a0; Sfence_vma;
    Li a0 TRAPFRAME;
    (* restore all but a0 from TRAPFRAME *)
    Ld ra 40 a0; Ld sp 48 a0; Ld gp 56 a0; Ld tp 64 a0; Ld t0 72 a0; Ld t1 80 a0; Ld t2 88 a0; Ld s0 96 a0;
    Ld s1 104 a0; Ld a1 120 a0; Ld a2 128 a0; Ld a3 136 a0; Ld a4 144 a0; Ld a5 152 a0; Ld a6 160 a0;
    Ld a7 168 a0; Ld s2 176 a0; Ld s3 184 a0; Ld s4 192 a0; Ld s5 200 a0; Ld s6 208 a0; Ld s7 216 a0;
    Ld s8 224 a0; Ld s9 232 a0; Ld s10 240 a0; Ld s11 248 a0; Ld t3 256 a0; Ld t4 264 a0; Ld t5 272 a0;
    Ld t6 280 a0;
    (* restore user a0 *)
    Ld a0 112 a0],
   Sret).

(** [kernelvec] up to the call of [kerneltrap], and from its return on. *)
Definition kernelvec_save (kerneltrap : Z) : list instr * control :=
  ([(* make room to save registers. *)
    Addi sp sp (-256);
    (* save caller-saved registers. *)
    Sd ra 0 sp; Sd sp 8 sp; Sd gp 16 sp; Sd tp 24 sp; Sd t0 32 sp; Sd t1 40 sp; Sd t2 48 sp; Sd a0 72 sp;
    Sd a1 80 sp; Sd a2 88 sp; Sd a3 96 sp; Sd a4 104 sp; Sd a5 112 sp; Sd a6 120 sp; Sd a7 128 sp;
    Sd t3 216 sp; Sd t4 224 sp; Sd t5 232 sp; Sd t6 240 sp],
   Call kerneltrap).

Definition kernelvec_restore : list instr * control :=
  ([Ld ra 0 sp; Ld sp 8 sp; Ld gp 16 sp;
    (* not tp (contains hartid), in case we moved CPUs *)
    Ld t0 32 sp; Ld t1 40 sp; Ld t2 48 sp; Ld a0 72 sp; Ld a1 80 sp; Ld a2 88 sp; Ld a3 96 sp; Ld a4 104 sp;
    Ld a5 112 sp; Ld a6 120 sp; Ld a7 128 sp; Ld t3 216 sp; Ld t4 224 sp; Ld t5 232 sp; Ld t6 240 sp;
    Addi sp sp 256],
   Sret).

(** [_entry], with the addresses of [stack0] and [start]. *)
Definition entry (stack0 start : Z) : list instr * control :=
  ([Li sp stack0; Li a0 (1024 * 4); Csrr a1 Mhartid; Addi a1 a1 1; Mul a0 a0 a1; Add sp sp a0], Call start).

(** ** Saving and restoring *)

Lemma run_app c c' s : run (c ++ c') s = match run c s with Some s => run c' s | None => None end.
Proof. revert s. induction c as [|i c IH]; intros s; simpl; [done|]. by destruct (exec i s). Qed.

(** The memory that has no page tables. *)
Variable data : Z -> Prop.

Definition same_tables (m m' : mem) : Prop := forall a, ~ data a -> ld8 m' a = ld8 m a.

(** The [len] bytes from [va] on, double words, are at [pa] under [satp], whatever
    the data are. *)
Record area (m : mem) (satp va pa len : Z) : Prop := {
  ar_maps : forall m' o, same_tables m m' -> 0 <= o < len -> translate m' satp (va + o) = Some (pa + o);
  ar_data : forall a, pa <= a < pa + len -> data a;
  ar_align : va mod 8 = 0;
  ar_range : 0 <= va /\ va + len <= 2 ^ 64
}.

Definition slot (len o : Z) : Prop := 0 <= o /\ o + 8 <= len /\ o mod 8 = 0.

Definition same_outside (pa len : Z) (m m' : mem) : Prop := forall a, ~ (pa <= a < pa + len) -> ld8 m' a = ld8 m a.

Lemma area_same m m' satp va pa len : area m satp va pa len -> same_tables m m' -> area m' satp va pa len.
Proof.
  intros [H1 H2 H3 H4] Hs. split; try done. intros m2 o Hm2. apply H1. intros a Ha. by rewrite Hm2, Hs.
Qed.

Lemma area_tables m satp va pa len m' : area m satp va pa len -> same_outside pa len m m' -> same_tables m m'.
Proof. intros Ha Hs a Hd. apply Hs. intros H. by apply Hd, (ar_data _ _ _ _ _ Ha). Qed.

Lemma area_at s satp va pa len o :
  area (h_mem s) satp va pa len -> slot len o -> h_csrs s Satp = satp -> at_va s (u64 (va + o)) = Some (pa + o).
Proof.
  intros [H1 _ H2 H3] (O1 & O2 & O3) Hs. unfold at_va. rewrite u64_small by lia.
  replace ((va + o) mod 8) with 0 by dlia. rewrite Hs. simpl. apply (H1 (h_mem s)); [done|lia].
Qed.

Definition saves (base : reg) (l : list (reg * Z)) : list instr := map (fun x => Sd x.1 x.2 base) l.

Definition loads (base : reg) (l : list (reg * Z)) : list instr := map (fun x => Ld x.1 x.2 base) l.

(** The memory after the registers of [l] are saved at [pa]. *)
Definition saved (regs : reg -> Z) (pa : Z) (l : list (reg * Z)) (m : mem) : mem :=
  fold_left (fun m x => st64 m (pa + x.2) (regs x.1)) l m.

Lemma same_outside_st64 pa len o v m : slot len o -> same_outside pa len m (st64 m (pa + o) v).
Proof.
  intros (O1 & O2 & _) a Ha. unfold st64. rewrite ld8_st_bytes_out; [done|]. rewrite length_le_split. lia.
Qed.

Lemma saved_outside regs pa len l m :
  Forall (slot len) l.*2 -> same_outside pa len m (saved regs pa l m).
Proof.
  revert m. induction l as [|x l IH]; intros m H; simpl; [done|]. apply Forall_cons in H as [Hx Hl].
  intros a Ha. rewrite (IH _ Hl a Ha). by apply (same_outside_st64 pa len).
Qed.

Lemma saved_other regs pa len l m o :
  slot len o -> Forall (slot len) l.*2 -> o ∉ l.*2 -> ld64 (saved regs pa l m) (pa + o) = ld64 m (pa + o).
Proof.
  intros Ho. revert m. induction l as [|x l IH]; intros m H Hn; simpl; [done|]. apply Forall_cons in H as [Hx Hl].
  apply not_elem_of_cons in Hn as [Hne Hn]. rewrite IH by done. apply ld64_st64_apart.
  destruct Ho as (A1 & A2 & A3), Hx as (B1 & B2 & B3). unfold apart. destruct x as [r o']. simpl in *.
  assert (o <> o') by done. dlia.
Qed.

Lemma saved_at regs pa len l m r o :
  Forall (slot len) l.*2 -> NoDup l.*2 -> (r, o) ∈ l -> ld64 (saved regs pa l m) (pa + o) = u64 (regs r).
Proof.
  revert m. induction l as [|x l IH]; intros m H Hd Hin; simpl; [by apply not_elem_of_nil in Hin|].
  apply Forall_cons in H as [Hx Hl]. apply NoDup_cons in Hd as [Hx' Hd]. apply elem_of_cons in Hin as [<-|Hin].
  - rewrite (saved_other regs pa len) by done. apply ld64_st64.
  - by apply IH.
Qed.

Lemma run_saves base l s satp va pa len :
  area (h_mem s) satp va pa len -> Forall (slot len) l.*2 -> h_csrs s Satp = satp -> h_regs s base = va ->
  run (saves base l) s = Some (set_mem (saved (h_regs s) pa l (h_mem s)) s).
Proof.
  revert s. induction l as [|x l IH]; intros s Ha H Hs Hb; simpl; [by destruct s|]. apply Forall_cons in H as [Hx Hl].
  rewrite Hb, (area_at s satp va pa len) by done. rewrite IH; [done| |done|done|done].
  apply (area_same (h_mem s)); [done|]. by eapply area_tables, same_outside_st64.
Qed.

(** The registers after those of [l] are loaded from [pa]. *)
Definition loaded_regs (m : mem) (pa : Z) (l : list (reg * Z)) (regs : reg -> Z) : reg -> Z :=
  fold_left (fun f x r => if decide (x.1 = r) then ld64 m (pa + x.2) else f r) l regs.

Lemma loaded_other m pa l regs r : r ∉ l.*1 -> loaded_regs m pa l regs r = regs r.
Proof.
  revert regs. induction l as [|x l IH]; intros regs H; simpl; [done|]. apply not_elem_of_cons in H as [Hne H].
  rewrite IH by done. by rewrite decide_False.
Qed.

Lemma loaded_at m pa l regs r o :
  NoDup l.*1 -> (r, o) ∈ l -> loaded_regs m pa l regs r = ld64 m (pa + o).
Proof.
  revert regs. induction l as [|x l IH]; intros regs Hd Hin; simpl; [by apply not_elem_of_nil in Hin|].
  apply NoDup_cons in Hd as [Hx Hd]. apply elem_of_cons in Hin as [<-|Hin]; [|by apply IH].
  rewrite loaded_other by done. simpl. by rewrite decide_True.
Qed.

Lemma run_loads base l s satp va pa len :
  area (h_mem s) satp va pa len -> Forall (slot len) l.*2 -> base ∉ l.*1 -> h_csrs s Satp = satp ->
  h_regs s base = va ->
  run (loads base l) s = Some (Hart (loaded_regs (h_mem s) pa l (h_regs s)) (h_csrs s) (h_mem s)).
Proof.
  revert s. induction l as [|x l IH]; intros s Ha H Hn Hs Hb; simpl; [by destruct s|]. apply Forall_cons in H as [Hx Hl].
  apply not_elem_of_cons in Hn as [Hne Hn]. rewrite Hb, (area_at s satp va pa len) by done.
  rewrite IH; [done|done|done|done|done|]. simpl. by rewrite decide_False.
Qed.

(** ** [swtch] *)

(** The offsets of [struct context]. *)
Definition context_slots : list (reg * Z) :=
  [(ra, 0); (sp, 8); (s0, 16); (s1, 24); (s2, 32); (s3, 40); (s4, 48); (s5, 56); (s6, 64); (s7, 72); (s8, 80);
   (s9, 88); (s10, 96); (s11, 104)].

Definition sizeof_context : Z := 112.

Definition slots_ok (len : Z) (l : list (reg * Z)) : Prop := Forall (slot len) l.*2 /\ NoDup l.*2 /\ NoDup l.*1.

Definition slots_check (len : Z) (l : list (reg * Z)) : bool :=
  forallb (fun o => (0 <=? o) && (o + 8 <=? len) && (o mod 8 =? 0)) l.*2 &&
  bool_decide (NoDup l.*2) && bool_decide (NoDup l.*1).

Lemma slots_check_ok len l : slots_check len l = true -> slots_ok len l.
Proof.
  intros [[H1 H2%bool_decide_eq_true]%andb_true_iff H3%bool_decide_eq_true]%andb_true_iff. split; [|done].
  apply Forall_forall. intros o Ho%list_elem_of_In. rewrite forallb_forall in H1. specialize (H1 o Ho).
  apply andb_true_iff in H1 as [[A1%Z.leb_le A2%Z.leb_le]%andb_true_iff A3%Z.eqb_eq]. done.
Qed.

Lemma context_ok : slots_ok sizeof_context context_slots.
Proof. apply slots_check_ok. vm_compute. reflexivity. Qed.

Definition regs_ok (s : hart) : Prop := forall r, 0 <= h_regs s r < 2 ^ 64.

(** [swtch(old, new)] saves [ra], [sp] and the callee-saved registers in [old], at
    the offsets of [struct context], and loads them from [new]. *)
Lemma swtch_ok (s : hart) (satp old new next : Z) :
  regs_ok s -> h_csrs s Satp = satp -> area (h_mem s) satp (h_regs s a0) old sizeof_context ->
  area (h_mem s) satp (h_regs s a1) new sizeof_context -> apart old sizeof_context new sizeof_context ->
  exists s', block swtch next s = Some (To (ld64 (h_mem s) new), s') /\
    (forall r o, (r, o) ∈ context_slots ->
       ld64 (h_mem s') (old + o) = h_regs s r /\ h_regs s' r = ld64 (h_mem s) (new + o)) /\
    (forall r, r ∉ context_slots.*1 -> h_regs s' r = h_regs s r) /\
    same_outside old sizeof_context (h_mem s) (h_mem s') /\ h_csrs s' = h_csrs s.
Proof.
  intros Hregs Hsatp Hold Hnew Hap. destruct context_ok as (O1 & O2 & O3). unfold block.
  change swtch.1 with (saves a0 context_slots ++ loads a1 context_slots). rewrite run_app.
  rewrite (run_saves a0 _ s satp (h_regs s a0) old sizeof_context) by done.
  set (m := saved (h_regs s) old context_slots (h_mem s)).
  assert (Hm : same_outside old sizeof_context (h_mem s) m) by (by apply saved_outside).
  rewrite (run_loads a1 _ (set_mem m s) satp (h_regs s a1) new sizeof_context); try done.
  2: { apply (area_same (h_mem s)); [done|]. by apply (area_tables _ _ _ _ _ _ Hold). }
  2: { apply (bool_decide_unpack _). by vm_compute. }
  assert (Hload : forall o, slot sizeof_context o -> ld64 m (new + o) = ld64 (h_mem s) (new + o)).
  { intros o (P1 & P2 & _). apply ld64_ext. intros i Hi. apply Hm. unfold apart in Hap. lia. }
  assert (Hslot : forall r o, (r, o) ∈ context_slots -> slot sizeof_context o).
  { intros r o H. rewrite Forall_forall in O1. apply O1. apply list_elem_of_fmap. by exists (r, o). }
  eexists. split; [|split; [|split; [|split]]].
  - cbn [leave snd swtch]. do 2 f_equal. f_equal. cbn [h_regs h_mem set_mem].
    rewrite (loaded_at _ _ _ _ ra 0) by (done || by left). rewrite Hload by (apply (Hslot ra); by left). by rewrite Z.add_0_r.
  - intros r o H. cbn [h_regs h_mem set_mem]. split.
    + unfold m. rewrite (saved_at _ _ sizeof_context _ _ r) by done. by apply u64_small.
    + rewrite (loaded_at _ _ _ _ r o) by done. by apply Hload, (Hslot r).
  - intros r H. cbn [h_regs h_mem set_mem]. by apply loaded_other.
  - done.
  - done.
Qed.

(** C11: [swtch(old, new)] goes to the address in [new] with the registers of [new],
    and keeps the rest of memory.  Whenever, on any hart, a later [swtch] switches
    to [old] while it is as it was left, that call returns to the caller of this
    one, with its stack pointer and its callee-saved registers. *)
Theorem swtch_correct (h1 : hart) (satp old new next : Z)
    (Hregs : regs_ok h1) (Hsatp : h_csrs h1 Satp = satp)
    (Hold : area (h_mem h1) satp (h_regs h1 a0) old sizeof_context)
    (Hnew : area (h_mem h1) satp (h_regs h1 a1) new sizeof_context)
    (Hap : apart old sizeof_context new sizeof_context) :
  exists h1', block swtch next h1 = Some (To (ld64 (h_mem h1) new), h1') /\
    (forall r o, (r, o) ∈ context_slots -> h_regs h1' r = ld64 (h_mem h1) (new + o)) /\
    same_outside old sizeof_context (h_mem h1) (h_mem h1') /\
    forall (h2 : hart) (satp2 other next2 : Z), regs_ok h2 -> h_csrs h2 Satp = satp2 ->
      area (h_mem h2) satp2 (h_regs h2 a0) other sizeof_context ->
      area (h_mem h2) satp2 (h_regs h2 a1) old sizeof_context -> apart other sizeof_context old sizeof_context ->
      (forall o, 0 <= o < sizeof_context -> ld8 (h_mem h2) (old + o) = ld8 (h_mem h1') (old + o)) ->
      exists h2', block swtch next2 h2 = Some (To (h_regs h1 ra), h2') /\
        forall r, r ∈ context_slots.*1 -> h_regs h2' r = h_regs h1 r.
Proof.
  destruct (swtch_ok h1 satp old new next) as (h1' & E1 & R1 & _ & M1 & _); try done.
  exists h1'. split; [done|]. split; [intros r o H; by apply R1|]. split; [done|].
  intros h2 satp2 other next2 H1 H2 H3 H4 H5 Hkeep.
  destruct (swtch_ok h2 satp2 other old next2) as (s' & E2 & R2 & _); try done.
  assert (Hback : forall r o, (r, o) ∈ context_slots -> ld64 (h_mem h2) (old + o) = h_regs h1 r).
  { intros r o H. rewrite <- (proj1 (R1 r o H)). apply ld64_ext. intros i Hi.
    replace i with (old + (i - old)) by lia. apply Hkeep.
    assert (slot sizeof_context o) as (P1 & P2 & _); [|lia]. destruct context_ok as (O1 & _).
    rewrite Forall_forall in O1. apply O1, list_elem_of_fmap. by exists (r, o). }
  exists s'. split.
  - rewrite E2. do 2 f_equal. f_equal. rewrite <- (Hback ra 0) by (by left). by rewrite Z.add_0_r.
  - intros r (x & -> & Hx)%list_elem_of_fmap. destruct x as [r o]. simpl. rewrite (proj2 (R2 r o Hx)). by apply Hback.
Qed.

(** ** Traps from user space *)

(** The offsets of the user registers in [struct trapframe], but for [a0]. *)
Definition frame_slots : list (reg * Z) :=
  [(ra, 40); (sp, 48); (gp, 56); (tp, 64); (t0, 72); (t1, 80); (t2, 88); (s0, 96); (s1, 104); (a1, 120); (a2, 128);
   (a3, 136); (a4, 144); (a5, 152); (a6, 160); (a7, 168); (s2, 176); (s3, 184); (s4, 192); (s5, 200); (s6, 208);
   (s7, 216); (s8, 224); (s9, 232); (s10, 240); (s11, 248); (t3, 256); (t4, 264); (t5, 272); (t6, 280)].

(** With [a0]: all registers. *)
Definition tf_slots : list (reg * Z) := (a0, tf_a0) :: frame_slots.

Lemma frame_ok : slots_ok sizeof_trapframe frame_slots.
Proof. apply slots_check_ok. vm_compute. reflexivity. Qed.

Lemma tf_slots_ok : slots_ok sizeof_trapframe tf_slots.
Proof. apply slots_check_ok. vm_compute. reflexivity. Qed.

Lemma tf_slots_all r : r ∈ tf_slots.*1.
Proof. destruct r; apply (bool_decide_unpack _); by vm_compute. Qed.

Lemma TRAPFRAME_range : 0 <= TRAPFRAME < 2 ^ 64.
Proof. vm_compute. intuition discriminate. Qed.

Definition kernel_slots : list (reg * Z) :=
  [(sp, tf_kernel_sp); (tp, tf_kernel_hartid); (t0, tf_kernel_trap); (t1, tf_kernel_satp)].

Lemma kernel_slots_ok : slots_ok sizeof_trapframe kernel_slots.
Proof. apply slots_check_ok. vm_compute. reflexivity. Qed.

(** The memory after [uservec] has saved the registers [regs]. *)
Definition trapped (regs : reg -> Z) (tf : Z) (m : mem) : mem :=
  st64 (saved regs tf frame_slots m) (tf + tf_a0) (regs a0).

Lemma a0_slot : slot sizeof_trapframe tf_a0.
Proof. split; [done|]. split; [done|]. reflexivity. Qed.

Lemma slot_apart len o o' a : slot len o -> slot len o' -> o <> o' -> apart (a + o) 8 (a + o') 8.
Proof. intros (A1 & A2 & A3) (B1 & B2 & B3) Hne. unfold apart. dlia. Qed.

Lemma trapped_outside regs tf m : same_outside tf sizeof_trapframe m (trapped regs tf m).
Proof.
  intros a Ha. unfold trapped. rewrite (same_outside_st64 tf sizeof_trapframe tf_a0 _ _ a0_slot a Ha).
  apply (saved_outside _ _ sizeof_trapframe); [apply frame_ok|done].
Qed.

Lemma trapped_at regs tf m r o :
  (forall r, 0 <= regs r < 2 ^ 64) -> (r, o) ∈ tf_slots -> ld64 (trapped regs tf m) (tf + o) = regs r.
Proof.
  intros Hr [[= -> ->]|H]%elem_of_cons; unfold trapped.
  - rewrite ld64_st64. by apply u64_small.
  - destruct frame_ok as (O1 & O2 & _).
    assert (Hin : o ∈ frame_slots.*2) by (apply list_elem_of_fmap; by exists (r, o)).
    rewrite ld64_st64_apart; [rewrite (saved_at _ _ sizeof_trapframe _ _ r) by done; by apply u64_small|].
    apply (slot_apart sizeof_trapframe); [apply a0_slot|by rewrite Forall_forall in O1; apply O1|].
    intros <-. revert Hin. apply (bool_decide_unpack _). by vm_compute.
Qed.

Lemma trapped_kernel regs tf m o :
  slot sizeof_trapframe o -> o < 40 -> ld64 (trapped regs tf m) (tf + o) = ld64 m (tf + o).
Proof.
  intros Ho Hlt. unfold trapped. rewrite ld64_st64_apart.
  - apply (saved_other _ _ sizeof_trapframe); [done|apply frame_ok|].
    intros H. assert (Forall (fun x => 40 <= x) frame_slots.*2) as Hall.
    { apply Forall_forall. intros x Hx. vm_compute in Hx. repeat (apply elem_of_cons in Hx as [->|Hx]; [lia|]). by apply not_elem_of_nil in Hx. }
    rewrite Forall_forall in Hall. specialize (Hall o H). lia.
  - apply (slot_apart sizeof_trapframe); [apply a0_slot|done|unfold tf_a0; lia].
Qed.

Lemma uservec_ok (s : hart) (tf next : Z) :
  regs_ok s -> area (h_mem s) (h_csrs s Satp) TRAPFRAME tf sizeof_trapframe ->
  exists s', block uservec next s = Some (To (ld64 (h_mem s) (tf + tf_kernel_trap)), s') /\
    h_mem s' = trapped (h_regs s) tf (h_mem s) /\
    h_regs s' sp = ld64 (h_mem s) (tf + tf_kernel_sp) /\ h_regs s' tp = ld64 (h_mem s) (tf + tf_kernel_hartid) /\
    h_csrs s' Satp = ld64 (h_mem s) (tf + tf_kernel_satp).
Proof.
  intros Hregs Ha. destruct frame_ok as (O1 & O2 & O3), kernel_slots_ok as (K1 & K2 & K3). unfold block.
  change uservec.1 with ([Csrw Sscratch a0; Li a0 TRAPFRAME] ++ saves a0 frame_slots ++
    [Csrr t0 Sscratch] ++ saves a0 [(t0, tf_a0)] ++ loads a0 kernel_slots ++ [Sfence_vma; Csrw Satp t1; Sfence_vma]).
  rewrite run_app. cbn [run exec]. set (sA := set_reg a0 TRAPFRAME _). rewrite run_app.
  rewrite (run_saves a0 _ sA (h_csrs s Satp) TRAPFRAME tf sizeof_trapframe) by done.
  set (m := saved (h_regs sA) tf frame_slots (h_mem sA)). rewrite run_app. cbn [run exec]. set (sB := set_reg t0 _ _).
  assert (Em : m = saved (h_regs s) tf frame_slots (h_mem s)) by done.
  assert (HaB : area (h_mem sB) (h_csrs s Satp) TRAPFRAME tf sizeof_trapframe).
  { apply (area_same (h_mem s)); [done|]. apply (area_tables _ _ _ _ _ _ Ha). by apply saved_outside. }
  rewrite run_app, (run_saves a0 _ sB (h_csrs s Satp) TRAPFRAME tf sizeof_trapframe); [|done|by apply Forall_singleton, a0_slot|done|done].
  set (sC := set_mem _ sB). assert (EC : h_mem sC = trapped (h_regs s) tf (h_mem s)) by (unfold trapped; by rewrite <- Em).
  assert (HaC : area (h_mem sC) (h_csrs s Satp) TRAPFRAME tf sizeof_trapframe).
  { apply (area_same (h_mem s)); [done|]. rewrite EC. apply (area_tables _ _ _ _ _ _ Ha), trapped_outside. }
  rewrite run_app, (run_loads a0 _ sC (h_csrs s Satp) TRAPFRAME tf sizeof_trapframe) by (done || (apply (bool_decide_unpack _); by vm_compute)).
  cbn [run exec]. assert (Hk : forall r o, (r, o) ∈ kernel_slots -> o < 40 ->
    loaded_regs (h_mem sC) tf kernel_slots (h_regs sC) r = ld64 (h_mem s) (tf + o)).
  { intros r o H Hlt. rewrite (loaded_at _ _ _ _ r o) by done. rewrite EC. apply trapped_kernel; [|done].
    rewrite Forall_forall in K1. apply K1, list_elem_of_fmap. by exists (r, o). }
  eexists. split; [|split; [|split; [|split]]].
  - cbn [leave snd uservec]. f_equal. apply (f_equal2 pair); [|reflexivity]. f_equal. apply (Hk t0); [set_solver|done].
  - exact EC.
  - apply (Hk sp); [set_solver|done].
  - apply (Hk tp); [set_solver|done].
  - apply (Hk t1); [set_solver|done].
Qed.

Lemma userret_ok (s : hart) (tf next : Z) :
  area (h_mem s) (h_regs s a0) TRAPFRAME tf sizeof_trapframe ->
  exists s', block userret next s = Some (ToSepc, s') /\ h_mem s' = h_mem s /\ h_csrs s' Satp = h_regs s a0 /\
    forall r o, (r, o) ∈ tf_slots -> h_regs s' r = ld64 (h_mem s) (tf + o).
Proof.
  intros Ha. destruct frame_ok as (O1 & O2 & O3). unfold block.
  change userret.1 with ([Sfence_vma; Csrw Satp a0; Sfence_vma; Li a0 TRAPFRAME] ++ loads a0 frame_slots ++ [Ld a0 tf_a0 a0]).
  rewrite run_app. cbn [run exec]. set (sA := set_reg a0 TRAPFRAME _).
  assert (Hbase : a0 ∉ frame_slots.*1) by (apply (bool_decide_unpack _); by vm_compute).
  rewrite run_app, (run_loads a0 _ sA (h_regs s a0) TRAPFRAME tf sizeof_trapframe) by done. set (sB := Hart _ _ _).
  assert (EB : h_regs sB a0 = TRAPFRAME) by (by apply loaded_other).
  cbn [run exec]. rewrite EB, (area_at sB (h_regs s a0) TRAPFRAME tf sizeof_trapframe) by (done || apply a0_slot).
  eexists. split; [done|]. split; [done|]. split; [done|].
  intros r o [[= -> ->]|H]%elem_of_cons; [done|]. cbn [h_regs set_reg]. rewrite decide_False.
  - by apply (loaded_at _ _ _ _ r o).
  - intros <-. apply Hbase, list_elem_of_fmap. by exists (a0, o).
Qed.

(** C10: A trap from user space and the return to it restore the user's registers.
    [uservec] saves all 31 in the trap frame, keeps the rest of memory, and jumps
    to [kernel_trap] on the kernel stack, with the hart id in [tp] and under the
    kernel page table, as the frame says; whatever the kernel does then, [userret]
    under the page table of the process gives every register the value that its
    slot of the frame has, which is the saved one unless the kernel changed it. *)
Theorem trap_roundtrip (u : hart) (tf next : Z) (Hregs : regs_ok u)
    (Hframe : area (h_mem u) (h_csrs u Satp) TRAPFRAME tf sizeof_trapframe) :
  exists k, block uservec next u = Some (To (ld64 (h_mem u) (tf + tf_kernel_trap)), k) /\
    same_outside tf sizeof_trapframe (h_mem u) (h_mem k) /\
    h_regs k sp = ld64 (h_mem u) (tf + tf_kernel_sp) /\ h_regs k tp = ld64 (h_mem u) (tf + tf_kernel_hartid) /\
    h_csrs k Satp = ld64 (h_mem u) (tf + tf_kernel_satp) /\
    forall (k' : hart) (next' : Z), h_regs k' a0 = h_csrs u Satp ->
      area (h_mem k') (h_csrs u Satp) TRAPFRAME tf sizeof_trapframe ->
      exists u', block userret next' k' = Some (ToSepc, u') /\ h_mem u' = h_mem k' /\ h_csrs u' Satp = h_csrs u Satp /\
        forall r, exists o, (r, o) ∈ tf_slots /\ h_regs u' r = ld64 (h_mem k') (tf + o) /\
          (ld64 (h_mem k') (tf + o) = ld64 (h_mem k) (tf + o) -> h_regs u' r = h_regs u r).
Proof.
  destruct (uservec_ok u tf next Hregs Hframe) as (k & E & Em & Hsp & Htp & Hsatp). exists k.
  split; [done|]. split; [rewrite Em; apply trapped_outside|]. split; [done|]. split; [done|]. split; [done|].
  intros k' next' Ha0 Ha. rewrite <- Ha0 in Ha. destruct (userret_ok k' tf next' Ha) as (u' & E' & Em' & Hs' & Hr').
  exists u'. split; [done|]. split; [done|]. split; [congruence|]. intros r.
  pose proof (tf_slots_all r) as Hin. apply list_elem_of_fmap in Hin as ([r' o] & -> & Hin). simpl. exists o.
  split; [done|]. split; [by apply Hr'|]. intros Hk. rewrite (Hr' r' o Hin), Hk, Em. by apply trapped_at.
Qed.

(** ** Traps in the kernel *)

(** The registers that [kernelvec] restores, but for [sp]. *)
Definition vec_slots : list (reg * Z) :=
  [(ra, 0); (gp, 16); (t0, 32); (t1, 40); (t2, 48); (a0, 72); (a1, 80); (a2, 88); (a3, 96); (a4, 104); (a5, 112);
   (a6, 120); (a7, 128); (t3, 216); (t4, 224); (t5, 232); (t6, 240)].

(** The slots in the order of the saves, [sp] and [tp] among them. *)
Definition vec_saved : list (reg * Z) :=
  [(ra, 0); (sp, 8); (gp, 16); (tp, 24); (t0, 32); (t1, 40); (t2, 48); (a0, 72); (a1, 80); (a2, 88); (a3, 96);
   (a4, 104); (a5, 112); (a6, 120); (a7, 128); (t3, 216); (t4, 224); (t5, 232); (t6, 240)].

Lemma vec_saved_ok : slots_ok 256 vec_saved.
Proof. apply slots_check_ok. vm_compute. reflexivity. Qed.

Lemma vec_slots_ok : slots_ok 256 vec_slots.
Proof. apply slots_check_ok. vm_compute. reflexivity. Qed.

(** The registers a C function keeps. *)
Definition callee_saved : list reg := [sp; s0; s1; s2; s3; s4; s5; s6; s7; s8; s9; s10; s11].

(** [kerneltrap], as any C function, keeps the callee-saved registers and the
    caller's frame at [stack]. *)
Definition returned (stack : Z) (s s' : hart) : Prop :=
  (forall r, r ∈ callee_saved -> h_regs s' r = h_regs s r) /\
  (forall o, 0 <= o < 256 -> ld8 (h_mem s') (stack + o) = ld8 (h_mem s) (stack + o)).

Lemma kernelvec_save_ok (s : hart) (kerneltrap stack next : Z) :
  regs_ok s -> 256 <= h_regs s sp ->
  area (h_mem s) (h_csrs s Satp) (h_regs s sp - 256) stack 256 ->
  exists s', block (kernelvec_save kerneltrap) next s = Some (To kerneltrap, s') /\ h_regs s' sp = h_regs s sp - 256 /\
    (forall r, r <> sp -> r <> ra -> h_regs s' r = h_regs s r) /\ h_csrs s' = h_csrs s /\
    same_outside stack 256 (h_mem s) (h_mem s') /\
    ld64 (h_mem s') (stack + 8) = h_regs s sp - 256 /\
    forall r o, (r, o) ∈ vec_slots -> ld64 (h_mem s') (stack + o) = h_regs s r.
Proof.
  intros Hregs Hlo Ha. destruct vec_saved_ok as (O1 & O2 & _). unfold block.
  change (kernelvec_save kerneltrap).1 with ([Addi sp sp (-256)] ++ saves sp vec_saved). rewrite run_app. cbn [run exec].
  rewrite u64_small by (pose proof (Hregs sp); lia). replace (h_regs s sp + -256) with (h_regs s sp - 256) by lia.
  set (sA := set_reg sp _ s). rewrite (run_saves sp _ sA (h_csrs s Satp) (h_regs s sp - 256) stack 256) by done.
  assert (HsA : forall r, r <> sp -> h_regs sA r = h_regs s r) by (intros r H; cbn; by rewrite decide_False).
  assert (Hsp : h_regs sA sp = h_regs s sp - 256) by done.
  eexists. split; [done|]. cbn [kernelvec_save snd leave set_reg set_mem h_regs h_mem h_csrs].
  split; [exact Hsp|]. split; [intros r H1 H2; rewrite decide_False by done; by apply HsA|]. split; [done|].
  split; [by apply saved_outside|]. split.
  - rewrite (saved_at _ _ 256 _ _ sp) by (done || set_solver). rewrite Hsp. apply u64_small. pose proof (Hregs sp). lia.
  - intros r o H. assert (Hin : (r, o) ∈ vec_saved) by (unfold vec_slots in H; set_solver).
    rewrite (saved_at _ _ 256 _ _ r) by done. rewrite HsA; [by apply u64_small|].
    intros ->. assert (Hn : sp ∉ vec_slots.*1) by (apply (bool_decide_unpack _); by vm_compute).
    apply Hn, list_elem_of_fmap. by exists (sp, o).
Qed.

Lemma kernelvec_restore_ok (c : hart) (stack next : Z) :
  area (h_mem c) (h_csrs c Satp) (h_regs c sp) stack 256 -> ld64 (h_mem c) (stack + 8) = h_regs c sp ->
  0 <= h_regs c sp + 256 < 2 ^ 64 ->
  exists s', block kernelvec_restore next c = Some (ToSepc, s') /\ h_mem s' = h_mem c /\ h_csrs s' = h_csrs c /\
    h_regs s' sp = h_regs c sp + 256 /\
    (forall r o, (r, o) ∈ vec_slots -> h_regs s' r = ld64 (h_mem c) (stack + o)) /\
    forall r, r <> sp -> r ∉ vec_slots.*1 -> h_regs s' r = h_regs c r.
Proof.
  intros Ha H8 Hlt. destruct vec_slots_ok as (O1 & O2 & O3). unfold block.
  change kernelvec_restore.1 with (loads sp [(ra, 0)] ++ [Ld sp 8 sp] ++ loads sp (tail vec_slots) ++ [Addi sp sp 256]).
  rewrite run_app, (run_loads sp _ c (h_csrs c Satp) (h_regs c sp) stack 256);
    [|done|apply Forall_singleton; split; [done|]; by split|set_solver|done|done].
  set (cA := Hart _ _ _). assert (HA : h_regs cA sp = h_regs c sp) by done.
  rewrite run_app. cbn [run exec]. rewrite HA, (area_at cA (h_csrs c Satp) _ stack 256); [|done|split; [done|]; by split|done].
  set (cB := set_reg sp _ cA). assert (HB : h_regs cB sp = h_regs c sp) by exact H8.
  assert (Hbase : sp ∉ (tail vec_slots).*1) by (apply (bool_decide_unpack _); by vm_compute).
  rewrite run_app, (run_loads sp _ cB (h_csrs c Satp) (h_regs c sp) stack 256); [|done|by inversion O1|done|done|done].
  cbn [run exec]. set (cD := Hart _ _ _). assert (HD : h_regs cD sp = h_regs c sp) by (etrans; [by apply loaded_other|exact HB]).
  assert (Hsp : sp ∉ vec_slots.*1) by (apply (bool_decide_unpack _); by vm_compute).
  eexists. split; [done|]. split; [done|]. split; [done|]. cbn [kernelvec_restore snd leave set_reg h_regs].
  rewrite HD. split; [by apply u64_small|]. split.
  - intros r o H. rewrite decide_False by (intros <-; apply Hsp, list_elem_of_fmap; by exists (sp, o)).
    apply elem_of_cons in H as [[= -> ->]|H].
    + etrans; [apply loaded_other; apply (bool_decide_unpack _); by vm_compute|done].
    + apply (loaded_at _ _ _ _ r o); [by inversion O3|done].
  - intros r Hne Hr. rewrite decide_False by done. etrans; [apply loaded_other; intros H; apply Hr; by right|].
    cbn. rewrite decide_False by done. rewrite decide_False; [done|]. intros <-. apply Hr. by left.
Qed.

Lemma vec_regs r : r = sp \/ r = tp \/ r ∈ vec_slots.*1 \/ r ∈ callee_saved /\ r <> sp /\ r <> ra /\ r ∉ vec_slots.*1.
Proof. destruct r; apply (bool_decide_unpack _); by vm_compute. Qed.

(** [kernelvec] is transparent to the kernel code it interrupts: it calls
    [kerneltrap] on 256 bytes of new stack, and when that returns, keeping the
    callee-saved registers and that frame as C functions do, every register but
    [tp] has its value again, [sp] included; [tp] is what [kerneltrap] left, the
    id of the hart it returned on. *)
Theorem kernelvec_correct (s : hart) (kerneltrap stack next next' : Z) (Hregs : regs_ok s) (Hlo : 256 <= h_regs s sp)
    (Hstack : area (h_mem s) (h_csrs s Satp) (h_regs s sp - 256) stack 256) :
  exists c, block (kernelvec_save kerneltrap) next s = Some (To kerneltrap, c) /\
    same_outside stack 256 (h_mem s) (h_mem c) /\
    forall c', returned stack c c' -> area (h_mem c') (h_csrs c' Satp) (h_regs c' sp) stack 256 ->
      exists s', block kernelvec_restore next' c' = Some (ToSepc, s') /\ h_mem s' = h_mem c' /\ h_csrs s' = h_csrs c' /\
        h_regs s' tp = h_regs c' tp /\ forall r, r <> tp -> h_regs s' r = h_regs s r.
Proof.
  destruct (kernelvec_save_ok s kerneltrap stack next Hregs Hlo Hstack) as (c & E & Hsp & Hr & _ & Hm & H8 & Hv).
  exists c. split; [done|]. split; [done|]. intros c' [Hcs Hst] Ha.
  assert (Hsp' : h_regs c' sp = h_regs s sp - 256) by (rewrite Hcs by (by left); done).
  assert (Hld : forall o, slot 256 o -> ld64 (h_mem c') (stack + o) = ld64 (h_mem c) (stack + o)).
  { intros o (A1 & A2 & _). apply ld64_ext. intros i Hi. replace i with (stack + (i - stack)) by lia. apply Hst. lia. }
  pose proof (Hregs sp) as Hsp2.
  destruct (kernelvec_restore_ok c' stack next' Ha) as (s' & E' & Em & Ec & R1 & R2 & R3).
  { rewrite Hld, H8 by (split; [done|]; by split). done. }
  { lia. }
  exists s'. split; [done|]. split; [done|]. split; [done|].
  split; [apply R3; [done|]; apply (bool_decide_unpack _); by vm_compute|].
  intros r Htp. destruct (vec_regs r) as [->|[->|[H|(H1 & H2 & H3 & H4)]]]; [lia|done| |].
  - apply list_elem_of_fmap in H as ([r' o] & -> & H). simpl. rewrite (R2 r' o H), Hld; [by apply Hv|].
    destruct vec_slots_ok as (O1 & _). rewrite Forall_forall in O1. apply O1, list_elem_of_fmap. by exists (r', o).
  - rewrite R3, Hcs, Hr by done. done.
Qed.

(** ** Boot *)

Lemma entry_ok (s : hart) (stack0 start next h : Z) :
  h_csrs s Mhartid = h -> 0 <= h < Z.of_nat NCPU -> 0 <= stack0 -> stack0 + 4096 * Z.of_nat NCPU < 2 ^ 64 ->
  exists s', block (entry stack0 start) next s = Some (To start, s') /\ h_regs s' sp = stack0 + 4096 * (h + 1) /\
    h_mem s' = h_mem s.
Proof.
  intros Hh Hr H0 Hs. unfold block. cbn -[u64 Z.mul Z.add]. change (Z.of_nat NCPU) with 8 in *.
  eexists. split; [done|]. cbn -[u64 Z.mul Z.add]. split; [|done].
  repeat first [rewrite decide_True by done|rewrite decide_False by done]. rewrite Hh.
  rewrite (u64_small (h + 1)) by lia. change (1024 * 4) with 4096. rewrite (u64_small (4096 * (h + 1))) by lia. apply u64_small. lia.
Qed.


End Asm.

(** *** [start.c] *)

Definition MSTATUS_MPP_MASK : Z := Z.shiftl 3 11.

Definition MSTATUS_MPP_S : Z := Z.shiftl 1 11.

Definition SIE_SEIE : Z := Z.shiftl 1 9.

Definition SIE_STIE : Z := Z.shiftl 1 5.

Definition SIE_SSIE : Z := Z.shiftl 1 1.

Definition MIE_STIE : Z := Z.shiftl 1 5.

(** The registers machine mode sets up. *)
Record mregs := Mregs {
  m_mstatus : Z;
  m_mepc : Z;
  m_satp : Z;
  m_medeleg : Z;
  m_mideleg : Z;
  m_sie : Z;
  m_pmpaddr0 : Z;
  m_pmpcfg0 : Z;
  m_mie : Z;
  m_menvcfg : Z;
  m_mcounteren : Z;
  m_stimecmp : Z;
  m_tp : Z
}.

(** [timerinit], with the values of the counters it reads. *)
Definition timerinit (time : Z) (s : mregs) : mregs :=
  Mregs (m_mstatus s) (m_mepc s) (m_satp s) (m_medeleg s) (m_mideleg s) (m_sie s) (m_pmpaddr0 s) (m_pmpcfg0 s)
    (* enable supervisor-mode timer interrupts. *)
    (Z.lor (m_mie s) MIE_STIE)
    (* enable the sstc extension (i.e. stimecmp). *)
    (Z.lor (m_menvcfg s) (Z.shiftl 1 63))
    (* allow supervisor to use stimecmp and time. *)
    (Z.lor (m_mcounteren s) 2)
    (* ask for the very first timer interrupt. *)
    (u64 (time + 1000000))
    (m_tp s).

(** [start] up to [mret], with the address of [main], [time] and [mhartid]. *)
Definition start (main time mhartid : Z) (s : mregs) : mregs :=
  (* set M Previous Privilege mode to Supervisor, for mret. *)
  let x := m_mstatus s in
  let x := Z.land x (Z.lnot MSTATUS_MPP_MASK) in
  let x := Z.lor x MSTATUS_MPP_S in
  let s := Mregs x
    (* set M Exception Program Counter to main, for mret. *)
    main
    (* disable paging for now. *)
    0
    (* delegate all interrupts and exceptions to supervisor mode. *)
    0xffff 0xffff
    (Z.lor (m_sie s) (Z.lor (Z.lor SIE_SEIE SIE_STIE) SIE_SSIE))
    (* configure Physical Memory Protection to give supervisor mode
       access to all of physical memory. *)
    0x3fffffffffffff 0xf
    (m_mie s) (m_menvcfg s) (m_mcounteren s) (m_stimecmp s) (m_tp s) in
  (* ask for clock interrupts. *)
  let s := timerinit time s in
  (* keep each CPU's hartid in its tp register, for cpuid(). *)
  Mregs (m_mstatus s) (m_mepc s) (m_satp s) (m_medeleg s) (m_mideleg s) (m_sie s) (m_pmpaddr0 s) (m_pmpcfg0 s)
    (m_mie s) (m_menvcfg s) (m_mcounteren s) (m_stimecmp s) (u64 (s32 mhartid)).

(** What [mret] does: the mode in [MPP] (1 is supervisor), and the program counter. *)
Definition mret (s : mregs) : Z * Z := (Z.land (Z.shiftr (m_mstatus s) 11) 3, m_mepc s).

(** [start] enters [main] in supervisor mode, with the timer armed. *)
Lemma start_enters_main main time mhartid s :
  mret (start main time mhartid s) = (1, main) /\ Z.testbit (m_mie (start main time mhartid s)) 5 = true /\
  Z.testbit (m_menvcfg (start main time mhartid s)) 63 = true.
Proof.
  split; [|split].
  - unfold mret. cbn [start timerinit m_mstatus m_mepc]. f_equal. apply Z.bits_inj'. intros n Hn.
    rewrite Z.land_spec, Z.shiftr_spec, Z.lor_spec, Z.land_spec, Z.lnot_spec by lia.
    unfold MSTATUS_MPP_MASK, MSTATUS_MPP_S. rewrite !Z.shiftl_spec by lia. replace (n + 11 - 11) with n by lia.
    destruct (decide (n = 0)) as [->|]; [by rewrite !andb_true_r, andb_false_r|].
    destruct (decide (n = 1)) as [->|]; [by rewrite !andb_true_r, andb_false_r|].
    rewrite (Z.bits_above_log2 3 n), andb_false_r by (simpl; lia). symmetry. apply Z.bits_above_log2; simpl; lia.
  - cbn [start timerinit m_mie]. rewrite Z.lor_spec. apply orb_true_r.
  - cbn [start timerinit m_menvcfg]. rewrite Z.lor_spec. apply orb_true_r.
Qed.

(** ** Examples *)

(** A hart whose addresses are translated by an offset. *)
Definition offset_mmu (d : Z) : Mmu := fun _ _ va => Some (va - d).

Definition demo_hart (va : Z) : hart :=
  Hart (fun r => if decide (r = a0) then va else if decide (r = a1) then va + 128 else if decide (r = sp) then va else 7)
    (fun _ => 3) ∅.

Lemma demo_regs_ok va : 0 <= va < 2 ^ 63 -> regs_ok (demo_hart va).
Proof. intros H r. cbn -[Z.pow Z.add]. repeat case_decide; lia. Qed.

Lemma offset_area d m satp va len :
  va mod 8 = 0 -> 0 <= va -> va + len <= 2 ^ 64 -> area (mmu := offset_mmu d) (fun _ => True) m satp va (va - d) len.
Proof. intros H1 H2 H3. split; try done. intros m' o _ _. unfold translate, offset_mmu. f_equal. lia. Qed.

Lemma swtch_correct_witness :
  exists h', block (mmu := offset_mmu 0) swtch 0 (demo_hart 4096) = Some (To 0, h') /\ ld64 (h_mem h') 4096 = 7.
Proof.
  destruct (swtch_correct (mmu := offset_mmu 0) (fun _ => True) (demo_hart 4096) 3 4096 4224 0) as (h' & E & _ & _ & Hback).
  - by apply demo_regs_ok.
  - reflexivity.
  - by apply (offset_area 0 _ _ 4096).
  - by apply (offset_area 0 _ _ 4224).
  - by left.
  - exists h'. split; [exact E|]. vm_compute in E. injection E as <-. vm_compute. reflexivity.
Defined.

Lemma trap_roundtrip_witness :
  exists k u', block (mmu := offset_mmu (TRAPFRAME - 8192)) uservec 0 (demo_hart 64) = Some (To 0, k) /\
    block (mmu := offset_mmu (TRAPFRAME - 8192)) userret 0 (set_reg a0 3 k) = Some (ToSepc, u') /\
    h_regs u' a1 = 192 /\ h_regs u' a0 = 64.
Proof.
  assert (Ha : forall m, area (mmu := offset_mmu (TRAPFRAME - 8192)) (fun _ => True) m 3 TRAPFRAME 8192 sizeof_trapframe).
  { intros m. pose proof (offset_area (TRAPFRAME - 8192) m 3 TRAPFRAME sizeof_trapframe eq_refl ltac:(done) ltac:(done)) as H.
    by replace (TRAPFRAME - (TRAPFRAME - 8192)) with 8192 in H by lia. }
  destruct (trap_roundtrip (mmu := offset_mmu (TRAPFRAME - 8192)) (fun _ => True) (demo_hart 64) 8192 0) as (k & E & _ & _ & _ & _ & Hback).
  - by apply demo_regs_ok.
  - apply Ha.
  - destruct (Hback (set_reg a0 3 k) 0) as (u' & E' & _ & _ & Hr); [reflexivity|apply Ha|]. exists k, u'.
    split; [exact E|]. split; [exact E'|].
    destruct (Hr a1) as (o1 & _ & _ & H1), (Hr a0) as (o0 & _ & _ & H0). split; [exact (H1 eq_refl)|exact (H0 eq_refl)].
Defined.

Lemma kernelvec_correct_witness :
  exists c s', block (mmu := offset_mmu 0) (kernelvec_save 99) 5 (demo_hart 4096) = Some (To 99, c) /\
    block (mmu := offset_mmu 0) kernelvec_restore 0 (set_reg a0 1 (set_reg tp 2 c)) = Some (ToSepc, s') /\
    h_regs s' a0 = 4096 /\ h_regs s' sp = 4096 /\ h_regs s' ra = 7 /\ h_regs s' tp = 2.
Proof.
  destruct (kernelvec_correct (mmu := offset_mmu 0) (fun _ => True) (demo_hart 4096) 99 3840 5 0) as (c & E & _ & Hback).
  - by apply demo_regs_ok.
  - done.
  - by apply (offset_area 0 _ _ 3840).
  - destruct (Hback (set_reg a0 1 (set_reg tp 2 c))) as (s' & E' & _ & _ & Htp & Hr).
    + split; [|done]. intros r Hin. cbn. rewrite !decide_False; [done|..]; intros <-; revert Hin; apply (bool_decide_unpack _); by vm_compute.
    + vm_compute in E. injection E as <-. by apply (offset_area 0 _ _ 3840).
    + exists c, s'. split; [exact E|]. split; [exact E'|]. split; [by apply Hr|]. split; [by apply Hr|]. split; [by apply Hr|exact Htp].
Defined.

