(* ===== verification/Console.v ===== *)
(** * [kernel/console.c], with [uartintr] of uart.c and [procdump] of proc.c

    The console's line discipline: the input buffer is a ring of 128 slots with
    32-bit counters, in which [r..w] holds whole lines for [consoleread] and
    [w..e] the line being edited.  [editor] is the abstract line editor that the
    interrupt handler implements. *)

From S2P Require Import Prelude Riscv Memory CString Ring Sys Spinlock Proc Kalloc Vm Sleeplock Uart Printf Either.

Definition INPUT_BUF_SIZE : Z := 128.

(** [C(x)] *)
Definition Ctrl (x : Z) : Z := x - 64.

Definition CTRL_P : Z := Ctrl 80.

Definition CTRL_U : Z := Ctrl 85.

Definition CTRL_H : Z := Ctrl 72.

Definition CTRL_D : Z := Ctrl 68.

Definition DEL : Z := 127.

Definition NL : Z := 10.

Definition CR : Z := 13.

(** An entry of [devsw]: the device whose functions it holds. *)
Inductive device := NoDevice | ConsoleDevice.

#[export] Instance device_inhabited : Inhabited device := populate NoDevice.

Definition CONSOLE : nat := 1.

Record console := Console {
  co_tty : tty;
  co_freelist : Z;
  co_mem : mem;
  co_devsw : list device;
  cons_buf : list byte;
  cons_r : Z;
  cons_w : Z;
  cons_e : Z
}.

Definition set_co_tty (x : tty) (s : console) : console :=
  Console x (co_freelist s) (co_mem s) (co_devsw s) (cons_buf s) (cons_r s) (cons_w s) (cons_e s).

Definition set_co_devsw (x : list device) (s : console) : console :=
  Console (co_tty s) (co_freelist s) (co_mem s) x (cons_buf s) (cons_r s) (cons_w s) (cons_e s).

Definition set_cons_buf (x : list byte) (s : console) : console :=
  Console (co_tty s) (co_freelist s) (co_mem s) (co_devsw s) x (cons_r s) (cons_w s) (cons_e s).

Definition set_cons_r (x : Z) (s : console) : console :=
  Console (co_tty s) (co_freelist s) (co_mem s) (co_devsw s) (cons_buf s) x (cons_w s) (cons_e s).

Definition set_cons_w (x : Z) (s : console) : console :=
  Console (co_tty s) (co_freelist s) (co_mem s) (co_devsw s) (cons_buf s) (cons_r s) x (cons_e s).

Definition set_cons_e (x : Z) (s : console) : console :=
  Console (co_tty s) (co_freelist s) (co_mem s) (co_devsw s) (cons_buf s) (cons_r s) (cons_w s) x.

Definition co_sys (s : console) : sys := tt_sys (co_tty s).

Definition co_ttyL : lens console tty := Lens co_tty set_co_tty.

Definition co_sysL : lens console sys :=
  Lens co_sys (fun x s => set_co_tty (set_tt_sys x (co_tty s)) s).

(** The page allocator's view: free list and memory, with the same [sys]. *)
Definition co_kmemL : lens console kmem :=
  Lens (fun s => Kmem (co_sys s) (co_freelist s) (co_mem s))
    (fun k s => Console (set_tt_sys (km_sys k) (co_tty s)) (km_freelist k) (km_mem k) (co_devsw s)
                  (cons_buf s) (cons_r s) (cons_w s) (cons_e s)).

#[export] Instance co_ttyL_laws : LensLaws co_ttyL.
Proof. by split; intros; try destruct s. Qed.

#[export] Instance co_sysL_laws : LensLaws co_sysL.
Proof. by split; intros; try destruct s as [[] ? ? ? ? ? ? ?]. Qed.

#[export] Instance co_kmemL_laws : LensLaws co_kmemL.
Proof. by split; intros; try destruct c; try destruct s as [[] ? ? ? ? ? ? ?]. Qed.

Definition cons_slot (x : Z) : nat := slot INPUT_BUF_SIZE x.

(** ** proc.c: procdump *)

Definition state_name (st : procstate) : string :=
  match st with
  | UNUSED => "unused" | USED => "used" | SLEEPING => "sleep " | RUNNABLE => "runble"
  | RUNNING => "run   " | ZOMBIE => "zombie"
  end.

Section Console.

(** The device, the bound on polling it, and the bound on the wake-ups a sleep
    may need. *)
Variable dev : list event -> Z -> Z.
Variable spins rounds : nat.

Definition procdump_one (i : nat) : M tty unit :=
  let! s := gets tt_sys in
  let p := proc_of s i in
  if decide (p_state p = UNUSED) then ret tt else
  let! _ := printf dev spins (bytes_of "%d %s %s")
    [Num (p_pid p); Str (Some (bytes_of (state_name (p_state p)))); Str (Some (until_nul (p_name p)))] in
  let! _ := printf dev spins [Byte.x0a] [] in
  ret tt.

Definition procdump : M tty unit :=
  let! _ := printf dev spins [Byte.x0a] [] in
  forM (seq 0 NPROC) procdump_one.

(** ** console.c *)

(** The loop of [consolewrite], from character [i] on, [k] left. *)
Fixpoint consolewrite_loop (user_src : bool) (src : Z) (i : Z) (k : nat) : M console Z :=
  match k with
  | O => ret i
  | S k =>
      let! (r, cs) := zoom co_kmemL (either_copyin user_src (u64 (src + i)) 1) in
      if r =? -1 then ret i else
      zoom co_ttyL (uartputc dev rounds (byte.unsigned (cs !!! 0%nat))) ;;
      consolewrite_loop user_src src (i + 1) k
  end.

Definition consolewrite (user_src : bool) (src n : Z) : M console Z :=
  consolewrite_loop user_src src 0 (Z.to_nat n).

(** Wait until the interrupt handler has put some input into [cons.buf]: false
    when the process was killed and the lock released. *)
Definition consoleread_wait (_ : unit) : M console (unit + bool) :=
  let! s := get in
  if cons_r s =? cons_w s then
    let! p := zoom co_sysL myproc in
    let! i := zoom co_sysL (deref p) in
    let! k := zoom co_sysL (killed i) in
    if negb (k =? 0) then zoom co_sysL (release L_cons) ;; ret (inr false) else
    zoom co_sysL (sleep Ch_cons_r L_cons) ;; ret (inl tt)
  else ret (inr true).

(** One round of the outer loop: go on with the next address and count, stop
    with the count left, or stop because the process was killed. *)
Definition consoleread_body (user_dst : bool) (target : Z) : Z * Z -> M console (Z * Z + option Z) :=
  fun '(dst, n) =>
    if negb (0 <? n) then ret (inr (Some n)) else
    let! live := while (S rounds) consoleread_wait tt in
    if negb live then ret (inr None) else
    let! s := get in
    let c := cons_buf s !!! cons_slot (cons_r s) in
    modify (set_cons_r (u32 (cons_r s + 1))) ;;
    if byte.unsigned c =? CTRL_D then
      (* end-of-file: save ^D for next time, to make sure caller gets a 0-byte result. *)
      (if n <? target then modify (fun s => set_cons_r (u32 (cons_r s - 1)) s) else ret tt) ;;
      ret (inr (Some n))
    else
    let! r := zoom co_kmemL (either_copyout user_dst dst [c]) in
    if r =? -1 then ret (inr (Some n)) else
    let dst := u64 (dst + 1) in
    let n := n - 1 in
    if byte.unsigned c =? NL then ret (inr (Some n)) else
    ret (inl (dst, n)).

Definition consoleread (user_dst : bool) (dst n : Z) : M console Z :=
  let target := u32 n in
  zoom co_sysL (acquire L_cons) ;;
  let! r := while (S (Z.to_nat n)) (consoleread_body user_dst target) (dst, n) in
  match r with
  | None => ret (-1)
  | Some n => zoom co_sysL (release L_cons) ;; ret (s32 (target - n))
  end.

Definition cons_putc (c : Z) : M console unit := zoom co_ttyL (consputc dev spins c).

(** ^U: erase back to the last newline or the start of the line. *)
Definition kill_line_body (_ : unit) : M console (unit + unit) :=
  let! s := get in
  if negb (cons_e s =? cons_w s) &&
     negb (byte.unsigned (cons_buf s !!! cons_slot (u32 (cons_e s - 1))) =? NL) then
    modify (set_cons_e (u32 (cons_e s - 1))) ;;
    cons_putc BACKSPACE ;;
    ret (inl tt)
  else ret (inr tt).

(** A character of input: echoed, stored, and a whole line handed to readers. *)
Definition cons_store (c : Z) : M console unit :=
  let! s := get in
  if negb (c =? 0) && (u32 (cons_e s - cons_r s) <? INPUT_BUF_SIZE) then
    let c := if c =? CR then NL else c in
    cons_putc c ;;
    let! s := get in
    modify (set_cons_buf (<[cons_slot (cons_e s) := byte.of_Z c]> (cons_buf s))) ;;
    modify (set_cons_e (u32 (cons_e s + 1))) ;;
    let! s := get in
    if (c =? NL) || (c =? CTRL_D) || (u32 (cons_e s - cons_r s) =? INPUT_BUF_SIZE) then
      modify (set_cons_w (cons_e s)) ;;
      zoom co_sysL (wakeup Ch_cons_r)
    else ret tt
  else ret tt.

Definition consoleintr (c : Z) : M console unit :=
  zoom co_sysL (acquire L_cons) ;;
  (if c =? CTRL_P then zoom co_ttyL procdump
   else if c =? CTRL_U then while 129 kill_line_body tt
   else if (c =? CTRL_H) || (c =? DEL) then
     let! s := get in
     if negb (cons_e s =? cons_w s) then
       modify (set_cons_e (u32 (cons_e s - 1))) ;;
       cons_putc BACKSPACE
     else ret tt
   else cons_store c) ;;
  zoom co_sysL (release L_cons).

Definition consoleinit : M console unit :=
  zoom co_sysL (initlock L_cons "cons") ;;
  zoom co_ttyL uartinit ;;
  modify (fun s => set_co_devsw (<[CONSOLE := ConsoleDevice]> (co_devsw s)) s).

(** ** uart.c: uartintr *)

Definition uartintr_body (_ : unit) : M console (unit + unit) :=
  let! c := zoom co_ttyL (uartgetc dev) in
  if c =? -1 then ret (inr tt) else
  consoleintr c ;; ret (inl tt).

Definition uartintr : M console unit :=
  (* read and process incoming characters. *)
  while spins uartintr_body tt ;;
  (* send buffered characters. *)
  zoom co_sysL (acquire L_uart_tx) ;;
  zoom co_ttyL (uartstart dev) ;;
  zoom co_sysL (release L_uart_tx).

End Console.
