(* ===== verification/ConsoleOk.v ===== *)
(** * The line discipline of the console

    [consoleintr] of Console.v implements a line editor: a pure function on the
    lines that are complete and the line being edited. *)

From S2P Require Import Prelude Riscv Memory CString Ring Sys Spinlock Proc Kalloc Vm Sleeplock Uart Printf Either Console.

(** ** The abstract editor *)

Record editor := Editor { ed_done : list byte; ed_line : list byte }.

Definition ed_full (x : editor) : bool := INPUT_BUF_SIZE <=? Z.of_nat (length (ed_done x ++ ed_line x)).

(** What one input character does. *)
Definition edit (c : Z) (x : editor) : editor :=
  if c =? CTRL_P then x
  else if c =? CTRL_U then Editor (ed_done x) []
  else if (c =? CTRL_H) || (c =? DEL) then Editor (ed_done x) (removelast (ed_line x))
  else if (c =? 0) || ed_full x then x
  else
    let c := if c =? CR then NL else c in
    let x := Editor (ed_done x) (ed_line x ++ [byte.of_Z c]) in
    if (c =? NL) || (c =? CTRL_D) || ed_full x then Editor (ed_done x ++ ed_line x) [] else x.

Definition rub_out : list Z := [8; 32; 8].

(** What is echoed; for ^P see [procdump]. *)
Definition echo (c : Z) (x : editor) : list Z :=
  if c =? CTRL_U then mjoin (replicate (length (ed_line x)) rub_out)
  else if (c =? CTRL_H) || (c =? DEL) then (if decide (ed_line x = []) then [] else rub_out)
  else if (c =? 0) || ed_full x then []
  else [if c =? CR then NL else c].

(** ** The console as an editor *)

Abbreviation cons_contents := (contents (A := byte) INPUT_BUF_SIZE (2 ^ 32)).
Abbreviation cons_count := (count (2 ^ 32)).

Definition cons_editor (s : console) : editor :=
  Editor (cons_contents (cons_buf s) (cons_r s) (cons_w s)) (cons_contents (cons_buf s) (cons_w s) (cons_e s)).

Record cons_ok (s : console) : Prop := {
  cn_ring : ring_ok INPUT_BUF_SIZE (2 ^ 32) (cons_buf s) (cons_r s) (cons_e s);
  cn_w : 0 <= cons_w s < 2 ^ 32;
  cn_split : cons_count (cons_r s) (cons_w s) + cons_count (cons_w s) (cons_e s) = cons_count (cons_r s) (cons_e s);
  cn_line : Byte.x0a ∉ ed_line (cons_editor s)
}.

Lemma cons_W : INPUT_BUF_SIZE < 2 ^ 32.
Proof. done. Qed.

Lemma cons_pos : 0 < INPUT_BUF_SIZE.
Proof. done. Qed.

Lemma cons_div : (INPUT_BUF_SIZE | 2 ^ 32).
Proof. by exists (2 ^ 25). Qed.

#[local] Hint Resolve cons_W cons_pos cons_div : core.

Section ConsState.
Implicit Types s : console.

Lemma cons_counts s :
  cons_ok s -> 0 <= cons_count (cons_r s) (cons_w s) /\ 0 <= cons_count (cons_w s) (cons_e s) /\
  cons_count (cons_r s) (cons_e s) <= INPUT_BUF_SIZE.
Proof.
  intros [[R1 R2 R3 R4] W C L].
  pose proof (count_range INPUT_BUF_SIZE (2 ^ 32) cons_pos cons_W (cons_r s) (cons_w s)).
  pose proof (count_range INPUT_BUF_SIZE (2 ^ 32) cons_pos cons_W (cons_w s) (cons_e s)). lia.
Qed.

(** The line being edited is itself a ring. *)
Lemma line_ring s : cons_ok s -> ring_ok INPUT_BUF_SIZE (2 ^ 32) (cons_buf s) (cons_w s) (cons_e s).
Proof.
  intros H. pose proof (cons_counts s H) as (H1 & H2 & H3). destruct H as [[R1 R2 R3 R4] W C L]. split; [done..|lia].
Qed.

Lemma whole_buffer s :
  cons_ok s -> cons_contents (cons_buf s) (cons_r s) (cons_e s) = ed_done (cons_editor s) ++ ed_line (cons_editor s).
Proof. intros [[R1 R2 R3 R4] W C L]. by apply contents_split. Qed.

Lemma ed_full_count s : cons_ok s -> ed_full (cons_editor s) = (INPUT_BUF_SIZE <=? u32 (cons_e s - cons_r s)).
Proof.
  intros H. unfold ed_full. rewrite <- whole_buffer, contents_len by done.
  rewrite Z2Nat.id; [done|]. apply (count_range INPUT_BUF_SIZE); done.
Qed.

Lemma line_empty s : cons_ok s -> (cons_e s = cons_w s <-> ed_line (cons_editor s) = []).
Proof.
  intros H. pose proof (cons_counts s H) as (_ & Hc & _). destruct H as [[R1 R2 R3 R4] W C L].
  pose proof (count_empty INPUT_BUF_SIZE (2 ^ 32) cons_pos cons_W (cons_w s) (cons_e s) W R3) as He.
  rewrite <- length_zero_iff_nil. unfold cons_editor. simpl. rewrite contents_len.
  split; [intros E; rewrite (proj2 He (eq_sym E)); done|]. intros E. symmetry. apply He. lia.
Qed.

(** Erasing the last character of the line. *)
Lemma cons_erase s :
  cons_ok s -> cons_e s <> cons_w s ->
  let s' := set_cons_e (u32 (cons_e s - 1)) s in
  cons_ok s' /\ exists b,
    cons_buf s !!! cons_slot (u32 (cons_e s - 1)) = b /\
    cons_editor s = Editor (ed_done (cons_editor s')) (ed_line (cons_editor s') ++ [b]).
Proof.
  intros H Hne s'. pose proof (cons_counts s H) as (Hc1 & Hc & _). pose proof (line_ring s H) as Hr.
  assert (Hpos : 0 < cons_count (cons_w s) (cons_e s)).
  { destruct (decide (cons_count (cons_w s) (cons_e s) = 0)) as [E|]; [|lia]. exfalso. apply Hne. symmetry.
    destruct H as [[R1 R2 R3 R4] W C L]. by apply (proj1 (count_empty INPUT_BUF_SIZE (2 ^ 32) cons_pos cons_W _ _ W R3)). }
  destruct (ring_unpush INPUT_BUF_SIZE (2 ^ 32) cons_pos cons_W cons_div _ _ _ Hr Hpos) as [E [R1' R2' R3' R4']].
  assert (Es : slot INPUT_BUF_SIZE (cons_e s - 1) = cons_slot (u32 (cons_e s - 1))).
  { symmetry. apply (slot_wrap INPUT_BUF_SIZE (2 ^ 32)); done. }
  rewrite Es in E. assert (Hline : ed_line (cons_editor s) = ed_line (cons_editor s') ++ [cons_buf s !!! cons_slot (u32 (cons_e s - 1))]) by exact E.
  split.
  - destruct H as [[R1 R2 R3 R4] W C L].
    pose proof (count_pred INPUT_BUF_SIZE (2 ^ 32) cons_pos cons_W (cons_w s) (cons_e s) Hpos) as Ec.
    pose proof (count_pred INPUT_BUF_SIZE (2 ^ 32) cons_pos cons_W (cons_r s) (cons_e s) ltac:(lia)) as Ec'.
    split; [split; [done..|]|done| |].
    + simpl. unfold u32. lia.
    + simpl. unfold u32. lia.
    + intros Hin. apply L. rewrite Hline. by apply elem_of_app; left.
  - eexists. split; [reflexivity|]. by rewrite <- Hline.
Qed.

(** Storing a character at the end of the line. *)
Lemma cons_append s b :
  cons_ok s -> u32 (cons_e s - cons_r s) < INPUT_BUF_SIZE ->
  let s' := set_cons_e (u32 (cons_e s + 1)) (set_cons_buf (<[cons_slot (cons_e s) := b]> (cons_buf s)) s) in
  ring_ok INPUT_BUF_SIZE (2 ^ 32) (cons_buf s') (cons_r s') (cons_e s') /\
  cons_count (cons_r s') (cons_w s') + cons_count (cons_w s') (cons_e s') = cons_count (cons_r s') (cons_e s') /\
  cons_editor s' = Editor (ed_done (cons_editor s)) (ed_line (cons_editor s) ++ [b]) /\
  cons_contents (cons_buf s') (cons_r s') (cons_e s') = ed_done (cons_editor s) ++ ed_line (cons_editor s) ++ [b].
Proof.
  intros H Hroom s'. change (cons_count (cons_r s) (cons_e s) < INPUT_BUF_SIZE) in Hroom.
  pose proof (cons_counts s H) as (Hc1 & Hc & _). pose proof (line_ring s H) as Hr. pose proof (whole_buffer s H) as Hwb.
  destruct H as [R W C L]. assert (HN : INPUT_BUF_SIZE = 128) by done.
  destruct (ring_push INPUT_BUF_SIZE (2 ^ 32) cons_pos cons_W cons_div _ _ _ b R Hroom) as [E1 R1].
  destruct (ring_push INPUT_BUF_SIZE (2 ^ 32) cons_pos cons_W cons_div _ _ _ b Hr ltac:(lia)) as [E2 R2].
  pose proof (count_succ INPUT_BUF_SIZE (2 ^ 32) cons_pos cons_W (cons_w s) (cons_e s) ltac:(lia)) as Ec.
  pose proof (count_succ INPUT_BUF_SIZE (2 ^ 32) cons_pos cons_W (cons_r s) (cons_e s) ltac:(lia)) as Ec'.
  assert (Hsp : cons_count (cons_r s') (cons_w s') + cons_count (cons_w s') (cons_e s') = cons_count (cons_r s') (cons_e s')).
  { simpl. unfold u32. lia. }
  pose proof (contents_split INPUT_BUF_SIZE (2 ^ 32) cons_pos cons_W cons_div (cons_buf s') _ _ _ (rg_r _ _ _ _ _ R1) W Hsp) as Hs.
  assert (Hall : cons_contents (cons_buf s') (cons_r s') (cons_e s') = ed_done (cons_editor s) ++ ed_line (cons_editor s) ++ [b]).
  { etransitivity; [exact E1|]. by rewrite Hwb, app_assoc. }
  split; [exact R1|]. split; [exact Hsp|]. split; [|exact Hall].
  change (ed_line (cons_editor s') = ed_line (cons_editor s) ++ [b]) in E2.
  pose proof (eq_trans (eq_sym Hs) Hall) as Hd.
  change (ed_done (cons_editor s') ++ ed_line (cons_editor s') =
    ed_done (cons_editor s) ++ ed_line (cons_editor s) ++ [b]) in Hd.
  rewrite E2 in Hd. apply app_inv_tail in Hd.
  change (cons_editor s') with (Editor (ed_done (cons_editor s')) (ed_line (cons_editor s'))). by rewrite E2, Hd.
Qed.

End ConsState.

(** ** consoleintr *)

Section Intr.
Variable dev : list event -> Z -> Z.
Variable spins : nat.
Hypothesis drains : dev_drains dev spins.
Implicit Types s : console.

(** The conditions under which the kernel takes an input interrupt: the hart can
    run [wakeup], and the locks of the console and of [printf] are free. *)
Record intr_ready (s : console) : Prop := {
  ir_wake : wakeable (co_sys s);
  ir_cons : lock_idle (co_sys s) L_cons;
  ir_pr : lock_idle (co_sys s) L_pr;
  ir_alive : panicked (co_tty s) = false;
  ir_tty : tty_ok (co_tty s)
}.

(** What one branch of the handler does, inside the critical section. *)
Record handled (out : list Z) (ed : editor) (s s' : console) : Prop := {
  hd_ok : cons_ok s';
  hd_ed : cons_editor s' = ed;
  hd_sys : woken (co_sys s) (co_sys s');
  hd_sent : sent (co_tty s') = sent (co_tty s) ++ out;
  hd_tty : tty_ok (co_tty s');
  hd_alive : panicked (co_tty s') = panicked (co_tty s)
}.

Definition echo_char (c : Z) : list Z := if c =? BACKSPACE then rub_out else [u8 c].

Lemma consputc_ok c t :
  settled (tt_sys t) -> panicked t = false -> exists t', consputc dev spins c t = Ok tt t' /\ emitted (echo_char c) t t'.
Proof.
  intros Hs Hp. unfold consputc, echo_char. destruct (c =? BACKSPACE).
  - destruct (uartputc_sync_ok dev spins 8 t drains Hs Hp) as (t1 & E1 & M1). krun E1.
    assert (H1 : settled (tt_sys t1) /\ panicked t1 = false) by (by destruct M1 as (h & -> & _)). destruct H1 as [Hs1 Hp1].
    destruct (uartputc_sync_ok dev spins 32 t1 drains Hs1 Hp1) as (t2 & E2 & M2). krun E2.
    assert (H2 : settled (tt_sys t2) /\ panicked t2 = false) by (by destruct M2 as (h & -> & _)). destruct H2 as [Hs2 Hp2].
    destruct (uartputc_sync_ok dev spins 8 t2 drains Hs2 Hp2) as (t3 & E3 & M3). exists t3. split; [done|].
    exact (emitted_app _ _ _ _ _ M1 (emitted_app _ _ _ _ _ M2 M3)).
  - by apply uartputc_sync_ok.
Qed.

Lemma cons_putc_ok c s :
  settled (co_sys s) -> panicked (co_tty s) = false ->
  exists t, cons_putc dev spins c s = Ok tt (set_co_tty t s) /\ emitted (echo_char c) (co_tty s) t.
Proof.
  intros Hs Hp. destruct (consputc_ok c (co_tty s) Hs Hp) as (t & E & Hm).
  exists t. split; [exact (zoom_Ok co_ttyL _ s _ _ E)|done].
Qed.

(** The ring of the console does not depend on the terminal. *)
Lemma cons_ok_tty t s : cons_ok s -> cons_ok (set_co_tty t s).
Proof. by intros [? ? ? ?]. Qed.

Lemma emitted_handled out t s : cons_ok s -> tty_ok (co_tty s) -> emitted out (co_tty s) t -> handled out (cons_editor s) s (set_co_tty t s).
Proof.
  intros H Ht Hm. split; [by apply cons_ok_tty|done| |by apply emitted_sent; [apply Ht|]|by eapply emitted_ok|];
    by destruct Hm as (h & -> & _).
Qed.

Lemma handled_trans o1 o2 ed1 ed2 s1 s2 s3 :
  handled o1 ed1 s1 s2 -> handled o2 ed2 s2 s3 -> handled (o1 ++ o2) ed2 s1 s3.
Proof.
  intros [A1 A2 A3 A4 A5 A6] [B1 B2 B3 B4 B5 B6]. split; [done|done|by etrans| |done|congruence].
  by rewrite B4, A4, app_assoc.
Qed.

Lemma handled_nil s : cons_ok s -> tty_ok (co_tty s) -> handled [] (cons_editor s) s s.
Proof. intros H Ht. split; [done..|by rewrite app_nil_r|done|done]. Qed.

(** The ready terminal of a branch. *)
Record live (s : console) : Prop := {
  lv_ok : cons_ok s;
  lv_tty : tty_ok (co_tty s);
  lv_set : settled (co_sys s);
  lv_alive : panicked (co_tty s) = false
}.

Lemma live_handled o ed s s' : live s -> handled o ed s s' -> live s'.
Proof.
  intros [A1 A2 A3 A4] [B1 B2 B3 B4 B5 B6]. split; [done|done| |congruence]. by eapply woken_settled.
Qed.

Lemma erase_ok s :
  live s -> cons_e s <> cons_w s ->
  exists s', cons_putc dev spins BACKSPACE (set_cons_e (u32 (cons_e s - 1)) s) = Ok tt s' /\
    handled rub_out (Editor (ed_done (cons_editor s)) (removelast (ed_line (cons_editor s)))) s s'.
Proof.
  intros [H Ht Hs Hp] Hne. destruct (cons_erase s H Hne) as (H' & b & _ & He).
  set (s1 := set_cons_e _ s) in *. destruct (cons_putc_ok BACKSPACE s1 Hs Hp) as (t & E & Hm).
  exists (set_co_tty t s1). split; [exact E|]. rewrite He. cbn [ed_done ed_line]. rewrite removelast_last.
  destruct (emitted_handled rub_out t s1 H' Ht Hm) as [B1 B2 B3 B4 B5 B6]. split; [done|exact B2|done..].
Qed.

Lemma line_last s : live s -> cons_e s <> cons_w s ->
  byte.unsigned (cons_buf s !!! cons_slot (u32 (cons_e s - 1))) <> NL.
Proof.
  intros [H _ _ _] Hne Hn. destruct (cons_erase s H Hne) as (_ & b & Hb & He). apply (cn_line s H). rewrite He. cbn [ed_line].
  apply elem_of_app. right. rewrite Hb in Hn. assert (b = Byte.x0a) as -> by (by destruct b). left.
Qed.

Lemma line_kill_ok n s :
  live s -> (length (ed_line (cons_editor s)) < n)%nat ->
  exists s', while n (kill_line_body dev spins) tt s = Ok tt s' /\
    handled (mjoin (replicate (length (ed_line (cons_editor s))) rub_out)) (Editor (ed_done (cons_editor s)) []) s s'.
Proof.
  revert s. induction n as [|n IH]; intros s Hl Hn; [lia|]. cbn [while].
  destruct (decide (cons_e s = cons_w s)) as [He|Hne].
  - exists s. split.
    + rewrite (bind_Ok _ _ _ (inr tt) s); [done|]. unfold kill_line_body, bind at 1, get. cbn [obind]. by rewrite He, Z.eqb_refl.
    + pose proof (proj1 (line_empty s (lv_ok s Hl)) He) as Hnil. rewrite Hnil. simpl.
      pose proof (handled_nil s (lv_ok s Hl) (lv_tty s Hl)) as [B1 B2 B3 B4 B5 B6]. split; [done| |done..].
      change (cons_editor s) with (Editor (ed_done (cons_editor s)) (ed_line (cons_editor s))). by rewrite Hnil.
  - destruct (erase_ok s Hl Hne) as (s1 & E1 & H1).
    rewrite (bind_Ok _ _ _ (inl tt) s1).
    + pose proof (hd_ed _ _ _ _ H1) as Hed.
      assert (Hlen : length (ed_line (cons_editor s)) = S (length (ed_line (cons_editor s1)))).
      { rewrite Hed. cbn [ed_line]. destruct (cons_erase s (lv_ok s Hl) Hne) as (_ & b & _ & He). rewrite He. cbn [ed_line].
        rewrite removelast_last, length_app. simpl. lia. }
      destruct (IH s1) as (s2 & E2 & H2); [by eapply live_handled|lia|]. exists s2. split; [exact E2|].
      rewrite Hlen. cbn [replicate]. change (mjoin (rub_out :: ?l)) with (rub_out ++ mjoin l).
      rewrite Hed in H2 at 2. by eapply handled_trans.
    + unfold kill_line_body, bind at 1, get. cbn [obind]. destruct (Z.eqb_spec (cons_e s) (cons_w s)); [done|].
      destruct (Z.eqb_spec (byte.unsigned (cons_buf s !!! cons_slot (u32 (cons_e s - 1)))) NL) as [Hbad|].
      * by apply line_last in Hbad.
      * cbn [negb andb]. rewrite bind_modify. by krun E1.
Qed.

Lemma of_Z_newline c : 0 <= c < 256 -> byte.of_Z c = Byte.x0a -> c = NL.
Proof.
  intros Hc H. apply (f_equal byte.unsigned) in H. rewrite byte.unsigned_of_Z in H.
  unfold byte.wrap in H. rewrite Z.mod_small in H by lia. exact H.
Qed.

(** A stored character that completes a line. *)
Lemma line_commit_ok s ed_d ed_l :
  ring_ok INPUT_BUF_SIZE (2 ^ 32) (cons_buf s) (cons_r s) (cons_e s) ->
  cons_contents (cons_buf s) (cons_r s) (cons_e s) = ed_d ++ ed_l ->
  cons_ok (set_cons_w (cons_e s) s) /\ cons_editor (set_cons_w (cons_e s) s) = Editor (ed_d ++ ed_l) [].
Proof.
  intros R Hc. destruct R as [R1 R2 R3 R4].
  assert (Hz : cons_count (cons_e s) (cons_e s) = 0) by (unfold count; by rewrite Z.sub_diag).
  assert (He : cons_editor (set_cons_w (cons_e s) s) = Editor (ed_d ++ ed_l) []).
  { unfold cons_editor. cbn [cons_buf cons_r cons_w cons_e set_cons_w]. rewrite Hc. f_equal. unfold contents. by rewrite Hz. }
  split; [|done]. split; [done|done|simpl; lia|]. rewrite He. apply not_elem_of_nil.
Qed.

Lemma full_after s b :
  ring_ok INPUT_BUF_SIZE (2 ^ 32) (cons_buf s) (cons_r s) (cons_e s) ->
  cons_contents (cons_buf s) (cons_r s) (cons_e s) = ed_done (cons_editor s) ++ ed_line (cons_editor s) ->
  ed_full (cons_editor s) = b -> (u32 (cons_e s - cons_r s) =? INPUT_BUF_SIZE) = b.
Proof.
  intros [R1 R2 R3 R4] Hc <-. unfold ed_full. rewrite <- Hc, contents_len.
  pose proof (count_range INPUT_BUF_SIZE (2 ^ 32) cons_pos cons_W (cons_r s) (cons_e s)).
  rewrite Z2Nat.id by lia. change (u32 (cons_e s - cons_r s)) with (cons_count (cons_r s) (cons_e s)).
  destruct (Z.eqb_spec (cons_count (cons_r s) (cons_e s)) INPUT_BUF_SIZE), (Z.leb_spec INPUT_BUF_SIZE (cons_count (cons_r s) (cons_e s))); lia || done.
Qed.

(** The end of [cons_store], once the character is in the buffer. *)
Definition cons_publish (c : Z) : M console unit :=
  let! s := get in
  if (c =? NL) || (c =? CTRL_D) || (u32 (cons_e s - cons_r s) =? INPUT_BUF_SIZE) then
    modify (set_cons_w (cons_e s)) ;;
    zoom co_sysL (wakeup Ch_cons_r)
  else ret tt.

Lemma publish_ok c s1 :
  0 <= c < 256 -> live s1 -> wakeable (co_sys s1) -> u32 (cons_e s1 - cons_r s1) < INPUT_BUF_SIZE ->
  let s2 := set_cons_e (u32 (cons_e s1 + 1)) (set_cons_buf (<[cons_slot (cons_e s1) := byte.of_Z c]> (cons_buf s1)) s1) in
  let x := Editor (ed_done (cons_editor s1)) (ed_line (cons_editor s1) ++ [byte.of_Z c]) in
  exists s', cons_publish c s2 = Ok tt s' /\
    handled [] (if (c =? NL) || (c =? CTRL_D) || ed_full x then Editor (ed_done x ++ ed_line x) [] else x) s1 s'.
Proof.
  intros Hc [H Ht Hs Hp] Hw Hroom s2 x. destruct (cons_append s1 (byte.of_Z c) H Hroom) as (R & Hsp & He & Hall).
  fold s2 in R, Hsp, He, Hall. fold x in He.
  assert (Hfull : (u32 (cons_e s2 - cons_r s2) =? INPUT_BUF_SIZE) = ed_full x).
  { apply full_after; [done| |by rewrite He]. by rewrite He. }
  unfold cons_publish, bind at 1, get. cbn [obind]. rewrite Hfull.
  destruct ((c =? NL) || (c =? CTRL_D) || ed_full x) eqn:Ecm.
  - destruct (line_commit_ok s2 (ed_done x) (ed_line x) R Hall) as [Hok3 He3]. rewrite bind_modify.
    destruct (wakeup_woken Ch_cons_r (co_sys s1) Hw) as (y & Ey & Wy). set (s3 := set_cons_w (cons_e s2) s2) in *.
    exists (lset co_sysL y s3). split; [exact (zoom_Ok co_sysL _ s3 _ _ Ey)|].
    split; [by destruct Hok3|exact He3|exact Wy|by rewrite app_nil_r|by destruct Ht|done].
  - exists s2. split; [done|]. split; [|exact He|done|by rewrite app_nil_r|done|done].
    apply orb_false_iff in Ecm as [[En _]%orb_false_iff _]. split; [done|apply H|done|].
    rewrite He. unfold x. cbn [ed_line]. rewrite elem_of_app, list_elem_of_singleton. intros [Hin|Hin]; [by apply (cn_line _ H)|].
    symmetry in Hin. apply of_Z_newline in Hin; [|done]. subst c. done.
Qed.

Lemma line_store_ok c s :
  0 <= c < 256 -> live s -> wakeable (co_sys s) ->
  (c =? CTRL_P) = false -> (c =? CTRL_U) = false -> (c =? CTRL_H) || (c =? DEL) = false ->
  exists s', cons_store dev spins c s = Ok tt s' /\ handled (echo c (cons_editor s)) (edit c (cons_editor s)) s s'.
Proof.
  intros Hc Hl Hw E1 E2 E3. unfold edit, echo. rewrite E1, E2, E3. clear E1 E2 E3.
  unfold cons_store, bind at 1, get. cbn [obind]. rewrite (ed_full_count s (lv_ok s Hl)), Z.leb_antisym.
  destruct (c =? 0) eqn:E0; [exists s; split; [done|apply handled_nil; apply Hl]|].
  destruct (Z.ltb_spec (u32 (cons_e s - cons_r s)) INPUT_BUF_SIZE) as [Hroom|]; cbn [negb andb orb]; [|exists s; split; [done|apply handled_nil; apply Hl]].
  set (c' := if c =? CR then NL else c). assert (Hc' : 0 <= c' < 256) by (unfold c', NL; destruct (c =? CR); lia).
  destruct (cons_putc_ok c' s (lv_set s Hl) (lv_alive s Hl)) as (t & E & Hm). krun E.
  assert (Hech : echo_char c' = [c']).
  { unfold echo_char. destruct (Z.eqb_spec c' BACKSPACE) as [->|]; [unfold BACKSPACE in *; lia|]. unfold u8. by rewrite Z.mod_small by lia. }
  rewrite Hech in Hm. pose proof (emitted_handled [c'] t s (lv_ok s Hl) (lv_tty s Hl) Hm) as H1.
  set (s1 := set_co_tty t s) in *. unfold bind at 1, get. cbn [obind]. rewrite !bind_modify.
  assert (Hw1 : wakeable (co_sys s1)) by (unfold s1; destruct Hm as (h & -> & _); exact Hw).
  destruct (publish_ok c' s1 Hc' (live_handled _ _ _ _ Hl H1) Hw1 Hroom) as (s' & E' & H').
  exists s'. split; [exact E'|]. exact (handled_trans _ _ _ _ _ _ _ H1 H').
Qed.

(** *** procdump *)

Lemma dump_line_defined pid (a b : list byte) :
  exists out, format (length (bytes_of "%d %s %s")) (bytes_of "%d %s %s") [Num pid; Str (Some a); Str (Some b)] = Some out.
Proof.
  assert (Hlen : (length (signed_numeral 10 (s32 pid) true) <=? 16)%nat = true).
  { apply Nat.leb_le, (Nat.le_trans _ 11); [|lia]. apply signed_numeral_short; [lia|]. pose proof (s32_range pid). lia. }
  eexists. cbn -[signed_numeral Nat.leb]. rewrite Hlen. reflexivity.
Qed.

(** Printing from a state that differs only in what was sent. *)
Lemma printf_emits fmt ap out0 t0 t out :
  settled (tt_sys t0) -> lock_idle (tt_sys t0) L_pr -> panicked t0 = false ->
  emitted out0 t0 t -> Byte.x00 ∉ fmt -> format (length fmt) fmt ap = Some out ->
  exists t', printf dev spins fmt ap t = Ok 0 t' /\ exists out', emitted out' t0 t'.
Proof.
  intros Hs Hl Hp Hm Hn Hf. destruct (printf_sends dev spins drains fmt ap out t Hn Hf) as (t' & E & He);
    [by destruct Hm as (h & -> & _)..|].
  exists t'. split; [done|]. eexists. by eapply emitted_app.
Qed.

Lemma procdump_ok t0 :
  settled (tt_sys t0) -> lock_idle (tt_sys t0) L_pr -> panicked t0 = false ->
  exists t' out, procdump dev spins t0 = Ok tt t' /\ emitted out t0 t'.
Proof.
  intros Hs Hl Hp. assert (Hnl : Byte.x00 ∉ [Byte.x0a]) by (by rewrite list_elem_of_singleton).
  destruct (printf_emits [Byte.x0a] [] [] t0 t0 [Byte.x0a] Hs Hl Hp (emitted_nil t0) Hnl eq_refl) as (t1 & E1 & H1).
  unfold procdump. krun E1.
  destruct (forM_inv (fun t => exists out, emitted out t0 t) (seq 0 NPROC) (procdump_one dev spins) t1) as (t' & E & out & Hm); [|done|by exists t', out].
  intros i t _ [out Hm]. unfold procdump_one. rewrite bind_gets. destruct (decide _); [by exists t; split; [|exists out]|].
  destruct (dump_line_defined (p_pid (proc_of (tt_sys t) i)) (bytes_of (state_name (p_state (proc_of (tt_sys t) i))))
    (until_nul (p_name (proc_of (tt_sys t) i)))) as [o Ho].
  assert (Hnz : Byte.x00 ∉ bytes_of "%d %s %s").
  { intros Hin%list_elem_of_In. simpl in Hin. by repeat destruct Hin as [Hin|Hin]. }
  destruct (printf_emits _ _ out t0 t o Hs Hl Hp Hm Hnz Ho) as (t2 & E2 & o2 & H2).
  krun E2. destruct (printf_emits [Byte.x0a] [] o2 t0 t2 [Byte.x0a] Hs Hl Hp H2 Hnl eq_refl) as (t3 & E3 & o3 & H3).
  krun E3. exists t3. split; [done|]. by exists o3.
Qed.

(** The handler inside its critical section. *)
Lemma branch_ok c s :
  0 <= c < 256 -> live s -> wakeable (co_sys s) -> lock_idle (co_sys s) L_pr ->
  exists out s', (if c =? CTRL_P then zoom co_ttyL (procdump dev spins)
     else if c =? CTRL_U then while 129 (kill_line_body dev spins) tt
     else if (c =? CTRL_H) || (c =? DEL) then
       let! s := get in
       if negb (cons_e s =? cons_w s) then modify (set_cons_e (u32 (cons_e s - 1))) ;; cons_putc dev spins BACKSPACE
       else ret tt
     else cons_store dev spins c) s = Ok tt s' /\
    handled out (edit c (cons_editor s)) s s' /\ (c <> CTRL_P -> out = echo c (cons_editor s)).
Proof.
  intros Hc Hl Hw Hpr. destruct (Z.eqb_spec c CTRL_P) as [->|Hp].
  { destruct (procdump_ok (co_tty s) (lv_set s Hl) Hpr (lv_alive s Hl)) as (t & out & E & Hm).
    exists out, (set_co_tty t s). split; [exact (zoom_Ok co_ttyL _ s _ _ E)|]. split; [|done].
    apply emitted_handled; [apply Hl..|done]. }
  exists (echo c (cons_editor s)). destruct (Z.eqb_spec c CTRL_U) as [->|Hu].
  { destruct (line_kill_ok 129 s Hl) as (s' & E & H).
    - simpl. rewrite contents_len. pose proof (cons_counts s (lv_ok s Hl)). pose proof (cn_split s (lv_ok s Hl)). unfold INPUT_BUF_SIZE in *. lia.
    - by exists s'. }
  destruct ((c =? CTRL_H) || (c =? DEL)) eqn:Eh.
  - unfold bind at 1, get. cbn [obind]. unfold edit, echo.
    destruct (Z.eqb_spec c CTRL_P); [done|]. destruct (Z.eqb_spec c CTRL_U); [done|]. rewrite Eh.
    destruct (Z.eqb_spec (cons_e s) (cons_w s)) as [He|Hne]; cbn [negb].
    + exists s. split; [done|]. apply (line_empty s (lv_ok s Hl)) in He. rewrite He. rewrite decide_True by done.
      split; [|done]. pose proof (handled_nil s (lv_ok s Hl) (lv_tty s Hl)) as Hn. simpl.
      change (cons_editor s) with (Editor (ed_done (cons_editor s)) (ed_line (cons_editor s))) in Hn. by rewrite He in Hn.
    + rewrite bind_modify. destruct (erase_ok s Hl Hne) as (s' & E & H). exists s'. split; [exact E|].
      rewrite decide_False; [done|]. by rewrite <- (line_empty s (lv_ok s Hl)).
  - destruct (line_store_ok c s Hc Hl Hw) as (s' & E & H); [by apply Z.eqb_neq..|done|]. by exists s'.
Qed.

(** C20: an input interrupt with character [c] does to the console what the line
    editor does: ^U drops the line being edited, backspace its last character, a
    newline, ^D or a full buffer hands the line to readers, and any other
    character is appended and echoed; the lines readers have not yet taken are
    never touched. *)
Theorem consoleintr_correct (c : Z) (s : console)
  (Hc : 0 <= c < 256) (Hok : cons_ok s) (Hr : intr_ready s) :
  exists s', consoleintr dev spins c s = Ok tt s' /\ cons_ok s' /\ intr_ready s' /\
    cons_editor s' = edit c (cons_editor s) /\ woken (co_sys s) (co_sys s') /\
    (c <> CTRL_P -> sent (co_tty s') = sent (co_tty s) ++ echo c (cons_editor s)).
Proof.
  destruct Hr as [Hw Hlc Hlp Hp Ht]. unfold consoleintr. krun (zoom_acquire co_sysL L_cons s Hlc).
  set (s1 := lset _ _ s). assert (Hw1 : wakeable (co_sys s1)) by by apply wakeable_locked.
  assert (Hl1 : live s1) by (split; [by destruct Hok|by destruct Ht|apply Hw1|done]).
  assert (Hp1 : lock_idle (co_sys s1) L_pr) by (unfold lock_idle; simpl; by rewrite lookup_insert_ne).
  destruct (branch_ok c s1 Hc Hl1 Hw1 Hp1) as (out & s2 & E2 & [B1 B2 B3 B4 B5 B6] & Hout). krun E2.
  destruct (woken_locked _ _ _ B3) as (y & Hy & Wy).
  assert (Hyl : forall l, lock_idle (co_sys s) l -> lock_idle y l) by (intros l H; unfold lock_idle; by rewrite (wo_locks _ _ Wy)).
  assert (Hr : zoom co_sysL (release L_cons) s2 = Ok tt (lset co_sysL y s2)).
  { apply zoom_release; [|by apply Hyl|exact Hy]. eapply woken_settled; [exact Wy|apply Hw]. }
  rewrite Hr. exists (lset co_sysL y s2). split; [done|]. split; [by destruct B1|]. split; [|split; [exact B2|split; [exact Wy|]]].
  - split; [exact (wakeable_woken _ _ Hw Wy)|by apply Hyl|by apply Hyl|exact (eq_trans B6 Hp)|by destruct B5].
  - intros Hne. rewrite (Hout Hne) in B4. exact B4.
Qed.

End Intr.

Definition console_boot : console := Console tty_boot 0 ∅ [] (replicate 128 Byte.x00) 0 0 0.

Lemma console_boot_ok : cons_ok console_boot.
Proof. by repeat split; try (intros H; inversion H). Qed.

Lemma console_boot_ready : intr_ready console_boot.
Proof.
  split; [exact (wakeable_calm 0 _ calm_sys_ok)|by apply (ca_idle 0 _ calm_sys_ok)|by apply (ca_idle 0 _ calm_sys_ok)|done|
    exact tty_boot_ok].
Qed.

Lemma consoleintr_correct_witness :
  exists s', consoleintr ready_dev 1 65 console_boot = Ok tt s' /\ cons_editor s' = Editor [] [Byte.x41].
Proof.
  destruct (consoleintr_correct ready_dev 1 ready_dev_drains 65 console_boot) as (s' & E & _ & _ & He & _).
  - lia.
  - exact console_boot_ok.
  - exact console_boot_ready.
  - exists s'. split; [exact E|]. by rewrite He.
Defined.
