(* ===== verification/Bio.v ===== *)
(** * [kernel/bio.c]: the buffer cache

    The buffers, their doubly linked LRU list and their sleep-locks.  The disk
    is reached through the driver's interface [DiskDriver]: [virtio_disk_rw]
    transfers one buffer, and [DiskDriverOk] says what a completed transfer
    leaves behind.  Every write reaches the disk's history in order, which is
    what a crash is later taken from. *)

From S2P Require Import Prelude Riscv Memory Sys Spinlock Proc Sleeplock.

(** [BSIZE] of [fs.h] *)
Definition BSIZE : Z := 1024.

Abbreviation block := (list byte).

Definition zero_block : block := replicate (Z.to_nat BSIZE) Byte.x00.

(** [struct buf]; [b_prev] and [b_next] are positions in [bcache], where the
    list head comes after the buffers. *)
Record buf := Buf {
  b_valid : bool;
  b_disk : bool;
  b_dev : Z;
  b_blockno : Z;
  b_refcnt : Z;
  b_prev : nat;
  b_next : nat;
  b_data : block
}.

Definition buf_zero : buf := Buf false false 0 0 0 0 0 zero_block.

#[export] Instance buf_inhabited : Inhabited buf := populate buf_zero.

(** [&bcache.head] *)
Definition head : nat := NBUF.

Definition set_b_valid (x : bool) (b : buf) : buf :=
  Buf x (b_disk b) (b_dev b) (b_blockno b) (b_refcnt b) (b_prev b) (b_next b) (b_data b).

Definition set_b_dev (x : Z) (b : buf) : buf :=
  Buf (b_valid b) (b_disk b) x (b_blockno b) (b_refcnt b) (b_prev b) (b_next b) (b_data b).

Definition set_b_blockno (x : Z) (b : buf) : buf :=
  Buf (b_valid b) (b_disk b) (b_dev b) x (b_refcnt b) (b_prev b) (b_next b) (b_data b).

Definition set_b_refcnt (x : Z) (b : buf) : buf :=
  Buf (b_valid b) (b_disk b) (b_dev b) (b_blockno b) x (b_prev b) (b_next b) (b_data b).

Definition set_b_prev (x : nat) (b : buf) : buf :=
  Buf (b_valid b) (b_disk b) (b_dev b) (b_blockno b) (b_refcnt b) x (b_next b) (b_data b).

Definition set_b_next (x : nat) (b : buf) : buf :=
  Buf (b_valid b) (b_disk b) (b_dev b) (b_blockno b) (b_refcnt b) (b_prev b) x (b_data b).

Definition set_b_data (x : block) (b : buf) : buf :=
  Buf (b_valid b) (b_disk b) (b_dev b) (b_blockno b) (b_refcnt b) (b_prev b) (b_next b) x.

Definition set_b_disk (x : bool) (b : buf) : buf :=
  Buf (b_valid b) x (b_dev b) (b_blockno b) (b_refcnt b) (b_prev b) (b_next b) (b_data b).

(** ** The disk *)

(** The blocks at some time and the writes since then, oldest first. *)
Record disk := Disk {
  dk_start : gmap Z block;
  dk_writes : list (Z * block)
}.

Definition apply_writes (ws : list (Z * block)) (m : gmap Z block) : gmap Z block :=
  foldl (fun m w => <[w.1 := w.2]> m) m ws.

Definition dk_blocks (d : disk) : gmap Z block := apply_writes (dk_writes d) (dk_start d).

(** The contents of block [b]; a block never written is zero. *)
Definition blk (m : gmap Z block) (b : Z) : block := default zero_block (m !! b).

Definition dk_get (d : disk) (b : Z) : block := blk (dk_blocks d) b.

Definition dk_put (b : Z) (x : block) (d : disk) : disk := Disk (dk_start d) (dk_writes d ++ [(b, x)]).

(** ** The state *)

Record bio (D : Type) := Bio {
  bi_slk : slk;
  bi_bufs : list buf;
  bi_dev : D
}.

Arguments Bio {D} bi_slk bi_bufs bi_dev.
Arguments bi_slk {D} b.
Arguments bi_bufs {D} b.
Arguments bi_dev {D} b.

(** What the file system needs of a disk driver. *)
Class DiskDriver (D : Type) := {
  virtio_disk_rw : nat -> bool -> M (bio D) unit;
  dev_disk : D -> disk
}.

Section Bio.
Context {D : Type} `{!DiskDriver D} (rounds : nat).

Definition set_bi_slk (x : slk) (s : bio D) : bio D := Bio x (bi_bufs s) (bi_dev s).

Definition set_bi_bufs (x : list buf) (s : bio D) : bio D := Bio (bi_slk s) x (bi_dev s).

Definition bi_slkL : lens (bio D) slk := Lens bi_slk set_bi_slk.

Definition bi_sys (s : bio D) : sys := sk_sys (bi_slk s).

Definition bi_sysL : lens (bio D) sys :=
  Lens bi_sys (fun x s => set_bi_slk (set_sk_sys x (bi_slk s)) s).

#[export] Instance bi_slkL_laws : LensLaws bi_slkL.
Proof. by split; intros; try destruct s. Qed.

#[export] Instance bi_sysL_laws : LensLaws bi_sysL.
Proof. by split; intros; try destruct s as [[] ? ?]. Qed.

Definition buf_of (s : bio D) (i : nat) : buf := bi_bufs s !!! i.

Definition get_buf (i : nat) : M (bio D) buf := gets (fun s => buf_of s i).

Definition upd_buf (i : nat) (f : buf -> buf) : M (bio D) unit :=
  modify (fun s => set_bi_bufs (alter f i (bi_bufs s)) s).

(** The loop of [binit] for buffer [b]. *)
Definition binit_buf (b : nat) : M (bio D) unit :=
  let! h := get_buf head in
  upd_buf b (set_b_next (b_next h)) ;;
  upd_buf b (set_b_prev head) ;;
  zoom bi_slkL (initsleeplock (SBuf b) "buffer") ;;
  let! h := get_buf head in
  upd_buf (b_next h) (set_b_prev b) ;;
  upd_buf head (set_b_next b).

Definition binit : M (bio D) unit :=
  zoom bi_sysL (initlock L_bcache "bcache") ;;
  upd_buf head (set_b_prev head) ;;
  upd_buf head (set_b_next head) ;;
  forM (seq 0 NBUF) binit_buf.

(** [for(b = bcache.head.next; b != &bcache.head; b = b->next)], up to the first
    buffer that satisfies the test; [step] is [b_next] or [b_prev]. *)
Definition scan_bufs (step : buf -> nat) (test : buf -> bool) : M (bio D) (option nat) :=
  let! h := get_buf head in
  while (S NBUF) (fun b =>
    if decide (b = head) then ret (inr None) else
    let! x := get_buf b in
    if test x then ret (inr (Some b)) else ret (inl (step x))) (step h).

Definition bget (dev blockno : Z) : M (bio D) nat :=
  zoom bi_sysL (acquire L_bcache) ;;
  (* Is the block already cached? *)
  let! r := scan_bufs b_next (fun b => (b_dev b =? dev) && (b_blockno b =? blockno)) in
  match r with
  | Some b =>
      upd_buf b (fun x => set_b_refcnt (u32 (b_refcnt x + 1)) x) ;;
      zoom bi_sysL (release L_bcache) ;;
      zoom bi_slkL (acquiresleep rounds (SBuf b)) ;;
      ret b
  | None =>
      (* Not cached. Recycle the least recently used (LRU) unused buffer. *)
      let! r := scan_bufs b_prev (fun b => b_refcnt b =? 0) in
      match r with
      | Some b =>
          upd_buf b (set_b_dev dev) ;;
          upd_buf b (set_b_blockno blockno) ;;
          upd_buf b (set_b_valid false) ;;
          upd_buf b (set_b_refcnt 1) ;;
          zoom bi_sysL (release L_bcache) ;;
          zoom bi_slkL (acquiresleep rounds (SBuf b)) ;;
          ret b
      | None => panic "bget: no buffers"
      end
  end.

Definition bread (dev blockno : Z) : M (bio D) nat :=
  let! b := bget dev blockno in
  let! x := get_buf b in
  (if negb (b_valid x) then
     virtio_disk_rw b false ;;
     upd_buf b (set_b_valid true)
   else ret tt) ;;
  ret b.

Definition bwrite (b : nat) : M (bio D) unit :=
  let! h := zoom bi_slkL (holdingsleep (SBuf b)) in
  if negb h then panic "bwrite" else
  virtio_disk_rw b true.

Definition brelse (b : nat) : M (bio D) unit :=
  let! h := zoom bi_slkL (holdingsleep (SBuf b)) in
  if negb h then panic "brelse" else
  zoom bi_slkL (releasesleep (SBuf b)) ;;
  zoom bi_sysL (acquire L_bcache) ;;
  upd_buf b (fun x => set_b_refcnt (u32 (b_refcnt x - 1)) x) ;;
  let! x := get_buf b in
  (if b_refcnt x =? 0 then
     (* no one is waiting for it. *)
     let! x := get_buf b in
     upd_buf (b_next x) (set_b_prev (b_prev x)) ;;
     let! x := get_buf b in
     upd_buf (b_prev x) (set_b_next (b_next x)) ;;
     let! h := get_buf head in
     upd_buf b (set_b_next (b_next h)) ;;
     upd_buf b (set_b_prev head) ;;
     let! h := get_buf head in
     upd_buf (b_next h) (set_b_prev b) ;;
     upd_buf head (set_b_next b)
   else ret tt) ;;
  zoom bi_sysL (release L_bcache).

Definition bpin (b : nat) : M (bio D) unit :=
  zoom bi_sysL (acquire L_bcache) ;;
  upd_buf b (fun x => set_b_refcnt (u32 (b_refcnt x + 1)) x) ;;
  zoom bi_sysL (release L_bcache).

Definition bunpin (b : nat) : M (bio D) unit :=
  zoom bi_sysL (acquire L_bcache) ;;
  upd_buf b (fun x => set_b_refcnt (u32 (b_refcnt x - 1)) x) ;;
  zoom bi_sysL (release L_bcache).

End Bio.

(** ** The LRU list *)

(** Membership in a list built with [::] and [++]. *)
Ltac mem :=
  rewrite ?elem_of_app, ?list_elem_of_singleton, ?elem_of_cons, ?elem_of_app,
    ?list_elem_of_singleton, ?elem_of_cons; tauto.

Section Lru.
Implicit Types bs : list buf.

(** The buffers [l] lie between [a] and [z] in the list, linked both ways. *)
Fixpoint seg bs (a : nat) (l : list nat) (z : nat) : Prop :=
  match l with
  | [] => b_next (bs !!! a) = z /\ b_prev (bs !!! z) = a
  | x :: l => b_next (bs !!! a) = x /\ b_prev (bs !!! x) = a /\ seg bs x l z
  end.

(** [l] is the list, most recently used first. *)
Definition dll bs (l : list nat) : Prop := seg bs head l head.

Lemma seg_app bs a l1 x l2 z : seg bs a (l1 ++ x :: l2) z <-> seg bs a l1 x /\ seg bs x l2 z.
Proof.
  revert a. induction l1 as [|y l1 IH]; intros a; simpl; [tauto|]. rewrite IH. tauto.
Qed.

(** A segment only depends on its own links. *)
Lemma seg_ext bs bs' a l z :
  (forall i, i ∈ a :: l -> b_next (bs' !!! i) = b_next (bs !!! i)) ->
  (forall i, i ∈ l ++ [z] -> b_prev (bs' !!! i) = b_prev (bs !!! i)) ->
  seg bs a l z -> seg bs' a l z.
Proof.
  revert a. induction l as [|x l IH]; intros a Hn Hp H; simpl in *.
  - rewrite Hn, Hp by set_solver. done.
  - rewrite Hn, Hp by set_solver. destruct H as (? & ? & H). split; [done|]. split; [done|].
    apply IH; [set_solver..|done].
Qed.

Fixpoint path (step : buf -> nat) bs (a : nat) (l : list nat) (z : nat) : Prop :=
  match l with
  | [] => step (bs !!! a) = z
  | x :: l => step (bs !!! a) = x /\ path step bs x l z
  end.

Lemma path_snoc step bs a l x z :
  path step bs a (l ++ [x]) z <-> path step bs a l x /\ step (bs !!! x) = z.
Proof. revert a. induction l as [|y l IH]; intros a; simpl; [tauto|]. rewrite IH. tauto. Qed.

Lemma seg_forward bs a l z : seg bs a l z -> path b_next bs a l z.
Proof. revert a. induction l as [|x l IH]; intros a; simpl; [tauto|]. intros (? & ? & ?). auto. Qed.

Lemma seg_backward bs a l z : seg bs a l z -> path b_prev bs z (reverse l) a.
Proof.
  revert a. induction l as [|x l IH]; intros a; simpl; [tauto|]. intros (? & ? & H).
  rewrite reverse_cons, path_snoc. auto.
Qed.

Lemma lookup_alter_total bs (f : buf -> buf) i j :
  (i < length bs)%nat -> alter f i bs !!! j = if decide (i = j) then f (bs !!! j) else bs !!! j.
Proof.
  intros Hi. rewrite !list_lookup_total_alt. case_decide as E.
  - subst. rewrite list_lookup_alter_eq. destruct (lookup_lt_is_Some_2 _ _ Hi) as [x ->]. done.
  - by rewrite list_lookup_alter_ne.
Qed.

(** Taking out the first of a segment. *)
Definition unlinked bs (x : nat) : list buf :=
  let bs1 := alter (set_b_prev (b_prev (bs !!! x))) (b_next (bs !!! x)) bs in
  alter (set_b_next (b_next (bs1 !!! x))) (b_prev (bs1 !!! x)) bs1.

(** The links of [unlinked bs x], for an [x] between [p] and [n]. *)
Lemma unlinked_links bs p x n :
  b_prev (bs !!! x) = p -> b_next (bs !!! x) = n -> p <> x -> n <> x ->
  (p < length bs)%nat -> (n < length bs)%nat ->
  forall i, b_next (unlinked bs x !!! i) = (if decide (i = p) then n else b_next (bs !!! i)) /\
            b_prev (unlinked bs x !!! i) = (if decide (i = n) then p else b_prev (bs !!! i)).
Proof.
  intros Hp Hn Hpx Hnx Hpl Hnl i. unfold unlinked. rewrite Hp, Hn.
  set (bs1 := alter (set_b_prev p) n bs).
  assert (Hl1 : length bs1 = length bs) by apply length_alter.
  assert (H1 : forall j, bs1 !!! j = if decide (n = j) then set_b_prev p (bs !!! j) else bs !!! j)
    by (intros; by apply lookup_alter_total).
  rewrite (H1 x), decide_False, Hp, Hn by done. rewrite lookup_alter_total by lia. rewrite !H1.
  repeat case_decide; simpl; subst; try done.
Qed.

Lemma seg_remove_first bs p x l z :
  seg bs p (x :: l) z -> NoDup (p :: x :: l) -> z ∉ x :: l ->
  (p < length bs)%nat -> (z < length bs)%nat -> (forall i, i ∈ l -> (i < length bs)%nat) ->
  seg (unlinked bs x) p l z.
Proof.
  intros (H1 & H2 & H3) Hnd Hz Hpl Hzl Hl.
  apply NoDup_cons in Hnd as [Hp Hnd]. apply NoDup_cons in Hnd as [Hx Hnd].
  destruct l as [|y l]; simpl in H3.
  - destruct H3 as [H3 H4]. assert (Hu := unlinked_links bs p x z H2 H3 ltac:(set_solver) ltac:(set_solver) Hpl Hzl).
    split; [destruct (Hu p) as [-> _]|destruct (Hu z) as [_ ->]]; by rewrite decide_True.
  - destruct H3 as (H3 & H4 & H5).
    assert (Hu := unlinked_links bs p x y H2 H3 ltac:(set_solver) ltac:(set_solver) Hpl ltac:(apply Hl; set_solver)).
    simpl. split; [destruct (Hu p) as [-> _]; by rewrite decide_True|].
    split; [destruct (Hu y) as [_ ->]; by rewrite decide_True|].
    apply NoDup_cons in Hnd as [Hy Hnd].
    eapply seg_ext; [| |exact H5]; intros i Hi.
    + destruct (Hu i) as [-> _]. rewrite decide_False; [done|]. set_solver.
    + destruct (Hu i) as [_ ->]. rewrite decide_False; [done|]. set_solver.
Qed.

(** [b->next->prev = b->prev; b->prev->next = b->next;] takes [x] out. *)
Lemma seg_remove bs a l1 x l2 z :
  seg bs a (l1 ++ x :: l2) z -> NoDup (a :: l1 ++ x :: l2) -> z ∉ l1 ++ x :: l2 ->
  (forall i, i ∈ a :: l1 ++ x :: l2 -> (i < length bs)%nat) -> (z < length bs)%nat ->
  seg (unlinked bs x) a (l1 ++ l2) z.
Proof.
  destruct l1 as [|p l1 _] using rev_ind; intros Hs Hnd Hz Hlen Hzl; simpl in *.
  { apply seg_remove_first; try done; [apply Hlen; set_solver|]. intros. apply Hlen. set_solver. }
  rewrite <- !app_assoc in *. simpl in *. rewrite seg_app in *. destruct Hs as [H1 H2].
  assert (Hnd' : NoDup (p :: x :: l2)).
  { apply NoDup_cons in Hnd as [_ Hnd]. by apply NoDup_app in Hnd as (_ & _ & Hnd). }
  split; [|apply seg_remove_first; try done; [set_solver|apply Hlen; set_solver|]].
  2: { intros. apply Hlen. set_solver. }
  destruct H2 as (H2 & H3 & H4).
  apply NoDup_cons in Hnd as [Ha Hnd]. apply NoDup_app in Hnd as (_ & Hdis & _).
  apply NoDup_cons in Hnd' as [Hp Hnd']. apply NoDup_cons in Hnd' as [Hx _].
  assert (Hpx : p <> x) by (intros ->; apply Hp; mem).
  assert (Hn : exists n, b_next (bs !!! x) = n /\ n <> x /\ (n ∉ l1 ++ [p]) /\ (n < length bs)%nat).
  { destruct l2 as [|y l2]; simpl in H4.
    - exists z. split; [tauto|]. split; [intros ->; apply Hz; mem|]. split; [|done].
      intros Hi. apply Hz. revert Hi. mem.
    - exists y. split; [tauto|]. split; [intros ->; apply Hx; mem|]. split; [|apply Hlen; mem].
      intros [Hy| ->%list_elem_of_singleton]%elem_of_app; [apply (Hdis y Hy); mem|apply Hp; mem]. }
  destruct Hn as (n & En & Hnx & Hnl & Hnlen).
  assert (Hu := unlinked_links bs p x n H3 En Hpx Hnx ltac:(apply Hlen; mem) Hnlen).
  eapply seg_ext; [| |exact H1]; intros i Hi.
  - destruct (Hu i) as [-> _]. rewrite decide_False; [done|]. intros ->.
    apply elem_of_cons in Hi as [->|Hi]; [apply Ha; mem|]. apply (Hdis p Hi). mem.
  - destruct (Hu i) as [_ ->]. rewrite decide_False; [done|]. by intros ->.
Qed.

(** [b->next = head.next; b->prev = &head; head.next->prev = b; head.next = b;]
    puts [x] in front. *)
Definition linked bs (x : nat) : list buf :=
  let bs1 := alter (set_b_next (b_next (bs !!! head))) x bs in
  let bs2 := alter (set_b_prev head) x bs1 in
  let bs3 := alter (set_b_prev x) (b_next (bs2 !!! head)) bs2 in
  alter (set_b_next x) head bs3.

Lemma linked_links bs x n :
  b_next (bs !!! head) = n -> x <> head -> n <> x ->
  (x < length bs)%nat -> (n < length bs)%nat -> (head < length bs)%nat ->
  forall i, b_next (linked bs x !!! i) =
              (if decide (i = head) then x else if decide (i = x) then n else b_next (bs !!! i)) /\
            b_prev (linked bs x !!! i) =
              (if decide (i = n) then x else if decide (i = x) then head else b_prev (bs !!! i)).
Proof.
  intros Hn Hxh Hnx Hx Hnl Hh i. unfold linked. rewrite Hn.
  set (bs1 := alter (set_b_next n) x bs). set (bs2 := alter (set_b_prev head) x bs1).
  assert (Hl1 : length bs1 = length bs) by apply length_alter.
  assert (Hl2 : length bs2 = length bs) by (unfold bs2; by rewrite length_alter).
  assert (H1 : forall j, bs1 !!! j = if decide (x = j) then set_b_next n (bs !!! j) else bs !!! j)
    by (intros; by apply lookup_alter_total).
  assert (H2 : forall j, bs2 !!! j = if decide (x = j) then set_b_prev head (bs1 !!! j) else bs1 !!! j)
    by (intros; apply lookup_alter_total; lia).
  rewrite (H2 head), decide_False, H1, decide_False, Hn by done.
  rewrite lookup_alter_total by (rewrite length_alter; lia). rewrite lookup_alter_total by lia.
  rewrite !H2, !H1. repeat case_decide; simpl; subst; try done.
Qed.

Lemma seg_insert bs x l :
  dll bs l -> x ∉ head :: l -> NoDup l -> head ∉ l ->
  (forall i, i ∈ x :: head :: l -> (i < length bs)%nat) ->
  dll (linked bs x) (x :: l).
Proof.
  unfold dll. intros Hs Hx Hnd Hh Hlen.
  assert (Hxh : x <> head) by (intros ->; apply Hx; mem).
  assert (Hn : exists n, b_next (bs !!! head) = n /\ n <> x /\ (n < length bs)%nat).
  { destruct l as [|y l]; simpl in Hs.
    - exists head. split; [tauto|]. split; [done|apply Hlen; mem].
    - exists y. split; [tauto|]. split; [intros ->; apply Hx; mem|apply Hlen; mem]. }
  destruct Hn as (n & En & Hnx & Hnl).
  assert (Hu := linked_links bs x n En Hxh Hnx ltac:(apply Hlen; mem) Hnl ltac:(apply Hlen; mem)).
  cbn [seg]. destruct (Hu head) as [-> _], (Hu x) as [Ex1 Ex2].
  rewrite decide_True by done. split; [done|].
  rewrite Ex2, decide_False, decide_True by done. split; [done|].
  rewrite decide_False, decide_True in Ex1 by done.
  destruct l as [|y l]; simpl in Hs |- *.
  - destruct Hs as [Hs1 Hs2]. rewrite Ex1. split; [congruence|].
    destruct (Hu head) as [_ ->]. rewrite decide_True; [done|congruence].
  - destruct Hs as (Hs1 & Hs2 & Hs3). rewrite Ex1. split; [congruence|]. split.
    + destruct (Hu y) as [_ ->]. rewrite decide_True; [done|congruence].
    + apply NoDup_cons in Hnd as [Hy Hnd]. eapply seg_ext; [| |exact Hs3]; intros i Hi.
      * destruct (Hu i) as [-> _]. rewrite !decide_False; [done|..]; intros ->; [apply Hx|apply Hh]; revert Hi; mem.
      * destruct (Hu i) as [_ ->]. rewrite !decide_False; [done|..]; intros ->.
        -- apply Hx. revert Hi. mem.
        -- subst n. rewrite Hs1 in Hi. apply elem_of_app in Hi as [Hi| ->%list_elem_of_singleton]; [done|].
           apply Hh. mem.
Qed.

End Lru.
