(* ===== verification/Block.v ===== *)
(** * Fields of a disk block

    A block is a sequence of bytes; the file system lays C structures over it.
    Loads and stores of byte sequences and of little-endian 16-bit and 32-bit
    fields at an offset. *)

From S2P Require Import Prelude.

Section Block.
Implicit Types x : list byte.

Definition bytes_at x (off n : nat) : list byte := take n (drop off x).

Definition put_bytes (off : nat) (bs : list byte) x : list byte :=
  take off x ++ bs ++ drop (off + length bs) x.

Definition get16 x (off : nat) : Z := le_combine (bytes_at x off 2).

Definition get32 x (off : nat) : Z := le_combine (bytes_at x off 4).

Definition put16 (off : nat) (v : Z) x : list byte := put_bytes off (le_split 2 v) x.

Definition put32 (off : nat) (v : Z) x : list byte := put_bytes off (le_split 4 v) x.

Lemma length_put_bytes off bs x :
  (off + length bs <= length x)%nat -> length (put_bytes off bs x) = length x.
Proof. intros H. unfold put_bytes. rewrite !length_app, length_take, length_drop. lia. Qed.

Lemma put_bytes_lookup off bs x i :
  (off + length bs <= length x)%nat ->
  put_bytes off bs x !! i =
  if decide (off <= i < off + length bs)%nat then bs !! (i - off)%nat else x !! i.
Proof.
  intros H. unfold put_bytes. destruct (decide (i < off)%nat) as [H1|H1].
  - rewrite lookup_app_l by (rewrite length_take; lia). rewrite decide_False by lia.
    by rewrite lookup_take_lt.
  - rewrite lookup_app_r by (rewrite length_take; lia). rewrite length_take, Nat.min_l by lia.
    case_decide as H2; [by rewrite lookup_app_l by lia|].
    rewrite lookup_app_r by lia. rewrite lookup_drop. f_equal. lia.
Qed.

Lemma bytes_at_lookup x off n i :
  bytes_at x off n !! i = if decide (i < n)%nat then x !! (off + i)%nat else None.
Proof.
  unfold bytes_at. case_decide.
  - by rewrite lookup_take_lt, lookup_drop.
  - by rewrite lookup_take_ge by lia.
Qed.

Lemma bytes_at_put off bs x :
  (off + length bs <= length x)%nat -> bytes_at (put_bytes off bs x) off (length bs) = bs.
Proof.
  intros H. apply list_eq. intros i. rewrite bytes_at_lookup, put_bytes_lookup by done.
  case_decide as H1.
  - rewrite decide_True by lia. f_equal. lia.
  - by rewrite lookup_ge_None_2 by lia.
Qed.

Lemma bytes_at_put_apart off bs x off' n :
  (off + length bs <= length x)%nat -> (off + length bs <= off' \/ off' + n <= off)%nat ->
  bytes_at (put_bytes off bs x) off' n = bytes_at x off' n.
Proof.
  intros H H'. apply list_eq. intros i. rewrite !bytes_at_lookup. case_decide as H1; [|done].
  rewrite put_bytes_lookup, decide_False by lia. done.
Qed.

Lemma get32_range x off : 0 <= get32 x off < 2 ^ 32.
Proof.
  unfold get32. pose proof (le_combine_bound (bytes_at x off 4)) as H.
  assert (Hl : (length (bytes_at x off 4) <= 4)%nat) by (unfold bytes_at; rewrite length_take; lia).
  split; [lia|]. eapply Z.lt_le_trans; [apply H|]. apply Z.pow_le_mono_r; lia.
Qed.

Lemma get32_put32 off v x : (off + 4 <= length x)%nat -> get32 (put32 off v x) off = u32 v.
Proof.
  intros H. unfold get32, put32.
  pose proof (bytes_at_put off (le_split 4 v) x) as E. rewrite length_le_split in E. rewrite E by done.
  apply le_combine_split.
Qed.

Lemma get32_put32_apart off v x off' :
  (off + 4 <= length x)%nat -> (off + 4 <= off' \/ off' + 4 <= off)%nat ->
  get32 (put32 off v x) off' = get32 x off'.
Proof.
  intros H H'. unfold get32, put32. f_equal. apply bytes_at_put_apart; rewrite length_le_split; lia.
Qed.

Lemma length_put32 off v x : (off + 4 <= length x)%nat -> length (put32 off v x) = length x.
Proof. intros H. apply length_put_bytes. by rewrite length_le_split. Qed.

Lemma length_put16 off v x : (off + 2 <= length x)%nat -> length (put16 off v x) = length x.
Proof. intros H. apply length_put_bytes. by rewrite length_le_split. Qed.

Lemma get16_put16 off v x : (off + 2 <= length x)%nat -> get16 (put16 off v x) off = u16 v.
Proof.
  intros H. unfold get16, put16.
  pose proof (bytes_at_put off (le_split 2 v) x) as E. rewrite length_le_split in E. rewrite E by done.
  apply le_combine_split.
Qed.

End Block.

#[export] Hint Resolve get32_range : kernel.
