(* ===== verification/Bcache.v ===== *)
(** * The buffer cache as a map

    What the clients of [bio.c] rely on: for every block the data a [bread]
    would give, the number of references and whether the buffer is locked.
    [bread], [bwrite], [brelse], [bpin] and [bunpin] are shown to implement the
    corresponding updates, whatever buffer the cache recycles. *)

From S2P Require Import Prelude Riscv Memory Sys Spinlock Proc Sleeplock Bio.

(** What a driver promises: a transfer returns with the data moved and [b->disk]
    clear, and only wakes processes.  The driver computes a sector number,
    [blockno * 2], in 32 bits. *)
Class DiskDriverOk (D : Type) `{!DiskDriver D} := {
  dev_ready : D -> Prop;
  disk_read_ok : forall me i (s : bio D), calm me (bi_sys s) -> dev_ready (bi_dev s) -> (i < NBUF)%nat ->
    length (bi_bufs s) = S NBUF -> 0 <= b_blockno (buf_of s i) < 2 ^ 31 ->
    exists y d, virtio_disk_rw i false s =
      Ok tt (Bio (set_sk_sys y (bi_slk s))
        (alter (fun x => set_b_disk false (set_b_data (dk_get (dev_disk (bi_dev s)) (b_blockno (buf_of s i))) x))
           i (bi_bufs s)) d) /\
      woken (bi_sys s) y /\ dev_ready d /\ dev_disk d = dev_disk (bi_dev s);
  disk_write_ok : forall me i (s : bio D), calm me (bi_sys s) -> dev_ready (bi_dev s) -> (i < NBUF)%nat ->
    length (bi_bufs s) = S NBUF -> 0 <= b_blockno (buf_of s i) < 2 ^ 31 ->
    exists y d, virtio_disk_rw i true s =
      Ok tt (Bio (set_sk_sys y (bi_slk s)) (alter (set_b_disk false) i (bi_bufs s)) d) /\
      woken (bi_sys s) y /\ dev_ready d /\
      dev_disk d = dk_put (b_blockno (buf_of s i)) (b_data (buf_of s i)) (dev_disk (bi_dev s))
}.

(** ** A loop over the list *)

Lemma scan_bufs_ok {D} (step : buf -> nat) (test : buf -> bool) (s : bio D) l :
  path step (bi_bufs s) head l head -> head ∉ l -> (length l <= NBUF)%nat ->
  scan_bufs step test s = Ok (List.find (fun i => test (buf_of s i)) l) s.
Proof.
  intros Hp Hh Hlen. unfold scan_bufs, get_buf. rewrite bind_gets.
  enough (H : forall l a n, path step (bi_bufs s) a l head -> head ∉ l -> (length l <= n)%nat ->
    while (S n) (fun b => if decide (b = head) then ret (inr None) else
      let! x := gets (fun s => buf_of s b) in
      if test x then ret (inr (Some b)) else ret (inl (step x))) (step (buf_of s a)) s =
    Ok (List.find (fun i => test (buf_of s i)) l) s) by (by apply H).
  clear. induction l as [|x l IH]; intros a n Hp Hh Hlen; simpl in Hp;
    fold (buf_of s a) in Hp.
  - rewrite Hp. cbn [while]. by rewrite decide_True.
  - destruct Hp as [Ha Hp]. rewrite Ha. destruct n as [|n]; [simpl in Hlen; lia|].
    cbn [while]. rewrite decide_False by (intros ->; apply Hh; mem). cbn [List.find].
    destruct (test (buf_of s x)) eqn:E.
    + rewrite (bind_Ok _ _ _ (inr (Some x)) s); [done|]. rewrite bind_gets. by rewrite E.
    + rewrite (bind_Ok _ _ _ (inl (step (buf_of s x))) s).
      * apply IH; [done|intros H; apply Hh; mem|simpl in Hlen; lia].
      * rewrite bind_gets. by rewrite E.
Qed.

Section Bcache.
Context {D : Type} `{!DiskDriver D, !DiskDriverOk D} (rounds me : nat) (dev : Z).
Implicit Types s : bio D.

(** Buffer [i] is for block [b]. *)
Definition is_for s (i : nat) (b : Z) : Prop :=
  (i < NBUF)%nat /\ b_dev (buf_of s i) = dev /\ b_blockno (buf_of s i) = b.

Definition lock_of_buf s (i : nat) : sleeplock := slk_of (bi_slk s) (SBuf i).

Definition the_disk s : disk := dev_disk (bi_dev s).

Definition my_pid_of s : Z := p_pid (proc_of (bi_sys s) me).

(** Everything a client sees of a buffer. *)
Record slot := Slot { so_refs : Z; so_lock : bool; so_data : option block }.

Definition slot_of s (i : nat) : slot :=
  Slot (b_refcnt (buf_of s i)) (sl_locked (lock_of_buf s i))
    (if b_valid (buf_of s i) then Some (b_data (buf_of s i)) else None).

Definition bfind s (b : Z) : option nat :=
  List.find (fun i => (b_dev (buf_of s i) =? dev) && (b_blockno (buf_of s i) =? b)) (seq 0 NBUF).

Definition bslot s (b : Z) : option slot := slot_of s <$> bfind s b.

Definition bview s (b : Z) : block :=
  match bslot s b with
  | Some (Slot _ _ (Some x)) => x
  | _ => dk_get (the_disk s) b
  end.

Definition brefs s (b : Z) : Z := from_option so_refs 0 (bslot s b).

Definition bheld s (b : Z) : bool := from_option so_lock false (bslot s b).

(** The number of buffers that can be recycled. *)
Definition nfree s : nat := length (filter (fun i => b_refcnt (buf_of s i) = 0) (seq 0 NBUF)).

Record bio_ok (l : list nat) s : Prop := {
  bo_calm : calm me (bi_sys s);
  bo_dev : dev_ready (bi_dev s);
  bo_disk : forall b, length (dk_get (the_disk s) b) = Z.to_nat BSIZE;
  bo_len : length (bi_bufs s) = S NBUF;
  bo_dll : dll (bi_bufs s) l;
  bo_perm : l ≡ₚ seq 0 NBUF;
  bo_uniq : forall i j b, is_for s i b -> is_for s j b -> i = j;
  bo_refs : forall i, (i < NBUF)%nat -> 0 <= b_refcnt (buf_of s i) < 2 ^ 32;
  bo_lock : forall i, (i < NBUF)%nat -> sl_locked (lock_of_buf s i) = true -> 0 < b_refcnt (buf_of s i);
  bo_data : forall i, (i < NBUF)%nat -> length (b_data (buf_of s i)) = Z.to_nat BSIZE;
  bo_valid : forall i b, is_for s i b -> b_valid (buf_of s i) = true;
  bo_block : forall i b, is_for s i b -> 0 <= b < 2 ^ 31;
  bo_clean : forall i b, is_for s i b -> b_refcnt (buf_of s i) = 0 ->
    b_data (buf_of s i) = dk_get (the_disk s) b
}.

Lemma find_some_iff {A} (f : A -> bool) l x :
  (forall y, y ∈ l -> f y = true -> y = x) -> x ∈ l -> f x = true -> List.find f l = Some x.
Proof.
  intros Hu Hx Hf. destruct (List.find f l) as [y|] eqn:E.
  - apply List.find_some in E as [H1 H2]. f_equal. apply Hu; [by apply list_elem_of_In|done].
  - eapply List.find_none in E; [|by apply list_elem_of_In]. congruence.
Qed.

Definition matches (b : Z) (x : buf) : bool := (b_dev x =? dev) && (b_blockno x =? b).

Lemma matches_spec s i b : (i < NBUF)%nat -> matches b (buf_of s i) = true <-> is_for s i b.
Proof.
  intros Hi. unfold matches, is_for. rewrite andb_true_iff, !Z.eqb_eq. tauto.
Qed.

Lemma bfind_some s b i :
  (forall i j b, is_for s i b -> is_for s j b -> i = j) -> is_for s i b -> bfind s b = Some i.
Proof.
  intros Hu Hi. apply (find_some_iff (fun i => matches b (buf_of s i))).
  - intros j Hj%elem_of_seq Hm. apply matches_spec in Hm; [|lia]. by eapply Hu.
  - apply elem_of_seq. destruct Hi. lia.
  - apply matches_spec; [apply Hi|done].
Qed.

Lemma bfind_inv s b i : bfind s b = Some i -> is_for s i b.
Proof.
  intros H. apply List.find_some in H as [H1 H2]. apply list_elem_of_In, elem_of_seq in H1.
  apply matches_spec; [lia|done].
Qed.

Lemma bfind_none s b : (forall i, ~ is_for s i b) -> bfind s b = None.
Proof. intros H. destruct (bfind s b) eqn:E; [|done]. by apply bfind_inv, H in E. Qed.

(** The search in the order of the list finds the same buffer. *)
Lemma find_in_lru l s b :
  bio_ok l s -> List.find (fun i => matches b (buf_of s i)) l = bfind s b.
Proof.
  intros Hok. destruct (bfind s b) as [i|] eqn:E.
  - apply bfind_inv in E as Hi. apply find_some_iff.
    + intros j Hj Hm. rewrite (bo_perm _ _ Hok), elem_of_seq in Hj. apply matches_spec in Hm; [|lia].
      by eapply (bo_uniq _ _ Hok).
    + rewrite (bo_perm _ _ Hok), elem_of_seq. destruct Hi. lia.
    + apply matches_spec; [apply Hi|done].
  - destruct (List.find _ l) as [i|] eqn:E'; [|done]. apply List.find_some in E' as [H1 H2].
    apply list_elem_of_In in H1. rewrite (bo_perm _ _ Hok), elem_of_seq in H1.
    apply matches_spec in H2; [|lia]. apply (bfind_some _ _ _ (bo_uniq _ _ Hok)) in H2. congruence.
Qed.

Lemma lru_lt l s i : bio_ok l s -> i ∈ l -> (i < NBUF)%nat.
Proof. intros Hok Hi. rewrite (bo_perm _ _ Hok), elem_of_seq in Hi. lia. Qed.

Lemma lru_facts l s :
  bio_ok l s -> NoDup l /\ (head ∉ l) /\ length l = NBUF /\ forall i, i ∈ head :: l -> (i < length (bi_bufs s))%nat.
Proof.
  intros Hok. pose proof (bo_perm _ _ Hok) as Hp. split; [rewrite Hp; apply NoDup_seq|].
  split; [intros H%(lru_lt _ _ _ Hok); unfold head in H; lia|].
  split; [by rewrite Hp, length_seq|]. rewrite (bo_len _ _ Hok).
  intros i [->|H%(lru_lt _ _ _ Hok)]%elem_of_cons; unfold head; lia.
Qed.

(** The two loops of [bget], run with the cache's lock held. *)
Lemma scan_cached l s s1 b :
  bio_ok l s -> bi_bufs s1 = bi_bufs s -> scan_bufs b_next (matches b) s1 = Ok (bfind s b) s1.
Proof.
  intros Hok E. rewrite <- (find_in_lru l) by done. destruct (lru_facts _ _ Hok) as (_ & Hh & Hlen & _).
  rewrite (scan_bufs_ok _ _ s1 l); [|rewrite E; apply seg_forward, (bo_dll _ _ Hok)|done|lia].
  unfold buf_of. by rewrite E.
Qed.

Lemma scan_free l s s1 :
  bio_ok l s -> bi_bufs s1 = bi_bufs s ->
  scan_bufs b_prev (fun x => b_refcnt x =? 0) s1 =
  Ok (List.find (fun i => b_refcnt (buf_of s i) =? 0) (reverse l)) s1.
Proof.
  intros Hok E. destruct (lru_facts _ _ Hok) as (_ & Hh & Hlen & _).
  rewrite (scan_bufs_ok _ _ s1 (reverse l)); [unfold buf_of; by rewrite E|..].
  - rewrite E. apply seg_backward, (bo_dll _ _ Hok).
  - by rewrite elem_of_reverse.
  - rewrite length_reverse. lia.
Qed.

(** ** Changing one buffer *)

(** The fields of a buffer apart from its links. *)
Definition core (x : buf) : bool * Z * Z * Z * block :=
  (b_valid x, b_dev x, b_blockno x, b_refcnt x, b_data x).

Definition others (i : nat) s s' : Prop :=
  forall j, (j < NBUF)%nat -> j <> i ->
    core (buf_of s' j) = core (buf_of s j) /\ lock_of_buf s' j = lock_of_buf s j.

Lemma core_fields x y :
  core x = core y -> b_valid x = b_valid y /\ b_dev x = b_dev y /\ b_blockno x = b_blockno y /\
    b_refcnt x = b_refcnt y /\ b_data x = b_data y.
Proof. unfold core. intros [= -> -> -> -> ->]. done. Qed.

Lemma others_fields i s s' j :
  others i s s' -> (j < NBUF)%nat -> j <> i ->
  slot_of s' j = slot_of s j /\ (forall b, is_for s' j b <-> is_for s j b) /\
  b_valid (buf_of s' j) = b_valid (buf_of s j) /\ b_refcnt (buf_of s' j) = b_refcnt (buf_of s j) /\
  b_data (buf_of s' j) = b_data (buf_of s j) /\ lock_of_buf s' j = lock_of_buf s j.
Proof.
  intros Ho Hj Hne. destruct (Ho j Hj Hne) as [(E1 & E2 & E3 & E4 & E5)%core_fields Hl].
  unfold slot_of, is_for. rewrite Hl, E1, E2, E3, E4, E5. done.
Qed.

(** What the slots are after buffer [i] changed. *)
Lemma bslot_upd s s' i :
  (forall i j b, is_for s i b -> is_for s j b -> i = j) ->
  (forall i j b, is_for s' i b -> is_for s' j b -> i = j) ->
  (i < NBUF)%nat -> others i s s' ->
  forall b, bslot s' b =
    (if matches b (buf_of s' i) then Some (slot_of s' i)
     else if matches b (buf_of s i) then None else bslot s b).
Proof.
  intros Hu Hu' Hi Ho b. unfold bslot.
  destruct (matches b (buf_of s' i)) eqn:E1.
  { apply matches_spec in E1; [|done]. by rewrite (bfind_some _ _ _ Hu' E1). }
  assert (Hni : ~ is_for s' i b) by (intros H%matches_spec; congruence).
  destruct (matches b (buf_of s i)) eqn:E2.
  - apply matches_spec in E2; [|done]. rewrite bfind_none; [done|]. intros j Hj.
    destruct (decide (j = i)) as [->|Hne]; [done|]. apply Hne.
    apply (others_fields _ _ _ _ Ho) in Hj; [|apply Hj|done]. by eapply Hu.
  - assert (Hni' : ~ is_for s i b) by (intros H%matches_spec; congruence).
    destruct (bfind s b) as [j|] eqn:E; simpl.
    + apply bfind_inv in E. assert (Hne : j <> i) by congruence.
      destruct (others_fields _ _ _ j Ho ltac:(apply E) Hne) as (Hs & Hf & _).
      apply Hf in E. rewrite (bfind_some _ _ _ Hu' E). simpl. by rewrite Hs.
    + rewrite bfind_none; [done|]. intros j Hj. assert (Hne : j <> i) by congruence.
      apply (others_fields _ _ _ _ Ho) in Hj; [|apply Hj|done].
      rewrite (bfind_some _ _ _ Hu Hj) in E. done.
Qed.

(** What buffer [i] must satisfy. *)
Record buf_ok (i : nat) s : Prop := {
  bk_refs : 0 <= b_refcnt (buf_of s i) < 2 ^ 32;
  bk_lock : sl_locked (lock_of_buf s i) = true -> 0 < b_refcnt (buf_of s i);
  bk_data : length (b_data (buf_of s i)) = Z.to_nat BSIZE;
  bk_valid : forall b, is_for s i b -> b_valid (buf_of s i) = true;
  bk_block : forall b, is_for s i b -> 0 <= b < 2 ^ 31;
  bk_clean : forall b, is_for s i b -> b_refcnt (buf_of s i) = 0 ->
    b_data (buf_of s i) = dk_get (the_disk s) b
}.

Lemma bio_ok_buf l s i : bio_ok l s -> (i < NBUF)%nat -> buf_ok i s.
Proof.
  intros Hok Hi. split; [by apply (bo_refs _ _ Hok)|by apply (bo_lock _ _ Hok)|
    by apply (bo_data _ _ Hok)|intros b; apply (bo_valid _ _ Hok)|intros b; apply (bo_block _ _ Hok)|
    intros b; apply (bo_clean _ _ Hok)].
Qed.

Lemma bio_ok_upd l l' s s' i :
  bio_ok l s -> (i < NBUF)%nat -> others i s s' -> buf_ok i s' ->
  woken (bi_sys s) (bi_sys s') -> dev_ready (bi_dev s') -> length (bi_bufs s') = S NBUF ->
  dll (bi_bufs s') l' -> l' ≡ₚ l ->
  (forall j b, j <> i -> is_for s' i b -> ~ is_for s j b) ->
  (forall b, length (dk_get (the_disk s') b) = Z.to_nat BSIZE) ->
  (forall b, ~ is_for s' i b -> dk_get (the_disk s') b = dk_get (the_disk s) b) ->
  bio_ok l' s'.
Proof.
  intros Hok Hi Ho Hb Hw Hd Hlen Hl Hp Hu Hdl Hdisk.
  assert (Huniq : forall j k b, is_for s' j b -> is_for s' k b -> j = k).
  { intros j k b Hj Hk. destruct (decide (j = i)) as [->|Hji], (decide (k = i)) as [->|Hki]; [done|..].
    - exfalso. eapply (Hu k b); [done..|]. apply (others_fields _ _ _ _ Ho) in Hk; [done|apply Hk|done].
    - exfalso. eapply (Hu j b); [done..|]. apply (others_fields _ _ _ _ Ho) in Hj; [done|apply Hj|done].
    - apply (bo_uniq _ _ Hok j k b); [apply (others_fields _ _ _ _ Ho) in Hj|apply (others_fields _ _ _ _ Ho) in Hk];
        first [done|apply Hj|apply Hk]. }
  split; try done.
  - eapply calm_woken; [apply (bo_calm _ _ Hok)|done].
  - rewrite Hp. apply (bo_perm _ _ Hok).
  - intros j Hj. destruct (decide (j = i)) as [->|Hne]; [apply Hb|].
    destruct (others_fields _ _ _ j Ho Hj Hne) as (_ & _ & _ & -> & _). by apply (bo_refs _ _ Hok).
  - intros j Hj. destruct (decide (j = i)) as [->|Hne]; [apply Hb|].
    destruct (others_fields _ _ _ j Ho Hj Hne) as (_ & _ & _ & -> & _ & ->). by apply (bo_lock _ _ Hok).
  - intros j Hj. destruct (decide (j = i)) as [->|Hne]; [apply Hb|].
    destruct (others_fields _ _ _ j Ho Hj Hne) as (_ & _ & _ & _ & -> & _). by apply (bo_data _ _ Hok).
  - intros j b Hj. destruct (decide (j = i)) as [->|Hne]; [by apply (bk_valid _ _ Hb b)|].
    destruct (others_fields _ _ _ j Ho ltac:(apply Hj) Hne) as (_ & Hf & -> & _).
    by apply (bo_valid _ _ Hok j b), Hf.
  - intros j b Hj. destruct (decide (j = i)) as [->|Hne]; [by apply (bk_block _ _ Hb b)|].
    destruct (others_fields _ _ _ j Ho ltac:(apply Hj) Hne) as (_ & Hf & _). by apply (bo_block _ _ Hok j b), Hf.
  - intros j b Hj. destruct (decide (j = i)) as [->|Hne]; [by apply Hb|].
    destruct (others_fields _ _ _ j Ho ltac:(apply Hj) Hne) as (_ & Hf & _ & -> & -> & _). intros Hr.
    rewrite Hdisk; [|intros H; apply Hne; by eapply Huniq]. apply (bo_clean _ _ Hok); [by apply Hf|done].
Qed.

(** The number of free buffers. *)
Lemma nfree_upd s s' i :
  (i < NBUF)%nat -> others i s s' ->
  (nfree s' + (if decide (b_refcnt (buf_of s i) = 0%Z) then 1 else 0) =
   nfree s + (if decide (b_refcnt (buf_of s' i) = 0%Z) then 1 else 0))%nat.
Proof.
  intros Hi Ho. unfold nfree.
  assert (H : forall l, NoDup l -> (forall j, j ∈ l -> (j < NBUF)%nat) ->
    (length (filter (fun j => b_refcnt (buf_of s' j) = 0%Z) l) +
       (if decide (i ∈ l) then if decide (b_refcnt (buf_of s i) = 0%Z) then 1 else 0 else 0) =
     length (filter (fun j => b_refcnt (buf_of s j) = 0%Z) l) +
       (if decide (i ∈ l) then if decide (b_refcnt (buf_of s' i) = 0%Z) then 1 else 0 else 0))%nat).
  { induction l as [|j l IH]; intros Hnd Hl; [done|]. apply NoDup_cons in Hnd as [Hj Hnd].
    specialize (IH Hnd ltac:(intros k Hk; apply Hl; mem)). rewrite !filter_cons.
    destruct (decide (j = i)) as [->|Hne].
    - rewrite !(decide_False (P := i ∈ l)) in IH by done. rewrite !(decide_True (P := i ∈ i :: l)) by mem.
      repeat case_decide; simpl; lia.
    - destruct (others_fields _ _ _ j Ho ltac:(apply Hl; mem) Hne) as (_ & _ & _ & -> & _).
      rewrite !(decide_ext (i ∈ j :: l) (i ∈ l)) by (rewrite elem_of_cons; naive_solver).
      destruct (decide (b_refcnt (buf_of s j) = 0)); simpl; lia. }
  specialize (H (seq 0 NBUF) (NoDup_seq _ _) ltac:(intros j Hj%elem_of_seq; lia)).
  by rewrite !(decide_True (P := i ∈ seq 0 NBUF)) in H by (apply elem_of_seq; lia).
Qed.

Lemma find_free l s :
  bio_ok l s -> (0 < nfree s)%nat ->
  exists i, List.find (fun i => b_refcnt (buf_of s i) =? 0) (reverse l) = Some i /\
    (i < NBUF)%nat /\ b_refcnt (buf_of s i) = 0.
Proof.
  intros Hok Hn. destruct (List.find _ _) as [i|] eqn:E.
  - apply List.find_some in E as [H1 H2]. exists i. split; [done|].
    split; [|by apply Z.eqb_eq]. apply (lru_lt l s); [done|].
    by apply elem_of_reverse, list_elem_of_In.
  - exfalso. unfold nfree in Hn. destruct (filter _ (seq 0 NBUF)) as [|i r] eqn:F; [simpl in Hn; lia|].
    assert (Hi : i ∈ i :: r) by mem. rewrite <- F in Hi. apply list_elem_of_filter in Hi as [H1 H2].
    eapply List.find_none in E; [rewrite H1 in E; done|].
    apply list_elem_of_In, elem_of_reverse. by rewrite (bo_perm _ _ Hok).
Qed.

(** ** The operations *)

(** Buffer [i] changed by [f], its lock set to [k]. *)
Definition bset (i : nat) (f : buf -> buf) (k : sleeplock) s : bio D :=
  Bio (set_slk (SBuf i) k (bi_slk s)) (alter f i (bi_bufs s)) (bi_dev s).

Lemma buf_of_alter i f s j x (y : D) :
  length (bi_bufs s) = S NBUF -> (i < NBUF)%nat ->
  buf_of (Bio x (alter f i (bi_bufs s)) y) j = if decide (i = j) then f (buf_of s j) else buf_of s j.
Proof. intros Hl Hi. apply lookup_alter_total. lia. Qed.

Lemma alter_alter (f g : buf -> buf) (i : nat) (bs : list buf) : alter f i (alter g i bs) = alter (fun x => f (g x)) i bs.
Proof.
  revert i. induction bs as [|x bs IH]; intros [|i]; simpl; try done. f_equal. apply IH.
Qed.

(** Functions that keep the links. *)
Definition keeps_links (f : buf -> buf) : Prop :=
  forall x, b_prev (f x) = b_prev x /\ b_next (f x) = b_next x.

Lemma dll_alter bs i f l :
  keeps_links f -> dll bs l -> (i < length bs)%nat -> dll (alter f i bs) l.
Proof.
  intros Hf Hl Hi. unfold dll in *. eapply seg_ext; [| |exact Hl]; intros j _;
    rewrite lookup_alter_total by done; case_decide; try done; apply Hf.
Qed.

Lemma bget_cached l s b i :
  bio_ok l s -> bfind s b = Some i -> sl_locked (lock_of_buf s i) = false ->
  bget rounds dev b s =
  Ok i (bset i (fun x => set_b_refcnt (u32 (b_refcnt x + 1)) x) (taken (my_pid_of s) (lock_of_buf s i)) s).
Proof.
  intros Hok Hf Hk. pose proof (bfind_inv _ _ _ Hf) as [Hi _]. unfold bget.
  pose proof (bo_calm _ _ Hok) as Hc. pose proof (ca_idle _ _ Hc L_bcache I) as Hidle.
  krun (zoom_acquire bi_sysL L_bcache s Hidle). set (s1 := lset _ _ s).
  krun (scan_cached l s s1 b Hok eq_refl). rewrite Hf. unfold upd_buf. rewrite bind_modify. set (s2 := set_bi_bufs _ s1).
  krun (zoom_release bi_sysL L_bcache (bi_sys s) s2 (ca_settled _ _ Hc) Hidle eq_refl). set (s3 := lset _ _ s2).
  assert (E3 : bi_slk s3 = bi_slk s) by (unfold s3; simpl; by destruct s as [[]]).
  rewrite (bind_Ok _ _ _ tt (set_bi_slk (set_slk (SBuf i) (taken (my_pid_of s) (lock_of_buf s i)) (bi_slk s)) s3)).
  - done.
  - unfold zoom. change (lget bi_slkL s3) with (bi_slk s3). rewrite E3.
    by rewrite (acquiresleep_ok rounds me).
Qed.

Definition recycle (b : Z) (x : buf) : buf :=
  set_b_refcnt 1 (set_b_valid false (set_b_blockno b (set_b_dev dev x))).

Lemma bget_recycled l s b i :
  bio_ok l s -> bfind s b = None ->
  List.find (fun i => b_refcnt (buf_of s i) =? 0) (reverse l) = Some i -> (i < NBUF)%nat ->
  sl_locked (lock_of_buf s i) = false ->
  bget rounds dev b s = Ok i (bset i (recycle b) (taken (my_pid_of s) (lock_of_buf s i)) s).
Proof.
  intros Hok Hf Hfree Hi Hk. unfold bget.
  pose proof (bo_calm _ _ Hok) as Hc. pose proof (ca_idle _ _ Hc L_bcache I) as Hidle.
  krun (zoom_acquire bi_sysL L_bcache s Hidle). set (s1 := lset _ _ s).
  krun (scan_cached l s s1 b Hok eq_refl). rewrite Hf.
  krun (scan_free l s s1 Hok eq_refl). rewrite Hfree. unfold upd_buf. rewrite !bind_modify. set (s2 := set_bi_bufs _ _).
  krun (zoom_release bi_sysL L_bcache (bi_sys s) s2 (ca_settled _ _ Hc) Hidle eq_refl). set (s3 := lset _ _ s2).
  assert (E3 : bi_slk s3 = bi_slk s) by (unfold s3; simpl; by destruct s as [[]]).
  rewrite (bind_Ok _ _ _ tt (set_bi_slk (set_slk (SBuf i) (taken (my_pid_of s) (lock_of_buf s i)) (bi_slk s)) s3)).
  - unfold bset, s3, s2, set_bi_slk, ret. simpl. f_equal. f_equal. by rewrite !alter_alter.
  - unfold zoom. change (lget bi_slkL s3) with (bi_slk s3). rewrite E3.
    by rewrite (acquiresleep_ok rounds me).
Qed.

(** With every buffer in use a block that is not cached cannot be read. *)
Lemma bget_full l s b :
  bio_ok l s -> bfind s b = None -> nfree s = 0%nat ->
  exists s', bget rounds dev b s = Panic "bget: no buffers" s'.
Proof.
  intros Hok Hf Hn. unfold bget.
  pose proof (bo_calm _ _ Hok) as Hc. pose proof (ca_idle _ _ Hc L_bcache I) as Hidle.
  krun (zoom_acquire bi_sysL L_bcache s Hidle). set (s1 := lset _ _ s).
  krun (scan_cached l s s1 b Hok eq_refl). rewrite Hf.
  krun (scan_free l s s1 Hok eq_refl). exists s1. destruct (List.find _ _) as [i|] eqn:E; [|done]. exfalso.
  apply List.find_some in E as [H1 H2]. apply list_elem_of_In in H1.
  rewrite elem_of_reverse, (bo_perm _ _ Hok) in H1. apply Z.eqb_eq in H2. unfold nfree in Hn.
  apply length_zero_iff_nil in Hn. assert (Hin : i ∈ filter (fun i => b_refcnt (buf_of s i) = 0) (seq 0 NBUF))
    by (by apply list_elem_of_filter). rewrite Hn in Hin. by apply not_elem_of_nil in Hin.
Qed.

(** The caller holds buffer [i], for block [b]. *)
Definition handle s (i : nat) (b : Z) : Prop :=
  is_for s i b /\ sl_locked (lock_of_buf s i) = true /\ sl_pid (lock_of_buf s i) = my_pid_of s.

(** Only block [b] changes, for the clients. *)
Record touched (b : Z) s s' : Prop := {
  to_view : forall b', b' <> b -> bview s' b' = bview s b';
  to_refs : forall b', b' <> b -> brefs s' b' = brefs s b';
  to_held : forall b', b' <> b -> bheld s' b' = bheld s b';
  to_handle : forall j b', b' <> b -> handle s j b' -> handle s' j b';
  to_slk : undisturbed (bi_slk s) (bi_slk s')
}.

Lemma bslot_for l s i b : bio_ok l s -> is_for s i b -> bslot s b = Some (slot_of s i).
Proof. intros Hok Hi. unfold bslot. by rewrite (bfind_some _ _ _ (bo_uniq _ _ Hok) Hi). Qed.

Lemma brefs_for l s i b : bio_ok l s -> is_for s i b -> brefs s b = b_refcnt (buf_of s i).
Proof. intros Hok Hi. unfold brefs. by rewrite (bslot_for l _ _ _ Hok Hi). Qed.

Lemma bheld_for l s i b : bio_ok l s -> is_for s i b -> bheld s b = sl_locked (lock_of_buf s i).
Proof. intros Hok Hi. unfold bheld. by rewrite (bslot_for l _ _ _ Hok Hi). Qed.

Lemma bview_for l s i b :
  bio_ok l s -> is_for s i b -> bview s b = b_data (buf_of s i).
Proof.
  intros Hok Hi. unfold bview. rewrite (bslot_for l _ _ _ Hok Hi). unfold slot_of.
  by rewrite (bo_valid _ _ Hok i b).
Qed.

Lemma bview_cold s b : bfind s b = None -> bview s b = dk_get (the_disk s) b.
Proof. intros H. unfold bview, bslot. by rewrite H. Qed.

Lemma brefs_cold s b : bfind s b = None -> brefs s b = 0.
Proof. intros H. unfold brefs, bslot. by rewrite H. Qed.

Lemma bview_len l s b : bio_ok l s -> length (bview s b) = Z.to_nat BSIZE.
Proof.
  intros Hok. destruct (bfind s b) as [i|] eqn:E; [|rewrite bview_cold by done; apply Hok].
  apply bfind_inv in E. rewrite (bview_for l _ _ _ Hok E). apply (bo_data _ _ Hok), E.
Qed.

(** A block without references is neither locked nor newer than the disk. *)
Lemma unused_clean l s b :
  bio_ok l s -> brefs s b = 0 -> bheld s b = false /\ bview s b = dk_get (the_disk s) b.
Proof.
  intros Hok Hr. destruct (bfind s b) as [i|] eqn:E.
  - apply bfind_inv in E. rewrite (brefs_for l _ _ _ Hok E) in Hr.
    rewrite (bheld_for l _ _ _ Hok E), (bview_for l _ _ _ Hok E). split; [|by apply (bo_clean _ _ Hok)].
    destruct (sl_locked _) eqn:El; [|done]. apply (bo_lock _ _ Hok) in El; [lia|apply E].
  - split; [unfold bheld, bslot; by rewrite E|by apply bview_cold].
Qed.

Lemma brefs_range l s b : bio_ok l s -> 0 <= brefs s b < 2 ^ 32.
Proof.
  intros Hok. destruct (bfind s b) as [i|] eqn:E; [|by rewrite brefs_cold].
  apply bfind_inv in E. rewrite (brefs_for l _ _ _ Hok E). apply (bo_refs _ _ Hok), E.
Qed.

(** Buffer [i] is now for [b], and was for [b], or for a block with no users. *)
Lemma touched_upd l l' s s' i b :
  bio_ok l s -> bio_ok l' s' -> others i s s' -> is_for s' i b ->
  (is_for s i b \/ b_refcnt (buf_of s i) = 0) ->
  undisturbed (bi_slk s) (bi_slk s') ->
  (forall b', b' <> b -> dk_get (the_disk s') b' = dk_get (the_disk s) b') ->
  touched b s s'.
Proof.
  intros Hok Hok' Ho Hi' Hold Hw Hd. assert (Hi : (i < NBUF)%nat) by apply Hi'.
  assert (Hslot : forall b', b' <> b -> bslot s' b' = bslot s b' \/
    bslot s' b' = None /\ exists d, bslot s b' = Some (Slot 0 false d) /\
      (forall x, d = Some x -> x = dk_get (the_disk s) b')).
  { intros b' Hb. rewrite (bslot_upd s s' i (bo_uniq _ _ Hok) (bo_uniq _ _ Hok') Hi Ho).
    destruct (matches b' (buf_of s' i)) eqn:E1.
    { apply matches_spec in E1; [|done]. destruct E1 as (_ & _ & E1), Hi' as (_ & _ & E2). congruence. }
    destruct (matches b' (buf_of s i)) eqn:E2; [|by left].
    apply matches_spec in E2; [|done]. right. split; [done|].
    destruct Hold as [(_ & _ & E3)|Hr]; [destruct E2 as (_ & _ & E2); congruence|].
    rewrite (bslot_for l s i b' Hok E2). unfold slot_of.
    rewrite Hr. destruct (sl_locked (lock_of_buf s i)) eqn:El; [apply (bo_lock _ _ Hok) in El; [lia|done]|].
    eexists. split; [done|]. intros x. destruct (b_valid (buf_of s i)) eqn:Ev; [|done].
    intros [= <-]. by apply (bo_clean _ _ Hok). }
  split; try done.
  - intros b' Hb. unfold bview. destruct (Hslot b' Hb) as [->|(-> & d & -> & Hx)]; rewrite Hd by done; [done|].
    destruct d as [x|]; [by rewrite (Hx x)|done].
  - intros b' Hb. unfold brefs. by destruct (Hslot b' Hb) as [->|(-> & d & -> & Hx)].
  - intros b' Hb. unfold bheld. by destruct (Hslot b' Hb) as [->|(-> & d & -> & Hx)].
  - intros j b' Hb (Hj & Hl & Hp).
    assert (Hne : j <> i).
    { intros ->. destruct Hold as [(_ & _ & E3)|Hr]; [destruct Hj as (_ & _ & E2); congruence|].
      apply (bo_lock _ _ Hok) in Hl; [lia|done]. }
    destruct (others_fields _ _ _ j Ho ltac:(apply Hj) Hne) as (_ & Hf & _ & _ & _ & El).
    split; [by apply Hf|]. rewrite El. split; [done|]. rewrite Hp. unfold my_pid_of.
    symmetry. apply wo_pid, Hw.
Qed.

(** The state in which buffer [i] was changed by [g] and its lock set to [k]. *)
Definition bnew (i : nat) (g : buf -> buf) (k : sleeplock) (y : sys) (d : D) s : bio D :=
  Bio (Slk y (<[SBuf i := k]> (sk_locks (bi_slk s)))) (alter g i (bi_bufs s)) d.

Section New.
Context (l : list nat) (s : bio D) (i : nat) (g : buf -> buf) (k : sleeplock) (y : sys) (d : D).
Hypotheses (Hok : bio_ok l s) (Hi : (i < NBUF)%nat).
Let s' : bio D := bnew i g k y d s.

Lemma bnew_buf : buf_of s' i = g (buf_of s i).
Proof. unfold s', bnew. rewrite buf_of_alter by (done || apply Hok). by rewrite decide_True. Qed.

Lemma bnew_lock : lock_of_buf s' i = k.
Proof. unfold lock_of_buf, slk_of, s', bnew. simpl. by rewrite lookup_insert_eq. Qed.

Lemma bnew_others : others i s s'.
Proof.
  intros j Hj Hne. unfold s', bnew. rewrite buf_of_alter by (done || apply Hok).
  rewrite decide_False by done. split; [done|]. unfold lock_of_buf, slk_of. simpl.
  by rewrite lookup_insert_ne by congruence.
Qed.

Lemma bnew_ok b :
  keeps_links g -> woken (bi_sys s) y -> dev_ready d -> buf_ok i s' -> is_for s' i b ->
  (is_for s i b \/ b_refcnt (buf_of s i) = 0 /\ bfind s b = None) ->
  length (dk_get (dev_disk d) b) = Z.to_nat BSIZE ->
  (forall b', b' <> b -> dk_get (dev_disk d) b' = dk_get (the_disk s) b') ->
  bio_ok l s' /\ touched b s s'.
Proof.
  intros Hg Hw Hd Hb Hf Hold Hdl Hdisk. pose proof bnew_others as Ho.
  assert (Hok' : bio_ok l s').
  { eapply (bio_ok_upd l l s s' i); try done.
    - simpl. rewrite length_alter. apply Hok.
    - apply dll_alter; [done|apply Hok|rewrite (bo_len _ _ Hok); lia].
    - intros j b' Hne Hb' Hj. assert (b' = b) as -> by (destruct Hb' as (_ & _ & <-), Hf as (_ & _ & <-); done).
      destruct Hold as [Hs|[_ Hn]].
      + apply Hne. by apply (bo_uniq _ _ Hok j i b).
      + by rewrite (bfind_some _ _ _ (bo_uniq _ _ Hok) Hj) in Hn.
    - intros b'. destruct (decide (b' = b)) as [->|Hne]; [done|]. unfold the_disk. simpl.
      rewrite Hdisk by done. apply Hok.
    - intros b' Hb'. apply Hdisk. intros ->. done. }
  split; [done|]. eapply (touched_upd l l s s' i); try done; [tauto|by apply undisturbed_buf].
Qed.

End New.

(** The state after a buffer for [b] was found or recycled, and filled. *)
Lemma bread_state l s b i g y d :
  bio_ok l s -> (i < NBUF)%nat -> keeps_links g -> woken (bi_sys s) y -> dev_ready d ->
  dev_disk d = the_disk s -> brefs s b + 1 < 2 ^ 32 -> 0 <= b < 2 ^ 31 ->
  (is_for s i b \/ b_refcnt (buf_of s i) = 0 /\ bfind s b = None) ->
  core (g (buf_of s i)) = (true, dev, b, brefs s b + 1, bview s b) ->
  let s' := bnew i g (taken (my_pid_of s) (lock_of_buf s i)) y d s in
  bio_ok l s' /\ touched b s s' /\ handle s' i b /\
  b_data (buf_of s' i) = bview s b /\ bview s' b = bview s b /\ brefs s' b = brefs s b + 1 /\
  bheld s' b = true /\ the_disk s' = the_disk s /\
  (nfree s' + (if decide (brefs s b = 0%Z) then 1 else 0) = nfree s)%nat.
Proof.
  intros Hok Hi Hg Hw Hd Edisk Hr Hblk Hold [= E1 E2 E3 E4 E5] s'.
  set (k := taken _ _) in s'.
  assert (Hb : buf_of s' i = g (buf_of s i)) by (by apply (bnew_buf l)).
  assert (Hk : lock_of_buf s' i = k) by apply bnew_lock.
  assert (Hf : is_for s' i b) by (unfold is_for; by rewrite Hb).
  assert (Hrefs : 0 <= brefs s b).
  { destruct Hold as [H|[_ H]]; [|by rewrite brefs_cold]. rewrite (brefs_for l _ _ _ Hok H).
    by apply (bo_refs _ _ Hok). }
  destruct (bnew_ok l s i g k y d Hok Hi b) as [Hok' Ht]; fold s'; try done.
  - split; rewrite ?Hb, ?E4, ?E5; try done; try lia; [by apply (bview_len l)|].
    intros b' (_ & _ & <-). by rewrite Hb, E3.
  - rewrite Edisk. apply Hok.
  - intros b' _. by rewrite Edisk.
  - fold s' in Hok', Ht.
    split; [done|]. split; [done|]. split; [split; [done|]; rewrite Hk; split; [done|symmetry; by apply wo_pid]|].
    rewrite Hb. split; [done|].
    rewrite (bview_for l _ _ _ Hok' Hf), (brefs_for l _ _ _ Hok' Hf), (bheld_for l _ _ _ Hok' Hf), Hb, Hk.
    split; [done|]. split; [done|]. split; [done|]. split; [done|].
    pose proof (nfree_upd s s' i Hi (bnew_others l s i g k y d Hok Hi)) as Hn. rewrite Hb, E4 in Hn.
    rewrite (decide_False (P := brefs s b + 1 = 0)) in Hn by lia.
    destruct Hold as [H|[H0 H]]; [rewrite (brefs_for l _ _ _ Hok H) in *; lia|].
    rewrite brefs_cold by done. rewrite decide_True in Hn by done. rewrite decide_True by done. lia.
Qed.

(** [bread]: the buffer of the block, locked, with one more reference and the
    current contents. *)
Lemma bread_ok l s b :
  bio_ok l s -> bheld s b = false -> brefs s b + 1 < 2 ^ 32 -> 0 <= b < 2 ^ 31 ->
  (brefs s b = 0 -> (0 < nfree s)%nat) ->
  exists i s', bread rounds dev b s = Ok i s' /\ bio_ok l s' /\ touched b s s' /\ handle s' i b /\
    b_data (buf_of s' i) = bview s b /\ bview s' b = bview s b /\ brefs s' b = brefs s b + 1 /\
    bheld s' b = true /\ the_disk s' = the_disk s /\
    (nfree s' + (if decide (brefs s b = 0%Z) then 1 else 0) = nfree s)%nat.
Proof.
  intros Hok Hh Hr Hblk Hn. unfold bread. destruct (bfind s b) as [i|] eqn:E.
  - pose proof (bfind_inv _ _ _ E) as Hf. assert (Hi : (i < NBUF)%nat) by apply Hf.
    rewrite (bheld_for l _ _ _ Hok Hf) in Hh.
    krun (bget_cached l s b i Hok E Hh). set (s1 := bset _ _ _ _).
    unfold get_buf. rewrite bind_gets.
    assert (Eb : buf_of s1 i = set_b_refcnt (u32 (b_refcnt (buf_of s i) + 1)) (buf_of s i)).
    { unfold s1, bset. rewrite buf_of_alter by (done || apply Hok). by rewrite decide_True. }
    rewrite Eb. simpl. rewrite (bo_valid _ _ Hok i b) by done. simpl. exists i, s1. split; [done|].
    replace s1 with (bnew i (fun x => set_b_refcnt (u32 (b_refcnt x + 1)) x)
      (taken (my_pid_of s) (lock_of_buf s i)) (bi_sys s) (bi_dev s) s) by done.
    pose proof (bo_refs _ _ Hok i Hi) as Hrange. rewrite (brefs_for l _ _ _ Hok Hf) in Hr.
    apply bread_state; try done; [apply Hok|by rewrite (brefs_for l _ _ _ Hok Hf)|by left|].
    unfold core. simpl. rewrite (bview_for l _ _ _ Hok Hf), (brefs_for l _ _ _ Hok Hf), u32_small by lia.
    rewrite (bo_valid _ _ Hok i b) by done. destruct Hf as (_ & -> & ->). done.
  - destruct (find_free l s Hok) as (i & Hfree & Hi & H0); [apply Hn; by rewrite brefs_cold|].
    assert (Hk : sl_locked (lock_of_buf s i) = false).
    { destruct (sl_locked _) eqn:El; [|done]. apply (bo_lock _ _ Hok) in El; [lia|done]. }
    krun (bget_recycled l s b i Hok E Hfree Hi Hk). set (s1 := bset _ _ _ _). unfold get_buf. rewrite bind_gets.
    assert (Eb : buf_of s1 i = recycle b (buf_of s i)).
    { unfold s1, bset. rewrite buf_of_alter by (done || apply Hok). by rewrite decide_True. }
    destruct (disk_read_ok me i s1) as (y & d & Hrd & Hw & Hd & Ed); [apply Hok|apply Hok|done| | |].
    { simpl. rewrite length_alter. apply Hok. }
    { by rewrite Eb. }
    set (g := fun x => set_b_valid true (set_b_disk false (set_b_data (dk_get (the_disk s) b) (recycle b x)))).
    exists i, (bnew i g (taken (my_pid_of s) (lock_of_buf s i)) y d s).
    rewrite Eb. cbn [b_valid recycle set_b_refcnt set_b_valid negb]. split.
    + rewrite (bind_Ok _ _ _ tt (bnew i g (taken (my_pid_of s) (lock_of_buf s i)) y d s)); [done|].
      krun Hrd. unfold upd_buf, modify, bnew, set_bi_bufs. simpl. rewrite !alter_alter, Eb. done.
    + apply bread_state; try done; [by right|].
      unfold core. simpl. by rewrite brefs_cold, bview_cold.
Qed.

(** ** Operations on a held buffer *)

Lemma handle_refs l s i b : bio_ok l s -> handle s i b -> 0 < brefs s b < 2 ^ 32.
Proof.
  intros Hok (Hf & Hl & _). rewrite (brefs_for l _ _ _ Hok Hf).
  pose proof (bo_refs _ _ Hok i ltac:(apply Hf)). pose proof (bo_lock _ _ Hok i ltac:(apply Hf) Hl). lia.
Qed.

Lemma handle_core l s i b :
  bio_ok l s -> handle s i b -> core (buf_of s i) = (true, dev, b, brefs s b, bview s b).
Proof.
  intros Hok (Hf & _). unfold core.
  rewrite (brefs_for l _ _ _ Hok Hf), (bview_for l _ _ _ Hok Hf), (bo_valid _ _ Hok i b Hf).
  by destruct Hf as (_ & -> & ->).
Qed.

Lemma handle_data l s i b : bio_ok l s -> handle s i b -> b_data (buf_of s i) = bview s b.
Proof. intros Hok H. pose proof (handle_core _ _ _ _ Hok H) as [= _ _ _ _ E]. done. Qed.

Lemma handle_new s i b g y d :
  handle s i b -> bnew i g (lock_of_buf s i) y d s = Bio (Slk y (sk_locks (bi_slk s))) (alter g i (bi_bufs s)) d.
Proof.
  intros (_ & Hl & _). unfold bnew. f_equal. f_equal. apply insert_id.
  unfold lock_of_buf, slk_of in *. by destruct (sk_locks (bi_slk s) !! SBuf i).
Qed.

(** Buffer [i] gets [r] references and the contents [x]. *)
Lemma held_state l s i b g y d r x :
  bio_ok l s -> handle s i b -> keeps_links g -> woken (bi_sys s) y -> dev_ready d ->
  core (g (buf_of s i)) = (true, dev, b, r, x) -> 0 < r < 2 ^ 32 -> length x = Z.to_nat BSIZE ->
  length (dk_get (dev_disk d) b) = Z.to_nat BSIZE ->
  (forall b', b' <> b -> dk_get (dev_disk d) b' = dk_get (the_disk s) b') ->
  let s' := bnew i g (lock_of_buf s i) y d s in
  bio_ok l s' /\ touched b s s' /\ handle s' i b /\ bview s' b = x /\ brefs s' b = r /\
  bheld s' b = true /\ nfree s' = nfree s.
Proof.
  intros Hok Hh Hg Hw Hd Hcore Hr Hlen Hdl Hdisk s'. pose proof Hcore as [= E1 E2 E3 E4 E5].
  pose proof (handle_refs _ _ _ _ Hok Hh) as Hr0.
  destruct Hh as (Hf & Hl & Hp). assert (Hi : (i < NBUF)%nat) by apply Hf.
  rewrite (brefs_for l _ _ _ Hok Hf) in Hr0.
  assert (Hb : buf_of s' i = g (buf_of s i)) by (by apply (bnew_buf l)).
  assert (Hk : lock_of_buf s' i = lock_of_buf s i) by apply bnew_lock.
  assert (Hf' : is_for s' i b) by (unfold is_for; by rewrite Hb).
  destruct (bnew_ok l s i g (lock_of_buf s i) y d Hok Hi b) as [Hok' Ht]; fold s'; try done.
  - split; rewrite ?Hb, ?E4, ?E5; try done; try lia.
    intros b' (_ & _ & <-). rewrite Hb, E3. by apply (bo_block _ _ Hok i).
  - by left.
  - fold s' in Hok', Ht. split; [done|]. split; [done|].
    split; [split; [done|]; rewrite Hk; split; [done|]; rewrite Hp; symmetry; by apply wo_pid|].
    rewrite (bview_for l _ _ _ Hok' Hf'), (brefs_for l _ _ _ Hok' Hf'), (bheld_for l _ _ _ Hok' Hf'), Hb, Hk.
    split; [done|]. split; [done|]. split; [done|].
    pose proof (nfree_upd s s' i Hi (bnew_others l s i g (lock_of_buf s i) y d Hok Hi)) as Hn.
    rewrite Hb, E4 in Hn. rewrite !decide_False in Hn by lia. lia.
Qed.

(** A client changes the contents of a buffer it holds. *)
Lemma set_data_ok l s i b x :
  bio_ok l s -> handle s i b -> length x = Z.to_nat BSIZE ->
  exists s', upd_buf i (set_b_data x) s = Ok tt s' /\
    bio_ok l s' /\ touched b s s' /\ handle s' i b /\ bview s' b = x /\ brefs s' b = brefs s b /\
    bheld s' b = true /\ nfree s' = nfree s /\ the_disk s' = the_disk s.
Proof.
  intros Hok Hh Hx. eexists. split.
  { unfold upd_buf, modify, set_bi_bufs. pose proof (handle_new s i b (set_b_data x) (bi_sys s) (bi_dev s) Hh) as E.
    simpl in E. replace (Slk _ _) with (bi_slk s) in E by (unfold bi_sys; by destruct (bi_slk s)).
    rewrite <- E. reflexivity. }
  pose proof (handle_core _ _ _ _ Hok Hh) as [= E1 E2 E3 E4 E5].
  destruct (held_state l s i b (set_b_data x) (bi_sys s) (bi_dev s) (brefs s b) x) as (H1 & H2 & H3 & H4 & H5 & H6 & H7);
    try done; try apply Hok.
  - unfold core. simpl. by rewrite E1, E2, E3, E4.
  - by apply (handle_refs l _ i).
Qed.

Lemma holding_buf l s i b : bio_ok l s -> handle s i b ->
  zoom bi_slkL (holdingsleep (SBuf i)) s = Ok true s.
Proof.
  intros Hok (Hf & Hl & Hp). unfold zoom. change (lget bi_slkL s) with (bi_slk s).
  rewrite (holdingsleep_ok me); [|apply Hok|apply Hf].
  unfold lock_of_buf in *. rewrite Hl, Hp. unfold my_pid_of, bi_sys. rewrite Z.eqb_refl. simpl. by destruct s.
Qed.

Lemma dk_get_put d b x b' : dk_get (dk_put b x d) b' = if decide (b' = b) then x else dk_get d b'.
Proof.
  unfold dk_get, dk_blocks, dk_put, apply_writes. simpl. rewrite foldl_app. simpl. unfold blk.
  case_decide as E; [subst; by rewrite lookup_insert_eq|]. by rewrite lookup_insert_ne.
Qed.

(** [bwrite]: the contents reach the disk. *)
Lemma bwrite_ok l s i b :
  bio_ok l s -> handle s i b ->
  exists s', bwrite i s = Ok tt s' /\ bio_ok l s' /\ touched b s s' /\ handle s' i b /\
    bview s' b = bview s b /\ brefs s' b = brefs s b /\ bheld s' b = true /\ nfree s' = nfree s /\
    the_disk s' = dk_put b (bview s b) (the_disk s).
Proof.
  intros Hok Hh. unfold bwrite. krun (holding_buf l s i b Hok Hh). simpl.
  destruct (disk_write_ok me i s) as (y & d & Hwr & Hw & Hd & Ed); [apply Hok|apply Hok|apply Hh|apply Hok| |].
  { apply (bo_block _ _ Hok i). destruct Hh as ((? & ? & _) & _). done. }
  pose proof (handle_core _ _ _ _ Hok Hh) as Hcore. pose proof Hcore as [= E1 E2 E3 E4 E5].
  rewrite E3, E5 in Ed. fold (the_disk s) in Ed. eexists. split; [exact Hwr|].
  pose proof (handle_new s i b (set_b_disk false) y d Hh) as E.
  change (set_sk_sys y (bi_slk s)) with (Slk y (sk_locks (bi_slk s))). rewrite <- E.
  destruct (held_state l s i b (set_b_disk false) y d (brefs s b) (bview s b)) as (H1 & H2 & H3 & H4 & H5 & H6 & H7); try done.
  - by apply (handle_refs l _ i).
  - by apply (bview_len l).
  - rewrite Ed, dk_get_put, decide_True by done. by apply (bview_len l).
  - intros b' Hb'. by rewrite Ed, dk_get_put, decide_False.
Qed.

(** Changing the reference count under the cache's lock. *)
Lemma upd_refs_ok l s i b f :
  bio_ok l s -> handle s i b -> 0 < f (brefs s b) < 2 ^ 32 ->
  exists s', (zoom bi_sysL (acquire L_bcache) ;;
      upd_buf i (fun x => set_b_refcnt (f (b_refcnt x)) x) ;; zoom bi_sysL (release L_bcache)) s = Ok tt s' /\
    bio_ok l s' /\ touched b s s' /\ handle s' i b /\ bview s' b = bview s b /\ brefs s' b = f (brefs s b) /\
    bheld s' b = true /\ nfree s' = nfree s /\ the_disk s' = the_disk s.
Proof.
  intros Hok Hh Hr. pose proof (bo_calm _ _ Hok) as Hc. pose proof (ca_idle _ _ Hc L_bcache I) as Hidle.
  pose proof (handle_core _ _ _ _ Hok Hh) as [= E1 E2 E3 E4 E5].
  set (g := fun x => set_b_refcnt (f (b_refcnt x)) x).
  exists (bnew i g (lock_of_buf s i) (bi_sys s) (bi_dev s) s). split.
  - krun (zoom_acquire bi_sysL L_bcache s Hidle). unfold upd_buf. rewrite bind_modify. set (s1 := set_bi_bufs _ _).
    rewrite (zoom_release bi_sysL L_bcache (bi_sys s) s1 (ca_settled _ _ Hc) Hidle eq_refl).
    rewrite (handle_new s i b) by done. done.
  - destruct (held_state l s i b g (bi_sys s) (bi_dev s) (f (brefs s b)) (bview s b))
      as (H1 & H2 & H3 & H4 & H5 & H6 & H7); try done; try apply Hok.
    + unfold core. simpl. by rewrite E1, E2, E3, E4, E5.
    + by apply (bview_len l).
Qed.

Lemma bpin_ok l s i b :
  bio_ok l s -> handle s i b -> brefs s b + 1 < 2 ^ 32 ->
  exists s', bpin i s = Ok tt s' /\
    bio_ok l s' /\ touched b s s' /\ handle s' i b /\ bview s' b = bview s b /\ brefs s' b = brefs s b + 1 /\
    bheld s' b = true /\ nfree s' = nfree s /\ the_disk s' = the_disk s.
Proof.
  intros Hok Hh Hr. pose proof (handle_refs _ _ _ _ Hok Hh).
  destruct (upd_refs_ok l s i b (fun r => u32 (r + 1)) Hok Hh) as (s' & H'); [rewrite u32_small; lia|].
  rewrite u32_small in H' by lia. by exists s'.
Qed.

(** [bpin], in any critical section but the cache's own. *)
Lemma bpin_run i s :
  settled (bi_sys s) -> lock_idle (bi_sys s) L_bcache ->
  bpin i s = Ok tt (set_bi_bufs (alter (fun x => set_b_refcnt (u32 (b_refcnt x + 1)) x) i (bi_bufs s)) s).
Proof.
  intros Hs Hidle. unfold bpin. krun (zoom_acquire bi_sysL L_bcache s Hidle).
  unfold upd_buf. rewrite bind_modify. set (s1 := set_bi_bufs _ _).
  rewrite (zoom_release bi_sysL L_bcache (bi_sys s) s1 Hs Hidle eq_refl). by destruct s as [[]].
Qed.

Lemma bunpin_ok l s i b :
  bio_ok l s -> handle s i b -> 1 < brefs s b ->
  exists s', bunpin i s = Ok tt s' /\
    bio_ok l s' /\ touched b s s' /\ handle s' i b /\ bview s' b = bview s b /\ brefs s' b = brefs s b - 1 /\
    bheld s' b = true /\ nfree s' = nfree s /\ the_disk s' = the_disk s.
Proof.
  intros Hok Hh Hr. pose proof (handle_refs _ _ _ _ Hok Hh).
  destruct (upd_refs_ok l s i b (fun r => u32 (r - 1)) Hok Hh) as (s' & H'); [rewrite u32_small; lia|].
  rewrite u32_small in H' by lia. by exists s'.
Qed.

(** *** [brelse] *)

Lemma core_alter (f : buf -> buf) (i j : nat) (bs : list buf) :
  (forall x, core (f x) = core x) -> core (alter f i bs !!! j) = core (bs !!! j).
Proof.
  intros Hf. rewrite !list_lookup_total_alt. destruct (decide (i = j)) as [->|Hne].
  - rewrite list_lookup_alter_eq. destruct (bs !! j) as [x|]; [apply Hf|done].
  - by rewrite list_lookup_alter_ne.
Qed.

(** The bottom half of [brelse]: the buffer goes to the front of the list. *)
Definition to_front (i : nat) (bs : list buf) : list buf := linked (unlinked bs i) i.

Lemma to_front_core i j bs : core (to_front i bs !!! j) = core (bs !!! j).
Proof. unfold to_front, linked, unlinked. by rewrite !core_alter. Qed.

Lemma to_front_len i bs : length (to_front i bs) = length bs.
Proof. unfold to_front, linked, unlinked. by rewrite !length_alter. Qed.

(** The list with [i] moved to the front. *)
Definition moved (i : nat) (l : list nat) : list nat := i :: filter (fun j => j <> i) l.

Lemma filter_absent (i : nat) (l : list nat) : i ∉ l -> filter (fun j => j <> i) l = l.
Proof.
  induction l as [|x l IH]; intros H; [done|]. apply not_elem_of_cons in H as [Hx H].
  rewrite filter_cons, decide_True by done. by rewrite IH.
Qed.

Lemma moved_split i l1 l2 : NoDup (l1 ++ i :: l2) -> moved i (l1 ++ i :: l2) = i :: l1 ++ l2.
Proof.
  intros (H1 & H2 & H3)%NoDup_app. apply NoDup_cons in H3 as [H3 _]. unfold moved.
  rewrite filter_app, filter_cons, decide_False by naive_solver. f_equal.
  rewrite !filter_absent; [done|done|]. intros Hj. apply (H2 i Hj). mem.
Qed.

Lemma to_front_dll bs i l :
  dll bs l -> i ∈ l -> NoDup l -> head ∉ l -> (forall j, j ∈ head :: l -> (j < length bs)%nat) ->
  dll (to_front i bs) (moved i l) /\ moved i l ≡ₚ l.
Proof.
  intros Hl (l1 & l2 & ->)%list_elem_of_split Hnd Hh Hlen. rewrite moved_split by done. split.
  - assert (Hnd2 : NoDup (l1 ++ l2) /\ (i ∉ l1 ++ l2)).
    { rewrite <- Permutation_middle in Hnd. apply NoDup_cons in Hnd. tauto. }
    apply seg_insert.
    + apply (seg_remove bs head l1 i l2 head); [done| |done|done|apply Hlen; mem].
      apply NoDup_cons. split; done.
    + intros [->|H]%elem_of_cons; [apply Hh; mem|tauto].
    + tauto.
    + intros H. apply Hh. revert H. mem.
    + unfold unlinked. rewrite !length_alter. intros j Hj. apply Hlen. revert Hj. mem.
  - apply Permutation_middle.
Qed.

(** The buffers after the release of buffer [i]. *)
Definition released (i : nat) s : list buf :=
  let bs := alter (fun x => set_b_refcnt (u32 (b_refcnt x - 1)) x) i (bi_bufs s) in
  if decide (b_refcnt (buf_of s i) = 1) then to_front i bs else bs.

Lemma brelse_run l s i b :
  bio_ok l s -> handle s i b ->
  exists y, brelse i s =
      Ok tt (Bio (Slk y (<[SBuf i := freed (lock_of_buf s i)]> (sk_locks (bi_slk s)))) (released i s) (bi_dev s)) /\
    woken (bi_sys s) y.
Proof.
  intros Hok Hh. unfold brelse. krun (holding_buf l s i b Hok Hh). cbn [negb].
  pose proof (handle_refs _ _ _ _ Hok Hh) as Hr. destruct Hh as (Hf & _).
  rewrite (brefs_for l _ _ _ Hok Hf) in Hr. assert (Hi : (i < NBUF)%nat) by apply Hf.
  destruct (releasesleep_ok me (SBuf i) (bi_slk s)) as (y & Hrel & Hw); [apply Hok|done|].
  exists y. split; [|done]. apply (zoom_Ok bi_slkL _ s) in Hrel. krun Hrel. set (s1 := lset _ _ s).
  assert (Hc : calm me y) by (eapply calm_woken; [apply Hok|exact Hw]).
  pose proof (ca_idle _ _ Hc L_bcache I) as Hidle.
  krun (zoom_acquire bi_sysL L_bcache s1 Hidle). unfold upd_buf at 1. rewrite bind_modify.
  set (s2 := set_bi_bufs _ _). unfold get_buf at 1. rewrite bind_gets.
  assert (E : buf_of s2 i = set_b_refcnt (b_refcnt (buf_of s i) - 1) (buf_of s i)).
  { unfold s2, buf_of, set_bi_bufs. simpl.
    rewrite lookup_alter_total by (rewrite (bo_len _ _ Hok); lia). rewrite decide_True by done.
    rewrite u32_small; [done|]. unfold buf_of in Hr. lia. }
  rewrite E. simpl. unfold released. case_decide as Hone.
  - rewrite Hone. simpl. rewrite (bind_Ok _ _ _ tt (set_bi_bufs (to_front i (bi_bufs s2)) s2)); [|done].
    by rewrite (zoom_release bi_sysL L_bcache y (set_bi_bufs (to_front i (bi_bufs s2)) s2) (ca_settled _ _ Hc) Hidle eq_refl).
  - destruct (Z.eqb_spec (b_refcnt (buf_of s i) - 1) 0); [lia|]. rewrite bind_ret.
    by rewrite (zoom_release bi_sysL L_bcache y s2 (ca_settled _ _ Hc) Hidle eq_refl).
Qed.

Lemma released_facts l s i :
  bio_ok l s -> (i < NBUF)%nat -> 0 < b_refcnt (buf_of s i) ->
  (forall j, core (released i s !!! j) =
     core (if decide (i = j) then set_b_refcnt (b_refcnt (buf_of s i) - 1) (buf_of s i) else buf_of s j)) /\
  length (released i s) = S NBUF /\
  dll (released i s) (if decide (b_refcnt (buf_of s i) = 1) then moved i l else l) /\
  (if decide (b_refcnt (buf_of s i) = 1) then moved i l else l) ≡ₚ l.
Proof.
  intros Hok Hi Hr. pose proof (bo_refs _ _ Hok i Hi). pose proof (bo_len _ _ Hok) as Hlen.
  set (g := fun x => set_b_refcnt (u32 (b_refcnt x - 1)) x).
  assert (Hcore : forall j, core (alter g i (bi_bufs s) !!! j) =
    core (if decide (i = j) then set_b_refcnt (b_refcnt (buf_of s i) - 1) (buf_of s i) else buf_of s j)).
  { intros j. rewrite lookup_alter_total by lia. case_decide as E; [subst j|done].
    unfold g. fold (buf_of s i). by rewrite u32_small by lia. }
  assert (Hdll : dll (alter g i (bi_bufs s)) l) by (apply dll_alter; [done|apply Hok|lia]).
  destruct (lru_facts _ _ Hok) as (Hnd & Hh & _ & Hin). unfold released. fold g. case_decide.
  - split; [intros j; by rewrite to_front_core|]. split; [by rewrite to_front_len, length_alter|].
    apply to_front_dll; try done.
    + rewrite (bo_perm _ _ Hok). apply elem_of_seq. lia.
    + by rewrite length_alter.
  - split; [done|]. split; [by rewrite length_alter|]. done.
Qed.

(** [brelse]: one reference less, the lock free; the buffer of a block no one
    refers to becomes the most recently used. *)
Lemma brelse_ok l s i b :
  bio_ok l s -> handle s i b -> (brefs s b = 1 -> bview s b = dk_get (the_disk s) b) ->
  exists s', brelse i s = Ok tt s' /\
    bio_ok (if decide (brefs s b = 1) then moved i l else l) s' /\ touched b s s' /\
    bview s' b = bview s b /\ brefs s' b = brefs s b - 1 /\ bheld s' b = false /\
    the_disk s' = the_disk s /\ (nfree s' = nfree s + if decide (brefs s b = 1%Z) then 1 else 0)%nat.
Proof.
  intros Hok Hh Hclean. destruct (brelse_run l s i b Hok Hh) as (y & Hrun & Hw).
  pose proof (handle_refs _ _ _ _ Hok Hh) as Hr. pose proof (handle_core _ _ _ _ Hok Hh) as [= E1 E2 E3 E4 E5].
  destruct Hh as (Hf & _). assert (Hi : (i < NBUF)%nat) by apply Hf. rewrite <- E4, <- E5 in *.
  destruct (released_facts l s i Hok Hi ltac:(lia)) as (Hcore & Hlen & Hdll & Hp).
  set (s' := Bio _ _ _) in Hrun. set (l' := if decide _ then _ else _) in *.
  assert (Hi' : core (buf_of s' i) = (true, dev, b, b_refcnt (buf_of s i) - 1, b_data (buf_of s i))).
  { change (buf_of s' i) with (released i s !!! i). rewrite (Hcore i), decide_True by done. unfold core. simpl. by rewrite E1, E2, E3. }
  pose proof Hi' as [= F1 F2 F3 F4 F5].
  assert (Hk : lock_of_buf s' i = freed (lock_of_buf s i)).
  { unfold lock_of_buf at 1, slk_of. simpl. by rewrite lookup_insert_eq. }
  assert (Ho : others i s s').
  { intros j Hj Hne. split; [change (buf_of s' j) with (released i s !!! j); by rewrite (Hcore j), decide_False by done|].
    unfold lock_of_buf, slk_of. simpl. by rewrite lookup_insert_ne by congruence. }
  assert (Hf' : is_for s' i b) by done.
  assert (Hok' : bio_ok l' s').
  { eapply (bio_ok_upd l l' s s' i); try done; [|apply Hok| |apply Hok].
    - split; rewrite ?F4, ?F5, ?Hk; try done; [lia|by apply (bo_data _ _ Hok)| |].
      { intros b' (_ & _ & <-). rewrite F3. by apply (bo_block _ _ Hok i). }
      intros b' (_ & _ & Hb') H0. rewrite F3 in Hb'. subst b'. apply Hclean. lia.
    - intros j b' Hne (_ & _ & Hb') Hj. rewrite F3 in Hb'. subst b'. apply Hne.
      by apply (bo_uniq _ _ Hok j i b). }
  exists s'. split; [done|]. split; [done|]. split.
  { eapply (touched_upd l l' s s' i); try done; [by left|by apply undisturbed_buf]. }
  rewrite (bview_for l' _ _ _ Hok' Hf'), (brefs_for l' _ _ _ Hok' Hf'), (bheld_for l' _ _ _ Hok' Hf'), F4, F5, Hk.
  repeat (split; [done|]). pose proof (nfree_upd s s' i Hi Ho) as Hn. rewrite F4 in Hn.
  repeat case_decide; lia.
Qed.

(** ** Other locks *)

(** The processes and the locks that are not of buffers are not part of what the
    cache keeps. *)
Section Slk.
Context (s : bio D) (x : slk).
Hypothesis Hx : forall i, slk_of x (SBuf i) = lock_of_buf s i.
Let s' : bio D := set_bi_slk x s.

Lemma slk_slot b : bslot s' b = bslot s b.
Proof.
  unfold bslot. change (bfind s' b) with (bfind s b). destruct (bfind s b) as [i|]; [|done]. simpl. f_equal.
  unfold slot_of. change (lock_of_buf s' i) with (slk_of x (SBuf i)). by rewrite Hx.
Qed.

Lemma slk_view b : bview s' b = bview s b.
Proof. unfold bview. by rewrite slk_slot. Qed.

Lemma slk_refs b : brefs s' b = brefs s b.
Proof. unfold brefs. by rewrite slk_slot. Qed.

Lemma slk_held b : bheld s' b = bheld s b.
Proof. unfold bheld. by rewrite slk_slot. Qed.

Lemma slk_handle i b :
  p_pid (proc_of (sk_sys x) me) = my_pid_of s -> handle s i b -> handle s' i b.
Proof.
  intros Hp (H1 & H2 & H3). split; [exact H1|]. change (lock_of_buf s' i) with (slk_of x (SBuf i)). rewrite Hx.
  split; [done|]. by rewrite H3.
Qed.

Lemma slk_ok l : bio_ok l s -> calm me (sk_sys x) -> bio_ok l s'.
Proof.
  intros [A1 A2 A3 A4 A5 A6 A7 A8 A9 A10 A11 A12 A13] Hc. split; try assumption.
  intros i Hi. change (lock_of_buf s' i) with (slk_of x (SBuf i)). rewrite Hx. by apply A9.
Qed.

End Slk.

(** ** [binit] *)

(** After [k] rounds of the loop of [binit] started in [s0]. *)
Record binit_inv (k : nat) s0 s : Prop := {
  bn_dll : dll (bi_bufs s) (reverse (seq 0 k));
  bn_len : length (bi_bufs s) = S NBUF;
  bn_core : forall i, core (buf_of s i) = core (buf_of s0 i);
  bn_locks : forall i, (i < k)%nat ->
    lock_idle (bi_sys s) (L_buf i) /\ sl_locked (lock_of_buf s i) = false;
  bn_lock : lock_idle (bi_sys s) L_bcache;
  bn_other : forall n, (forall i, n <> L_buf i) -> n <> L_bcache ->
    slocks (bi_sys s) !! n = slocks (bi_sys s0) !! n;
  bn_cpu : scpu (bi_sys s) = scpu (bi_sys s0);
  bn_procs : sprocs (bi_sys s) = sprocs (bi_sys s0);
  bn_dev : bi_dev s = bi_dev s0
}.

Lemma zoom_initsleeplock i nm s :
  zoom bi_slkL (initsleeplock (SBuf i) nm) s =
  Ok tt (set_bi_slk (Slk (set_slocks (<[L_buf i := Spinlock false "sleep lock" None]> (slocks (bi_sys s))) (bi_sys s))
    (<[SBuf i := Sleeplock false nm 0]> (sk_locks (bi_slk s)))) s).
Proof.
  apply (zoom_Ok bi_slkL). unfold initsleeplock.
  krun (zoom_Ok sk_sysL _ (lget bi_slkL s) _ _ (initlock_ok (L_buf i) "sleep lock" _)).
  unfold upd_slk. rewrite !bind_modify. unfold modify. f_equal. unfold set_sk_locks, slk_of. simpl.
  by rewrite !lookup_insert_eq, !insert_insert_eq.
Qed.

Lemma binit_step k s0 s :
  (k < NBUF)%nat -> binit_inv k s0 s -> exists s', binit_buf k s = Ok tt s' /\ binit_inv (S k) s0 s'.
Proof.
  intros Hk [I1 I2 I3 I4 I5 I6 I7 I8 I9]. unfold binit_buf, get_buf, upd_buf. rewrite bind_gets, !bind_modify.
  krun (zoom_initsleeplock k "buffer" (set_bi_bufs
    (alter (set_b_prev head) k (alter (set_b_next (b_next (buf_of s head))) k (bi_bufs s))) s)).
  rewrite bind_gets, bind_modify. set (s' := set_bi_bufs _ _).
  assert (E : bi_bufs (set_bi_bufs (alter (set_b_next k) head (bi_bufs s')) s') = linked (bi_bufs s) k) by done.
  set (s2 := set_bi_bufs _ s') in *. exists s2. split; [done|].
  assert (Hseq : forall j, j ∈ reverse (seq 0 k) <-> (j < k)%nat).
  { intros j. rewrite elem_of_reverse, elem_of_seq. lia. }
  split; try done.
  - rewrite E, seq_S, reverse_app. simpl. apply seg_insert.
    + exact I1.
    + rewrite elem_of_cons, Hseq. unfold head. lia.
    + rewrite reverse_Permutation. apply NoDup_seq.
    + rewrite Hseq. unfold head. lia.
    + rewrite I2. intros j. rewrite !elem_of_cons, Hseq. unfold head. lia.
  - rewrite E. unfold linked. by rewrite !length_alter.
  - intros i. unfold buf_of at 1. rewrite E. unfold linked. rewrite !core_alter by done. apply I3.
  - intros i Hi. destruct (decide (i = k)) as [->|Hne].
    + split; [exists "sleep lock"%string; apply lookup_insert_eq|].
      unfold lock_of_buf, slk_of. simpl. by rewrite lookup_insert_eq.
    + destruct (I4 i ltac:(lia)) as [[nm H1] H2].
      split; [exists nm; simpl; by rewrite lookup_insert_ne by congruence|].
      revert H2. unfold lock_of_buf, slk_of. simpl. by rewrite lookup_insert_ne by congruence.
  - destruct I5 as [nm H]. exists nm. simpl. by rewrite lookup_insert_ne by congruence.
  - intros n Hn Hn'. simpl. rewrite lookup_insert_ne by (intros <-; by apply (Hn k)). by apply I6.
Qed.

Lemma binit_ok s0 :
  length (bi_bufs s0) = S NBUF -> exists s, binit s0 = Ok tt s /\ binit_inv NBUF s0 s.
Proof.
  intros Hlen. unfold binit. krun (zoom_Ok bi_sysL _ s0 _ _ (initlock_ok L_bcache "bcache" _)).
  unfold upd_buf. rewrite !bind_modify. set (s1 := set_bi_bufs _ _).
  assert (H1 : binit_inv 0 s0 s1).
  { split; try done.
    - change (reverse (seq 0 0)) with (@nil nat). unfold dll, seg, s1. simpl. rewrite !lookup_alter_total by (rewrite ?length_alter; unfold head; lia).
      by rewrite decide_True.
    - simpl. by rewrite !length_alter.
    - intros i. unfold buf_of at 1. simpl. by rewrite !core_alter.
    - intros i Hi. lia.
    - exists "bcache"%string. apply lookup_insert_eq.
    - intros n _ Hn. simpl. by rewrite lookup_insert_ne. }
  apply (forM_seq_inv (fun k => binit_inv k s0)); [|done]. intros k s Hk Hs. by apply binit_step.
Qed.

(** A cache [binit] leaves behind, once a process runs. *)
Lemma binit_bio_ok s0 s s' :
  binit_inv NBUF s0 s -> (forall i, (i <= NBUF)%nat -> buf_of s0 i = buf_zero) -> dev <> 0 ->
  bi_bufs s' = bi_bufs s -> bi_dev s' = bi_dev s -> sk_locks (bi_slk s') = sk_locks (bi_slk s) ->
  calm me (bi_sys s') -> dev_ready (bi_dev s') ->
  (forall b, length (dk_get (the_disk s') b) = Z.to_nat BSIZE) ->
  bio_ok (reverse (seq 0 NBUF)) s' /\ nfree s' = NBUF /\ forall b, bfind s' b = None.
Proof.
  intros Hb Hz Hd E1 E2 E3 Hc Hr Hl.
  assert (Hcore : forall i, (i <= NBUF)%nat -> core (buf_of s' i) = core buf_zero).
  { intros i Hi. unfold buf_of. rewrite E1. fold (buf_of s i). rewrite (bn_core _ _ _ Hb), Hz by done. done. }
  assert (Hno : forall i b, ~ is_for s' i b).
  { intros i b (Hi & Hdev & _). destruct (core_fields _ _ (Hcore i ltac:(lia))) as (_ & F & _).
    rewrite F in Hdev. simpl in Hdev. congruence. }
  split; [|split].
  - split; try done.
    + rewrite E1. apply Hb.
    + rewrite E1. apply Hb.
    + apply reverse_Permutation.
    + intros i j b H. by apply Hno in H.
    + intros i Hi. by destruct (core_fields _ _ (Hcore i ltac:(lia))) as (_ & _ & _ & -> & _).
    + intros i Hi. unfold lock_of_buf, slk_of. rewrite E3.
      destruct (bn_locks _ _ _ Hb i Hi) as [_ H]. unfold lock_of_buf, slk_of in H. congruence.
    + intros i Hi. destruct (core_fields _ _ (Hcore i ltac:(lia))) as (_ & _ & _ & _ & ->).
      apply length_replicate.
    + intros i b H. by apply Hno in H.
    + intros i b H. by apply Hno in H.
    + intros i b H. by apply Hno in H.
  - unfold nfree. enough (E : filter (fun i => b_refcnt (buf_of s' i) = 0) (seq 0 NBUF) = seq 0 NBUF)
      by (rewrite E; apply length_seq).
    assert (Hin : forall i, i ∈ seq 0 NBUF -> b_refcnt (buf_of s' i) = 0).
    { intros i Hi%elem_of_seq. by destruct (core_fields _ _ (Hcore i ltac:(lia))) as (_ & _ & _ & -> & _). }
    revert Hin. generalize (seq 0 NBUF). induction l as [|x l IH]; intros Hin; [done|].
    rewrite filter_cons, decide_True by (apply Hin; mem). rewrite IH; [done|]. intros i Hi. apply Hin. mem.
  - intros b. apply bfind_none. intros i. apply Hno.
Qed.

(** The buffer that [bread] takes for a block that is not cached. *)
Lemma bread_recycles l s b i :
  bio_ok l s -> bfind s b = None -> 0 <= b < 2 ^ 31 ->
  List.find (fun i => b_refcnt (buf_of s i) =? 0) (reverse l) = Some i ->
  exists s', bread rounds dev b s = Ok i s'.
Proof.
  intros Hok E Hblk Hfree. apply List.find_some in Hfree as Hi. destruct Hi as [Hi H0].
  apply list_elem_of_In in Hi. rewrite elem_of_reverse in Hi. apply (lru_lt l s i Hok) in Hi.
  apply Z.eqb_eq in H0.
  assert (Hk : sl_locked (lock_of_buf s i) = false).
  { destruct (sl_locked _) eqn:El; [|done]. apply (bo_lock _ _ Hok) in El; [lia|done]. }
  unfold bread. krun (bget_recycled l s b i Hok E Hfree Hi Hk). set (s1 := bset _ _ _ _).
  destruct (disk_read_ok me i s1) as (y & d & Hrd & _); [apply Hok|apply Hok|done| | |].
  { simpl. rewrite length_alter. apply Hok. }
  { unfold s1, bset. rewrite buf_of_alter by (done || apply Hok). by rewrite decide_True. }
  unfold get_buf. rewrite bind_gets. unfold s1 at 1, bset.
  rewrite buf_of_alter by (done || apply Hok). rewrite decide_True by done. simpl. eexists.
  rewrite (bind_Ok _ _ _ tt (set_bi_bufs (alter (set_b_valid true) i (bi_bufs
    (Bio (set_sk_sys y (bi_slk s1)) (alter (fun x => set_b_disk false (set_b_data (dk_get (dev_disk (bi_dev s1)) (b_blockno (buf_of s1 i))) x)) i (bi_bufs s1)) d)))
    (Bio (set_sk_sys y (bi_slk s1)) (alter (fun x => set_b_disk false (set_b_data (dk_get (dev_disk (bi_dev s1)) (b_blockno (buf_of s1 i))) x)) i (bi_bufs s1)) d)));
    [done|]. by krun Hrd.
Qed.

(** A computed change of the contents. *)
Lemma upd_data_eq s i g :
  upd_buf i (fun x => set_b_data (g (b_data x)) x) s = upd_buf i (set_b_data (g (b_data (buf_of s i)))) s.
Proof.
  unfold upd_buf, modify. do 2 f_equal. apply list_eq. intros j. destruct (decide (i = j)) as [->|Hne].
  - rewrite !list_lookup_alter_eq. unfold buf_of. rewrite list_lookup_total_alt.
    by destruct (bi_bufs s !! j).
  - by rewrite !list_lookup_alter_ne.
Qed.

(** ** Properties *)

(** C35: [bread] returns the locked buffer of the block with the block's current
    contents and one more reference.  Whatever buffer was recycled for it, no
    other block changes for the clients: neither its contents nor its references
    nor its lock.  With every buffer in use and the block not cached, it panics. *)
Theorem bread_correct (l : list nat) (s : bio D) (b : Z)
    (Hok : bio_ok l s) (Hh : bheld s b = false) (Hr : brefs s b + 1 < 2 ^ 32) (Hblk : 0 <= b < 2 ^ 31) :
  (0 < brefs s b \/ (0 < nfree s)%nat ->
   exists i s', bread rounds dev b s = Ok i s' /\ bio_ok l s' /\ touched b s s' /\ handle s' i b /\
     b_data (buf_of s' i) = bview s b /\ bview s' b = bview s b /\ brefs s' b = brefs s b + 1 /\
     the_disk s' = the_disk s) /\
  (bfind s b = None -> nfree s = 0%nat -> exists s', bread rounds dev b s = Panic "bget: no buffers" s').
Proof.
  split.
  - intros H. destruct (bread_ok l s b Hok Hh Hr Hblk) as (i & s' & ? & ? & ? & ? & ? & ? & ? & ? & ? & ?).
    + intros ?. destruct H; [lia|done].
    + exists i, s'. tauto.
  - intros Hf Hn. destruct (bget_full l s b Hok Hf Hn) as (s' & Hs). exists s'. unfold bread. by krun Hs.
Qed.

(** A block that was read, changed, written with [bwrite] and released holds
    the new contents for every later [bread] and on the disk, whether or not the
    buffer is recycled in between; the reference counts and the number of free
    buffers are those of before, and no other block changed. *)
Theorem bwrite_roundtrip (l : list nat) (s : bio D) (b : Z) (x : block)
    (Hok : bio_ok l s) (Hh : bheld s b = false) (Hr : brefs s b + 1 < 2 ^ 32) (Hblk : 0 <= b < 2 ^ 31)
    (Hn : brefs s b = 0 -> (0 < nfree s)%nat) (Hx : length x = Z.to_nat BSIZE) :
  exists i s1 s2 s3 s4 l', bread rounds dev b s = Ok i s1 /\ upd_buf i (set_b_data x) s1 = Ok tt s2 /\
    bwrite i s2 = Ok tt s3 /\ brelse i s3 = Ok tt s4 /\ bio_ok l' s4 /\
    bview s4 b = x /\ the_disk s4 = dk_put b x (the_disk s) /\
    brefs s4 b = brefs s b /\ nfree s4 = nfree s /\
    (forall b', b' <> b -> bview s4 b' = bview s b' /\ brefs s4 b' = brefs s b').
Proof.
  destruct (bread_ok l s b Hok Hh Hr Hblk Hn) as (i & s1 & R1 & Hok1 & T1 & H1 & _ & V1 & N1 & _ & D1 & F1).
  destruct (set_data_ok l s1 i b x Hok1 H1 Hx) as (s2 & R2 & Hok2 & T2 & H2 & V2 & N2 & _ & F2 & D2).
  destruct (bwrite_ok l s2 i b Hok2 H2) as (s3 & R3 & Hok3 & T3 & H3 & V3 & N3 & _ & F3 & D3).
  destruct (brelse_ok l s3 i b Hok3 H3) as (s4 & R4 & Hok4 & T4 & V4 & N4 & _ & D4 & F4).
  { intros _. rewrite D3, dk_get_put, decide_True by done. congruence. }
  exists i, s1, s2, s3, s4. eexists. repeat (split; [eassumption|]).
  split; [congruence|]. split; [congruence|]. split; [lia|]. split.
  - rewrite F4, F3, F2, <- F1. do 2 case_decide; lia.
  - intros b' Hb. split.
    + by rewrite (to_view _ _ _ T4), (to_view _ _ _ T3), (to_view _ _ _ T2), (to_view _ _ _ T1).
    + by rewrite (to_refs _ _ _ T4), (to_refs _ _ _ T3), (to_refs _ _ _ T2), (to_refs _ _ _ T1).
Qed.

(** The replacement policy: the last [brelse] of a buffer makes it the most
    recently used, and a block that is not cached takes the least recently used
    buffer that no one refers to. *)
Theorem lru_correct (l : list nat) (s : bio D) (Hok : bio_ok l s) :
  (forall i b, handle s i b -> brefs s b = 1 -> bview s b = dk_get (the_disk s) b ->
     exists s', brelse i s = Ok tt s' /\ bio_ok (i :: filter (fun j => j <> i) l) s') /\
  (forall b l1 i l2, bfind s b = None -> 0 <= b < 2 ^ 31 -> l = l1 ++ i :: l2 -> b_refcnt (buf_of s i) = 0 ->
     Forall (fun j => b_refcnt (buf_of s j) <> 0) l2 -> exists s', bread rounds dev b s = Ok i s').
Proof.
  split.
  - intros i b Hh H1 Hc. destruct (brelse_ok l s i b Hok Hh) as (s' & R & Hok' & _); [done|].
    rewrite decide_True in Hok' by done. by exists s'.
  - intros b l1 i l2 Hf Hblk -> H0 Hl2. apply (bread_recycles (l1 ++ i :: l2)); [done..|].
    rewrite reverse_app, reverse_cons, <- app_assoc.
    assert (E : forall l, Forall (fun j => b_refcnt (buf_of s j) <> 0) l ->
      List.find (fun i => b_refcnt (buf_of s i) =? 0) (l ++ [i] ++ reverse l1) = Some i).
    { induction 1 as [|j l Hj _ IH]; simpl; [by rewrite H0|].
      by destruct (Z.eqb_spec (b_refcnt (buf_of s j)) 0). }
    apply E. by apply Forall_reverse.
Qed.

(** [binit] links all the buffers, initialises their locks, and leaves a
    cache that satisfies the invariant once a process runs on the hart: every
    buffer is free and no block is cached. *)
Theorem binit_correct (s0 : bio D) (Hz : bi_bufs s0 = replicate (S NBUF) buf_zero)
    (Hd : dev <> 0) (Hr : dev_ready (bi_dev s0))
    (Hl : forall b, length (dk_get (the_disk s0) b) = Z.to_nat BSIZE) :
  exists s, binit s0 = Ok tt s /\ lock_idle (bi_sys s) L_bcache /\
    (forall i, (i < NBUF)%nat -> lock_idle (bi_sys s) (L_buf i)) /\
    forall y, calm me y -> let s' := Bio (set_sk_sys y (bi_slk s)) (bi_bufs s) (bi_dev s) in
      bio_ok (reverse (seq 0 NBUF)) s' /\ nfree s' = NBUF /\ forall b, bview s' b = dk_get (the_disk s0) b.
Proof.
  destruct (binit_ok s0) as (s & Hs & Hb); [by rewrite Hz, length_replicate|].
  exists s. split; [done|]. split; [apply Hb|]. split; [intros i Hi; by apply Hb|]. intros y Hc s'.
  assert (Ed : bi_dev s' = bi_dev s0) by apply Hb.
  assert (Hz' : forall i, (i <= NBUF)%nat -> buf_of s0 i = buf_zero).
  { intros i Hi. unfold buf_of. rewrite Hz, list_lookup_total_alt, lookup_replicate_2 by lia. done. }
  destruct (binit_bio_ok s0 s s' Hb Hz' Hd) as (H1 & H2 & H3);
    [reflexivity|reflexivity|reflexivity|exact Hc|by rewrite Ed| |].
  - unfold the_disk. rewrite Ed. exact Hl.
  - split; [exact H1|]. split; [exact H2|]. intros b. rewrite bview_cold by apply H3.
    unfold the_disk. by rewrite Ed.
Qed.

End Bcache.

(** ** A disk without delays *)

(** A driver that completes a transfer at once. *)
#[export] Instance ram_driver : DiskDriver disk := {
  virtio_disk_rw := fun i write s =>
    let x := buf_of s i in
    Ok tt (if write : bool
           then Bio (bi_slk s) (alter (set_b_disk false) i (bi_bufs s)) (dk_put (b_blockno x) (b_data x) (bi_dev s))
           else Bio (bi_slk s)
                  (alter (fun y => set_b_disk false (set_b_data (dk_get (bi_dev s) (b_blockno x)) y)) i (bi_bufs s))
                  (bi_dev s));
  dev_disk := fun d => d
}.

#[export] Instance ram_driver_ok : DiskDriverOk disk.
Proof.
  refine {| dev_ready := fun _ => True |}; intros me i s Hc _ Hi Hl _; exists (bi_sys s); simpl;
    eexists; (split; [|by split]); simpl; by destruct s as [[] ? ?].
Defined.

Definition empty_disk : disk := Disk ∅ [].

Definition ram_boot_on (d : disk) : bio disk := Bio (Slk calm_sys ∅) (replicate (S NBUF) buf_zero) d.

Definition ram_boot : bio disk := ram_boot_on empty_disk.

Lemma empty_disk_get b : dk_get empty_disk b = zero_block.
Proof. reflexivity. Qed.

Lemma empty_disk_len b : length (dk_get empty_disk b) = Z.to_nat BSIZE.
Proof. rewrite empty_disk_get. apply length_replicate. Qed.

(** The cache after [binit], with a process running. *)
Lemma ram_cache_on (d : disk) (y : sys) :
  (forall b, length (dk_get d b) = Z.to_nat BSIZE) -> calm 0 y ->
  exists s : bio disk, bio_ok 0 1 (reverse (seq 0 NBUF)) s /\ nfree s = NBUF /\
    (forall b, bfind 1 s b = None) /\ the_disk s = d /\
    (forall i, (i < NBUF)%nat -> b_refcnt (buf_of s i) = 0) /\ bi_sys s = y.
Proof.
  intros Hlen Hy. destruct (binit_ok (ram_boot_on d)) as (s & Hs & Hb); [apply length_replicate|].
  assert (Ed : bi_dev s = d) by apply Hb.
  assert (Hz : forall i, (i <= NBUF)%nat -> buf_of (ram_boot_on d) i = buf_zero).
  { intros i Hi. unfold buf_of. cbn [bi_bufs ram_boot_on].
    by rewrite list_lookup_total_alt, lookup_replicate_2 by lia. }
  set (s' := Bio (set_sk_sys y (bi_slk s)) (bi_bufs s) (bi_dev s)). exists s'.
  destruct (binit_bio_ok 0 1 (ram_boot_on d) s s' Hb Hz) as (H1 & H2 & H3);
    [lia|reflexivity|reflexivity|reflexivity|exact Hy|exact I|..].
  - intros b. unfold the_disk. simpl. rewrite Ed. apply Hlen.
  - split; [exact H1|]. split; [exact H2|]. split; [exact H3|]. split; [exact Ed|]. split; [|reflexivity]. intros i Hi.
    assert (E := bn_core _ _ _ Hb i). rewrite Hz in E by lia.
    exact (proj1 (proj2 (proj2 (proj2 (core_fields _ _ E))))).
Qed.

Lemma ram_cache : exists s : bio disk, bio_ok 0 1 (reverse (seq 0 NBUF)) s /\ nfree s = NBUF /\
  (forall b, bfind 1 s b = None) /\ the_disk s = empty_disk /\
  forall i, (i < NBUF)%nat -> b_refcnt (buf_of s i) = 0.
Proof.
  destruct (ram_cache_on empty_disk calm_sys empty_disk_len calm_sys_ok) as (s & H1 & H2 & H3 & H4 & H5 & _). by exists s.
Qed.

Lemma binit_correct_witness : exists s, binit ram_boot = Ok tt s.
Proof.
  destruct (binit_correct 0 1 ram_boot eq_refl ltac:(done) I empty_disk_len) as (s & Hs & _). by exists s.
Defined.

Lemma bread_correct_witness : exists s i s', bread (D := disk) 3 1 33 s = Ok i s' /\ b_data (buf_of s' i) = zero_block.
Proof.
  destruct ram_cache as (s & Hok & Hn & Hf & Hd & H0).
  destruct (bread_correct 3 0 1 _ s 33 Hok) as [H _].
  - unfold bheld, bslot. by rewrite Hf.
  - by rewrite brefs_cold.
  - lia.
  - destruct H as (i & s' & H1 & _ & _ & _ & H2 & _).
    + right. rewrite Hn. unfold NBUF. lia.
    + exists s, i, s'. split; [exact H1|]. rewrite H2, bview_cold, Hd by done. reflexivity.
Defined.

Lemma bwrite_roundtrip_witness : exists s i s1 s2 s3 s4, bread (D := disk) 3 1 33 s = Ok i s1 /\
  upd_buf i (set_b_data (replicate (Z.to_nat BSIZE) Byte.xff)) s1 = Ok tt s2 /\ bwrite i s2 = Ok tt s3 /\
  brelse i s3 = Ok tt s4 /\ the_disk s4 = Disk ∅ [(33, replicate (Z.to_nat BSIZE) Byte.xff)].
Proof.
  destruct ram_cache as (s & Hok & Hn & Hf & Hd & H0). exists s.
  destruct (bwrite_roundtrip 3 0 1 _ s 33 (replicate (Z.to_nat BSIZE) Byte.xff) Hok)
    as (i & s1 & s2 & s3 & s4 & l' & H1 & H2 & H3 & H4 & _ & _ & H5 & _).
  - unfold bheld, bslot. by rewrite Hf.
  - by rewrite brefs_cold.
  - lia.
  - intros _. rewrite Hn. unfold NBUF. lia.
  - apply length_replicate.
  - exists i, s1, s2, s3, s4. rewrite Hd in H5. by repeat (split; [assumption|]).
Defined.

Lemma lru_correct_witness : exists s s', bread (D := disk) 3 1 33 s = Ok 0%nat s'.
Proof.
  destruct ram_cache as (s & Hok & Hn & Hf & Hd & H0). exists s.
  destruct (lru_correct 3 0 1 _ s Hok) as [_ H].
  apply (H 33 (reverse (seq 1 (NBUF - 1))) 0%nat []); [apply Hf|lia|reflexivity| |constructor].
  apply H0. unfold NBUF. lia.
Defined.

(** From here on the operations are used through the lemmas above. *)
#[global] Opaque bread bwrite brelse bpin bunpin upd_buf.
#[global] Opaque bview brefs bheld nfree bfind dk_get.
