(* ===== verification/BufCache.v ===== *)
(** * The interface of the buffer cache

    What [log.c] and [fs.c] rely on: observations of the cache per block, and
    for each operation the observations it changes.  [Bcache] discharges it. *)

From S2P Require Import Prelude Riscv Memory Sys Spinlock Proc Sleeplock Bio Block Bcache.

(** What a client can observe: the invariant, the contents of a block, its
    references, whether its buffer is locked, the number of buffers that can be
    recycled, and which buffer the caller holds for which block. *)
Record observations (D : Type) := Observations {
  o_ok : bio D -> Prop;
  o_view : bio D -> Z -> block;
  o_refs : bio D -> Z -> Z;
  o_held : bio D -> Z -> bool;
  o_free : bio D -> nat;
  o_handle : bio D -> nat -> Z -> Prop
}.

Arguments o_ok {D} o t.
Arguments o_view {D} o t b.
Arguments o_refs {D} o t b.
Arguments o_held {D} o t b.
Arguments o_free {D} o t.
Arguments o_handle {D} o t i b.

(** Block [b] now has contents [x], [r] references and the lock state [h]; no
    other block changed, and sleeping processes at most were woken. *)
Record changed {D} (O : observations D) (b : Z) (x : block) (r : Z) (h : bool) (t t' : bio D) : Prop := {
  ch_view : forall b', o_view O t' b' = if decide (b' = b) then x else o_view O t b';
  ch_refs : forall b', o_refs O t' b' = if decide (b' = b) then r else o_refs O t b';
  ch_held : forall b', o_held O t' b' = if decide (b' = b) then h else o_held O t b';
  ch_handle : forall j b', b' <> b -> o_handle O t j b' -> o_handle O t' j b';
  ch_slk : undisturbed (bi_slk t) (bi_slk t')
}.

(** Nothing changed. *)
Record same_cache {D} `{!DiskDriver D} (O : observations D) (t t' : bio D) : Prop := {
  sa_view : forall b, o_view O t' b = o_view O t b;
  sa_refs : forall b, o_refs O t' b = o_refs O t b;
  sa_held : forall b, o_held O t' b = o_held O t b;
  sa_free : o_free O t' = o_free O t;
  sa_handle : forall j b, o_handle O t j b -> o_handle O t' j b;
  sa_disk : the_disk t' = the_disk t
}.

Class CacheOk {D} `{!DiskDriver D} (rounds me : nat) (dev : Z) (O : observations D) : Prop := {
  cache_calm : forall t, o_ok O t -> calm me (bi_sys t);
  cache_slk : forall t x, o_ok O t -> calm me (sk_sys x) ->
    p_pid (proc_of (sk_sys x) me) = p_pid (proc_of (bi_sys t) me) ->
    (forall i, slk_of x (SBuf i) = slk_of (bi_slk t) (SBuf i)) ->
    o_ok O (set_bi_slk x t) /\ same_cache O t (set_bi_slk x t);
  cache_refs : forall t b, o_ok O t -> 0 <= o_refs O t b < 2 ^ 32;
  cache_len : forall t b, o_ok O t -> length (o_view O t b) = Z.to_nat BSIZE;
  cache_disk_len : forall t b, o_ok O t -> length (dk_get (the_disk t) b) = Z.to_nat BSIZE;
  cache_clean : forall t b, o_ok O t -> o_refs O t b = 0 ->
    o_held O t b = false /\ o_view O t b = dk_get (the_disk t) b;
  handle_held : forall t i b, o_ok O t -> o_handle O t i b -> o_held O t b = true /\ 0 < o_refs O t b;
  handle_buf : forall t i b, o_ok O t -> o_handle O t i b ->
    b_data (buf_of t i) = o_view O t b /\ b_blockno (buf_of t i) = b;
  bread_spec : forall t b, o_ok O t -> o_held O t b = false -> o_refs O t b + 1 < 2 ^ 32 -> 0 <= b < 2 ^ 31 ->
    (o_refs O t b = 0 -> (0 < o_free O t)%nat) ->
    exists i t', bread rounds dev b t = Ok i t' /\ o_ok O t' /\ o_handle O t' i b /\
      changed O b (o_view O t b) (o_refs O t b + 1) true t t' /\ the_disk t' = the_disk t /\
      (o_free O t' + (if decide (o_refs O t b = 0%Z) then 1 else 0) = o_free O t)%nat;
  set_data_spec : forall t i b x, o_ok O t -> o_handle O t i b -> length x = Z.to_nat BSIZE ->
    exists t', upd_buf i (set_b_data x) t = Ok tt t' /\ o_ok O t' /\ o_handle O t' i b /\
      changed O b x (o_refs O t b) true t t' /\ the_disk t' = the_disk t /\ o_free O t' = o_free O t;
  bwrite_spec : forall t i b, o_ok O t -> o_handle O t i b ->
    exists t', bwrite i t = Ok tt t' /\ o_ok O t' /\ o_handle O t' i b /\
      changed O b (o_view O t b) (o_refs O t b) true t t' /\
      the_disk t' = dk_put b (o_view O t b) (the_disk t) /\ o_free O t' = o_free O t;
  bpin_spec : forall t i b, o_ok O t -> o_handle O t i b -> o_refs O t b + 1 < 2 ^ 32 ->
    exists t', bpin i t = Ok tt t' /\ o_ok O t' /\ o_handle O t' i b /\
      changed O b (o_view O t b) (o_refs O t b + 1) true t t' /\ the_disk t' = the_disk t /\ o_free O t' = o_free O t;
  bpin_under : forall t i t' lk, o_ok O t -> static_lock lk -> lk <> L_bcache -> bpin i t = Ok tt t' ->
    bpin i (lset bi_sysL (locked lk (bi_sys t)) t) = Ok tt (lset bi_sysL (locked lk (bi_sys t)) t') /\
    bi_sys t' = bi_sys t;
  bunpin_spec : forall t i b, o_ok O t -> o_handle O t i b -> 1 < o_refs O t b ->
    exists t', bunpin i t = Ok tt t' /\ o_ok O t' /\ o_handle O t' i b /\
      changed O b (o_view O t b) (o_refs O t b - 1) true t t' /\ the_disk t' = the_disk t /\ o_free O t' = o_free O t;
  brelse_spec : forall t i b, o_ok O t -> o_handle O t i b ->
    (o_refs O t b = 1 -> o_view O t b = dk_get (the_disk t) b) ->
    exists t', brelse i t = Ok tt t' /\ o_ok O t' /\
      changed O b (o_view O t b) (o_refs O t b - 1) false t t' /\ the_disk t' = the_disk t /\
      (o_free O t' = o_free O t + if decide (o_refs O t b = 1%Z) then 1 else 0)%nat
}.

Lemma cache_sys {D} `{!DiskDriver D} {rounds me : nat} {dev : Z} {O : observations D} `{!CacheOk rounds me dev O} t y :
  o_ok O t -> calm me y -> p_pid (proc_of y me) = p_pid (proc_of (bi_sys t) me) ->
  o_ok O (lset bi_sysL y t) /\ same_cache O t (lset bi_sysL y t).
Proof. intros Hok Hc Hp. exact (cache_slk t (set_sk_sys y (bi_slk t)) Hok Hc Hp (fun _ => eq_refl)). Qed.

(** ** The cache of [bio.c] *)

Section Instance.
Context {D : Type} `{!DiskDriver D, !DiskDriverOk D} (rounds me : nat) (dev : Z).

Definition bcache_obs : observations D := {|
  o_ok := fun t => exists l, bio_ok me dev l t;
  o_view := bview dev;
  o_refs := brefs dev;
  o_held := bheld dev;
  o_free := nfree;
  o_handle := handle me dev
|}.

Lemma touched_changed b x r h t t' :
  touched me dev b t t' -> bview dev t' b = x -> brefs dev t' b = r -> bheld dev t' b = h ->
  changed bcache_obs b x r h t t'.
Proof.
  intros [T1 T2 T3 T4 T5] V R H. split; [| | |exact T4|exact T5]; intros b'; simpl;
    (case_decide as E; [subst b'; assumption|]); [exact (T1 b' E)|exact (T2 b' E)|exact (T3 b' E)].
Qed.

(** Only the hart, its locks or the processes changed. *)
#[export] Instance bcache_ok : CacheOk rounds me dev bcache_obs.
Proof.
  split; simpl.
  - intros t [l Hok]. apply Hok.
  - intros t x [l Hok] Hc Hp Hx. split; [exists l; by apply slk_ok|].
    split; try reflexivity; intros; simpl; [by apply slk_view|by apply slk_refs|by apply slk_held|by apply slk_handle].
  - intros t b [l Hok]. by apply (brefs_range me dev l).
  - intros t b [l Hok]. by apply (bview_len me dev l).
  - intros t b [l Hok]. apply (bo_disk _ _ _ _ Hok).
  - intros t b [l Hok] Hr. by apply (unused_clean me dev l).
  - intros t i b [l Hok] Hh. split.
    + destruct Hh as (H1 & H2 & _). by rewrite (bheld_for me dev l t i b Hok H1).
    + apply (handle_refs me dev l t i b Hok Hh).
  - intros t i b [l Hok] Hh. split; [by apply (handle_data me dev l)|]. apply Hh.
  - intros t b [l Hok] Hh Hr Hb Hn.
    destruct (bread_ok rounds me dev l t b Hok Hh Hr Hb Hn) as (i & t' & E & O & T & H & _ & V & R & G & Dk & F).
    exists i, t'. split; [exact E|]. split; [by exists l|]. split; [exact H|].
    split; [by apply touched_changed|]. split; [exact Dk|exact F].
  - intros t i b x [l Hok] Hh Hx.
    destruct (set_data_ok me dev l t i b x Hok Hh Hx) as (t' & E & O & T & H & V & R & G & F & Dk).
    exists t'. split; [exact E|]. split; [by exists l|]. split; [exact H|].
    split; [by apply touched_changed|]. split; [exact Dk|exact F].
  - intros t i b [l Hok] Hh.
    destruct (bwrite_ok me dev l t i b Hok Hh) as (t' & E & O & T & H & V & R & G & F & Dk).
    exists t'. split; [exact E|]. split; [by exists l|]. split; [exact H|].
    split; [by apply touched_changed|]. split; [exact Dk|exact F].
  - intros t i b [l Hok] Hh Hr.
    destruct (bpin_ok me dev l t i b Hok Hh Hr) as (t' & E & O & T & H & V & R & G & F & Dk).
    exists t'. split; [exact E|]. split; [by exists l|]. split; [exact H|].
    split; [by apply touched_changed|]. split; [exact Dk|exact F].
  - intros t i t' lk [l Hok] Hlk Hne E. pose proof (bo_calm _ _ _ _ Hok) as Hc.
    rewrite bpin_run in E; [|exact (ca_settled _ _ Hc)|exact (ca_idle _ _ Hc L_bcache I)]. injection E as <-. split; [|done].
    rewrite bpin_run; [done|by apply (calm_locked_settled me)|].
    destruct (ca_idle _ _ Hc L_bcache I) as [nm Hnm]. exists nm. simpl. by rewrite lookup_insert_ne.
  - intros t i b [l Hok] Hh Hr.
    destruct (bunpin_ok me dev l t i b Hok Hh Hr) as (t' & E & O & T & H & V & R & G & F & Dk).
    exists t'. split; [exact E|]. split; [by exists l|]. split; [exact H|].
    split; [by apply touched_changed|]. split; [exact Dk|exact F].
  - intros t i b [l Hok] Hh Hc.
    destruct (brelse_ok me dev l t i b Hok Hh Hc) as (t' & E & O & T & V & R & G & Dk & F).
    exists t'. split; [exact E|]. split; [by eexists|].
    split; [by apply touched_changed|]. split; [exact Dk|exact F].
Qed.

End Instance.
