(* ===== verification/Log.v ===== *)
(** * [kernel/log.c]: the write-ahead log

    The in-memory log header and the operations over the buffer cache.  An
    index outside [log.lh.block] is undefined behaviour of the C program and a
    [panic] of the model.  [rounds] bounds how often [begin_op] may be woken to
    find the log still full. *)

From S2P Require Import Prelude Riscv Memory Sys Spinlock Proc Sleeplock Bio Block.

(** [struct superblock] of [fs.h] *)
Record superblock := Superblock {
  sb_magic : Z;
  sb_size : Z;
  sb_nblocks : Z;
  sb_ninodes : Z;
  sb_nlog : Z;
  sb_logstart : Z;
  sb_inodestart : Z;
  sb_bmapstart : Z
}.

(** [sizeof(struct logheader)]: [n] and [LOGSIZE] block numbers. *)
Definition sizeof_logheader : Z := 4 * (1 + LOGSIZE).

(** [struct log]; [lg_n] and [lg_block] are its [lh]. *)
Record log (D : Type) := Log {
  lg_bio : bio D;
  lg_start : Z;
  lg_size : Z;
  lg_outstanding : Z;
  lg_committing : bool;
  lg_dev : Z;
  lg_n : Z;
  lg_block : list Z
}.

Arguments Log {D} _ _ _ _ _ _ _ _.
Arguments lg_bio {D} l.
Arguments lg_start {D} l.
Arguments lg_size {D} l.
Arguments lg_outstanding {D} l.
Arguments lg_committing {D} l.
Arguments lg_dev {D} l.
Arguments lg_n {D} l.
Arguments lg_block {D} l.

(** [lh->n] and [lh->block[i]], for the data of a block as [struct logheader] *)
Definition hdr_n (x : block) : Z := s32 (get32 x 0).

Definition hdr_block (x : block) (i : nat) : Z := s32 (get32 x (4 + 4 * i)).

Section Log.
Context {D : Type} `{!DiskDriver D} (rounds : nat).

Definition set_lg_bio (x : bio D) (s : log D) : log D :=
  Log x (lg_start s) (lg_size s) (lg_outstanding s) (lg_committing s) (lg_dev s) (lg_n s) (lg_block s).

Definition set_lg_start (x : Z) (s : log D) : log D :=
  Log (lg_bio s) x (lg_size s) (lg_outstanding s) (lg_committing s) (lg_dev s) (lg_n s) (lg_block s).

Definition set_lg_size (x : Z) (s : log D) : log D :=
  Log (lg_bio s) (lg_start s) x (lg_outstanding s) (lg_committing s) (lg_dev s) (lg_n s) (lg_block s).

Definition set_lg_outstanding (x : Z) (s : log D) : log D :=
  Log (lg_bio s) (lg_start s) (lg_size s) x (lg_committing s) (lg_dev s) (lg_n s) (lg_block s).

Definition set_lg_committing (x : bool) (s : log D) : log D :=
  Log (lg_bio s) (lg_start s) (lg_size s) (lg_outstanding s) x (lg_dev s) (lg_n s) (lg_block s).

Definition set_lg_dev (x : Z) (s : log D) : log D :=
  Log (lg_bio s) (lg_start s) (lg_size s) (lg_outstanding s) (lg_committing s) x (lg_n s) (lg_block s).

Definition set_lg_n (x : Z) (s : log D) : log D :=
  Log (lg_bio s) (lg_start s) (lg_size s) (lg_outstanding s) (lg_committing s) (lg_dev s) x (lg_block s).

Definition set_lg_block (x : list Z) (s : log D) : log D :=
  Log (lg_bio s) (lg_start s) (lg_size s) (lg_outstanding s) (lg_committing s) (lg_dev s) (lg_n s) x.

Definition lg_bioL : lens (log D) (bio D) := Lens lg_bio set_lg_bio.

Definition lg_sys (s : log D) : sys := bi_sys (lg_bio s).

Definition lg_sysL : lens (log D) sys :=
  Lens lg_sys (fun x s => set_lg_bio (lset bi_sysL x (lg_bio s)) s).

#[export] Instance lg_bioL_laws : LensLaws lg_bioL.
Proof. by split; intros; try destruct s. Qed.

#[export] Instance lg_sysL_laws : LensLaws lg_sysL.
Proof. by split; intros; try destruct s as [[[] ? ?] ? ? ? ? ? ? ?]. Qed.

(** [log.lh.block[i]] and [log.lh.block[i] = v] *)
Definition get_block (i : nat) : M (log D) Z :=
  if decide (Z.of_nat i < LOGSIZE) then gets (fun s => lg_block s !!! i) else panic "undefined: log.lh.block".

Definition put_block (i : nat) (v : Z) : M (log D) unit :=
  if decide (Z.of_nat i < LOGSIZE) then modify (fun s => set_lg_block (<[i := v]> (lg_block s)) s)
  else panic "undefined: log.lh.block".

(** [for (tail = 0; tail < log.lh.n; tail++)] *)
Definition for_tail (body : nat -> M (log D) unit) : M (log D) unit :=
  let! n := gets lg_n in
  forM (seq 0 (Z.to_nat n)) body.

(** [bread(log.dev, b)] *)
Definition log_bread (b : Z) : M (log D) nat :=
  let! dev := gets lg_dev in
  zoom lg_bioL (bread rounds (u32 dev) (u32 b)).

(** [memmove(to->data, from->data, BSIZE)] *)
Definition copy_buf (to from : nat) : M (bio D) unit :=
  let! x := get_buf from in
  upd_buf to (set_b_data (b_data x)).

Definition install_one (recovering : bool) (tail : nat) : M (log D) unit :=
  let! start := gets lg_start in
  let! lbuf := log_bread (start + Z.of_nat tail + 1) in
  let! b := get_block tail in
  let! dbuf := log_bread b in
  zoom lg_bioL (copy_buf dbuf lbuf) ;;
  zoom lg_bioL (bwrite dbuf) ;;
  (if recovering then ret tt else zoom lg_bioL (bunpin dbuf)) ;;
  zoom lg_bioL (brelse lbuf) ;;
  zoom lg_bioL (brelse dbuf).

Definition install_trans (recovering : bool) : M (log D) unit := for_tail (install_one recovering).

Definition read_head : M (log D) unit :=
  let! start := gets lg_start in
  let! buf := log_bread start in
  let! x := zoom lg_bioL (get_buf buf) in
  modify (set_lg_n (hdr_n (b_data x))) ;;
  for_tail (fun i => put_block i (hdr_block (b_data x) i)) ;;
  zoom lg_bioL (brelse buf).

(** [hb->block[i] = log.lh.block[i]] *)
Definition write_head_one (buf i : nat) : M (log D) unit :=
  let! v := get_block i in
  zoom lg_bioL (upd_buf buf (fun x => set_b_data (put32 (4 + 4 * i) v (b_data x)) x)).

Definition write_head : M (log D) unit :=
  let! start := gets lg_start in
  let! buf := log_bread start in
  let! n := gets lg_n in
  zoom lg_bioL (upd_buf buf (fun x => set_b_data (put32 0 n (b_data x)) x)) ;;
  for_tail (write_head_one buf) ;;
  zoom lg_bioL (bwrite buf) ;;
  zoom lg_bioL (brelse buf).

Definition recover_from_log : M (log D) unit :=
  read_head ;;
  install_trans true ;;
  modify (set_lg_n 0) ;;
  write_head.

Definition initlog (dev : Z) (sb : superblock) : M (log D) unit :=
  if BSIZE <=? sizeof_logheader then panic "initlog: too big logheader" else
  zoom lg_sysL (initlock L_log "log") ;;
  modify (set_lg_start (s32 (sb_logstart sb))) ;;
  modify (set_lg_size (s32 (sb_nlog sb))) ;;
  modify (set_lg_dev dev) ;;
  recover_from_log.

Definition begin_op_body (_ : unit) : M (log D) (unit + unit) :=
  let! s := get in
  if lg_committing s then
    zoom lg_sysL (sleep Ch_log L_log) ;; ret (inl tt)
  else if LOGSIZE <? lg_n s + (lg_outstanding s + 1) * MAXOPBLOCKS then
    (* this op might exhaust log space; wait for commit. *)
    zoom lg_sysL (sleep Ch_log L_log) ;; ret (inl tt)
  else
    modify (fun s => set_lg_outstanding (lg_outstanding s + 1) s) ;;
    zoom lg_sysL (release L_log) ;;
    ret (inr tt).

Definition begin_op : M (log D) unit :=
  zoom lg_sysL (acquire L_log) ;;
  while (S rounds) begin_op_body tt.

Definition write_log_one (tail : nat) : M (log D) unit :=
  let! start := gets lg_start in
  let! to := log_bread (start + Z.of_nat tail + 1) in
  let! b := get_block tail in
  let! from := log_bread b in
  zoom lg_bioL (copy_buf to from) ;;
  zoom lg_bioL (bwrite to) ;;
  zoom lg_bioL (brelse from) ;;
  zoom lg_bioL (brelse to).

Definition write_log : M (log D) unit := for_tail write_log_one.

Definition commit : M (log D) unit :=
  let! n := gets lg_n in
  if 0 <? n then
    write_log ;;
    write_head ;;
    install_trans false ;;
    modify (set_lg_n 0) ;;
    write_head
  else ret tt.

Definition end_op : M (log D) unit :=
  zoom lg_sysL (acquire L_log) ;;
  modify (fun s => set_lg_outstanding (lg_outstanding s - 1) s) ;;
  let! s := get in
  if lg_committing s then panic "log.committing" else
  let! do_commit := (if lg_outstanding s =? 0 then
      modify (set_lg_committing true) ;; ret true
    else
      zoom lg_sysL (wakeup Ch_log) ;; ret false) in
  zoom lg_sysL (release L_log) ;;
  if do_commit : bool then
    commit ;;
    zoom lg_sysL (acquire L_log) ;;
    modify (set_lg_committing false) ;;
    zoom lg_sysL (wakeup Ch_log) ;;
    zoom lg_sysL (release L_log)
  else ret tt.

(** [log.lh.block[i] == b->blockno], with the loop's [break] *)
Definition log_write_test (blockno : Z) (i : nat) : M (log D) (option nat) :=
  let! v := get_block i in
  ret (if u32 v =? blockno then Some i else None).

Definition log_write (b : nat) : M (log D) unit :=
  zoom lg_sysL (acquire L_log) ;;
  let! s := get in
  if (LOGSIZE <=? lg_n s) || (lg_size s - 1 <=? lg_n s) then panic "too big a transaction" else
  if lg_outstanding s <? 1 then panic "log_write outside of trans" else
  let! x := zoom lg_bioL (get_buf b) in
  let! r := find_loop (seq 0 (Z.to_nat (lg_n s))) (log_write_test (b_blockno x)) in
  let i := default (Z.to_nat (lg_n s)) r in
  put_block i (s32 (b_blockno x)) ;;
  (if Z.of_nat i =? lg_n s then
     zoom lg_bioL (bpin b) ;;
     modify (fun s => set_lg_n (lg_n s + 1) s)
   else ret tt) ;;
  zoom lg_sysL (release L_log).

End Log.
