(* ===== verification/Kernel.v ===== *)
(** * The state of the kernel

    The data of [kernel/file.h] and [kernel/fs.h] that live in memory, and the
    record [kernel] of all the kernel's state.  Each component of the
    development keeps its own record; the lenses of this file give a component's
    code its view of the kernel, and they share one [sys], one physical memory
    and one free list. *)

From S2P Require Import Prelude Riscv Memory CString Sys Spinlock Proc Kalloc Sleeplock Uart Printf Console Bio Block Log.

(** ** struct file *)

Inductive filetype := FD_NONE | FD_PIPE | FD_INODE | FD_DEVICE.

#[export] Instance filetype_eq_dec : EqDecision filetype.
Proof. solve_decision. Defined.

Record file := File {
  f_type : filetype;
  f_ref : Z;
  f_readable : bool;
  f_writable : bool;
  f_pipe : Z;
  f_ip : option nat;
  f_off : Z;
  f_major : Z
}.

Definition file_zero : file := File FD_NONE 0 false false 0 None 0 0.

#[export] Instance file_inhabited : Inhabited file := populate file_zero.

Definition set_f_type (x : filetype) (f : file) : file :=
  File x (f_ref f) (f_readable f) (f_writable f) (f_pipe f) (f_ip f) (f_off f) (f_major f).

Definition set_f_ref (x : Z) (f : file) : file :=
  File (f_type f) x (f_readable f) (f_writable f) (f_pipe f) (f_ip f) (f_off f) (f_major f).

Definition set_f_readable (x : bool) (f : file) : file :=
  File (f_type f) (f_ref f) x (f_writable f) (f_pipe f) (f_ip f) (f_off f) (f_major f).

Definition set_f_writable (x : bool) (f : file) : file :=
  File (f_type f) (f_ref f) (f_readable f) x (f_pipe f) (f_ip f) (f_off f) (f_major f).

Definition set_f_pipe (x : Z) (f : file) : file :=
  File (f_type f) (f_ref f) (f_readable f) (f_writable f) x (f_ip f) (f_off f) (f_major f).

Definition set_f_ip (x : option nat) (f : file) : file :=
  File (f_type f) (f_ref f) (f_readable f) (f_writable f) (f_pipe f) x (f_off f) (f_major f).

Definition set_f_off (x : Z) (f : file) : file :=
  File (f_type f) (f_ref f) (f_readable f) (f_writable f) (f_pipe f) (f_ip f) x (f_major f).

Definition set_f_major (x : Z) (f : file) : file :=
  File (f_type f) (f_ref f) (f_readable f) (f_writable f) (f_pipe f) (f_ip f) (f_off f) x.

(** ** struct inode *)

Definition NDIRECT : nat := 12.

(** [lock] is the sleep-lock named after the entry. *)
Record inode := Inode {
  i_dev : Z;
  i_inum : Z;
  i_ref : Z;
  i_valid : bool;
  i_type : Z;
  i_major : Z;
  i_minor : Z;
  i_nlink : Z;
  i_size : Z;
  i_addrs : list Z
}.

Definition inode_zero : inode := Inode 0 0 0 false 0 0 0 0 0 (replicate (S NDIRECT) 0).

#[export] Instance inode_inhabited : Inhabited inode := populate inode_zero.

Definition set_i_dev (x : Z) (i : inode) : inode :=
  Inode x (i_inum i) (i_ref i) (i_valid i) (i_type i) (i_major i) (i_minor i) (i_nlink i) (i_size i) (i_addrs i).

Definition set_i_inum (x : Z) (i : inode) : inode :=
  Inode (i_dev i) x (i_ref i) (i_valid i) (i_type i) (i_major i) (i_minor i) (i_nlink i) (i_size i) (i_addrs i).

Definition set_i_ref (x : Z) (i : inode) : inode :=
  Inode (i_dev i) (i_inum i) x (i_valid i) (i_type i) (i_major i) (i_minor i) (i_nlink i) (i_size i) (i_addrs i).

Definition set_i_valid (x : bool) (i : inode) : inode :=
  Inode (i_dev i) (i_inum i) (i_ref i) x (i_type i) (i_major i) (i_minor i) (i_nlink i) (i_size i) (i_addrs i).

Definition set_i_type (x : Z) (i : inode) : inode :=
  Inode (i_dev i) (i_inum i) (i_ref i) (i_valid i) x (i_major i) (i_minor i) (i_nlink i) (i_size i) (i_addrs i).

Definition set_i_major (x : Z) (i : inode) : inode :=
  Inode (i_dev i) (i_inum i) (i_ref i) (i_valid i) (i_type i) x (i_minor i) (i_nlink i) (i_size i) (i_addrs i).

Definition set_i_minor (x : Z) (i : inode) : inode :=
  Inode (i_dev i) (i_inum i) (i_ref i) (i_valid i) (i_type i) (i_major i) x (i_nlink i) (i_size i) (i_addrs i).

Definition set_i_nlink (x : Z) (i : inode) : inode :=
  Inode (i_dev i) (i_inum i) (i_ref i) (i_valid i) (i_type i) (i_major i) (i_minor i) x (i_size i) (i_addrs i).

Definition set_i_size (x : Z) (i : inode) : inode :=
  Inode (i_dev i) (i_inum i) (i_ref i) (i_valid i) (i_type i) (i_major i) (i_minor i) (i_nlink i) x (i_addrs i).

Definition set_i_addrs (x : list Z) (i : inode) : inode :=
  Inode (i_dev i) (i_inum i) (i_ref i) (i_valid i) (i_type i) (i_major i) (i_minor i) (i_nlink i) (i_size i) x.

(** ** Control and status registers of the hart, as far as traps use them *)

Record csr := Csr {
  r_sepc : Z;
  r_scause : Z;
  r_stval : Z;
  r_satp : Z;
  r_stvec : Z;
  r_time : Z;
  r_stimecmp : Z
}.

Definition csr_zero : csr := Csr 0 0 0 0 0 0 0.

(** ** The kernel *)

Record kernel (D : Type) := Kernel {
  k_log : log D;
  k_freelist : Z;
  k_mem : mem;
  k_trace : list event;
  k_tx_buf : list byte;
  k_tx_w : Z;
  k_tx_r : Z;
  k_panicked : bool;
  k_pr_locking : bool;
  k_devsw : list device;
  k_cons_buf : list byte;
  k_cons_r : Z;
  k_cons_w : Z;
  k_cons_e : Z;
  k_ftable : list file;
  k_sb : superblock;
  k_itable : list inode;
  k_ticks : Z;
  k_first : bool;
  k_csr : csr;
  k_plic : list event;
  k_kpgtbl : Z;
  k_started : bool
}.

Arguments Kernel {D}.
Arguments k_log {D}.
Arguments k_freelist {D}.
Arguments k_mem {D}.
Arguments k_trace {D}.
Arguments k_tx_buf {D}.
Arguments k_tx_w {D}.
Arguments k_tx_r {D}.
Arguments k_panicked {D}.
Arguments k_pr_locking {D}.
Arguments k_devsw {D}.
Arguments k_cons_buf {D}.
Arguments k_cons_r {D}.
Arguments k_cons_w {D}.
Arguments k_cons_e {D}.
Arguments k_ftable {D}.
Arguments k_sb {D}.
Arguments k_itable {D}.
Arguments k_ticks {D}.
Arguments k_first {D}.
Arguments k_csr {D}.
Arguments k_plic {D}.
Arguments k_kpgtbl {D}.
Arguments k_started {D}.

Section Kernel.
Context {D : Type}.

Definition set_k_log (x : log D) (k : kernel D) : kernel D :=
  Kernel x (k_freelist k) (k_mem k) (k_trace k) (k_tx_buf k) (k_tx_w k) (k_tx_r k) (k_panicked k)
  (k_pr_locking k) (k_devsw k) (k_cons_buf k) (k_cons_r k) (k_cons_w k) (k_cons_e k) (k_ftable k)
  (k_sb k) (k_itable k) (k_ticks k) (k_first k) (k_csr k) (k_plic k) (k_kpgtbl k) (k_started k).

Definition set_k_freelist (x : Z) (k : kernel D) : kernel D :=
  Kernel (k_log k) x (k_mem k) (k_trace k) (k_tx_buf k) (k_tx_w k) (k_tx_r k) (k_panicked k)
  (k_pr_locking k) (k_devsw k) (k_cons_buf k) (k_cons_r k) (k_cons_w k) (k_cons_e k) (k_ftable k)
  (k_sb k) (k_itable k) (k_ticks k) (k_first k) (k_csr k) (k_plic k) (k_kpgtbl k) (k_started k).

Definition set_k_mem (x : mem) (k : kernel D) : kernel D :=
  Kernel (k_log k) (k_freelist k) x (k_trace k) (k_tx_buf k) (k_tx_w k) (k_tx_r k) (k_panicked k)
  (k_pr_locking k) (k_devsw k) (k_cons_buf k) (k_cons_r k) (k_cons_w k) (k_cons_e k) (k_ftable k)
  (k_sb k) (k_itable k) (k_ticks k) (k_first k) (k_csr k) (k_plic k) (k_kpgtbl k) (k_started k).

Definition set_k_trace (x : list event) (k : kernel D) : kernel D :=
  Kernel (k_log k) (k_freelist k) (k_mem k) x (k_tx_buf k) (k_tx_w k) (k_tx_r k) (k_panicked k)
  (k_pr_locking k) (k_devsw k) (k_cons_buf k) (k_cons_r k) (k_cons_w k) (k_cons_e k) (k_ftable k)
  (k_sb k) (k_itable k) (k_ticks k) (k_first k) (k_csr k) (k_plic k) (k_kpgtbl k) (k_started k).

Definition set_k_tx_buf (x : list byte) (k : kernel D) : kernel D :=
  Kernel (k_log k) (k_freelist k) (k_mem k) (k_trace k) x (k_tx_w k) (k_tx_r k) (k_panicked k)
  (k_pr_locking k) (k_devsw k) (k_cons_buf k) (k_cons_r k) (k_cons_w k) (k_cons_e k) (k_ftable k)
  (k_sb k) (k_itable k) (k_ticks k) (k_first k) (k_csr k) (k_plic k) (k_kpgtbl k) (k_started k).

Definition set_k_tx_w (x : Z) (k : kernel D) : kernel D :=
  Kernel (k_log k) (k_freelist k) (k_mem k) (k_trace k) (k_tx_buf k) x (k_tx_r k) (k_panicked k)
  (k_pr_locking k) (k_devsw k) (k_cons_buf k) (k_cons_r k) (k_cons_w k) (k_cons_e k) (k_ftable k)
  (k_sb k) (k_itable k) (k_ticks k) (k_first k) (k_csr k) (k_plic k) (k_kpgtbl k) (k_started k).

Definition set_k_tx_r (x : Z) (k : kernel D) : kernel D :=
  Kernel (k_log k) (k_freelist k) (k_mem k) (k_trace k) (k_tx_buf k) (k_tx_w k) x (k_panicked k)
  (k_pr_locking k) (k_devsw k) (k_cons_buf k) (k_cons_r k) (k_cons_w k) (k_cons_e k) (k_ftable k)
  (k_sb k) (k_itable k) (k_ticks k) (k_first k) (k_csr k) (k_plic k) (k_kpgtbl k) (k_started k).

Definition set_k_panicked (x : bool) (k : kernel D) : kernel D :=
  Kernel (k_log k) (k_freelist k) (k_mem k) (k_trace k) (k_tx_buf k) (k_tx_w k) (k_tx_r k) x
  (k_pr_locking k) (k_devsw k) (k_cons_buf k) (k_cons_r k) (k_cons_w k) (k_cons_e k) (k_ftable k)
  (k_sb k) (k_itable k) (k_ticks k) (k_first k) (k_csr k) (k_plic k) (k_kpgtbl k) (k_started k).

Definition set_k_pr_locking (x : bool) (k : kernel D) : kernel D :=
  Kernel (k_log k) (k_freelist k) (k_mem k) (k_trace k) (k_tx_buf k) (k_tx_w k) (k_tx_r k)
  (k_panicked k) x (k_devsw k) (k_cons_buf k) (k_cons_r k) (k_cons_w k) (k_cons_e k) (k_ftable k)
  (k_sb k) (k_itable k) (k_ticks k) (k_first k) (k_csr k) (k_plic k) (k_kpgtbl k) (k_started k).

Definition set_k_devsw (x : list device) (k : kernel D) : kernel D :=
  Kernel (k_log k) (k_freelist k) (k_mem k) (k_trace k) (k_tx_buf k) (k_tx_w k) (k_tx_r k)
  (k_panicked k) (k_pr_locking k) x (k_cons_buf k) (k_cons_r k) (k_cons_w k) (k_cons_e k)
  (k_ftable k) (k_sb k) (k_itable k) (k_ticks k) (k_first k) (k_csr k) (k_plic k) (k_kpgtbl k)
  (k_started k).

Definition set_k_cons_buf (x : list byte) (k : kernel D) : kernel D :=
  Kernel (k_log k) (k_freelist k) (k_mem k) (k_trace k) (k_tx_buf k) (k_tx_w k) (k_tx_r k)
  (k_panicked k) (k_pr_locking k) (k_devsw k) x (k_cons_r k) (k_cons_w k) (k_cons_e k) (k_ftable k)
  (k_sb k) (k_itable k) (k_ticks k) (k_first k) (k_csr k) (k_plic k) (k_kpgtbl k) (k_started k).

Definition set_k_cons_r (x : Z) (k : kernel D) : kernel D :=
  Kernel (k_log k) (k_freelist k) (k_mem k) (k_trace k) (k_tx_buf k) (k_tx_w k) (k_tx_r k)
  (k_panicked k) (k_pr_locking k) (k_devsw k) (k_cons_buf k) x (k_cons_w k) (k_cons_e k)
  (k_ftable k) (k_sb k) (k_itable k) (k_ticks k) (k_first k) (k_csr k) (k_plic k) (k_kpgtbl k)
  (k_started k).

Definition set_k_cons_w (x : Z) (k : kernel D) : kernel D :=
  Kernel (k_log k) (k_freelist k) (k_mem k) (k_trace k) (k_tx_buf k) (k_tx_w k) (k_tx_r k)
  (k_panicked k) (k_pr_locking k) (k_devsw k) (k_cons_buf k) (k_cons_r k) x (k_cons_e k)
  (k_ftable k) (k_sb k) (k_itable k) (k_ticks k) (k_first k) (k_csr k) (k_plic k) (k_kpgtbl k)
  (k_started k).

Definition set_k_cons_e (x : Z) (k : kernel D) : kernel D :=
  Kernel (k_log k) (k_freelist k) (k_mem k) (k_trace k) (k_tx_buf k) (k_tx_w k) (k_tx_r k)
  (k_panicked k) (k_pr_locking k) (k_devsw k) (k_cons_buf k) (k_cons_r k) (k_cons_w k) x
  (k_ftable k) (k_sb k) (k_itable k) (k_ticks k) (k_first k) (k_csr k) (k_plic k) (k_kpgtbl k)
  (k_started k).

Definition set_k_ftable (x : list file) (k : kernel D) : kernel D :=
  Kernel (k_log k) (k_freelist k) (k_mem k) (k_trace k) (k_tx_buf k) (k_tx_w k) (k_tx_r k)
  (k_panicked k) (k_pr_locking k) (k_devsw k) (k_cons_buf k) (k_cons_r k) (k_cons_w k) (k_cons_e k)
  x (k_sb k) (k_itable k) (k_ticks k) (k_first k) (k_csr k) (k_plic k) (k_kpgtbl k) (k_started k).

Definition set_k_sb (x : superblock) (k : kernel D) : kernel D :=
  Kernel (k_log k) (k_freelist k) (k_mem k) (k_trace k) (k_tx_buf k) (k_tx_w k) (k_tx_r k)
  (k_panicked k) (k_pr_locking k) (k_devsw k) (k_cons_buf k) (k_cons_r k) (k_cons_w k) (k_cons_e k)
  (k_ftable k) x (k_itable k) (k_ticks k) (k_first k) (k_csr k) (k_plic k) (k_kpgtbl k)
  (k_started k).

Definition set_k_itable (x : list inode) (k : kernel D) : kernel D :=
  Kernel (k_log k) (k_freelist k) (k_mem k) (k_trace k) (k_tx_buf k) (k_tx_w k) (k_tx_r k)
  (k_panicked k) (k_pr_locking k) (k_devsw k) (k_cons_buf k) (k_cons_r k) (k_cons_w k) (k_cons_e k)
  (k_ftable k) (k_sb k) x (k_ticks k) (k_first k) (k_csr k) (k_plic k) (k_kpgtbl k) (k_started k).

Definition set_k_ticks (x : Z) (k : kernel D) : kernel D :=
  Kernel (k_log k) (k_freelist k) (k_mem k) (k_trace k) (k_tx_buf k) (k_tx_w k) (k_tx_r k)
  (k_panicked k) (k_pr_locking k) (k_devsw k) (k_cons_buf k) (k_cons_r k) (k_cons_w k) (k_cons_e k)
  (k_ftable k) (k_sb k) (k_itable k) x (k_first k) (k_csr k) (k_plic k) (k_kpgtbl k) (k_started k).

Definition set_k_first (x : bool) (k : kernel D) : kernel D :=
  Kernel (k_log k) (k_freelist k) (k_mem k) (k_trace k) (k_tx_buf k) (k_tx_w k) (k_tx_r k)
  (k_panicked k) (k_pr_locking k) (k_devsw k) (k_cons_buf k) (k_cons_r k) (k_cons_w k) (k_cons_e k)
  (k_ftable k) (k_sb k) (k_itable k) (k_ticks k) x (k_csr k) (k_plic k) (k_kpgtbl k) (k_started k).

Definition set_k_csr (x : csr) (k : kernel D) : kernel D :=
  Kernel (k_log k) (k_freelist k) (k_mem k) (k_trace k) (k_tx_buf k) (k_tx_w k) (k_tx_r k)
  (k_panicked k) (k_pr_locking k) (k_devsw k) (k_cons_buf k) (k_cons_r k) (k_cons_w k) (k_cons_e k)
  (k_ftable k) (k_sb k) (k_itable k) (k_ticks k) (k_first k) x (k_plic k) (k_kpgtbl k)
  (k_started k).

Definition set_k_plic (x : list event) (k : kernel D) : kernel D :=
  Kernel (k_log k) (k_freelist k) (k_mem k) (k_trace k) (k_tx_buf k) (k_tx_w k) (k_tx_r k)
  (k_panicked k) (k_pr_locking k) (k_devsw k) (k_cons_buf k) (k_cons_r k) (k_cons_w k) (k_cons_e k)
  (k_ftable k) (k_sb k) (k_itable k) (k_ticks k) (k_first k) (k_csr k) x (k_kpgtbl k) (k_started k).

Definition set_k_kpgtbl (x : Z) (k : kernel D) : kernel D :=
  Kernel (k_log k) (k_freelist k) (k_mem k) (k_trace k) (k_tx_buf k) (k_tx_w k) (k_tx_r k)
  (k_panicked k) (k_pr_locking k) (k_devsw k) (k_cons_buf k) (k_cons_r k) (k_cons_w k) (k_cons_e k)
  (k_ftable k) (k_sb k) (k_itable k) (k_ticks k) (k_first k) (k_csr k) (k_plic k) x (k_started k).

Definition set_k_started (x : bool) (k : kernel D) : kernel D :=
  Kernel (k_log k) (k_freelist k) (k_mem k) (k_trace k) (k_tx_buf k) (k_tx_w k) (k_tx_r k)
  (k_panicked k) (k_pr_locking k) (k_devsw k) (k_cons_buf k) (k_cons_r k) (k_cons_w k) (k_cons_e k)
  (k_ftable k) (k_sb k) (k_itable k) (k_ticks k) (k_first k) (k_csr k) (k_plic k) (k_kpgtbl k) x.

(** The view of a component is a lens. *)
Ltac kernel_lens :=
  split; intros; repeat match goal with x : kernel _ |- _ => destruct x end;
  repeat match goal with x : log _ |- _ => destruct x end; repeat match goal with x : bio _ |- _ => destruct x end;
  repeat match goal with x : slk |- _ => destruct x end; repeat match goal with x : kmem |- _ => destruct x end;
  repeat match goal with x : console |- _ => destruct x end; repeat match goal with x : tty |- _ => destruct x end;
  reflexivity.

(** The hart, the locks and the processes. *)
Definition k_sys (k : kernel D) : sys := lg_sys (k_log k).

Definition set_k_sys (x : sys) (k : kernel D) : kernel D := set_k_log (lset lg_sysL x (k_log k)) k.

Definition k_sysL : lens (kernel D) sys := Lens k_sys set_k_sys.

Definition k_logL : lens (kernel D) (log D) := Lens k_log set_k_log.

Definition k_bioL : lens (kernel D) (bio D) :=
  Lens (fun k => lg_bio (k_log k)) (fun x k => set_k_log (set_lg_bio x (k_log k)) k).

Definition k_slk (k : kernel D) : slk := bi_slk (lg_bio (k_log k)).

Definition set_k_slk (x : slk) (k : kernel D) : kernel D :=
  set_k_log (set_lg_bio (set_bi_slk x (lg_bio (k_log k))) (k_log k)) k.

Definition k_slkL : lens (kernel D) slk := Lens k_slk set_k_slk.

(** The page allocator and the memory it hands out. *)
Definition k_kmemL : lens (kernel D) kmem :=
  Lens (fun k => Kmem (k_sys k) (k_freelist k) (k_mem k))
    (fun x k => set_k_sys (km_sys x) (set_k_freelist (km_freelist x) (set_k_mem (km_mem x) k))).

(** The terminal and the console. *)
Definition k_ttyL : lens (kernel D) tty :=
  Lens (fun k => Tty (k_sys k) (k_trace k) (k_tx_buf k) (k_tx_w k) (k_tx_r k) (k_panicked k) (k_pr_locking k))
    (fun x k => set_k_sys (tt_sys x) (
       Kernel (k_log k) (k_freelist k) (k_mem k) (tt_trace x) (uart_tx_buf x) (uart_tx_w x)
       (uart_tx_r x) (panicked x) (pr_locking x) (k_devsw k) (k_cons_buf k) (k_cons_r k)
       (k_cons_w k) (k_cons_e k) (k_ftable k) (k_sb k) (k_itable k) (k_ticks k) (k_first k)
       (k_csr k) (k_plic k) (k_kpgtbl k) (k_started k))).

Definition k_consL : lens (kernel D) console :=
  Lens (fun k => Console (lget k_ttyL k) (k_freelist k) (k_mem k) (k_devsw k) (k_cons_buf k) (k_cons_r k)
                   (k_cons_w k) (k_cons_e k))
    (fun x k => lset k_ttyL (co_tty x) (
       Kernel (k_log k) (co_freelist x) (co_mem x) (k_trace k) (k_tx_buf k) (k_tx_w k) (k_tx_r k)
       (k_panicked k) (k_pr_locking k) (co_devsw x) (cons_buf x) (cons_r x) (cons_w x) (cons_e x)
       (k_ftable k) (k_sb k) (k_itable k) (k_ticks k) (k_first k) (k_csr k) (k_plic k) (k_kpgtbl k)
       (k_started k))).

#[export] Instance k_sysL_laws : LensLaws k_sysL.
Proof. kernel_lens. Qed.

#[export] Instance k_logL_laws : LensLaws k_logL.
Proof. kernel_lens. Qed.

#[export] Instance k_bioL_laws : LensLaws k_bioL.
Proof. kernel_lens. Qed.

#[export] Instance k_slkL_laws : LensLaws k_slkL.
Proof. kernel_lens. Qed.

#[export] Instance k_kmemL_laws : LensLaws k_kmemL.
Proof. kernel_lens. Qed.

#[export] Instance k_ttyL_laws : LensLaws k_ttyL.
Proof. kernel_lens. Qed.

#[export] Instance k_consL_laws : LensLaws k_consL.
Proof. kernel_lens. Qed.

End Kernel.
