(* ===== verification/Machine.v ===== *)
(** * What the kernel is built for

    The parameters of the kernel's code that are not in its sources: the devices
    it polls, the addresses the linker assigns, and the bounds of the model on
    how often a device is polled and a sleeper woken. *)

From S2P Require Import Prelude Riscv Sys Kalloc Uart.

Class Machine := {
  (** What a read of a register of the UART, the PLIC or the disk returns, by the
      accesses to that device so far. *)
  uart_dev : list event -> Z -> Z;
  plic_dev : list event -> Z -> Z;
  virtio_dev : list event -> Z -> Z;
  (** Bounds on polling and on spurious wake-ups. *)
  poll_bound : nat;
  wake_bound : nat;
  (** The first address after the kernel, the end of its text. *)
  kernel_end : Z;
  kernel_etext : Z;
  (** The trampoline page and, in it, the offsets of [uservec] and [userret]. *)
  trampoline_pa : Z;
  uservec_off : Z;
  userret_off : Z;
  (** Code addresses stored in registers and in trap frames. *)
  forkret_pc : Z;
  usertrap_pc : Z;
  kernelvec_pc : Z
}.

(** A machine to evaluate the code on: the UART is always ready. *)
Definition demo_machine : Machine := {|
  uart_dev := fun _ _ => 0x20;
  plic_dev := fun _ _ => 0;
  virtio_dev := fun _ _ => 0;
  poll_bound := 1;
  wake_bound := 3;
  kernel_end := small_end;
  kernel_etext := KERNBASE;
  trampoline_pa := KERNBASE;
  uservec_off := 0;
  userret_off := 0x90;
  forkret_pc := KERNBASE;
  usertrap_pc := KERNBASE;
  kernelvec_pc := KERNBASE
|}.
