(* ===== verification/Virtio.v ===== *)
(** * [kernel/virtio_disk.c] and [kernel/virtio.h]: the disk driver

    The driver's book-keeping and the queue memory it shares with the device:
    descriptors, available ring, used ring.  The address of a DMA descriptor is
    modelled by what it points to.  The device is not modelled: what it does to
    the queue, the buffers and the status bytes happens between a process's
    [sleep] and its being resumed, in the state the [Switch] outcome is resumed
    with.  The theorems are in VirtioOk.v. *)

From S2P Require Import Prelude Riscv Memory Sys Spinlock Proc Kalloc Sleeplock Uart Bio Machine Console Log Kernel.

(** ** virtio.h *)

Definition VIRTIO_MMIO_MAGIC_VALUE : Z := 0x000.

Definition VIRTIO_MMIO_VERSION : Z := 0x004.

Definition VIRTIO_MMIO_DEVICE_ID : Z := 0x008.

Definition VIRTIO_MMIO_VENDOR_ID : Z := 0x00c.

Definition VIRTIO_MMIO_DEVICE_FEATURES : Z := 0x010.

Definition VIRTIO_MMIO_DRIVER_FEATURES : Z := 0x020.

Definition VIRTIO_MMIO_QUEUE_SEL : Z := 0x030.

Definition VIRTIO_MMIO_QUEUE_NUM_MAX : Z := 0x034.

Definition VIRTIO_MMIO_QUEUE_NUM : Z := 0x038.

Definition VIRTIO_MMIO_QUEUE_READY : Z := 0x044.

Definition VIRTIO_MMIO_QUEUE_NOTIFY : Z := 0x050.

Definition VIRTIO_MMIO_INTERRUPT_STATUS : Z := 0x060.

Definition VIRTIO_MMIO_INTERRUPT_ACK : Z := 0x064.

Definition VIRTIO_MMIO_STATUS : Z := 0x070.

Definition VIRTIO_MMIO_QUEUE_DESC_LOW : Z := 0x080.

Definition VIRTIO_MMIO_QUEUE_DESC_HIGH : Z := 0x084.

Definition VIRTIO_MMIO_DRIVER_DESC_LOW : Z := 0x090.

Definition VIRTIO_MMIO_DRIVER_DESC_HIGH : Z := 0x094.

Definition VIRTIO_MMIO_DEVICE_DESC_LOW : Z := 0x0a0.

Definition VIRTIO_MMIO_DEVICE_DESC_HIGH : Z := 0x0a4.

Definition VIRTIO_CONFIG_S_ACKNOWLEDGE : Z := 1.

Definition VIRTIO_CONFIG_S_DRIVER : Z := 2.

Definition VIRTIO_CONFIG_S_DRIVER_OK : Z := 4.

Definition VIRTIO_CONFIG_S_FEATURES_OK : Z := 8.

(** VIRTIO_BLK_F_RO, _SCSI, _CONFIG_WCE, _MQ, VIRTIO_F_ANY_LAYOUT,
    VIRTIO_RING_F_EVENT_IDX, VIRTIO_RING_F_INDIRECT_DESC *)
Definition refused_features : list Z := [5; 7; 11; 12; 27; 29; 28].

Definition NUM : nat := 8.

Definition VRING_DESC_F_NEXT : Z := 1.

Definition VRING_DESC_F_WRITE : Z := 2.

Definition VIRTIO_BLK_T_IN : Z := 0.

Definition VIRTIO_BLK_T_OUT : Z := 1.

(** What a descriptor points to: nothing, the command header [ops[i]], the data
    of buffer [b], the status byte [info[i].status]. *)
Inductive dma := DmaNull | DmaOps (i : nat) | DmaData (b : nat) | DmaStatus (i : nat).

Record virtq_desc := VirtqDesc {
  vq_addr : dma;
  vq_len : Z;
  vq_flags : Z;
  vq_next : nat
}.

Definition desc_zero : virtq_desc := VirtqDesc DmaNull 0 0 0.

#[export] Instance desc_inhabited : Inhabited virtq_desc := populate desc_zero.

(** struct virtio_blk_req *)
Record blk_req := BlkReq { rq_type : Z; rq_reserved : Z; rq_sector : Z }.

#[export] Instance blk_req_inhabited : Inhabited blk_req := populate (BlkReq 0 0 0).

(** [disk.info[i]] *)
Record info := Info { in_b : option nat; in_status : Z }.

#[export] Instance info_inhabited : Inhabited info := populate (Info None 0).

(** struct disk, and the queue memory it points to. *)
Record vdisk := Vdisk {
  vd_desc : list virtq_desc;
  vd_avail_idx : Z;
  vd_avail_ring : list nat;
  vd_hw_used_idx : Z;          (* used->idx, written by the device *)
  vd_used_ring : list nat;     (* used->ring[].id *)
  vd_free : list bool;
  vd_used_idx : Z;
  vd_info : list info;
  vd_ops : list blk_req;
  vd_regs : list event;        (* accesses to the device's registers *)
  vd_platter : disk            (* what the device stores *)
}.

Definition set_vd_desc (x : list virtq_desc) (d : vdisk) : vdisk :=
  Vdisk x (vd_avail_idx d) (vd_avail_ring d) (vd_hw_used_idx d) (vd_used_ring d) (vd_free d) (vd_used_idx d)
    (vd_info d) (vd_ops d) (vd_regs d) (vd_platter d).

Definition set_vd_avail (i : Z) (r : list nat) (d : vdisk) : vdisk :=
  Vdisk (vd_desc d) i r (vd_hw_used_idx d) (vd_used_ring d) (vd_free d) (vd_used_idx d)
    (vd_info d) (vd_ops d) (vd_regs d) (vd_platter d).

Definition set_vd_used (i : Z) (r : list nat) (d : vdisk) : vdisk :=
  Vdisk (vd_desc d) (vd_avail_idx d) (vd_avail_ring d) i r (vd_free d) (vd_used_idx d)
    (vd_info d) (vd_ops d) (vd_regs d) (vd_platter d).

Definition set_vd_free (x : list bool) (d : vdisk) : vdisk :=
  Vdisk (vd_desc d) (vd_avail_idx d) (vd_avail_ring d) (vd_hw_used_idx d) (vd_used_ring d) x (vd_used_idx d)
    (vd_info d) (vd_ops d) (vd_regs d) (vd_platter d).

Definition set_vd_used_idx (x : Z) (d : vdisk) : vdisk :=
  Vdisk (vd_desc d) (vd_avail_idx d) (vd_avail_ring d) (vd_hw_used_idx d) (vd_used_ring d) (vd_free d) x
    (vd_info d) (vd_ops d) (vd_regs d) (vd_platter d).

Definition set_vd_info (x : list info) (d : vdisk) : vdisk :=
  Vdisk (vd_desc d) (vd_avail_idx d) (vd_avail_ring d) (vd_hw_used_idx d) (vd_used_ring d) (vd_free d) (vd_used_idx d)
    x (vd_ops d) (vd_regs d) (vd_platter d).

Definition set_vd_ops (x : list blk_req) (d : vdisk) : vdisk :=
  Vdisk (vd_desc d) (vd_avail_idx d) (vd_avail_ring d) (vd_hw_used_idx d) (vd_used_ring d) (vd_free d) (vd_used_idx d)
    (vd_info d) x (vd_regs d) (vd_platter d).

Definition set_vd_regs (x : list event) (d : vdisk) : vdisk :=
  Vdisk (vd_desc d) (vd_avail_idx d) (vd_avail_ring d) (vd_hw_used_idx d) (vd_used_ring d) (vd_free d) (vd_used_idx d)
    (vd_info d) (vd_ops d) x (vd_platter d).

Section Virtio.
Context `{!Machine}.

Definition upd_vd (f : vdisk -> vdisk) : M (bio vdisk) unit :=
  modify (fun s => Bio (bi_slk s) (bi_bufs s) (f (bi_dev s))).

Definition get_vd : M (bio vdisk) vdisk := gets bi_dev.

(** The register [R(r)]. *)
Definition R_read (r : Z) : M (bio vdisk) Z := fun s =>
  let v := u32 (virtio_dev (vd_regs (bi_dev s)) r) in
  Ok v (Bio (bi_slk s) (bi_bufs s) (set_vd_regs (vd_regs (bi_dev s) ++ [Rd r v]) (bi_dev s))).

Definition R_write (r v : Z) : M (bio vdisk) unit :=
  upd_vd (fun d => set_vd_regs (vd_regs d ++ [Wr r (u32 v)]) d).

Definition set_free (i : nat) (x : bool) : M (bio vdisk) unit :=
  upd_vd (fun d => set_vd_free (<[i := x]> (vd_free d)) d).

Definition set_desc (i : nat) (x : virtq_desc) : M (bio vdisk) unit :=
  upd_vd (fun d => set_vd_desc (<[i := x]> (vd_desc d)) d).

Definition alloc_desc_one (i : nat) : M (bio vdisk) (option nat) :=
  let! d := get_vd in
  if (vd_free d !!! i : bool) then set_free i false ;; ret (Some i) else ret None.

Definition alloc_desc : M (bio vdisk) (option nat) := find_loop (seq 0 NUM) alloc_desc_one.

Definition free_desc (i : nat) : M (bio vdisk) unit :=
  if (NUM <=? i)%nat then panic "free_desc 1" else
  let! d := get_vd in
  if (vd_free d !!! i : bool) then panic "free_desc 2" else
  set_desc i desc_zero ;;
  set_free i true ;;
  zoom bi_sysL (wakeup Ch_disk_free).

(** A chain has at most [NUM] descriptors. *)
Definition free_chain_body (i : nat) : M (bio vdisk) (nat + unit) :=
  let! d := get_vd in
  let flag := vq_flags (vd_desc d !!! i) in
  let nxt := vq_next (vd_desc d !!! i) in
  free_desc i ;;
  ret (if has flag VRING_DESC_F_NEXT then inl nxt else inr tt).

Definition free_chain (i : nat) : M (bio vdisk) unit := while (S NUM) free_chain_body i.

(** The descriptors [idx], or none, those that were found freed again. *)
Fixpoint alloc_descs (n : nat) (idx : list nat) : M (bio vdisk) (option (list nat)) :=
  match n with
  | O => ret (Some idx)
  | S n =>
      let! o := alloc_desc in
      match o with
      | Some i => alloc_descs n (idx ++ [i])
      | None => forM idx free_desc ;; ret None
      end
  end.

Definition alloc3_desc : M (bio vdisk) (option (list nat)) := alloc_descs 3 [].

Definition rw_alloc_body (_ : unit) : M (bio vdisk) (unit + list nat) :=
  let! o := alloc3_desc in
  match o with
  | Some idx => ret (inr idx)
  | None => zoom bi_sysL (sleep Ch_disk_free L_vdisk) ;; ret (inl tt)
  end.

(** Format the three descriptors and hand them to the device. *)
Definition rw_post (b : nat) (write : bool) (i0 i1 i2 : nat) (sector : Z) : M (bio vdisk) unit :=
  upd_vd (fun d => set_vd_ops (<[i0 := BlkReq (if write then VIRTIO_BLK_T_OUT else VIRTIO_BLK_T_IN) 0 sector]>
                     (vd_ops d)) d) ;;
  set_desc i0 (VirtqDesc (DmaOps i0) 16 VRING_DESC_F_NEXT i1) ;;
  set_desc i1 (VirtqDesc (DmaData b) BSIZE
                 (Z.lor (if write then 0 else VRING_DESC_F_WRITE) VRING_DESC_F_NEXT) i2) ;;
  upd_vd (fun d => set_vd_info (alter (fun x => Info (in_b x) 255) i0 (vd_info d)) d) ;;
  set_desc i2 (VirtqDesc (DmaStatus i0) 1 VRING_DESC_F_WRITE 0) ;;
  (* record struct buf for virtio_disk_intr(). *)
  upd_buf b (set_b_disk true) ;;
  upd_vd (fun d => set_vd_info (alter (fun x => Info (Some b) (in_status x)) i0 (vd_info d)) d) ;;
  (* tell the device the first index in our chain of descriptors. *)
  upd_vd (fun d => set_vd_avail (vd_avail_idx d)
                     (<[Z.to_nat (vd_avail_idx d mod Z.of_nat NUM) := i0]> (vd_avail_ring d)) d) ;;
  (* tell the device another avail ring entry is available. *)
  upd_vd (fun d => set_vd_avail (u16 (vd_avail_idx d + 1)) (vd_avail_ring d) d) ;;
  R_write VIRTIO_MMIO_QUEUE_NOTIFY 0.   (* value is queue number *)

Definition rw_wait_body (b : nat) (_ : unit) : M (bio vdisk) (unit + unit) :=
  let! x := get_buf b in
  if b_disk x then zoom bi_sysL (sleep (Ch_buf b) L_vdisk) ;; ret (inl tt) else ret (inr tt).

(** What is left when the request has finished. *)
Definition rw_done (i0 : nat) : M (bio vdisk) unit :=
  upd_vd (fun d => set_vd_info (alter (fun x => Info None (in_status x)) i0 (vd_info d)) d) ;;
  free_chain i0 ;;
  zoom bi_sysL (release L_vdisk).

Definition virtio_rw (b : nat) (write : bool) : M (bio vdisk) unit :=
  let! x := get_buf b in
  let sector := u32 (b_blockno x * (BSIZE / 512)) in
  zoom bi_sysL (acquire L_vdisk) ;;
  let! idx := while (S wake_bound) rw_alloc_body tt in
  let i0 := idx !!! 0%nat in
  rw_post b write i0 (idx !!! 1%nat) (idx !!! 2%nat) sector ;;
  (* Wait for virtio_disk_intr() to say request has finished. *)
  while (S wake_bound) (rw_wait_body b) tt ;;
  rw_done i0.

(** One entry of the used ring. *)
Definition virtio_intr_body (_ : unit) : M (bio vdisk) (unit + unit) :=
  let! d := get_vd in
  if vd_used_idx d =? vd_hw_used_idx d then ret (inr tt) else
  let id := vd_used_ring d !!! Z.to_nat (vd_used_idx d mod Z.of_nat NUM) in
  if negb (in_status (vd_info d !!! id) =? 0) then panic "virtio_disk_intr status" else
  let! b := zoom bi_sysL (deref (in_b (vd_info d !!! id))) in
  upd_buf b (set_b_disk false) ;;
  zoom bi_sysL (wakeup (Ch_buf b)) ;;
  upd_vd (fun d => set_vd_used_idx (u16 (vd_used_idx d + 1)) d) ;;
  ret (inl tt).

Definition virtio_disk_intr : M (bio vdisk) unit :=
  zoom bi_sysL (acquire L_vdisk) ;;
  let! st := R_read VIRTIO_MMIO_INTERRUPT_STATUS in
  R_write VIRTIO_MMIO_INTERRUPT_ACK (Z.land st 3) ;;
  let! d := get_vd in
  while (S (Z.to_nat (u16 (vd_hw_used_idx d - vd_used_idx d)))) virtio_intr_body tt ;;
  zoom bi_sysL (release L_vdisk).

End Virtio.

(** The driver behind the buffer cache's interface. *)
#[export] Instance virtio_driver `{!Machine} : DiskDriver vdisk :=
  {| virtio_disk_rw := virtio_rw; dev_disk := vd_platter |}.

(** ** virtio_disk_init *)

Section Init.
Context `{!Machine}.

Definition vr_read (r : Z) : M (kernel vdisk) Z := zoom k_bioL (R_read r).

Definition vr_write (r v : Z) : M (kernel vdisk) unit := zoom k_bioL (R_write r v).

(** Find the device and agree on features: the status bits set so far. *)
Definition virtio_negotiate : M (kernel vdisk) Z :=
  let! magic := vr_read VIRTIO_MMIO_MAGIC_VALUE in
  if negb (magic =? 0x74726976) then panic "could not find virtio disk" else
  let! version := vr_read VIRTIO_MMIO_VERSION in
  if negb (version =? 2) then panic "could not find virtio disk" else
  let! id := vr_read VIRTIO_MMIO_DEVICE_ID in
  if negb (id =? 2) then panic "could not find virtio disk" else
  let! vendor := vr_read VIRTIO_MMIO_VENDOR_ID in
  if negb (vendor =? 0x554d4551) then panic "could not find virtio disk" else
  (* reset device *)
  vr_write VIRTIO_MMIO_STATUS 0 ;;
  (* set ACKNOWLEDGE status bit *)
  let status := VIRTIO_CONFIG_S_ACKNOWLEDGE in
  vr_write VIRTIO_MMIO_STATUS status ;;
  (* set DRIVER status bit *)
  let status := Z.lor status VIRTIO_CONFIG_S_DRIVER in
  vr_write VIRTIO_MMIO_STATUS status ;;
  (* negotiate features *)
  let! features := vr_read VIRTIO_MMIO_DEVICE_FEATURES in
  let features := foldl (fun f n => Z.land f (Z.lnot (Z.shiftl 1 n))) features refused_features in
  vr_write VIRTIO_MMIO_DRIVER_FEATURES features ;;
  (* tell device that feature negotiation is complete. *)
  let status := Z.lor status VIRTIO_CONFIG_S_FEATURES_OK in
  vr_write VIRTIO_MMIO_STATUS status ;;
  (* re-read status to ensure FEATURES_OK is set. *)
  vr_read VIRTIO_MMIO_STATUS.

Definition virtio_disk_init : M (kernel vdisk) unit :=
  zoom k_sysL (initlock L_vdisk "virtio_disk") ;;
  let! status := virtio_negotiate in
  if negb (has status VIRTIO_CONFIG_S_FEATURES_OK) then panic "virtio disk FEATURES_OK unset" else
  (* initialize queue 0. *)
  vr_write VIRTIO_MMIO_QUEUE_SEL 0 ;;
  (* ensure queue 0 is not in use. *)
  let! ready := vr_read VIRTIO_MMIO_QUEUE_READY in
  if negb (ready =? 0) then panic "virtio disk should not be ready" else
  (* check maximum queue size. *)
  let! max := vr_read VIRTIO_MMIO_QUEUE_NUM_MAX in
  if max =? 0 then panic "virtio disk has no queue 0" else
  if max <? Z.of_nat NUM then panic "virtio disk max queue too short" else
  (* allocate and zero queue memory. *)
  let! desc := zoom k_kmemL kalloc in
  let! avail := zoom k_kmemL kalloc in
  let! used := zoom k_kmemL kalloc in
  if (desc =? 0) || (avail =? 0) || (used =? 0) then panic "virtio disk kalloc" else
  zoom k_bioL (upd_vd (fun d => set_vd_desc (replicate NUM desc_zero)
    (set_vd_avail 0 (replicate NUM 0%nat) (set_vd_used 0 (replicate NUM 0%nat) d)))) ;;
  (* set queue size. *)
  vr_write VIRTIO_MMIO_QUEUE_NUM (Z.of_nat NUM) ;;
  (* write physical addresses. *)
  vr_write VIRTIO_MMIO_QUEUE_DESC_LOW desc ;;
  vr_write VIRTIO_MMIO_QUEUE_DESC_HIGH (Z.shiftr desc 32) ;;
  vr_write VIRTIO_MMIO_DRIVER_DESC_LOW avail ;;
  vr_write VIRTIO_MMIO_DRIVER_DESC_HIGH (Z.shiftr avail 32) ;;
  vr_write VIRTIO_MMIO_DEVICE_DESC_LOW used ;;
  vr_write VIRTIO_MMIO_DEVICE_DESC_HIGH (Z.shiftr used 32) ;;
  (* queue is ready. *)
  vr_write VIRTIO_MMIO_QUEUE_READY 1 ;;
  (* all NUM descriptors start out unused. *)
  zoom k_bioL (forM (seq 0 NUM) (fun i => set_free i true)) ;;
  (* tell device we're completely ready. *)
  vr_write VIRTIO_MMIO_STATUS (Z.lor status VIRTIO_CONFIG_S_DRIVER_OK).

End Init.
