(* ===== verification/VirtioOk.v ===== *)
(** * The disk driver with a device

    [virtio_disk_rw] posts a request and sleeps; the device serves it; the
    interrupt handler wakes the process, which the scheduler resumes.  The device
    is a parameter, a function on the buffers and the queue memory, of which only
    the documented behaviour is assumed: [device_law], that it serves a pending
    request whose descriptors form a well-formed chain.

    [transfer] is the whole cycle seen by the calling process.  The driver and
    such a device implement the interface the buffer cache relies on
    ([DiskDriverOk]), so the theorems on the cache, the log and the file system
    hold of the kernel with its own driver. *)

From S2P Require Import Prelude Riscv Memory Sys Spinlock Proc Kalloc Sleeplock Uart Bio Bcache Machine Console Log Kernel Virtio.

#[local] Transparent upd_buf.

(** ** A process that sleeps and is resumed *)

(** The end of the loop body of [scheduler], when [swtch] comes back. *)
Definition back_in_scheduler (i : nat) : M sys unit :=
  upd_cpu (set_c_proc None) ;; release (L_proc i).

(** Process [i] of [s] sleeps on [ch], and its hart runs the scheduler. *)
Definition parked (i : nat) (ch : chan) (s : sys) : sys :=
  set_sprocs (alter (fun p => set_p_state SLEEPING (set_p_chan (Some ch) p)) i (sprocs s))
    (set_scpu (set_c_proc None (scpu s)) s).

Lemma locks_restored (m : gmap lockid spinlock) l l' n n' x x' :
  m !! l = Some (Spinlock false n None) -> m !! l' = Some (Spinlock false n' None) -> l <> l' ->
  <[l' := Spinlock false n' None]> (<[l := Spinlock false n None]> (<[l' := x']> (<[l := x]> m))) = m.
Proof.
  intros H H' Hne. apply map_eq. intros k.
  destruct (decide (k = l')) as [->|Hk']; [by rewrite lookup_insert_eq|]. rewrite lookup_insert_ne by done.
  destruct (decide (k = l)) as [->|Hk]; [by rewrite lookup_insert_eq|].
  by rewrite !lookup_insert_ne by done.
Qed.

Lemma cpu_pop_proc x c : cpu_pop (set_c_proc x c) = set_c_proc x (cpu_pop c).
Proof. unfold cpu_pop. simpl. by destruct (_ && _). Qed.

(** The hart is given away and comes back to the process. *)
Lemma cpu_cycle c i :
  c_noff c = 0 -> cpu_wf c -> settle c = c -> c_proc c = Some i ->
  cpu_pop (set_c_intena (c_intena (cpu_push c)) (set_c_proc (Some i) (cpu_push (set_c_proc None c)))) = c.
Proof.
  intros Hn Hwf Hs Hp. change (set_c_intena _ _) with (set_c_proc (Some i) (cpu_push c)).
  rewrite cpu_pop_proc, cpu_pop_push, Hs by done. destruct c. simpl in *. by subst.
Qed.

Lemma calm_sleep_pre i lk s :
  calm i s -> static_lock lk -> lk <> L_proc i -> sleep_pre i lk (locked lk s).
Proof.
  intros Hc Hl Hne. pose proof (ca_noff _ _ Hc) as Hn. split.
  - exact (ca_me _ _ Hc).
  - change (sprocs (locked lk s)) with (sprocs s). rewrite (ca_procs _ _ Hc). apply Hc.
  - change (c_noff (scpu s) + 1 = 1). lia.
  - apply cpu_push_intr.
  - apply locked_mine.
  - unfold lock_free. rewrite lock_of_locked, decide_False by done.
    apply lock_idle_free, Hc. exact (ca_me_proc _ _ Hc).
  - done.
Qed.

Lemma parked_ok i ch lk s :
  calm i s -> static_lock lk -> lk <> L_proc i ->
  back_in_scheduler i (asleep i ch lk (locked lk s)) = Ok tt (parked i ch s).
Proof.
  intros Hc Hl Hne. pose proof (ca_noff _ _ Hc) as Hn.
  destruct (ca_idle _ _ Hc lk Hl) as [n Hlk]. destruct (ca_idle _ _ Hc (L_proc i) (ca_me_proc _ _ Hc)) as [n' Hpl].
  unfold back_in_scheduler, upd_cpu. rewrite bind_modify. set (z := set_scpu _ _).
  assert (Ecpu : scpu z = set_c_proc None (cpu_push (scpu s))).
  { change (set_c_proc None (cpu_pop (cpu_push (cpu_push (scpu s)))) = set_c_proc None (cpu_push (scpu s))).
    rewrite cpu_pop_push by (apply cpu_push_wf, Hc). rewrite settle_nested; [done|]. simpl. lia. }
  assert (Elk : slocks z = <[lk := Spinlock false n None]>
    (<[L_proc i := Spinlock true n' (Some (c_id (scpu s)))]> (slocks (locked lk s)))).
  { unfold z, asleep, unlocked, locked, lock_of. simpl.
    rewrite (lookup_insert_ne _ _ lk) by done. rewrite lookup_insert_eq.
    rewrite (lookup_insert_ne _ lk (L_proc i)) by done. by rewrite Hpl, Hlk. }
  assert (Hr : release (L_proc i) z = Ok tt (unlocked (L_proc i) z)).
  { apply release_ok; rewrite ?Ecpu.
    - unfold lock_mine, lock_of. rewrite Elk, lookup_insert_ne, lookup_insert_eq, Ecpu by done. done.
    - apply cpu_push_intr.
    - simpl. lia. }
  rewrite Hr. f_equal. unfold unlocked, parked, lock_of. rewrite Elk, Ecpu, lookup_insert_ne, lookup_insert_eq by done.
  cbn [from_option default lk_name id]. change (slocks (locked lk s)) with
    (<[lk := Spinlock true (lk_name (lock_of s lk)) (Some (c_id (scpu s)))]> (slocks s)).
  rewrite (locks_restored _ lk (L_proc i)) by done. rewrite cpu_pop_proc, cpu_pop_push by apply Hc.
  by rewrite (proj2 (ca_settled _ _ Hc)).
Qed.

Lemma parked_wakeable i ch s : calm i s -> wakeable (parked i ch s).
Proof.
  intros Hc. split.
  - destruct (ca_settled _ _ Hc) as [H1 H2]. split; [exact H1|].
    change (settle (set_c_proc None (scpu s)) = set_c_proc None (scpu s)). rewrite <- H2 at 2.
    unfold settle. simpl. by destruct (_ =? _).
  - intros j Hj. by apply (ca_idle _ _ Hc (L_proc j)).
  - simpl. rewrite length_alter. apply Hc.
Qed.

Lemma proc_parked i ch s :
  calm i s -> p_state (proc_of (parked i ch s) i) = SLEEPING /\ p_chan (proc_of (parked i ch s) i) = Some ch.
Proof.
  intros Hc. unfold proc_of, parked. simpl. rewrite list_lookup_total_alter_eq; [done|].
  rewrite (ca_procs _ _ Hc). apply Hc.
Qed.

(** The hart once the scheduler has switched to the RUNNABLE process [i]. *)
Definition dispatch (i : nat) (s : sys) : sys :=
  set_scpu (set_c_proc (Some i) (cpu_push (scpu s)))
    (set_sprocs (alter (set_p_state RUNNING) i (sprocs s)) (locked (L_proc i) s)).

Lemma dispatch_ok i f s :
  lock_idle s (L_proc i) -> p_state (proc_of s i) = RUNNABLE ->
  exists k, scheduler_scan [i] f s = Switch (dispatch i s) k.
Proof.
  intros Hl Hs. eexists. cbn [scheduler_scan]. krun (acquire_ok _ s (lock_idle_free _ _ Hl)). rewrite bind_gets.
  change (proc_of (locked (L_proc i) s) i) with (proc_of s i). rewrite decide_True by done. reflexivity.
Qed.

(** A process parked by [sleep(ch, lk)] and woken up since returns from [sleep]
    to a state in which it is the same process, and others may have been woken. *)
Lemma resumed_ok i ch lk s z :
  calm i s -> static_lock lk -> lk <> L_proc i -> woken (parked i ch s) z ->
  exists y, wake_rest i lk (c_intena (scpu (locked lk s))) (dispatch i z) = Ok tt (locked lk y) /\ woken s y.
Proof.
  intros Hc Hl Hne [W1 W2 W3 W4]. pose proof (ca_noff _ _ Hc) as Hn. pose proof (ca_me_proc _ _ Hc) as Hme.
  pose proof (ca_procs _ _ Hc) as Hlen.
  destruct (ca_idle _ _ Hc lk Hl) as [n Hlk]. destruct (ca_idle _ _ Hc (L_proc i) Hme) as [n' Hpl].
  change (slocks (parked i ch s)) with (slocks s) in W2.
  rewrite wake_rest_run; try done.
  - eexists. split; [done|]. split.
    + change (cpu_pop (set_c_intena (c_intena (cpu_push (scpu s))) (set_c_proc (Some i) (cpu_push (scpu z)))) = scpu s).
      rewrite W1. apply cpu_cycle; apply Hc.
    + unfold awake, unlocked, dispatch, locked, lock_of. simpl. rewrite W2, lookup_insert_eq, insert_insert_eq. simpl.
      rewrite Hpl. by apply insert_id.
    + simpl. rewrite !length_alter. rewrite W3. simpl. by rewrite length_alter.
    + intros j. specialize (W4 j). unfold proc_of in *. simpl in *. destruct (decide (i = j)) as [<-|Hj].
      * pose proof (ca_chan _ _ Hc) as Hch. unfold proc_of in Hch.
        rewrite list_lookup_total_alter_eq in W4 by lia.
        rewrite !list_lookup_total_alter_eq by (rewrite ?length_alter, W3, length_alter; lia).
        unfold only_woken in *. simpl. destruct (sprocs z !!! i), (sprocs s !!! i). simpl in *. subst.
        injection W4. intros. by subst.
      * rewrite list_lookup_total_alter_ne in W4 by done. by rewrite !list_lookup_total_alter_ne by done.
  - unfold dispatch. destruct (locked_mine (L_proc i) z) as [H1 H2]. by split.
  - change (c_noff (scpu z) + 1 = 1). rewrite W1. simpl. lia.
  - apply cpu_push_intr.
  - unfold lock_free, lock_of, dispatch, locked. simpl. rewrite lookup_insert_ne by done. by rewrite W2, Hlk.
Qed.

(** ** Descriptors *)

(** The unused descriptors, in the order [alloc_desc] takes them. *)
Definition free_descs (d : vdisk) : list nat := filter (fun i => vd_free d !!! i = true) (seq 0 NUM).

(** No request is with the device, and there are descriptors for one. *)
Record queue_idle (d : vdisk) : Prop := {
  qi_desc : length (vd_desc d) = NUM;
  qi_avail : length (vd_avail_ring d) = NUM;
  qi_used : length (vd_used_ring d) = NUM;
  qi_free : length (vd_free d) = NUM;
  qi_info : length (vd_info d) = NUM;
  qi_ops : length (vd_ops d) = NUM;
  qi_idx : 0 <= vd_avail_idx d < 2 ^ 16;
  qi_hw : vd_hw_used_idx d = vd_avail_idx d;
  qi_drv : vd_used_idx d = vd_avail_idx d;
  qi_three : (3 <= length (free_descs d))%nat
}.

Lemma free_descs_take f i r :
  length f = NUM -> filter (fun i => f !!! i = true) (seq 0 NUM) = i :: r ->
  filter (fun j => (<[i := false]> f) !!! j = true) (seq 0 NUM) = r /\ (i < NUM)%nat /\ (i ∉ r) /\ f !!! i = true.
Proof.
  intros Hlen E. assert (Hi : i ∈ i :: r) by (by left). rewrite <- E in Hi.
  apply list_elem_of_filter in Hi as [Ht [_ Hi]%elem_of_seq].
  assert (Hnd : NoDup (i :: r)) by (rewrite <- E; apply NoDup_filter, NoDup_seq).
  apply NoDup_cons in Hnd as [Hir _]. split; [|done].
  rewrite (list_filter_iff _ (fun j => j <> i /\ f !!! j = true)).
  - rewrite <- list_filter_filter, E, filter_cons_False by (intros ?; done).
    by apply filter_absent.
  - intros j. destruct (decide (i = j)) as [<-|Hne].
    + rewrite list_lookup_total_insert_eq by lia. naive_solver.
    + rewrite list_lookup_total_insert_ne by done. naive_solver.
Qed.

(** ** Requests *)

(** A request as the device reads it from the queue: the head of its chain, the
    direction, the sector and the buffer. *)
Record request := Request { rq_head : nat; rq_out : bool; rq_at : Z; rq_buf : nat }.

(** The request that the chain of descriptors at [h] describes: a 16-byte header,
    a block of data that the device may write only in a read, and a status byte
    that it may write. *)
Definition read_chain (d : vdisk) (h : nat) : option request :=
  let d0 := vd_desc d !!! h in
  let d1 := vd_desc d !!! vq_next d0 in
  let d2 := vd_desc d !!! vq_next d1 in
  match vq_addr d0, vq_addr d1, vq_addr d2 with
  | DmaOps o, DmaData b, DmaStatus st =>
      let op := vd_ops d !!! o in
      let out := rq_type op =? VIRTIO_BLK_T_OUT in
      if (vq_len d0 =? 16) && has (vq_flags d0) VRING_DESC_F_NEXT && negb (has (vq_flags d0) VRING_DESC_F_WRITE) &&
         (vq_len d1 =? BSIZE) && has (vq_flags d1) VRING_DESC_F_NEXT &&
         Bool.eqb (has (vq_flags d1) VRING_DESC_F_WRITE) (negb out) &&
         (vq_len d2 =? 1) && negb (has (vq_flags d2) VRING_DESC_F_NEXT) && has (vq_flags d2) VRING_DESC_F_WRITE &&
         (st =? h)%nat && (out || (rq_type op =? VIRTIO_BLK_T_IN))
      then Some (Request h out (rq_sector op) b) else None
  | _, _, _ => None
  end.

(** The head of the one request that the driver has made available and the device
    has not yet used. *)
Definition pending (d : vdisk) : option nat :=
  if vd_avail_idx d =? u16 (vd_hw_used_idx d + 1)
  then Some (vd_avail_ring d !!! Z.to_nat (vd_hw_used_idx d mod Z.of_nat NUM)) else None.

(** The device has used request [r]: the status is 0, and the chain is on the
    used ring. *)
Definition served (r : request) (platter : disk) (d : vdisk) : vdisk :=
  Vdisk (vd_desc d) (vd_avail_idx d) (vd_avail_ring d) (u16 (vd_hw_used_idx d + 1))
    (<[Z.to_nat (vd_hw_used_idx d mod Z.of_nat NUM) := rq_head r]> (vd_used_ring d)) (vd_free d) (vd_used_idx d)
    (alter (fun x => Info (in_b x) 0) (rq_head r) (vd_info d)) (vd_ops d) (vd_regs d) platter.

(** What is assumed of the device: it serves a pending, well-formed request for
    two sectors that are a block.  [device bufs d] is the buffers and the queue
    memory when it raises its interrupt. *)
Definition device_law (device : list buf -> vdisk -> list buf * vdisk) : Prop :=
  forall bufs d h r, pending d = Some h -> read_chain d h = Some r -> rq_at r mod 2 = 0 ->
    device bufs d =
    if rq_out r
    then (bufs, served r (dk_put (rq_at r / 2) (b_data (bufs !!! rq_buf r)) (vd_platter d)) d)
    else (alter (set_b_data (dk_get (vd_platter d) (rq_at r / 2))) (rq_buf r) bufs, served r (vd_platter d) d).

Section Driver.
Context {mach : Machine}.
Implicit Types (s : bio vdisk) (d : vdisk) (y : sys).

Definition on_dev (d : vdisk) (s : bio vdisk) : bio vdisk := Bio (bi_slk s) (bi_bufs s) d.

Lemma alloc_desc_ok s i r :
  length (vd_free (bi_dev s)) = NUM -> free_descs (bi_dev s) = i :: r ->
  alloc_desc s = Ok (Some i) (on_dev (set_vd_free (<[i := false]> (vd_free (bi_dev s))) (bi_dev s)) s).
Proof.
  intros _. unfold free_descs, alloc_desc. generalize (seq 0 NUM). induction l as [|j l IH]; intros E; [done|].
  cbn [find_loop]. unfold alloc_desc_one at 1, get_vd. rewrite filter_cons in E.
  destruct (decide (vd_free (bi_dev s) !!! j = true)) as [Hj|Hj].
  - injection E as -> _. rewrite (bind_Ok _ _ _ (Some i)
      (on_dev (set_vd_free (<[i := false]> (vd_free (bi_dev s))) (bi_dev s)) s)); [done|].
    rewrite bind_gets, Hj. done.
  - rewrite (bind_Ok _ _ _ None s); [by apply IH|]. rewrite bind_gets.
    by destruct (vd_free (bi_dev s) !!! j).
Qed.

(** The descriptors of a request. *)
Definition taken3 (i0 i1 i2 : nat) (f : list bool) : list bool :=
  <[i2 := false]> (<[i1 := false]> (<[i0 := false]> f)).

Record three (d : vdisk) (i0 i1 i2 : nat) : Prop := {
  th_lt : (i0 < NUM /\ i1 < NUM /\ i2 < NUM)%nat;
  th_ne : i0 <> i1 /\ i0 <> i2 /\ i1 <> i2;
  th_free : vd_free d !!! i0 = true /\ vd_free d !!! i1 = true /\ vd_free d !!! i2 = true
}.

Lemma alloc3_ok s :
  queue_idle (bi_dev s) ->
  exists i0 i1 i2, three (bi_dev s) i0 i1 i2 /\
    alloc3_desc s = Ok (Some [i0; i1; i2]) (on_dev (set_vd_free (taken3 i0 i1 i2 (vd_free (bi_dev s))) (bi_dev s)) s).
Proof.
  intros Q. pose proof (qi_three _ Q) as H3. pose proof (qi_free _ Q) as Hl.
  destruct (free_descs (bi_dev s)) as [|i0 [|i1 [|i2 r]]] eqn:E; simpl in H3; try lia.
  destruct (free_descs_take _ _ _ Hl E) as (E1 & L0 & N0 & F0).
  assert (Hl1 : length (<[i0 := false]> (vd_free (bi_dev s))) = NUM) by (by rewrite length_insert).
  destruct (free_descs_take _ _ _ Hl1 E1) as (E2 & L1 & N1 & F1).
  assert (Hl2 : length (<[i1 := false]> (<[i0 := false]> (vd_free (bi_dev s)))) = NUM) by (by rewrite length_insert).
  destruct (free_descs_take _ _ _ Hl2 E2) as (E3 & L2 & N2 & F2).
  apply not_elem_of_cons in N0 as [N01 N0]. apply not_elem_of_cons in N0 as [N02 _].
  apply not_elem_of_cons in N1 as [N12 _].
  rewrite list_lookup_total_insert_ne in F1 by done. rewrite !list_lookup_total_insert_ne in F2 by done.
  exists i0, i1, i2. split; [by repeat split|]. unfold alloc3_desc. cbn [alloc_descs].
  krun (alloc_desc_ok s i0 (i1 :: i2 :: r) Hl E).
  set (s1 := on_dev _ s). krun (alloc_desc_ok s1 i1 (i2 :: r) Hl1 E1).
  set (s2 := on_dev _ s1). krun (alloc_desc_ok s2 i2 r Hl2 E2). done.
Qed.

(** The queue after [rw_post]. *)
Definition posted (b : nat) (write : bool) (i0 i1 i2 : nat) (sector : Z) (d : vdisk) : vdisk :=
  Vdisk
    (<[i2 := VirtqDesc (DmaStatus i0) 1 VRING_DESC_F_WRITE 0]>
     (<[i1 := VirtqDesc (DmaData b) BSIZE
                (Z.lor (if write then 0 else VRING_DESC_F_WRITE) VRING_DESC_F_NEXT) i2]>
      (<[i0 := VirtqDesc (DmaOps i0) 16 VRING_DESC_F_NEXT i1]> (vd_desc d))))
    (u16 (vd_avail_idx d + 1))
    (<[Z.to_nat (vd_avail_idx d mod Z.of_nat NUM) := i0]> (vd_avail_ring d))
    (vd_hw_used_idx d) (vd_used_ring d) (vd_free d) (vd_used_idx d)
    (<[i0 := Info (Some b) 255]> (vd_info d))
    (<[i0 := BlkReq (if write then VIRTIO_BLK_T_OUT else VIRTIO_BLK_T_IN) 0 sector]> (vd_ops d))
    (vd_regs d ++ [Wr VIRTIO_MMIO_QUEUE_NOTIFY 0]) (vd_platter d).

Lemma alter_const {A} (x : A) (i : nat) (l : list A) : alter (fun _ => x) i l = <[i := x]> l.
Proof. revert i. induction l as [|y l IH]; intros [|i]; simpl; [done..|]. f_equal. apply IH. Qed.

(** Reduce the updates of a [vdisk] given by its fields. *)
Ltac vd_reduce :=
  cbv [bi_slk bi_bufs bi_dev set_vd_regs set_vd_avail set_vd_info set_vd_desc set_vd_ops set_vd_free set_vd_used_idx
    vd_desc vd_avail_idx vd_avail_ring vd_hw_used_idx vd_used_ring vd_free vd_used_idx vd_info vd_ops vd_regs
    vd_platter].

Lemma rw_post_ok b write i0 i1 i2 sector s :
  rw_post b write i0 i1 i2 sector s =
  Ok tt (Bio (bi_slk s) (alter (set_b_disk true) b (bi_bufs s)) (posted b write i0 i1 i2 sector (bi_dev s))).
Proof.
  destruct s as [k bs [desc ai ar hi ur fr ui inf ops regs pl]].
  unfold rw_post, set_desc, R_write, upd_vd, upd_buf, posted, set_bi_bufs.
  repeat (rewrite bind_modify; vd_reduce). unfold modify. vd_reduce.
  rewrite list_alter_alter_eq, <- (alter_const (Info (Some b) 255)). done.
Qed.

Lemma ring_slot x : (Z.to_nat (x mod Z.of_nat NUM) < NUM)%nat.
Proof. pose proof (Z.mod_pos_bound x (Z.of_nat NUM) ltac:(done)). lia. Qed.

Lemma posted_desc b write i0 i1 i2 sector d f :
  queue_idle d -> three d i0 i1 i2 ->
  let d' := posted b write i0 i1 i2 sector (set_vd_free f d) in
  vd_desc d' !!! i0 = VirtqDesc (DmaOps i0) 16 VRING_DESC_F_NEXT i1 /\
  vd_desc d' !!! i1 = VirtqDesc (DmaData b) BSIZE
    (Z.lor (if write then 0 else VRING_DESC_F_WRITE) VRING_DESC_F_NEXT) i2 /\
  vd_desc d' !!! i2 = VirtqDesc (DmaStatus i0) 1 VRING_DESC_F_WRITE 0.
Proof.
  intros Q [[L0 [L1 L2]] (N01 & N02 & N12) _] d'. simpl. split; [|split].
  - rewrite !list_lookup_total_insert_ne by done. apply list_lookup_total_insert_eq. by rewrite (qi_desc _ Q).
  - rewrite list_lookup_total_insert_ne by done. apply list_lookup_total_insert_eq.
    by rewrite length_insert, (qi_desc _ Q).
  - apply list_lookup_total_insert_eq. by rewrite !length_insert, (qi_desc _ Q).
Qed.

(** The device sees exactly the request that was posted. *)
Lemma posted_request b write i0 i1 i2 sector d f :
  queue_idle d -> three d i0 i1 i2 ->
  let d' := posted b write i0 i1 i2 sector (set_vd_free f d) in
  pending d' = Some i0 /\ read_chain d' i0 = Some (Request i0 write sector b).
Proof.
  intros Q H3 d'. split.
  - unfold pending, d', posted. simpl. rewrite (qi_hw _ Q), Z.eqb_refl.
    rewrite list_lookup_total_insert_eq; [done|]. rewrite (qi_avail _ Q). apply ring_slot.
  - destruct (posted_desc b write i0 i1 i2 sector d f Q H3) as (E0 & E1 & E2). fold d' in E0, E1, E2.
    assert (Eo : vd_ops d' !!! i0 = BlkReq (if write then VIRTIO_BLK_T_OUT else VIRTIO_BLK_T_IN) 0 sector).
    { simpl. apply list_lookup_total_insert_eq. rewrite (qi_ops _ Q). apply H3. }
    unfold read_chain. rewrite E0. cbn [vq_addr vq_next]. rewrite E1. cbn [vq_addr vq_next]. rewrite E2.
    cbn [vq_addr vq_len vq_flags]. rewrite Eo, Nat.eqb_refl. by destruct write.
Qed.

(** ** The interrupt *)

Lemma wakeup_sleepers ch y :
  wakeable y -> c_proc (scpu y) = None ->
  exists z, wakeup ch y = Ok tt z /\ woken y z /\
    forall i, p_state (proc_of y i) = SLEEPING -> p_chan (proc_of y i) = Some ch -> (i < NPROC)%nat ->
      p_state (proc_of z i) = RUNNABLE.
Proof.
  intros Hw Hn. destruct (wakeup_woken ch y Hw) as (z & E & Hz). exists z. split; [done|]. split; [done|].
  destruct Hw as [H1 H2 H3]. rewrite wakeup_ok in E by done. injection E as <-. intros i Hs Hc Hi.
  unfold proc_of in *. simpl. destruct (lookup_lt_is_Some_2 (sprocs y) i ltac:(lia)) as [q Hq].
  rewrite list_lookup_total_alt, Hq in Hs, Hc. simpl in Hs, Hc.
  rewrite list_lookup_total_alt, list_lookup_imap, Hq. simpl.
  rewrite Hn, decide_False by done. unfold wake. by rewrite decide_True.
Qed.

(** A request that the device has used: its buffer is no longer the device's, and
    who waits for it is woken up. *)
Lemma virtio_intr_ok z0 ks bs d h b :
  wakeable z0 -> c_proc (scpu z0) = None -> lock_idle z0 L_vdisk ->
  0 <= vd_used_idx d < 2 ^ 16 -> vd_hw_used_idx d = u16 (vd_used_idx d + 1) ->
  vd_used_ring d !!! Z.to_nat (vd_used_idx d mod Z.of_nat NUM) = h -> vd_info d !!! h = Info (Some b) 0 ->
  exists z regs, virtio_disk_intr (Bio (Slk z0 ks) bs d) =
      Ok tt (Bio (Slk z ks) (alter (set_b_disk false) b bs)
               (set_vd_used_idx (vd_hw_used_idx d) (set_vd_regs regs d))) /\
    woken z0 z /\
    forall i, p_state (proc_of z0 i) = SLEEPING -> p_chan (proc_of z0 i) = Some (Ch_buf b) -> (i < NPROC)%nat ->
      p_state (proc_of z i) = RUNNABLE.
Proof.
  intros Hw Hn Hl Hu Hhw Hring Hinfo. unfold virtio_disk_intr. set (s := Bio (Slk z0 ks) bs d).
  krun (zoom_acquire bi_sysL L_vdisk s Hl). set (s1 := lset _ _ s).
  unfold R_read at 1. unfold bind at 1. cbn [obind]. unfold R_write, upd_vd. rewrite bind_modify.
  cbn [bi_slk bi_bufs bi_dev]. set (d1 := set_vd_regs _ (set_vd_regs _ _)). set (s2 := Bio _ _ d1).
  unfold get_vd at 1. rewrite bind_gets.
  assert (Efuel : u16 (vd_hw_used_idx (bi_dev s2) - vd_used_idx (bi_dev s2)) = 1).
  { change (u16 (vd_hw_used_idx d - vd_used_idx d) = 1). rewrite Hhw. unfold u16.
    rewrite Zminus_mod_idemp_l. by replace (vd_used_idx d + 1 - vd_used_idx d) with 1 by lia. }
  rewrite Efuel.
  destruct (wakeup_sleepers (Ch_buf b) (locked L_vdisk z0)) as (zl & Ez & Hwz & Hrun);
    [by apply wakeable_locked|done|].
  destruct (woken_locked _ _ _ Hwz) as (z & -> & Hz).
  set (s3 := Bio (Slk (locked L_vdisk z) ks) (alter (set_b_disk false) b bs) (set_vd_used_idx (vd_hw_used_idx d) d1)).
  assert (B1 : virtio_intr_body tt s2 = Ok (inl tt) s3).
  { unfold virtio_intr_body, get_vd. rewrite bind_gets.
    change (vd_used_idx (bi_dev s2)) with (vd_used_idx d). change (vd_hw_used_idx (bi_dev s2)) with (vd_hw_used_idx d).
    change (vd_used_ring (bi_dev s2)) with (vd_used_ring d). change (vd_info (bi_dev s2)) with (vd_info d).
    rewrite (proj2 (Z.eqb_neq (vd_used_idx d) (vd_hw_used_idx d))) by (rewrite Hhw; unfold u16; dlia).
    rewrite Hring, Hinfo. cbn [in_status in_b Z.eqb negb].
    rewrite (bind_Ok _ _ _ b s2) by done. unfold upd_buf. rewrite bind_modify.
    rewrite (bind_Ok _ _ _ tt (Bio (Slk (locked L_vdisk z) ks) (alter (set_b_disk false) b bs) d1)).
    - unfold upd_vd. rewrite bind_modify. unfold s3. by rewrite Hhw.
    - apply (zoom_Ok bi_sysL _ (set_bi_bufs (alter (set_b_disk false) b (bi_bufs s2)) s2)) in Ez. exact Ez. }
  assert (B2 : virtio_intr_body tt s3 = Ok (inr tt) s3).
  { unfold virtio_intr_body, get_vd. rewrite bind_gets. simpl. by rewrite Z.eqb_refl. }
  exists z. eexists. split; [|by split].
  change (S (Z.to_nat 1)) with 2%nat. cbn [while]. rewrite (bind_Ok _ _ _ tt s3) by (by krun B1; krun B2).
  rewrite (zoom_release bi_sysL L_vdisk z s3); [reflexivity|by apply (woken_settled z0), Hw| |done].
  unfold lock_idle. by rewrite (wo_locks _ _ Hz).
Qed.

(** ** Giving the descriptors back *)

(** The disk lock is held, in [y] otherwise. *)
Definition in_lock (y : sys) (ks : gmap slid sleeplock) (bs : list buf) (d : vdisk) : bio vdisk :=
  Bio (Slk (locked L_vdisk y) ks) bs d.

Definition freed_desc (i : nat) (d : vdisk) : vdisk :=
  set_vd_free (<[i := true]> (vd_free d)) (set_vd_desc (<[i := desc_zero]> (vd_desc d)) d).

Lemma free_desc_ok y ks bs d i :
  wakeable y -> (i < NUM)%nat -> vd_free d !!! i = false ->
  exists y', free_desc i (in_lock y ks bs d) = Ok tt (in_lock y' ks bs (freed_desc i d)) /\ woken y y'.
Proof.
  intros Hw Hi Hf. destruct (wakeup_woken Ch_disk_free (locked L_vdisk y)) as (z & Ez & Hz);
    [by apply wakeable_locked|].
  destruct (woken_locked _ _ _ Hz) as (y' & -> & Hy). exists y'. split; [|done].
  unfold free_desc. rewrite (proj2 (Nat.leb_gt _ _)) by done. unfold get_vd. rewrite bind_gets. simpl. rewrite Hf.
  unfold set_desc, set_free, upd_vd. rewrite !bind_modify.
  apply (zoom_Ok bi_sysL _ (in_lock y ks bs (freed_desc i d))) in Ez. exact Ez.
Qed.

Definition linked_to (d : vdisk) (i j : nat) : Prop :=
  has (vq_flags (vd_desc d !!! i)) VRING_DESC_F_NEXT = true /\ vq_next (vd_desc d !!! i) = j.

Lemma free_chain_step y ks bs d i :
  wakeable y -> (i < NUM)%nat -> vd_free d !!! i = false ->
  exists y', free_chain_body i (in_lock y ks bs d) =
      Ok (if has (vq_flags (vd_desc d !!! i)) VRING_DESC_F_NEXT then inl (vq_next (vd_desc d !!! i)) else inr tt)
        (in_lock y' ks bs (freed_desc i d)) /\ woken y y' /\ wakeable y'.
Proof.
  intros Hw Hi Hf. destruct (free_desc_ok y ks bs d i Hw Hi Hf) as (y' & E & Hy). exists y'.
  split; [|split; [done|by eapply wakeable_woken]].
  unfold free_chain_body, get_vd. rewrite bind_gets. by krun E.
Qed.

Lemma free_chain_ok y ks bs d i0 i1 i2 :
  wakeable y -> length (vd_free d) = NUM -> length (vd_desc d) = NUM ->
  (i0 < NUM /\ i1 < NUM /\ i2 < NUM)%nat -> i0 <> i1 /\ i0 <> i2 /\ i1 <> i2 ->
  vd_free d !!! i0 = false /\ vd_free d !!! i1 = false /\ vd_free d !!! i2 = false ->
  linked_to d i0 i1 -> linked_to d i1 i2 -> has (vq_flags (vd_desc d !!! i2)) VRING_DESC_F_NEXT = false ->
  exists y', free_chain i0 (in_lock y ks bs d) =
    Ok tt (in_lock y' ks bs (freed_desc i2 (freed_desc i1 (freed_desc i0 d)))) /\ woken y y'.
Proof.
  intros Hw Hlf Hld (L0 & L1 & L2) (N01 & N02 & N12) (F0 & F1 & F2) [K0 X0] [K1 X1] K2. unfold free_chain.
  destruct (free_chain_step y ks bs d i0 Hw L0 F0) as (y1 & E1 & W1 & H1). rewrite K0, X0 in E1.
  set (d1 := freed_desc i0 d) in *.
  destruct (free_chain_step y1 ks bs d1 i1 H1 L1) as (y2 & E2 & W2 & H2).
  { simpl. by rewrite list_lookup_total_insert_ne. }
  unfold d1 in E2. simpl in E2. rewrite (list_lookup_total_insert_ne (vd_desc d)), K1, X1 in E2 by done. fold d1 in E2.
  set (d2 := freed_desc i1 d1) in *.
  destruct (free_chain_step y2 ks bs d2 i2 H2 L2) as (y3 & E3 & W3 & H3).
  { simpl. by rewrite !list_lookup_total_insert_ne. }
  unfold d2, d1 in E3. simpl in E3. rewrite !(list_lookup_total_insert_ne), K2 in E3 by done. fold d1 in E3. fold d2 in E3.
  exists y3. split; [|by do 2 (etrans; [eassumption|])].
  change (S NUM) with 9%nat. cbn [while]. krun E1. krun E2. by krun E3.
Qed.

(** ** A transfer *)

(** [virtio_disk_rw] up to its sleep, and what is left after it. *)
Lemma virtio_rw_sleeps me b write y ks bs d :
  calm me y -> queue_idle d -> (b < length bs)%nat ->
  let sector := u32 (b_blockno (bs !!! b) * (BSIZE / 512)) in
  exists i0 i1 i2 k, three d i0 i1 i2 /\
    virtio_rw b write (Bio (Slk y ks) bs d) =
    Switch (Bio (Slk (asleep me (Ch_buf b) L_vdisk (locked L_vdisk y)) ks) (alter (set_b_disk true) b bs)
              (posted b write i0 i1 i2 sector (set_vd_free (taken3 i0 i1 i2 (vd_free d)) d))) k /\
    forall t y', wake_rest me L_vdisk (c_intena (scpu (locked L_vdisk y))) (bi_sys t) = Ok tt y' ->
      k t = (while wake_bound (rw_wait_body b) tt ;; rw_done i0) (lset bi_sysL y' t).
Proof.
  intros Hc Q Hb sector. unfold virtio_rw, get_buf. rewrite bind_gets.
  set (s := Bio (Slk y ks) bs d). krun (zoom_acquire bi_sysL L_vdisk s (ca_idle _ _ Hc L_vdisk I)).
  set (s1 := lset _ _ s). destruct (alloc3_ok s1 Q) as (i0 & i1 & i2 & H3 & Ea).
  exists i0, i1, i2. set (s2 := on_dev _ s1) in Ea.
  rewrite (bind_Ok _ _ _ [i0; i1; i2] s2).
  2: { cbn [while]. rewrite (bind_Ok _ _ _ (inr [i0; i1; i2]) s2); [done|]. unfold rw_alloc_body. by krun Ea. }
  cbn [lookup_total list_lookup_total]. krun (rw_post_ok b write i0 i1 i2 sector s2).
  set (s3 := Bio _ _ (posted _ _ _ _ _ _ _)).
  destruct (sleep_ok me (Ch_buf b) L_vdisk (locked L_vdisk y)) as (k & Es & Hk);
    [by apply calm_sleep_pre|].
  assert (Hd : b_disk (buf_of s3 b) = true).
  { unfold buf_of, s3. simpl. by rewrite list_lookup_total_alter_eq. }
  apply (zoom_Switch bi_sysL _ s3) in Es. eexists. split; [exact H3|]. split.
  - cbn [while]. unfold rw_wait_body at 1, get_buf. apply bind_Switch, bind_Switch. rewrite bind_gets, Hd.
    by apply bind_Switch.
  - intros t y' Ht. cbn beta. rewrite Hk. change (lget bi_sysL t) with (bi_sys t). rewrite Ht. reflexivity.
Qed.

(** After the wake-up: the buffer is no longer with the device, and the
    descriptors are given back. *)
Lemma virtio_rw_ends me b y ks bs d i0 i1 i2 :
  (0 < wake_bound)%nat -> calm me y -> b_disk (bs !!! b) = false ->
  length (vd_free d) = NUM -> length (vd_desc d) = NUM -> length (vd_info d) = NUM ->
  (i0 < NUM /\ i1 < NUM /\ i2 < NUM)%nat -> i0 <> i1 /\ i0 <> i2 /\ i1 <> i2 ->
  vd_free d !!! i0 = false /\ vd_free d !!! i1 = false /\ vd_free d !!! i2 = false ->
  linked_to d i0 i1 -> linked_to d i1 i2 -> has (vq_flags (vd_desc d !!! i2)) VRING_DESC_F_NEXT = false ->
  exists y', (while wake_bound (rw_wait_body b) tt ;; rw_done i0) (in_lock y ks bs d) =
    Ok tt (Bio (Slk y' ks) bs (freed_desc i2 (freed_desc i1 (freed_desc i0
      (set_vd_info (alter (fun x => Info None (in_status x)) i0 (vd_info d)) d))))) /\ woken y y'.
Proof.
  intros Hwb Hc Hb Hlf Hld Hli L N F K0 K1 K2. destruct wake_bound as [|n]; [lia|].
  set (s := in_lock y ks bs d).
  rewrite (bind_Ok _ _ _ tt s).
  2: { cbn [while]. rewrite (bind_Ok _ _ _ (inr tt) s); [done|]. unfold rw_wait_body, get_buf. rewrite bind_gets.
       change (buf_of s b) with (bs !!! b). by rewrite Hb. }
  unfold rw_done, upd_vd. rewrite bind_modify.
  set (d1 := set_vd_info _ d).
  destruct (free_chain_ok y ks bs d1 i0 i1 i2) as (y' & E & Hy); try done; [by apply (wakeable_calm me)|].
  change (Bio (bi_slk s) (bi_bufs s) d1) with (in_lock y ks bs d1). krun E. exists y'. split; [|done].
  rewrite (zoom_release bi_sysL L_vdisk y'); [done| | |done].
  - apply (woken_settled y); [done|apply Hc].
  - unfold lock_idle. rewrite (wo_locks _ _ Hy). by apply Hc.
Qed.

Lemma give_back (f : list bool) i0 i1 i2 :
  (i0 < length f /\ i1 < length f /\ i2 < length f)%nat ->
  f !!! i0 = true /\ f !!! i1 = true /\ f !!! i2 = true ->
  <[i2 := true]> (<[i1 := true]> (<[i0 := true]> (taken3 i0 i1 i2 f))) = f.
Proof.
  intros (L0 & L1 & L2) (F0 & F1 & F2). unfold taken3. apply list_eq. intros j.
  assert (Hl : forall i, f !!! i = true -> (i < length f)%nat -> f !! i = Some true).
  { intros i H Hi. destruct (lookup_lt_is_Some_2 f i Hi) as [x Hx]. rewrite list_lookup_total_alt, Hx in H. simpl in H. by rewrite Hx, H. }
  destruct (decide (i2 = j)) as [<-|N2]; [rewrite list_lookup_insert_eq by (rewrite !length_insert; lia); by rewrite Hl|].
  rewrite list_lookup_insert_ne by done.
  destruct (decide (i1 = j)) as [<-|N1]; [rewrite list_lookup_insert_eq by (rewrite !length_insert; lia); by rewrite Hl|].
  rewrite list_lookup_insert_ne by done.
  destruct (decide (i0 = j)) as [<-|N0]; [rewrite list_lookup_insert_eq by (rewrite !length_insert; lia); by rewrite Hl|].
  by rewrite !list_lookup_insert_ne by done.
Qed.

Lemma taken3_false (f : list bool) i0 i1 i2 :
  (i0 < length f /\ i1 < length f /\ i2 < length f)%nat -> i0 <> i1 /\ i0 <> i2 /\ i1 <> i2 ->
  taken3 i0 i1 i2 f !!! i0 = false /\ taken3 i0 i1 i2 f !!! i1 = false /\ taken3 i0 i1 i2 f !!! i2 = false.
Proof.
  intros (L0 & L1 & L2) (N01 & N02 & N12). unfold taken3. split; [|split].
  - rewrite !list_lookup_total_insert_ne by done. by apply list_lookup_total_insert_eq.
  - rewrite list_lookup_total_insert_ne by done. apply list_lookup_total_insert_eq. by rewrite length_insert.
  - apply list_lookup_total_insert_eq. by rewrite !length_insert.
Qed.

(** The queue when a request has come and gone. *)
Lemma queue_again b write i0 i1 i2 sector d pl regs :
  queue_idle d -> three d i0 i1 i2 ->
  let d2 := posted b write i0 i1 i2 sector (set_vd_free (taken3 i0 i1 i2 (vd_free d)) d) in
  let d4 := set_vd_used_idx (u16 (vd_avail_idx d + 1)) (set_vd_regs regs (served (Request i0 write sector b) pl d2)) in
  let d5 := freed_desc i2 (freed_desc i1 (freed_desc i0
    (set_vd_info (alter (fun x => Info None (in_status x)) i0 (vd_info d4)) d4))) in
  queue_idle d5 /\ vd_platter d5 = pl.
Proof.
  intros [Q1 Q2 Q3 Q4 Q5 Q6 Q7 Q8 Q9 Q10] [T1 T2 T3] d2 d4 d5. split; [|done].
  assert (Ef : vd_free d5 = vd_free d) by (simpl; apply give_back; [rewrite Q4|]; done).
  split; simpl; rewrite ?length_insert, ?length_alter, ?length_insert; try done.
  - unfold taken3. by rewrite !length_insert.
  - unfold u16. apply Z.mod_pos_bound. lia.
  - by rewrite Q8.
  - unfold free_descs in *. by rewrite Ef.
Qed.

End Driver.

Section Transfer.
Context {mach : Machine} (device : list buf -> vdisk -> list buf * vdisk).

Definition device_runs : M (bio vdisk) unit := fun s =>
  let '(bs, d) := device (bi_bufs s) (bi_dev s) in Ok tt (Bio (bi_slk s) bs d).

(** What happens while process [me] sleeps: its hart goes back to the scheduler,
    the device serves the request and interrupts, and the scheduler comes to [me]
    in the process table. *)
Definition meanwhile (me : nat) : M (bio vdisk) bool :=
  zoom bi_sysL (back_in_scheduler me) ;;
  device_runs ;;
  virtio_disk_intr ;;
  zoom bi_sysL (scheduler_scan [me] false).

(** A call of [virtio_disk_rw] by the process that runs, with what happens while
    it sleeps. *)
Definition transfer (b : nat) (write : bool) : M (bio vdisk) unit := fun s =>
  match c_proc (scpu (bi_sys s)), virtio_rw b write s with
  | Some me, Switch s1 k =>
      match meanwhile me s1 with
      | Switch t _ => k t
      | Ok _ _ => Fuel
      | Panic m t => Panic m t
      | Spin t => Spin t
      | Fuel => Fuel
      end
  | _, o => o
  end.

Hypothesis Hdevice : device_law device.
Hypothesis Hwake : (0 < wake_bound)%nat.

(** The block that a transfer moves, and the data of its buffer afterwards. *)
Definition moved_data (write : bool) (b : nat) (bs : list buf) (pl : disk) : list buf :=
  if write then bs else alter (set_b_data (dk_get pl (b_blockno (bs !!! b)))) b bs.

Definition moved_disk (write : bool) (b : nat) (bs : list buf) (pl : disk) : disk :=
  if write then dk_put (b_blockno (bs !!! b)) (b_data (bs !!! b)) pl else pl.

Lemma sector_block n : 0 <= n < 2 ^ 31 -> u32 (n * (BSIZE / 512)) = n * 2.
Proof. intros H. change (BSIZE / 512) with 2. apply u32_small. lia. Qed.

Lemma device_serves b write i0 i1 i2 bs d f :
  queue_idle d -> three d i0 i1 i2 -> (b < length bs)%nat -> 0 <= b_blockno (bs !!! b) < 2 ^ 31 ->
  let sector := u32 (b_blockno (bs !!! b) * (BSIZE / 512)) in
  let d2 := posted b write i0 i1 i2 sector (set_vd_free f d) in
  let bs1 := alter (set_b_disk true) b bs in
  device bs1 d2 =
  (moved_data write b bs1 (vd_platter d),
   served (Request i0 write sector b) (moved_disk write b bs1 (vd_platter d)) d2).
Proof.
  intros Q H3 Hb Hn sector d2 bs1.
  destruct (posted_request b write i0 i1 i2 sector d f Q H3) as [H1 H2]. fold d2 in H1, H2.
  assert (Es : sector = b_blockno (bs !!! b) * 2) by (by apply sector_block).
  assert (E1 : b_blockno (bs1 !!! b) = b_blockno (bs !!! b)).
  { unfold bs1. by rewrite list_lookup_total_alter_eq. }
  rewrite (Hdevice bs1 d2 i0 _ H1 H2); cbn [rq_at]; rewrite Es; [|apply Z.mod_mul; lia].
  rewrite Z.div_mul by lia. cbn [rq_out rq_buf]. unfold moved_data, moved_disk. rewrite E1. by destruct write.
Qed.

Lemma meanwhile_ok me b write i0 i1 i2 y ks bs d :
  calm me y -> queue_idle d -> three d i0 i1 i2 -> (b < length bs)%nat -> 0 <= b_blockno (bs !!! b) < 2 ^ 31 ->
  let sector := u32 (b_blockno (bs !!! b) * (BSIZE / 512)) in
  let d2 := posted b write i0 i1 i2 sector (set_vd_free (taken3 i0 i1 i2 (vd_free d)) d) in
  let bs1 := alter (set_b_disk true) b bs in
  exists z regs k,
    meanwhile me (Bio (Slk (asleep me (Ch_buf b) L_vdisk (locked L_vdisk y)) ks) bs1 d2) =
    Switch (Bio (Slk (dispatch me z) ks) (alter (set_b_disk false) b (moved_data write b bs1 (vd_platter d)))
      (set_vd_used_idx (u16 (vd_avail_idx d + 1)) (set_vd_regs regs
         (served (Request i0 write sector b) (moved_disk write b bs1 (vd_platter d)) d2)))) k /\
    woken (parked me (Ch_buf b) y) z.
Proof.
  intros Hc Q H3 Hb Hn sector d2 bs1. unfold meanwhile. set (s1 := Bio (Slk _ ks) bs1 d2).
  pose proof (parked_ok me (Ch_buf b) L_vdisk y Hc I ltac:(done)) as Hp. apply (zoom_Ok bi_sysL _ s1) in Hp. krun Hp.
  pose proof (device_serves b write i0 i1 i2 bs d (taken3 i0 i1 i2 (vd_free d)) Q H3 Hb Hn) as Hdv.
  fold sector in Hdv. fold d2 in Hdv. fold bs1 in Hdv.
  rewrite (bind_Ok _ _ _ tt (Bio (Slk (parked me (Ch_buf b) y) ks) (moved_data write b bs1 (vd_platter d))
    (served (Request i0 write sector b) (moved_disk write b bs1 (vd_platter d)) d2))).
  2: { exact (f_equal (fun r => let '(x, e) := r in Ok tt (Bio (Slk (parked me (Ch_buf b) y) ks) x e)) Hdv). }
  destruct (virtio_intr_ok (parked me (Ch_buf b) y) ks (moved_data write b bs1 (vd_platter d))
    (served (Request i0 write sector b) (moved_disk write b bs1 (vd_platter d)) d2) i0 b) as (z & regs & Ei & Hw & Hr).
  - by apply parked_wakeable.
  - done.
  - exact (ca_idle _ _ Hc L_vdisk I).
  - simpl. rewrite (qi_drv _ Q). apply Q.
  - simpl. by rewrite (qi_drv _ Q), (qi_hw _ Q).
  - simpl. rewrite (qi_drv _ Q), (qi_hw _ Q). apply list_lookup_total_insert_eq. rewrite (qi_used _ Q). apply ring_slot.
  - simpl. rewrite list_lookup_total_alter_eq by (rewrite length_insert, (qi_info _ Q); apply H3).
    rewrite list_lookup_total_insert_eq; [done|]. rewrite (qi_info _ Q). apply H3.
  - destruct (dispatch_ok me false z) as (k & Ek).
    + unfold lock_idle. rewrite (wo_locks _ _ Hw). apply (ca_idle _ _ Hc (L_proc me)), Hc.
    + pose proof (proc_parked me (Ch_buf b) y Hc) as [P1 P2]. apply Hr; [done|done|apply Hc].
    + exists z, regs. eexists. split; [|done]. krun Ei. simpl. rewrite (qi_hw _ Q).
      match goal with |- zoom _ _ ?t = _ => apply (zoom_Switch bi_sysL _ t) in Ek end. exact Ek.
Qed.

Lemma transfer_ok me b write y ks bs d :
  calm me y -> queue_idle d -> (b < length bs)%nat -> 0 <= b_blockno (bs !!! b) < 2 ^ 31 ->
  exists y' d', transfer b write (Bio (Slk y ks) bs d) =
      Ok tt (Bio (Slk y' ks) (alter (set_b_disk false) b (moved_data write b bs (vd_platter d))) d') /\
    woken y y' /\ queue_idle d' /\ vd_platter d' = moved_disk write b bs (vd_platter d).
Proof.
  intros Hc Q Hb Hn. set (sector := u32 (b_blockno (bs !!! b) * (BSIZE / 512))).
  destruct (virtio_rw_sleeps me b write y ks bs d Hc Q Hb) as (i0 & i1 & i2 & k & H3 & E & Hk).
  destruct (meanwhile_ok me b write i0 i1 i2 y ks bs d Hc Q H3 Hb Hn) as (z & regs & k' & Em & Hw).
  unfold transfer. change (bi_sys (Bio (Slk y ks) bs d)) with y. rewrite (ca_me _ _ Hc), E, Em. fold sector.
  set (bs1 := alter (set_b_disk true) b bs).
  set (d2 := posted b write i0 i1 i2 sector (set_vd_free (taken3 i0 i1 i2 (vd_free d)) d)).
  set (pl := moved_disk write b bs1 (vd_platter d)).
  set (d4 := set_vd_used_idx _ _). set (bs4 := alter (set_b_disk false) b _).
  destruct (resumed_ok me (Ch_buf b) L_vdisk y z Hc I ltac:(done) Hw) as (y1 & Ew & Hy1).
  rewrite (Hk (Bio (Slk (dispatch me z) ks) bs4 d4) _ Ew).
  assert (Hb1 : bs1 !!! b = set_b_disk true (bs !!! b)) by (by apply list_lookup_total_alter_eq).
  assert (Hpl : pl = moved_disk write b bs (vd_platter d)) by (unfold pl, moved_disk; by rewrite Hb1).
  assert (Hbs : bs4 = alter (set_b_disk false) b (moved_data write b bs (vd_platter d))).
  { unfold bs4, moved_data. rewrite Hb1. destruct write; unfold bs1; by rewrite !list_alter_alter_eq. }
  destruct (posted_desc b write i0 i1 i2 sector d (taken3 i0 i1 i2 (vd_free d)) Q H3) as (E0 & E1 & E2).
  destruct (virtio_rw_ends me b y1 ks bs4 d4 i0 i1 i2) as (y2 & Ee & Hy2).
  - done.
  - by eapply calm_woken.
  - unfold bs4. rewrite list_lookup_total_alter_eq; [done|]. unfold moved_data, bs1.
    destruct write; rewrite ?length_alter; done.
  - simpl. unfold taken3. rewrite !length_insert. apply Q.
  - simpl. rewrite !length_insert. apply Q.
  - simpl. rewrite length_alter, length_insert. apply Q.
  - apply H3.
  - apply H3.
  - apply taken3_false; [rewrite (qi_free _ Q)|]; apply H3.
  - split; [|]; change (vd_desc d4) with (vd_desc d2); unfold d2; by rewrite E0.
  - split; [|]; change (vd_desc d4) with (vd_desc d2); unfold d2; rewrite E1; [by destruct write|done].
  - change (vd_desc d4) with (vd_desc d2). unfold d2. by rewrite E2.
  - destruct (queue_again b write i0 i1 i2 sector d pl regs Q H3) as [H4 H5].
    exists y2. eexists. rewrite <- Hbs, <- Hpl. split; [exact Ee|]. split; [by etrans|]. split; [exact H4|exact H5].
Qed.

(** The driver and the device behind the interface of the buffer cache. *)
Definition device_driver : DiskDriver vdisk := {| virtio_disk_rw := transfer; dev_disk := vd_platter |}.

Lemma device_driver_ok : @DiskDriverOk vdisk device_driver.
Proof.
  refine (@Build_DiskDriverOk vdisk device_driver queue_idle _ _); intros me i [[y ks] bs d] Hc Hd Hi Hl Hn; simpl in *.
  - destruct (transfer_ok me i false y ks bs d) as (y' & d' & E & H); [done|done|lia|done|].
    exists y', d'. unfold moved_data in E. rewrite list_alter_alter_eq in E. by split.
  - destruct (transfer_ok me i true y ks bs d) as (y' & d' & E & H); [done|done|lia|done|].
    exists y', d'. by split.
Defined.

(** C4: a call of [virtio_disk_rw] with any device that obeys the virtio protocol
    returns, whatever else was woken up: a write has put exactly the buffer's data
    on exactly its block, a read has filled exactly the buffer from its block,
    [b->disk] is clear, and the queue is idle again with every descriptor it had.
    So the kernel's own driver is one that the buffer cache can rely on. *)
Theorem virtio_disk_rw_correct (me b : nat) (write : bool) (s : bio vdisk)
    (Hc : calm me (bi_sys s)) (Q : queue_idle (bi_dev s)) (Hb : (b < length (bi_bufs s))%nat)
    (Hn : 0 <= b_blockno (buf_of s b) < 2 ^ 31) :
  let d := bi_dev s in
  exists y d', transfer b write s =
      Ok tt (Bio (set_sk_sys y (bi_slk s))
               (alter (fun x => set_b_disk false
                  (if write then x else set_b_data (dk_get (vd_platter d) (b_blockno (buf_of s b))) x)) b (bi_bufs s)) d') /\
    woken (bi_sys s) y /\ queue_idle d' /\
    vd_platter d' = if write then dk_put (b_blockno (buf_of s b)) (b_data (buf_of s b)) (vd_platter d)
                    else vd_platter d.
Proof.
  destruct s as [[y ks] bs d]. destruct (transfer_ok me b write y ks bs d Hc Q Hb Hn) as (y' & d' & E & H).
  exists y', d'. split; [|exact H]. etrans; [exact E|]. unfold moved_data.
  destruct write; [done|]. by rewrite list_alter_alter_eq.
Qed.

End Transfer.

(** ** A device *)

(** The device that serves a pending request and does nothing else. *)
Definition plain_device (bufs : list buf) (d : vdisk) : list buf * vdisk :=
  match pending d with
  | Some h =>
      match read_chain d h with
      | Some r =>
          if rq_out r
          then (bufs, served r (dk_put (rq_at r / 2) (b_data (bufs !!! rq_buf r)) (vd_platter d)) d)
          else (alter (set_b_data (dk_get (vd_platter d) (rq_at r / 2))) (rq_buf r) bufs, served r (vd_platter d) d)
      | None => (bufs, d)
      end
  | None => (bufs, d)
  end.

Lemma plain_device_law : device_law plain_device.
Proof. intros bufs d h r Hp Hr _. unfold plain_device. rewrite Hp, Hr. done. Qed.

(** The queue as [virtio_disk_init] leaves it. *)
Definition vdisk_boot (pl : disk) : vdisk :=
  Vdisk (replicate NUM desc_zero) 0 (replicate NUM 0%nat) 0 (replicate NUM 0%nat) (replicate NUM true) 0
    (replicate NUM (Info None 0)) (replicate NUM (BlkReq 0 0 0)) [] pl.

Lemma vdisk_boot_idle pl : queue_idle (vdisk_boot pl).
Proof. split; try reflexivity; simpl; [lia|]. unfold free_descs. simpl. repeat constructor. Qed.

Lemma virtio_disk_rw_correct_witness :
  exists s s', transfer (mach := demo_machine) plain_device 3 true s = Ok tt s' /\
    vd_platter (bi_dev s') = dk_put 0 zero_block (vd_platter (bi_dev s)).
Proof.
  destruct (virtio_disk_rw_correct (mach := demo_machine) plain_device plain_device_law ltac:(simpl; lia) 0 3 true
    (Bio (Slk calm_sys ∅) (replicate (S NBUF) buf_zero) (vdisk_boot empty_disk)) calm_sys_ok
    (vdisk_boot_idle empty_disk)) as (y & d' & E & _ & _ & Hd).
  - cbn [bi_bufs]. rewrite length_replicate. unfold NBUF. lia.
  - simpl. lia.
  - eexists. eexists. split; [exact E|exact Hd].
Defined.
