(* ===== verification/Fs.v ===== *)
(** * [kernel/fs.c], with the on-disk format of [kernel/fs.h]

    Blocks and the free bitmap, inodes on disk and in memory, file contents,
    directories and path names.  A struct that the C code keeps on the kernel
    stack and hands to [readi] or [writei] by address is a value here: [dest] and
    [src] say where the bytes go to and come from.  Paths are lists of bytes
    without the terminating nul; a name buffer is the 14 bytes of
    [char name[DIRSIZ]].  An inode pointer is its index in the table, the null
    pointer [None]. *)

From S2P Require Import Prelude Riscv Memory CString Sys Spinlock Proc Kalloc Vm Sleeplock Uart Printf Either Console Bio Block Log Kernel Machine.

(** ** fs.h, stat.h *)

Definition FSMAGIC : Z := 0x10203040.

Definition ROOTINO : Z := 1.

Definition NINDIRECT : Z := BSIZE / 4.

Definition MAXFILE : Z := Z.of_nat NDIRECT + NINDIRECT.

Definition sizeof_dinode : nat := 64.

Definition IPB : Z := BSIZE / Z.of_nat sizeof_dinode.

Definition IBLOCK (i : Z) (sb : superblock) : Z := u32 (i / IPB + sb_inodestart sb).

Definition BPB : Z := BSIZE * 8.

Definition BBLOCK (b : Z) (sb : superblock) : Z := u32 (b / BPB + sb_bmapstart sb).

Definition DIRSIZ : nat := 14.

Definition sizeof_dirent : Z := 16.

Definition T_DIR : Z := 1.

Definition T_FILE : Z := 2.

Definition T_DEVICE : Z := 3.

(** The [short] a 16-bit pattern denotes. *)
Definition s16 (z : Z) : Z :=
  let r := z mod 2 ^ 16 in if r <? 2 ^ 15 then r else r - 2 ^ 16.

(** struct superblock, in block 1. *)
Definition superblock_of (x : block) : superblock :=
  Superblock (get32 x 0) (get32 x 4) (get32 x 8) (get32 x 12) (get32 x 16) (get32 x 20) (get32 x 24) (get32 x 28).

(** struct dinode: the fields of the inode at byte [o] of a block. *)
Record dinode := Dinode {
  d_type : Z;
  d_major : Z;
  d_minor : Z;
  d_nlink : Z;
  d_size : Z;
  d_addrs : list Z
}.

Definition dinode_at (x : block) (o : nat) : dinode :=
  Dinode (s16 (get16 x o)) (s16 (get16 x (o + 2))) (s16 (get16 x (o + 4))) (s16 (get16 x (o + 6)))
    (get32 x (o + 8)) (map (fun k => get32 x (o + 12 + 4 * k)) (seq 0 (S NDIRECT))).

Fixpoint put_addrs (o : nat) (l : list Z) (x : block) : block :=
  match l with
  | [] => x
  | a :: l => put_addrs (o + 4) l (put32 o a x)
  end.

Definition put_dinode (o : nat) (d : dinode) (x : block) : block :=
  put_addrs (o + 12) (d_addrs d)
    (put32 (o + 8) (d_size d)
      (put16 (o + 6) (d_nlink d) (put16 (o + 4) (d_minor d) (put16 (o + 2) (d_major d) (put16 o (d_type d) x))))).

(** [(struct dinode star)bp->data + inum%IPB] *)
Definition dinode_off (inum : Z) : nat := sizeof_dinode * Z.to_nat (inum mod IPB).

(** Bit [bi] of a bitmap block. *)
Definition bit_set (x : block) (bi : Z) : bool :=
  has (byte.unsigned (x !!! Z.to_nat (bi / 8))) (Z.shiftl 1 (bi mod 8)).

Definition set_bit (bi : Z) (x : block) : block :=
  alter (fun b => byte.of_Z (Z.lor (byte.unsigned b) (Z.shiftl 1 (bi mod 8)))) (Z.to_nat (bi / 8)) x.

Definition clear_bit (bi : Z) (x : block) : block :=
  alter (fun b => byte.of_Z (Z.land (byte.unsigned b) (Z.lnot (Z.shiftl 1 (bi mod 8))))) (Z.to_nat (bi / 8)) x.

(** struct dirent *)
Definition dirent_inum (de : list byte) : Z := get16 de 0.

Definition dirent_name (de : list byte) : list byte := drop 2 de.

Definition dirent_of (inum : Z) (name : list byte) : list byte := le_split 2 inum ++ name.

(** ** Strings in arrays of the kernel *)

(** Two arrays in a memory of their own, at 0 and at 1024, nul beyond. *)
Definition two_arrays (s t : list byte) : mem := st_bytes (st_bytes ∅ 0 s) 1024 t.

Definition namecmp (s t : list byte) : Z := strncmp (two_arrays s t) 0 1024 (Z.of_nat DIRSIZ).

(** The array [name] after [strncpy(name, src, DIRSIZ)]. *)
Definition strncpy_name (name src : list byte) : list byte :=
  ld_bytes (strncpy (two_arrays name src) 0 1024 (Z.of_nat DIRSIZ)) 0 DIRSIZ.

(** ** Path elements *)

Definition SLASH : byte := Byte.x2f.

Fixpoint skip_slashes (path : list byte) : list byte :=
  match path with
  | b :: path' => if Byte.eqb b SLASH then skip_slashes path' else path
  | [] => []
  end.

(** The characters up to the next slash, and the path from there on. *)
Fixpoint take_elem (path : list byte) : list byte * list byte :=
  match path with
  | b :: path' => if Byte.eqb b SLASH then ([], path) else let '(s, rest) := take_elem path' in (b :: s, rest)
  | [] => ([], [])
  end.

(** The rest of the path and the name buffer, or [None] when no name is left. *)
Definition skipelem (path name : list byte) : option (list byte * list byte) :=
  let path := skip_slashes path in
  match path with
  | [] => None
  | _ =>
      let '(s, path) := take_elem path in
      let len := length s in
      let name := if (DIRSIZ <=? len)%nat then take DIRSIZ s ++ drop DIRSIZ name
                  else s ++ [Byte.x00] ++ drop (S len) name in
      Some (skip_slashes path, name)
  end.

(** ** Operations *)

(** Where [readi] copies to: a user address, an address in the kernel's memory,
    or a struct of the caller, whose bytes are returned. *)
Inductive dest := ToUser (va : Z) | ToKernel (pa : Z) | ToLocal.

(** Where [writei] copies from: a user address, or a struct of the caller. *)
Inductive src := FromUser (va : Z) | FromLocal (bs : list byte).

Section Fs.
Context {D : Type} `{!DiskDriver D} `{!Machine}.

Definition kprintf (fmt : string) (ap : list va) : M (kernel D) unit :=
  let! _ := zoom k_ttyL (printf uart_dev poll_bound (bytes_of fmt ++ [Byte.x0a]) ap) in ret tt.

Definition fs_bread (dev b : Z) : M (kernel D) nat := zoom k_bioL (bread wake_bound (u32 dev) (u32 b)).

Definition fs_brelse (b : nat) : M (kernel D) unit := zoom k_bioL (brelse b).

Definition fs_log_write (b : nat) : M (kernel D) unit := zoom k_logL (log_write b).

(** [bp->data] *)
Definition get_data (b : nat) : M (kernel D) block :=
  let! x := zoom k_bioL (get_buf b) in ret (b_data x).

Definition upd_data (b : nat) (f : block -> block) : M (kernel D) unit :=
  zoom k_bioL (upd_buf b (fun x => set_b_data (f (b_data x)) x)).

Definition readsb (dev : Z) : M (kernel D) unit :=
  let! bp := fs_bread dev 1 in
  let! x := get_data bp in
  modify (set_k_sb (superblock_of x)) ;;
  fs_brelse bp.

Definition fsinit (dev : Z) : M (kernel D) unit :=
  readsb dev ;;
  let! sb := gets k_sb in
  if negb (sb_magic sb =? FSMAGIC) then panic "invalid file system" else
  zoom k_logL (initlog wake_bound dev sb).

Definition bzero (dev bno : Z) : M (kernel D) unit :=
  let! bp := fs_bread dev bno in
  upd_data bp (fun _ => zero_block) ;;
  fs_log_write bp ;;
  fs_brelse bp.

(** *** Blocks *)

(** The inner loop of [balloc]: the first free bit from [bi] on. *)
Fixpoint balloc_scan (x : block) (b size bi : Z) (k : nat) : option Z :=
  match k with
  | O => None
  | S k =>
      if b + bi <? size then
        if negb (bit_set x bi) then Some bi else balloc_scan x b size (bi + 1) k
      else None
  end.

Definition balloc_body (dev : Z) (b : Z) : M (kernel D) (Z + Z) :=
  let! sb := gets k_sb in
  if negb (b <? sb_size sb) then
    kprintf "balloc: out of blocks" [] ;;
    ret (inr 0)
  else
  let! bp := fs_bread dev (BBLOCK b sb) in
  let! x := get_data bp in
  match balloc_scan x b (sb_size sb) 0 (Z.to_nat BPB) with
  | Some bi =>
      upd_data bp (set_bit bi) ;;   (* Mark block in use. *)
      fs_log_write bp ;;
      fs_brelse bp ;;
      bzero dev (b + bi) ;;
      ret (inr (u32 (b + bi)))
  | None =>
      fs_brelse bp ;;
      ret (inl (b + BPB))
  end.

(** Each round but the last goes over a bitmap block. *)
Definition balloc (dev : Z) : M (kernel D) Z :=
  let! sb := gets k_sb in
  while (2 + Z.to_nat (sb_size sb / BPB)) (balloc_body dev) 0.

Definition bfree (dev b : Z) : M (kernel D) unit :=
  let! sb := gets k_sb in
  let! bp := fs_bread dev (BBLOCK b sb) in
  let bi := b mod BPB in
  let! x := get_data bp in
  if negb (bit_set x bi) then panic "freeing free block" else
  upd_data bp (clear_bit bi) ;;
  fs_log_write bp ;;
  fs_brelse bp.

(** *** Inodes *)

Definition get_inode (i : nat) : M (kernel D) inode := gets (fun k => k_itable k !!! i).

Definition upd_inode (i : nat) (f : inode -> inode) : M (kernel D) unit :=
  modify (fun k => set_k_itable (alter f i (k_itable k)) k).

Definition iinit : M (kernel D) unit :=
  zoom k_sysL (initlock L_itable "itable") ;;
  forM (seq 0 NINODE) (fun i => zoom k_slkL (initsleeplock (SInode i) "inode")).

(** The scan of [iget]: the entry that holds the inode, or the first free one. *)
Fixpoint iget_scan (dev inum : Z) (l : list inode) (i : nat) (empty : option nat) : nat + option nat :=
  match l with
  | [] => inr empty
  | ip :: l =>
      if (0 <? i_ref ip) && (i_dev ip =? dev) && (i_inum ip =? inum) then inl i
      else iget_scan dev inum l (S i)
             (match empty with None => if i_ref ip =? 0 then Some i else None | _ => empty end)
  end.

Definition iget (dev inum : Z) : M (kernel D) nat :=
  zoom k_sysL (acquire L_itable) ;;
  let! l := gets k_itable in
  match iget_scan dev inum (take NINODE l) 0 None with
  | inl ip =>
      upd_inode ip (fun x => set_i_ref (i_ref x + 1) x) ;;
      zoom k_sysL (release L_itable) ;;
      ret ip
  | inr None => panic "iget: no inodes"
  | inr (Some ip) =>
      (* Recycle an inode entry. *)
      upd_inode ip (set_i_dev dev) ;;
      upd_inode ip (set_i_inum inum) ;;
      upd_inode ip (set_i_ref 1) ;;
      upd_inode ip (set_i_valid false) ;;
      zoom k_sysL (release L_itable) ;;
      ret ip
  end.

Definition ialloc_body (dev type : Z) (inum : Z) : M (kernel D) (Z + option nat) :=
  let! sb := gets k_sb in
  if negb (inum <? sb_ninodes sb) then
    kprintf "ialloc: no inodes" [] ;;
    ret (inr None)
  else
  let! bp := fs_bread dev (IBLOCK inum sb) in
  let! x := get_data bp in
  if d_type (dinode_at x (dinode_off inum)) =? 0 then  (* a free inode *)
    upd_data bp (put_bytes (dinode_off inum) (replicate sizeof_dinode Byte.x00)) ;;
    upd_data bp (put16 (dinode_off inum) type) ;;
    fs_log_write bp ;;   (* mark it allocated on the disk *)
    fs_brelse bp ;;
    let! ip := iget dev inum in
    ret (inr (Some ip))
  else
    fs_brelse bp ;;
    ret (inl (inum + 1)).

Definition ialloc (dev type : Z) : M (kernel D) (option nat) :=
  let! sb := gets k_sb in
  while (S (Z.to_nat (sb_ninodes sb))) (ialloc_body dev type) 1.

Definition dinode_of (ip : inode) : dinode :=
  Dinode (i_type ip) (i_major ip) (i_minor ip) (i_nlink ip) (i_size ip) (i_addrs ip).

Definition iupdate (i : nat) : M (kernel D) unit :=
  let! ip := get_inode i in
  let! sb := gets k_sb in
  let! bp := fs_bread (i_dev ip) (IBLOCK (i_inum ip) sb) in
  upd_data bp (put_dinode (dinode_off (i_inum ip)) (dinode_of ip)) ;;
  fs_log_write bp ;;
  fs_brelse bp.

Definition idup (i : nat) : M (kernel D) nat :=
  zoom k_sysL (acquire L_itable) ;;
  upd_inode i (fun x => set_i_ref (i_ref x + 1) x) ;;
  zoom k_sysL (release L_itable) ;;
  ret i.

(** The fields [ilock] copies from the disk. *)
Definition load_dinode (d : dinode) (ip : inode) : inode :=
  Inode (i_dev ip) (i_inum ip) (i_ref ip) (i_valid ip) (d_type d) (d_major d) (d_minor d) (d_nlink d)
    (d_size d) (d_addrs d).

Definition ilock (o : option nat) : M (kernel D) unit :=
  match o with
  | None => panic "ilock"
  | Some i =>
      let! ip := get_inode i in
      if i_ref ip <? 1 then panic "ilock" else
      zoom k_slkL (acquiresleep wake_bound (SInode i)) ;;
      let! ip := get_inode i in
      if negb (i_valid ip) then
        let! sb := gets k_sb in
        let! bp := fs_bread (i_dev ip) (IBLOCK (i_inum ip) sb) in
        let! x := get_data bp in
        let d := dinode_at x (dinode_off (i_inum ip)) in
        upd_inode i (load_dinode d) ;;
        fs_brelse bp ;;
        upd_inode i (set_i_valid true) ;;
        if d_type d =? 0 then panic "ilock: no type" else ret tt
      else ret tt
  end.

Definition iunlock (o : option nat) : M (kernel D) unit :=
  match o with
  | None => panic "iunlock"
  | Some i =>
      let! h := zoom k_slkL (holdingsleep (SInode i)) in
      let! ip := get_inode i in
      if negb h || (i_ref ip <? 1) then panic "iunlock" else
      zoom k_slkL (releasesleep (SInode i))
  end.

(** *** Inode content *)

(** A block number from [get], allocated and recorded by [put] when it is 0. *)
Definition bmap_slot (dev addr : Z) (put : Z -> M (kernel D) unit) : M (kernel D) Z :=
  if addr =? 0 then
    let! addr := balloc dev in
    if addr =? 0 then ret 0 else put addr ;; ret addr
  else ret addr.

Definition set_addr (i k : nat) (addr : Z) : M (kernel D) unit :=
  upd_inode i (fun x => set_i_addrs (<[k := addr]> (i_addrs x)) x).

Definition bmap (i : nat) (bn : Z) : M (kernel D) Z :=
  let! ip := get_inode i in
  if bn <? Z.of_nat NDIRECT then
    let k := Z.to_nat bn in
    bmap_slot (i_dev ip) (i_addrs ip !!! k) (set_addr i k)
  else
  let bn := bn - Z.of_nat NDIRECT in
  if bn <? NINDIRECT then
    (* Load indirect block, allocating if necessary. *)
    let! addr := bmap_slot (i_dev ip) (i_addrs ip !!! NDIRECT) (set_addr i NDIRECT) in
    if addr =? 0 then ret 0 else
    let! bp := fs_bread (i_dev ip) addr in
    let! x := get_data bp in
    let! addr := bmap_slot (i_dev ip) (get32 x (4 * Z.to_nat bn))
      (fun addr => upd_data bp (put32 (4 * Z.to_nat bn) addr) ;; fs_log_write bp) in
    fs_brelse bp ;;
    ret addr
  else panic "bmap: out of range".

Definition itrunc_direct (i k : nat) : M (kernel D) unit :=
  let! ip := get_inode i in
  if negb (i_addrs ip !!! k =? 0) then
    bfree (i_dev ip) (i_addrs ip !!! k) ;;
    set_addr i k 0
  else ret tt.

Definition itrunc_indirect (i bp j : nat) : M (kernel D) unit :=
  let! ip := get_inode i in
  let! x := get_data bp in
  let a := get32 x (4 * j) in
  if negb (a =? 0) then bfree (i_dev ip) a else ret tt.

Definition itrunc (i : nat) : M (kernel D) unit :=
  forM (seq 0 NDIRECT) (itrunc_direct i) ;;
  let! ip := get_inode i in
  (if negb (i_addrs ip !!! NDIRECT =? 0) then
     let! bp := fs_bread (i_dev ip) (i_addrs ip !!! NDIRECT) in
     forM (seq 0 (Z.to_nat NINDIRECT)) (itrunc_indirect i bp) ;;
     fs_brelse bp ;;
     bfree (i_dev ip) (i_addrs ip !!! NDIRECT) ;;
     set_addr i NDIRECT 0
   else ret tt) ;;
  upd_inode i (set_i_size 0) ;;
  iupdate i.

(** [iput(ip)]; a null pointer faults. *)
Definition iput (o : option nat) : M (kernel D) unit :=
  zoom k_sysL (acquire L_itable) ;;
  let! i := zoom k_sysL (deref o) in
  let! ip := get_inode i in
  (if (i_ref ip =? 1) && i_valid ip && (i_nlink ip =? 0) then
     (* inode has no links and no other references: truncate and free. *)
     zoom k_slkL (acquiresleep wake_bound (SInode i)) ;;
     zoom k_sysL (release L_itable) ;;
     itrunc i ;;
     upd_inode i (set_i_type 0) ;;
     iupdate i ;;
     upd_inode i (set_i_valid false) ;;
     zoom k_slkL (releasesleep (SInode i)) ;;
     zoom k_sysL (acquire L_itable)
   else ret tt) ;;
  upd_inode i (fun x => set_i_ref (i_ref x - 1) x) ;;
  zoom k_sysL (release L_itable).

Definition iunlockput (o : option nat) : M (kernel D) unit :=
  iunlock o ;;
  iput o.

(** struct stat, as [stati] fills it: dev, ino, type, nlink, padding, size. *)
Definition stati (ip : inode) : list byte :=
  le_split 4 (i_dev ip) ++ le_split 4 (i_inum ip) ++ le_split 2 (i_type ip) ++ le_split 2 (i_nlink ip) ++
  le_split 4 0 ++ le_split 8 (i_size ip).

(** [either_copyout] to where [readi] was told to, [tot] bytes on. *)
Definition copy_to (d : dest) (tot : Z) (bs : list byte) : M (kernel D) Z :=
  match d with
  | ToUser va => zoom k_kmemL (either_copyout true (u64 (va + tot)) bs)
  | ToKernel pa => zoom k_kmemL (either_copyout false (u64 (pa + tot)) bs)
  | ToLocal => ret 0
  end.

(** One round of [readi]'s loop, from [tot] bytes read, with the bytes so far. *)
Definition readi_body (i : nat) (d : dest) (n : Z) :
    Z * Z * list byte -> M (kernel D) (Z * Z * list byte + Z * list byte) :=
  fun '(tot, off, acc) =>
    if negb (tot <? n) then ret (inr (tot, acc)) else
    let! addr := bmap i (off / BSIZE) in
    if addr =? 0 then ret (inr (tot, acc)) else
    let! ip := get_inode i in
    let! bp := fs_bread (i_dev ip) addr in
    let m := Z.min (n - tot) (BSIZE - off mod BSIZE) in
    let! x := get_data bp in
    let bs := bytes_at x (Z.to_nat (off mod BSIZE)) (Z.to_nat m) in
    let! r := copy_to d tot bs in
    if r =? -1 then
      fs_brelse bp ;;
      ret (inr (-1, acc))
    else
    fs_brelse bp ;;
    ret (inl (tot + m, u32 (off + m), acc ++ bs)).

(** The result, and for [ToLocal] the bytes. *)
Definition readi (i : nat) (d : dest) (off n : Z) : M (kernel D) (Z * list byte) :=
  let! ip := get_inode i in
  if (i_size ip <? off) || (u32 (off + n) <? off) then ret (0, []) else
  let n := if i_size ip <? off + n then i_size ip - off else n in
  while (Z.to_nat (n / BSIZE + 3)) (readi_body i d n) (0, off, []).

Definition copy_from (s : src) (tot m : Z) : M (kernel D) (Z * list byte) :=
  match s with
  | FromUser va => zoom k_kmemL (either_copyin true (u64 (va + tot)) m)
  | FromLocal bs => ret (0, bytes_at bs (Z.to_nat tot) (Z.to_nat m))
  end.

(** One round of [writei]'s loop.  A failing copy leaves the bytes it copied in
    the buffer. *)
Definition writei_body (i : nat) (s : src) (n : Z) : Z * Z -> M (kernel D) (Z * Z + Z * Z) :=
  fun '(tot, off) =>
    if negb (tot <? n) then ret (inr (tot, off)) else
    let! addr := bmap i (off / BSIZE) in
    if addr =? 0 then ret (inr (tot, off)) else
    let! ip := get_inode i in
    let! bp := fs_bread (i_dev ip) addr in
    let m := Z.min (n - tot) (BSIZE - off mod BSIZE) in
    let! (r, bs) := copy_from s tot m in
    upd_data bp (put_bytes (Z.to_nat (off mod BSIZE)) bs) ;;
    if r =? -1 then
      fs_brelse bp ;;
      ret (inr (tot, off))
    else
    fs_log_write bp ;;
    fs_brelse bp ;;
    ret (inl (tot + m, u32 (off + m))).

Definition writei (i : nat) (s : src) (off n : Z) : M (kernel D) Z :=
  let! ip := get_inode i in
  if (i_size ip <? off) || (u32 (off + n) <? off) then ret (-1) else
  if MAXFILE * BSIZE <? off + n then ret (-1) else
  let! (tot, off) := while (Z.to_nat (n / BSIZE + 3)) (writei_body i s n) (0, off) in
  let! ip := get_inode i in
  (if i_size ip <? off then upd_inode i (set_i_size off) else ret tt) ;;
  (* write the i-node back to disk even if the size didn't change
     because the loop above might have called bmap() and added a new
     block to ip->addrs[]. *)
  iupdate i ;;
  ret tot.

(** *** Directories *)

(** [readi] of the entry at [off] into a [struct dirent]. *)
Definition read_dirent (dp : nat) (off : Z) (msg : string) : M (kernel D) (list byte) :=
  let! (r, de) := readi dp ToLocal off sizeof_dirent in
  if negb (r =? sizeof_dirent) then panic msg else ret de.

Definition dirlookup_body (dp : nat) (name : list byte) (off : Z) : M (kernel D) (Z + option (nat * Z)) :=
  let! ip := get_inode dp in
  if negb (off <? i_size ip) then ret (inr None) else
  let! de := read_dirent dp off "dirlookup read" in
  if dirent_inum de =? 0 then ret (inl (off + sizeof_dirent)) else
  if namecmp name (dirent_name de) =? 0 then
    (* entry matches path element *)
    let! ip := iget (i_dev ip) (dirent_inum de) in
    ret (inr (Some (ip, off)))
  else ret (inl (off + sizeof_dirent)).

(** The inode and the offset of its entry. *)
Definition dirlookup (dp : nat) (name : list byte) : M (kernel D) (option (nat * Z)) :=
  let! ip := get_inode dp in
  if negb (i_type ip =? T_DIR) then panic "dirlookup not DIR" else
  while (S (Z.to_nat ((i_size ip + 15) / sizeof_dirent))) (dirlookup_body dp name) 0.

Definition dirlink_slot (dp : nat) (off : Z) : M (kernel D) (Z + Z) :=
  let! ip := get_inode dp in
  if negb (off <? i_size ip) then ret (inr off) else
  let! de := read_dirent dp off "dirlink read" in
  if dirent_inum de =? 0 then ret (inr off) else ret (inl (off + sizeof_dirent)).

Definition dirlink (dp : nat) (name : list byte) (inum : Z) : M (kernel D) Z :=
  (* Check that name is not present. *)
  let! o := dirlookup dp name in
  match o with
  | Some (ip, _) => iput (Some ip) ;; ret (-1)
  | None =>
      (* Look for an empty dirent. *)
      let! ip := get_inode dp in
      let! off := while (S (Z.to_nat ((i_size ip + 15) / sizeof_dirent))) (dirlink_slot dp) 0 in
      let de := dirent_of inum (strncpy_name (replicate DIRSIZ Byte.x00) name) in
      let! r := writei dp (FromLocal de) off sizeof_dirent in
      ret (if negb (r =? sizeof_dirent) then -1 else 0)
  end.

(** *** Paths *)

(** One round of [namex]: the inode to go on with, the rest of the path and the
    name buffer; or the result. *)
Definition namex_body (nameiparent : bool) :
    nat * list byte * list byte -> M (kernel D) (nat * list byte * list byte + option nat * list byte) :=
  fun '(ip, path, name) =>
    match skipelem path name with
    | None =>
        if nameiparent then iput (Some ip) ;; ret (inr (None, name))
        else ret (inr (Some ip, name))
    | Some (path, name) =>
        ilock (Some ip) ;;
        let! x := get_inode ip in
        if negb (i_type x =? T_DIR) then
          iunlockput (Some ip) ;; ret (inr (None, name))
        else
        if nameiparent && (length path =? 0)%nat then
          (* Stop one level early. *)
          iunlock (Some ip) ;; ret (inr (Some ip, name))
        else
        let! next := dirlookup ip name in
        match next with
        | None => iunlockput (Some ip) ;; ret (inr (None, name))
        | Some (next, _) => iunlockput (Some ip) ;; ret (inl (next, path, name))
        end
    end.

(** [myproc()->cwd] *)
Definition my_cwd : M (kernel D) (option nat) :=
  let! p := zoom k_sysL myproc in
  let! i := zoom k_sysL (deref p) in
  gets (fun k => p_cwd (proc_of (k_sys k) i)).

(** The inode, and the name buffer. *)
Definition namex (path : list byte) (nameiparent : bool) (name : list byte) : M (kernel D) (option nat * list byte) :=
  let! ip := (match path with
              | b :: _ =>
                  if Byte.eqb b SLASH then iget ROOTDEV ROOTINO
                  else let! cwd := my_cwd in let! i := zoom k_sysL (deref cwd) in idup i
              | [] => let! cwd := my_cwd in let! i := zoom k_sysL (deref cwd) in idup i
              end) in
  while (S (length path)) (namex_body nameiparent) (ip, path, name).

Definition no_name : list byte := replicate DIRSIZ Byte.x00.

Definition namei (path : list byte) : M (kernel D) (option nat) :=
  let! (ip, _) := namex path false no_name in ret ip.

Definition nameiparent (path name : list byte) : M (kernel D) (option nat * list byte) := namex path true name.

End Fs.
