(* ===== verification/File.v ===== *)
(** * [kernel/file.c], with [pipealloc] of [kernel/pipe.c]

    The file table and the operations on open files, which dispatch to pipes,
    devices and inodes.  A file pointer is its index in the table. *)

From S2P Require Import Prelude Riscv Memory CString Sys Spinlock Proc Kalloc Vm Sleeplock Uart Printf Either Console Pipe ProcMem Bio Block Log Kernel Machine Fs.

Section File.
Context {D : Type} `{!DiskDriver D} `{!Machine}.

Definition get_file (f : nat) : M (kernel D) file := gets (fun k => k_ftable k !!! f).

Definition upd_file (f : nat) (g : file -> file) : M (kernel D) unit :=
  modify (fun k => set_k_ftable (alter g f (k_ftable k)) k).

Definition begin_op_k : M (kernel D) unit := zoom k_logL (begin_op wake_bound).

Definition end_op_k : M (kernel D) unit := zoom k_logL (end_op wake_bound).

Definition fileinit : M (kernel D) unit := zoom k_sysL (initlock L_ftable "ftable").

Definition filealloc_one (f : nat) : M (kernel D) (option nat) :=
  let! x := get_file f in
  if f_ref x =? 0 then
    upd_file f (set_f_ref 1) ;;
    zoom k_sysL (release L_ftable) ;;
    ret (Some f)
  else ret None.

Definition filealloc : M (kernel D) (option nat) :=
  zoom k_sysL (acquire L_ftable) ;;
  let! r := find_loop (seq 0 NFILE) filealloc_one in
  match r with
  | Some f => ret (Some f)
  | None => zoom k_sysL (release L_ftable) ;; ret None
  end.

Definition filedup (f : nat) : M (kernel D) nat :=
  zoom k_sysL (acquire L_ftable) ;;
  let! x := get_file f in
  if f_ref x <? 1 then panic "filedup" else
  upd_file f (fun x => set_f_ref (f_ref x + 1) x) ;;
  zoom k_sysL (release L_ftable) ;;
  ret f.

Definition fileclose (f : nat) : M (kernel D) unit :=
  zoom k_sysL (acquire L_ftable) ;;
  let! x := get_file f in
  if f_ref x <? 1 then panic "fileclose" else
  upd_file f (fun x => set_f_ref (f_ref x - 1) x) ;;
  let! x := get_file f in
  if 0 <? f_ref x then zoom k_sysL (release L_ftable) else
  let ff := x in
  upd_file f (set_f_ref 0) ;;
  upd_file f (set_f_type FD_NONE) ;;
  zoom k_sysL (release L_ftable) ;;
  match f_type ff with
  | FD_PIPE => zoom k_kmemL (pipeclose kernel_end (f_pipe ff) (f_writable ff))
  | FD_INODE | FD_DEVICE =>
      begin_op_k ;;
      iput (f_ip ff) ;;
      end_op_k
  | FD_NONE => ret tt
  end.

Definition filestat (f : nat) (addr : Z) : M (kernel D) Z :=
  let! p := zoom k_kmemL my_proc in
  let! x := get_file f in
  if decide (f_type x = FD_INODE \/ f_type x = FD_DEVICE) then
    ilock (f_ip x) ;;
    let! i := zoom k_sysL (deref (f_ip x)) in
    let! ip := get_inode i in
    let st := stati ip in
    iunlock (f_ip x) ;;
    let! q := zoom k_kmemL (get_proc p) in
    let! r := zoom k_kmemL (copyout (p_pagetable q) addr st) in
    ret (if r <? 0 then -1 else 0)
  else ret (-1).

(** [devsw[major]], checked as [fileread] and [filewrite] check it. *)
Definition device_of (major : Z) : M (kernel D) device :=
  if (major <? 0) || (NDEV <=? major) then ret NoDevice else
  gets (fun k => k_devsw k !!! Z.to_nat major).

Definition fileread (f : nat) (addr n : Z) : M (kernel D) Z :=
  let! x := get_file f in
  if negb (f_readable x) then ret (-1) else
  match f_type x with
  | FD_PIPE => zoom k_kmemL (piperead wake_bound (f_pipe x) addr n)
  | FD_DEVICE =>
      let! d := device_of (f_major x) in
      match d with
      | NoDevice => ret (-1)
      | ConsoleDevice => zoom k_consL (consoleread wake_bound true addr n)
      end
  | FD_INODE =>
      ilock (f_ip x) ;;
      let! i := zoom k_sysL (deref (f_ip x)) in
      let! x := get_file f in
      let! (r, _) := readi i (ToUser addr) (f_off x) (u32 n) in
      (if 0 <? r then upd_file f (fun x => set_f_off (u32 (f_off x + r)) x) else ret tt) ;;
      iunlock (f_ip x) ;;
      ret r
  | FD_NONE => panic "fileread"
  end.

(** The most [filewrite] hands to one transaction. *)
Definition filewrite_max : Z := ((MAXOPBLOCKS - 1 - 1 - 2) / 2) * BSIZE.

(** One transaction of [filewrite]; [inr i] after an error or at the end. *)
Definition filewrite_body (f : nat) (addr n : Z) (i : Z) : M (kernel D) (Z + Z) :=
  if negb (i <? n) then ret (inr i) else
  let n1 := if filewrite_max <? n - i then filewrite_max else n - i in
  begin_op_k ;;
  let! x := get_file f in
  ilock (f_ip x) ;;
  let! ip := zoom k_sysL (deref (f_ip x)) in
  let! x := get_file f in
  let! r := writei ip (FromUser (u64 (addr + i))) (f_off x) n1 in
  (if 0 <? r then upd_file f (fun x => set_f_off (u32 (f_off x + r)) x) else ret tt) ;;
  iunlock (f_ip x) ;;
  end_op_k ;;
  if negb (r =? n1) then ret (inr i)   (* error from writei *)
  else ret (inl (i + r)).

Definition filewrite (f : nat) (addr n : Z) : M (kernel D) Z :=
  let! x := get_file f in
  if negb (f_writable x) then ret (-1) else
  match f_type x with
  | FD_PIPE => zoom k_kmemL (pipewrite wake_bound (f_pipe x) addr n)
  | FD_DEVICE =>
      let! d := device_of (f_major x) in
      match d with
      | NoDevice => ret (-1)
      | ConsoleDevice => zoom k_consL (consolewrite uart_dev wake_bound true addr n)
      end
  | FD_INODE =>
      let! i := while (2 + Z.to_nat (n / filewrite_max)) (filewrite_body f addr n) 0 in
      ret (if i =? n then n else -1)
  | FD_NONE => panic "filewrite"
  end.

(** ** pipealloc *)

(** Label [bad] of [pipealloc]: the page, and the files that were allocated. *)
Definition pipealloc_bad (pi : Z) (f0 f1 : option nat) : M (kernel D) (option (nat * nat)) :=
  (if negb (pi =? 0) then zoom k_kmemL (kfree kernel_end pi) else ret tt) ;;
  (match f0 with Some f => fileclose f | None => ret tt end) ;;
  (match f1 with Some f => fileclose f | None => ret tt end) ;;
  ret None.

(** The read end and the write end. *)
Definition pipealloc : M (kernel D) (option (nat * nat)) :=
  let! f0 := filealloc in
  match f0 with
  | None => pipealloc_bad 0 None None
  | Some r =>
      let! f1 := filealloc in
      match f1 with
      | None => pipealloc_bad 0 (Some r) None
      | Some w =>
          let! pi := zoom k_kmemL kalloc in
          if pi =? 0 then pipealloc_bad 0 (Some r) (Some w) else
          zoom k_kmemL (pipe_init pi) ;;
          upd_file r (set_f_type FD_PIPE) ;;
          upd_file r (set_f_readable true) ;;
          upd_file r (set_f_writable false) ;;
          upd_file r (set_f_pipe pi) ;;
          upd_file w (set_f_type FD_PIPE) ;;
          upd_file w (set_f_readable false) ;;
          upd_file w (set_f_writable true) ;;
          upd_file w (set_f_pipe pi) ;;
          ret (Some (r, w))
      end
  end.

End File.
