(* ===== verification/Sysfile.v ===== *)
(** * [kernel/sysfile.c]: file-system system calls

    A system call returns the value that ends up in [a0]: [-1] is the failure
    of the C function, converted to 64 bits by [syscall].  [sys_exec] is in
    Exec.v. *)

From S2P Require Import Prelude Riscv Memory CString Sys Spinlock Proc Kalloc Vm Sleeplock Uart Printf Either Console Pipe ProcMem Bio Block Log Kernel Machine Fs File.

(** ** fcntl.h *)

Definition O_RDONLY : Z := 0.

Definition O_WRONLY : Z := 1.

Definition O_RDWR : Z := 2.

Definition O_CREATE : Z := 0x200.

Definition O_TRUNC : Z := 0x400.

Section Sysfile.
Context {D : Type} `{!DiskDriver D} `{!Machine}.

Definition karg_int (n : Z) : M (kernel D) Z := zoom k_kmemL (argint n).

Definition karg_addr (n : Z) : M (kernel D) Z := zoom k_kmemL (argaddr n).

Definition karg_str (n : Z) : M (kernel D) (option (list byte)) := zoom k_kmemL (argstr n MAXPATH).

Definition this_proc : M (kernel D) nat := zoom k_kmemL my_proc.

Definition get_kproc (p : nat) : M (kernel D) proc := gets (fun k => proc_of (k_sys k) p).

Definition upd_kproc (p : nat) (f : proc -> proc) : M (kernel D) unit := zoom k_sysL (upd_proc p f).

(** The descriptor and the file. *)
Definition argfd (n : Z) : M (kernel D) (option (nat * nat)) :=
  let! fd := karg_int n in
  if (fd <? 0) || (Z.of_nat NOFILE <=? fd) then ret None else
  let! p := this_proc in
  let! q := get_kproc p in
  ret (match p_ofile q !!! Z.to_nat fd with Some f => Some (Z.to_nat fd, f) | None => None end).

Definition fdalloc_one (p f fd : nat) : M (kernel D) (option nat) :=
  let! q := get_kproc p in
  match p_ofile q !!! fd with
  | None => upd_kproc p (fun q => set_p_ofile (<[fd := Some f]> (p_ofile q)) q) ;; ret (Some fd)
  | Some _ => ret None
  end.

Definition fdalloc (f : nat) : M (kernel D) (option nat) :=
  let! p := this_proc in
  find_loop (seq 0 NOFILE) (fdalloc_one p f).

Definition clear_fd (p fd : nat) : M (kernel D) unit :=
  upd_kproc p (fun q => set_p_ofile (<[fd := None]> (p_ofile q)) q).

Definition sys_dup : M (kernel D) Z :=
  let! o := argfd 0 in
  match o with
  | None => ret (-1)
  | Some (_, f) =>
      let! fd := fdalloc f in
      match fd with
      | None => ret (-1)
      | Some fd => let! _ := filedup f in ret (Z.of_nat fd)
      end
  end.

Definition sys_read : M (kernel D) Z :=
  let! p := karg_addr 1 in
  let! n := karg_int 2 in
  let! o := argfd 0 in
  match o with
  | None => ret (-1)
  | Some (_, f) => fileread f p n
  end.

Definition sys_write : M (kernel D) Z :=
  let! p := karg_addr 1 in
  let! n := karg_int 2 in
  let! o := argfd 0 in
  match o with
  | None => ret (-1)
  | Some (_, f) => filewrite f p n
  end.

Definition sys_close : M (kernel D) Z :=
  let! o := argfd 0 in
  match o with
  | None => ret (-1)
  | Some (fd, f) =>
      let! p := this_proc in
      clear_fd p fd ;;
      fileclose f ;;
      ret 0
  end.

Definition sys_fstat : M (kernel D) Z :=
  let! st := karg_addr 1 in
  let! o := argfd 0 in
  match o with
  | None => ret (-1)
  | Some (_, f) => filestat f st
  end.

(** [ip->nlink += d; iupdate(ip)] *)
Definition add_nlink (ip : nat) (d : Z) : M (kernel D) unit :=
  upd_inode ip (fun x => set_i_nlink (s16 (i_nlink x + d)) x) ;;
  iupdate ip.

Definition sys_link_bad (ip : nat) : M (kernel D) Z :=
  ilock (Some ip) ;;
  add_nlink ip (-1) ;;
  iunlockput (Some ip) ;;
  end_op_k ;;
  ret (-1).

Definition sys_link : M (kernel D) Z :=
  let! old := karg_str 0 in
  match old with
  | None => ret (-1)
  | Some old =>
  let! new := karg_str 1 in
  match new with
  | None => ret (-1)
  | Some new =>
  begin_op_k ;;
  let! ip := namei old in
  match ip with
  | None => end_op_k ;; ret (-1)
  | Some ip =>
  ilock (Some ip) ;;
  let! x := get_inode ip in
  if i_type x =? T_DIR then
    iunlockput (Some ip) ;; end_op_k ;; ret (-1)
  else
  add_nlink ip 1 ;;
  iunlock (Some ip) ;;
  let! (dp, name) := nameiparent new no_name in
  match dp with
  | None => sys_link_bad ip
  | Some dp =>
  ilock (Some dp) ;;
  let! d := get_inode dp in
  let! x := get_inode ip in
  let! r := (if negb (i_dev d =? i_dev x) then ret (-1) else dirlink dp name (i_inum x)) in
  if r <? 0 then
    iunlockput (Some dp) ;; sys_link_bad ip
  else
  iunlockput (Some dp) ;;
  iput (Some ip) ;;
  end_op_k ;;
  ret 0
  end end end end.

(** Is the directory empty except for its first two entries? *)
Definition isdirempty_body (dp : nat) (off : Z) : M (kernel D) (Z + bool) :=
  let! ip := get_inode dp in
  if negb (off <? i_size ip) then ret (inr true) else
  let! de := read_dirent dp off "isdirempty: readi" in
  if negb (dirent_inum de =? 0) then ret (inr false) else ret (inl (off + sizeof_dirent)).

Definition isdirempty (dp : nat) : M (kernel D) bool :=
  let! ip := get_inode dp in
  while (S (Z.to_nat ((i_size ip + 15) / sizeof_dirent))) (isdirempty_body dp) (2 * sizeof_dirent).

Definition sys_unlink_bad (dp : nat) : M (kernel D) Z :=
  iunlockput (Some dp) ;;
  end_op_k ;;
  ret (-1).

(** The second half of [sys_unlink], with both inodes locked. *)
Definition sys_unlink_entry (dp ip : nat) (off : Z) : M (kernel D) Z :=
  let! r := writei dp (FromLocal (replicate (Z.to_nat sizeof_dirent) Byte.x00)) off sizeof_dirent in
  if negb (r =? sizeof_dirent) then panic "unlink: writei" else
  let! x := get_inode ip in
  (if i_type x =? T_DIR then add_nlink dp (-1) else ret tt) ;;
  iunlockput (Some dp) ;;
  add_nlink ip (-1) ;;
  iunlockput (Some ip) ;;
  end_op_k ;;
  ret 0.

Definition sys_unlink : M (kernel D) Z :=
  let! path := karg_str 0 in
  match path with
  | None => ret (-1)
  | Some path =>
  begin_op_k ;;
  let! (dp, name) := nameiparent path no_name in
  match dp with
  | None => end_op_k ;; ret (-1)
  | Some dp =>
  ilock (Some dp) ;;
  (* Cannot unlink . or .. *)
  if (namecmp name (bytes_of ".") =? 0) || (namecmp name (bytes_of "..") =? 0) then sys_unlink_bad dp else
  let! o := dirlookup dp name in
  match o with
  | None => sys_unlink_bad dp
  | Some (ip, off) =>
  ilock (Some ip) ;;
  let! x := get_inode ip in
  if i_nlink x <? 1 then panic "unlink: nlink < 1" else
  let! empty := (if i_type x =? T_DIR then isdirempty ip else ret true) in
  if negb empty then iunlockput (Some ip) ;; sys_unlink_bad dp
  else sys_unlink_entry dp ip off
  end end end.

(** Label [fail] of [create]. *)
Definition create_fail (dp ip : nat) : M (kernel D) (option nat) :=
  upd_inode ip (set_i_nlink 0) ;;
  iupdate ip ;;
  iunlockput (Some ip) ;;
  iunlockput (Some dp) ;;
  ret None.

(** A new inode for [name] in the locked directory [dp]. *)
Definition create_new (dp : nat) (name : list byte) (type major minor : Z) : M (kernel D) (option nat) :=
  let! d := get_inode dp in
  let! o := ialloc (i_dev d) type in
  match o with
  | None => iunlockput (Some dp) ;; ret None
  | Some ip =>
  ilock (Some ip) ;;
  upd_inode ip (set_i_major major) ;;
  upd_inode ip (set_i_minor minor) ;;
  upd_inode ip (set_i_nlink 1) ;;
  iupdate ip ;;
  let! x := get_inode ip in
  let! d := get_inode dp in
  let! r := (if type =? T_DIR then
      (* Create . and .. entries.  No ip->nlink++ for .: avoid cyclic ref count. *)
      let! r := dirlink ip (bytes_of ".") (i_inum x) in
      if r <? 0 then ret r else dirlink ip (bytes_of "..") (i_inum d)
    else ret 0) in
  if r <? 0 then create_fail dp ip else
  let! r := dirlink dp name (i_inum x) in
  if r <? 0 then create_fail dp ip else
  (if type =? T_DIR then
     (* now that success is guaranteed: for .. *)
     add_nlink dp 1
   else ret tt) ;;
  iunlockput (Some dp) ;;
  ret (Some ip)
  end.

Definition create (path : list byte) (type major minor : Z) : M (kernel D) (option nat) :=
  let! (dp, name) := nameiparent path no_name in
  match dp with
  | None => ret None
  | Some dp =>
  ilock (Some dp) ;;
  let! o := dirlookup dp name in
  match o with
  | Some (ip, _) =>
      iunlockput (Some dp) ;;
      ilock (Some ip) ;;
      let! x := get_inode ip in
      if (type =? T_FILE) && ((i_type x =? T_FILE) || (i_type x =? T_DEVICE)) then ret (Some ip) else
      iunlockput (Some ip) ;;
      ret None
  | None => create_new dp name type major minor
  end end.

(** [iunlockput(ip); end_op(); return -1;] *)
Definition open_fail (ip : nat) : M (kernel D) Z :=
  iunlockput (Some ip) ;;
  end_op_k ;;
  ret (-1).

(** The inode [sys_open] opens, locked. *)
Definition open_inode (path : list byte) (omode : Z) : M (kernel D) (option nat) :=
  if has omode O_CREATE then
    let! ip := create path T_FILE 0 0 in
    match ip with
    | None => end_op_k ;; ret None
    | Some ip => ret (Some ip)
    end
  else
    let! ip := namei path in
    match ip with
    | None => end_op_k ;; ret None
    | Some ip =>
        ilock (Some ip) ;;
        let! x := get_inode ip in
        if (i_type x =? T_DIR) && negb (omode =? O_RDONLY) then
          let! _ := open_fail ip in ret None
        else ret (Some ip)
    end.

Definition sys_open : M (kernel D) Z :=
  let! omode := karg_int 1 in
  let! path := karg_str 0 in
  match path with
  | None => ret (-1)
  | Some path =>
  begin_op_k ;;
  let! o := open_inode path omode in
  match o with
  | None => ret (-1)
  | Some ip =>
  let! x := get_inode ip in
  if (i_type x =? T_DEVICE) && ((i_major x <? 0) || (NDEV <=? i_major x)) then open_fail ip else
  let! f := filealloc in
  match f with
  | None => open_fail ip
  | Some f =>
  let! fd := fdalloc f in
  match fd with
  | None => fileclose f ;; open_fail ip
  | Some fd =>
  (if i_type x =? T_DEVICE then
     upd_file f (set_f_type FD_DEVICE) ;;
     upd_file f (set_f_major (i_major x))
   else
     upd_file f (set_f_type FD_INODE) ;;
     upd_file f (set_f_off 0)) ;;
  upd_file f (set_f_ip (Some ip)) ;;
  upd_file f (set_f_readable (negb (has omode O_WRONLY))) ;;
  upd_file f (set_f_writable (has omode O_WRONLY || has omode O_RDWR)) ;;
  (if has omode O_TRUNC && (i_type x =? T_FILE) then itrunc ip else ret tt) ;;
  iunlock (Some ip) ;;
  end_op_k ;;
  ret (Z.of_nat fd)
  end end end end.

(** The end of [sys_mkdir] and [sys_mknod]. *)
Definition made (ip : option nat) : M (kernel D) Z :=
  match ip with
  | None => end_op_k ;; ret (-1)
  | Some ip => iunlockput (Some ip) ;; end_op_k ;; ret 0
  end.

Definition sys_mkdir : M (kernel D) Z :=
  begin_op_k ;;
  let! path := karg_str 0 in
  match path with
  | None => end_op_k ;; ret (-1)
  | Some path => let! ip := create path T_DIR 0 0 in made ip
  end.

Definition sys_mknod : M (kernel D) Z :=
  begin_op_k ;;
  let! major := karg_int 1 in
  let! minor := karg_int 2 in
  let! path := karg_str 0 in
  match path with
  | None => end_op_k ;; ret (-1)
  | Some path => let! ip := create path T_DEVICE (s16 major) (s16 minor) in made ip
  end.

Definition sys_chdir : M (kernel D) Z :=
  let! p := this_proc in
  begin_op_k ;;
  let! path := karg_str 0 in
  let! ip := (match path with Some path => namei path | None => ret None end) in
  match ip with
  | None => end_op_k ;; ret (-1)
  | Some ip =>
      ilock (Some ip) ;;
      let! x := get_inode ip in
      if negb (i_type x =? T_DIR) then open_fail ip else
      iunlock (Some ip) ;;
      let! q := get_kproc p in
      iput (p_cwd q) ;;
      end_op_k ;;
      upd_kproc p (set_p_cwd (Some ip)) ;;
      ret 0
  end.

Definition sys_pipe_fail (p : nat) (fd0 : option nat) (rf wf : nat) : M (kernel D) Z :=
  (match fd0 with Some fd => clear_fd p fd | None => ret tt end) ;;
  fileclose rf ;;
  fileclose wf ;;
  ret (-1).

Definition sys_pipe : M (kernel D) Z :=
  let! p := this_proc in
  let! fdarray := karg_addr 0 in
  let! o := pipealloc in
  match o with
  | None => ret (-1)
  | Some (rf, wf) =>
  let! fd0 := fdalloc rf in
  match fd0 with
  | None => sys_pipe_fail p None rf wf
  | Some fd0 =>
  let! fd1 := fdalloc wf in
  match fd1 with
  | None => sys_pipe_fail p (Some fd0) rf wf
  | Some fd1 =>
  let! q := get_kproc p in
  let! r := zoom k_kmemL (copyout (p_pagetable q) fdarray (le_split 4 (Z.of_nat fd0))) in
  let! r := (if r <? 0 then ret r
             else zoom k_kmemL (copyout (p_pagetable q) (u64 (fdarray + 4)) (le_split 4 (Z.of_nat fd1)))) in
  if r <? 0 then
    clear_fd p fd0 ;;
    clear_fd p fd1 ;;
    fileclose rf ;;
    fileclose wf ;;
    ret (-1)
  else ret 0
  end end end.

End Sysfile.
