(* ===== verification/Exec.v ===== *)
(** * [kernel/exec.c], with [sys_exec] of [kernel/sysfile.c] and [kernel/elf.h]

    Loading a program: the ELF headers are read from the inode as values, the
    segments are read into the pages of the new address space, the arguments are
    pushed on the new stack, and the image is committed.  The argument strings
    are in pages of the kernel, at the addresses [argv]. *)

From S2P Require Import Prelude Riscv Memory CString Sys Spinlock Proc Kalloc Vm Sleeplock Uart Printf Either Console Pipe ProcMem Bio Block Log Kernel Machine Fs File Sysfile.

(** ** elf.h *)

Definition ELF_MAGIC : Z := 0x464C457F.

Definition ELF_PROG_LOAD : Z := 1.

Definition get64 (x : list byte) (off : nat) : Z := le_combine (bytes_at x off 8).

Record elfhdr := Elfhdr {
  e_magic : Z;
  e_entry : Z;
  e_phoff : Z;
  e_phnum : Z
}.

Definition sizeof_elfhdr : Z := 64.

Definition elfhdr_of (x : list byte) : elfhdr :=
  Elfhdr (get32 x 0) (get64 x 24) (get64 x 32) (get16 x 56).

Record proghdr := Proghdr {
  ph_type : Z;
  ph_flags : Z;
  ph_off : Z;
  ph_vaddr : Z;
  ph_filesz : Z;
  ph_memsz : Z
}.

Definition sizeof_proghdr : Z := 56.

Definition proghdr_of (x : list byte) : proghdr :=
  Proghdr (get32 x 0) (get32 x 4) (get64 x 8) (get64 x 16) (get64 x 32) (get64 x 40).

Definition flags2perm (flags : Z) : Z :=
  let perm := if has flags 1 then PTE_X else 0 in
  if has flags 2 then Z.lor perm PTE_W else perm.

(** [for(last=s=path; ...; s++) if the character is a slash last = s+1;] *)
Fixpoint last_elem (path last : list byte) : list byte :=
  match path with
  | [] => last
  | b :: path => last_elem path (if Byte.eqb b SLASH then path else last)
  end.

Section Exec.
Context {D : Type} `{!DiskDriver D} `{!Machine}.

(** A call on page tables and memory. *)
Definition on_mem {A} (c : M kmem A) : M (kernel D) A := zoom k_kmemL c.

Definition loadseg_body (pagetable va : Z) (ip : nat) (offset sz : Z) (i : Z) : M (kernel D) (Z + Z) :=
  if negb (i <? sz) then ret (inr 0) else
  let! pa := on_mem (walkaddr pagetable (u64 (va + i))) in
  if pa =? 0 then panic "loadseg: address should exist" else
  let n := if sz - i <? PGSIZE then sz - i else PGSIZE in
  let! (r, _) := readi ip (ToKernel pa) (u32 (offset + i)) n in
  if negb (u32 r =? n) then ret (inr (-1)) else
  ret (inl (u32 (i + PGSIZE))).

Definition loadseg (pagetable va : Z) (ip : nat) (offset sz : Z) : M (kernel D) Z :=
  while (Z.to_nat (sz / PGSIZE + 2)) (loadseg_body pagetable va ip offset sz) 0.

(** One program header: the size of the image, and whether to go on. *)
Definition exec_segment (ip : nat) (pagetable sz off : Z) : M (kernel D) (Z * bool) :=
  let! (r, x) := readi ip ToLocal (u32 off) sizeof_proghdr in
  if negb (r =? sizeof_proghdr) then ret (sz, false) else
  let ph := proghdr_of x in
  if negb (ph_type ph =? ELF_PROG_LOAD) then ret (sz, true) else
  if ph_memsz ph <? ph_filesz ph then ret (sz, false) else
  if u64 (ph_vaddr ph + ph_memsz ph) <? ph_vaddr ph then ret (sz, false) else
  if negb (ph_vaddr ph mod PGSIZE =? 0) then ret (sz, false) else
  let! sz1 := on_mem (uvmalloc kernel_end pagetable sz (u64 (ph_vaddr ph + ph_memsz ph)) (flags2perm (ph_flags ph))) in
  if sz1 =? 0 then ret (sz, false) else
  let! r := loadseg pagetable (ph_vaddr ph) ip (u32 (ph_off ph)) (u32 (ph_filesz ph)) in
  ret (sz1, negb (r <? 0)).

(** The program headers from offset [off] on, [k] of them. *)
Fixpoint exec_segments (ip : nat) (pagetable sz off : Z) (k : nat) : M (kernel D) (Z * bool) :=
  match k with
  | O => ret (sz, true)
  | S k =>
      let! (sz, ok) := exec_segment ip pagetable sz off in
      if ok : bool then exec_segments ip pagetable sz (off + sizeof_proghdr) k else ret (sz, false)
  end.

(** [strlen] of a string in a page of the kernel. *)
Definition kstrlen (a : Z) : M (kernel D) Z := fun k =>
  match strlen (Z.to_nat PGSIZE) (k_mem k) a with
  | Some n => Ok n k
  | None => Fuel
  end.

(** Push the argument strings: the stack pointer and the addresses pushed, or
    [None] for [goto bad]. *)
Fixpoint exec_args (pagetable stackbase : Z) (argv : list Z) (sp : Z) (ustack : list Z) : M (kernel D) (option (Z * list Z)) :=
  match argv with
  | [] => ret (Some (sp, ustack))
  | a :: argv =>
      if a =? 0 then ret (Some (sp, ustack)) else
      if (MAXARG <=? length ustack)%nat then ret None else
      let! n := kstrlen a in
      let sp := u64 (sp - (n + 1)) in
      let sp := sp - sp mod 16 in   (* riscv sp must be 16-byte aligned *)
      if sp <? stackbase then ret None else
      let! m := gets k_mem in
      let! r := on_mem (copyout pagetable sp (ld_bytes m a (Z.to_nat (n + 1)))) in
      if r <? 0 then ret None else
      exec_args pagetable stackbase argv sp (ustack ++ [sp])
  end.

(** Label [bad]. *)
Definition exec_bad (pagetable sz : Z) (ip : option nat) : M (kernel D) Z :=
  (if negb (pagetable =? 0) then on_mem (proc_freepagetable kernel_end pagetable sz) else ret tt) ;;
  (match ip with
   | Some _ => iunlockput ip ;; end_op_k
   | None => ret tt
   end) ;;
  ret (-1).

(** From the loaded image to the commit. *)
Definition exec_stack (p : nat) (path : list byte) (argv : list Z) (elf : elfhdr) (pagetable sz : Z) : M (kernel D) Z :=
  let! q := get_kproc p in
  let oldsz := p_sz q in
  (* Allocate some pages at the next page boundary.  Make the first inaccessible
     as a stack guard.  Use the rest as the user stack. *)
  let sz := PGROUNDUP sz in
  let! sz1 := on_mem (uvmalloc kernel_end pagetable sz (u64 (sz + (USERSTACK + 1) * PGSIZE)) PTE_W) in
  if sz1 =? 0 then exec_bad pagetable sz None else
  let sz := sz1 in
  on_mem (uvmclear pagetable (u64 (sz - (USERSTACK + 1) * PGSIZE))) ;;
  let stackbase := u64 (sz - USERSTACK * PGSIZE) in
  let! o := exec_args pagetable stackbase argv sz [] in
  match o with
  | None => exec_bad pagetable sz None
  | Some (sp, ustack) =>
      let argc := Z.of_nat (length ustack) in
      (* push the array of argv[] pointers. *)
      let sp := u64 (sp - (argc + 1) * 8) in
      let sp := sp - sp mod 16 in
      if sp <? stackbase then exec_bad pagetable sz None else
      let! r := on_mem (copyout pagetable sp (mjoin (map (le_split 8) (ustack ++ [0])))) in
      if r <? 0 then exec_bad pagetable sz None else
      (* arguments to user main(argc, argv) *)
      on_mem (set_tf p (tf_a 1) sp) ;;
      (* Save program name for debugging. *)
      upd_kproc p (fun q => set_p_name (safestrcpy_bytes (p_name q) (last_elem path path)) q) ;;
      (* Commit to the user image. *)
      let! q := get_kproc p in
      let oldpagetable := p_pagetable q in
      upd_kproc p (set_p_pagetable pagetable) ;;
      upd_kproc p (set_p_sz sz) ;;
      on_mem (set_tf p tf_epc (e_entry elf)) ;;
      on_mem (set_tf p tf_sp sp) ;;
      on_mem (proc_freepagetable kernel_end oldpagetable oldsz) ;;
      ret argc
  end.

Definition exec (path : list byte) (argv : list Z) : M (kernel D) Z :=
  let! p := this_proc in
  begin_op_k ;;
  let! o := namei path in
  match o with
  | None => end_op_k ;; ret (-1)
  | Some ip =>
      ilock (Some ip) ;;
      (* Check ELF header *)
      let! (r, x) := readi ip ToLocal 0 sizeof_elfhdr in
      if negb (r =? sizeof_elfhdr) then exec_bad 0 0 (Some ip) else
      let elf := elfhdr_of x in
      if negb (e_magic elf =? ELF_MAGIC) then exec_bad 0 0 (Some ip) else
      let! pagetable := on_mem (proc_pagetable kernel_end trampoline_pa p) in
      if pagetable =? 0 then exec_bad 0 0 (Some ip) else
      (* Load program into memory. *)
      let! (sz, ok) := exec_segments ip pagetable 0 (e_phoff elf) (Z.to_nat (e_phnum elf)) in
      if negb ok then exec_bad pagetable sz (Some ip) else
      iunlockput (Some ip) ;;
      end_op_k ;;
      exec_stack p path argv elf pagetable sz
  end.

(** ** sys_exec *)

(** Fetch the argument strings into pages: the pages, and whether all went well. *)
Fixpoint fetch_args (uargv : Z) (i : Z) (k : nat) (argv : list Z) : M (kernel D) (list Z * bool) :=
  match k with
  | O => ret (argv, false)     (* i >= NELEM(argv) *)
  | S k =>
      let! o := on_mem (fetchaddr (u64 (uargv + 8 * i))) in
      match o with
      | None => ret (argv, false)
      | Some uarg =>
          if uarg =? 0 then ret (argv, true) else
          let! a := on_mem kalloc in
          if a =? 0 then ret (argv, false) else
          let argv := argv ++ [a] in
          let! (r, bs) := on_mem (fetchstr uarg PGSIZE) in
          on_mem (upd_mem (fun m => st_bytes m a bs)) ;;
          if r <? 0 then ret (argv, false) else
          fetch_args uargv (i + 1) k argv
      end
  end.

Definition sys_exec : M (kernel D) Z :=
  let! uargv := karg_addr 1 in
  let! path := karg_str 0 in
  match path with
  | None => ret (-1)
  | Some path =>
      let! (argv, ok) := fetch_args uargv 0 MAXARG [] in
      let! r := (if ok : bool then exec path argv else ret (-1)) in
      forM argv (fun a => on_mem (kfree kernel_end a)) ;;
      ret r
  end.

End Exec.
