(* ===== verification/ProcLife.v ===== *)
(** * [kernel/proc.c]: creation and end of processes

    [userinit], [fork] and [exit], which involve open files, the current
    directory and the file system. *)

From S2P Require Import Prelude Riscv Memory CString Sys Spinlock Proc Kalloc Vm Sleeplock Uart Printf Either Console Pipe ProcMem Bio Block Log Kernel Machine Fs File Sysfile.

(** The user program that calls exec of /init, from user/initcode.S. *)
Definition initcode : list byte :=
  map byte.of_Z
  [0x17; 0x05; 0x00; 0x00; 0x13; 0x05; 0x45; 0x02;
   0x97; 0x05; 0x00; 0x00; 0x93; 0x85; 0x35; 0x02;
   0x93; 0x08; 0x70; 0x00; 0x73; 0x00; 0x00; 0x00;
   0x93; 0x08; 0x20; 0x00; 0x73; 0x00; 0x00; 0x00;
   0xef; 0xf0; 0x9f; 0xff; 0x2f; 0x69; 0x6e; 0x69;
   0x74; 0x00; 0x00; 0x24; 0x00; 0x00; 0x00; 0x00;
   0x00; 0x00; 0x00; 0x00].

Section ProcLife.
Context {D : Type} `{!DiskDriver D} `{!Machine}.

(** [allocproc] and [freeproc] with the machine's addresses. *)
Definition kallocproc : M (kernel D) (option nat) :=
  zoom k_kmemL (allocproc kernel_end trampoline_pa forkret_pc).

Definition kfreeproc (p : nat) : M (kernel D) unit := zoom k_kmemL (freeproc kernel_end p).

(** The first process; a null [p] faults. *)
Definition userinit : M (kernel D) unit :=
  let! o := kallocproc in
  zoom k_sysL (modify (set_sinitproc o)) ;;
  let! p := zoom k_sysL (deref o) in
  let! q := get_kproc p in
  (* allocate one user page and copy initcode's instructions
     and data into it. *)
  zoom k_kmemL (uvmfirst (p_pagetable q) initcode) ;;
  upd_kproc p (set_p_sz PGSIZE) ;;
  (* prepare for the very first return from kernel to user. *)
  zoom k_kmemL (set_tf p tf_epc 0) ;;
  zoom k_kmemL (set_tf p tf_sp PGSIZE) ;;
  upd_kproc p (fun q => set_p_name (safestrcpy_bytes (p_name q) (bytes_of "initcode")) q) ;;
  let! cwd := namei (bytes_of "/") in
  upd_kproc p (set_p_cwd cwd) ;;
  upd_kproc p (set_p_state RUNNABLE) ;;
  zoom k_sysL (release (L_proc p)).

(** Increment the reference count of one open file descriptor. *)
Definition fork_fd (p np fd : nat) : M (kernel D) unit :=
  let! q := get_kproc p in
  match p_ofile q !!! fd with
  | Some f =>
      let! f := filedup f in
      upd_kproc np (fun q => set_p_ofile (<[fd := Some f]> (p_ofile q)) q)
  | None => ret tt
  end.

Definition fork : M (kernel D) Z :=
  let! p := this_proc in
  (* Allocate process. *)
  let! o := kallocproc in
  match o with
  | None => ret (-1)
  | Some np =>
      (* Copy user memory from parent to child. *)
      let! q := get_kproc p in
      let! nq := get_kproc np in
      let! r := zoom k_kmemL (uvmcopy kernel_end (p_pagetable q) (p_pagetable nq) (p_sz q)) in
      if r <? 0 then
        kfreeproc np ;;
        zoom k_sysL (release (L_proc np)) ;;
        ret (-1)
      else
      upd_kproc np (set_p_sz (p_sz q)) ;;
      (* copy saved user registers. *)
      zoom k_kmemL (upd_mem (fun m => memmove m (p_trapframe nq) (p_trapframe q) sizeof_trapframe)) ;;
      (* Cause fork to return 0 in the child. *)
      zoom k_kmemL (set_tf np tf_a0 0) ;;
      (* increment reference counts on open file descriptors. *)
      forM (seq 0 NOFILE) (fork_fd p np) ;;
      let! cwd := zoom k_sysL (deref (p_cwd q)) in
      let! cwd := idup cwd in
      upd_kproc np (set_p_cwd (Some cwd)) ;;
      upd_kproc np (fun nq => set_p_name (safestrcpy_bytes (p_name nq) (until_nul (p_name q))) nq) ;;
      let! nq := get_kproc np in
      let pid := p_pid nq in
      zoom k_sysL (release (L_proc np)) ;;
      zoom k_sysL (acquire L_wait) ;;
      upd_kproc np (set_p_parent (Some p)) ;;
      zoom k_sysL (release L_wait) ;;
      zoom k_sysL (acquire (L_proc np)) ;;
      upd_kproc np (set_p_state RUNNABLE) ;;
      zoom k_sysL (release (L_proc np)) ;;
      ret pid
  end.

Definition exit_fd (p fd : nat) : M (kernel D) unit :=
  let! q := get_kproc p in
  match p_ofile q !!! fd with
  | Some f => fileclose f ;; clear_fd p fd
  | None => ret tt
  end.

(** [exit] does not return: the [sched] of a zombie is never resumed. *)
Definition exit (status : Z) : M (kernel D) unit :=
  let! p := this_proc in
  let! init := gets (fun k => sinitproc (k_sys k)) in
  if decide (init = Some p) then panic "init exiting" else
  (* Close all open files. *)
  forM (seq 0 NOFILE) (exit_fd p) ;;
  let! q := get_kproc p in
  begin_op_k ;;
  iput (p_cwd q) ;;
  end_op_k ;;
  upd_kproc p (set_p_cwd None) ;;
  zoom k_sysL (acquire L_wait) ;;
  (* Give any children to init. *)
  zoom k_sysL (reparent p) ;;
  (* Parent might be sleeping in wait(). *)
  let! q := get_kproc p in
  (match p_parent q with
   | Some parent => zoom k_sysL (wakeup (Ch_proc parent))
   | None => ret tt   (* no process sleeps on the null channel *)
   end) ;;
  zoom k_sysL (acquire (L_proc p)) ;;
  upd_kproc p (set_p_xstate status) ;;
  upd_kproc p (set_p_state ZOMBIE) ;;
  zoom k_sysL (release L_wait) ;;
  (* Jump into the scheduler, never to return. *)
  zoom k_sysL sched ;;
  panic "zombie exit".

End ProcLife.
