(* ===== verification/Syscall.v ===== *)
(** * [kernel/syscall.c] and [kernel/sysproc.c]: system calls

    The system calls on processes, the table of system calls and the
    dispatcher. *)

From S2P Require Import Prelude Riscv Memory CString Sys Spinlock Proc Kalloc Vm Sleeplock Uart Printf Either Console Pipe ProcMem Bio Block Log Kernel Machine Fs File Sysfile Exec ProcLife.

Section Syscall.
Context {D : Type} `{!DiskDriver D} `{!Machine}.

(** ** sysproc.c *)

Definition sys_exit : M (kernel D) Z :=
  let! n := karg_int 0 in
  exit n ;;
  ret 0.   (* not reached *)

Definition sys_getpid : M (kernel D) Z :=
  let! p := this_proc in
  let! q := get_kproc p in
  ret (p_pid q).

Definition sys_fork : M (kernel D) Z := fork.

Definition sys_wait : M (kernel D) Z :=
  let! p := karg_addr 0 in
  zoom k_kmemL (wait kernel_end wake_bound p).

Definition sys_sbrk : M (kernel D) Z :=
  let! n := karg_int 0 in
  let! p := this_proc in
  let! q := get_kproc p in
  let addr := p_sz q in
  let! r := zoom k_kmemL (growproc kernel_end n) in
  ret (if r <? 0 then -1 else addr).

(** One round of the loop of [sys_sleep]. *)
Definition sys_sleep_body (n ticks0 : Z) (_ : unit) : M (kernel D) (unit + Z) :=
  let! ticks := gets k_ticks in
  if u32 (ticks - ticks0) <? n then
    let! p := this_proc in
    let! k := zoom k_sysL (killed p) in
    if negb (k =? 0) then
      zoom k_sysL (release L_ticks) ;; ret (inr (-1))
    else
      zoom k_sysL (sleep Ch_ticks L_ticks) ;; ret (inl tt)
  else
    zoom k_sysL (release L_ticks) ;; ret (inr 0).

Definition sys_sleep : M (kernel D) Z :=
  let! n := karg_int 0 in
  let n := if n <? 0 then 0 else n in
  zoom k_sysL (acquire L_ticks) ;;
  let! ticks0 := gets k_ticks in
  while (S wake_bound) (sys_sleep_body n ticks0) tt.

Definition sys_kill : M (kernel D) Z :=
  let! pid := karg_int 0 in
  zoom k_sysL (kill pid).

Definition sys_uptime : M (kernel D) Z :=
  zoom k_sysL (acquire L_ticks) ;;
  let! xticks := gets k_ticks in
  zoom k_sysL (release L_ticks) ;;
  ret xticks.

(** ** The table *)

Definition syscalls (num : Z) : option (M (kernel D) Z) :=
  match num with
  | 1 => Some sys_fork
  | 2 => Some sys_exit
  | 3 => Some sys_wait
  | 4 => Some sys_pipe
  | 5 => Some sys_read
  | 6 => Some sys_kill
  | 7 => Some sys_exec
  | 8 => Some sys_fstat
  | 9 => Some sys_chdir
  | 10 => Some sys_dup
  | 11 => Some sys_getpid
  | 12 => Some sys_sbrk
  | 13 => Some sys_sleep
  | 14 => Some sys_uptime
  | 15 => Some sys_open
  | 16 => Some sys_write
  | 17 => Some sys_mknod
  | 18 => Some sys_unlink
  | 19 => Some sys_link
  | 20 => Some sys_mkdir
  | 21 => Some sys_close
  | _ => None
  end.

Definition syscall : M (kernel D) unit :=
  let! p := this_proc in
  let! a7 := zoom k_kmemL (get_tf p (tf_a 7)) in
  let num := s32 a7 in
  match syscalls num with
  | Some call =>
      (* Use num to lookup the system call function for num, call it,
         and store its return value in p->trapframe->a0 *)
      let! r := call in
      zoom k_kmemL (set_tf p tf_a0 (u64 r))
  | None =>
      let! q := get_kproc p in
      kprintf "%d %s: unknown sys call %d" [Num (p_pid q); Str (Some (until_nul (p_name q))); Num num] ;;
      zoom k_kmemL (set_tf p tf_a0 (u64 (-1)))
  end.

End Syscall.
