(* ===== verification/Trap.v ===== *)
(** * [kernel/trap.c], [kernel/plic.c], [forkret] of proc.c and [kernel/main.c]

    Traps from user space and from the kernel, the interrupts of the clock, the
    UART and the disk, and the boot sequence.  A return to user space ends in
    [userret] of trampoline.S: the model returns the address jumped to and the
    [satp] passed to it.  The supervisor registers are the record [csr];
    [sstatus] is in [struct cpu]. *)

From S2P Require Import Prelude Riscv Memory CString Sys Spinlock Proc Kalloc Vm Sleeplock Uart Printf Either Console Pipe ProcMem Bio Block Log Kernel Machine Virtio Fs File Sysfile Exec ProcLife Syscall.

(** ** memlayout.h: the PLIC *)

Definition PLIC_SENABLE (hart : Z) : Z := PLIC + 0x2080 + hart * 0x100.

Definition PLIC_SPRIORITY (hart : Z) : Z := PLIC + 0x201000 + hart * 0x2000.

Definition PLIC_SCLAIM (hart : Z) : Z := PLIC + 0x201004 + hart * 0x2000.

Definition SCAUSE_EXTERNAL : Z := 0x8000000000000009.

Definition SCAUSE_TIMER : Z := 0x8000000000000005.

Section Trap.
Context `{!Machine}.

Abbreviation K := (kernel vdisk).

Definition get_csr {A} (f : csr -> A) : M K A := gets (fun k => f (k_csr k)).

Definition w_sepc (x : Z) : M K unit :=
  modify (fun k => let c := k_csr k in
    set_k_csr (Csr x (r_scause c) (r_stval c) (r_satp c) (r_stvec c) (r_time c) (r_stimecmp c)) k).

Definition w_stvec (x : Z) : M K unit :=
  modify (fun k => let c := k_csr k in
    set_k_csr (Csr (r_sepc c) (r_scause c) (r_stval c) (r_satp c) x (r_time c) (r_stimecmp c)) k).

Definition w_satp (x : Z) : M K unit :=
  modify (fun k => let c := k_csr k in
    set_k_csr (Csr (r_sepc c) (r_scause c) (r_stval c) x (r_stvec c) (r_time c) (r_stimecmp c)) k).

Definition w_stimecmp (x : Z) : M K unit :=
  modify (fun k => let c := k_csr k in
    set_k_csr (Csr (r_sepc c) (r_scause c) (r_stval c) (r_satp c) (r_stvec c) (r_time c) x) k).

Definition r_sstatus : M K Z := gets (fun k => c_sstatus (scpu (k_sys k))).

Definition w_sstatus (x : Z) : M K unit := zoom k_sysL (upd_cpu (set_c_sstatus x)).

(** ** plic.c *)

Definition plic_read (a : Z) : M K Z := fun k =>
  let v := u32 (plic_dev (k_plic k) a) in Ok v (set_k_plic (k_plic k ++ [Rd a v]) k).

Definition plic_write (a v : Z) : M K unit := modify (fun k => set_k_plic (k_plic k ++ [Wr a (u32 v)]) k).

Definition hartid : M K Z := let! c := zoom k_sysL cpuid in ret (Z.of_nat c).

Definition plicinit : M K unit :=
  (* set desired IRQ priorities non-zero (otherwise disabled). *)
  plic_write (PLIC + UART0_IRQ * 4) 1 ;;
  plic_write (PLIC + VIRTIO0_IRQ * 4) 1.

Definition plicinithart : M K unit :=
  let! hart := hartid in
  (* set enable bits for this hart's S-mode for the uart and virtio disk. *)
  plic_write (PLIC_SENABLE hart) (Z.lor (Z.shiftl 1 UART0_IRQ) (Z.shiftl 1 VIRTIO0_IRQ)) ;;
  (* set this hart's S-mode priority threshold to 0. *)
  plic_write (PLIC_SPRIORITY hart) 0.

Definition plic_claim : M K Z :=
  let! hart := hartid in
  let! irq := plic_read (PLIC_SCLAIM hart) in
  ret (s32 irq).

Definition plic_complete (irq : Z) : M K unit :=
  let! hart := hartid in
  plic_write (PLIC_SCLAIM hart) irq.

(** ** trap.c *)

Definition trapinit : M K unit := zoom k_sysL (initlock L_ticks "time").

Definition trapinithart : M K unit := w_stvec kernelvec_pc.

Definition clockintr : M K unit :=
  let! c := zoom k_sysL cpuid in
  (if decide (c = 0%nat) then
     zoom k_sysL (acquire L_ticks) ;;
     modify (fun k => set_k_ticks (u32 (k_ticks k + 1)) k) ;;
     zoom k_sysL (wakeup Ch_ticks) ;;
     zoom k_sysL (release L_ticks)
   else ret tt) ;;
  (* ask for the next timer interrupt. this also clears the interrupt request. *)
  let! t := get_csr r_time in
  w_stimecmp (u64 (t + 1000000)).

(** 2 if timer interrupt, 1 if other device, 0 if not recognized. *)
Definition devintr : M K Z :=
  let! scause := get_csr r_scause in
  if scause =? SCAUSE_EXTERNAL then
    (* irq indicates which device interrupted. *)
    let! irq := plic_claim in
    (if irq =? UART0_IRQ then zoom k_consL (uartintr uart_dev poll_bound)
     else if irq =? VIRTIO0_IRQ then zoom k_bioL virtio_disk_intr
     else if negb (irq =? 0) then kprintf "unexpected interrupt irq=%d" [Num irq]
     else ret tt) ;;
    (* tell the PLIC the device is now allowed to interrupt again. *)
    (if negb (irq =? 0) then plic_complete irq else ret tt) ;;
    ret 1
  else if scause =? SCAUSE_TIMER then
    clockintr ;;
    ret 2
  else ret 0.

(** Where [usertrapret] jumps, and the [satp] it passes. *)
Definition usertrapret : M K (Z * Z) :=
  let! p := this_proc in
  (* turn off interrupts until we're back in user space. *)
  zoom k_sysL intr_off ;;
  (* send syscalls, interrupts, and exceptions to uservec in trampoline.S *)
  w_stvec (TRAMPOLINE + uservec_off) ;;
  (* set up trapframe values that uservec will need when
     the process next traps into the kernel. *)
  let! satp := get_csr r_satp in
  let! q := get_kproc p in
  let! hart := hartid in
  zoom k_kmemL (set_tf p tf_kernel_satp satp) ;;
  zoom k_kmemL (set_tf p tf_kernel_sp (p_kstack q + PGSIZE)) ;;
  zoom k_kmemL (set_tf p tf_kernel_trap usertrap_pc) ;;
  zoom k_kmemL (set_tf p tf_kernel_hartid hart) ;;
  (* set S Previous Privilege mode to User. *)
  let! x := r_sstatus in
  let x := Z.land x (Z.lnot SSTATUS_SPP) in   (* clear SPP to 0 for user mode *)
  let x := Z.lor x SSTATUS_SPIE in            (* enable interrupts in user mode *)
  w_sstatus x ;;
  (* set S Exception Program Counter to the saved user pc. *)
  let! epc := zoom k_kmemL (get_tf p tf_epc) in
  w_sepc epc ;;
  (* tell trampoline.S the user page table to switch to. *)
  ret (TRAMPOLINE + userret_off, MAKE_SATP (p_pagetable q)).

(** [if(killed(p)) exit(-1);] *)
Definition exit_if_killed (p : nat) : M K unit :=
  let! k := zoom k_sysL (killed p) in
  if negb (k =? 0) then exit (-1) else ret tt.

Definition usertrap : M K (Z * Z) :=
  let! st := r_sstatus in
  if has st SSTATUS_SPP then panic "usertrap: not from user mode" else
  (* send interrupts and exceptions to kerneltrap(), since we're now in the kernel. *)
  w_stvec kernelvec_pc ;;
  let! p := this_proc in
  (* save user program counter. *)
  let! sepc := get_csr r_sepc in
  zoom k_kmemL (set_tf p tf_epc sepc) ;;
  let! scause := get_csr r_scause in
  let! which_dev := (if scause =? 8 then
      (* system call *)
      exit_if_killed p ;;
      (* sepc points to the ecall instruction,
         but we want to return to the next instruction. *)
      let! epc := zoom k_kmemL (get_tf p tf_epc) in
      zoom k_kmemL (set_tf p tf_epc (u64 (epc + 4))) ;;
      (* enable only now that we're done with those registers. *)
      zoom k_sysL intr_on ;;
      syscall ;;
      ret 0
    else
      let! which_dev := devintr in
      if negb (which_dev =? 0) then ret which_dev else
      let! scause := get_csr r_scause in
      let! q := get_kproc p in
      kprintf "usertrap(): unexpected scause 0x%lx pid=%d" [Num scause; Num (p_pid q)] ;;
      let! sepc := get_csr r_sepc in
      let! stval := get_csr r_stval in
      kprintf "            sepc=0x%lx stval=0x%lx" [Num sepc; Num stval] ;;
      zoom k_sysL (setkilled p) ;;
      ret 0) in
  exit_if_killed p ;;
  (* give up the CPU if this is a timer interrupt. *)
  (if which_dev =? 2 then zoom k_sysL yield else ret tt) ;;
  usertrapret.

Definition kerneltrap : M K unit :=
  let! sepc := get_csr r_sepc in
  let! sstatus := r_sstatus in
  let! scause := get_csr r_scause in
  if negb (has sstatus SSTATUS_SPP) then panic "kerneltrap: not from supervisor mode" else
  let! on := zoom k_sysL intr_get in
  if on : bool then panic "kerneltrap: interrupts enabled" else
  let! which_dev := devintr in
  if which_dev =? 0 then
    (* interrupt or trap from an unknown source *)
    let! sepc := get_csr r_sepc in
    let! stval := get_csr r_stval in
    kprintf "scause=0x%lx sepc=0x%lx stval=0x%lx" [Num scause; Num sepc; Num stval] ;;
    panic "kerneltrap"
  else
  (* give up the CPU if this is a timer interrupt. *)
  (if which_dev =? 2 then
     let! p := zoom k_sysL myproc in
     match p with
     | Some _ => zoom k_sysL yield
     | None => ret tt
     end
   else ret tt) ;;
  (* the yield() may have caused some traps to occur,
     so restore trap registers for use by kernelvec.S's sepc instruction. *)
  w_sepc sepc ;;
  w_sstatus sstatus.

(** ** proc.c: forkret *)

Definition forkret : M K (Z * Z) :=
  (* Still holding p->lock from scheduler. *)
  let! p := this_proc in
  zoom k_sysL (release (L_proc p)) ;;
  let! first := gets k_first in
  (if first then
     (* File system initialization must be run in the context of a
        regular process (e.g., because it calls sleep). *)
     fsinit ROOTDEV ;;
     modify (set_k_first false)
   else ret tt) ;;
  usertrapret.

(** ** vm.c: kvminit, kvminithart; main.c *)

Definition kvminit_k : M K unit :=
  let! kpgtbl := zoom k_kmemL (kvmmake kernel_etext trampoline_pa) in
  modify (set_k_kpgtbl kpgtbl).

Definition kvminithart : M K unit :=
  let! kpgtbl := gets k_kpgtbl in
  w_satp (MAKE_SATP kpgtbl).

(** [main] up to the scheduler, which never returns; a hart other than 0 spins
    until hart 0 has set [started]. *)
Definition main : M K unit :=
  let! c := zoom k_sysL cpuid in
  if decide (c = 0%nat) then
    zoom k_consL consoleinit ;;
    zoom k_ttyL printfinit ;;
    kprintf "" [] ;;
    kprintf "xv6 kernel is booting" [] ;;
    kprintf "" [] ;;
    zoom k_kmemL (kinit kernel_end) ;;   (* physical page allocator *)
    kvminit_k ;;                         (* create kernel page table *)
    kvminithart ;;                       (* turn on paging *)
    zoom k_sysL procinit ;;              (* process table *)
    trapinit ;;                          (* trap vectors *)
    trapinithart ;;                      (* install kernel trap vector *)
    plicinit ;;                          (* set up interrupt controller *)
    plicinithart ;;                      (* ask PLIC for device interrupts *)
    zoom k_bioL binit ;;                 (* buffer cache *)
    iinit ;;                             (* inode table *)
    fileinit ;;                          (* file table *)
    virtio_disk_init ;;                  (* emulated hard disk *)
    userinit ;;                          (* first user process *)
    modify (set_k_started true)
  else
    let! started := gets k_started in
    if negb started then (fun k => Spin k) else
    kprintf "hart %d starting" [Num (Z.of_nat c)] ;;
    kvminithart ;;                       (* turn on paging *)
    trapinithart ;;                      (* install kernel trap vector *)
    plicinithart.                        (* ask PLIC for device interrupts *)

End Trap.
