(* ===== verification/LogDisk.v ===== *)
(** * The on-disk log

    What the blocks of the log say about the file system: a disk [represents]
    the contents a recovery would leave in the home blocks.  A crash can cut
    the sequence of writes of a commit, or of a recovery, at any point; the
    lemmas here say what every prefix of these sequences represents. *)

From S2P Require Import Prelude Riscv Memory Sys Spinlock Proc Sleeplock Bio Block Log.

(** ** Sequences of writes *)

Fixpoint after (ws : list (Z * block)) (f : Z -> block) (b : Z) : block :=
  match ws with
  | [] => f b
  | w :: ws => after ws (fun b => if decide (b = w.1) then w.2 else f b) b
  end.

Lemma after_ext ws f g b : f b = g b -> after ws f b = after ws g b.
Proof.
  revert f g. induction ws as [|w ws IH]; intros f g H; simpl; [done|]. apply IH. by case_decide.
Qed.

Lemma after_app ws1 ws2 f b : after (ws1 ++ ws2) f b = after ws2 (after ws1 f) b.
Proof. revert f. induction ws1 as [|w ws1 IH]; intros f; simpl; [done|]. apply IH. Qed.

Lemma after_out ws f b : b ∉ ws.*1 -> after ws f b = f b.
Proof.
  revert f. induction ws as [|w ws IH]; intros f H; simpl in *; [done|].
  apply not_elem_of_cons in H as [H1 H2]. rewrite IH by done. by rewrite decide_False.
Qed.

Lemma after_in ws f b x : NoDup ws.*1 -> (b, x) ∈ ws -> after ws f b = x.
Proof.
  revert f. induction ws as [|w ws IH]; intros f Hnd H; simpl in *; [by apply not_elem_of_nil in H|].
  apply NoDup_cons in Hnd as [Hw Hnd]. apply elem_of_cons in H as [<-|H].
  - rewrite after_out by done. by rewrite decide_True.
  - by apply IH.
Qed.

Definition dk_puts (ws : list (Z * block)) (d : disk) : disk := Disk (dk_start d) (dk_writes d ++ ws).

Lemma dk_get_puts ws d b : dk_get (dk_puts ws d) b = after ws (dk_get d) b.
Proof.
  revert d. induction ws as [|w ws IH]; intros d; simpl.
  - unfold dk_puts. rewrite app_nil_r. by destruct d.
  - replace (dk_puts (w :: ws) d) with (dk_puts ws (dk_put w.1 w.2 d)).
    + rewrite IH. apply after_ext. unfold dk_get, dk_blocks, dk_put, apply_writes. simpl.
      rewrite foldl_app. simpl. unfold blk. case_decide as E; [subst; by rewrite lookup_insert_eq|].
      by rewrite lookup_insert_ne.
    + unfold dk_puts, dk_put. simpl. rewrite <- app_assoc. by destruct w.
Qed.

(** A prefix of two sequences. *)
Lemma prefix_app_cases {A} (p l1 l2 : list A) :
  p `prefix_of` l1 ++ l2 -> p `prefix_of` l1 \/ exists q, p = l1 ++ q /\ q `prefix_of` l2.
Proof.
  intros [r H]. symmetry in H. apply app_eq_inv in H as [(k & -> & ->)|(k & -> & ->)].
  - right. exists k. split; [done|]. by exists r.
  - left. by exists k.
Qed.

Lemma prefix_single {A} (p : list A) x : p `prefix_of` [x] -> p = [] \/ p = [x].
Proof.
  intros [r H]. destruct p as [|y p]; [by left|]. injection H as -> H. symmetry in H.
  apply app_eq_nil in H as [-> _]. by right.
Qed.

(** ** The log on the disk *)

(** The header block encodes the block numbers [bl]. *)
Definition hdr_ok (x : block) (bl : list Z) : Prop :=
  hdr_n x = Z.of_nat (length bl) /\ forall i b, bl !! i = Some b -> hdr_block x i = b.

(** [write_head]'s stores into the header's buffer. *)
Definition enc_upto (bl : list Z) (k : nat) (x : block) : block :=
  foldl (fun x i => put32 (4 + 4 * i) (bl !!! i) x) (put32 0 (Z.of_nat (length bl)) x) (seq 0 k).

Definition enc_head (bl : list Z) (x : block) : block := enc_upto bl (length bl) x.

Section Layout.
Context (start size : Z).

(** The blocks of the log: the header and the logged blocks. *)
Definition in_log (b : Z) : Prop := start <= b < start + size.

Definition lblock (i : nat) : Z := start + Z.of_nat i + 1.

(** Block numbers a transaction may hold. *)
Record tx_ok (bl : list Z) : Prop := {
  tx_nodup : NoDup bl;
  tx_len : Z.of_nat (length bl) <= LOGSIZE;
  tx_size : Z.of_nat (length bl) < size;
  tx_home : forall b, b ∈ bl -> ~ in_log b /\ 0 <= b < 2 ^ 31
}.

(** The disk [g] holds the file system [fs], perhaps with part of it still in
    the log. *)
Definition represents (g fs : Z -> block) : Prop :=
  exists bl, tx_ok bl /\ hdr_ok (g start) bl /\
    forall b, ~ in_log b ->
      (b ∉ bl -> g b = fs b) /\ (forall i, bl !! i = Some b -> g (lblock i) = fs b).

(** The writes of [write_log], of [install_trans] and of a whole [commit]. *)
Definition log_writes (bl : list Z) (new : Z -> block) : list (Z * block) :=
  imap (fun i b => (lblock i, new b)) bl.

Definition home_writes (bl : list Z) (new : Z -> block) : list (Z * block) :=
  map (fun b => (b, new b)) bl.

Definition commit_writes (bl : list Z) (new : Z -> block) (h1 h0 : block) : list (Z * block) :=
  log_writes bl new ++ [(start, h1)] ++ home_writes bl new ++ [(start, h0)].

(** The file system after the transaction. *)
Definition updated (bl : list Z) (new f : Z -> block) (b : Z) : block :=
  if decide (b ∈ bl) then new b else f b.

Lemma tx_nil : 0 < size -> tx_ok [].
Proof.
  intros Hs. split; [apply NoDup_nil_2|simpl; unfold LOGSIZE, MAXOPBLOCKS; lia|simpl; lia|].
  intros b H. by apply not_elem_of_nil in H.
Qed.

(** *** The header *)

Lemma enc_upto_S bl k x : enc_upto bl (S k) x = put32 (4 + 4 * k) (bl !!! k) (enc_upto bl k x).
Proof. unfold enc_upto. by rewrite seq_S, foldl_app. Qed.

Lemma length_enc_upto bl k x :
  length x = Z.to_nat BSIZE -> Z.of_nat k <= LOGSIZE -> length (enc_upto bl k x) = Z.to_nat BSIZE.
Proof.
  unfold LOGSIZE, MAXOPBLOCKS, BSIZE. intros Hx. induction k as [|k IH]; intros Hk.
  - change (enc_upto bl 0 x) with (put32 0 (Z.of_nat (length bl)) x). rewrite length_put32; lia.
  - rewrite enc_upto_S, length_put32; [apply IH; lia|]. rewrite IH; lia.
Qed.

Lemma enc_upto_get bl k x :
  length x = Z.to_nat BSIZE -> Z.of_nat k <= LOGSIZE ->
  get32 (enc_upto bl k x) 0 = u32 (Z.of_nat (length bl)) /\
  forall i, (i < k)%nat -> get32 (enc_upto bl k x) (4 + 4 * i) = u32 (bl !!! i).
Proof.
  intros Hx. induction k as [|k IH]; intros Hk.
  - split; [|lia]. apply get32_put32. unfold BSIZE in Hx. lia.
  - destruct (IH ltac:(lia)) as [IH1 IH2]. rewrite enc_upto_S.
    pose proof (length_enc_upto bl k x Hx ltac:(lia)) as Hlen.
    unfold BSIZE, LOGSIZE, MAXOPBLOCKS in *. split.
    + rewrite get32_put32_apart by lia. done.
    + intros i Hi. destruct (decide (i = k)) as [->|Hne]; [apply get32_put32; lia|].
      rewrite get32_put32_apart by lia. apply IH2. lia.
Qed.

Lemma enc_head_ok bl x :
  tx_ok bl -> length x = Z.to_nat BSIZE -> hdr_ok (enc_head bl x) bl.
Proof.
  intros Hbl Hx. destruct (enc_upto_get bl (length bl) x Hx (tx_len _ Hbl)) as [H1 H2].
  pose proof (tx_len _ Hbl). unfold LOGSIZE, MAXOPBLOCKS in *. split.
  - unfold hdr_n, enc_head. rewrite H1, u32_small, s32_small by lia. done.
  - intros i b Hi. unfold hdr_block, enc_head. pose proof (lookup_lt_Some _ _ _ Hi).
    rewrite H2 by done. rewrite (list_lookup_total_correct _ _ _ Hi).
    destruct (tx_home _ Hbl b) as [_ ?]; [by eapply list_elem_of_lookup_2|].
    rewrite u32_small, s32_small by lia. done.
Qed.

(** *** Crash points *)

Lemma lblock_in bl i : tx_ok bl -> (i < length bl)%nat -> in_log (lblock i) /\ lblock i <> start.
Proof. intros Hbl Hi. pose proof (tx_size _ Hbl). unfold in_log, lblock. lia. Qed.

Lemma start_in bl : tx_ok bl -> in_log start.
Proof. intros Hbl. pose proof (tx_size _ Hbl). unfold in_log. lia. Qed.

Lemma log_writes_keys bl new p w :
  tx_ok bl -> p `prefix_of` log_writes bl new -> w ∈ p.*1 -> in_log w /\ w <> start.
Proof.
  intros Hbl [r Hr] Hw. assert (Hin : w ∈ (log_writes bl new).*1) by (rewrite Hr, fmap_app; mem).
  unfold log_writes in Hin. apply list_elem_of_fmap in Hin as (y & -> & Hy).
  apply elem_of_lookup_imap in Hy as (i & b & -> & Hi). simpl. apply (lblock_in bl); [done|].
  by eapply lookup_lt_Some.
Qed.

Lemma log_writes_after bl new f i b :
  bl !! i = Some b -> after (log_writes bl new) f (lblock i) = new b.
Proof.
  intros Hi. apply after_in.
  - unfold log_writes. replace (_.*1) with (lblock <$> seq 0 (length bl)).
    + apply NoDup_fmap_2; [|apply NoDup_seq]. intros i1 i2. unfold lblock. lia.
    + clear. apply list_eq. intros i. rewrite !list_lookup_fmap, list_lookup_imap.
      destruct (bl !! i) eqn:E; simpl.
      * rewrite lookup_seq_lt; [done|]. by eapply lookup_lt_Some.
      * rewrite lookup_seq_ge; [done|]. by apply lookup_ge_None.
  - apply elem_of_lookup_imap. by exists i, b.
Qed.

Lemma represents_ext g g' fs fs' :
  (forall b, g b = g' b) -> (forall b, ~ in_log b -> fs b = fs' b) -> represents g fs -> represents g' fs'.
Proof.
  intros E E' (bl & H1 & H2 & H3). exists bl. split; [done|]. rewrite <- E. split; [done|].
  intros b Hb. destruct (H3 b Hb) as [H4 H5]. rewrite <- E, <- E' by done. split; [done|].
  intros i. rewrite <- E. apply H5.
Qed.

(** Before the header is written, the disk still holds the old file system. *)
Lemma crash_before_commit bl new f p :
  tx_ok bl -> hdr_ok (f start) [] -> p `prefix_of` log_writes bl new -> represents (after p f) f.
Proof.
  intros Hbl Hh Hp. exists []. split; [apply tx_nil; pose proof (tx_size _ Hbl); lia|]. split.
  - rewrite after_out; [done|]. intros H. by apply (log_writes_keys bl new p) in H as [_ H].
  - intros b Hb. split; [|done]. intros _. rewrite after_out; [done|].
    intros H. apply (log_writes_keys bl new p) in H as [H _]; done.
Qed.

(** With the header written, installing any number of blocks changes nothing. *)
Lemma install_represents bl g fs p :
  tx_ok bl -> hdr_ok (g start) bl ->
  (forall b, ~ in_log b -> (b ∉ bl -> g b = fs b) /\ (forall i, bl !! i = Some b -> g (lblock i) = fs b)) ->
  p `prefix_of` home_writes bl fs -> represents (after p g) fs.
Proof.
  intros Hbl Hh Hg [r Hr]. exists bl. split; [done|].
  assert (Hp : forall w, w ∈ p.*1 -> w ∈ bl).
  { intros w Hw. assert (Hin : w ∈ (home_writes bl fs).*1) by (rewrite Hr, fmap_app; mem).
    unfold home_writes in Hin. rewrite <- list_fmap_compose in Hin.
    by apply list_elem_of_fmap in Hin as (y & -> & Hy). }
  assert (Hlog : forall w, in_log w -> after p g w = g w).
  { intros w Hw. apply after_out. intros H%Hp. by apply (tx_home _ Hbl) in H as [H _]. }
  split; [rewrite Hlog; [done|by apply (start_in bl)]|]. intros b Hb. split.
  - intros Hn. rewrite after_out; [by apply Hg|]. by intros H%Hp.
  - intros i Hi. rewrite Hlog; [by apply Hg|]. apply (lblock_in bl); [done|]. by eapply lookup_lt_Some.
Qed.

Lemma home_writes_after bl fs g b :
  NoDup bl -> after (home_writes bl fs) g b = if decide (b ∈ bl) then fs b else g b.
Proof.
  intros Hnd. assert (E : (home_writes bl fs).*1 = bl).
  { unfold home_writes. rewrite <- list_fmap_compose. apply list_fmap_id. }
  case_decide as H.
  - apply after_in; [by rewrite E|]. unfold home_writes. apply list_elem_of_fmap. by exists b.
  - apply after_out. by rewrite E.
Qed.

(** With everything installed, the cleared header changes nothing either. *)
Lemma clear_represents bl g fs h0 :
  tx_ok bl -> hdr_ok h0 [] -> (forall b, ~ in_log b -> (b ∉ bl -> g b = fs b)) ->
  represents (after (home_writes bl fs ++ [(start, h0)]) g) fs.
Proof.
  intros Hbl Hh Hg. exists []. split; [apply tx_nil; pose proof (tx_size _ Hbl); lia|].
  rewrite !after_app. simpl. rewrite decide_True by done. split; [done|].
  intros b Hb. split; [|done]. intros _. rewrite after_app. simpl.
  rewrite decide_False by (intros ->; by apply Hb, (start_in bl)).
  rewrite home_writes_after by apply Hbl. case_decide; [done|]. by apply Hg.
Qed.

(** Recovery: a crash at any point of it leaves the same file system. *)
Lemma recovery_crash bl g fs h0 p :
  tx_ok bl -> hdr_ok (g start) bl -> hdr_ok h0 [] ->
  (forall b, ~ in_log b -> (b ∉ bl -> g b = fs b) /\ (forall i, bl !! i = Some b -> g (lblock i) = fs b)) ->
  p `prefix_of` home_writes bl fs ++ [(start, h0)] -> represents (after p g) fs.
Proof.
  intros Hbl Hh Hh0 Hg [Hp|(q & -> & [->| ->]%prefix_single)]%prefix_app_cases.
  - by apply (install_represents bl).
  - rewrite app_nil_r. by apply (install_represents bl).
  - apply clear_represents; [done..|]. intros b Hb. by apply Hg.
Qed.

(** Once the header is written the disk holds the new file system. *)
Lemma committed_represents bl new f h1 h0 r :
  tx_ok bl -> hdr_ok h1 bl -> hdr_ok h0 [] -> r `prefix_of` home_writes bl new ++ [(start, h0)] ->
  represents (after (log_writes bl new ++ [(start, h1)] ++ r) f) (updated bl new f).
Proof.
  intros Hbl Hh1 Hh0 Hr. set (g := after (log_writes bl new ++ [(start, h1)]) f).
  apply (represents_ext (after r g) _ (updated bl new f)); [intros b; unfold g; by rewrite app_assoc, after_app|done|].
  assert (E : home_writes bl new = home_writes bl (updated bl new f)).
  { apply map_ext_in. intros b Hb%list_elem_of_In. unfold updated. by rewrite decide_True. }
  rewrite E in Hr. apply (recovery_crash bl g _ h0); [done| |done| |done].
  - unfold g. rewrite after_app. simpl. by rewrite decide_True.
  - intros b Hb. unfold g, updated. split.
    + intros Hn. rewrite decide_False by done. rewrite after_app. simpl.
      rewrite decide_False by (intros ->; by apply Hb, (start_in bl)). apply after_out.
      intros H. by apply (log_writes_keys bl new _ _ Hbl (reflexivity _)) in H as [H _].
    + intros i Hi. rewrite decide_True by (by eapply list_elem_of_lookup_2). rewrite after_app. simpl.
      destruct (lblock_in bl i Hbl) as [_ Hne]; [by eapply lookup_lt_Some|]. rewrite decide_False by done.
      by apply log_writes_after.
Qed.

(** A commit: a crash at any point of it leaves the old or the new file system. *)
Lemma commit_crash bl new f h1 h0 p :
  tx_ok bl -> hdr_ok (f start) [] -> hdr_ok h1 bl -> hdr_ok h0 [] ->
  p `prefix_of` commit_writes bl new h1 h0 ->
  represents (after p f) f \/ represents (after p f) (updated bl new f).
Proof.
  intros Hbl Hf Hh1 Hh0. unfold commit_writes.
  intros [Hp|(q & -> & Hq)]%prefix_app_cases; [left; by apply (crash_before_commit bl new)|].
  apply prefix_app_cases in Hq as [[->| ->]%prefix_single|(r & -> & Hr)].
  { left. rewrite app_nil_r. by apply (crash_before_commit bl new). }
  { right. rewrite <- (app_nil_r [_]). apply (committed_represents bl new f h1 h0 []); [done..|apply prefix_nil]. }
  right. by apply (committed_represents bl new f h1 h0).
Qed.

(** What a whole commit leaves in the home blocks and in the header. *)
Lemma commit_writes_home bl new f h1 h0 b :
  tx_ok bl -> ~ in_log b -> after (commit_writes bl new h1 h0) f b = updated bl new f b.
Proof.
  intros Hbl Hb. assert (Hs : b <> start) by (intros ->; by apply Hb, (start_in bl)).
  unfold commit_writes. rewrite !after_app. simpl. rewrite decide_False by done.
  rewrite home_writes_after by apply Hbl. unfold updated. case_decide; [done|].
  simpl. rewrite decide_False by done. apply after_out. intros Hk.
  by apply (log_writes_keys bl new _ _ Hbl (reflexivity _)) in Hk as [Hk _].
Qed.

Lemma commit_writes_hdr bl new f h1 h0 : after (commit_writes bl new h1 h0) f start = h0.
Proof. unfold commit_writes. rewrite !after_app. simpl. by rewrite decide_True. Qed.

End Layout.
