(* ===== verification/LogOk.v ===== *)
(** * Correctness of the log

    [log.c] against the buffer cache's interface: the writes a commit and a
    recovery send to the disk, in order, and what a crash between any two of
    them leaves behind. *)

From S2P Require Import Prelude Riscv Memory Sys Spinlock Proc Sleeplock Bio Block Bcache BufCache Log LogDisk.

(** Rewrites the observations of a state back to those of an earlier one. *)
Ltac unchain :=
  repeat match goal with
  | C : changed ?O _ _ _ _ _ ?t' |- context [o_view ?O ?t' ?b] => rewrite (ch_view _ _ _ _ _ _ _ C b)
  | C : changed ?O _ _ _ _ _ ?t' |- context [o_refs ?O ?t' ?b] => rewrite (ch_refs _ _ _ _ _ _ _ C b)
  | C : changed ?O _ _ _ _ _ ?t' |- context [o_held ?O ?t' ?b] => rewrite (ch_held _ _ _ _ _ _ _ C b)
  end.

Ltac quick := first [assumption | reflexivity | congruence | lia].

Ltac chain := unchain; repeat case_decide; subst; quick.

Section LogOk.
Context {D : Type} `{!DiskDriver D} (rounds me : nat) (dev start size : Z).
Context (O : observations D) `{!CacheOk rounds me dev O}.
Hypothesis Hdev : 0 < dev < 2 ^ 31.
Hypothesis Hlog : 0 <= start /\ 0 < size /\ start + size < 2 ^ 31.
Implicit Types (s : log D) (t : bio D).

Local Abbreviation in_log := (in_log start size).
Local Abbreviation lblock := (lblock start).
Local Abbreviation tx_ok := (tx_ok start size).

(** The header in memory lists [bl]. *)
Record lists s (bl : list Z) : Prop := {
  li_start : lg_start s = start;
  li_dev : lg_dev s = dev;
  li_n : lg_n s = Z.of_nat (length bl);
  li_len : length (lg_block s) = Z.to_nat LOGSIZE;
  li_block : forall i b, bl !! i = Some b -> lg_block s !! i = Some b;
  li_tx : tx_ok bl
}.

(** The blocks of [ws] were written through, in order, [u] references were
    dropped, and [n] more buffers can be recycled. *)
Record wrote (ws : list (Z * block)) (u : Z -> Z) (n : nat) t t' : Prop := {
  wr_view : forall b, o_view O t' b = after ws (o_view O t) b;
  wr_refs : forall b, o_refs O t' b = o_refs O t b - u b;
  wr_held : forall b, o_held O t' b = o_held O t b;
  wr_disk : the_disk t' = dk_puts ws (the_disk t);
  wr_free : o_free O t' = (o_free O t + n)%nat
}.

(** No one uses the log's blocks, and there is a buffer for them. *)
Record log_idle t : Prop := {
  ld_refs : forall b, in_log b -> o_refs O t b = 0;
  ld_free : (0 < o_free O t)%nat
}.

Lemma wrote_refl t : wrote [] (fun _ => 0) 0 t t.
Proof. split; try done; [intros b; lia|]. unfold dk_puts. rewrite app_nil_r. by destruct (the_disk t). Qed.

Lemma wrote_trans ws1 ws2 u1 u2 n1 n2 t t1 t2 :
  wrote ws1 u1 n1 t t1 -> wrote ws2 u2 n2 t1 t2 -> wrote (ws1 ++ ws2) (fun b => u1 b + u2 b) (n1 + n2) t t2.
Proof.
  intros [V1 R1 H1 D1 F1] [V2 R2 H2 D2 F2]. split.
  - intros b. rewrite V2, after_app. apply after_ext, V1.
  - intros b. rewrite R2, R1. lia.
  - intros b. by rewrite H2.
  - rewrite D2, D1. unfold dk_puts. simpl. by rewrite app_assoc.
  - lia.
Qed.

Lemma wrote_ext ws u u' n n' t t' : wrote ws u n t t' -> (forall b, u b = u' b) -> n = n' -> wrote ws u' n' t t'.
Proof. intros [V R H Dk F] E <-. split; try done. intros b. by rewrite R, E. Qed.

Lemma wrote_idle ws u n t t' : wrote ws u n t t' -> (forall b, in_log b -> u b = 0) -> log_idle t -> log_idle t'.
Proof.
  intros [V R H Dk F] Hu [H1 H2]. split; [|lia]. intros b Hb. rewrite R, Hu by done. rewrite H1 by done. lia.
Qed.

(** ** Steps *)

Lemma run_bio {A} (c : M (bio D) A) s a t :
  c (lg_bio s) = Ok a t -> zoom lg_bioL c s = Ok a (set_lg_bio t s).
Proof. apply (zoom_Ok lg_bioL). Qed.

Lemma run_bread b s i t :
  lg_dev s = dev -> 0 <= b < 2 ^ 32 -> bread rounds dev b (lg_bio s) = Ok i t ->
  log_bread rounds b s = Ok i (set_lg_bio t s).
Proof.
  intros Hd Hb H. unfold log_bread. rewrite bind_gets, Hd, !u32_small by lia. by apply run_bio.
Qed.

Lemma run_get_block s bl i b : lists s bl -> bl !! i = Some b -> get_block i s = Ok b s.
Proof.
  intros Hs Hi. unfold get_block. pose proof (lookup_lt_Some _ _ _ Hi). pose proof (tx_len _ _ _ (li_tx _ _ Hs)).
  rewrite decide_True by lia. unfold gets. do 2 f_equal.
  apply list_lookup_total_correct. by apply (li_block _ _ Hs).
Qed.

Lemma lists_bio s bl t : lists s bl -> lists (set_lg_bio t s) bl.
Proof. by intros []. Qed.

Lemma lblock_range bl i : tx_ok bl -> (i < length bl)%nat -> 0 <= lblock i < 2 ^ 31.
Proof. intros Hbl Hi. destruct (lblock_in _ _ _ _ Hbl Hi) as [[? ?] _]. lia. Qed.

(** [memmove] into a held buffer from another one, and [bwrite]. *)
Lemma fill_block t to from b b' :
  o_ok O t -> o_handle O t to b -> o_handle O t from b' ->
  exists t1 t', copy_buf to from t = Ok tt t1 /\ bwrite to t1 = Ok tt t' /\ o_ok O t' /\
    o_handle O t' to b /\ changed O b (o_view O t b') (o_refs O t b) true t t' /\
    the_disk t' = dk_put b (o_view O t b') (the_disk t) /\ o_free O t' = o_free O t.
Proof.
  intros Hok H1 H2. destruct (handle_buf t from b' Hok H2) as [Hd _].
  destruct (set_data_spec t to b (o_view O t b') Hok H1 (cache_len _ _ Hok)) as (t1 & E1 & O1 & K1 & C1 & D1 & F1).
  destruct (bwrite_spec t1 to b O1 K1) as (t' & E2 & O2 & K2 & C2 & D2 & F2).
  exists t1, t'. split; [unfold copy_buf, get_buf; rewrite bind_gets, Hd; exact E1|].
  split; [exact E2|]. split; [exact O2|]. split; [exact K2|].
  assert (EV : o_view O t1 b = o_view O t b') by chain.
  split; [split|].
  - intros x. chain.
  - intros x. chain.
  - intros x. chain.
  - intros j x Hx Hj. by apply (ch_handle _ _ _ _ _ _ _ C2), (ch_handle _ _ _ _ _ _ _ C1).
  - etrans; [apply C1|apply C2].
  - split; [congruence|lia].
Qed.

(** Reading two blocks, the first of which no one uses. *)
Lemma open_two t X Y :
  o_ok O t -> X <> Y -> o_refs O t X = 0 -> o_held O t Y = false -> o_refs O t Y + 1 < 2 ^ 32 ->
  (0 < o_free O t)%nat -> (o_refs O t Y = 0 -> (1 < o_free O t)%nat) -> 0 <= X < 2 ^ 31 -> 0 <= Y < 2 ^ 31 ->
  exists iX iY t1 t2, bread rounds dev X t = Ok iX t1 /\ bread rounds dev Y t1 = Ok iY t2 /\
    o_ok O t2 /\ o_handle O t2 iX X /\ o_handle O t2 iY Y /\ the_disk t2 = the_disk t /\
    changed O X (o_view O t X) 1 true t t1 /\ changed O Y (o_view O t Y) (o_refs O t Y + 1) true t1 t2 /\
    (o_free O t2 + 1 + (if decide (o_refs O t Y = 0%Z) then 1 else 0) = o_free O t)%nat.
Proof.
  intros Hok Hne HX0 HhY HrY Hn1 Hn2 HX HY. destruct (cache_clean t X Hok HX0) as [HhX _].
  destruct (bread_spec t X) as (iX & t1 & E1 & O1 & H1 & C1 & D1 & F1); [quick..|].
  rewrite HX0 in C1. rewrite decide_True in F1 by quick.
  assert (EV : o_view O t1 Y = o_view O t Y) by chain. assert (ER : o_refs O t1 Y = o_refs O t Y) by chain.
  destruct (bread_spec t1 Y) as (iY & t2 & E2 & O2 & H2 & C2 & D2 & F2); [quick|chain|quick|quick| |].
  { intros HY0. rewrite ER in HY0. specialize (Hn2 HY0). lia. }
  rewrite EV, ER in C2. rewrite ER in F2.
  exists iX, iY, t1, t2. repeat (split; [quick|]).
  split; [by apply (ch_handle _ _ _ _ _ _ _ C2); quick|]. repeat (split; [quick|]). lia.
Qed.

(** One round of [write_log]. *)
Lemma write_log_one_ok s bl i b :
  o_ok O (lg_bio s) -> lists s bl -> bl !! i = Some b -> log_idle (lg_bio s) ->
  o_held O (lg_bio s) b = false -> 0 < o_refs O (lg_bio s) b < 2 ^ 32 - 1 ->
  exists t', write_log_one rounds i s = Ok tt (set_lg_bio t' s) /\ o_ok O t' /\
    wrote [(lblock i, o_view O (lg_bio s) b)] (fun _ => 0) 0 (lg_bio s) t'.
Proof.
  intros Hok Hs Hi [Hu Hn] Hh Hr. pose proof (li_tx _ _ Hs) as Htx.
  assert (Hil : (i < length bl)%nat) by (by eapply lookup_lt_Some).
  destruct (lblock_in _ _ _ _ Htx Hil) as [Hin _]. pose proof (lblock_range _ _ Htx Hil) as HL.
  destruct (tx_home _ _ _ Htx b) as [Hb Hbr]; [by eapply list_elem_of_lookup_2|].
  set (L := lblock i) in *. assert (HLb : L <> b) by congruence. set (t0 := lg_bio s) in *.
  destruct (open_two t0 L b) as (i1 & i2 & t1 & t2 & E1 & E2 & O2 & H1 & H2 & D2 & C1 & C2 & F2);
    [quick|quick|by apply Hu|quick|lia|quick|lia|lia|lia|]. rewrite decide_False in F2 by lia.
  destruct (fill_block t2 i1 i2 L b O2 H1 H2) as (t3 & t4 & E3 & E4 & O4 & H4 & C4 & D4 & F4).
  assert (H2' : o_handle O t4 i2 b) by (apply (ch_handle _ _ _ _ _ _ _ C4); quick).
  assert (R4 : o_refs O t4 b = o_refs O t0 b + 1) by chain.
  destruct (brelse_spec t4 i2 b O4 H2') as (t5 & E5 & O5 & C5 & D5 & F5); [lia|].
  rewrite decide_False in F5 by lia.
  assert (H4' : o_handle O t5 i1 L) by (apply (ch_handle _ _ _ _ _ _ _ C5); quick).
  assert (V2 : o_view O t2 b = o_view O t0 b) by chain.
  assert (V5 : o_view O t5 L = o_view O t0 b) by chain.
  assert (R5 : o_refs O t5 L = 1) by chain.
  destruct (brelse_spec t5 i1 L O5 H4') as (t6 & E6 & O6 & C6 & D6 & F6).
  { intros _. by rewrite V5, D5, D4, dk_get_put, decide_True. }
  rewrite decide_True in F6 by quick. exists t6. split; [|split; [exact O6|split]].
  - unfold write_log_one. rewrite bind_gets, (li_start _ _ Hs).
    krun (run_bread L s i1 t1 (li_dev _ _ Hs) ltac:(lia) E1).
    krun (run_get_block (set_lg_bio t1 s) bl i b (lists_bio _ _ _ Hs) Hi).
    krun (run_bread b (set_lg_bio t1 s) i2 t2 (li_dev _ _ Hs) ltac:(lia) E2).
    krun (run_bio _ (set_lg_bio t2 s) _ _ E3). krun (run_bio _ (set_lg_bio t3 s) _ _ E4).
    krun (run_bio _ (set_lg_bio t4 s) _ _ E5). exact (run_bio _ (set_lg_bio t5 s) _ _ E6).
  - intros x. cbn [after fst snd]. chain.
  - intros x. destruct (decide (x = L)) as [->|]; [rewrite (Hu L Hin)|]; chain.
  - intros x. destruct (decide (x = L)) as [->|]; [destruct (cache_clean t0 L Hok (Hu L Hin)) as [-> _]|]; chain.
  - rewrite D6, D5, D4, D2, V2. reflexivity.
  - lia.
Qed.

(** One round of [install_trans]: after a commit the block is unpinned; during
    recovery no one had it pinned. *)
Lemma install_one_ok recovering s bl i b :
  o_ok O (lg_bio s) -> lists s bl -> bl !! i = Some b -> log_idle (lg_bio s) ->
  o_held O (lg_bio s) b = false -> o_refs O (lg_bio s) b < 2 ^ 32 - 1 ->
  (if recovering : bool then (1 < o_free O (lg_bio s))%nat else 0 < o_refs O (lg_bio s) b) ->
  exists t', install_one rounds recovering i s = Ok tt (set_lg_bio t' s) /\ o_ok O t' /\
    wrote [(b, o_view O (lg_bio s) (lblock i))]
      (fun x => if decide (x = b) then if recovering then 0 else 1 else 0)
      (if recovering then 0 else if decide (o_refs O (lg_bio s) b = 1%Z) then 1 else 0) (lg_bio s) t'.
Proof.
  intros Hok Hs Hi [Hu Hn] Hh Hr Hrec. pose proof (li_tx _ _ Hs) as Htx.
  assert (Hil : (i < length bl)%nat) by (by eapply lookup_lt_Some).
  destruct (lblock_in _ _ _ _ Htx Hil) as [Hin _]. pose proof (lblock_range _ _ Htx Hil) as HL.
  destruct (tx_home _ _ _ Htx b) as [Hb Hbr]; [by eapply list_elem_of_lookup_2|].
  set (L := lblock i) in *. assert (HLb : L <> b) by congruence. set (t0 := lg_bio s) in *.
  pose proof (cache_refs t0 b Hok) as Hr0.
  destruct (open_two t0 L b) as (i1 & i2 & t1 & t2 & E1 & E2 & O2 & H1 & H2 & D2 & C1 & C2 & F2);
    [quick|quick|by apply Hu|quick|lia|quick|destruct recovering; lia|lia|lia|].
  destruct (fill_block t2 i2 i1 b L O2 H2 H1) as (t3 & t4 & E3 & E4 & O4 & H4 & C4 & D4 & F4).
  assert (V2 : o_view O t2 L = o_view O t0 L) by chain. rewrite V2 in *.
  assert (Hunpin : exists t5, (if recovering then ret tt else zoom lg_bioL (bunpin i2)) (set_lg_bio t4 s) =
      Ok tt (set_lg_bio t5 s) /\ o_ok O t5 /\ o_handle O t5 i2 b /\
      changed O b (o_view O t4 b) (o_refs O t4 b - if recovering then 0 else 1) true t4 t5 /\
      the_disk t5 = the_disk t4 /\ o_free O t5 = o_free O t4).
  { destruct recovering.
    - exists t4. split; [done|]. split; [exact O4|]. split; [exact H4|]. split; [|done].
      split; [| | |auto|reflexivity]; intros x; destruct (decide (x = b)) as [->|]; try done; [lia|].
      by apply (handle_held t4 i2).
    - destruct (bunpin_spec t4 i2 b O4 H4) as (t5 & E5 & O5 & H5 & C5 & D5 & F5); [chain|].
      exists t5. split; [exact (run_bio _ (set_lg_bio t4 s) _ _ E5)|]. tauto. }
  destruct Hunpin as (t5 & E5 & O5 & H5 & C5 & D5 & F5).
  assert (H1' : o_handle O t5 i1 L).
  { apply (ch_handle _ _ _ _ _ _ _ C5); [quick|]. apply (ch_handle _ _ _ _ _ _ _ C4); quick. }
  assert (V5 : o_view O t5 L = dk_get (the_disk t5) L).
  { rewrite D5, D4, dk_get_put, decide_False by quick. rewrite D2.
    destruct (cache_clean t0 L Hok (Hu L Hin)) as [_ <-]. chain. }
  assert (R5 : o_refs O t5 L = 1) by chain.
  destruct (brelse_spec t5 i1 L O5 H1') as (t6 & E6 & O6 & C6 & D6 & F6); [intros _; exact V5|].
  rewrite decide_True in F6 by quick.
  assert (H5' : o_handle O t6 i2 b) by (apply (ch_handle _ _ _ _ _ _ _ C6); quick).
  assert (V6 : o_view O t6 b = o_view O t0 L) by chain.
  assert (R6 : o_refs O t6 b = o_refs O t0 b + 1 - if recovering then 0 else 1) by chain.
  destruct (brelse_spec t6 i2 b O6 H5') as (t7 & E7 & O7 & C7 & D7 & F7).
  { intros _. by rewrite V6, D6, D5, D4, dk_get_put, decide_True. }
  exists t7. split; [|split; [exact O7|split]].
  - unfold install_one. rewrite bind_gets, (li_start _ _ Hs).
    krun (run_bread L s i1 t1 (li_dev _ _ Hs) ltac:(lia) E1).
    krun (run_get_block (set_lg_bio t1 s) bl i b (lists_bio _ _ _ Hs) Hi).
    krun (run_bread b (set_lg_bio t1 s) i2 t2 (li_dev _ _ Hs) ltac:(lia) E2).
    krun (run_bio _ (set_lg_bio t2 s) _ _ E3). krun (run_bio _ (set_lg_bio t3 s) _ _ E4).
    krun E5. krun (run_bio _ (set_lg_bio t5 s) _ _ E6). exact (run_bio _ (set_lg_bio t6 s) _ _ E7).
  - intros x. cbn [after fst snd]. chain.
  - intros x. destruct (decide (x = L)) as [->|]; [rewrite (Hu L Hin)|]; chain.
  - intros x. destruct (decide (x = L)) as [->|]; [destruct (cache_clean t0 L Hok (Hu L Hin)) as [-> _]|]; chain.
  - rewrite D7, D6, D5, D4, D2. reflexivity.
  - rewrite R6 in F7. revert F2 F7. repeat case_decide; destruct recovering; lia.
Qed.

Lemma changed_trans b x r h x' r' h' t t1 t2 :
  changed O b x r h t t1 -> changed O b x' r' h' t1 t2 -> changed O b x' r' h' t t2.
Proof.
  intros C1 C2. split; [intros b'; chain|intros b'; chain|intros b'; chain| |etrans; [apply C1|apply C2]].
  intros j b' Hb Hj. by apply (ch_handle _ _ _ _ _ _ _ C2), (ch_handle _ _ _ _ _ _ _ C1).
Qed.

(** A store into a held buffer. *)
Lemma store_ok t i b g :
  o_ok O t -> o_handle O t i b -> length (g (o_view O t b)) = Z.to_nat BSIZE ->
  exists t', upd_buf i (fun x => set_b_data (g (b_data x)) x) t = Ok tt t' /\ o_ok O t' /\ o_handle O t' i b /\
    changed O b (g (o_view O t b)) (o_refs O t b) true t t' /\ the_disk t' = the_disk t /\ o_free O t' = o_free O t.
Proof.
  intros Hok Hh Hg. rewrite upd_data_eq. destruct (handle_buf t i b Hok Hh) as [-> _]. by apply set_data_spec.
Qed.

(** The loop of [write_head]. *)
Lemma write_head_loop s bl buf t x :
  lists s bl -> o_ok O t -> o_handle O t buf start -> length x = Z.to_nat BSIZE ->
  o_view O t start = enc_upto bl 0 x ->
  exists t', for_tail (write_head_one buf) (set_lg_bio t s) = Ok tt (set_lg_bio t' s) /\
    o_ok O t' /\ o_handle O t' buf start /\ changed O start (enc_head bl x) (o_refs O t start) true t t' /\
    the_disk t' = the_disk t /\ o_free O t' = o_free O t.
Proof.
  intros Hs Hok Hh Hx Hv. unfold for_tail. rewrite bind_gets.
  change (lg_n (set_lg_bio t s)) with (lg_n s). rewrite (li_n _ _ Hs), Nat2Z.id.
  destruct (forM_seq_inv (fun k s' => exists t', s' = set_lg_bio t' s /\ o_ok O t' /\ o_handle O t' buf start /\
    changed O start (enc_upto bl k x) (o_refs O t start) true t t' /\
    the_disk t' = the_disk t /\ o_free O t' = o_free O t) (length bl) (write_head_one buf) (set_lg_bio t s))
    as (s' & Hrun & t' & -> & H).
  - intros k s' Hk (t' & -> & O1 & H1 & C1 & D1 & F1).
    destruct (lookup_lt_is_Some_2 bl k Hk) as [b Hb]. pose proof (tx_len _ _ _ (li_tx _ _ Hs)) as Hlen.
    assert (V1 : o_view O t' start = enc_upto bl k x) by chain.
    destruct (store_ok t' buf start (put32 (4 + 4 * k) b) O1 H1) as (t2 & E2 & O2 & H2 & C2 & D2 & F2).
    { rewrite V1, length_put32; rewrite (length_enc_upto bl k x Hx) by lia; [done|].
      unfold LOGSIZE, MAXOPBLOCKS, BSIZE in *. lia. }
    exists (set_lg_bio t2 s). split.
    { unfold write_head_one. krun (run_get_block (set_lg_bio t' s) bl k b (lists_bio _ _ _ Hs) Hb).
      exact (run_bio _ (set_lg_bio t' s) _ _ E2). }
    exists t2. repeat (split; [quick|]). rewrite V1 in C2.
    replace (o_refs O t' start) with (o_refs O t start) in C2 by chain.
    rewrite enc_upto_S, (list_lookup_total_correct _ _ _ Hb).
    split; [exact (changed_trans _ _ _ _ _ _ _ _ _ _ C1 C2)|]. split; congruence.
  - exists t. split; [done|]. split; [done|]. split; [done|]. split; [|done].
    destruct (handle_held t buf start Hok Hh) as [Hl _].
    split; [| | |auto|reflexivity]; intros b; destruct (decide (b = start)) as [->|]; congruence.
  - by exists t'.
Qed.

Lemma write_head_ok s bl :
  o_ok O (lg_bio s) -> lists s bl -> log_idle (lg_bio s) ->
  exists t', write_head rounds s = Ok tt (set_lg_bio t' s) /\ o_ok O t' /\
    wrote [(start, enc_head bl (o_view O (lg_bio s) start))] (fun _ => 0) 0 (lg_bio s) t'.
Proof.
  intros Hok Hs [Hu Hn]. pose proof (li_tx _ _ Hs) as Htx. pose proof (start_in _ _ _ Htx) as Hin.
  set (t0 := lg_bio s) in *. pose proof (Hu start Hin) as R0.
  destruct (cache_clean t0 start Hok R0) as [G0 _]. pose proof (cache_len t0 start Hok) as Hx.
  set (x := o_view O t0 start) in *.
  destruct (bread_spec t0 start) as (i & t1 & E1 & O1 & H1 & C1 & D1 & F1); [quick|quick|lia|lia|quick|].
  rewrite decide_True in F1 by quick. fold x in C1. assert (V1 : o_view O t1 start = x) by chain.
  destruct (store_ok t1 i start (put32 0 (lg_n s)) O1 H1) as (t2 & E2 & O2 & H2 & C2 & D2 & F2).
  { rewrite V1, length_put32; [done|]. rewrite Hx. unfold BSIZE. lia. }
  rewrite V1, (li_n _ _ Hs) in C2. assert (V2 : o_view O t2 start = enc_upto bl 0 x) by chain.
  destruct (write_head_loop s bl i t2 x Hs O2 H2 Hx V2) as (t3 & E3 & O3 & H3 & C3 & D3 & F3).
  destruct (bwrite_spec t3 i start O3 H3) as (t4 & E4 & O4 & H4 & C4 & D4 & F4).
  assert (V3 : o_view O t3 start = enc_head bl x) by chain. rewrite V3 in *.
  assert (V4 : o_view O t4 start = enc_head bl x) by chain.
  assert (R4 : o_refs O t4 start = 1) by chain.
  destruct (brelse_spec t4 i start O4 H4) as (t5 & E5 & O5 & C5 & D5 & F5).
  { intros _. by rewrite V4, D4, dk_get_put, decide_True. }
  rewrite decide_True in F5 by quick. exists t5. split; [|split; [exact O5|split]].
  - unfold write_head. rewrite bind_gets, (li_start _ _ Hs).
    krun (run_bread start s i t1 (li_dev _ _ Hs) ltac:(lia) E1). rewrite bind_gets.
    krun (run_bio _ (set_lg_bio t1 s) _ _ E2). krun E3. krun (run_bio _ (set_lg_bio t3 s) _ _ E4).
    exact (run_bio _ (set_lg_bio t4 s) _ _ E5).
  - intros b. cbn [after fst snd]. chain.
  - intros b. destruct (decide (b = start)) as [->|]; [rewrite R0|]; chain.
  - intros b. destruct (decide (b = start)) as [->|]; [rewrite G0|]; chain.
  - rewrite D5, D4, D3, D2, D1. reflexivity.
  - lia.
Qed.

(** ** The loops *)

(** The blocks of the transaction are pinned and not locked. *)
Definition pinned (bl : list Z) t : Prop :=
  forall b, b ∈ bl -> o_held O t b = false /\ 0 < o_refs O t b < 2 ^ 32 - 1.

Lemma run_for_tail s bl body (P : nat -> bio D -> Prop) :
  lists s bl -> P 0%nat (lg_bio s) ->
  (forall k b t, bl !! k = Some b -> P k t ->
     exists t', body k (set_lg_bio t s) = Ok tt (set_lg_bio t' s) /\ P (S k) t') ->
  exists t', for_tail body s = Ok tt (set_lg_bio t' s) /\ P (length bl) t'.
Proof.
  intros Hs H0 Hstep. unfold for_tail. rewrite bind_gets, (li_n _ _ Hs), Nat2Z.id.
  destruct (forM_seq_inv (fun k s' => exists t, s' = set_lg_bio t s /\ P k t) (length bl) body s)
    as (s' & Hrun & t & -> & H).
  - intros k s' Hk (t & -> & H). destruct (lookup_lt_is_Some_2 bl k Hk) as [b Hb].
    destruct (Hstep k b t Hb H) as (t' & E & H'). exists (set_lg_bio t' s). split; [done|]. by exists t'.
  - exists (lg_bio s). split; [by destruct s|done].
  - by exists t.
Qed.

Lemma imap_take_S {A B} (f : nat -> A -> B) (l : list A) k a :
  l !! k = Some a -> imap f (take (S k) l) = imap f (take k l) ++ [f k a].
Proof.
  intros H. rewrite (take_S_r _ _ _ H), imap_app. simpl. rewrite length_take.
  pose proof (lookup_lt_Some _ _ _ H). by replace (k `min` length l + 0)%nat with k by lia.
Qed.

Lemma imap_take_prefix {A B} (f : nat -> A -> B) (l : list A) k : imap f (take k l) `prefix_of` imap f l.
Proof. rewrite <- (take_drop k l) at 2. rewrite imap_app. by eexists. Qed.

Lemma write_log_ok s bl :
  o_ok O (lg_bio s) -> lists s bl -> log_idle (lg_bio s) -> pinned bl (lg_bio s) ->
  exists t', write_log rounds s = Ok tt (set_lg_bio t' s) /\ o_ok O t' /\
    wrote (log_writes start bl (o_view O (lg_bio s))) (fun _ => 0) 0 (lg_bio s) t'.
Proof.
  intros Hok Hs Hidle Hpin. set (t0 := lg_bio s) in *. pose proof (li_tx _ _ Hs) as Htx.
  destruct (run_for_tail s bl (write_log_one rounds) (fun k t => o_ok O t /\
    wrote (log_writes start (take k bl) (o_view O t0)) (fun _ => 0) 0 t0 t)) as (t' & E & H1 & H2).
  - done.
  - split; [done|apply wrote_refl].
  - intros k b t Hb [O1 W1]. assert (Hin : b ∈ bl) by (by eapply list_elem_of_lookup_2).
    destruct (Hpin b Hin) as [Hh Hr]. destruct (tx_home _ _ _ Htx b Hin) as [Hhome _].
    destruct (write_log_one_ok (set_lg_bio t s) bl k b) as (t' & E & O2 & W2); [done|by apply lists_bio|done| | | |].
    + by apply (wrote_idle _ _ _ _ _ W1).
    + simpl. by rewrite (wr_held _ _ _ _ _ W1).
    + simpl. rewrite (wr_refs _ _ _ _ _ W1). lia.
    + exists t'. split; [exact E|]. split; [done|]. unfold log_writes. rewrite (imap_take_S _ _ _ _ Hb).
      assert (V : o_view O t b = o_view O t0 b).
      { rewrite (wr_view _ _ _ _ _ W1). apply after_out. intros Hk.
        apply (log_writes_keys start size bl (o_view O t0) _ b Htx) in Hk as [Hk _]; [done|].
        apply imap_take_prefix. }
      simpl in W2. rewrite V in W2. exact (wrote_trans _ _ _ _ _ _ _ _ _ W1 W2).
  - exists t'. rewrite firstn_all in H2. split; [exact E|]. split; [exact H1|exact H2].
Qed.

(** The writes of [install_trans], from the blocks of the log. *)
Definition inst_writes (bl : list Z) t : list (Z * block) :=
  imap (fun i b => (b, o_view O t (lblock i))) bl.

(** The blocks whose pin is the last reference. *)
Definition nlast (bl : list Z) t : nat := length (filter (fun b => o_refs O t b = 1) bl).

Lemma install_trans_ok recovering s bl :
  o_ok O (lg_bio s) -> lists s bl -> log_idle (lg_bio s) ->
  (if recovering : bool then (1 < o_free O (lg_bio s))%nat /\
     forall b, b ∈ bl -> o_held O (lg_bio s) b = false /\ o_refs O (lg_bio s) b < 2 ^ 32 - 1
   else pinned bl (lg_bio s)) ->
  exists t', install_trans rounds recovering s = Ok tt (set_lg_bio t' s) /\ o_ok O t' /\
    wrote (inst_writes bl (lg_bio s))
      (fun b => if decide (b ∈ bl) then if recovering then 0 else 1 else 0)
      (if recovering then 0 else nlast bl (lg_bio s)) (lg_bio s) t'.
Proof.
  intros Hok Hs Hidle Hpin. set (t0 := lg_bio s) in *. pose proof (li_tx _ _ Hs) as Htx.
  assert (Hsub : forall b k, b ∈ take k bl -> b ∈ bl).
  { intros b k (i & Hi & _)%elem_of_take. by eapply list_elem_of_lookup_2. }
  destruct (run_for_tail s bl (install_one rounds recovering) (fun k t => o_ok O t /\
    wrote (inst_writes (take k bl) t0)
      (fun b => if decide (b ∈ take k bl) then if recovering then 0 else 1 else 0)
      (if recovering then 0 else nlast (take k bl) t0) t0 t)) as (t' & E & H1 & H2).
  - done.
  - split; [done|destruct recovering; apply wrote_refl].
  - intros k b t Hb [O1 W1]. assert (Hin : b ∈ bl) by (by eapply list_elem_of_lookup_2).
    assert (Hnb : b ∉ take k bl).
    { intros (j & Hj & Hjk)%elem_of_take. pose proof (NoDup_lookup _ _ _ _ (tx_nodup _ _ _ Htx) Hj Hb). lia. }
    assert (Hk : (k < length bl)%nat) by (by eapply lookup_lt_Some).
    pose proof (wr_refs _ _ _ _ _ W1 b) as Rb. cbn beta in Rb. rewrite decide_False in Rb by done.
    destruct (install_one_ok recovering (set_lg_bio t s) bl k b) as (t' & E & O2 & W2);
      [done|by apply lists_bio|done|..].
    + apply (wrote_idle _ _ _ _ _ W1); [|done]. intros x Hx. rewrite decide_False; [done|].
      intros Hx'%Hsub. by apply (tx_home _ _ _ Htx) in Hx' as [? _].
    + simpl. rewrite (wr_held _ _ _ _ _ W1). destruct recovering; [apply Hpin|apply Hpin]; done.
    + simpl. destruct recovering; [destruct Hpin as [_ Hpin]|]; destruct (Hpin b Hin); lia.
    + simpl. pose proof (wr_free _ _ _ _ _ W1). destruct recovering; [destruct Hpin; lia|].
      destruct (Hpin b Hin). lia.
    + exists t'. split; [exact E|]. split; [done|]. unfold inst_writes. rewrite (imap_take_S _ _ _ _ Hb).
      assert (V : o_view O t (lblock k) = o_view O t0 (lblock k)).
      { rewrite (wr_view _ _ _ _ _ W1). apply after_out. intros Hx. apply list_elem_of_fmap in Hx as (y & Ey & Hy).
        apply elem_of_lookup_imap in Hy as (j & b' & -> & Hj). simpl in Ey. subst b'.
        destruct (lblock_in _ _ _ _ Htx Hk) as [HL _].
        by destruct (tx_home _ _ _ Htx _ (Hsub _ _ (list_elem_of_lookup_2 _ _ _ Hj))) as [? _]. }
      simpl in W2. rewrite V in W2. pose proof (wrote_trans _ _ _ _ _ _ _ _ _ W1 W2) as [A1 A2 A3 A4 A5].
      split; try done.
      2: { rewrite A5. simpl. rewrite (wr_refs _ _ _ _ _ W1 b), (decide_False (P := b ∈ take k bl)) by done.
           destruct recovering; [done|]. unfold nlast. rewrite (take_S_r _ _ _ Hb), filter_app, length_app.
           simpl. rewrite Z.sub_0_r. rewrite filter_cons, filter_nil. destruct (decide (o_refs O t0 b = 1)); simpl; lia. }
      intros x. rewrite A2, (take_S_r _ _ _ Hb). f_equal.
      rewrite (decide_ext (x ∈ take k bl ++ [b]) (x ∈ take k bl \/ x = b)) by (rewrite elem_of_app, list_elem_of_singleton; done).
      destruct (decide (x = b)) as [->|Hne]; [rewrite decide_False, decide_True by tauto; lia|].
      rewrite (decide_ext (x ∈ take k bl \/ x = b) (x ∈ take k bl)) by tauto. lia.
  - exists t'. rewrite firstn_all in H2. split; [exact E|]. split; [exact H1|exact H2].
Qed.

Lemma nlast_ext bl t t' : (forall b, o_refs O t' b = o_refs O t b) -> nlast bl t' = nlast bl t.
Proof. intros H. unfold nlast. f_equal. apply list_filter_iff. intros b. by rewrite H. Qed.

(** ** Commit *)

Lemma lists_nil s bl : lists s bl -> lists (set_lg_n 0 s) [].
Proof. intros [L1 L2 L3 L4 L5 L6]. split; try done. apply tx_nil. lia. Qed.

Lemma inst_writes_home bl new t :
  (forall i b, bl !! i = Some b -> o_view O t (lblock i) = new b) ->
  inst_writes bl t = home_writes bl new.
Proof.
  intros H. unfold inst_writes, home_writes. rewrite <- (imap_const (fun b => (b, new b))).
  apply list_eq. intros i. rewrite !list_lookup_imap. destruct (bl !! i) as [b|] eqn:E; [|done]. simpl.
  by rewrite (H i b E).
Qed.

(** The writes of a commit, in order; the pins are dropped. *)
Lemma commit_ok s bl :
  o_ok O (lg_bio s) -> lists s bl -> log_idle (lg_bio s) -> pinned bl (lg_bio s) -> bl <> [] ->
  exists t' h1 h0, commit rounds s = Ok tt (set_lg_n 0 (set_lg_bio t' s)) /\ o_ok O t' /\
    hdr_ok h1 bl /\ hdr_ok h0 [] /\
    wrote (commit_writes start bl (o_view O (lg_bio s)) h1 h0)
      (fun b => if decide (b ∈ bl) then 1 else 0) (nlast bl (lg_bio s)) (lg_bio s) t'.
Proof.
  intros Hok Hs Hidle Hpin Hne. set (t0 := lg_bio s) in *. pose proof (li_tx _ _ Hs) as Htx.
  set (new := o_view O t0).
  destruct (write_log_ok s bl Hok Hs Hidle Hpin) as (t1 & E1 & O1 & W1). fold t0 new in W1.
  pose proof (wrote_idle _ _ _ _ _ W1 ltac:(done) Hidle) as I1.
  destruct (write_head_ok (set_lg_bio t1 s) bl O1 (lists_bio _ _ _ Hs) I1) as (t2 & E2 & O2 & W2).
  set (h1 := enc_head bl _) in W2. pose proof (wrote_trans _ _ _ _ _ _ _ _ _ W1 W2) as W12.
  pose proof (wrote_idle _ _ _ _ _ W2 ltac:(done) I1) as I2.
  assert (P2 : pinned bl t2).
  { intros b Hb. rewrite (wr_held _ _ _ _ _ W12), (wr_refs _ _ _ _ _ W12). destruct (Hpin b Hb). split; [done|lia]. }
  destruct (install_trans_ok false (set_lg_bio t2 s) bl O2 (lists_bio _ _ _ Hs) I2 P2) as (t3 & E3 & O3 & W3).
  simpl in W3. rewrite (inst_writes_home bl new) in W3.
  2: { intros i b Hi. rewrite (wr_view _ _ _ _ _ W12), after_app. simpl.
       destruct (lblock_in _ _ _ _ Htx (lookup_lt_Some _ _ _ Hi)) as [_ HL]. rewrite decide_False by done.
       by apply log_writes_after. }
  pose proof (wrote_trans _ _ _ _ _ _ _ _ _ W12 W3) as W123.
  assert (I3 : log_idle t3).
  { apply (wrote_idle _ _ _ _ _ W3); [|done]. intros b Hb. rewrite decide_False; [done|].
    intros Hb'. by apply (tx_home _ _ _ Htx) in Hb' as [? _]. }
  destruct (write_head_ok (set_lg_n 0 (set_lg_bio t3 s)) [] O3 (lists_nil _ _ (lists_bio _ _ _ Hs)) I3)
    as (t4 & E4 & O4 & W4).
  set (h0 := enc_head [] _) in W4. pose proof (wrote_trans _ _ _ _ _ _ _ _ _ W123 W4) as W.
  exists t4, h1, h0. split; [|split; [exact O4|]].
  - unfold commit. rewrite bind_gets, (li_n _ _ Hs).
    destruct (Z.ltb_spec 0 (Z.of_nat (length bl))) as [_|Hlt]; [|destruct bl; [done|simpl in Hlt; lia]].
    krun E1. krun E2. krun E3. rewrite bind_modify. exact E4.
  - split; [apply (enc_head_ok start size bl); [done|by apply cache_len]|].
    split; [apply (enc_head_ok start size []); [apply tx_nil; lia|by apply cache_len]|].
    destruct W as [A1 A2 A3 A4 A5]. unfold commit_writes. rewrite !app_assoc in *. split; try done.
    + intros b. rewrite A2. lia.
    + rewrite A5, (nlast_ext bl t0 t2); [lia|]. intros b. rewrite (wr_refs _ _ _ _ _ W12). lia.
Qed.

End LogOk.
