(* ===== verification/LogCrash.v ===== *)
(** * Recovery and crashes

    [initlog] reads the header a crash left behind and installs what it lists.
    With the writes of a commit ([LogOk]) and what every prefix of them
    represents ([LogDisk]) this gives: a crash at any point of a commit, or of a
    recovery, is followed by a recovery that leaves the file system as it was
    before the transaction or as it was after it. *)

From S2P Require Import Prelude Riscv Memory Sys Spinlock Proc Sleeplock Bio Block Bcache BufCache Log LogDisk LogOk.

Section LogCrash.
Context {D : Type} `{!DiskDriver D} (rounds me : nat) (dev start size : Z).
Context (O : observations D) `{!CacheOk rounds me dev O}.
Hypothesis Hdev : 0 < dev < 2 ^ 31.
Hypothesis Hlog : 0 <= start /\ 0 < size /\ start + size < 2 ^ 31.
Implicit Types (s : log D) (t : bio D).

Local Abbreviation in_log := (in_log start size).
Local Abbreviation lblock := (lblock start).
Local Abbreviation tx_ok := (tx_ok start size).
Local Abbreviation lists := (lists dev start size).
Local Abbreviation wrote := (wrote O).
Local Abbreviation log_idle := (log_idle start size O).
Local Abbreviation represents := (represents start size).

(** A log whose header was not read yet. *)
Record unread s : Prop := {
  un_start : lg_start s = start;
  un_dev : lg_dev s = dev;
  un_len : length (lg_block s) = Z.to_nat LOGSIZE
}.

(** The bookkeeping of the transactions is the same. *)
Definition same_ops s s' : Prop :=
  lg_size s' = lg_size s /\ lg_outstanding s' = lg_outstanding s /\ lg_committing s' = lg_committing s.

Lemma read_head_loop s x bl :
  unread s -> tx_ok bl -> hdr_ok x bl ->
  exists s', for_tail (fun i => put_block i (hdr_block x i)) (set_lg_n (hdr_n x) s) = Ok tt s' /\
    lists s' bl /\ lg_bio s' = lg_bio s /\ same_ops s s'.
Proof.
  intros [U1 U2 U3] Htx [Hn Hb]. pose proof (tx_len _ _ _ Htx) as Hlen.
  unfold for_tail. rewrite bind_gets. change (lg_n (set_lg_n (hdr_n x) s)) with (hdr_n x). rewrite Hn, Nat2Z.id.
  set (s1 := set_lg_n _ s).
  destruct (forM_seq_inv (fun k s' => exists bs, s' = set_lg_block bs s1 /\ length bs = Z.to_nat LOGSIZE /\
    forall i, (i < k)%nat -> bs !! i = Some (hdr_block x i)) (length bl) (fun i => put_block i (hdr_block x i)) s1)
    as (s' & Hrun & bs & -> & Hbs & Hi).
  - intros k s' Hk (bs & -> & Hbs & Hi). exists (set_lg_block (<[k := hdr_block x k]> bs) s1). split.
    { unfold put_block. rewrite decide_True by lia. done. }
    exists (<[k := hdr_block x k]> bs). split; [done|]. split; [by rewrite length_insert|].
    intros i Hik. destruct (decide (i = k)) as [->|Hne].
    + apply list_lookup_insert_eq. lia.
    + rewrite list_lookup_insert_ne by done. apply Hi. lia.
  - exists (lg_block s1). split; [by destruct s1|]. split; [done|]. intros i Hi. lia.
  - eexists. split; [exact Hrun|]. split; [|by split]. split; try done. intros i b Hib. simpl.
    rewrite Hi by (by eapply lookup_lt_Some). by rewrite (Hb i b Hib).
Qed.

Lemma read_head_ok s bl :
  o_ok O (lg_bio s) -> unread s -> tx_ok bl -> log_idle (lg_bio s) -> hdr_ok (o_view O (lg_bio s) start) bl ->
  exists s', read_head rounds s = Ok tt s' /\ o_ok O (lg_bio s') /\ lists s' bl /\ same_ops s s' /\
    wrote [] (fun _ => 0) 0 (lg_bio s) (lg_bio s').
Proof.
  intros Hok Hs Htx [Hu Hn] Hh. pose proof (start_in _ _ _ Htx) as Hin. set (t0 := lg_bio s) in *.
  pose proof (Hu start Hin) as R0. destruct (cache_clean t0 start Hok R0) as [G0 V0].
  destruct (bread_spec t0 start) as (i & t1 & E1 & O1 & H1 & C1 & D1 & F1); [quick|quick|lia|lia|quick|].
  rewrite decide_True in F1 by quick. destruct (handle_buf t1 i start O1 H1) as [Hd _].
  assert (V1 : o_view O t1 start = o_view O t0 start) by chain. rewrite V1 in Hd.
  assert (Hs1 : unread (set_lg_bio t1 s)) by (by destruct Hs).
  destruct (read_head_loop (set_lg_bio t1 s) (o_view O t0 start) bl Hs1 Htx Hh) as (s2 & E2 & L2 & B2 & S2).
  simpl in B2. assert (R1 : o_refs O t1 start = 1) by chain.
  destruct (brelse_spec t1 i start O1 H1) as (t3 & E3 & O3 & C3 & D3 & F3); [intros _; congruence|].
  rewrite decide_True in F3 by quick. exists (set_lg_bio t3 s2). split; [|split; [exact O3|split; [by apply lists_bio|split; [exact S2|split]]]].
  - unfold read_head. rewrite bind_gets, (un_start _ Hs).
    krun (run_bread rounds dev Hdev start s i t1 (un_dev _ Hs) ltac:(lia) E1).
    rewrite (bind_Ok _ _ _ (buf_of t1 i) (set_lg_bio t1 s)) by done. rewrite Hd, bind_modify. krun E2.
    rewrite <- B2 in E3. exact (run_bio _ s2 _ _ E3).
  - intros b. simpl. chain.
  - intros b. simpl. destruct (decide (b = start)) as [->|]; [rewrite R0|]; chain.
  - intros b. simpl. destruct (decide (b = start)) as [->|]; [rewrite G0|]; chain.
  - simpl. rewrite D3, D1. unfold dk_puts. rewrite app_nil_r. by destruct (the_disk t0).
  - simpl. lia.
Qed.

(** A cache no one uses. *)
Record fresh t : Prop := {
  fr_ok : o_ok O t;
  fr_refs : forall b, o_refs O t b = 0;
  fr_free : (1 < o_free O t)%nat
}.

Lemma fresh_idle t : fresh t -> log_idle t.
Proof. intros [F1 F2 F3]. split; [auto|lia]. Qed.

Lemma fresh_wrote ws n t t' : fresh t -> o_ok O t' -> wrote ws (fun _ => 0) n t t' -> fresh t'.
Proof.
  intros [F1 F2 F3] Hok [W1 W2 W3 W4 W5]. split; [done| |lia]. intros b. rewrite W2, F2. lia.
Qed.

Lemma recover_ok s bl :
  fresh (lg_bio s) -> unread s -> tx_ok bl -> hdr_ok (o_view O (lg_bio s) start) bl ->
  exists s' h0, recover_from_log rounds s = Ok tt s' /\ fresh (lg_bio s') /\ lists s' [] /\ same_ops s s' /\ hdr_ok h0 [] /\
    wrote (imap (fun i b => (b, o_view O (lg_bio s) (lblock i))) bl ++ [(start, h0)]) (fun _ => 0) 0
      (lg_bio s) (lg_bio s').
Proof.
  intros Hf Hs Htx Hh. set (t0 := lg_bio s) in *.
  destruct (read_head_ok s bl (fr_ok _ Hf) Hs Htx (fresh_idle _ Hf) Hh) as (s1 & E1 & O1 & L1 & S1 & W1).
  pose proof (fresh_wrote _ _ _ _ Hf O1 W1) as Hf1.
  destruct (install_trans_ok rounds me dev start size O Hdev Hlog true s1 bl O1 L1 (fresh_idle _ Hf1)) as (t2 & E2 & O2 & W2).
  { split; [apply Hf1|]. intros b _. rewrite (fr_refs _ Hf1). split; [|lia].
    by destruct (cache_clean (lg_bio s1) b O1 (fr_refs _ Hf1 b)). }
  assert (W2' : wrote (inst_writes start O bl t0) (fun _ => 0) 0 (lg_bio s1) t2).
  { assert (E : inst_writes start O bl t0 = inst_writes start O bl (lg_bio s1)).
    { apply imap_ext. intros i b _. by rewrite (wr_view _ _ _ _ _ _ W1). }
    rewrite E. apply (wrote_ext _ _ _ _ _ _ _ _ W2); [|done]. intros b. by destruct (decide (b ∈ bl)). }
  pose proof (fresh_wrote _ _ _ _ Hf1 O2 W2') as Hf2.
  destruct (write_head_ok rounds me dev start size O Hdev Hlog (set_lg_n 0 (set_lg_bio t2 s1)) [] O2)
    as (t3 & E3 & O3 & W3).
  { by apply (lists_nil _ _ _ Hlog _ bl), lists_bio. }
  { by apply fresh_idle. }
  exists (set_lg_n 0 (set_lg_bio t3 s1)), (enc_head [] (o_view O t2 start)).
  split; [|split; [|split; [|split; [exact S1|split]]]].
  - unfold recover_from_log. krun E1. krun E2. rewrite bind_modify. exact E3.
  - by apply (fresh_wrote _ _ _ _ Hf2 O3 W3).
  - by apply (lists_nil _ _ _ Hlog _ bl), lists_bio.
  - apply (enc_head_ok start size []); [apply tx_nil; lia|by apply cache_len].
  - pose proof (wrote_trans _ _ _ _ _ _ _ _ _ _ W1 (wrote_trans _ _ _ _ _ _ _ _ _ _ W2' W3)) as W.
    exact W.
Qed.

(** The super block describes the log. *)
Definition sb_log (sb : superblock) : Prop := sb_logstart sb = start /\ sb_nlog sb = size.

(** [initlog] on a disk that represents [fs]: its writes, and what it leaves. *)
Lemma initlog_ok sb s fs :
  sb_log sb -> fresh (lg_bio s) -> length (lg_block s) = Z.to_nat LOGSIZE ->
  represents (dk_get (the_disk (lg_bio s))) fs ->
  exists s' ws, initlog rounds dev sb s = Ok tt s' /\ fresh (lg_bio s') /\ lists s' [] /\ lg_size s' = size /\
    lg_outstanding s' = lg_outstanding s /\ lg_committing s' = lg_committing s /\
    the_disk (lg_bio s') = dk_puts ws (the_disk (lg_bio s)) /\
    (forall b, ~ in_log b -> dk_get (the_disk (lg_bio s')) b = fs b) /\
    hdr_ok (dk_get (the_disk (lg_bio s')) start) [] /\
    (forall p, p `prefix_of` ws -> represents (after p (dk_get (the_disk (lg_bio s)))) fs).
Proof.
  intros [Hs1 Hs2] Hf Hl (bl & Htx & Hh & Hg). set (t0 := lg_bio s) in *. set (g := dk_get (the_disk t0)) in *.
  assert (EV : forall b, o_view O t0 b = g b).
  { intros b. by destruct (cache_clean t0 b (fr_ok _ Hf) (fr_refs _ Hf b)). }
  set (y := set_slocks (<[L_log := Spinlock false "log" None]> (slocks (bi_sys t0))) (bi_sys t0)).
  set (t1 := lset bi_sysL y t0). pose proof (cache_calm t0 (fr_ok _ Hf)) as Hc.
  destruct (cache_sys t0 y (fr_ok _ Hf) (calm_initlock _ _ _ _ Hc) eq_refl) as [O1 [S1 S2 S3 S4 S5 S6]]. fold t1 in O1, S1, S2, S3, S4, S5, S6.
  assert (Hf1 : fresh t1).
  { split; [done| |rewrite S4; apply Hf]. intros b. rewrite S2. apply Hf. }
  set (s1 := set_lg_dev dev (set_lg_size size (set_lg_start start (set_lg_bio t1 s)))).
  destruct (recover_ok s1 bl) as (s' & h0 & E & Hf' & L & So & Hh0 & W); [done|done|done| |].
  { simpl. by rewrite S1, EV. }
  assert (Ew : imap (fun i b => (b, o_view O t1 (lblock i))) bl = home_writes bl fs).
  { apply (inst_writes_home start O bl fs t1). intros i b Hi. rewrite S1, EV.
    apply Hg; [|done]. apply (tx_home _ _ _ Htx). by eapply list_elem_of_lookup_2. }
  simpl in W. rewrite Ew in W. pose proof (wr_disk _ _ _ _ _ _ W) as Hdisk. rewrite S6 in Hdisk.
  assert (Hget : forall b, dk_get (the_disk (lg_bio s')) b = after (home_writes bl fs ++ [(start, h0)]) g b).
  { intros b. by rewrite Hdisk, dk_get_puts. }
  exists s', (home_writes bl fs ++ [(start, h0)]). destruct So as (So1 & So2 & So3).
  split; [|split; [done|split; [done|split; [done|split; [done|split; [done|split; [done|split]]]]]]].
  - unfold initlog. rewrite (proj2 (Z.leb_gt _ _)) by done.
    krun (zoom_Ok lg_sysL _ s _ _ (initlock_ok L_log "log" _)). rewrite !bind_modify.
    rewrite Hs1, Hs2, !s32_small by lia. exact E.
  - intros b Hb. rewrite Hget, after_app. simpl.
    rewrite decide_False by (intros ->; by apply Hb, (start_in _ _ bl)).
    rewrite home_writes_after by apply Htx. case_decide; [done|]. by apply Hg.
  - split; [rewrite Hget, after_app; simpl; by rewrite decide_True|].
    intros p Hp. by apply (recovery_crash start size bl g fs h0).
Qed.

(** ** Properties *)

(** A machine that was restarted with the contents [d] of the disk. *)
Record restarted (d : disk) (r : log D) : Prop := {
  re_fresh : fresh (lg_bio r);
  re_len : length (lg_block r) = Z.to_nat LOGSIZE;
  re_disk : forall b, dk_get (the_disk (lg_bio r)) b = dk_get d b
}.

(** C1: crash safety of [commit]: whatever prefix of its disk writes a crash lets
    through, the recovery of [initlog] leaves the file system blocks all as they
    were before the transaction or all as they are after it, never a mixture;
    once [commit] has returned it is the latter. *)
Theorem commit_crash_safe (sb : superblock) (s : log D) (bl : list Z)
    (Hsb : sb_log sb) (Hok : o_ok O (lg_bio s)) (Hs : lists s bl) (Hidle : log_idle (lg_bio s))
    (Hpin : pinned O bl (lg_bio s)) (Hne : bl <> [])
    (Hhdr : hdr_ok (dk_get (the_disk (lg_bio s)) start) []) :
  let old := dk_get (the_disk (lg_bio s)) in
  let new := updated bl (o_view O (lg_bio s)) old in
  exists s' ws, commit rounds s = Ok tt s' /\ lists s' [] /\
    the_disk (lg_bio s') = dk_puts ws (the_disk (lg_bio s)) /\
    forall p r, p `prefix_of` ws -> restarted (dk_puts p (the_disk (lg_bio s))) r ->
      exists r', initlog rounds dev sb r = Ok tt r' /\ lists r' [] /\
        ((p <> ws /\ forall b, ~ in_log b -> dk_get (the_disk (lg_bio r')) b = old b) \/
         (forall b, ~ in_log b -> dk_get (the_disk (lg_bio r')) b = new b)).
Proof.
  intros old new.
  destruct (commit_ok rounds me dev start size O Hdev Hlog s bl Hok Hs Hidle Hpin Hne)
    as (t' & h1 & h0 & E & O' & Hh1 & Hh0 & W).
  eexists _, _. split; [exact E|]. split; [by apply (lists_nil _ _ _ Hlog _ bl), lists_bio|].
  split; [exact (wr_disk _ _ _ _ _ _ W)|]. intros p r Hp [R1 R2 R3].
  assert (Hr : forall fs, represents (after p old) fs ->
    exists r', initlog rounds dev sb r = Ok tt r' /\ lists r' [] /\
      forall b, ~ in_log b -> dk_get (the_disk (lg_bio r')) b = fs b).
  { intros fs H. destruct (initlog_ok sb r fs Hsb R1 R2) as (r' & ws & Er & _ & L & _ & _ & _ & _ & Hfs & _).
    - apply (represents_ext _ _ (after p old) _ fs); [|done|done]. intros b. by rewrite R3, dk_get_puts.
    - by exists r'. }
  pose proof (li_tx _ _ _ _ _ Hs) as Htx.
  destruct (decide (p = commit_writes start bl (o_view O (lg_bio s)) h1 h0)) as [->|Hpw].
  - destruct (Hr new) as (r' & Er & L & Hfs); [|exists r'; tauto].
    by apply (committed_represents start size bl _ old h1 h0).
  - destruct (commit_crash start size bl (o_view O (lg_bio s)) old h1 h0 p Htx Hhdr Hh1 Hh0 Hp) as [H|H];
      destruct (Hr _ H) as (r' & Er & L & Hfs); exists r'; tauto.
Qed.

(** C6: crash safety of recovery: the writes of [initlog] can be cut anywhere by
    another crash; the next recovery leaves the same file system blocks, however
    often this happens. *)
Theorem recovery_crash_safe (sb : superblock) (s : log D) (fs : Z -> block)
    (Hsb : sb_log sb) (Hf : fresh (lg_bio s)) (Hl : length (lg_block s) = Z.to_nat LOGSIZE)
    (Hfs : represents (dk_get (the_disk (lg_bio s))) fs) :
  exists s' ws, initlog rounds dev sb s = Ok tt s' /\ lists s' [] /\
    the_disk (lg_bio s') = dk_puts ws (the_disk (lg_bio s)) /\
    (forall b, ~ in_log b -> dk_get (the_disk (lg_bio s')) b = fs b) /\
    forall p r, p `prefix_of` ws -> restarted (dk_puts p (the_disk (lg_bio s))) r ->
      represents (dk_get (the_disk (lg_bio r))) fs /\
      exists r', initlog rounds dev sb r = Ok tt r' /\
        forall b, ~ in_log b -> dk_get (the_disk (lg_bio r')) b = fs b.
Proof.
  destruct (initlog_ok sb s fs Hsb Hf Hl Hfs) as (s' & ws & E & _ & L & _ & _ & _ & Hd & H1 & _ & H2).
  exists s', ws. repeat (split; [done|]). intros p r Hp [R1 R2 R3].
  assert (Hrep : represents (dk_get (the_disk (lg_bio r))) fs).
  { apply (represents_ext _ _ (after p (dk_get (the_disk (lg_bio s)))) _ fs); [|done|by apply H2].
    intros b. by rewrite R3, dk_get_puts. }
  split; [done|].
  destruct (initlog_ok sb r fs Hsb R1 R2 Hrep) as (r' & ws' & Er & _ & _ & _ & _ & _ & _ & Hr & _).
  by exists r'.
Qed.

End LogCrash.
