(* ===== verification/LogTx.v ===== *)
(** * Transactions

    [begin_op], [log_write] and [end_op]: the admission of operations, the
    absorption of repeated writes, and a whole operation of the file system as
    one atomic update of the disk. *)

From S2P Require Import Prelude Riscv Memory Sys Spinlock Proc Sleeplock Bio Block Bcache BufCache Log LogDisk LogOk LogCrash.

Section LogTx.
Context {D : Type} `{!DiskDriver D} (rounds me : nat) (dev start size : Z).
Context (O : observations D) `{!CacheOk rounds me dev O}.
Hypothesis Hdev : 0 < dev < 2 ^ 31.
Hypothesis Hlog : 0 <= start /\ 0 < size /\ start + size < 2 ^ 31.
Implicit Types (s : log D) (t : bio D).

Local Abbreviation in_log := (in_log start size).
Local Abbreviation tx_ok := (tx_ok start size).
Local Abbreviation lists := (lists dev start size).
Local Abbreviation wrote := (wrote O).
Local Abbreviation log_idle := (log_idle start size O).

Lemma set_lg_bio_id s : set_lg_bio (lg_bio s) s = s.
Proof. by destruct s. Qed.

(** ** [begin_op] *)

Lemma begin_op_ok s :
  calm me (lg_sys s) -> lg_committing s = false ->
  lg_n s + (lg_outstanding s + 1) * MAXOPBLOCKS <= LOGSIZE ->
  begin_op rounds s = Ok tt (set_lg_outstanding (lg_outstanding s + 1) s).
Proof.
  intros Hc Hcom Hroom. unfold begin_op. pose proof (ca_idle _ _ Hc L_log I) as Hidle.
  krun (zoom_acquire lg_sysL L_log s Hidle). set (s1 := lset _ _ s). cbn [while].
  set (s2 := set_lg_outstanding (lg_outstanding s + 1) s1).
  rewrite (bind_Ok _ _ _ (inr tt) (set_lg_outstanding (lg_outstanding s + 1) s)); [done|].
  unfold begin_op_body. rewrite (bind_Ok _ _ _ s1 s1) by done.
  change (lg_committing s1) with (lg_committing s). change (lg_n s1) with (lg_n s).
  change (lg_outstanding s1) with (lg_outstanding s). rewrite Hcom, (proj2 (Z.ltb_ge _ _)) by lia.
  rewrite bind_modify. krun (zoom_release lg_sysL L_log (lg_sys s) s2 (ca_settled _ _ Hc) Hidle eq_refl).
  unfold ret. f_equal. by destruct s as [[[]]].
Qed.

(** With a commit running or no room for [MAXOPBLOCKS] more blocks the caller
    goes to sleep on the log, with the log's lock released. *)
Lemma begin_op_waits s :
  calm me (lg_sys s) -> c_noff (scpu (lg_sys s)) = 0 ->
  lg_committing s = true \/ LOGSIZE < lg_n s + (lg_outstanding s + 1) * MAXOPBLOCKS ->
  exists k, begin_op rounds s =
    Switch (lset lg_sysL (asleep me Ch_log L_log (locked L_log (lg_sys s))) s) k.
Proof.
  intros Hc Hn Hfull. unfold begin_op. pose proof (ca_idle _ _ Hc L_log I) as Hidle.
  krun (zoom_acquire lg_sysL L_log s Hidle). set (s1 := lset _ _ s). cbn [while].
  destruct (sleep_ok me Ch_log L_log (locked L_log (lg_sys s))) as (k & Hs & _).
  { split; simpl; [apply Hc|rewrite (ca_procs _ _ Hc); apply Hc|lia|apply cpu_push_intr|apply locked_mine| |done].
    unfold lock_free. rewrite lock_of_locked, decide_False by done.
    apply lock_idle_free, (ca_idle _ _ Hc), (ca_me_proc _ _ Hc). }
  apply (zoom_Switch lg_sysL _ s1) in Hs.
  assert (Hb : exists k, begin_op_body tt s1 =
    Switch (lset lg_sysL (asleep me Ch_log L_log (locked L_log (lg_sys s))) s) k).
  { unfold begin_op_body. rewrite (bind_Ok _ _ _ s1 s1) by done.
    change (lg_committing s1) with (lg_committing s). change (lg_n s1) with (lg_n s).
    change (lg_outstanding s1) with (lg_outstanding s).
    destruct (lg_committing s); [eexists; exact (bind_Switch _ _ _ _ _ Hs)|].
    destruct Hfull as [?|Hf]; [done|]. rewrite (proj2 (Z.ltb_lt _ _)) by lia.
    eexists; exact (bind_Switch _ _ _ _ _ Hs). }
  destruct Hb as [k' Hb]. eexists. exact (bind_Switch _ _ _ _ _ Hb).
Qed.

(** ** [log_write] *)

Lemma find_block s bl b :
  lists s bl -> 0 <= b < 2 ^ 31 -> exists r, find_loop (seq 0 (length bl)) (log_write_test b) s = Ok r s /\
    match r with Some i => bl !! i = Some b | None => b ∉ bl end.
Proof.
  intros Hs Hb.
  enough (H : forall n k, (k + n = length bl)%nat -> (forall i, (i < k)%nat -> bl !! i <> Some b) ->
    exists r, find_loop (seq k n) (log_write_test b) s = Ok r s /\
      match r with Some i => bl !! i = Some b | None => b ∉ bl end) by (apply (H _ 0%nat); [done|lia]).
  induction n as [|n IH]; intros k Hk Hno; cbn [seq find_loop].
  - exists None. split; [done|]. intros (i & Hi)%list_elem_of_lookup. apply (Hno i); [|done].
    apply lookup_lt_Some in Hi. lia.
  - destruct (lookup_lt_is_Some_2 bl k) as [b' Hb']; [lia|].
    destruct (tx_home _ _ _ (li_tx _ _ _ _ _ Hs) b') as [_ Hr]; [by eapply list_elem_of_lookup_2|].
    rewrite (bind_Ok _ _ _ (if u32 b' =? b then Some k else None) s).
    2: { unfold log_write_test. by krun (run_get_block _ _ _ s bl k b' Hs Hb'). }
    rewrite u32_small by lia. destruct (Z.eqb_spec b' b) as [->|Hne].
    + by exists (Some k).
    + apply IH; [lia|]. intros i Hi. destruct (decide (i = k)) as [->|]; [congruence|]. apply Hno. lia.
Qed.

(** A block that is in the transaction is absorbed; a new one is pinned and
    added to it. *)
Lemma log_write_ok s bl i b :
  o_ok O (lg_bio s) -> lists s bl -> o_handle O (lg_bio s) i b -> 1 <= lg_outstanding s ->
  Z.of_nat (length bl) < LOGSIZE -> Z.of_nat (length bl) < size - 1 -> lg_size s = size ->
  ~ in_log b -> 0 <= b < 2 ^ 31 -> o_refs O (lg_bio s) b + 1 < 2 ^ 32 ->
  exists s', log_write i s = Ok tt s' /\ lists s' (if decide (b ∈ bl) then bl else bl ++ [b]) /\
    same_ops s s' /\ o_ok O (lg_bio s') /\ o_handle O (lg_bio s') i b /\
    changed O b (o_view O (lg_bio s) b) (o_refs O (lg_bio s) b + if decide (b ∈ bl) then 0 else 1) true
      (lg_bio s) (lg_bio s') /\
    the_disk (lg_bio s') = the_disk (lg_bio s) /\ o_free O (lg_bio s') = o_free O (lg_bio s).
Proof.
  intros Hok Hs Hh Hout Hl1 Hl2 Hsz Hnl Hb Hr. set (t0 := lg_bio s) in *.
  pose proof (cache_calm t0 Hok) as Hc. pose proof (ca_idle _ _ Hc L_log I) as Hidle.
  unfold log_write. krun (zoom_acquire lg_sysL L_log s Hidle). set (s1 := lset _ _ s).
  rewrite (bind_Ok _ _ _ s1 s1) by done.
  change (lg_n s1) with (lg_n s). change (lg_size s1) with (lg_size s).
  change (lg_outstanding s1) with (lg_outstanding s). rewrite (li_n _ _ _ _ _ Hs), Hsz.
  rewrite (proj2 (Z.leb_gt _ _)), (proj2 (Z.leb_gt _ _)), (proj2 (Z.ltb_ge _ _)) by lia. cbn [orb].
  rewrite (bind_Ok _ _ _ (buf_of t0 i) s1) by done. rewrite Nat2Z.id.
  destruct (handle_buf t0 i b Hok Hh) as [_ ->].
  destruct (find_block s1 bl b) as (r & Er & Hfind); [by destruct Hs|done|]. krun Er.
  assert (Hput : forall k, (k <= length bl)%nat ->
    put_block k (s32 b) s1 = Ok tt (set_lg_block (<[k := b]> (lg_block s)) s1)).
  { intros k Hk. unfold put_block. rewrite decide_True, s32_small by lia. done. }
  destruct r as [k|]; cbn [from_option id].
  - assert (Hk : (k < length bl)%nat) by (by eapply lookup_lt_Some).
    krun (Hput k ltac:(lia)). rewrite list_insert_id by (by apply (li_block _ _ _ _ _ Hs)).
    rewrite (proj2 (Z.eqb_neq (Z.of_nat k) (Z.of_nat (length bl)))) by lia. rewrite bind_ret.
    assert (Hin : b ∈ bl) by (by eapply list_elem_of_lookup_2). destruct (decide (b ∈ bl)); [|done].
    exists s. split.
    { rewrite (zoom_release lg_sysL L_log (lg_sys s)); [|apply Hc|done|done]. by destruct s as [[[]]]. }
    split; [done|]. split; [done|]. split; [done|]. split; [done|].
    split; [|done]. destruct (handle_held t0 i b Hok Hh) as [Hl _].
    split; [| | |auto|reflexivity]; intros x; destruct (decide (x = b)) as [->|]; first [done|fold t0; lia|exact Hl].
  - destruct (decide (b ∈ bl)); [done|]. krun (Hput (length bl) ltac:(lia)). rewrite Z.eqb_refl.
    set (s2 := set_lg_block _ s1). destruct (bpin_spec t0 i b Hok Hh Hr) as (t' & Ep & O' & H' & C' & D' & F').
    destruct (bpin_under t0 i t' L_log Hok I ltac:(done) Ep) as [Eu Es].
    set (s3 := set_lg_bio (lset bi_sysL (locked L_log (bi_sys t0)) t') s2).
    rewrite (bind_Ok _ _ _ tt (set_lg_n (lg_n s + 1) s3)).
    2: { krun (run_bio _ s2 _ _ Eu). done. }
    rewrite (zoom_release lg_sysL L_log (lg_sys s)); [|apply Hc|done|done].
    set (s' := lset _ _ _). assert (Eb : lg_bio s' = t').
    { unfold s', s3. simpl. change (lg_sys s) with (bi_sys t0). rewrite <- Es. by destruct t' as [[]]. }
    exists s'. split; [done|]. rewrite Eb. split; [|by split].
    pose proof (li_tx _ _ _ _ _ Hs) as Htx. destruct Hs as [L1 L2 L3 L4 L5 L6]. split; try done.
    + simpl. rewrite L3, length_app. simpl. lia.
    + simpl. by rewrite length_insert.
    + intros j b' Hj. simpl. apply lookup_snoc_Some in Hj as [[Hj1 Hj2]|[-> ->]].
      * rewrite list_lookup_insert_ne by lia. by apply L5.
      * apply list_lookup_insert_eq. lia.
    + split; [|rewrite length_app; simpl; lia|rewrite length_app; simpl; lia|].
      * apply NoDup_app. split; [apply Htx|]. split; [|apply NoDup_singleton].
        intros x Hx ->%list_elem_of_singleton. done.
      * intros x [Hx| ->%list_elem_of_singleton]%elem_of_app; [by apply (tx_home _ _ _ Htx)|done].
Qed.

(** ** [end_op] *)

(** The writes of the commit of [bl], if there is anything to commit. *)
Definition tx_writes (bl : list Z) (new : Z -> block) (ws : list (Z * block)) : Prop :=
  bl = [] /\ ws = [] \/ exists h1 h0, hdr_ok h1 bl /\ hdr_ok h0 [] /\ ws = commit_writes start bl new h1 h0.

Lemma commit_any s bl :
  o_ok O (lg_bio s) -> lists s bl -> log_idle (lg_bio s) -> pinned O bl (lg_bio s) ->
  exists t' ws, commit rounds s = Ok tt (set_lg_n 0 (set_lg_bio t' s)) /\ o_ok O t' /\
    tx_writes bl (o_view O (lg_bio s)) ws /\
    wrote ws (fun b => if decide (b ∈ bl) then 1 else 0) (nlast O bl (lg_bio s)) (lg_bio s) t'.
Proof.
  intros Hok Hs Hidle Hpin. destruct bl as [|b bl].
  - exists (lg_bio s), []. split; [|split; [done|split; [by left|]]].
    + unfold commit. rewrite bind_gets. pose proof (li_n _ _ _ _ _ Hs) as Hn. simpl in Hn. rewrite Hn.
      simpl. unfold ret. destruct s. simpl in *. by rewrite Hn.
    + apply (wrote_ext _ _ _ _ _ _ _ _ (wrote_refl O (lg_bio s))); [|done].
      intros b. rewrite decide_False; [done|]. apply not_elem_of_nil.
  - destruct (commit_ok rounds me dev start size O Hdev Hlog s (b :: bl) Hok Hs Hidle Hpin ltac:(done))
      as (t' & h1 & h0 & E & O' & Hh1 & Hh0 & W).
    exists t', (commit_writes start (b :: bl) (o_view O (lg_bio s)) h1 h0).
    split; [exact E|]. split; [exact O'|]. split; [|exact W]. right. by exists h1, h0.
Qed.

(** The last section of [end_op]: only processes are woken. *)
Lemma finish_commit s :
  calm me (lg_sys s) ->
  exists y, (zoom lg_sysL (acquire L_log) ;; modify (set_lg_committing false) ;;
      zoom lg_sysL (wakeup Ch_log) ;; zoom lg_sysL (release L_log)) s =
    Ok tt (set_lg_committing false (lset lg_sysL y s)) /\ woken (lg_sys s) y.
Proof.
  intros Hc. pose proof (ca_idle _ _ Hc L_log I) as Hidle.
  krun (zoom_acquire lg_sysL L_log s Hidle). rewrite bind_modify. set (s1 := set_lg_committing _ _).
  destruct (wakeup_in_critical me Ch_log L_log (lg_sys s) Hc I ltac:(done)) as (ps & Hw & Hlen & Hpid).
  krun (zoom_Ok lg_sysL _ s1 _ _ Hw). set (s2 := lset _ _ s1).
  eexists. split; [|].
  - unfold zoom. change (lget lg_sysL s2) with (set_sprocs ps (locked L_log (lg_sys s))).
    rewrite (release_settled L_log (lg_sys s)); [|apply Hc|done|done|done]. reflexivity.
  - by split.
Qed.

Lemma woken_ok t y : o_ok O t -> woken (bi_sys t) y ->
  o_ok O (lset bi_sysL y t) /\ same_cache O t (lset bi_sysL y t).
Proof.
  intros Hok Hw. apply cache_sys; [done| |by apply wo_pid]. eapply calm_woken; [by apply cache_calm|done].
Qed.

Lemma wrote_same ws u n t t1 t2 : wrote ws u n t t1 -> same_cache O t1 t2 -> wrote ws u n t t2.
Proof.
  intros [W1 W2 W3 W4 W5] [S1 S2 S3 S4 S5 S6].
  split; [intros b; by rewrite S1|intros b; by rewrite S2|intros b; by rewrite S3|by rewrite S6|by rewrite S4].
Qed.

(** The last operation commits the transaction. *)
Lemma end_op_last s bl :
  o_ok O (lg_bio s) -> lists s bl -> log_idle (lg_bio s) -> pinned O bl (lg_bio s) ->
  lg_outstanding s = 1 -> lg_committing s = false ->
  exists s' ws, end_op rounds s = Ok tt s' /\ lists s' [] /\ lg_outstanding s' = 0 /\ lg_committing s' = false /\
    lg_size s' = lg_size s /\ o_ok O (lg_bio s') /\ tx_writes bl (o_view O (lg_bio s)) ws /\
    wrote ws (fun b => if decide (b ∈ bl) then 1 else 0) (nlast O bl (lg_bio s)) (lg_bio s) (lg_bio s').
Proof.
  intros Hok Hs Hidle Hpin Hout Hcom. pose proof (cache_calm _ Hok) as Hc.
  pose proof (ca_idle _ _ Hc L_log I) as Hl. unfold end_op. krun (zoom_acquire lg_sysL L_log s Hl).
  rewrite bind_modify. set (s1 := set_lg_outstanding _ _). rewrite (bind_Ok _ _ _ s1 s1) by done.
  change (lg_committing s1) with (lg_committing s). rewrite Hcom.
  change (lg_outstanding s1) with (lg_outstanding s - 1). rewrite Hout. cbn [Z.sub Z.eqb].
  rewrite (bind_Ok _ _ _ true (set_lg_committing true s1)) by done.
  krun (zoom_release lg_sysL L_log (lg_sys s) (set_lg_committing true s1) (ca_settled _ _ Hc) Hl eq_refl).
  set (s2 := lset _ _ _). assert (E2 : lg_bio s2 = lg_bio s) by (destruct s as [[[]]]; done).
  assert (Hs2 : lists s2 bl) by (by destruct Hs).
  destruct (commit_any s2 bl) as (t3 & ws & E3 & O3 & Htx & W); rewrite ?E2; try done. rewrite E2 in Htx, W.
  krun E3. set (s3 := set_lg_n 0 (set_lg_bio t3 s2)).
  destruct (finish_commit s3 (cache_calm _ O3)) as (y & Ey & Hw).
  destruct (woken_ok t3 y O3 Hw) as [O4 S4].
  exists (set_lg_committing false (lset lg_sysL y s3)), ws. split; [exact Ey|].
  assert (L3 : lists s3 []) by (by apply (lists_nil _ _ _ Hlog _ bl), lists_bio).
  split; [by destruct L3|]. split; [simpl; lia|]. split; [done|]. split; [done|]. split; [exact O4|].
  split; [done|]. by apply (wrote_same _ _ _ _ t3).
Qed.

(** An operation that is not the last one only makes room. *)
Lemma end_op_more s :
  o_ok O (lg_bio s) -> 1 < lg_outstanding s -> lg_committing s = false ->
  exists y, end_op rounds s = Ok tt (set_lg_outstanding (lg_outstanding s - 1) (lset lg_sysL y s)) /\
    woken (lg_sys s) y.
Proof.
  intros Hok Hout Hcom. pose proof (cache_calm _ Hok) as Hc. pose proof (ca_idle _ _ Hc L_log I) as Hl.
  unfold end_op. krun (zoom_acquire lg_sysL L_log s Hl).
  rewrite bind_modify. set (s1 := set_lg_outstanding _ _). rewrite (bind_Ok _ _ _ s1 s1) by done.
  change (lg_committing s1) with (lg_committing s). rewrite Hcom.
  change (lg_outstanding s1) with (lg_outstanding s - 1). rewrite (proj2 (Z.eqb_neq _ _)) by lia.
  destruct (wakeup_in_critical me Ch_log L_log (lg_sys s) Hc I ltac:(done)) as (ps & Hw & Hlen & Hpid).
  set (s2 := lset lg_sysL (set_sprocs ps (locked L_log (lg_sys s))) s1).
  rewrite (bind_Ok _ _ _ false s2) by (by krun (zoom_Ok lg_sysL _ s1 _ _ Hw)).
  eexists. split.
  - unfold bind, zoom. change (lget lg_sysL s2) with (set_sprocs ps (locked L_log (lg_sys s))).
    rewrite (release_settled L_log (lg_sys s)); [|apply Hc|done|done|done]. reflexivity.
  - by split.
Qed.

(** ** A whole operation *)

(** The use of the log that the comment on [log_write] describes. *)
Definition tx_write (w : Z * block) : M (log D) unit :=
  let! i := log_bread rounds w.1 in
  zoom lg_bioL (upd_buf i (set_b_data w.2)) ;;
  log_write i ;;
  zoom lg_bioL (brelse i).

Definition transaction (ws : list (Z * block)) : M (log D) unit :=
  begin_op rounds ;;
  forM ws tx_write ;;
  end_op rounds.

(** The blocks of the transaction after the updates [ws]. *)
Definition tx_add (bl : list Z) (w : Z * block) : list Z := if decide (w.1 ∈ bl) then bl else bl ++ [w.1].

Lemma tx_add_spec bl w b : b ∈ tx_add bl w <-> b ∈ bl \/ b = w.1.
Proof.
  unfold tx_add. case_decide as H.
  - split; [tauto|]. intros [H'| ->]; done.
  - by rewrite elem_of_app, list_elem_of_singleton.
Qed.

Lemma tx_adds_spec ws bl b : b ∈ foldl tx_add bl ws <-> b ∈ bl \/ b ∈ ws.*1.
Proof.
  revert bl. induction ws as [|w ws IH]; intros bl; simpl.
  - split; [by left|]. intros [H|H]; [done|by apply not_elem_of_nil in H].
  - rewrite IH, tx_add_spec, elem_of_cons. tauto.
Qed.

Lemma tx_add_len bl w : (length (tx_add bl w) <= S (length bl))%nat.
Proof. unfold tx_add. case_decide; rewrite ?length_app; simpl; lia. Qed.

Lemma tx_adds_len ws bl : (length (foldl tx_add bl ws) <= length bl + length ws)%nat.
Proof.
  revert bl. induction ws as [|w ws IH]; intros bl; simpl; [lia|]. specialize (IH (tx_add bl w)).
  pose proof (tx_add_len bl w). lia.
Qed.

(** In the middle of an operation that started in a cache no one used. *)
Record in_tx (t0 : bio D) (ws : list (Z * block)) (bl : list Z) s : Prop := {
  it_ok : o_ok O (lg_bio s);
  it_lists : lists s bl;
  it_view : forall b, o_view O (lg_bio s) b = after ws (o_view O t0) b;
  it_refs : forall b, o_refs O (lg_bio s) b = if decide (b ∈ bl) then 1 else 0;
  it_held : forall b, o_held O (lg_bio s) b = false;
  it_free : (o_free O (lg_bio s) + length bl = o_free O t0)%nat;
  it_disk : the_disk (lg_bio s) = the_disk t0;
  it_size : lg_size s = size;
  it_out : lg_outstanding s = 1;
  it_com : lg_committing s = false
}.

Lemma tx_write_ok t0 ws bl s w :
  in_tx t0 ws bl s -> ~ in_log w.1 -> 0 <= w.1 < 2 ^ 31 -> length w.2 = Z.to_nat BSIZE ->
  Z.of_nat (length bl) < LOGSIZE -> Z.of_nat (length bl) < size - 1 -> (length bl < o_free O t0)%nat ->
  exists s', tx_write w s = Ok tt s' /\ in_tx t0 (ws ++ [w]) (tx_add bl w) s'.
Proof.
  destruct w as [b x]. simpl. intros [I1 I2 I3 I4 I5 I6 I7 I8 I9 I10] Hb Hbr Hx H1 H2 Hfree.
  set (t := lg_bio s) in *. pose proof (I4 b) as Rb.
  destruct (bread_spec t b) as (i & t1 & E1 & O1 & K1 & C1 & D1 & F1);
    [done|done|destruct (decide (b ∈ bl)); lia|lia|lia|].
  destruct (set_data_spec t1 i b x O1 K1 Hx) as (t2 & E2 & O2 & K2 & C2 & D2 & F2).
  assert (R2 : o_refs O t2 b = (if decide (b ∈ bl) then 1 else 0) + 1) by (rewrite <- Rb; chain).
  assert (V2 : o_view O t2 b = x) by chain.
  destruct (log_write_ok (set_lg_bio t2 s) bl i b) as (s3 & E3 & L3 & (S1 & S2 & S3) & O3 & K3 & C3 & D3 & F3);
    try done; [by apply lists_bio|simpl; lia|simpl; rewrite R2; destruct (decide (b ∈ bl)); lia|].
  simpl in *. rewrite R2, V2 in C3.
  assert (R3 : o_refs O (lg_bio s3) b = 2) by (unchain; destruct (decide (b ∈ bl)); chain).
  assert (V3 : o_view O (lg_bio s3) b = x) by chain.
  destruct (brelse_spec (lg_bio s3) i b O3 K3) as (t4 & E4 & O4 & C4 & D4 & F4); [lia|].
  exists (set_lg_bio t4 s3). split.
  { unfold tx_write. simpl. krun (run_bread rounds dev Hdev b s i t1 (li_dev _ _ _ _ _ I2) ltac:(lia) E1).
    krun (run_bio _ (set_lg_bio t1 s) _ _ E2). krun E3. exact (run_bio _ s3 _ _ E4). }
  rewrite R3, V3 in C4. split; simpl; try congruence.
  - by apply lists_bio.
  - intros b'. rewrite after_app. simpl. rewrite <- I3. chain.
  - intros b'. rewrite (decide_ext (b' ∈ tx_add bl (b, x)) (b' ∈ bl \/ b' = b)) by apply tx_add_spec.
    destruct (decide (b' = b)) as [->|Hne]; [rewrite (decide_True (P := _ \/ _)) by tauto; chain|].
    rewrite (decide_ext (b' ∈ bl \/ b' = b) (b' ∈ bl)) by tauto. rewrite <- I4. chain.
  - intros b'. destruct (decide (b' = b)) as [->|Hne]; [chain|]. rewrite <- (I5 b'). chain.
  - unfold tx_add. simpl. rewrite (decide_False (P := o_refs O (lg_bio s3) b = 1)) in F4 by lia.
    rewrite Rb in F1. destruct (decide (b ∈ bl)); [rewrite decide_False in F1 by lia|rewrite decide_True in F1 by done];
      rewrite ?length_app; simpl; lia.
Qed.

(** ** Properties *)

(** A log between two operations: nothing is logged or in use. *)
Record quiet s : Prop := {
  qu_fresh : fresh O (lg_bio s);
  qu_lists : lists s [];
  qu_size : lg_size s = size;
  qu_out : lg_outstanding s = 0;
  qu_com : lg_committing s = false;
  qu_hdr : hdr_ok (dk_get (the_disk (lg_bio s)) start) []
}.

Lemma tx_loop t0 ws s : forall ws0 bl0,
  in_tx t0 ws0 bl0 s ->
  (forall w, w ∈ ws -> ~ in_log w.1 /\ 0 <= w.1 < 2 ^ 31 /\ length w.2 = Z.to_nat BSIZE) ->
  Z.of_nat (length bl0 + length ws) <= LOGSIZE -> Z.of_nat (length bl0 + length ws) < size ->
  (length bl0 + length ws <= o_free O t0)%nat ->
  exists s', forM ws tx_write s = Ok tt s' /\ in_tx t0 (ws0 ++ ws) (foldl tx_add bl0 ws) s'.
Proof.
  revert s. induction ws as [|w ws IH]; intros s ws0 bl0 Hs Hw H1 H2 H3; simpl in *.
  - exists s. by rewrite app_nil_r.
  - destruct (Hw w) as (Hw1 & Hw2 & Hw3); [by left|].
    destruct (tx_write_ok t0 ws0 bl0 s w) as (s1 & E1 & Hs1); [done..|lia|lia|lia|].
    pose proof (tx_add_len bl0 w) as Hlen.
    destruct (IH s1 (ws0 ++ [w]) (tx_add bl0 w)) as (s' & E & Hs'); [done| |lia|lia|lia|].
    { intros w' Hw'. apply Hw. by right. }
    exists s'. krun E1. rewrite <- app_assoc in Hs'. done.
Qed.

(** The writes of [end_op], in the home blocks and for a crash. *)
Lemma tx_writes_crash bl new old dws :
  tx_ok bl -> hdr_ok (old start) [] -> tx_writes bl new dws -> (forall b, b ∉ bl -> new b = old b) ->
  (forall b, ~ in_log b -> after dws new b = new b) /\ hdr_ok (after dws old start) [] /\
  (forall p, p `prefix_of` dws ->
     represents start size (after p old) old \/ represents start size (after p old) new).
Proof.
  intros Htx Hh Hw Hnew.
  assert (Hupd : forall f b, (forall b, b ∉ bl -> new b = f b) -> updated bl new f b = new b).
  { intros f b Hf. unfold updated. case_decide as H; [done|]. symmetry. by apply Hf. }
  destruct Hw as [[-> ->]|(h1 & h0 & H1 & H0 & ->)].
  - split; [done|]. split; [done|]. intros p ->%prefix_nil_inv. left.
    exists []. split; [done|]. split; [done|]. intros b Hb. split; [done|]. intros i Hi. done.
  - split; [|split; [by rewrite commit_writes_hdr|]].
    + intros b Hb. rewrite (commit_writes_home start size bl) by done. by apply Hupd.
    + intros p Hp. destruct (commit_crash start size bl new old h1 h0 p Htx Hh H1 H0 Hp) as [H|H]; [by left|right].
      apply (represents_ext start size (after p old) _ (updated bl new old)); [done| |done].
      intros b _. by apply Hupd.
Qed.

(** The last operation with the logged blocks [bl], and no other buffer in use,
    writes the blocks it sees to the disk, atomically. *)
Lemma end_op_atomic s bl :
  let old := dk_get (the_disk (lg_bio s)) in
  let new := o_view O (lg_bio s) in
  o_ok O (lg_bio s) -> lists s bl -> hdr_ok (old start) [] ->
  (forall b, o_refs O (lg_bio s) b = if decide (b ∈ bl) then 1 else 0) ->
  (forall b, o_held O (lg_bio s) b = false) -> (0 < o_free O (lg_bio s))%nat ->
  (1 < o_free O (lg_bio s) + length bl)%nat ->
  lg_size s = size -> lg_outstanding s = 1 -> lg_committing s = false ->
  exists s' dws, end_op rounds s = Ok tt s' /\ quiet s' /\
    o_free O (lg_bio s') = (o_free O (lg_bio s) + length bl)%nat /\
    the_disk (lg_bio s') = dk_puts dws (the_disk (lg_bio s)) /\
    (forall b, ~ in_log b -> o_view O (lg_bio s') b = new b /\ dk_get (the_disk (lg_bio s')) b = new b) /\
    (forall p, p `prefix_of` dws ->
       represents start size (after p old) old \/ represents start size (after p old) new).
Proof.
  intros old new Hok Hs Hh Hr Hheld Hf Hf1 Hsz Hout Hcom.
  assert (Hidle : log_idle (lg_bio s)).
  { split; [|done]. intros b Hb. rewrite Hr, decide_False; [done|].
    intros H. by apply (tx_home _ _ _ (li_tx _ _ _ _ _ Hs)) in H as [? _]. }
  assert (Hpin : pinned O bl (lg_bio s)).
  { intros b Hb. rewrite Hr, decide_True by done. split; [apply Hheld|lia]. }
  destruct (end_op_last s bl) as (s' & dws & E & L' & K1 & K2 & K3 & O' & Htx & W); try done.
  assert (Hnl : nlast O bl (lg_bio s) = length bl).
  { unfold nlast. assert (H : forall l, (forall b, b ∈ l -> b ∈ bl) ->
      length (filter (fun b => o_refs O (lg_bio s) b = 1) l) = length l); [|by apply H].
    induction l as [|x l IH]; intros Hx; [done|]. rewrite filter_cons, decide_True.
    - simpl. rewrite IH; [done|]. intros b Hb. apply Hx. by right.
    - rewrite Hr, decide_True; [done|]. apply Hx. by left. }
  destruct (tx_writes_crash bl new old dws) as (Hhome & Hhdr & Hcrash); try done.
  { apply Hs. }
  { intros b Hb. destruct (cache_clean (lg_bio s) b Hok) as [_ H]; [|exact H]. by rewrite Hr, decide_False. }
  assert (Hrefs : forall b, o_refs O (lg_bio s') b = 0).
  { intros b. rewrite (wr_refs _ _ _ _ _ _ W), Hr. case_decide; lia. }
  assert (Hview : forall b, ~ in_log b -> o_view O (lg_bio s') b = new b).
  { intros b Hb. rewrite (wr_view _ _ _ _ _ _ W). by apply Hhome. }
  pose proof (wr_disk _ _ _ _ _ _ W) as Hdisk. pose proof (wr_free _ _ _ _ _ _ W) as Hfree. rewrite Hnl in Hfree.
  exists s', dws. split; [done|]. split; [|split; [done|split; [done|split; [|done]]]].
  - split; try done; [|congruence|by rewrite Hdisk, dk_get_puts]. split; [done|done|lia].
  - intros b Hb. split; [by apply Hview|].
    destruct (cache_clean (lg_bio s') b O' (Hrefs b)) as [_ <-]. by apply Hview.
Qed.

(** C3: an operation of the file system is one atomic update.  [begin_op], any
    number of block updates (at most [MAXOPBLOCKS]) logged with [log_write], and
    [end_op] leave every block with its last update, in the cache and on the
    disk, and the log empty and unused.  Before [end_op] nothing is written, and
    after any prefix of the writes of [end_op] the disk represents the state
    before the operation or the state after it. *)
Theorem transaction_atomic (s : log D) (ws : list (Z * block))
    (Hq : quiet s) (Hsize : MAXOPBLOCKS < size) (Hfree : (12 <= o_free O (lg_bio s))%nat)
    (Hn : Z.of_nat (length ws) <= MAXOPBLOCKS)
    (Hws : forall w, w ∈ ws -> ~ in_log w.1 /\ 0 <= w.1 < 2 ^ 31 /\ length w.2 = Z.to_nat BSIZE) :
  let old := dk_get (the_disk (lg_bio s)) in
  exists s1 s' dws, (begin_op rounds ;; forM ws tx_write) s = Ok tt s1 /\ the_disk (lg_bio s1) = the_disk (lg_bio s) /\
    end_op rounds s1 = Ok tt s' /\ transaction ws s = Ok tt s' /\ quiet s' /\
    the_disk (lg_bio s') = dk_puts dws (the_disk (lg_bio s)) /\
    (forall b, ~ in_log b -> o_view O (lg_bio s') b = after ws old b /\
       dk_get (the_disk (lg_bio s')) b = after ws old b) /\
    (forall p, p `prefix_of` dws ->
       represents start size (after p old) old \/ represents start size (after p old) (after ws old)).
Proof.
  intros old. destruct Hq as [Q1 Q2 Q3 Q4 Q5 Q6]. set (t0 := lg_bio s) in *.
  pose proof (cache_calm t0 (fr_ok _ _ Q1)) as Hc.
  assert (Hold : forall b, o_view O t0 b = old b).
  { intros b. by destruct (cache_clean t0 b (fr_ok _ _ Q1) (fr_refs _ _ Q1 b)). }
  assert (E0 : begin_op rounds s = Ok tt (set_lg_outstanding 1 s)).
  { rewrite begin_op_ok; [by rewrite Q4|done|done|]. rewrite (li_n _ _ _ _ _ Q2), Q4. done. }
  assert (I0 : in_tx t0 [] [] (set_lg_outstanding 1 s)).
  { split; try done; [apply Q1|by destruct Q2|apply Q1|].
    intros b. by destruct (cache_clean t0 b (fr_ok _ _ Q1) (fr_refs _ _ Q1 b)). }
  destruct (tx_loop t0 ws _ [] [] I0 Hws) as (s1 & E1 & I1);
    [unfold LOGSIZE, MAXOPBLOCKS in *; simpl; lia|simpl; lia|unfold MAXOPBLOCKS in *; simpl; lia|].
  simpl in I1. set (bl := foldl tx_add [] ws) in *. destruct I1 as [J1 J2 J3 J4 J5 J6 J7 J8 J9 J10].
  pose proof (tx_adds_len ws []) as Hlen. fold bl in Hlen. simpl in Hlen.
  assert (Hnew : forall b, o_view O (lg_bio s1) b = after ws old b) by (intros b; rewrite J3; by apply after_ext).
  destruct (end_op_atomic s1 bl) as (s' & dws & E2 & Hq & _ & Hd & Hhome & Hcrash);
    rewrite ?J7; try done; [unfold MAXOPBLOCKS in *; lia|unfold MAXOPBLOCKS in *; lia|]. rewrite J7 in Hd, Hcrash.
  exists s1, s', dws. assert (E01 : (begin_op rounds ;; forM ws tx_write) s = Ok tt s1) by (by krun E0).
  split; [done|]. split; [done|]. split; [done|]. split; [|split; [done|split; [done|split]]].
  - unfold transaction. krun E0. by krun E1.
  - intros b Hb. rewrite <- Hnew. by apply Hhome.
  - intros p Hp. destruct (Hcrash p Hp) as [H|H]; [by left|right].
    by apply (represents_ext start size (after p old) _ (o_view O (lg_bio s1))).
Qed.

(** Admission: [begin_op] counts the operation when no commit is running and
    the blocks already logged leave room for [MAXOPBLOCKS] more for it and for
    every operation before it; otherwise the caller sleeps on the log, with the
    log unchanged and its lock released. *)
Theorem begin_op_correct (s : log D) (Hc : calm me (lg_sys s)) (Hn : c_noff (scpu (lg_sys s)) = 0) :
  (lg_committing s = false -> lg_n s + (lg_outstanding s + 1) * MAXOPBLOCKS <= LOGSIZE ->
   begin_op rounds s = Ok tt (set_lg_outstanding (lg_outstanding s + 1) s)) /\
  (lg_committing s = true \/ LOGSIZE < lg_n s + (lg_outstanding s + 1) * MAXOPBLOCKS ->
   exists y k, begin_op rounds s = Switch (lset lg_sysL y s) k /\ lock_free y L_log /\
     p_state (proc_of y me) = SLEEPING /\ p_chan (proc_of y me) = Some Ch_log).
Proof.
  split; [by apply begin_op_ok|]. intros Hfull. destruct (begin_op_waits s Hc Hn Hfull) as [k Hk].
  exists (asleep me Ch_log L_log (locked L_log (lg_sys s))), k. split; [done|]. unfold asleep. split.
  - unfold lock_free. change (lk_locked (lock_of (unlocked L_log (locked (L_proc me) (locked L_log (lg_sys s)))) L_log) = false).
    by rewrite lock_of_unlocked, decide_True.
  - rewrite (proc_of_upd _ me (unlocked L_log (locked (L_proc me) (locked L_log (lg_sys s)))));
      [done|]. simpl. rewrite (ca_procs _ _ Hc). apply Hc.
Qed.

(** [log_write] panics when the log is full. *)
Lemma log_write_full s i :
  calm me (lg_sys s) -> LOGSIZE <= lg_n s \/ lg_size s - 1 <= lg_n s ->
  exists s', log_write i s = Panic "too big a transaction" s'.
Proof.
  intros Hc Hfull. unfold log_write. krun (zoom_acquire lg_sysL L_log s (ca_idle _ _ Hc L_log I)).
  set (s1 := lset _ _ s). rewrite (bind_Ok _ _ _ s1 s1) by done.
  change (lg_n s1) with (lg_n s). change (lg_size s1) with (lg_size s). exists s1.
  replace ((LOGSIZE <=? lg_n s) || (lg_size s - 1 <=? lg_n s)) with true; [done|].
  symmetry. apply orb_true_iff. rewrite !Z.leb_le. lia.
Qed.

(** [log_write]: a block that is already in the transaction is absorbed, with
    no further pin; a new block is appended and its buffer pinned; the disk is not
    touched.  A full log, and a call outside of an operation, panic. *)
Theorem log_write_correct (s : log D) (bl : list Z) (i : nat) (b : Z)
    (Hok : o_ok O (lg_bio s)) (Hs : lists s bl) (Hh : o_handle O (lg_bio s) i b) (Hsize : lg_size s = size)
    (Hb : ~ in_log b /\ 0 <= b < 2 ^ 31) (Hr : o_refs O (lg_bio s) b + 1 < 2 ^ 32) :
  (1 <= lg_outstanding s -> Z.of_nat (length bl) < Z.min LOGSIZE (size - 1) ->
   exists s', log_write i s = Ok tt s' /\ lists s' (if decide (b ∈ bl) then bl else bl ++ [b]) /\
     changed O b (o_view O (lg_bio s) b) (o_refs O (lg_bio s) b + if decide (b ∈ bl) then 0 else 1) true
       (lg_bio s) (lg_bio s') /\ the_disk (lg_bio s') = the_disk (lg_bio s)) /\
  (Z.min LOGSIZE (size - 1) <= Z.of_nat (length bl) ->
   exists s', log_write i s = Panic "too big a transaction" s') /\
  (lg_outstanding s < 1 -> Z.of_nat (length bl) < Z.min LOGSIZE (size - 1) ->
   exists s', log_write i s = Panic "log_write outside of trans" s').
Proof.
  pose proof (cache_calm _ Hok) as Hc. pose proof (li_n _ _ _ _ _ Hs) as Hn. split; [|split].
  - intros Hout Hl. destruct (log_write_ok s bl i b) as (s' & E & L & _ & _ & _ & C & Dk & _); try done; [lia|lia|tauto|tauto|].
    by exists s'.
  - intros Hl. apply log_write_full; [done|]. lia.
  - intros Hout Hl. unfold log_write. krun (zoom_acquire lg_sysL L_log s (ca_idle _ _ Hc L_log I)).
    set (s1 := lset _ _ s). rewrite (bind_Ok _ _ _ s1 s1) by done.
    change (lg_n s1) with (lg_n s). change (lg_size s1) with (lg_size s). exists s1.
    rewrite Hn, Hsize, (proj2 (Z.leb_gt _ _)), (proj2 (Z.leb_gt _ _)) by lia. cbn [orb].
    change (lg_outstanding s1) with (lg_outstanding s). by rewrite (proj2 (Z.ltb_lt _ _)) by lia.
Qed.

(** C39: with the log [mkfs] makes, of [LOGSIZE] blocks with the header, the
    admission of [begin_op] does not keep [log_write] from panicking: three
    operations are admitted, each to write [MAXOPBLOCKS] blocks, but only
    [LOGSIZE - 1] of these fit. *)
Theorem log_admission_gap (s : log D) (Hc : calm me (lg_sys s)) (Hcom : lg_committing s = false)
    (Hn : lg_n s = 0) (Hout : lg_outstanding s = 0) (Hsize : lg_size s = LOGSIZE) :
  (begin_op rounds ;; begin_op rounds ;; begin_op rounds) s = Ok tt (set_lg_outstanding 3 s) /\
  LOGSIZE = 3 * MAXOPBLOCKS /\
  forall s' i, calm me (lg_sys s') -> lg_size s' = LOGSIZE -> lg_n s' = LOGSIZE - 1 ->
    exists s'', log_write i s' = Panic "too big a transaction" s''.
Proof.
  split; [|split; [done|]].
  - assert (Hb : forall k, 0 <= k <= 2 ->
      begin_op rounds (set_lg_outstanding k s) = Ok tt (set_lg_outstanding (k + 1) s)).
    { intros k Hk. rewrite begin_op_ok; [done|done|done|]. simpl. rewrite Hn. unfold LOGSIZE, MAXOPBLOCKS. lia. }
    assert (E : s = set_lg_outstanding 0 s) by (destruct s; simpl in *; by rewrite Hout).
    rewrite E at 1. krun (Hb 0 ltac:(lia)). krun (Hb 1 ltac:(lia)). exact (Hb 2 ltac:(lia)).
  - intros s' i Hc' Hs' Hn'. apply log_write_full; [done|]. lia.
Qed.

End LogTx.

(** ** The log over the buffer cache of [bio.c] *)

Definition ram_log (t : bio disk) : log disk := Log t 2 30 0 false 1 0 (replicate 30 0).

Definition ram_sb : superblock := Superblock 0x10203040 2000 1954 200 30 2 32 45.

Abbreviation ram_obs := (bcache_obs (D := disk) 0 1).

Lemma ram_hdr : hdr_ok (dk_get empty_disk 2) [].
Proof. split; [vm_compute; reflexivity|]. intros i b H. discriminate. Qed.

Lemma ram_fresh_on (d : disk) (y : sys) :
  (forall b, length (dk_get d b) = Z.to_nat BSIZE) -> calm 0 y ->
  exists t : bio disk, fresh ram_obs t /\ o_free ram_obs t = NBUF /\ the_disk t = d /\ bi_sys t = y.
Proof.
  intros Hlen Hy. destruct (ram_cache_on d y Hlen Hy) as (t & Hok & Hn & Hf & Hd & _ & Hs). exists t. split; [|done]. split.
  - simpl. by eexists.
  - intros b. simpl. by apply brefs_cold.
  - simpl. rewrite Hn. unfold NBUF. lia.
Qed.

Lemma ram_fresh : exists t : bio disk, fresh ram_obs t /\ o_free ram_obs t = NBUF /\ the_disk t = empty_disk.
Proof. destruct (ram_fresh_on empty_disk calm_sys empty_disk_len calm_sys_ok) as (t & H1 & H2 & H3 & _). by exists t. Qed.

Lemma ram_lists t : lists 1 2 30 (ram_log t) [].
Proof. split; try done. by apply tx_nil. Qed.

Lemma ram_quiet : exists t : bio disk, quiet 1 2 30 ram_obs (ram_log t) /\ o_free ram_obs t = NBUF.
Proof.
  destruct ram_fresh as (t & Hf & Hn & Hd). exists t. split; [|done].
  split; [done|apply ram_lists|done|done|done|].
  change (lg_bio (ram_log t)) with t. rewrite Hd. apply ram_hdr.
Qed.

Definition ones : block := replicate (Z.to_nat BSIZE) Byte.x01.

Lemma ones_ok (w : Z * block) : w ∈ [(50, ones)] ->
  ~ in_log 2 30 w.1 /\ 0 <= w.1 < 2 ^ 31 /\ length w.2 = Z.to_nat BSIZE.
Proof.
  intros ->%list_elem_of_singleton. cbn [fst snd]. unfold in_log. split; [lia|]. split; [lia|].
  apply length_replicate.
Qed.

(** A transaction with one block, before its commit. *)
Lemma ram_pinned : exists s : log disk, o_ok ram_obs (lg_bio s) /\ lists 1 2 30 s [50] /\
  log_idle 2 30 ram_obs (lg_bio s) /\ pinned ram_obs [50] (lg_bio s) /\
  hdr_ok (dk_get (the_disk (lg_bio s)) 2) [].
Proof.
  destruct ram_fresh as (t & Hf & Hn & Hd).
  destruct (tx_write_ok 3 0 1 2 30 ram_obs ltac:(lia) ltac:(lia) t [] [] (set_lg_outstanding 1 (ram_log t)) (50, ones))
    as (s & _ & [J1 J2 J3 J4 J5 J6 J7 J8 J9 J10]).
  - split; try reflexivity; [apply Hf|by destruct (ram_lists t)|apply Hf| |simpl; lia].
    intros b. exact (proj1 (cache_clean (rounds := 3) t b (fr_ok _ _ Hf) (fr_refs _ _ Hf b))).
  - apply (ones_ok (50, ones)). by left.
  - apply (ones_ok (50, ones)). by left.
  - apply (ones_ok (50, ones)). by left.
  - reflexivity.
  - reflexivity.
  - rewrite Hn. unfold NBUF. simpl. lia.
  - exists s. split; [exact J1|]. split; [exact J2|]. split; [|split].
    + split; [|rewrite Hn in J6; change (length (tx_add [] (50, ones))) with 1%nat in J6; unfold NBUF in J6; lia].
      intros b Hb. rewrite J4, decide_False; [done|]. intros ->%list_elem_of_singleton. unfold in_log in Hb. cbn [fst] in Hb. lia.
    + intros b Hb. rewrite J4, decide_True by exact Hb. split; [apply J5|lia].
    + rewrite J7, Hd. apply ram_hdr.
Qed.

Lemma transaction_atomic_witness : exists (s s' : log disk), transaction 3 [(50, ones)] s = Ok tt s' /\
  dk_get (the_disk (lg_bio s')) 50 = ones.
Proof.
  destruct ram_quiet as (t & Hq & Hn).
  destruct (transaction_atomic 3 0 1 2 30 ram_obs ltac:(lia) ltac:(lia) (ram_log t) [(50, ones)] Hq)
    as (s1 & s' & dws & _ & _ & _ & E & _ & _ & H & _).
  - reflexivity.
  - change (lg_bio (ram_log t)) with t. rewrite Hn. unfold NBUF. lia.
  - unfold MAXOPBLOCKS. simpl. lia.
  - exact ones_ok.
  - exists (ram_log t), s'. split; [exact E|]. destruct (H 50) as [_ ->]; [unfold in_log; lia|]. reflexivity.
Defined.

Lemma commit_crash_safe_witness : exists s s' : log disk, commit 3 s = Ok tt s'.
Proof.
  destruct ram_pinned as (s & H1 & H2 & H3 & H4 & H5). exists s.
  destruct (commit_crash_safe 3 0 1 2 30 ram_obs ltac:(lia) ltac:(lia) ram_sb s [50]) as (s' & ws & E & _);
    [by split|exact H1|exact H2|exact H3|exact H4|discriminate|exact H5|].
  exists s'. exact E.
Defined.

Lemma recovery_crash_safe_witness : exists s s' : log disk, initlog 3 1 ram_sb s = Ok tt s'.
Proof.
  destruct ram_fresh as (t & Hf & Hn & Hd). exists (ram_log t).
  destruct (recovery_crash_safe 3 0 1 2 30 ram_obs ltac:(lia) ltac:(lia) ram_sb (ram_log t) (dk_get empty_disk))
    as (s' & ws & E & _); [by split|exact Hf|reflexivity| |exists s'; exact E].
  exists []. change (lg_bio (ram_log t)) with t. rewrite Hd.
  split; [by apply tx_nil|]. split; [apply ram_hdr|]. intros b _. split; [reflexivity|discriminate].
Defined.

Lemma begin_op_correct_witness : exists s : log disk, begin_op 3 s = Ok tt (set_lg_outstanding 1 s).
Proof.
  exists (ram_log (Bio (Slk calm_sys ∅) [] empty_disk)).
  apply (begin_op_correct 3 0 (ram_log (Bio (Slk calm_sys ∅) [] empty_disk)) calm_sys_ok eq_refl);
    [reflexivity|]. simpl. unfold LOGSIZE, MAXOPBLOCKS. lia.
Defined.

Lemma log_admission_gap_witness : exists s : log disk,
  (begin_op 3 ;; begin_op 3 ;; begin_op 3) s = Ok tt (set_lg_outstanding 3 s).
Proof.
  exists (ram_log (Bio (Slk calm_sys ∅) [] empty_disk)).
  apply (log_admission_gap 3 0 (ram_log (Bio (Slk calm_sys ∅) [] empty_disk)) calm_sys_ok); reflexivity.
Defined.

Lemma log_write_correct_witness : exists (s s' : log disk) i, log_write i s = Panic "log_write outside of trans" s'.
Proof.
  destruct ram_fresh as (t & Hf & Hn & Hd).
  destruct (bread_spec (rounds := 3) (O := ram_obs) t 50) as (i & t' & _ & H1 & H2 & C & _).
  - apply Hf.
  - exact (proj1 (cache_clean (rounds := 3) t 50 (fr_ok _ _ Hf) (fr_refs _ _ Hf 50))).
  - rewrite (fr_refs _ _ Hf). lia.
  - lia.
  - intros _. rewrite Hn. unfold NBUF. lia.
  - destruct (log_write_correct 3 0 1 2 30 ram_obs ltac:(lia) ltac:(lia) (ram_log t') [] i 50) as (_ & _ & H);
      [exact H1|apply ram_lists|exact H2|reflexivity|unfold in_log; lia| |].
    + change (lg_bio (ram_log t')) with t'.
      rewrite (ch_refs _ _ _ _ _ _ _ C), decide_True, (fr_refs _ _ Hf) by reflexivity. lia.
    + destruct H as (s' & H); [simpl; lia|unfold LOGSIZE, MAXOPBLOCKS; simpl; lia|].
      exists (ram_log t'), s', i. exact H.
Defined.
