(* ===== verification/FsPath.v ===== *)
(** * Path names

    The elements of a path, against which [skipelem] of [fs.c] is shown correct,
    and the comparison of names in directory entries. *)

From S2P Require Import Prelude Riscv Memory CString Sys Spinlock Proc Sleeplock Uart Printf Bio Block Log Kernel Machine Fs.

(** ** The elements of a path *)

Fixpoint split_slash (path : list byte) : list (list byte) :=
  match path with
  | [] => [[]]
  | b :: path =>
      match split_slash path with
      | e :: es => if Byte.eqb b SLASH then [] :: e :: es else (b :: e) :: es
      | [] => [[b]]
      end
  end.

(** The maximal runs of characters other than the slash. *)
Definition elements (path : list byte) : list (list byte) := filter (fun e => e <> []) (split_slash path).

Lemma split_cons path : exists e es, split_slash path = e :: es.
Proof.
  induction path as [|b path (e & es & IH)]; simpl; [by exists [], []|]. rewrite IH.
  destruct (Byte.eqb b SLASH); eauto.
Qed.

Lemma elements_slash path : elements (SLASH :: path) = elements path.
Proof.
  unfold elements. simpl. destruct (split_cons path) as (e & es & ->).
  rewrite filter_cons_False; [done|]. intros H. by apply H.
Qed.

Lemma elements_skip path : elements (skip_slashes path) = elements path.
Proof.
  induction path as [|b path IH]; simpl; [done|]. destruct (byte_eqb_spec b SLASH) as [->|]; [|done].
  by rewrite IH, elements_slash.
Qed.

Lemma skip_slashes_le path : (length (skip_slashes path) <= length path)%nat.
Proof. induction path as [|b path IH]; simpl; [done|]. destruct (Byte.eqb b SLASH); simpl; lia. Qed.

Lemma skip_slashes_head path : match skip_slashes path with b :: _ => b <> SLASH | [] => True end.
Proof.
  induction path as [|b path IH]; simpl; [done|]. by destruct (byte_eqb_spec b SLASH).
Qed.

Lemma skip_slashes_no_nul path : Byte.x00 ∉ path -> Byte.x00 ∉ skip_slashes path.
Proof.
  induction path as [|b path IH]; simpl; intros H; [done|]. apply not_elem_of_cons in H as [Hb H].
  destruct (Byte.eqb b SLASH); [by apply IH|]. by apply not_elem_of_cons.
Qed.

Lemma take_elem_ok path s rest :
  take_elem path = (s, rest) ->
  path = s ++ rest /\ (SLASH ∉ s) /\ match rest with b :: _ => b = SLASH | [] => True end.
Proof.
  revert s rest. induction path as [|b path IH]; intros s rest; simpl.
  { intros [= <- <-]. split; [done|]. split; [apply not_elem_of_nil|done]. }
  destruct (byte_eqb_spec b SLASH) as [->|Hb].
  - intros [= <- <-]. split; [done|]. split; [apply not_elem_of_nil|done].
  - destruct (take_elem path) as [s' r]. intros [= <- <-]. destruct (IH _ _ eq_refl) as (-> & H1 & H2).
    split; [done|]. split; [|done]. apply not_elem_of_cons. by split.
Qed.

Lemma split_app s rest :
  SLASH ∉ s -> match rest with b :: _ => b = SLASH | [] => True end ->
  elements (s ++ rest) = (if decide (s <> []) then [s] else []) ++ elements rest.
Proof.
  intros Hs Hr. assert (E : split_slash (s ++ rest) = match rest with [] => [s] | _ => s :: tail (split_slash rest) end).
  { induction s as [|b s IH]; simpl.
    - destruct rest as [|b rest]; [done|]. subst b. simpl. by destruct (split_cons rest) as (e & es & ->).
    - apply not_elem_of_cons in Hs as [Hb Hs]. rewrite IH by done.
      destruct (byte_eqb_spec b SLASH); [congruence|]. by destruct rest. }
  unfold elements. rewrite E. destruct rest as [|b rest].
  { simpl. rewrite filter_cons, (filter_cons _ []), (decide_False (P := [] <> [])) by (intros H; by apply H).
    by destruct (decide (s <> [])). }
  subst b. simpl.
  destruct (split_cons rest) as (e & es & ->). simpl.
  rewrite (filter_cons _ s), (filter_cons _ []). rewrite (decide_False (P := [] <> [])) by (intros H; by apply H).
  by destruct (decide (s <> [])).
Qed.

(** ** Names *)

(** A name buffer of [DIRSIZ] bytes holds the first [DIRSIZ] characters of [e]. *)
Definition holds (name e : list byte) : Prop := length name = DIRSIZ /\ until_nul name = take DIRSIZ e.

Lemma name_put s name :
  length name = DIRSIZ -> Byte.x00 ∉ s ->
  holds (if (DIRSIZ <=? length s)%nat then take DIRSIZ s ++ drop DIRSIZ name
         else s ++ [Byte.x00] ++ drop (S (length s)) name) s.
Proof.
  intros Hn Hs. unfold holds. destruct (Nat.leb_spec DIRSIZ (length s)) as [Hl|Hl].
  - rewrite (drop_ge name) by lia. rewrite app_nil_r, length_take. split; [lia|].
    apply until_nul_idemp. intros H. apply Hs. by eapply subseteq_take.
  - rewrite !length_app, length_drop. simpl. split; [lia|]. rewrite until_nul_app_nul by done.
    by rewrite take_ge by lia.
Qed.

(** [namecmp] is zero for equal names. *)
Lemma two_arrays_fst s t : length s = DIRSIZ -> length t = DIRSIZ -> ld_bytes (two_arrays s t) 0 DIRSIZ = s.
Proof.
  intros Hs Ht. unfold two_arrays. rewrite ld_bytes_st_bytes_apart by (unfold apart; rewrite Ht; unfold DIRSIZ; lia).
  rewrite ld_bytes_st_bytes; [done|done].
Qed.

Lemma namecmp_zero s t :
  length s = DIRSIZ -> length t = DIRSIZ -> namecmp s t = 0 <-> until_nul s = until_nul t.
Proof.
  intros Hs Ht. unfold namecmp, strncmp. rewrite strncmp_loop_zero, Nat2Z.id, two_arrays_fst by done.
  unfold two_arrays. rewrite <- Ht. by rewrite ld_bytes_st_bytes.
Qed.

Fixpoint bytes_eqb (s t : list byte) : bool :=
  match s, t with
  | [], [] => true
  | b :: s, c :: t => Byte.eqb b c && bytes_eqb s t
  | _, _ => false
  end.

Lemma bytes_eqb_spec s t : reflect (s = t) (bytes_eqb s t).
Proof.
  revert t. induction s as [|b s IH]; intros [|c t]; simpl; try (by constructor).
  destruct (byte_eqb_spec b c) as [->|]; simpl; [|constructor; congruence].
  destruct (IH t); constructor; congruence.
Qed.

Lemma skipelem_ok path name :
  length name = DIRSIZ -> Byte.x00 ∉ path ->
  match skipelem path name with
  | Some (rest, name') =>
      exists e, elements path = e :: elements rest /\ holds name' e /\ (length rest < length path)%nat /\
        (Byte.x00 ∉ rest) /\ (rest = [] <-> elements rest = [])
  | None => elements path = []
  end.
Proof.
  intros Hn Hp. unfold skipelem. rewrite <- (elements_skip path). pose proof (skip_slashes_le path) as Hle.
  pose proof (skip_slashes_head path) as Hh. apply skip_slashes_no_nul in Hp.
  destruct (skip_slashes path) as [|b p]; [done|]. destruct (take_elem (b :: p)) as [s rest] eqn:E.
  apply take_elem_ok in E as (E & Hs & Hr).
  assert (Hs0 : s <> []) by (intros ->; simpl in E; subst rest; done).
  rewrite E in *. rewrite split_app, decide_True by done. exists s. rewrite elements_skip.
  split; [done|]. rewrite elem_of_app in Hp. split; [apply name_put; naive_solver|].
  pose proof (skip_slashes_le rest). rewrite length_app in Hle. destruct s as [|c s]; [done|]. simpl in Hle.
  split; [lia|]. split; [apply skip_slashes_no_nul; naive_solver|].
  pose proof (skip_slashes_head rest) as Hh'. rewrite <- (elements_skip rest).
  destruct (skip_slashes rest) as [|c' r]; [done|]. split; [done|]. unfold elements. simpl.
  destruct (split_cons r) as (e & es & ->). destruct (byte_eqb_spec c' SLASH); [done|].
  by rewrite filter_cons_True.
Qed.

(** C32: [skipelem] takes the first element off a path: the name buffer then holds
    its first [DIRSIZ] characters, nul-terminated when there is room, and the rest
    of the path, which is shorter and starts at the next element, has the other
    elements.  It returns 0 exactly when the path has no element. *)
Theorem skipelem_correct (path name : list byte) (Hn : length name = DIRSIZ) (Hp : Byte.x00 ∉ path) :
  match skipelem path name with
  | Some (rest, name') =>
      exists e, elements path = e :: elements rest /\ holds name' e /\ (length rest < length path)%nat /\
        (Byte.x00 ∉ rest) /\ (rest = [] <-> elements rest = [])
  | None => elements path = []
  end.
Proof. by apply skipelem_ok. Qed.

Lemma skipelem_correct_witness :
  exists rest name', skipelem (bytes_of "///a/bb//c") (replicate DIRSIZ Byte.x00) = Some (rest, name') /\
    elements rest = [bytes_of "bb"; bytes_of "c"].
Proof.
  pose proof (skipelem_correct (bytes_of "///a/bb//c") (replicate DIRSIZ Byte.x00) eq_refl
    ltac:(intros H%list_elem_of_In; vm_compute in H; intuition discriminate)) as H.
  destruct (skipelem _ _) as [[rest name']|] eqn:E; [|vm_compute in E; discriminate].
  exists rest, name'. split; [done|]. vm_compute in E. injection E as <- <-. vm_compute. reflexivity.
Defined.
