(* ===== verification/FsTx.v ===== *)
(** * The file system's use of the log

    [fs.c] changes the disk only by [bread], stores into the buffer,
    [log_write] and [brelse], within an operation of the log.  [txs V hs dt T c]
    describes the kernel at such a point: [V] is the contents of every block as
    the operation sees it, [hs] the buffers it holds, [dt] a block that was
    changed and not yet logged, [T] blocks it may have logged and [c] how many
    more it may log.  The class [TxOk] has the rules of the four steps, which the
    file system's theorems use; the log and the buffer cache discharge them. *)

From S2P Require Import Prelude Riscv Memory CString Sys Spinlock Proc Sleeplock Bio Block Bcache BufCache Log Kernel Machine Fs File LogDisk LogOk LogCrash LogTx.

(** A kernel that differs in the log, the cache and the processes only. *)
Definition same_rest {D} (k k' : kernel D) : Prop := k' = set_k_log (k_log k') k.

#[export] Instance same_rest_preorder {D} : PreOrder (@same_rest D).
Proof.
  split.
  - by intros [].
  - intros k1 k2 k3 H12 H23. unfold same_rest in *. rewrite H23, H12. by destruct k1.
Qed.

(** Moreover, sleeping processes at most were woken, and the locks of the inodes
    are as they were. *)
Definition only_log {D} (k k' : kernel D) : Prop := same_rest k k' /\ undisturbed (k_slk k) (k_slk k').

#[export] Instance only_log_preorder {D} : PreOrder (@only_log D).
Proof.
  split.
  - intros k. by split.
  - intros k1 k2 k3 [H1 H2] [H3 H4]. split; by etrans.
Qed.

Lemma only_log_set {D} (k : kernel D) l : undisturbed (k_slk k) (bi_slk (lg_bio l)) -> only_log k (set_k_log l k).
Proof. intros H. by split. Qed.

Lemma only_log_sb {D} (k k' : kernel D) : only_log k k' -> k_sb k' = k_sb k.
Proof. by intros [-> _]. Qed.

Lemma only_log_itable {D} (k k' : kernel D) : only_log k k' -> k_itable k' = k_itable k.
Proof. by intros [-> _]. Qed.

Lemma only_log_mem {D} (k k' : kernel D) : only_log k k' -> k_mem k' = k_mem k.
Proof. by intros [-> _]. Qed.

(** The contents of block [b] are now [x]. *)
Definition upd_view (b : Z) (x : block) (V : Z -> block) : Z -> block :=
  fun b' => if decide (b' = b) then x else V b'.

Lemma upd_view_eq b x V : upd_view b x V b = x.
Proof. unfold upd_view. by rewrite decide_True. Qed.

Lemma upd_view_ne b x V b' : b' <> b -> upd_view b x V b' = V b'.
Proof. intros H. unfold upd_view. by rewrite decide_False. Qed.

Lemma upd_view_upd b x y V b' : upd_view b x (upd_view b y V) b' = upd_view b x V b'.
Proof. unfold upd_view. by case_decide. Qed.

(** ** The interface *)

Definition tx_state (D : Type) : Type :=
  (Z -> block) -> list (nat * Z) -> option Z -> list Z -> nat -> kernel D -> Prop.

(** What [fs.c] relies on, for process [me] and the blocks [home] it may change on
    device [dev]. *)
Class TxOk {D : Type} `{!DiskDriver D} {mach : Machine} (me : nat) (dev : Z) (home : Z -> Prop) (txs : tx_state D) : Prop := {
  txr_home : forall b, home b -> 0 <= b < 2 ^ 31;
  txr_ext : forall V V' hs dt T c k, txs V hs dt T c k -> (forall b, V' b = V b) -> txs V' hs dt T c k;
  txr_grow : forall V hs dt T c k b, txs V hs dt T (S c) k -> txs V hs dt (b :: T) c k;
  txr_weaken : forall V hs dt T c c' k, txs V hs dt T c k -> (c' <= c)%nat -> txs V hs dt T c' k;
  txr_len : forall V hs dt T c k b, txs V hs dt T c k -> length (V b) = Z.to_nat BSIZE;
  txr_calm : forall V hs dt T c k, txs V hs dt T c k -> calm me (k_sys k);
  txr_log : forall V hs dt T c k k', k_log k' = k_log k -> txs V hs dt T c k -> txs V hs dt T c k';
  txr_slk : forall V hs dt T c k x, txs V hs dt T c k -> calm me (sk_sys x) ->
    p_pid (proc_of (sk_sys x) me) = p_pid (proc_of (k_sys k) me) ->
    (forall i, slk_of x (SBuf i) = slk_of (k_slk k) (SBuf i)) -> txs V hs dt T c (set_k_slk x k);
  txr_bread : forall V hs T c k b, txs V hs None T c k -> b ∉ hs.*2 -> 0 <= b < 2 ^ 31 -> (length hs < 3)%nat ->
    exists i k', fs_bread dev b k = Ok i k' /\ txs V ((i, b) :: hs) None T c k' /\ only_log k k';
  txr_data : forall V hs dt T c k i b, txs V hs dt T c k -> (i, b) ∈ hs -> get_data i k = Ok (V b) k;
  txr_upd : forall V hs dt T c k i b f, txs V hs dt T c k -> dt = None \/ dt = Some b -> (i, b) ∈ hs ->
    length (f (V b)) = Z.to_nat BSIZE ->
    exists k', upd_data i f k = Ok tt k' /\ txs (upd_view b (f (V b)) V) hs (Some b) T c k' /\ only_log k k';
  txr_log_write : forall V hs dt T c k i b, txs V hs dt T c k -> dt = None \/ dt = Some b -> (i, b) ∈ hs ->
    home b -> b ∈ T ->
    exists k', fs_log_write i k = Ok tt k' /\ txs V hs None T c k' /\ only_log k k';
  txr_brelse : forall V hs T c k i b, txs V ((i, b) :: hs) None T c k ->
    exists k', fs_brelse i k = Ok tt k' /\ txs V hs None T c k' /\ only_log k k'
}.

Lemma held_once (hs : list (nat * Z)) b i j :
  NoDup hs.*2 -> (i, b) ∈ hs -> (j, b) ∈ hs -> i = j.
Proof.
  induction hs as [|[n x] hs IH]; simpl; intros Hnd Hi Hj; [by apply not_elem_of_nil in Hi|].
  apply NoDup_cons in Hnd as [Hx Hnd].
  assert (Hno : forall m, (m, x) ∉ hs) by (intros m Hm; apply Hx, list_elem_of_fmap; by exists (m, x)).
  apply elem_of_cons in Hi as [[= -> ->]|Hi]; apply elem_of_cons in Hj as [[= <-]|Hj]; subst; auto;
    exfalso; eapply Hno; eassumption.
Qed.

Section FsTx.
Context {D : Type} `{!DiskDriver D} {mach : Machine} (me : nat) (dev start size : Z).
Context (O : observations D) `{!CacheOk wake_bound me dev O}.
Context (cap : nat) (d0 : disk).
Hypothesis Hdev : 0 < dev < 2 ^ 31.
Hypothesis Hlog : 0 <= start /\ 0 < size /\ start + size < 2 ^ 31.
Hypothesis Hcap : Z.of_nat cap < LOGSIZE /\ Z.of_nat cap < size - 1.
Implicit Types (V : Z -> block) (hs : list (nat * Z)) (bl T : list Z) (s : log D) (k : kernel D).

Local Abbreviation in_log := (in_log start size).
Local Abbreviation lists := (lists dev start size).

(** A block the file system may change. *)
Definition home (b : Z) : Prop := ~ in_log b /\ 0 <= b < 2 ^ 31.

Definition extra bl hs : nat := length (filter (fun b => b ∉ bl) hs.*2).

Record core V hs (dt : option Z) bl s : Prop := {
  co_ok : o_ok O (lg_bio s);
  co_lists : lists s bl;
  co_view : forall b, o_view O (lg_bio s) b = V b;
  co_refs : forall b, o_refs O (lg_bio s) b =
    (if decide (b ∈ bl) then 1 else 0) + (if decide (b ∈ hs.*2) then 1 else 0);
  co_held : forall b, o_held O (lg_bio s) b = bool_decide (b ∈ hs.*2);
  co_handle : forall i b, (i, b) ∈ hs -> o_handle O (lg_bio s) i b;
  co_nodup : NoDup hs.*2;
  co_free : (cap + 3 <= o_free O (lg_bio s) + length bl + extra bl hs)%nat;
  co_clean : forall b, b ∉ bl -> dt <> Some b -> V b = dk_get d0 b;
  co_disk : the_disk (lg_bio s) = d0;
  co_size : lg_size s = size;
  co_out : lg_outstanding s = 1;
  co_com : lg_committing s = false
}.

Definition txs V hs dt T (c : nat) k : Prop :=
  exists bl, core V hs dt bl (k_log k) /\ bl ⊆ T /\ (length T + c <= cap)%nat.

(** ** Changes of the parameters *)

Lemma txs_ext V V' hs dt T c k : txs V hs dt T c k -> (forall b, V' b = V b) -> txs V' hs dt T c k.
Proof.
  intros (bl & [] & Hr) E. exists bl. split; [|exact Hr]. split; try done; intros b; rewrite E; auto.
Qed.

(** Room for one more block. *)
Lemma txs_grow V hs dt T c k b : txs V hs dt T (S c) k -> txs V hs dt (b :: T) c k.
Proof.
  intros (bl & Hx & Hs & Hl). exists bl. split; [exact Hx|]. split; [|simpl; lia]. intros y Hy. right. by apply Hs.
Qed.

Lemma txs_weaken V hs dt T c c' k : txs V hs dt T c k -> (c' <= c)%nat -> txs V hs dt T c' k.
Proof. intros (bl & Hx & Hs & Hl) Hc. exists bl. split; [exact Hx|]. split; [exact Hs|]. lia. Qed.

Lemma txs_len V hs dt T c k b : txs V hs dt T c k -> length (V b) = Z.to_nat BSIZE.
Proof. intros (bl & Hx & _). rewrite <- (co_view _ _ _ _ _ Hx). apply cache_len, Hx. Qed.

Lemma txs_calm V hs dt T c k : txs V hs dt T c k -> calm me (k_sys k).
Proof. intros (bl & Hx & _). apply (cache_calm (rounds := wake_bound)), Hx. Qed.

(** Changes that leave the log and the cache alone. *)
Lemma txs_log V hs dt T c k k' : k_log k' = k_log k -> txs V hs dt T c k -> txs V hs dt T c k'.
Proof. unfold txs. by intros ->. Qed.

(** Changes of the processes and of other locks than those of buffers. *)
Lemma txs_slk V hs dt T c k x :
  txs V hs dt T c k -> calm me (sk_sys x) -> p_pid (proc_of (sk_sys x) me) = p_pid (proc_of (k_sys k) me) ->
  (forall i, slk_of x (SBuf i) = slk_of (k_slk k) (SBuf i)) -> txs V hs dt T c (set_k_slk x k).
Proof.
  intros (bl & [] & Hr) Hc Hp Hx. exists bl. split; [|exact Hr].
  destruct (cache_slk _ x co_ok0 Hc Hp Hx) as [Hok [S1 S2 S3 S4 S5 S6]].
  split; try assumption; simpl.
  - by apply lists_bio.
  - intros b. by rewrite S1.
  - intros b. by rewrite S2.
  - intros b. by rewrite S3.
  - intros i b Hb. by apply S5, co_handle0.
  - by rewrite S4.
Qed.

Lemma lists_nodup s bl : lists s bl -> NoDup bl.
Proof. intros Hx. apply Hx. Qed.

Lemma extra_cons bl i b hs : extra bl ((i, b) :: hs) = ((if decide (b ∈ bl) then 0 else 1) + extra bl hs)%nat.
Proof.
  unfold extra. simpl. rewrite filter_cons. destruct (decide (b ∈ bl)) as [Hx|Hx].
  - by rewrite decide_False by (intros Hx'; by apply Hx').
  - by rewrite decide_True.
Qed.

Lemma extra_add bl b hs : b ∉ hs.*2 -> extra (bl ++ [b]) hs = extra bl hs.
Proof.
  induction hs as [|[i x] hs IH]; intros Hb; [done|]. simpl in Hb. apply not_elem_of_cons in Hb as [Hbx Hb].
  rewrite !extra_cons, IH by done. rewrite (decide_ext (x ∈ bl ++ [b]) (x ∈ bl)); [done|].
  rewrite elem_of_app, list_elem_of_singleton. intuition congruence.
Qed.

Lemma extra_log bl b hs :
  b ∉ bl -> NoDup hs.*2 -> b ∈ hs.*2 -> (extra (bl ++ [b]) hs + 1 = extra bl hs)%nat.
Proof.
  intros Hb. induction hs as [|[i x] hs IH]; intros Hnd Hin; [by apply not_elem_of_nil in Hin|].
  simpl in *. apply NoDup_cons in Hnd as [Hxh Hnd]. rewrite !extra_cons.
  destruct (decide (x = b)) as [->|Hne].
  - rewrite (decide_True (P := b ∈ bl ++ [b])) by (apply elem_of_app; right; by left). rewrite decide_False by done.
    rewrite extra_add by done. lia.
  - apply elem_of_cons in Hin as [?|Hin]; [congruence|]. specialize (IH Hnd Hin).
    rewrite (decide_ext (x ∈ bl ++ [b]) (x ∈ bl)); [lia|].
    rewrite elem_of_app, list_elem_of_singleton. intuition congruence.
Qed.

(** ** The steps *)

Lemma bl_len bl T V hs dt s : core V hs dt bl s -> bl ⊆ T -> (length bl <= length T)%nat.
Proof.
  intros Hc Hs. apply submseteq_length, NoDup_submseteq; [apply (lists_nodup s), Hc|exact Hs].
Qed.

Lemma extra_le bl hs : (extra bl hs <= length hs)%nat.
Proof. unfold extra. rewrite length_filter, length_fmap. done. Qed.

Lemma run_kbio {A} (c : M (bio D) A) k a t :
  c (lg_bio (k_log k)) = Ok a t -> zoom k_bioL c k = Ok a (set_k_log (set_lg_bio t (k_log k)) k).
Proof. apply (zoom_Ok k_bioL). Qed.

Lemma fs_bread_ok V hs T c k b :
  txs V hs None T c k -> b ∉ hs.*2 -> 0 <= b < 2 ^ 31 -> (length hs < 3)%nat ->
  exists i k', fs_bread dev b k = Ok i k' /\ txs V ((i, b) :: hs) None T c k' /\ only_log k k'.
Proof.
  intros (bl & Hc & Hsub & Hlen) Hb Hr Hhs. pose proof (bl_len _ _ _ _ _ _ Hc Hsub) as Hbl.
  pose proof (extra_le bl hs) as Hex. destruct Hc as [C1 C2 C3 C4 C5 C6 C7 C8 C9 C10 C11 C12 C13].
  set (t := lg_bio (k_log k)) in *. pose proof (C4 b) as Rb. rewrite (decide_False (P := b ∈ hs.*2)) in Rb by done.
  destruct (bread_spec t b) as (i & t1 & E1 & O1 & K1 & Ch & D1 & F1); [done| | |lia|lia|].
  { by rewrite C5, bool_decide_eq_false_2. }
  { rewrite Rb. case_decide; lia. }
  exists i, (set_k_log (set_lg_bio t1 (k_log k)) k).
  split; [|split; [|apply only_log_set, Ch]].
  { unfold fs_bread. rewrite !u32_small by lia. by apply run_kbio. }
  exists bl. split; [|done].
  split; simpl; try done.
  - by apply lists_bio.
  - intros x. rewrite (ch_view _ _ _ _ _ _ _ Ch). destruct (decide (x = b)) as [->|]; apply C3.
  - intros x. rewrite (ch_refs _ _ _ _ _ _ _ Ch). destruct (decide (x = b)) as [->|Hne].
    + rewrite (decide_True (P := b ∈ b :: _)) by (by left). lia.
    + rewrite C4. f_equal. apply decide_ext. change (x ∈ hs.*2 <-> x ∈ b :: hs.*2).
      rewrite elem_of_cons. intuition congruence.
  - intros x. rewrite (ch_held _ _ _ _ _ _ _ Ch). destruct (decide (x = b)) as [->|Hne].
    + rewrite bool_decide_eq_true_2; [done|]. by left.
    + rewrite C5. apply bool_decide_ext. rewrite elem_of_cons. intuition congruence.
  - intros j x [[= -> ->]|Hin]%elem_of_cons; [done|]. apply (ch_handle _ _ _ _ _ _ _ Ch).
    + intros ->. apply Hb. apply list_elem_of_fmap. by exists (j, b).
    + by apply C6.
  - apply NoDup_cons. done.
  - rewrite extra_cons. rewrite Rb in F1. destruct (decide (b ∈ bl)); [rewrite decide_False in F1 by lia|
      rewrite decide_True in F1 by lia]; lia.
  - congruence.
Qed.

Lemma get_data_ok V hs dt T c k i b :
  txs V hs dt T c k -> (i, b) ∈ hs -> get_data i k = Ok (V b) k.
Proof.
  intros (bl & Hc & _) Hin. destruct (handle_buf (lg_bio (k_log k)) i b) as [Hd _];
    [apply Hc|by apply (co_handle _ _ _ _ _ Hc)|].
  unfold get_data, get_buf. rewrite (bind_Ok _ _ _ (buf_of (lg_bio (k_log k)) i) k).
  - unfold ret. by rewrite Hd, (co_view _ _ _ _ _ Hc).
  - unfold zoom, gets. simpl. f_equal. by destruct k as [[]].
Qed.

Lemma upd_data_ok V hs dt T c k i b f :
  txs V hs dt T c k -> dt = None \/ dt = Some b -> (i, b) ∈ hs -> length (f (V b)) = Z.to_nat BSIZE ->
  exists k', upd_data i f k = Ok tt k' /\ txs (upd_view b (f (V b)) V) hs (Some b) T c k' /\ only_log k k'.
Proof.
  intros (bl & Hc & Hsub & Hlen) Hdt Hin Hf. destruct Hc as [C1 C2 C3 C4 C5 C6 C7 C8 C9 C10 C11 C12 C13].
  set (t := lg_bio (k_log k)) in *. assert (Hb : b ∈ hs.*2) by (apply list_elem_of_fmap; by exists (i, b)).
  rewrite <- C3 in Hf. destruct (store_ok wake_bound me dev O t i b f C1 (C6 _ _ Hin) Hf) as (t1 & E1 & O1 & K1 & Ch & D1 & F1).
  exists (set_k_log (set_lg_bio t1 (k_log k)) k). split; [|split; [|apply only_log_set, Ch]].
  { by apply run_kbio. }
  exists bl. split; [|done]. split; simpl; try done.
  - by apply lists_bio.
  - intros x. rewrite (ch_view _ _ _ _ _ _ _ Ch). unfold upd_view. by rewrite !C3.
  - intros x. rewrite (ch_refs _ _ _ _ _ _ _ Ch). destruct (decide (x = b)) as [->|]; apply C4.
  - intros x. rewrite (ch_held _ _ _ _ _ _ _ Ch). destruct (decide (x = b)) as [->|]; [|apply C5].
    by rewrite bool_decide_eq_true_2.
  - intros j x Hj. destruct (decide (x = b)) as [->|Hne]; [|apply (ch_handle _ _ _ _ _ _ _ Ch); auto].
    replace j with i; [done|]. by apply (held_once hs b).
  - by rewrite F1.
  - intros x Hx Hxb. rewrite upd_view_ne by congruence. apply C9; [done|]. intros ->. by destruct Hdt.
  - by rewrite D1.
Qed.

(** What [log_write] leaves of the book-keeping. *)
Lemma core_logged V hs dt bl s s' i b :
  core V hs dt bl s -> dt = None \/ dt = Some b -> (i, b) ∈ hs ->
  lists s' (if decide (b ∈ bl) then bl else bl ++ [b]) -> same_ops s s' -> o_ok O (lg_bio s') ->
  o_handle O (lg_bio s') i b ->
  changed O b (o_view O (lg_bio s) b) (o_refs O (lg_bio s) b + if decide (b ∈ bl) then 0 else 1) true
    (lg_bio s) (lg_bio s') ->
  the_disk (lg_bio s') = the_disk (lg_bio s) -> o_free O (lg_bio s') = o_free O (lg_bio s) ->
  core V hs None (if decide (b ∈ bl) then bl else bl ++ [b]) s'.
Proof.
  intros [C1 C2 C3 C4 C5 C6 C7 C8 C9 C10 C11 C12 C13] Hdt Hin L (S1 & S2 & S3) O1 K1 Ch D1 F1.
  assert (Hb : b ∈ hs.*2) by (apply list_elem_of_fmap; by exists (i, b)).
  assert (Hmem : forall x, x ∈ (if decide (b ∈ bl) then bl else bl ++ [b]) <-> x ∈ bl \/ x = b).
  { intros x. case_decide; [|by rewrite elem_of_app, list_elem_of_singleton]. intuition congruence. }
  split; try done.
  - intros x. rewrite (ch_view _ _ _ _ _ _ _ Ch). destruct (decide (x = b)) as [->|]; apply C3.
  - intros x. rewrite (ch_refs _ _ _ _ _ _ _ Ch), (decide_ext _ _ _ _ (Hmem x)).
    destruct (decide (x = b)) as [->|Hne].
    + rewrite C4, (decide_True (P := b ∈ bl \/ b = b)) by tauto. destruct (decide (b ∈ bl)); lia.
    + rewrite C4, (decide_ext (x ∈ bl \/ x = b) (x ∈ bl)) by tauto. done.
  - intros x. rewrite (ch_held _ _ _ _ _ _ _ Ch). destruct (decide (x = b)) as [->|]; [|apply C5].
    by rewrite bool_decide_eq_true_2.
  - intros j x Hj. destruct (decide (x = b)) as [->|Hne]; [|apply (ch_handle _ _ _ _ _ _ _ Ch); auto].
    replace j with i; [done|]. by apply (held_once hs b).
  - destruct (decide (b ∈ bl)) as [|Hnb]; [by rewrite F1|]. pose proof (extra_log bl b hs Hnb C7 Hb) as He.
    rewrite length_app, F1. simpl. lia.
  - intros x Hx _. rewrite Hmem in Hx. apply C9; [tauto|]. intros ->. destruct Hdt; [done|]. simplify_eq. tauto.
  - congruence.
  - congruence.
  - congruence.
  - congruence.
Qed.

Lemma fs_log_write_ok V hs dt T c k i b :
  txs V hs dt T c k -> dt = None \/ dt = Some b -> (i, b) ∈ hs -> home b -> b ∈ T ->
  exists k', fs_log_write i k = Ok tt k' /\ txs V hs None T c k' /\ only_log k k'.
Proof.
  intros (bl & Hc & Hsub & Hlen) Hdt Hin [Hb1 Hb2] HT. pose proof (bl_len _ _ _ _ _ _ Hc Hsub) as Hbl.
  pose proof (co_refs _ _ _ _ _ Hc b) as Rb.
  destruct (log_write_ok wake_bound me dev start size O (k_log k) bl i b)
    as (s' & E & L & S' & O' & K & Ch & D' & F'); try done; try apply Hc; try done; try lia.
  { rewrite (co_out _ _ _ _ _ Hc). lia. }
  { rewrite Rb. repeat case_decide; lia. }
  exists (set_k_log s' k). split; [by apply (zoom_Ok k_logL)|]. split; [|apply only_log_set, Ch].
  exists (if decide (b ∈ bl) then bl else bl ++ [b]). split; [|split; [|done]].
  - by eapply core_logged.
  - case_decide; [done|]. intros x [Hx| ->%list_elem_of_singleton]%elem_of_app; [by apply Hsub|done].
Qed.

Lemma fs_brelse_ok V hs T c k i b :
  txs V ((i, b) :: hs) None T c k ->
  exists k', fs_brelse i k = Ok tt k' /\ txs V hs None T c k' /\ only_log k k'.
Proof.
  intros (bl & Hc & Hr). destruct Hc as [C1 C2 C3 C4 C5 C6 C7 C8 C9 C10 C11 C12 C13].
  set (t := lg_bio (k_log k)) in *. pose proof (C4 b) as Rb. rewrite extra_cons in C8. simpl in C7.
  apply NoDup_cons in C7 as [Hb C7]. rewrite (decide_True (P := b ∈ ((i, b) :: hs).*2)) in Rb by (by left).
  destruct (brelse_spec t i b) as (t1 & E1 & O1 & Ch & D1 & F1); [done|apply C6; by left| |].
  { intros Hone. rewrite Rb in Hone. rewrite C3, C10. apply C9; [|done]. intros Hin. rewrite decide_True in Hone by done. lia. }
  exists (set_k_log (set_lg_bio t1 (k_log k)) k). split; [by apply run_kbio|]. split; [|apply only_log_set, Ch].
  exists bl. split; [|done].
  assert (Hmem : forall x, x <> b -> x ∈ ((i, b) :: hs).*2 <-> x ∈ hs.*2).
  { intros x Hx. change (x ∈ b :: hs.*2 <-> x ∈ hs.*2). rewrite elem_of_cons. tauto. }
  split; try done.
  - by apply lists_bio.
  - intros x. simpl. rewrite (ch_view _ _ _ _ _ _ _ Ch). destruct (decide (x = b)) as [->|]; apply C3.
  - intros x. cbn [lg_bio set_lg_bio k_log set_k_log]. rewrite (ch_refs _ _ _ _ _ _ _ Ch). destruct (decide (x = b)) as [->|Hne].
    + rewrite Rb, (decide_False (P := b ∈ hs.*2)) by done. lia.
    + rewrite C4, (decide_ext _ _ _ _ (Hmem x Hne)). done.
  - intros x. simpl. rewrite (ch_held _ _ _ _ _ _ _ Ch). destruct (decide (x = b)) as [->|Hne].
    + by rewrite bool_decide_eq_false_2.
    + rewrite C5. apply bool_decide_ext, Hmem, Hne.
  - intros j x Hj. apply (ch_handle _ _ _ _ _ _ _ Ch); [|apply C6; by right].
    intros ->. apply Hb, list_elem_of_fmap. by exists (j, b).
  - simpl. rewrite Rb in F1. destruct (decide (b ∈ bl)); [rewrite decide_False in F1 by lia|
      rewrite decide_True in F1 by lia]; lia.
  - simpl. congruence.
Qed.

#[export] Instance log_tx : TxOk me dev home txs.
Proof.
  split.
  - by intros b [].
  - exact txs_ext.
  - exact txs_grow.
  - exact txs_weaken.
  - exact txs_len.
  - exact txs_calm.
  - exact txs_log.
  - exact txs_slk.
  - exact fs_bread_ok.
  - exact get_data_ok.
  - exact upd_data_ok.
  - exact fs_log_write_ok.
  - exact fs_brelse_ok.
Qed.

(** ** Whole operations *)

Lemma fs_begin_ok k :
  quiet dev start size O (k_log k) -> the_disk (lg_bio (k_log k)) = d0 ->
  (cap + 3 <= o_free O (lg_bio (k_log k)))%nat ->
  exists k', begin_op_k k = Ok tt k' /\ txs (dk_get d0) [] None [] cap k' /\ only_log k k'.
Proof.
  intros [[Q1 Q2 Q3] Q4 Q5 Q6 Q7 Q8] Hd Hf. set (s := k_log k) in *.
  assert (Hcl : forall b, o_held O (lg_bio s) b = false /\ o_view O (lg_bio s) b = dk_get d0 b).
  { intros b. rewrite <- Hd. by apply cache_clean. }
  exists (set_k_log (set_lg_outstanding 1 s) k). split; [|split; [|by apply only_log_set]].
  - unfold begin_op_k. apply (zoom_Ok k_logL). change (lget k_logL k) with s.
    rewrite (begin_op_ok wake_bound me); [by rewrite Q6|by apply cache_calm|done|].
    rewrite (li_n _ _ _ _ _ Q4), Q6. done.
  - exists []. split; [|split; [done|simpl; lia]]. split; try done.
    + by destruct Q4.
    + intros b. apply Hcl.
    + intros b. rewrite bool_decide_eq_false_2 by apply not_elem_of_nil. apply Hcl.
    + intros i b Hin. by apply not_elem_of_nil in Hin.
    + apply NoDup_nil_2.
    + unfold extra. simpl. lia.
Qed.

Lemma fs_end_ok V T c k :
  txs V [] None T c k -> hdr_ok (dk_get d0 start) [] ->
  exists k' dws, end_op_k k = Ok tt k' /\ quiet dev start size O (k_log k') /\ same_rest k k' /\
    the_disk (lg_bio (k_log k')) = dk_puts dws d0 /\
    (forall b, ~ in_log b -> dk_get (the_disk (lg_bio (k_log k'))) b = V b) /\
    (forall p, p `prefix_of` dws -> represents start size (after p (dk_get d0)) (dk_get d0) \/
       represents start size (after p (dk_get d0)) V).
Proof.
  intros (bl & Hc & Hsub & Hlen) Hh. pose proof (bl_len _ _ _ _ _ _ Hc Hsub) as Hbl.
  destruct Hc as [C1 C2 C3 C4 C5 C6 C7 C8 C9 C10 C11 C12 C13]. unfold extra in C8. simpl in C8.
  destruct (end_op_atomic wake_bound me dev start size O Hdev Hlog (k_log k) bl)
    as (s' & dws & E & Hq & _ & Hd & Hhome & Hcrash); try done; rewrite ?C10; try done.
  - intros b. rewrite C4, (decide_False (P := b ∈ [].*2)) by apply not_elem_of_nil. lia.
  - lia.
  - lia.
  - exists (set_k_log s' k), dws. split; [by apply (zoom_Ok k_logL)|]. split; [exact Hq|].
    split; [done|]. rewrite C10 in Hd, Hcrash. split; [exact Hd|]. split.
    + intros b Hb. change (k_log (set_k_log s' k)) with s'. rewrite <- C3. by apply Hhome.
    + intros p Hp. destruct (Hcrash p Hp) as [Hx|Hx]; [by left|right].
      by apply (represents_ext start size (after p (dk_get d0)) _ (o_view O (lg_bio (k_log k)))).
Qed.

End FsTx.
