(* ===== verification/FsBlocks.v ===== *)
(** * The allocation of disk blocks

    [balloc], [bfree] and [bzero] of [fs.c] over the bitmap: within an operation
    of the log, [balloc] finds the first free block, marks it and clears it,
    and [bfree] returns a block; nothing else changes. *)

From S2P Require Import Prelude Riscv Memory CString Sys Spinlock Proc Sleeplock Bio Block Bcache BufCache Log Kernel Machine Fs File LogDisk LogOk LogCrash LogTx FsTx.

(** ** Bits *)

Lemma bit_of_alter (g : Z -> Z) (x : block) bi bj :
  0 <= bi -> 0 <= bj < 8 * Z.of_nat (length x) ->
  bit_set (alter (fun b => byte.of_Z (g (byte.unsigned b))) (Z.to_nat (bi / 8)) x) bj =
  if decide (bi / 8 = bj / 8) then Z.testbit (g (byte.unsigned (x !!! Z.to_nat (bj / 8)))) (bj mod 8)
  else bit_set x bj.
Proof.
  intros Hi Hj. unfold bit_set. assert (Hm : 0 <= bj mod 8 < 8) by dlia. rewrite !has_testbit by lia.
  destruct (lookup_lt_is_Some_2 x (Z.to_nat (bj / 8))) as [b Hb]; [dlia|].
  rewrite (list_lookup_total_correct x _ b Hb). rewrite list_lookup_total_alt, list_lookup_alter.
  assert (0 <= bi / 8 /\ 0 <= bj / 8) by dlia. destruct (decide (bi / 8 = bj / 8)) as [E|E].
  - rewrite decide_True by lia. rewrite ?E, Hb. simpl.
    rewrite byte.unsigned_of_Z. unfold byte.wrap. rewrite Z.mod_pow2_bits_low by lia. done.
  - rewrite decide_False, Hb by lia. done.
Qed.

Lemma same_bit bi bj :
  0 <= bi -> 0 <= bj -> bi / 8 = bj / 8 -> (bi mod 8 =? bj mod 8) = bool_decide (bj = bi).
Proof.
  intros. destruct (Z.eqb_spec (bi mod 8) (bj mod 8)) as [E|E]; symmetry.
  - apply bool_decide_eq_true_2. dlia.
  - apply bool_decide_eq_false_2. by intros ->.
Qed.

Lemma bit_set_set (x : block) bi bj :
  0 <= bi -> 0 <= bj < 8 * Z.of_nat (length x) ->
  bit_set (set_bit bi x) bj = bool_decide (bj = bi) || bit_set x bj.
Proof.
  intros Hi Hj. unfold set_bit. rewrite (bit_of_alter (fun v => Z.lor v (Z.shiftl 1 (bi mod 8)))) by done.
  assert (0 <= bi mod 8 < 8 /\ 0 <= bj mod 8 < 8) by dlia. destruct (decide (bi / 8 = bj / 8)) as [E|E].
  - rewrite Z.lor_spec, Z.shiftl_1_l, Z.pow2_bits_eqb, orb_comm by lia. f_equal.
    + apply same_bit; lia.
    + unfold bit_set. by rewrite has_testbit by lia.
  - rewrite bool_decide_eq_false_2; [done|]. intros ->. done.
Qed.

Lemma bit_set_clear (x : block) bi bj :
  0 <= bi -> 0 <= bj < 8 * Z.of_nat (length x) ->
  bit_set (clear_bit bi x) bj = negb (bool_decide (bj = bi)) && bit_set x bj.
Proof.
  intros Hi Hj. unfold clear_bit.
  rewrite (bit_of_alter (fun v => Z.land v (Z.lnot (Z.shiftl 1 (bi mod 8))))) by done.
  assert (0 <= bi mod 8 < 8 /\ 0 <= bj mod 8 < 8) by dlia. destruct (decide (bi / 8 = bj / 8)) as [E|E].
  - rewrite Z.land_spec, Z.lnot_spec, Z.shiftl_1_l, Z.pow2_bits_eqb, andb_comm by lia. f_equal.
    + f_equal. apply same_bit; lia.
    + unfold bit_set. by rewrite has_testbit by lia.
  - rewrite bool_decide_eq_false_2; [done|]. intros ->. done.
Qed.

Lemma length_set_bit bi x : length (set_bit bi x) = length x.
Proof. apply length_alter. Qed.

Lemma length_clear_bit bi x : length (clear_bit bi x) = length x.
Proof. apply length_alter. Qed.

(** The inner loop of [balloc] finds the first free bit. *)
Lemma balloc_scan_ok x b size bi n :
  match balloc_scan x b size bi n with
  | Some j => bi <= j < bi + Z.of_nat n /\ b + j < size /\ bit_set x j = false /\
      forall i, bi <= i < j -> bit_set x i = true
  | None => forall i, bi <= i < bi + Z.of_nat n -> b + i < size -> bit_set x i = true
  end.
Proof.
  revert bi. induction n as [|n IH]; intros bi; simpl; [intros; lia|].
  destruct (Z.ltb_spec (b + bi) size) as [Hs|Hs]; [|intros; lia].
  destruct (bit_set x bi) eqn:E; simpl.
  - specialize (IH (bi + 1)). destruct (balloc_scan x b size (bi + 1) n) as [j|].
    + destruct IH as (H1 & H2 & H3 & H4). split_and!; [lia|lia|done|done|]. intros i Hi.
      destruct (decide (i = bi)) as [->|]; [done|]. apply H4. lia.
    + intros i Hi Hsz. destruct (decide (i = bi)) as [->|]; [done|]. apply IH; lia.
  - split_and!; [lia|lia|done|done|]. intros; lia.
Qed.

(** ** The disk's layout *)

(** Log, inodes and bitmap, in this order, before the data blocks. *)
Record layout (start size : Z) (sb : superblock) : Prop := {
  ly_size : sb_size sb < 2 ^ 31;
  ly_start : 0 <= start /\ 0 < size;
  ly_log : start + size <= sb_inodestart sb;
  ly_inodes : 0 <= sb_ninodes sb /\ sb_inodestart sb + sb_ninodes sb / IPB + 1 <= sb_bmapstart sb;
  ly_bmap : sb_bmapstart sb + sb_size sb / BPB + 1 <= sb_size sb
}.

(** The first block after the bitmap. *)
Definition datastart (sb : superblock) : Z := sb_bmapstart sb + sb_size sb / BPB + 1.

(** Block [b] is marked in the bitmap. *)
Definition used (sb : superblock) (V : Z -> block) (b : Z) : bool := bit_set (V (BBLOCK b sb)) (b mod BPB).

(** The blocks that are not for data are marked. *)
Definition meta_used (sb : superblock) (V : Z -> block) : Prop :=
  forall b, 0 <= b < datastart sb -> used sb V b = true.

Lemma layout_order start size sb :
  layout start size sb ->
  0 < sb_inodestart sb /\ sb_inodestart sb < sb_bmapstart sb /\ sb_bmapstart sb < datastart sb /\
  datastart sb <= sb_size sb.
Proof.
  intros [L1 L2 L3 [L4 L4'] L5]. unfold datastart. assert (HB : BPB = 8192) by done.
  assert (HI : IPB = 16) by done. rewrite HB, HI in *. split_and!; dlia.
Qed.

Lemma BBLOCK_range start size sb b :
  layout start size sb -> 0 <= b < sb_size sb ->
  BBLOCK b sb = b / BPB + sb_bmapstart sb /\ home start size (BBLOCK b sb) /\
  sb_bmapstart sb <= BBLOCK b sb < datastart sb.
Proof.
  intros [L1 L2 L3 [L4 L4'] L5] Hb. unfold datastart. assert (HB : BPB = 8192) by done.
  assert (HI : IPB = 16) by done. rewrite HB, HI in *.
  assert (E : BBLOCK b sb = b / BPB + sb_bmapstart sb).
  { unfold BBLOCK. rewrite HB. apply u32_small. dlia. }
  rewrite E, HB. split; [done|]. unfold home, in_log. split; [split|]; dlia.
Qed.

(** Same bitmap block and same bit only for the same block. *)
Lemma bit_address start size sb b b' :
  layout start size sb -> 0 <= b < sb_size sb -> 0 <= b' < sb_size sb ->
  BBLOCK b sb = BBLOCK b' sb -> b mod BPB = b' mod BPB -> b = b'.
Proof.
  intros L Hb Hb'. destruct (BBLOCK_range start size sb b L Hb) as [-> _].
  destruct (BBLOCK_range start size sb b' L Hb') as [-> _]. assert (HB : BPB = 8192) by done. rewrite HB. dlia.
Qed.

Lemma mod_BPB b : 0 <= b mod BPB < 8 * Z.of_nat (Z.to_nat BSIZE).
Proof. apply Z.mod_pos_bound. done. Qed.

(** Marking a block, in the bitmap. *)
Lemma used_mark start size sb V b b' x :
  layout start size sb -> 0 <= b < sb_size sb -> 0 <= b' < sb_size sb ->
  (forall b, length (V b) = Z.to_nat BSIZE) -> x = set_bit (b mod BPB) (V (BBLOCK b sb)) ->
  used sb (upd_view (BBLOCK b sb) x V) b' = bool_decide (b' = b) || used sb V b'.
Proof.
  intros L Hb Hb' HV ->. unfold used, upd_view. case_decide as E.
  - rewrite bit_set_set; [|apply mod_BPB|rewrite HV; apply mod_BPB]. rewrite E. f_equal.
    apply bool_decide_ext. split; [|by intros ->].
    intros H. by apply (bit_address start size sb).
  - rewrite bool_decide_eq_false_2; [done|]. by intros ->.
Qed.

Lemma used_unmark start size sb V b b' x :
  layout start size sb -> 0 <= b < sb_size sb -> 0 <= b' < sb_size sb ->
  (forall b, length (V b) = Z.to_nat BSIZE) -> x = clear_bit (b mod BPB) (V (BBLOCK b sb)) ->
  used sb (upd_view (BBLOCK b sb) x V) b' = negb (bool_decide (b' = b)) && used sb V b'.
Proof.
  intros L Hb Hb' HV ->. unfold used, upd_view. case_decide as E.
  - rewrite bit_set_clear; [|apply mod_BPB|rewrite HV; apply mod_BPB]. rewrite E. do 2 f_equal.
    apply bool_decide_ext. split; [|by intros ->].
    intros H. by apply (bit_address start size sb).
  - rewrite bool_decide_eq_false_2; [done|]. by intros ->.
Qed.

(** A change outside of the bitmap. *)
Lemma used_other start size sb V b b' x :
  layout start size sb -> datastart sb <= b -> 0 <= b' < sb_size sb ->
  used sb (upd_view b x V) b' = used sb V b'.
Proof.
  intros L Hb Hb'. unfold used. rewrite upd_view_ne; [done|].
  destruct (BBLOCK_range start size sb b' L Hb') as (_ & _ & ?). lia.
Qed.

(** Block [nb] marked, and cleared. *)
Definition alloc_view (sb : superblock) (nb : Z) (V : Z -> block) : Z -> block :=
  upd_view nb zero_block (upd_view (BBLOCK nb sb) (set_bit (nb mod BPB) (V (BBLOCK nb sb))) V).

(** The first free block. *)
Record first_free (sb : superblock) (V : Z -> block) (nb : Z) : Prop := {
  ff_range : datastart sb <= nb < sb_size sb;
  ff_free : used sb V nb = false;
  ff_first : forall b, 0 <= b < nb -> used sb V b = true
}.

Section Blocks.
Context {D : Type} `{!DiskDriver D} {mach : Machine} (me : nat) (dev start size : Z).
Context (txs : tx_state D) `{!TxOk me dev (home start size) txs} (sb : superblock).
Hypothesis L : layout start size sb.
Implicit Types (V : Z -> block) (hs : list (nat * Z)) (T : list Z) (k : kernel D).

Lemma data_home b : datastart sb <= b < sb_size sb -> home start size b.
Proof.
  intros Hb. destruct L as [L1 L2 L3 [L4 L4'] L5]. unfold datastart in Hb.
  assert (HB : BPB = 8192) by done. assert (HI : IPB = 16) by done. rewrite HB, HI in *.
  split; [unfold in_log|]; dlia.
Qed.

(** The buffers an operation holds when it allocates are of data blocks in use,
    and all of the bitmap may be logged. *)
Record can_alloc V hs T k : Prop := {
  al_sb : k_sb k = sb;
  al_meta : meta_used sb V;
  al_held : forall b, b ∈ hs.*2 -> datastart sb <= b < sb_size sb /\ used sb V b = true;
  al_depth : (length hs < 3)%nat;
  al_bmap : forall b, 0 <= b < sb_size sb -> BBLOCK b sb ∈ T
}.

Lemma bzero_ok V hs T c k b :
  txs V hs None T c k -> b ∉ hs.*2 -> home start size b -> b ∈ T -> (length hs < 3)%nat ->
  exists k', bzero dev b k = Ok tt k' /\ txs (upd_view b zero_block V) hs None T c k' /\ only_log k k'.
Proof.
  intros Hk Hb Hh HT Hl. destruct (txr_bread _ _ _ _ _ b Hk Hb (txr_home b Hh) Hl) as (i & k1 & E1 & K1 & F1).
  destruct (txr_upd _ _ _ _ _ _ i b (fun _ => zero_block) K1) as (k2 & E2 & K2 & F2);
    [by left|by left|apply length_replicate|].
  destruct (txr_log_write _ _ _ _ _ _ i b K2) as (k3 & E3 & K3 & F3); [by right|by left|done|done|].
  destruct (txr_brelse _ _ _ _ _ i b K3) as (k4 & E4 & K4 & F4).
  exists k4. unfold bzero. krun E1. krun E2. krun E3. split; [exact E4|]. split; [exact K4|]. by do 3 (etrans; [eassumption|]).
Qed.

(** What a successful [balloc] leaves. *)
Lemma balloc_mark V hs T c k nb i k1 :
  txs V ((i, BBLOCK nb sb) :: hs) None T (S c) k1 -> can_alloc V hs T k -> only_log k k1 -> first_free sb V nb ->
  exists k', (upd_data i (set_bit (nb mod BPB)) ;; fs_log_write i ;; fs_brelse i ;; bzero dev nb) k1 = Ok tt k' /\
    txs (alloc_view sb nb V) hs None (nb :: T) c k' /\ only_log k k'.
Proof.
  intros K1 [A1 A2 A3 A4 A5] F1 [B1 B2 B3].
  assert (Hnb : 0 <= nb < sb_size sb) by (destruct (data_home nb B1); lia).
  destruct (BBLOCK_range start size sb nb L Hnb) as (_ & Hh & _).
  destruct (txr_upd _ _ _ _ _ _ i (BBLOCK nb sb) (set_bit (nb mod BPB)) K1) as (k2 & E2 & K2 & F2);
    [by left|by left|rewrite length_set_bit; by eapply txr_len|].
  destruct (txr_log_write _ _ _ _ _ _ i (BBLOCK nb sb) K2) as (k3 & E3 & K3 & F3); [by right|by left|done|by apply A5|].
  destruct (txr_brelse _ _ _ _ _ i (BBLOCK nb sb) K3) as (k4 & E4 & K4 & F4).
  destruct (bzero_ok _ _ _ _ _ nb (txr_grow _ _ _ _ _ _ nb K4)) as (k5 & E5 & K5 & F5);
    [|by apply data_home|by left|done|].
  - intros Hin. destruct (A3 nb Hin). congruence.
  - exists k5. krun E2. krun E3. krun E4. split; [exact E5|]. split; [exact K5|]. by do 4 (etrans; [eassumption|]).
Qed.

(** Nothing is free: [balloc] says so and returns 0. *)
Definition no_blocks V hs T c k (r : outcome (kernel D) Z) : Prop :=
  (forall b, 0 <= b < sb_size sb -> used sb V b = true) /\
  exists k1, txs V hs None T c k1 /\ only_log k k1 /\
    forall k2, kprintf "balloc: out of blocks" [] k1 = Ok tt k2 -> r = Ok 0 k2.

(** One round over the bitmap block of [b], for a [b] at its start. *)
Lemma balloc_round V hs T c k q :
  let b := BPB * q in
  txs V hs None T (S c) k -> can_alloc V hs T k -> 0 <= q -> b < sb_size sb ->
  (forall b', 0 <= b' < b -> used sb V b' = true) ->
  (exists nb k', balloc_body dev b k = Ok (inr nb) k' /\ first_free sb V nb /\
     txs (alloc_view sb nb V) hs None (nb :: T) c k' /\ only_log k k') \/
  (exists k', balloc_body dev b k = Ok (inl (b + BPB)) k' /\ txs V hs None T (S c) k' /\ only_log k k' /\
     forall b', 0 <= b' < b + BPB -> b' < sb_size sb -> used sb V b' = true).
Proof.
  intros b Hk A Hq Hb Hbelow. assert (HB : BPB = 8192) by done. destruct (BBLOCK_range start size sb b L) as (Eb & Hh & Hr); [lia|].
  assert (Hsame : forall j, 0 <= j < BPB -> b + j < sb_size sb -> BBLOCK (b + j) sb = BBLOCK b sb /\ (b + j) mod BPB = j).
  { intros j Hj Hs. destruct (BBLOCK_range start size sb (b + j) L) as (-> & _); [lia|]. rewrite Eb, HB. unfold b. dlia. }
  assert (Hnh : BBLOCK b sb ∉ hs.*2) by (intros Hin; apply (al_held _ _ _ _ A) in Hin as [? _]; lia).
  destruct (txr_bread _ _ _ _ _ _ Hk Hnh (txr_home _ Hh) (al_depth _ _ _ _ A)) as (i & k1 & E1 & K1 & F1).
  unfold balloc_body. rewrite bind_gets, (al_sb _ _ _ _ A), (proj2 (Z.ltb_lt _ _) Hb). cbn [negb].
  krun E1. krun (txr_data _ _ _ _ _ _ i (BBLOCK b sb) K1 ltac:(by left)).
  pose proof (balloc_scan_ok (V (BBLOCK b sb)) b (sb_size sb) 0 (Z.to_nat BPB)) as Hscan.
  rewrite Z2Nat.id in Hscan by lia. destruct (balloc_scan _ b _ 0 _) as [j|].
  - left. destruct Hscan as (H1 & H2 & H3 & H4). destruct (Hsame j) as [Hs1 Hs2]; [lia|lia|].
    assert (FF : first_free sb V (b + j)).
    { split.
      - split; [|done]. destruct (Z.le_gt_cases (datastart sb) (b + j)) as [|Hlt]; [done|].
        pose proof (al_meta _ _ _ _ A (b + j) ltac:(lia)) as Hu. unfold used in Hu. rewrite Hs1, Hs2 in Hu. congruence.
      - unfold used. by rewrite Hs1, Hs2.
      - intros b' Hb'. destruct (Z.lt_ge_cases b' b) as [|Hge]; [apply Hbelow; lia|].
        unfold used. destruct (Hsame (b' - b)) as [Hs1' Hs2']; [lia|lia|]. replace (b + (b' - b)) with b' in * by lia.
        rewrite Hs1', Hs2'. apply H4. lia. }
    rewrite <- Hs1 in K1. destruct (balloc_mark V hs T c k (b + j) i k1 K1 A F1 FF) as (k' & E & K & F).
    rewrite Hs2 in E. exists (b + j), k'. split; [|done].
    apply bind_Ok_inv in E as ([] & k2 & E2 & E). krun E2. apply bind_Ok_inv in E as ([] & k3 & E3 & E). krun E3.
    apply bind_Ok_inv in E as ([] & k4 & E4 & E). krun E4. krun E. unfold ret. rewrite u32_small; [done|].
    destruct FF as [? _ _]. pose proof (ly_size _ _ _ L). lia.
  - right. destruct (txr_brelse _ _ _ _ _ i (BBLOCK b sb) K1) as (k2 & E2 & K2 & F2). krun E2.
    exists k2. split; [done|]. split; [done|]. split; [by etrans|]. intros b' Hb' Hs.
    destruct (Z.lt_ge_cases b' b) as [|Hge]; [apply Hbelow; lia|]. unfold used.
    destruct (Hsame (b' - b)) as [Hs1' Hs2']; [lia|lia|]. replace (b + (b' - b)) with b' in * by lia.
    rewrite Hs1', Hs2'. apply Hscan; lia.
Qed.

Lemma only_log_alloc V hs T k k' : only_log k k' -> can_alloc V hs T k -> can_alloc V hs T k'.
Proof. intros F []. split; try done. by rewrite (only_log_sb k). Qed.

Lemma balloc_loop n : forall V hs T c k q,
  txs V hs None T (S c) k -> can_alloc V hs T k -> 0 <= q -> sb_size sb / BPB + 2 - q <= Z.of_nat n ->
  q <= sb_size sb / BPB + 1 ->
  (forall b, 0 <= b < BPB * q -> b < sb_size sb -> used sb V b = true) ->
  (exists nb k', while n (balloc_body dev) (BPB * q) k = Ok nb k' /\ first_free sb V nb /\
     txs (alloc_view sb nb V) hs None (nb :: T) c k' /\ only_log k k') \/
  no_blocks V hs T (S c) k (while n (balloc_body dev) (BPB * q) k).
Proof.
  assert (HB : BPB = 8192) by done.
  induction n as [|n IH]; intros V hs T c k q Hk A Hq Hn Hq' Hbelow; [lia|]. cbn [while].
  destruct (Z.lt_ge_cases (BPB * q) (sb_size sb)) as [Hlt|Hge].
  - destruct (balloc_round V hs T c k q Hk A Hq Hlt) as [(nb & k' & E & H)|(k' & E & K & F & Hu)].
    { intros b Hb. apply Hbelow; lia. }
    + left. exists nb, k'. by krun E.
    + rewrite (bind_Ok _ _ _ _ _ E). replace (BPB * q + BPB) with (BPB * (q + 1)) in * by lia.
      destruct (IH V hs T c k' (q + 1) K) as [(nb & k2 & E2 & H1 & H2 & H3)|[H1 (k2 & H2 & H3 & H4)]];
        [by eapply only_log_alloc|lia|lia|rewrite HB in *; dlia|done|left; exists nb, k2|right; split; [done|]; exists k2].
      * split_and!; try done. by etrans.
      * split_and!; try done. by etrans.
  - right. split; [intros b Hb; apply Hbelow; lia|]. exists k. split; [done|]. split; [done|].
    intros k2 E. unfold balloc_body at 1.
    rewrite (bind_Ok _ _ _ (inr 0) k2); [done|]. rewrite bind_gets, (al_sb _ _ _ _ A), (proj2 (Z.ltb_ge _ _)) by lia.
    cbn [negb]. by krun E.
Qed.

Lemma balloc_ok V hs T c k :
  txs V hs None T (S c) k -> can_alloc V hs T k ->
  (exists nb k', balloc dev k = Ok nb k' /\ first_free sb V nb /\
     txs (alloc_view sb nb V) hs None (nb :: T) c k' /\ only_log k k') \/
  no_blocks V hs T (S c) k (balloc dev k).
Proof.
  intros Hk A. unfold balloc. rewrite bind_gets, (al_sb _ _ _ _ A).
  assert (0 <= sb_size sb / BPB).
  { destruct L as [L1 L2 L3 [L4 L4'] L5]. assert (HI : IPB = 16) by done. rewrite HI in *.
    assert (HB : BPB = 8192) by done. rewrite HB in *. dlia. }
  apply (balloc_loop _ V hs T c k 0); [done|done|lia|lia|lia|]. intros b Hb. lia.
Qed.

(** The bitmap and the contents after an allocation. *)
Lemma alloc_view_used V nb b :
  (forall b, length (V b) = Z.to_nat BSIZE) -> datastart sb <= nb < sb_size sb -> 0 <= b < sb_size sb ->
  used sb (alloc_view sb nb V) b = bool_decide (b = nb) || used sb V b.
Proof.
  intros HV Hnb Hb. unfold alloc_view. rewrite (used_other start size) by (done || lia).
  apply (used_mark start size); try done. destruct (data_home nb Hnb). lia.
Qed.

Lemma alloc_view_new V nb : alloc_view sb nb V nb = zero_block.
Proof. apply upd_view_eq. Qed.

Lemma alloc_view_old V nb b : b <> nb -> b <> BBLOCK nb sb -> alloc_view sb nb V b = V b.
Proof. intros H1 H2. unfold alloc_view. by rewrite !upd_view_ne. Qed.

Lemma alloc_view_data V nb b : datastart sb <= nb < sb_size sb ->
  datastart sb <= b -> b <> nb -> alloc_view sb nb V b = V b.
Proof.
  intros Hnb Hb Hne. apply alloc_view_old; [done|].
  destruct (BBLOCK_range start size sb nb L) as (_ & _ & ?); [destruct (data_home nb Hnb); lia|lia].
Qed.

Lemma alloc_view_meta V nb :
  (forall b, length (V b) = Z.to_nat BSIZE) -> datastart sb <= nb < sb_size sb ->
  meta_used sb V -> meta_used sb (alloc_view sb nb V).
Proof.
  intros HV Hnb Hm b Hb. rewrite alloc_view_used by (done || lia). rewrite Hm by done. apply orb_true_r.
Qed.

Lemma bfree_ok V hs T c k b :
  txs V hs None T c k -> k_sb k = sb -> 0 <= b < sb_size sb -> used sb V b = true ->
  BBLOCK b sb ∉ hs.*2 -> BBLOCK b sb ∈ T -> (length hs < 3)%nat ->
  exists k', bfree dev b k = Ok tt k' /\
    txs (upd_view (BBLOCK b sb) (clear_bit (b mod BPB) (V (BBLOCK b sb))) V) hs None T c k' /\ only_log k k'.
Proof.
  intros Hk Hsb Hb Hu Hnh HT Hl. destruct (BBLOCK_range start size sb b L Hb) as (_ & Hh & _).
  destruct (txr_bread _ _ _ _ _ _ Hk Hnh (txr_home _ Hh) Hl) as (i & k1 & E1 & K1 & F1).
  destruct (txr_upd _ _ _ _ _ _ i (BBLOCK b sb) (clear_bit (b mod BPB)) K1) as (k2 & E2 & K2 & F2);
    [by left|by left|rewrite length_clear_bit; by eapply txr_len|].
  destruct (txr_log_write _ _ _ _ _ _ i (BBLOCK b sb) K2) as (k3 & E3 & K3 & F3); [by right|by left|done|done|].
  destruct (txr_brelse _ _ _ _ _ i (BBLOCK b sb) K3) as (k4 & E4 & K4 & F4).
  exists k4. unfold bfree. rewrite bind_gets, Hsb. krun E1.
  krun (txr_data _ _ _ _ _ _ i (BBLOCK b sb) K1 ltac:(by left)).
  change (bit_set (V (BBLOCK b sb)) (b mod BPB)) with (used sb V b). rewrite Hu. cbn [negb].
  krun E2. krun E3. split; [exact E4|]. split; [exact K4|]. by do 3 (etrans; [eassumption|]).
Qed.

Lemma bfree_free V hs T c k b :
  txs V hs None T c k -> k_sb k = sb -> 0 <= b < sb_size sb -> used sb V b = false ->
  BBLOCK b sb ∉ hs.*2 -> (length hs < 3)%nat ->
  exists k', bfree dev b k = Panic "freeing free block" k'.
Proof.
  intros Hk Hsb Hb Hu Hnh Hl. destruct (BBLOCK_range start size sb b L Hb) as (_ & Hh & _).
  destruct (txr_bread _ _ _ _ _ _ Hk Hnh (txr_home _ Hh) Hl) as (i & k1 & E1 & K1 & F1).
  exists k1. unfold bfree. rewrite bind_gets, Hsb. krun E1.
  krun (txr_data _ _ _ _ _ _ i (BBLOCK b sb) K1 ltac:(by left)).
  change (bit_set (V (BBLOCK b sb)) (b mod BPB)) with (used sb V b). by rewrite Hu.
Qed.

(** ** Properties *)

(** [balloc], in an operation of the log, returns the first block that is
    free in the bitmap, a data block; afterwards it is marked, its contents are
    zero, and no other mark and no other data block changed.  When no block is
    free, nothing changes and it returns 0 after its message. *)
Theorem balloc_correct (V : Z -> block) (hs : list (nat * Z)) (T : list Z) (c : nat) (k : kernel D)
    (Hk : txs V hs None T (S c) k) (Ha : can_alloc V hs T k) :
  (exists nb k' V', balloc dev k = Ok nb k' /\ first_free sb V nb /\ txs V' hs None (nb :: T) c k' /\ only_log k k' /\
     V' nb = zero_block /\ (forall b, datastart sb <= b -> b <> nb -> V' b = V b) /\
     (forall b, 0 <= b < sb_size sb -> used sb V' b = bool_decide (b = nb) || used sb V b)) \/
  (forall b, 0 <= b < sb_size sb -> used sb V b = true) /\
  exists k1, txs V hs None T (S c) k1 /\ only_log k k1 /\
    forall k2, kprintf "balloc: out of blocks" [] k1 = Ok tt k2 -> balloc dev k = Ok 0 k2.
Proof.
  destruct (balloc_ok V hs T c k Hk Ha) as [(nb & k' & E & FF & K & F)|H]; [left|right; exact H].
  assert (HV : forall b, length (V b) = Z.to_nat BSIZE) by (intros b; by eapply txr_len).
  exists nb, k', (alloc_view sb nb V). split; [exact E|]. split; [exact FF|]. split; [exact K|]. split; [exact F|].
  split; [apply alloc_view_new|]. split.
  - intros b Hb Hne. apply alloc_view_data; [apply FF|done|done].
  - intros b Hb. apply alloc_view_used; [exact HV|apply FF|exact Hb].
Qed.

(** [bfree] clears the mark of a block in use, and no other; a block that is
    free already makes it panic. *)
Theorem bfree_correct (V : Z -> block) (hs : list (nat * Z)) (T : list Z) (c : nat) (k : kernel D) (b : Z)
    (Hk : txs V hs None T c k) (Hsb : k_sb k = sb) (Hb : 0 <= b < sb_size sb)
    (Hh : BBLOCK b sb ∉ hs.*2) (HT : BBLOCK b sb ∈ T) (Hl : (length hs < 3)%nat) :
  (used sb V b = true -> exists k' V', bfree dev b k = Ok tt k' /\ txs V' hs None T c k' /\ only_log k k' /\
     (forall b', b' <> BBLOCK b sb -> V' b' = V b') /\
     (forall b', 0 <= b' < sb_size sb -> used sb V' b' = negb (bool_decide (b' = b)) && used sb V b')) /\
  (used sb V b = false -> exists k', bfree dev b k = Panic "freeing free block" k').
Proof.
  split; intros Hu; [|by eapply bfree_free].
  destruct (bfree_ok V hs T c k b Hk Hsb Hb Hu Hh HT Hl) as (k' & E & K & F).
  eexists k', _. split; [exact E|]. split; [exact K|]. split; [exact F|]. split.
  - intros b' Hne. by rewrite upd_view_ne.
  - intros b' Hb'. apply (used_unmark start size); try done. intros x. by eapply txr_len.
Qed.

End Blocks.
