(* ===== verification/FsFile.v ===== *)
(** * The contents of files

    [bmap], [readi] and [writei] of [fs.c] in an operation of the log.  The
    addresses of an inode and of its indirect block give every block of a file
    its place; [bmap] extends that map with fresh blocks, [readi] returns the
    bytes of a range, and [writei] replaces them and grows the file. *)

From S2P Require Import Prelude Riscv Memory CString Sys Spinlock Proc Kalloc Vm PageTable Uvm UserCopy Sleeplock Either Bio Block Bcache BufCache Log Kernel Machine Fs File LogDisk LogOk LogCrash LogTx FsTx FsBlocks.

(** ** Addresses *)

Definition ind_addr (ip : inode) : Z := i_addrs ip !!! NDIRECT.

(** The address of block [bn] of the file, 0 when it has none. *)
Definition block_addr (V : Z -> block) (ip : inode) (bn : Z) : Z :=
  if decide (bn < Z.of_nat NDIRECT) then i_addrs ip !!! Z.to_nat bn
  else if decide (ind_addr ip = 0) then 0
  else get32 (V (ind_addr ip)) (4 * Z.to_nat (bn - Z.of_nat NDIRECT)).

(** A data block in use. *)
Definition data_block (sb : superblock) (V : Z -> block) (a : Z) : Prop :=
  datastart sb <= a < sb_size sb /\ used sb V a = true.

Record addrs_ok (sb : superblock) (V : Z -> block) (A : Z -> Z) (ind : Z) : Prop := {
  ao_ind : ind <> 0 -> data_block sb V ind;
  ao_data : forall bn, 0 <= bn < MAXFILE -> A bn <> 0 -> data_block sb V (A bn);
  ao_inj : forall bn bn', 0 <= bn < MAXFILE -> 0 <= bn' < MAXFILE -> A bn <> 0 -> A bn = A bn' -> bn = bn';
  ao_apart : forall bn, 0 <= bn < MAXFILE -> A bn <> 0 -> A bn <> ind
}.

(** The blocks of a file are data blocks in use, each with one role. *)
Record file_ok (sb : superblock) (dev : Z) (V : Z -> block) (ip : inode) : Prop := {
  fo_len : length (i_addrs ip) = S NDIRECT;
  fo_dev : i_dev ip = dev;
  fo_addrs : addrs_ok sb V (block_addr V ip) (ind_addr ip)
}.

(** Marks are only added. *)
Definition more_used (sb : superblock) (V V' : Z -> block) : Prop :=
  forall b, 0 <= b < sb_size sb -> used sb V b = true -> used sb V' b = true.

Lemma data_block_mono sb V V' a : 0 <= datastart sb -> more_used sb V V' -> data_block sb V a -> data_block sb V' a.
Proof. intros H0 H [H1 H2]. split; [done|]. apply H; [lia|done]. Qed.

Lemma addrs_ok_mono sb V V' A A' ind :
  0 <= datastart sb -> more_used sb V V' -> (forall bn, 0 <= bn < MAXFILE -> A' bn = A bn) ->
  addrs_ok sb V A ind -> addrs_ok sb V' A' ind.
Proof.
  intros H0 Hu HA [O1 O2 O3 O4]. split.
  - intros H. by apply (data_block_mono sb V), O1.
  - intros bn Hb. rewrite HA by done. intros H. by apply (data_block_mono sb V), O2.
  - intros bn bn' Hb Hb'. rewrite !HA by done. by apply O3.
  - intros bn Hb. rewrite HA by done. by apply O4.
Qed.

(** A fresh block for block [bn] of the file. *)
Lemma addrs_ok_slot sb V V' A A' ind bn nb :
  0 <= datastart sb -> more_used sb V V' -> used sb V nb = false -> data_block sb V' nb ->
  (forall bn', 0 <= bn' < MAXFILE -> A' bn' = if decide (bn' = bn) then nb else A bn') ->
  addrs_ok sb V A ind -> addrs_ok sb V' A' ind.
Proof.
  intros H0 Hu Hf Hnb HA [O1 O2 O3 O4].
  assert (Hne : forall a, data_block sb V a -> a <> nb) by (intros a [_ H] ->; congruence).
  split.
  - intros H. by apply (data_block_mono sb V), O1.
  - intros x Hx. rewrite HA by done. case_decide; [done|]. intros Hz. by apply (data_block_mono sb V), O2.
  - intros x y Hx Hy. rewrite !HA by done. repeat case_decide; subst; intros Hz E; try done.
    + destruct (Hne (A y)); [|done]. apply O2; [done|]. destruct Hnb as [[? ?] _]. intros E0. rewrite E0 in E. congruence.
    + destruct (Hne (A x)); [|done]. by apply O2.
    + by apply O3.
  - intros x Hx. rewrite HA by done. case_decide; [|by apply O4]. intros Hz E. destruct (Hne ind); [|done].
    apply O1. congruence.
Qed.

(** A fresh indirect block. *)
Lemma addrs_ok_ind sb V V' A A' nb :
  0 <= datastart sb -> more_used sb V V' -> used sb V nb = false -> data_block sb V' nb ->
  (forall bn, 0 <= bn < MAXFILE -> A' bn = A bn) -> addrs_ok sb V A 0 -> addrs_ok sb V' A' nb.
Proof.
  intros H0 Hu Hf Hnb HA H. destruct (addrs_ok_mono sb V V' A A' 0 H0 Hu HA H) as [O1 O2 O3 O4].
  split; [done|done|done|]. intros x Hx Hz E. pose proof (ao_data _ _ _ _ H x Hx) as [_ Hd]; [by rewrite <- HA|].
  rewrite <- HA, E in Hd by done. congruence.
Qed.

Lemma le_combine_zeros n : le_combine (replicate n Byte.x00) = 0.
Proof.
  induction n as [|n IH]; [done|]. change (Z.lor 0 (Z.shiftl (le_combine (replicate n Byte.x00)) 8) = 0). by rewrite IH.
Qed.

Lemma get32_zero off : get32 zero_block off = 0.
Proof.
  unfold get32, bytes_at, zero_block. rewrite drop_replicate, take_replicate. apply le_combine_zeros.
Qed.

(** ** Free blocks *)

(** At least [n] data blocks are free. *)
Definition has_free (sb : superblock) (V : Z -> block) (n : nat) : Prop :=
  exists fr, NoDup fr /\ (n <= length fr)%nat /\
    forall b, b ∈ fr -> datastart sb <= b < sb_size sb /\ used sb V b = false.

Lemma has_free_weaken sb V n m : has_free sb V n -> (m <= n)%nat -> has_free sb V m.
Proof. intros (fr & H1 & H2 & H3) Hm. exists fr. split_and!; [done|lia|done]. Qed.

Lemma has_free_alloc sb V V' nb n :
  0 <= datastart sb -> has_free sb V (S n) ->
  (forall b, 0 <= b < sb_size sb -> used sb V' b = bool_decide (b = nb) || used sb V b) -> has_free sb V' n.
Proof.
  intros H0 (fr & H1 & H2 & H3) Hu.
  assert (Hgo : forall l : list Z, (forall b, b ∈ l -> b ∈ fr) -> nb ∉ l ->
    forall b, b ∈ l -> datastart sb <= b < sb_size sb /\ used sb V' b = false).
  { intros l Hl Hn b Hb. destruct (H3 b (Hl b Hb)) as [H4 H5]. split; [done|]. rewrite Hu by lia.
    rewrite bool_decide_eq_false_2 by (intros ->; done). done. }
  destruct (decide (nb ∈ fr)) as [Hin|Hin].
  - apply elem_of_Permutation in Hin as [l Hl]. rewrite Hl in H1. apply NoDup_cons in H1 as [H4 H5].
    exists l. split; [done|]. split; [rewrite Hl in H2; simpl in H2; lia|]. apply Hgo; [|done].
    intros b Hb. rewrite Hl. by right.
  - exists fr. split; [done|]. split; [lia|]. by apply Hgo.
Qed.

(** ** Frames *)

(** Only the log, the processes' run states and entry [i] of the inode table
    changed. *)
Record only_file {D} (i : nat) (k k' : kernel D) : Prop := {
  of_rest : k' = set_k_itable (k_itable k') (set_k_log (k_log k') k);
  of_slk : undisturbed (k_slk k) (k_slk k');
  of_others : forall j, j <> i -> k_itable k' !! j = k_itable k !! j;
  of_len : length (k_itable k') = length (k_itable k)
}.

#[export] Instance only_file_preorder {D} i : PreOrder (@only_file D i).
Proof.
  split.
  - intros k. split; try done. by destruct k.
  - intros k1 k2 k3 [A1 A2 A3 A4] [B1 B2 B3 B4]. split.
    + rewrite B1, A1. by destruct k1.
    + by etrans.
    + intros j Hj. rewrite B3 by done. by apply A3.
    + congruence.
Qed.

Lemma only_log_file {D} i (k k' : kernel D) : only_log k k' -> only_file i k k'.
Proof. intros [H1 H2]. rewrite H1. by split. Qed.

Lemma only_file_sb {D} i (k k' : kernel D) : only_file i k k' -> k_sb k' = k_sb k.
Proof. by intros [-> _ _ _]. Qed.

Lemma only_file_mem {D} i (k k' : kernel D) : only_file i k k' -> k_mem k' = k_mem k.
Proof. by intros [-> _ _ _]. Qed.

Lemma upd_inode_ok {D} i (f : inode -> inode) (k : kernel D) ip :
  k_itable k !! i = Some ip ->
  exists k', upd_inode i f k = Ok tt k' /\ k_itable k' !! i = Some (f ip) /\ k_log k' = k_log k /\ only_file i k k'.
Proof.
  intros Hi. exists (set_k_itable (alter f i (k_itable k)) k). split; [done|]. split; [|split; [done|split; try done]].
  - simpl. rewrite list_lookup_alter_eq, Hi. done.
  - intros j Hj. simpl. by rewrite list_lookup_alter_ne.
  - simpl. apply length_alter.
Qed.

(** ** [bmap] *)

(** Block [bn] of the file is now at [a]; it was there, or is new and zero.
    Blocks in use keep their contents, but for the indirect block. *)
Record grown (sb : superblock) (bn a : Z) (V : Z -> block) (ip : inode) (V' : Z -> block) (ip' : inode) : Prop := {
  gr_ip : ip' = set_i_addrs (i_addrs ip') ip;
  gr_addr : forall bn', 0 <= bn' < MAXFILE ->
    block_addr V' ip' bn' = if decide (bn' = bn) then a else block_addr V ip bn';
  gr_new : block_addr V ip bn = a \/ block_addr V ip bn = 0 /\ V' a = zero_block /\ used sb V a = false;
  gr_ind : ind_addr ip' = ind_addr ip \/
    ind_addr ip = 0 /\ datastart sb <= ind_addr ip' < sb_size sb /\ used sb V (ind_addr ip') = false;
  gr_used : more_used sb V V';
  gr_view : forall b, datastart sb <= b < sb_size sb -> used sb V b = true -> b <> ind_addr ip -> V' b = V b;
  gr_inode : forall b, sb_inodestart sb <= b < sb_bmapstart sb -> V' b = V b
}.

Section Files.
Context {D : Type} `{!DiskDriver D} {mach : Machine} (me : nat) (dev start size : Z).
Context (txs : tx_state D) `{!TxOk me dev (home start size) txs} (sb : superblock).
Hypothesis L : layout start size sb.
Implicit Types (V : Z -> block) (hs : list (nat * Z)) (T : list Z) (k : kernel D) (ip : inode).

Lemma datastart_pos : 0 < datastart sb.
Proof. pose proof (layout_order start size sb L). lia. Qed.

Lemma data_nonzero V a : data_block sb V a -> a <> 0.
Proof. intros [H _]. pose proof datastart_pos. lia. Qed.

(** What [balloc] does when blocks are free. *)
Lemma balloc_new V hs T c k n :
  txs V hs None T (S c) k -> can_alloc sb V hs T k -> has_free sb V (S n) ->
  exists nb k', balloc dev k = Ok nb k' /\ used sb V nb = false /\ data_block sb (alloc_view sb nb V) nb /\
    txs (alloc_view sb nb V) hs None (nb :: T) c k' /\ only_log k k' /\ has_free sb (alloc_view sb nb V) n /\
    more_used sb V (alloc_view sb nb V) /\ meta_used sb (alloc_view sb nb V).
Proof.
  intros Hk A Hf. pose proof datastart_pos as Hp.
  assert (HV : forall b, length (V b) = Z.to_nat BSIZE) by (intros b; by eapply txr_len).
  destruct (balloc_ok me dev start size txs sb L V hs T c k Hk A) as [(nb & k' & E & [F1 F2 F3] & K & F)|[Hno _]].
  - pose proof (fun b => alloc_view_used start size sb L V nb b HV F1) as Hu. exists nb, k'. split; [done|]. split; [done|].
    split; [|split; [done|split; [done|split; [|split]]]].
    + split; [done|]. rewrite Hu by lia. by rewrite bool_decide_eq_true_2.
    + apply (has_free_alloc sb V _ nb); [lia|done|exact Hu].
    + intros b Hb Hub. rewrite Hu, Hub by done. apply orb_true_r.
    + apply (alloc_view_meta start size); try done. apply A.
  - destruct Hf as ([|b fr] & _ & Hlen & Hfr); [simpl in Hlen; lia|].
    destruct (Hfr b) as [H1 H2]; [by left|]. rewrite Hno in H2 by lia. done.
Qed.

(** Blocks in use other than the bitmap keep their contents. *)
Lemma alloc_view_kept V nb b :
  datastart sb <= nb < sb_size sb -> used sb V nb = false ->
  datastart sb <= b < sb_size sb -> used sb V b = true -> alloc_view sb nb V b = V b.
Proof. intros Hn Hf Hb Hu. apply (alloc_view_data start size); try done; [lia|]. intros ->. congruence. Qed.

Lemma alloc_view_inode V nb b :
  datastart sb <= nb < sb_size sb -> sb_inodestart sb <= b < sb_bmapstart sb -> alloc_view sb nb V b = V b.
Proof.
  intros Hn Hb. pose proof (layout_order start size sb L). apply alloc_view_old; [lia|].
  destruct (BBLOCK_range start size sb nb L) as (_ & _ & ?); lia.
Qed.

(** A new direct block. *)
Lemma grown_direct V ip bn nb :
  0 <= bn < Z.of_nat NDIRECT -> file_ok sb dev V ip -> block_addr V ip bn = 0 -> used sb V nb = false ->
  data_block sb (alloc_view sb nb V) nb -> more_used sb V (alloc_view sb nb V) ->
  let ip' := set_i_addrs (<[Z.to_nat bn := nb]> (i_addrs ip)) ip in
  grown sb bn nb V ip (alloc_view sb nb V) ip' /\ file_ok sb dev (alloc_view sb nb V) ip' /\ ind_addr ip' = ind_addr ip.
Proof.
  intros Hbn [O1 O2 O3] Hz Hf Hd Hu ip'. pose proof datastart_pos.
  assert (Hind : ind_addr ip' = ind_addr ip).
  { unfold ind_addr, ip'. simpl. apply list_lookup_total_insert_ne. unfold NDIRECT in *. lia. }
  assert (HA : forall bn', 0 <= bn' < MAXFILE ->
    block_addr (alloc_view sb nb V) ip' bn' = if decide (bn' = bn) then nb else block_addr V ip bn').
  { intros x Hx. unfold block_addr. rewrite Hind. destruct (decide (x < Z.of_nat NDIRECT)).
    - destruct (decide (x = bn)) as [->|Hne].
      + apply list_lookup_total_insert_eq. unfold NDIRECT in *. lia.
      + apply list_lookup_total_insert_ne. lia.
    - rewrite (decide_False (P := x = bn)) by lia. destruct (decide (ind_addr ip = 0)) as [|Hi]; [done|].
      destruct (ao_ind _ _ _ _ O3 Hi). by rewrite alloc_view_kept by (done || apply Hd). }
  split; [|split; [|done]].
  - split; [done|done| |by left|done| |].
    + right. split; [done|]. split; [apply alloc_view_new|done].
    + intros b Hb Hub _. apply alloc_view_kept; [apply Hd|done..].
    + intros b Hb. apply alloc_view_inode; [apply Hd|done].
  - split; [|done|].
    + unfold ip'. simpl. by rewrite length_insert.
    + rewrite Hind. eapply (addrs_ok_slot sb V); try done. lia.
Qed.

(** A new indirect block: no block of the file moves. *)
Lemma grown_ind V ip nb :
  file_ok sb dev V ip -> ind_addr ip = 0 -> used sb V nb = false ->
  data_block sb (alloc_view sb nb V) nb -> more_used sb V (alloc_view sb nb V) ->
  let ip' := set_i_addrs (<[NDIRECT := nb]> (i_addrs ip)) ip in
  (forall bn, 0 <= bn < MAXFILE -> block_addr (alloc_view sb nb V) ip' bn = block_addr V ip bn) /\
  file_ok sb dev (alloc_view sb nb V) ip' /\ ind_addr ip' = nb.
Proof.
  intros [O1 O2 O3] Hz Hf Hd Hu ip'. pose proof datastart_pos.
  assert (Hind : ind_addr ip' = nb).
  { unfold ind_addr, ip'. simpl. apply list_lookup_total_insert_eq. lia. }
  assert (HA : forall bn, 0 <= bn < MAXFILE -> block_addr (alloc_view sb nb V) ip' bn = block_addr V ip bn).
  { intros x Hx. unfold block_addr. rewrite Hind, Hz. destruct (decide (x < Z.of_nat NDIRECT)).
    - apply list_lookup_total_insert_ne. unfold NDIRECT in *. lia.
    - rewrite decide_False by (by eapply data_nonzero). rewrite alloc_view_new. apply get32_zero. }
  split; [done|]. split; [|done]. split; [|done|].
  - unfold ip'. simpl. by rewrite length_insert.
  - rewrite Hind. rewrite Hz in O3. eapply (addrs_ok_ind sb V); try done. lia.
Qed.

(** A new block behind the indirect block. *)
Lemma grown_slot V ip bn nb :
  Z.of_nat NDIRECT <= bn < MAXFILE -> file_ok sb dev V ip -> ind_addr ip <> 0 -> block_addr V ip bn = 0 ->
  used sb V nb = false -> data_block sb (alloc_view sb nb V) nb -> more_used sb V (alloc_view sb nb V) ->
  length (V (ind_addr ip)) = Z.to_nat BSIZE ->
  let V1 := alloc_view sb nb V in
  let V2 := upd_view (ind_addr ip) (put32 (4 * Z.to_nat (bn - Z.of_nat NDIRECT)) nb (V1 (ind_addr ip))) V1 in
  grown sb bn nb V ip V2 ip /\ file_ok sb dev V2 ip /\
  (forall b, 0 <= b < sb_size sb -> used sb V2 b = used sb V1 b).
Proof.
  intros Hbn [O1 O2 O3] Hi Hz Hf Hd Hu HV V1 V2. pose proof datastart_pos.
  destruct (ao_ind _ _ _ _ O3 Hi) as [Hi1 Hi2].
  assert (Hsz : sb_size sb < 2 ^ 31) by apply L.
  assert (E1 : V1 (ind_addr ip) = V (ind_addr ip)) by (apply alloc_view_kept; [apply Hd|done..]).
  assert (Hus : forall b, 0 <= b < sb_size sb -> used sb V2 b = used sb V1 b).
  { intros b Hb. apply (used_other start size); [done|lia|done]. }
  assert (HM : MAXFILE = 268) by done. assert (HS : Z.to_nat BSIZE = 1024%nat) by done.
  assert (HA : forall x, 0 <= x < MAXFILE -> block_addr V2 ip x = if decide (x = bn) then nb else block_addr V ip x).
  { intros x Hx. unfold block_addr. destruct (decide (x < Z.of_nat NDIRECT)); [by rewrite decide_False by lia|].
    rewrite (decide_False (P := ind_addr ip = 0)) by done. unfold V2. rewrite upd_view_eq, E1.
    destruct (decide (x = bn)) as [->|Hne].
    - rewrite get32_put32 by (unfold NDIRECT in *; lia). apply u32_small. destruct Hd as [? _]. lia.
    - rewrite (decide_False (P := ind_addr ip = 0)) by done. apply get32_put32_apart; unfold NDIRECT in *; lia. }
  assert (Hu2 : more_used sb V V2) by (intros b Hb Hub; rewrite Hus by done; by apply Hu).
  assert (Hd2 : data_block sb V2 nb) by (destruct Hd as [? ?]; split; [done|]; rewrite Hus by lia; done).
  split; [|split; [|done]].
  - split; [by destruct ip|done| |by left|done| |].
    + right. split; [done|]. split; [|done]. unfold V2. rewrite upd_view_ne; [apply alloc_view_new|].
      intros ->. congruence.
    + intros b Hb Hub Hne. unfold V2. rewrite upd_view_ne by done. apply alloc_view_kept; [apply Hd|done..].
    + intros b Hb. unfold V2. rewrite upd_view_ne; [apply alloc_view_inode; [apply Hd|done]|].
      pose proof (layout_order start size sb L). lia.
  - split; [done|done|]. eapply (addrs_ok_slot sb V); try done. lia.
Qed.

(** ** Running [bmap] *)

(** One more block may have to be logged for the indirect block. *)
Definition need (ip : inode) : nat := if decide (ind_addr ip = 0) then 1 else 0.

(** An operation at work on file [i]. *)
Record on_file (i : nat) V ip T (c : nat) k : Prop := {
  on_tx : txs V [] None T (need ip + c)%nat k;
  on_sb : k_sb k = sb;
  on_ip : k_itable k !! i = Some ip;
  on_ok : file_ok sb dev V ip;
  on_meta : meta_used sb V;
  on_bmap : forall b, 0 <= b < sb_size sb -> BBLOCK b sb ∈ T;
  on_ind : ind_addr ip <> 0 -> ind_addr ip ∈ T;
  on_free : has_free sb V (need ip + c)
}.

Lemma get_inode_ok i k ip : k_itable k !! i = Some ip -> get_inode i k = Ok ip k.
Proof. intros H. unfold get_inode, gets. by rewrite (list_lookup_total_correct _ _ _ H). Qed.

Lemma only_log_on i V ip T c k k' :
  only_log k k' -> txs V [] None T (need ip + c)%nat k' -> on_file i V ip T c k -> on_file i V ip T c k'.
Proof.
  intros F K [H1 H2 H3 H4 H5 H6 H7 H8]. split; try done; [by rewrite (only_log_sb k)|by rewrite (only_log_itable k)].
Qed.

Lemma set_addr_ok i n a k ip :
  k_itable k !! i = Some ip ->
  exists k', set_addr i n a k = Ok tt k' /\ k_itable k' !! i = Some (set_i_addrs (<[n := a]> (i_addrs ip)) ip) /\
    k_log k' = k_log k /\ only_file i k k'.
Proof. intros Hi. exact (upd_inode_ok i (fun x => set_i_addrs (<[n := a]> (i_addrs x)) x) k ip Hi). Qed.

Lemma on_file_alloc i V ip T c k : on_file i V ip T c k -> can_alloc sb V [] T k.
Proof.
  intros H. split; try apply H; [|simpl; lia]. intros b Hb. by apply not_elem_of_nil in Hb.
Qed.

(** A direct block that is missing. *)
Lemma bmap_direct_new i V ip T c k bn :
  on_file i V ip T (S c) k -> 0 <= bn < Z.of_nat NDIRECT -> block_addr V ip bn = 0 ->
  exists a k' V' ip', bmap_slot (i_dev ip) 0 (set_addr i (Z.to_nat bn)) k = Ok a k' /\
    on_file i V' ip' (a :: T) c k' /\ grown sb bn a V ip V' ip' /\ data_block sb V' a /\ only_file i k k'.
Proof.
  intros H Hbn Hz. pose proof (on_file_alloc _ _ _ _ _ _ H) as A. destruct H as [H1 H2 H3 H4 H5 H6 H7 H8].
  rewrite Nat.add_succ_r in H1, H8. destruct (balloc_new V [] T _ k _ H1 A H8) as (nb & k1 & E1 & U & Hd & K1 & F1 & Hf1 & M1 & M2).
  rewrite <- (only_log_itable k k1) in H3 by done.
  destruct (set_addr_ok i (Z.to_nat bn) nb k1 ip H3) as (k2 & E2 & I2 & K2 & F2).
  destruct (grown_direct V ip bn nb Hbn H4 Hz U Hd M1) as (G & O & Ei). set (ip' := set_i_addrs _ ip) in *.
  exists nb, k2, (alloc_view sb nb V), ip'. split.
  { unfold bmap_slot. rewrite (fo_dev _ _ _ _ H4). simpl. krun E1.
    rewrite (proj2 (Z.eqb_neq nb 0)) by (by eapply data_nonzero). by krun E2. }
  assert (En : need ip' = need ip) by (unfold need; by rewrite Ei).
  split; [|split; [done|split; [done|]]].
  - split; try done; rewrite ?En; try done.
    + by apply (txr_log _ _ _ _ _ k1).
    + rewrite (only_file_sb i k1), (only_log_sb k); done.
    + intros b Hb. right. by apply H6.
    + rewrite Ei. intros Hi. right. by apply H7.
  - etrans; [|exact F2]. by apply only_log_file.
Qed.

(** What the allocation of the indirect block leaves as it was. *)
Record kept V ip V' ip' : Prop := {
  ke_ip : ip' = set_i_addrs (i_addrs ip') ip;
  ke_addr : forall bn, 0 <= bn < MAXFILE -> block_addr V' ip' bn = block_addr V ip bn;
  ke_used : more_used sb V V';
  ke_view : forall b, datastart sb <= b < sb_size sb -> used sb V b = true -> V' b = V b;
  ke_inode : forall b, sb_inodestart sb <= b < sb_bmapstart sb -> V' b = V b;
  ke_ind : ind_addr ip <> 0 -> ind_addr ip' = ind_addr ip;
  ke_new : ind_addr ip = 0 -> used sb V (ind_addr ip') = false
}.

(** The indirect block, allocated if there is none. *)
Lemma bmap_ind i V ip T c k :
  on_file i V ip T c k ->
  exists k' V' ip' T', bmap_slot (i_dev ip) (ind_addr ip) (set_addr i NDIRECT) k = Ok (ind_addr ip') k' /\
    ind_addr ip' <> 0 /\ on_file i V' ip' T' c k' /\ kept V ip V' ip' /\ only_file i k k' /\ T ⊆ T'.
Proof.
  intros H. pose proof (on_file_alloc _ _ _ _ _ _ H) as A. unfold bmap_slot.
  destruct (Z.eqb_spec (ind_addr ip) 0) as [Hz|Hz].
  - destruct H as [H1 H2 H3 H4 H5 H6 H7 H8]. unfold need in H1, H8. rewrite decide_True in H1, H8 by done.
    destruct (balloc_new V [] T _ k _ H1 A H8) as (nb & k1 & E1 & U & Hd & K1 & F1 & Hf1 & M1 & M2).
    rewrite <- (only_log_itable k k1) in H3 by done.
    destruct (set_addr_ok i NDIRECT nb k1 ip H3) as (k2 & E2 & I2 & K2 & F2).
    destruct (grown_ind V ip nb H4 Hz U Hd M1) as (G & O & Ei). set (ip' := set_i_addrs _ ip) in *.
    pose proof (data_nonzero _ _ Hd) as Hnz. rewrite <- Ei in Hnz.
    exists k2, (alloc_view sb nb V), ip', (nb :: T). rewrite (fo_dev _ _ _ _ H4). split.
    { krun E1. rewrite (proj2 (Z.eqb_neq nb 0)) by congruence. krun E2. by rewrite Ei. }
    assert (En : need ip' = 0%nat) by (unfold need; by rewrite decide_False).
    split; [done|]. split; [|split; [|split; [|set_solver]]].
    + split; try done; rewrite ?En; try done.
      * by apply (txr_log _ _ _ _ _ k1).
      * rewrite (only_file_sb i k1), (only_log_sb k); done.
      * intros b Hb. right. by apply H6.
      * rewrite Ei. intros _. by left.
    + split; try done.
      * intros b Hb Hu. apply alloc_view_kept; [apply Hd|done..].
      * intros b Hb. apply alloc_view_inode; [apply Hd|done].
      * by rewrite Ei.
    + etrans; [|exact F2]. by apply only_log_file.
  - exists k, V, ip, T. split; [done|]. split; [done|]. split; [done|]. split; [|done].
    split; try done; [by destruct ip|by intros b].
Qed.

Lemma grown_mapped V ip bn a :
  file_ok sb dev V ip -> 0 <= bn < MAXFILE -> block_addr V ip bn = a -> a <> 0 ->
  grown sb bn a V ip V ip /\ data_block sb V a.
Proof.
  intros [O1 O2 O3] Hbn Ea Ha. split.
  - split; try done; [by destruct ip| |by left|by left|by intros b].
    intros x Hx. by destruct (decide (x = bn)) as [->|].
  - rewrite <- Ea in *. by apply (ao_data _ _ _ _ O3).
Qed.

(** A block behind the indirect block. *)
Lemma bmap_behind i V ip T c k bn :
  on_file i V ip T (S c) k -> ind_addr ip <> 0 -> Z.of_nat NDIRECT <= bn < MAXFILE ->
  let off := (4 * Z.to_nat (bn - Z.of_nat NDIRECT))%nat in
  exists a k' V', (let! bp := fs_bread (i_dev ip) (ind_addr ip) in
      let! x := get_data bp in
      let! addr := bmap_slot (i_dev ip) (get32 x off)
        (fun addr => upd_data bp (put32 off addr) ;; fs_log_write bp) in
      fs_brelse bp ;;
      ret addr) k = Ok a k' /\
    on_file i V' ip (a :: T) c k' /\ grown sb bn a V ip V' ip /\ data_block sb V' a /\ only_log k k'.
Proof.
  intros H Hi Hbn off. destruct H as [H1 H2 H3 H4 H5 H6 H7 H8]. set (ind := ind_addr ip) in *.
  assert (En : need ip = 0%nat) by (unfold need; by rewrite decide_False). rewrite En in H1, H8. simpl in H1, H8. pose proof (fo_addrs _ _ _ _ H4) as OA.
  destruct (ao_ind _ _ _ _ OA Hi) as [Hd1 Hd2]. assert (Hh : home start size ind) by (by apply (data_home start size sb L)).
  destruct (txr_bread V [] T _ k ind H1) as (bp & k1 & E1 & K1 & F1); [apply not_elem_of_nil|by apply txr_home|simpl; lia|].
  assert (Eb : get32 (V ind) off = block_addr V ip bn).
  { unfold block_addr. rewrite decide_False by lia. by rewrite decide_False. }
  rewrite (fo_dev _ _ _ _ H4). setoid_rewrite (bind_Ok _ _ _ _ _ E1).
  setoid_rewrite (bind_Ok _ _ _ _ _ (txr_data _ _ _ _ _ _ bp ind K1 ltac:(by left))). rewrite Eb. unfold bmap_slot.
  destruct (Z.eqb_spec (block_addr V ip bn) 0) as [Hz|Hz].
  - assert (A : can_alloc sb V [(bp, ind)] T k1).
    { split; try done; [by rewrite (only_log_sb k)| |simpl; lia]. by intros b ->%list_elem_of_singleton. }
    destruct (balloc_new V _ T _ k1 _ K1 A H8) as (nb & k2 & E2 & U & Hd & K2 & F2 & Hf2 & M1 & M2).
    pose proof (data_nonzero _ _ Hd) as Hnz. set (V1 := alloc_view sb nb V) in *.
    assert (HM : MAXFILE = 268) by done. assert (HS : Z.to_nat BSIZE = 1024%nat) by done.
    destruct (txr_upd _ _ _ _ _ _ bp ind (put32 off nb) K2) as (k3 & E3 & K3 & F3); [by left|by left| |].
    { assert (Hl : length (V1 ind) = Z.to_nat BSIZE) by (by eapply txr_len).
      rewrite length_put32; [done|]. rewrite Hl, HS. unfold off, NDIRECT in *. lia. }
    destruct (txr_log_write _ _ _ _ _ _ bp ind K3) as (k4 & E4 & K4 & F4);
      [by right|by left|done|right; by apply H7|].
    destruct (txr_brelse _ _ _ _ _ bp ind K4) as (k5 & E5 & K5 & F5).
    destruct (grown_slot V ip bn nb Hbn H4 Hi Hz U Hd M1) as (G & O & Hus); [by eapply txr_len|].
    assert (Hlog : only_log k k5) by (by do 4 (etrans; [eassumption|])).
    eexists nb, k5, _. split; [|split; [|split; [exact G|split; [|exact Hlog]]]].
    + rewrite (bind_Ok _ _ _ nb k4); [by krun E5|]. krun E2. rewrite (proj2 (Z.eqb_neq nb 0)) by done.
      rewrite (bind_Ok _ _ _ tt k4); [done|]. by krun E3.
    + split; try done; rewrite ?En; try done.
      * by rewrite (only_log_sb k).
      * by rewrite (only_log_itable k).
      * intros b Hb. pose proof datastart_pos. rewrite Hus by lia. by apply M2.
      * intros b Hb. right. by apply H6.
      * intros _. right. by apply H7.
      * destruct Hf2 as (fr & Fr1 & Fr2 & Fr3). exists fr. split; [done|]. split; [done|]. intros b Hb.
        destruct (Fr3 b Hb) as [Fr4 Fr5]. split; [done|]. pose proof datastart_pos. by rewrite Hus by lia.
    + destruct Hd as [Hd3 Hd4]. split; [done|]. pose proof datastart_pos. by rewrite Hus by lia.
  - destruct (txr_brelse _ _ _ _ _ bp ind K1) as (k2 & E2 & K2 & F2).
    destruct (grown_mapped V ip bn _ H4 ltac:(unfold NDIRECT in *; lia) eq_refl Hz) as [G Hd].
    exists (block_addr V ip bn), k2, V. split; [by rewrite bind_ret; krun E2|].
    split; [|split; [done|split; [done|by etrans]]].
    split; try done; rewrite ?En.
    + by apply txr_grow.
    + rewrite (only_log_sb k1), (only_log_sb k); done.
    + rewrite (only_log_itable k1), (only_log_itable k); done.
    + intros b Hb. right. by apply H6.
    + intros _. right. by apply H7.
    + eapply has_free_weaken; [exact H8|lia].
Qed.

(** [bmap] of a block that has an address. *)
Lemma bmap_mapped i V ip T c k bn :
  txs V [] None T c k -> k_itable k !! i = Some ip -> file_ok sb dev V ip -> 0 <= bn < MAXFILE ->
  block_addr V ip bn <> 0 ->
  exists k', bmap i bn k = Ok (block_addr V ip bn) k' /\ txs V [] None T c k' /\ only_log k k'.
Proof.
  intros Hk Hi Hok Hbn Ha. unfold bmap. krun (get_inode_ok i k ip Hi).
  destruct (Z.ltb_spec bn (Z.of_nat NDIRECT)) as [Hl|Hl].
  - exists k. split; [|done]. assert (E : i_addrs ip !!! Z.to_nat bn = block_addr V ip bn).
    { unfold block_addr. by rewrite decide_True by lia. }
    unfold bmap_slot. by rewrite E, (proj2 (Z.eqb_neq _ _)).
  - rewrite (proj2 (Z.ltb_lt (bn - Z.of_nat NDIRECT) NINDIRECT)) by (unfold MAXFILE in Hbn; lia).
    change (i_addrs ip !!! NDIRECT) with (ind_addr ip).
    assert (Hind : ind_addr ip <> 0).
    { intros E. apply Ha. unfold block_addr. rewrite decide_False by lia. by rewrite decide_True. }
    destruct (ao_ind _ _ _ _ (fo_addrs _ _ _ _ Hok) Hind) as [Hd1 Hd2].
    destruct (txr_bread V [] T c k (ind_addr ip) Hk) as (bp & k1 & E1 & K1 & F1);
      [apply not_elem_of_nil|by apply txr_home, (data_home start size sb L)|simpl; lia|].
    destruct (txr_brelse _ _ _ _ _ bp _ K1) as (k2 & E2 & K2 & F2).
    exists k2. split; [|split; [done|by etrans]]. unfold bmap_slot at 1.
    rewrite (proj2 (Z.eqb_neq (ind_addr ip) 0)), bind_ret by done.
    rewrite (proj2 (Z.eqb_neq (ind_addr ip) 0)) by done. rewrite (fo_dev _ _ _ _ Hok). krun E1.
    krun (txr_data _ _ _ _ _ _ bp (ind_addr ip) K1 ltac:(by left)).
    assert (E : get32 (V (ind_addr ip)) (4 * Z.to_nat (bn - Z.of_nat NDIRECT)) = block_addr V ip bn).
    { unfold block_addr. rewrite decide_False by lia. by rewrite decide_False. }
    rewrite E. unfold bmap_slot. rewrite (proj2 (Z.eqb_neq _ 0)) by done. rewrite bind_ret. by krun E2.
Qed.

(** [bmap] of any block, when blocks are free. *)
Lemma bmap_ok i V ip T c k bn :
  on_file i V ip T (S c) k -> 0 <= bn < MAXFILE ->
  exists a k' V' ip' T', bmap i bn k = Ok a k' /\ on_file i V' ip' T' c k' /\ a ∈ T' /\
    grown sb bn a V ip V' ip' /\ data_block sb V' a /\ only_file i k k' /\ T ⊆ T'.
Proof.
  intros H Hbn. pose proof (on_ok _ _ _ _ _ _ H) as Hok. pose proof (on_ip _ _ _ _ _ _ H) as Hi.
  unfold bmap. krun (get_inode_ok i k ip Hi).
  destruct (Z.ltb_spec bn (Z.of_nat NDIRECT)) as [Hl|Hl].
  - assert (E : i_addrs ip !!! Z.to_nat bn = block_addr V ip bn).
    { unfold block_addr. by rewrite decide_True by lia. }
    rewrite E. destruct (decide (block_addr V ip bn = 0)) as [Hz|Hz].
    + rewrite Hz. destruct (bmap_direct_new i V ip T c k bn H ltac:(lia) Hz) as (a & k' & V' & ip' & E' & H' & G & Hd & F).
      exists a, k', V', ip', (a :: T). split; [exact E'|]. split; [exact H'|]. split; [by left|].
      split; [done|]. split; [done|]. split; [done|set_solver].
    + destruct (grown_mapped V ip bn _ Hok Hbn eq_refl Hz) as [G Hd].
      exists (block_addr V ip bn), k, V, ip, (block_addr V ip bn :: T).
      split; [unfold bmap_slot; by rewrite (proj2 (Z.eqb_neq _ _))|].
      split; [|split; [by left|split; [done|split; [done|split; [done|set_solver]]]]].
      destruct H as [H1 H2 H3 H4 H5 H6 H7 H8]. rewrite Nat.add_succ_r in H1. split; try done.
      * by apply txr_grow.
      * intros b Hb. right. by apply H6.
      * intros Hn. right. by apply H7.
      * eapply has_free_weaken; [exact H8|lia].
  - rewrite (proj2 (Z.ltb_lt (bn - Z.of_nat NDIRECT) NINDIRECT)) by (unfold MAXFILE in Hbn; lia).
    change (i_addrs ip !!! NDIRECT) with (ind_addr ip).
    destruct (bmap_ind i V ip T (S c) k H) as (k1 & V1 & ip1 & T1 & E1 & Hi1 & H1 & [Q1 Q2 Q3 Q4 Q5 Q6 Q7] & F1 & HT).
    destruct (bmap_behind i V1 ip1 T1 c k1 bn H1 Hi1 ltac:(lia)) as (a & k2 & V2 & E2 & H2 & [G1 G2 G3 G3' G4 G5 G6] & Hd & F2).
    assert (Edev : i_dev ip1 = i_dev ip) by (by rewrite Q1). pose proof datastart_pos as Hpos.
    exists a, k2, V2, ip1, (a :: T1). split.
    { krun E1. rewrite (proj2 (Z.eqb_neq _ 0)) by done. rewrite <- Edev. exact E2. }
    split; [done|]. split; [by left|]. split; [|split; [done|split; [etrans; [exact F1|by apply only_log_file]|set_solver]]].
    split; [done| | | | | |].
    + intros x Hx. rewrite G2 by done. case_decide; [done|]. by apply Q2.
    + rewrite Q2 in G3 by done. destruct G3 as [?|(? & ? & Hu)]; [by left|right]. split; [done|]. split; [done|].
      destruct (used sb V a) eqn:Ea; [|done]. apply Q3 in Ea; [congruence|]. destruct Hd as [? _]. lia.
    + destruct (decide (ind_addr ip = 0)) as [Hz|Hz]; [right|left; auto]. split; [done|]. split; [|auto].
      destruct (ao_ind _ _ _ _ (fo_addrs _ _ _ _ (on_ok _ _ _ _ _ _ H2)) Hi1). done.
    + intros b Hb Hu. by apply G4, Q3.
    + intros b Hb Hu Hne. rewrite <- (Q4 b) by done. apply G5; [done|apply Q3; [lia|done]|].
      destruct (decide (ind_addr ip = 0)) as [Hz|Hz]; [|by rewrite Q6]. intros ->. rewrite Q7 in Hu by done. done.
    + intros b Hb. rewrite G6 by done. by apply Q5.
Qed.

End Files.

(** ** The bytes of a file *)

Definition file_byte (V : Z -> block) (ip : inode) (p : Z) : byte :=
  V (block_addr V ip (p / BSIZE)) !!! Z.to_nat (p mod BSIZE).

Definition file_bytes (V : Z -> block) (ip : inode) (off : Z) (n : nat) : list byte :=
  map (fun j => file_byte V ip (off + Z.of_nat j)) (seq 0 n).

(** No holes below the size. *)
Record whole (V : Z -> block) (ip : inode) : Prop := {
  wh_size : 0 <= i_size ip <= MAXFILE * BSIZE;
  wh_mapped : forall bn, 0 <= bn -> bn * BSIZE < i_size ip -> block_addr V ip bn <> 0
}.

Lemma length_file_bytes V ip off n : length (file_bytes V ip off n) = n.
Proof. unfold file_bytes. by rewrite length_map, length_seq. Qed.

Lemma file_bytes_lookup V ip off n j :
  (j < n)%nat -> file_bytes V ip off n !! j = Some (file_byte V ip (off + Z.of_nat j)).
Proof.
  intros Hj. unfold file_bytes. rewrite list_lookup_fmap, lookup_seq_lt by done. done.
Qed.

Lemma bytes_at_file V ip off n a m :
  (a + m <= n)%nat -> bytes_at (file_bytes V ip off n) a m = file_bytes V ip (off + Z.of_nat a) m.
Proof.
  intros H. apply list_eq. intros j. rewrite bytes_at_lookup. case_decide as Hj.
  - rewrite !file_bytes_lookup by lia. do 2 f_equal. lia.
  - symmetry. apply lookup_ge_None. rewrite length_file_bytes. lia.
Qed.

(** The part of a range in one block. *)
Lemma file_bytes_block V ip off m :
  0 <= off -> (forall b, length (V b) = Z.to_nat BSIZE) -> off mod BSIZE + Z.of_nat m <= BSIZE ->
  bytes_at (V (block_addr V ip (off / BSIZE))) (Z.to_nat (off mod BSIZE)) m = file_bytes V ip off m.
Proof.
  intros H0 HV Hm. assert (HB : BSIZE = 1024) by done. apply list_eq. intros j. rewrite bytes_at_lookup. case_decide as Hj.
  - rewrite file_bytes_lookup by done. unfold file_byte.
    assert (E1 : (off + Z.of_nat j) / BSIZE = off / BSIZE) by (rewrite HB in *; dlia).
    assert (E2 : Z.to_nat ((off + Z.of_nat j) mod BSIZE) = (Z.to_nat (off mod BSIZE) + j)%nat) by (rewrite HB in *; dlia).
    rewrite E1, E2. apply list_lookup_lookup_total_lt. rewrite HV, HB in *. dlia.
  - symmetry. apply lookup_ge_None. rewrite length_file_bytes. lia.
Qed.

(** The number of blocks a range of [n] bytes from [off] on spans. *)
Definition spans (off n : Z) : Z := if decide (n = 0) then 0 else (off mod BSIZE + n - 1) / BSIZE + 1.

Lemma spans_bound off n : 0 <= off -> 0 <= n -> 0 <= spans off n /\ spans off n + 1 <= n / BSIZE + 3.
Proof. intros. unfold spans. assert (HB : BSIZE = 1024) by done. rewrite HB. case_decide; split; dlia. Qed.

(** What is left after the part in the first block. *)
Lemma spans_step off n :
  0 <= off -> 0 < n ->
  let m := Z.min n (BSIZE - off mod BSIZE) in
  0 < m <= n /\ off mod BSIZE + m <= BSIZE /\ spans (off + m) (n - m) = spans off n - 1.
Proof.
  intros H0 H1 m. unfold spans, m. assert (HB : BSIZE = 1024) by done. rewrite HB.
  split_and!; repeat case_decide; dlia.
Qed.

Section Content.
Context {D : Type} `{!DiskDriver D} {mach : Machine} (me : nat) (dev start size : Z).
Context (txs : tx_state D) `{!TxOk me dev (home start size) txs} (sb : superblock).
Hypothesis L : layout start size sb.
Implicit Types (V : Z -> block) (hs : list (nat * Z)) (T : list Z) (k : kernel D) (ip : inode).

(** A destination takes [data] piece by piece; [I n k]: it has the first [n]
    bytes. *)
Record dest_takes (d : dest) (data : list byte) (I : Z -> kernel D -> Prop) : Prop := {
  de_copy : forall k tot m, I tot k -> calm me (k_sys k) -> 0 <= tot -> 0 < m -> tot + m <= Z.of_nat (length data) ->
    exists k', copy_to d tot (bytes_at data (Z.to_nat tot) (Z.to_nat m)) k = Ok 0 k' /\ I (tot + m) k' /\
      k_log k' = k_log k /\ k_itable k' = k_itable k;
  de_log : forall k k' tot, I tot k -> only_log k k' -> I tot k'
}.

Lemma local_takes data : dest_takes ToLocal data (fun _ _ => True).
Proof. split; [|done]. intros k tot m _ _ _ _ _. by exists k. Qed.

(** One round of [readi]. *)
Lemma readi_round i d V ip T c n off data I k tot acc :
  txs V [] None T c k -> k_itable k !! i = Some ip -> file_ok sb dev V ip -> whole V ip -> I tot k ->
  0 <= off -> 0 <= n -> off + n <= i_size ip -> data = file_bytes V ip off (Z.to_nat n) -> dest_takes d data I ->
  0 <= tot < n ->
  let m := Z.min (n - tot) (BSIZE - (off + tot) mod BSIZE) in
  exists k', readi_body i d n (tot, off + tot, acc) k =
      Ok (inl (tot + m, off + tot + m, acc ++ bytes_at data (Z.to_nat tot) (Z.to_nat m))) k' /\
    txs V [] None T c k' /\ k_itable k' = k_itable k /\ I (tot + m) k'.
Proof.
  intros Hk Hi Hok Hw HI H0 Hn Hs Hdata Hd Ht m. assert (HB : BSIZE = 1024) by done. assert (HM : MAXFILE = 268) by done.
  destruct Hw as [W1 W2]. set (p := off + tot) in *.
  assert (Hp : 0 <= p < i_size ip) by (unfold p; lia).
  assert (Hbn : 0 <= p / BSIZE < MAXFILE) by (rewrite HB, HM in *; dlia).
  assert (Ha : block_addr V ip (p / BSIZE) <> 0) by (apply W2; rewrite HB; dlia).
  destruct (spans_step p (n - tot)) as (M1 & M2 & _); [lia|lia|]. fold m in M1, M2.
  destruct (bmap_mapped me dev start size txs sb L i V ip T c k _ Hk Hi Hok Hbn Ha) as (k1 & E1 & K1 & F1).
  set (a := block_addr V ip (p / BSIZE)) in *.
  destruct (ao_data _ _ _ _ (fo_addrs _ _ _ _ Hok) _ Hbn Ha) as [Hd1 _].
  rewrite <- (only_log_itable k k1) in Hi by done.
  destruct (txr_bread V [] T c k1 a K1) as (bp & k2 & E2 & K2 & F2);
    [apply not_elem_of_nil|by apply txr_home, (data_home start size sb L)|simpl; lia|].
  assert (Ebs : bytes_at (V a) (Z.to_nat (p mod BSIZE)) (Z.to_nat m) = bytes_at data (Z.to_nat tot) (Z.to_nat m)).
  { rewrite Hdata, bytes_at_file by lia. rewrite Z2Nat.id by lia. fold p.
    unfold a. rewrite file_bytes_block; [done|lia|intros b; by eapply txr_len|lia]. }
  destruct (de_copy _ _ _ Hd k2 tot m) as (k3 & E3 & I3 & K3 & T3); try lia.
  { eapply (de_log _ _ _ Hd); [|exact F2]. by eapply (de_log _ _ _ Hd). }
  { by eapply txr_calm. }
  { rewrite Hdata, length_file_bytes. lia. }
  apply (txr_log _ _ _ _ _ k2 k3 K3) in K2 as K2'. destruct (txr_brelse _ _ _ _ _ bp _ K2') as (k4 & E4 & K4 & F4).
  exists k4. split; [|split; [done|split; [|by eapply (de_log _ _ _ Hd)]]].
  - unfold readi_body. rewrite (proj2 (Z.ltb_lt _ _)) by lia. cbn [negb]. krun E1.
    rewrite (proj2 (Z.eqb_neq a 0)) by done. krun (get_inode_ok i k1 ip Hi). rewrite (fo_dev _ _ _ _ Hok). krun E2.
    fold m. krun (txr_data _ _ _ _ _ _ bp a K2 ltac:(by left)). rewrite Ebs. krun E3. cbn [Z.eqb]. krun E4.
    unfold ret. rewrite u32_small; [done|]. rewrite HB, HM in *. lia.
  - rewrite (only_log_itable k3 k4), T3, (only_log_itable k1 k2), (only_log_itable k k1); done.
Qed.

Lemma bytes_at_join (x : list byte) a n m : bytes_at x a n ++ bytes_at x (a + n) m = bytes_at x a (n + m).
Proof. unfold bytes_at. rewrite <- drop_drop. apply take_take_drop. Qed.

Lemma readi_loop i d V ip T c n off data I fuel : forall k tot acc,
  txs V [] None T c k -> k_itable k !! i = Some ip -> file_ok sb dev V ip -> whole V ip -> I tot k ->
  0 <= off -> off + n <= i_size ip -> data = file_bytes V ip off (Z.to_nat n) -> dest_takes d data I ->
  0 <= tot <= n -> spans (off + tot) (n - tot) + 1 <= Z.of_nat fuel ->
  exists k', while fuel (readi_body i d n) (tot, off + tot, acc) k =
      Ok (n, acc ++ bytes_at data (Z.to_nat tot) (Z.to_nat (n - tot))) k' /\
    txs V [] None T c k' /\ k_itable k' = k_itable k /\ I n k'.
Proof.
  induction fuel as [|fuel IH]; intros k tot acc Hk Hi Hok Hw HI H0 Hs Hdata Hd Ht Hfuel.
  { pose proof (spans_bound (off + tot) (n - tot)). lia. }
  cbn [while]. destruct (decide (tot = n)) as [->|Hne].
  - exists k. split; [|done]. rewrite (bind_Ok _ _ _ (inr (n, acc)) k).
    + rewrite Z.sub_diag. unfold bytes_at, ret. simpl. by rewrite app_nil_r.
    + unfold readi_body. by rewrite (proj2 (Z.ltb_ge n n)) by lia.
  - destruct (readi_round i d V ip T c n off data I k tot acc Hk Hi Hok Hw HI H0 ltac:(lia) Hs Hdata Hd ltac:(lia))
      as (k1 & E1 & K1 & I1 & J1).
    destruct (spans_step (off + tot) (n - tot)) as (M1 & M2 & M3); [lia|lia|]. set (m := Z.min _ _) in *.
    rewrite (bind_Ok _ _ _ _ _ E1). rewrite <- Z.add_assoc.
    destruct (IH k1 (tot + m) (acc ++ bytes_at data (Z.to_nat tot) (Z.to_nat m))) as (k' & E & K & I' & J); try done; try lia.
    { by rewrite I1. }
    { rewrite Z.add_assoc. replace (n - (tot + m)) with (n - tot - m) by lia. lia. }
    exists k'. split; [|split; [done|split; [congruence|done]]]. rewrite E, <- app_assoc. do 3 f_equal.
    replace (Z.to_nat (tot + m)) with (Z.to_nat tot + Z.to_nat m)%nat by lia. rewrite bytes_at_join. f_equal. lia.
Qed.

(** How much of a range [readi] reads. *)
Definition readable ip (off n : Z) : Z :=
  if decide (off <= i_size ip /\ off + n < 2 ^ 32) then Z.min n (i_size ip - off) else 0.

Lemma readi_ok i d V ip T c k off n I :
  let data := file_bytes V ip off (Z.to_nat (readable ip off n)) in
  txs V [] None T c k -> k_itable k !! i = Some ip -> file_ok sb dev V ip -> whole V ip -> I 0 k ->
  0 <= off < 2 ^ 32 -> 0 <= n < 2 ^ 32 -> dest_takes d data I ->
  exists k', readi i d off n k = Ok (readable ip off n, data) k' /\
    txs V [] None T c k' /\ k_itable k' = k_itable k /\ I (readable ip off n) k'.
Proof.
  intros data Hk Hi Hok Hw HI Ho Hn Hd. unfold readi. krun (get_inode_ok i k ip Hi). unfold data, readable in *.
  destruct (decide (off <= i_size ip /\ off + n < 2 ^ 32)) as [[H1 H2]|Hno].
  - rewrite (proj2 (Z.ltb_ge (i_size ip) off)), (proj2 (Z.ltb_ge (u32 (off + n)) off)) by (rewrite ?u32_small; lia).
    cbn [orb]. set (n' := Z.min n (i_size ip - off)) in *.
    assert (En : (if i_size ip <? off + n then i_size ip - off else n) = n').
    { unfold n'. destruct (Z.ltb_spec (i_size ip) (off + n)); lia. }
    rewrite En. pose proof (spans_bound off n' ltac:(lia) ltac:(lia)).
    destruct (readi_loop i d V ip T c n' off (file_bytes V ip off (Z.to_nat n')) I (Z.to_nat (n' / BSIZE + 3)) k 0 [])
      as (k' & E & K & I' & J); try done; try lia.
    { rewrite Z.add_0_r, Z.sub_0_r. lia. }
    exists k'. rewrite Z.add_0_r, Z.sub_0_r in E. split; [|done]. rewrite E. do 2 f_equal. simpl.
    rewrite bytes_at_file by lia. by rewrite Z.add_0_r.
  - exists k. split; [|done].
    replace ((i_size ip <? off) || (u32 (off + n) <? off)) with true; [done|]. symmetry. apply orb_true_iff.
    rewrite !Z.ltb_lt. destruct (decide (off <= i_size ip)) as [Hle|]; [right|lia].
    assert (Hov : 2 ^ 32 <= off + n) by lia. unfold u32. rewrite <- (Z_mod_plus_full _ (-1)). rewrite Z.mod_small; lia.
Qed.

End Content.
