(* ===== verification/FsUser.v ===== *)
(** * Files and the memory of a process

    [readi] into and [writei] out of user memory: what [copyout] and [copyin]
    move between the pages of the running process and the blocks of a file. *)

From S2P Require Import Prelude Riscv Memory CString Sys Spinlock Proc Kalloc Vm PageTable Uvm UserCopy Sleeplock Either Bio Block Bcache BufCache Log Kernel Machine Fs File LogDisk LogOk LogCrash LogTx FsTx FsBlocks FsFile.

Lemma my_pagetable_ok me (s : kmem) :
  calm me (km_sys s) -> my_pagetable s = Ok (p_pagetable (proc_of (km_sys s) me)) s.
Proof.
  intros Hc. unfold my_pagetable.
  assert (E : zoom km_sysL myproc s = Ok (Some me) s).
  { apply (zoom_read km_sysL). simpl. rewrite myproc_settled by apply Hc. by rewrite (ca_me _ _ Hc). }
  krun E. assert (E2 : zoom km_sysL (deref (Some me)) s = Ok me s) by (by apply (zoom_read km_sysL)). by krun E2.
Qed.

Section User.
Context {D : Type} (me : nat) (kend root va : Z) (t : ptree) (us : umap).
Hypothesis kend_pos : 0 < kend.
Hypothesis distinct : NoDup (pt_pages t ++ upages us).
Hypothesis pages : Forall (page_ok kend) (upages us).
Implicit Types (k : kernel D) (data : list byte).

(** The running process has the address space [us]. *)
Record in_user k : Prop := {
  iu_table : utable kend root t us (k_mem k);
  iu_root : p_pagetable (proc_of (k_sys k) me) = root
}.

Lemma in_user_log k k' : only_log k k' -> in_user k -> in_user k'.
Proof.
  intros F [H1 H2]. split; [by rewrite (only_log_mem k)|]. rewrite (wo_pagetable (k_sys k)); [done|apply F].
Qed.

Lemma in_user_file i k k' : only_file i k k' -> in_user k -> in_user k'.
Proof.
  intros F [H1 H2]. split; [by rewrite (only_file_mem i k)|]. rewrite (wo_pagetable (k_sys k)); [done|apply F].
Qed.

(** The first [n] bytes of [data] are at [va], and the rest of the user's memory
    is as in [m]. *)
Definition delivered (m : mem) data (n : Z) k : Prop :=
  in_user k /\ UserCopy.wrote us m (k_mem k) va (take (Z.to_nat n) data).

Lemma user_takes m data :
  0 <= va -> va + Z.of_nat (length data) < 2 ^ 64 ->
  (forall j, 0 <= j < Z.of_nat (length data) -> uwritable us (va + j) = true) ->
  dest_takes me (ToUser va) data (delivered m data).
Proof.
  intros H0 Hlen Hw. split.
  - intros k tot n [[H1 H2] H3] Hc Ht Hn Htn. set (bs := bytes_at data (Z.to_nat tot) (Z.to_nat n)).
    assert (Elen : length bs = Z.to_nat n) by (unfold bs, bytes_at; rewrite length_take, length_drop; lia).
    set (s := lget k_kmemL k). assert (Hcs : calm me (km_sys s)) by exact Hc.
    destruct (copyout_ok kend root (va + tot) bs t us s kend_pos H1 distinct pages ltac:(lia))
      as (r & m' & E & T' & [(-> & W & _)|(-> & j & Hj & Hbad & _)]).
    + exists (lset k_kmemL (set_km_mem m' s) k). split; [|split; [|split; [|by destruct k as [[[[] ?]]]]]].
      * unfold copy_to. apply (zoom_Ok k_kmemL). fold s. unfold either_copyout. krun (my_pagetable_ok me s Hcs).
        change (proc_of (km_sys s) me) with (proc_of (k_sys k) me). rewrite H2. unfold u64. rewrite Z.mod_small by lia.
        exact E.
      * split; [split|].
        -- exact T'.
        -- by destruct k as [[[[] ?]]].
        -- change (k_mem (lset k_kmemL (set_km_mem m' s) k)) with m'.
           replace (take (Z.to_nat (tot + n)) data) with (take (Z.to_nat tot) data ++ bs).
           ++ eapply wrote_app; [exact H3|]. rewrite length_take, Nat.min_l, Z2Nat.id by lia. exact W.
           ++ unfold bs, bytes_at. rewrite take_take_drop. f_equal. lia.
      * by destruct k as [[[[] ?]]].
    + rewrite Elen in Hj. rewrite <- Z.add_assoc, Hw in Hbad by lia. done.
  - intros k k' tot [H1 H2] F. split; [by eapply in_user_log|]. by rewrite (only_log_mem k).
Qed.

End User.

Section Readi.
Context {D : Type} `{!DiskDriver D} {mach : Machine} (me : nat) (dev start size : Z).
Context (txs : tx_state D) `{!TxOk me dev (home start size) txs} (sb : superblock).
Hypothesis L : layout start size sb.


End Readi.
