(* ===== verification/FsWrite.v ===== *)
(** * Writing files

    [iupdate] and [writei] of [fs.c] in an operation of the log: the on-disk
    inode, the bytes a write replaces, and what it leaves alone. *)

From S2P Require Import Prelude Riscv Memory CString Sys Spinlock Proc Kalloc Vm PageTable Uvm UserCopy Sleeplock Either Bio Block Bcache BufCache Log Kernel Machine Fs File LogDisk LogOk LogCrash LogTx FsTx FsBlocks FsFile FsUser.

(** ** The on-disk inode *)

(** Only bytes [o] to [o + n] differ. *)
Definition only_at (o n : nat) (x x' : block) : Prop :=
  length x' = length x /\ forall a m, (a + m <= o \/ o + n <= a)%nat -> bytes_at x' a m = bytes_at x a m.

#[export] Instance only_at_preorder o n : PreOrder (only_at o n).
Proof.
  split.
  - intros x. by split.
  - intros x y z [H1 H2] [H3 H4]. split; [congruence|]. intros a m Ha. rewrite H4 by done. by apply H2.
Qed.

Lemma only_at_put o n a bs x :
  (o <= a)%nat -> (a + length bs <= o + n)%nat -> (o + n <= length x)%nat -> only_at o n x (put_bytes a bs x).
Proof.
  intros H1 H2 H3. split; [apply length_put_bytes; lia|]. intros a' m Hm. apply bytes_at_put_apart; lia.
Qed.

Lemma only_at_put16 o n a v x :
  (o <= a)%nat -> (a + 2 <= o + n)%nat -> (o + n <= length x)%nat -> only_at o n x (put16 a v x).
Proof. intros. apply only_at_put; rewrite ?length_le_split; lia. Qed.

Lemma only_at_put32 o n a v x :
  (o <= a)%nat -> (a + 4 <= o + n)%nat -> (o + n <= length x)%nat -> only_at o n x (put32 a v x).
Proof. intros. apply only_at_put; rewrite ?length_le_split; lia. Qed.

Lemma get16_only o n x x' a : only_at o n x x' -> (a + 2 <= o \/ o + n <= a)%nat -> get16 x' a = get16 x a.
Proof. intros [_ H] Ha. unfold get16. by rewrite H. Qed.

Lemma get32_only o n x x' a : only_at o n x x' -> (a + 4 <= o \/ o + n <= a)%nat -> get32 x' a = get32 x a.
Proof. intros [_ H] Ha. unfold get32. by rewrite H. Qed.

Lemma put_addrs_only l : forall o n a x,
  (o <= a)%nat -> (a + 4 * length l <= o + n)%nat -> (o + n <= length x)%nat -> only_at o n x (put_addrs a l x).
Proof.
  induction l as [|v l IH]; intros o n a x H1 H2 H3; simpl in *; [done|].
  assert (H : only_at o n x (put32 a v x)) by (apply only_at_put32; lia).
  etrans; [exact H|]. apply IH; [lia|lia|]. destruct H as [-> _]. done.
Qed.

Lemma put_addrs_get l : forall a x k,
  (a + 4 * length l <= length x)%nat -> (k < length l)%nat -> get32 (put_addrs a l x) (a + 4 * k) = u32 (l !!! k).
Proof.
  induction l as [|v l IH]; intros a x k Ha Hk; cbn [put_addrs length] in *; [lia|].
  assert (El : length (put32 a v x) = length x) by (apply length_put32; lia). destruct k as [|k].
  - rewrite Nat.add_0_r. rewrite (get32_only (a + 4) (4 * length l) (put32 a v x)).
    + apply get32_put32. lia.
    + apply put_addrs_only; lia.
    + lia.
  - replace (a + 4 * S k)%nat with (a + 4 + 4 * k)%nat by lia. rewrite IH by lia. done.
Qed.

(** Fields that fit their types. *)
Record dinode_ok (d : dinode) : Prop := {
  do_type : -2 ^ 15 <= d_type d < 2 ^ 15;
  do_major : -2 ^ 15 <= d_major d < 2 ^ 15;
  do_minor : -2 ^ 15 <= d_minor d < 2 ^ 15;
  do_nlink : -2 ^ 15 <= d_nlink d < 2 ^ 15;
  do_size : 0 <= d_size d < 2 ^ 32;
  do_addrs : length (d_addrs d) = S NDIRECT /\ forall a, a ∈ d_addrs d -> 0 <= a < 2 ^ 32
}.

Lemma s16_u16 v : -2 ^ 15 <= v < 2 ^ 15 -> s16 (u16 v) = v.
Proof.
  intros H. unfold s16, u16. rewrite Z.mod_mod by lia. cbv zeta.
  destruct (Z.ltb_spec (v mod 2 ^ 16) (2 ^ 15)); dlia.
Qed.

Lemma only_at_then o n x x' x'' :
  only_at o n x x' -> (length x' = length x -> only_at o n x' x'') -> only_at o n x x''.
Proof. intros H H'. etrans; [exact H|]. apply H', H. Qed.

Lemma put_dinode_only o d x :
  length (d_addrs d) = S NDIRECT -> (o + 64 <= length x)%nat -> only_at o 64 x (put_dinode o d x).
Proof.
  intros Hl Hx. unfold put_dinode. unfold NDIRECT in Hl.
  eapply only_at_then; [|intros E; apply put_addrs_only; lia].
  eapply only_at_then; [|intros E; apply only_at_put32; lia].
  do 3 (eapply only_at_then; [|intros E; apply only_at_put16; lia]).
  apply only_at_put16; lia.
Qed.

(** What is stored is read back. *)
Lemma dinode_roundtrip_ok o d x :
  dinode_ok d -> (o + 64 <= length x)%nat -> dinode_at (put_dinode o d x) o = d.
Proof.
  intros [D1 D2 D3 D4 D5 [D6 D7]] Hx. unfold put_dinode. unfold NDIRECT in *.
  set (x1 := put16 o (d_type d) x). assert (L1 : length x1 = length x) by (apply length_put16; lia).
  set (x2 := put16 (o + 2) (d_major d) x1). assert (L2 : length x2 = length x) by (unfold x2; rewrite length_put16; lia).
  set (x3 := put16 (o + 4) (d_minor d) x2). assert (L3 : length x3 = length x) by (unfold x3; rewrite length_put16; lia).
  set (x4 := put16 (o + 6) (d_nlink d) x3). assert (L4 : length x4 = length x) by (unfold x4; rewrite length_put16; lia).
  set (x5 := put32 (o + 8) (d_size d) x4). assert (L5 : length x5 = length x) by (unfold x5; rewrite length_put32; lia).
  assert (A2 : only_at (o + 2) 62 x1 x2) by (apply only_at_put16; lia).
  assert (A3 : only_at (o + 4) 60 x2 x3) by (apply only_at_put16; lia).
  assert (A4 : only_at (o + 6) 58 x3 x4) by (apply only_at_put16; lia).
  assert (A5 : only_at (o + 8) 56 x4 x5) by (apply only_at_put32; lia).
  assert (A6 : only_at (o + 12) 52 x5 (put_addrs (o + 12) (d_addrs d) x5)) by (apply put_addrs_only; lia).
  set (x6 := put_addrs _ _ _) in *.
  unfold dinode_at. destruct d as [ty ma mi nl sz ad]; cbn [d_type d_major d_minor d_nlink d_size d_addrs] in *.
  f_equal.
  - rewrite (get16_only _ _ _ _ _ A6), (get16_only _ _ _ _ _ A5), (get16_only _ _ _ _ _ A4), (get16_only _ _ _ _ _ A3),
      (get16_only _ _ _ _ _ A2) by lia. unfold x1. rewrite get16_put16 by lia. by apply s16_u16.
  - rewrite (get16_only _ _ _ _ _ A6), (get16_only _ _ _ _ _ A5), (get16_only _ _ _ _ _ A4), (get16_only _ _ _ _ _ A3) by lia.
    unfold x2. rewrite get16_put16 by lia. by apply s16_u16.
  - rewrite (get16_only _ _ _ _ _ A6), (get16_only _ _ _ _ _ A5), (get16_only _ _ _ _ _ A4) by lia.
    unfold x3. rewrite get16_put16 by lia. by apply s16_u16.
  - rewrite (get16_only _ _ _ _ _ A6), (get16_only _ _ _ _ _ A5) by lia.
    unfold x4. rewrite get16_put16 by lia. by apply s16_u16.
  - rewrite (get32_only _ _ _ _ _ A6) by lia. unfold x5. rewrite get32_put32 by lia. by apply u32_small.
  - apply list_eq. intros k. rewrite list_lookup_fmap. destruct (decide (k < 13)%nat) as [Hk|Hk].
    + rewrite lookup_seq_lt by done. change (Some (get32 x6 (o + 12 + 4 * k)) = ad !! k). unfold x6. rewrite put_addrs_get by lia.
      destruct (lookup_lt_is_Some_2 ad k) as [v Hv]; [lia|]. rewrite (list_lookup_total_correct _ _ _ Hv), Hv. f_equal.
      apply u32_small, D7. by eapply list_elem_of_lookup_2.
    + rewrite (lookup_seq_ge 0 (S NDIRECT) k), (lookup_ge_None_2 ad k) by (unfold NDIRECT; lia). done.
Qed.

(** ** What a write changes *)

Section Written.
Context (sb : superblock) (dev start size : Z).
Hypothesis L : layout start size sb.
Implicit Types (V : Z -> block) (ip : inode) (bs : list byte).

(** A new block of the file. *)
Definition fresh_for V (a : Z) : Prop := datastart sb <= a < sb_size sb /\ used sb V a = false.

(** The bytes [bs] were written at [off]. *)
Record written (off : Z) bs V ip V' ip' : Prop := {
  wn_ip : ip' = set_i_addrs (i_addrs ip') ip;
  wn_in : forall j b, bs !! j = Some b ->
    block_addr V' ip' ((off + Z.of_nat j) / BSIZE) <> 0 /\ file_byte V' ip' (off + Z.of_nat j) = b;
  wn_out : forall p, 0 <= p < MAXFILE * BSIZE -> block_addr V ip (p / BSIZE) <> 0 ->
    ~ (off <= p < off + Z.of_nat (length bs)) -> file_byte V' ip' p = file_byte V ip p;
  wn_addr : forall bn, 0 <= bn < MAXFILE -> block_addr V' ip' bn = block_addr V ip bn \/
    block_addr V ip bn = 0 /\ fresh_for V (block_addr V' ip' bn);
  wn_ind : ind_addr ip' = ind_addr ip \/ ind_addr ip = 0 /\ fresh_for V (ind_addr ip');
  wn_used : more_used sb V V';
  wn_other : forall b, data_block sb V b -> b <> ind_addr ip ->
    (forall bn, 0 <= bn < MAXFILE -> block_addr V ip bn <> b) -> V' b = V b;
  wn_inode : forall b, sb_inodestart sb <= b < sb_bmapstart sb -> V' b = V b
}.

Lemma written_nil off V ip : written off [] V ip V ip.
Proof.
  split; try done; [by destruct ip|by left|by left|by intros b].
Qed.

Lemma fresh_earlier V V1 a : more_used sb V V1 -> fresh_for V1 a -> fresh_for V a.
Proof.
  intros H [H1 H2]. pose proof (datastart_pos start size sb L). split; [done|]. destruct (used sb V a) eqn:E; [|done].
  apply H in E; [congruence|lia].
Qed.

Lemma fresh_ne V a b : fresh_for V a -> data_block sb V b -> a <> b.
Proof. intros [_ H1] [_ H2] ->. congruence. Qed.

Lemma written_app off bs bs' V ip V1 ip1 V2 ip2 :
  0 <= off -> off + Z.of_nat (length (bs ++ bs')) <= MAXFILE * BSIZE ->
  written off bs V ip V1 ip1 -> written (off + Z.of_nat (length bs)) bs' V1 ip1 V2 ip2 ->
  written off (bs ++ bs') V ip V2 ip2.
Proof.
  intros H0 Hmax [A1 A2 A3 A4 A5 A6 A7 A8] [B1 B2 B3 B4 B5 B6 B7 B8]. pose proof (datastart_pos start size sb L) as Hp.
  rewrite length_app in Hmax. assert (HB : BSIZE = 1024) by done. assert (HM : MAXFILE = 268) by done.
  assert (Hdiv : forall p, 0 <= p < MAXFILE * BSIZE -> 0 <= p / BSIZE < MAXFILE) by (intros p; rewrite HB, HM; dlia).
  assert (Hkeep : forall bn, 0 <= bn < MAXFILE -> block_addr V1 ip1 bn <> 0 -> block_addr V2 ip2 bn = block_addr V1 ip1 bn).
  { intros bn Hbn Hz. by destruct (B4 bn Hbn) as [?|[? _]]. }
  assert (Hkeep1 : forall bn, 0 <= bn < MAXFILE -> block_addr V ip bn <> 0 -> block_addr V1 ip1 bn = block_addr V ip bn).
  { intros bn Hbn Hz. by destruct (A4 bn Hbn) as [?|[? _]]. }
  split.
  - rewrite B1, A1. by destruct ip.
  - intros j b Hj. apply lookup_app_Some in Hj as [Hj|[Hj1 Hj2]].
    + destruct (A2 j b Hj) as [A21 A22]. apply lookup_lt_Some in Hj.
      split; [rewrite Hkeep by (done || apply Hdiv; lia); done|].
      rewrite B3; [done|lia|done|lia].
    + destruct (B2 _ b Hj2) as [B21 B22]. apply lookup_lt_Some in Hj2.
      replace (off + Z.of_nat (length bs) + Z.of_nat (j - length bs)) with (off + Z.of_nat j) in * by lia. done.
  - intros p Hpr Hz Hout. rewrite length_app in Hout. rewrite B3; [apply A3; [done|done|lia]|done| |lia].
    rewrite Hkeep1; [done|by apply Hdiv|done].
  - intros bn Hbn. destruct (A4 bn Hbn) as [E1|[E1 F1]]; destruct (B4 bn Hbn) as [E2|[E2 F2]].
    + left. congruence.
    + right. split; [congruence|]. by apply (fresh_earlier V V1).
    + right. split; [done|]. by rewrite E2.
    + right. split; [done|]. by apply (fresh_earlier V V1).
  - destruct A5 as [E1|[E1 F1]]; destruct B5 as [E2|[E2 F2]].
    + left. congruence.
    + right. split; [congruence|]. by apply (fresh_earlier V V1).
    + right. split; [done|]. by rewrite E2.
    + right. split; [done|]. by apply (fresh_earlier V V1).
  - intros b Hb Hu. by apply B6, A6.
  - intros b Hd Hi Hn. rewrite <- (A7 b Hd Hi Hn). apply B7.
    + apply (data_block_mono sb V); [lia|done|done].
    + destruct A5 as [->|[_ F]]; [done|]. intros ->. by apply (fresh_ne _ _ _ F Hd).
    + intros bn Hbn. destruct (A4 bn Hbn) as [->|[_ F]]; [by apply Hn|]. by apply (fresh_ne V).
  - intros b Hb. rewrite B8 by done. by apply A8.
Qed.

Lemma in_blocks p : 0 <= p -> p = 1024 * (p / BSIZE) + p mod BSIZE /\ 0 <= p mod BSIZE < 1024 /\ 0 <= p / BSIZE.
Proof. assert (HB : BSIZE = 1024) by done. rewrite HB. intros. dlia. Qed.

(** A store into the block that [bmap] returned. *)
Lemma written_block V ip V1 ip1 off a bs :
  let V2 := upd_view a (put_bytes (Z.to_nat (off mod BSIZE)) bs (V1 a)) V1 in
  0 <= off -> off / BSIZE < MAXFILE -> off mod BSIZE + Z.of_nat (length bs) <= BSIZE ->
  (forall b, length (V1 b) = Z.to_nat BSIZE) -> file_ok sb dev V ip -> file_ok sb dev V1 ip1 ->
  grown sb (off / BSIZE) a V ip V1 ip1 -> data_block sb V1 a ->
  written off bs V ip V2 ip1 /\ file_ok sb dev V2 ip1 /\
  (forall b, 0 <= b < sb_size sb -> used sb V2 b = used sb V1 b).
Proof.
  intros V2 H0 Hbn Hlen HV Hok Hok1 [G1 G2 G3 G4 G5 G6 G7] Hd. pose proof (datastart_pos start size sb L) as Hp.
  assert (HB : BSIZE = 1024) by done. assert (HM : MAXFILE = 268) by done.
  assert (HMB : MAXFILE * BSIZE = 268 * 1024) by done.
  pose proof (in_blocks off H0) as (Eo & Hom & Hbn0'). set (bn := off / BSIZE) in *. set (o := off mod BSIZE) in *.
  assert (Hbn0 : 0 <= bn < MAXFILE) by done.
  pose proof (fo_addrs _ _ _ _ Hok1) as OA. pose proof (fo_addrs _ _ _ _ Hok) as OA0.
  assert (Ea : block_addr V1 ip1 bn = a) by (rewrite G2 by done; by rewrite decide_True).
  assert (Ha : a <> 0) by (destruct Hd; lia).
  assert (Hia : a <> ind_addr ip1) by (rewrite <- Ea; apply (ao_apart _ _ _ _ OA); [done|congruence]).
  assert (Hus : forall b, 0 <= b < sb_size sb -> used sb V2 b = used sb V1 b).
  { intros b Hb. apply (used_other start size); [done|apply Hd|done]. }
  assert (HA : forall x, 0 <= x < MAXFILE -> block_addr V2 ip1 x = block_addr V1 ip1 x).
  { intros x Hx. unfold block_addr, V2. case_decide; [done|]. case_decide; [done|]. by rewrite upd_view_ne. }
  assert (Hold : forall x, 0 <= x < MAXFILE -> block_addr V ip x <> 0 ->
    block_addr V1 ip1 x = block_addr V ip x /\ V1 (block_addr V ip x) = V (block_addr V ip x)).
  { intros x Hx Hz. destruct (ao_data _ _ _ _ OA0 x Hx Hz) as [Hd1 Hd2]. split.
    - rewrite G2 by done. case_decide as E; [|done]. subst x. by destruct G3 as [?|[? _]].
    - apply G6; [done|done|]. by apply (ao_apart _ _ _ _ OA0). }
  assert (Hfb : forall p, 0 <= p < MAXFILE * BSIZE -> block_addr V1 ip1 (p / BSIZE) <> 0 -> file_byte V2 ip1 p =
    if decide (off <= p < off + Z.of_nat (length bs)) then bs !!! Z.to_nat (p - off) else file_byte V1 ip1 p).
  { intros p Hpr Hz. destruct (in_blocks p ltac:(lia)) as (Ep & Hpm & Hx0).
    assert (Hx : 0 <= p / BSIZE < MAXFILE) by lia.
    unfold file_byte. rewrite HA by done. destruct (decide (p / BSIZE = bn)) as [E|E].
    - rewrite E, Ea. unfold V2. rewrite upd_view_eq, !list_lookup_total_alt, put_bytes_lookup by (rewrite HV; lia).
      assert (Hin' : off <= p < off + Z.of_nat (length bs) <->
        (Z.to_nat o <= Z.to_nat (p mod BSIZE) < Z.to_nat o + length bs)%nat) by lia.
      destruct (decide (off <= p < _)) as [Hin|Hin]; [rewrite decide_True by tauto|by rewrite decide_False by tauto].
      do 2 f_equal. lia.
    - unfold V2. rewrite upd_view_ne.
      + rewrite decide_False; [done|]. lia.
      + rewrite <- Ea. intros E'. apply E. by apply (ao_inj _ _ _ _ OA). }
  split; [|split; [|done]].
  - split; [done| | | |done| | |].
    + intros j b Hj. pose proof (lookup_lt_Some _ _ _ Hj).
      destruct (in_blocks (off + Z.of_nat j) ltac:(lia)) as (Ej & Hjm & Hj0).
      assert (E1 : (off + Z.of_nat j) / BSIZE = bn) by lia.
      rewrite Hfb, decide_True; [|lia|lia|rewrite E1; congruence].
      rewrite E1, HA, Ea by done. split; [done|]. apply list_lookup_total_correct. rewrite <- Hj. f_equal. lia.
    + intros p Hpr Hz Hout. destruct (in_blocks p ltac:(lia)) as (Ep & Hpm & Hx0).
      assert (Hx : 0 <= p / BSIZE < MAXFILE) by lia.
      destruct (Hold _ Hx Hz) as [E1 E2]. rewrite Hfb, decide_False; [|done|done|by rewrite E1].
      unfold file_byte. by rewrite E1, E2.
    + intros x Hx. rewrite HA, G2 by done. destruct (decide (x = bn)) as [->|]; [|by left].
      destruct G3 as [->|(E1 & _ & E2)]; [by left|right]. split; [done|]. split; [apply Hd|done].
    + intros b Hb Hu. rewrite Hus by done. by apply G5.
    + intros b [Hb1 Hb2] Hi Hn. unfold V2. rewrite upd_view_ne; [by apply G6|]. intros ->.
      destruct G3 as [E|(_ & _ & E)]; [by apply (Hn bn)|congruence].
    + intros b Hb. unfold V2. rewrite upd_view_ne; [by apply G7|]. destruct Hd as [Hd _].
      pose proof (layout_order start size sb L). lia.
  - split; [apply Hok1|apply Hok1|]. eapply (addrs_ok_mono sb V1); [lia| |exact HA|exact OA].
    intros b Hb Hu. by rewrite Hus.
Qed.

End Written.

(** ** [iupdate] *)

Lemma IBLOCK_range start size sb inum :
  layout start size sb -> 0 <= inum < sb_ninodes sb ->
  home start size (IBLOCK inum sb) /\ sb_inodestart sb <= IBLOCK inum sb < sb_bmapstart sb.
Proof.
  intros [L1 L2 L3 [L4 L4'] L5] Hi. assert (HB : BPB = 8192) by done. assert (HI : IPB = 16) by done. rewrite HB, HI in *.
  assert (E : IBLOCK inum sb = inum / 16 + sb_inodestart sb) by (unfold IBLOCK; rewrite HI; apply u32_small; dlia).
  rewrite E. unfold home, in_log. split; [split|]; dlia.
Qed.

Lemma dinode_off_range inum : (dinode_off inum + 64 <= Z.to_nat BSIZE)%nat.
Proof.
  unfold dinode_off. assert (HI : IPB = 16) by done. rewrite HI. unfold sizeof_dinode.
  assert (0 <= inum mod 16 < 16) by dlia. change (Z.to_nat BSIZE) with 1024%nat. lia.
Qed.

(** A change of a block before the bitmap moves nothing. *)
Lemma inode_block_apart start size sb dev V ip b x :
  layout start size sb -> file_ok sb dev V ip -> b < sb_bmapstart sb ->
  (forall bn, block_addr (upd_view b x V) ip bn = block_addr V ip bn) /\
  (forall b', 0 <= b' < sb_size sb -> used sb (upd_view b x V) b' = used sb V b').
Proof.
  intros L Hok Hb. split.
  - intros bn. unfold block_addr. case_decide; [done|]. case_decide as Hi; [done|]. rewrite upd_view_ne; [done|].
    destruct (ao_ind _ _ _ _ (fo_addrs _ _ _ _ Hok) Hi) as [Hd _].
    pose proof (layout_order start size sb L). lia.
  - intros b' Hb'. unfold used. rewrite upd_view_ne; [done|].
    destruct (BBLOCK_range start size sb b' L Hb') as (_ & _ & ?). lia.
Qed.

Section Writei.
Context {D : Type} `{!DiskDriver D} {mach : Machine} (me : nat) (dev start size : Z).
Context (txs : tx_state D) `{!TxOk me dev (home start size) txs} (sb : superblock).
Hypothesis L : layout start size sb.
Implicit Types (V : Z -> block) (T : list Z) (k : kernel D) (ip : inode) (data : list byte).

Local Abbreviation on_file := (on_file dev txs sb).

(** The block of the on-disk inode after [iupdate]. *)
Definition inode_view ip V : Z -> block :=
  upd_view (IBLOCK (i_inum ip) sb)
    (put_dinode (dinode_off (i_inum ip)) (dinode_of ip) (V (IBLOCK (i_inum ip) sb))) V.

Lemma iupdate_ok i V ip T c k :
  on_file i V ip T c k -> 0 <= i_inum ip < sb_ninodes sb -> IBLOCK (i_inum ip) sb ∈ T ->
  exists k', iupdate i k = Ok tt k' /\ on_file i (inode_view ip V) ip T c k' /\ only_log k k'.
Proof.
  intros [H1 H2 H3 H4 H5 H6 H7 H8] Hin HT. destruct (IBLOCK_range start size sb _ L Hin) as [Hh Hr].
  set (b := IBLOCK (i_inum ip) sb) in *. set (f := put_dinode (dinode_off (i_inum ip)) (dinode_of ip)).
  destruct (txr_bread V [] T _ k b H1) as (bp & k1 & E1 & K1 & F1); [apply not_elem_of_nil|by apply txr_home|simpl; lia|].
  destruct (txr_upd _ _ _ _ _ _ bp b f K1) as (k2 & E2 & K2 & F2); [by left|by left| |].
  { assert (Hl : length (V b) = Z.to_nat BSIZE) by (by eapply txr_len). pose proof (dinode_off_range (i_inum ip)).
    destruct (put_dinode_only (dinode_off (i_inum ip)) (dinode_of ip) (V b)) as [E _]; [apply H4|lia|].
    unfold f. by rewrite E. }
  destruct (txr_log_write _ _ _ _ _ _ bp b K2) as (k3 & E3 & K3 & F3); [by right|by left|done|done|].
  destruct (txr_brelse _ _ _ _ _ bp b K3) as (k4 & E4 & K4 & F4).
  assert (Hlog : only_log k k4) by (by do 3 (etrans; [eassumption|])).
  exists k4. split; [|split; [|done]].
  - unfold iupdate. krun (get_inode_ok i k ip H3). rewrite bind_gets, H2. rewrite (fo_dev _ _ _ _ H4). fold b. krun E1.
    krun E2. krun E3. exact E4.
  - destruct (inode_block_apart start size sb dev V ip b (f (V b)) L H4) as [HA Hu]; [lia|].
    pose proof (layout_order start size sb L).
    split; try done.
    + by rewrite (only_log_sb k).
    + by rewrite (only_log_itable k).
    + destruct H4 as [O1 O2 O3]. split; [done|done|]. eapply (addrs_ok_mono sb V); [lia| |intros bn _; apply HA|done].
      intros b' Hb' Hub. unfold inode_view. fold b f. by rewrite Hu.
    + intros b' Hb'. unfold inode_view. fold b f. rewrite Hu by lia. by apply H5.
    + destruct H8 as (fr & Fr1 & Fr2 & Fr3). exists fr. split; [done|]. split; [done|]. intros b' Hb'.
      destruct (Fr3 b' Hb') as [Fr4 Fr5]. split; [done|]. unfold inode_view. fold b f. by rewrite Hu by lia.
Qed.

(** ** The loop *)

(** A source gives [data] piece by piece, whatever happens to the file. *)
Record src_gives (s : src) data (J : kernel D -> Prop) : Prop := {
  sg_copy : forall k tot m, J k -> calm me (k_sys k) -> 0 <= tot -> 0 < m -> tot + m <= Z.of_nat (length data) ->
    copy_from s tot m k = Ok (0, bytes_at data (Z.to_nat tot) (Z.to_nat m)) k;
  sg_file : forall i k k', J k -> only_file i k k' -> J k'
}.

Lemma local_gives data : src_gives (FromLocal data) data (fun _ => True).
Proof. by split. Qed.

Lemma writei_round i s V ip T c k data J off tot :
  let n := Z.of_nat (length data) in
  let p := off + tot in
  let m := Z.min (n - tot) (BSIZE - p mod BSIZE) in
  on_file i V ip T (S c) k -> J k -> src_gives s data J -> 0 <= off -> off + n <= MAXFILE * BSIZE -> 0 <= tot < n ->
  exists k' V' ip' T', writei_body i s n (tot, p) k = Ok (inl (tot + m, p + m)) k' /\ on_file i V' ip' T' c k' /\
    J k' /\ only_file i k k' /\ written sb p (bytes_at data (Z.to_nat tot) (Z.to_nat m)) V ip V' ip' /\ T ⊆ T'.
Proof.
  intros n p m Hon HJ Hs H0 Hmax Ht. assert (HMB : MAXFILE * BSIZE = 268 * 1024) by done.
  assert (HM : MAXFILE = 268) by done. destruct (in_blocks p ltac:(lia)) as (Ep & Hpm & Hp0).
  destruct (spans_step p (n - tot)) as (M1 & M2 & _); [lia|lia|]. fold m in M1, M2.
  destruct (bmap_ok me dev start size txs sb L i V ip T c k (p / BSIZE) Hon) as (a & k1 & V1 & ip1 & T1 & E1 & Hon1 & HaT & G & Hd & F1 & HT);
    [lia|].
  pose proof (on_ok _ _ _ _ _ _ _ _ _ Hon1) as Hok1. pose proof (on_tx _ _ _ _ _ _ _ _ _ Hon1) as K1.
  pose proof (on_ip _ _ _ _ _ _ _ _ _ Hon1) as Hi1.
  assert (Hh : home start size a) by (apply (data_home start size sb L), Hd).
  destruct (txr_bread V1 [] T1 _ k1 a K1) as (bp & k2 & E2 & K2 & F2); [apply not_elem_of_nil|by apply txr_home|simpl; lia|].
  set (bs := bytes_at data (Z.to_nat tot) (Z.to_nat m)).
  assert (Ebs : length bs = Z.to_nat m) by (unfold bs, bytes_at; rewrite length_take, length_drop; lia).
  assert (J2 : J k2) by (eapply (sg_file _ _ _ Hs i), only_log_file, F2; by eapply (sg_file _ _ _ Hs)).
  assert (E3 : copy_from s tot m k2 = Ok (0, bs) k2).
  { apply (sg_copy _ _ _ Hs); [done|by eapply txr_calm|lia|lia|lia]. }
  assert (HV : forall b, length (V1 b) = Z.to_nat BSIZE) by (intros b; by eapply txr_len).
  set (f := put_bytes (Z.to_nat (p mod BSIZE)) bs).
  destruct (txr_upd _ _ _ _ _ _ bp a f K2) as (k4 & E4 & K4 & F4); [by left|by left| |].
  { unfold f. rewrite length_put_bytes; [apply HV|]. rewrite HV, Ebs. change (Z.to_nat BSIZE) with 1024%nat.
    change BSIZE with 1024 in M2. lia. }
  destruct (txr_log_write _ _ _ _ _ _ bp a K4) as (k5 & E5 & K5 & F5); [by right|by left|done|done|].
  destruct (txr_brelse _ _ _ _ _ bp a K5) as (k6 & E6 & K6 & F6).
  assert (Hlog : only_log k1 k6) by (by do 3 (etrans; [eassumption|])).
  destruct (written_block sb dev start size L V ip V1 ip1 p a bs) as (W & Hok2 & Hus); try done; [lia|lia|lia|apply Hon|].
  exists k6, (upd_view a (f (V1 a)) V1), ip1, T1. split; [|split; [|split; [|split; [|split; [done|done]]]]].
  - unfold writei_body. rewrite (proj2 (Z.ltb_lt _ _)) by lia. cbn [negb]. krun E1.
    rewrite (proj2 (Z.eqb_neq a 0)) by (by eapply (data_nonzero start size sb L)). krun (get_inode_ok i k1 ip1 Hi1).
    rewrite (fo_dev _ _ _ _ Hok1). krun E2. fold m. krun E3. krun E4. cbn [Z.eqb]. krun E5. krun E6.
    unfold ret. rewrite u32_small; [done|]. lia.
  - destruct Hon1 as [H1 H2 H3 H4 H5 H6 H7 H8]. pose proof (layout_order start size sb L).
    split; try done.
    + by rewrite (only_log_sb k1).
    + by rewrite (only_log_itable k1).
    + intros b Hb. rewrite Hus by lia. by apply H5.
    + destruct H8 as (fr & Fr1 & Fr2 & Fr3). exists fr. split; [done|]. split; [done|]. intros b Hb.
      destruct (Fr3 b Hb) as [Fr4 Fr5]. split; [done|]. by rewrite Hus by lia.
  - eapply (sg_file _ _ _ Hs i); [exact J2|]. apply only_log_file. by do 2 (etrans; [eassumption|]).
  - etrans; [exact F1|]. by apply only_log_file.
Qed.

Lemma writei_loop i s data J off fuel : forall k V ip T c tot,
  let n := Z.of_nat (length data) in
  on_file i V ip T (Z.to_nat (spans (off + tot) (n - tot)) + c)%nat k -> J k -> src_gives s data J ->
  0 <= off -> off + n <= MAXFILE * BSIZE -> 0 <= tot <= n -> spans (off + tot) (n - tot) + 1 <= Z.of_nat fuel ->
  exists k' V' ip' T', while fuel (writei_body i s n) (tot, off + tot) k = Ok (n, off + n) k' /\
    on_file i V' ip' T' c k' /\ only_file i k k' /\
    written sb (off + tot) (bytes_at data (Z.to_nat tot) (Z.to_nat (n - tot))) V ip V' ip' /\ T ⊆ T'.
Proof.
  induction fuel as [|fuel IH]; intros k V ip T c tot n Hon HJ Hs H0 Hmax Ht Hfuel.
  { pose proof (spans_bound (off + tot) (n - tot)). lia. }
  cbn [while]. destruct (decide (tot = n)) as [->|Hne].
  - rewrite Z.sub_diag in *. exists k, V, ip, T. rewrite (bind_Ok _ _ _ (inr (n, off + n)) k).
    + split; [done|]. split; [done|]. split; [done|]. split; [|done]. apply written_nil.
    + unfold writei_body. by rewrite (proj2 (Z.ltb_ge n n)) by lia.
  - destruct (spans_step (off + tot) (n - tot)) as (M1 & M2 & M3); [lia|lia|]. set (m := Z.min _ _) in *.
    pose proof (spans_bound (off + tot + m) (n - tot - m) ltac:(lia) ltac:(lia)) as [Hsp _].
    replace (Z.to_nat (spans (off + tot) (n - tot)) + c)%nat
      with (S (Z.to_nat (spans (off + tot + m) (n - tot - m)) + c)) in Hon by lia.
    destruct (writei_round i s V ip T _ k data J off tot Hon HJ Hs H0 Hmax ltac:(lia))
      as (k1 & V1 & ip1 & T1 & E1 & Hon1 & J1 & F1 & W1 & HT1). fold n m in E1, W1.
    rewrite (bind_Ok _ _ _ _ _ E1). rewrite <- Z.add_assoc in Hon1 |- *.
    replace (n - tot - m) with (n - (tot + m)) in * by lia.
    destruct (IH k1 V1 ip1 T1 c (tot + m) Hon1 J1 Hs H0 Hmax ltac:(lia)) as (k2 & V2 & ip2 & T2 & E2 & Hon2 & F2 & W2 & HT2).
    { fold n. rewrite <- Z.add_assoc in M3. lia. }
    exists k2, V2, ip2, T2. split; [exact E2|]. split; [done|]. split; [by etrans|]. split; [|by etrans].
    fold n in W2. replace (Z.to_nat (n - tot)) with (Z.to_nat m + Z.to_nat (n - (tot + m)))%nat by lia.
    rewrite <- bytes_at_join.
    assert (E3 : length (bytes_at data (Z.to_nat tot) (Z.to_nat m)) = Z.to_nat m).
    { unfold bytes_at. rewrite length_take, length_drop. lia. }
    apply (written_app sb start size L _ _ _ V ip V1 ip1); [lia| |done|].
    + rewrite length_app, E3. unfold bytes_at. rewrite length_take, length_drop. lia.
    + rewrite E3, Z2Nat.id by lia. replace (Z.to_nat tot + Z.to_nat m)%nat with (Z.to_nat (tot + m)) by lia.
      by rewrite <- Z.add_assoc.
Qed.

(** The addresses of a file fit their fields. *)
Lemma file_addrs_range V ip : file_ok sb dev V ip -> forall a, a ∈ i_addrs ip -> 0 <= a < 2 ^ 32.
Proof.
  intros [O1 O2 O3] a (j & Hj)%list_elem_of_lookup. pose proof (lookup_lt_Some _ _ _ Hj) as Hlt.
  pose proof (layout_order start size sb L). pose proof (ly_size _ _ _ L).
  destruct (decide (a = 0)) as [->|Ha]; [lia|]. assert (Hd : data_block sb V a); [|destruct Hd; lia].
  destruct (decide (j = NDIRECT)) as [->|Hne].
  - assert (Ei : ind_addr ip = a) by (by apply list_lookup_total_correct). rewrite <- Ei in *. by apply (ao_ind _ _ _ _ O3).
  - unfold NDIRECT in *. assert (Eb : block_addr V ip (Z.of_nat j) = a).
    { unfold block_addr. rewrite decide_True by (unfold NDIRECT; lia). rewrite Nat2Z.id. by apply list_lookup_total_correct. }
    rewrite <- Eb in *. apply (ao_data _ _ _ _ O3); [|done]. change MAXFILE with 268. lia.
Qed.

(** After a write: the new size and bytes, on disk and in memory, and what
    stays. *)
Record stored (off : Z) data V ip V' ip' : Prop := {
  st_ip : ip' = set_i_size (Z.max (i_size ip) (off + Z.of_nat (length data))) (set_i_addrs (i_addrs ip') ip);
  st_ok : file_ok sb dev V' ip';
  st_whole : whole V' ip';
  st_bytes : forall p, 0 <= p < i_size ip' -> file_byte V' ip' p =
    if decide (off <= p < off + Z.of_nat (length data)) then data !!! Z.to_nat (p - off) else file_byte V ip p;
  st_disk : dinode_at (V' (IBLOCK (i_inum ip) sb)) (dinode_off (i_inum ip)) = dinode_of ip';
  st_inode : only_at (dinode_off (i_inum ip)) 64 (V (IBLOCK (i_inum ip) sb)) (V' (IBLOCK (i_inum ip) sb));
  st_inodes : forall b, sb_inodestart sb <= b < sb_bmapstart sb -> b <> IBLOCK (i_inum ip) sb -> V' b = V b;
  st_other : forall b, data_block sb V b -> b <> ind_addr ip ->
    (forall bn, 0 <= bn < MAXFILE -> block_addr V ip bn <> b) -> V' b = V b;
  st_used : more_used sb V V'
}.

Lemma written_stored off data V ip V1 ip1 :
  let sz := Z.max (i_size ip) (off + Z.of_nat (length data)) in
  let ip2 := set_i_size sz ip1 in
  written sb off data V ip V1 ip1 -> file_ok sb dev V ip -> file_ok sb dev V1 ip1 -> whole V ip ->
  dinode_ok (dinode_of ip) -> (forall b, length (V1 b) = Z.to_nat BSIZE) ->
  0 <= off <= i_size ip -> off + Z.of_nat (length data) <= MAXFILE * BSIZE -> 0 <= i_inum ip < sb_ninodes sb ->
  file_ok sb dev (inode_view ip2 V1) ip2 -> stored off data V ip (inode_view ip2 V1) ip2.
Proof.
  intros sz ip2 W Hok Hok1 [Wh1 Wh2] Hdi HV Ho Hmax Hin Hok2. assert (HMB : MAXFILE * BSIZE = 268 * 1024) by done.
  assert (HM : MAXFILE = 268) by done. assert (HB : BSIZE = 1024) by done.
  destruct W as [W1 W2 W3 W4 W5 W6 W7 W8]. pose proof (layout_order start size sb L) as HL.
  assert (En : i_inum ip1 = i_inum ip) by (by rewrite W1). destruct (IBLOCK_range start size sb _ L Hin) as [_ Hr].
  set (b0 := IBLOCK (i_inum ip) sb) in *. set (o := dinode_off (i_inum ip)).
  assert (EV : forall b, b <> b0 -> inode_view ip2 V1 b = V1 b).
  { intros b Hb. unfold inode_view. apply upd_view_ne. simpl. by rewrite En. }
  assert (E0 : inode_view ip2 V1 b0 = put_dinode o (dinode_of ip2) (V1 b0)).
  { unfold inode_view. simpl. rewrite En. apply upd_view_eq. }
  assert (HA : forall x, block_addr (inode_view ip2 V1) ip2 x = block_addr V1 ip1 x).
  { intros x. apply (inode_block_apart start size sb dev V1 ip1); [done|done|]. simpl. rewrite En. fold b0. lia. }
  assert (Hfb : forall p, 0 <= p < MAXFILE * BSIZE -> block_addr V1 ip1 (p / BSIZE) <> 0 ->
    file_byte (inode_view ip2 V1) ip2 p = file_byte V1 ip1 p).
  { intros p Hp Hz. unfold file_byte. rewrite HA, EV; [done|]. destruct (in_blocks p ltac:(lia)) as (? & ? & ?).
    destruct (ao_data _ _ _ _ (fo_addrs _ _ _ _ Hok1) (p / BSIZE) ltac:(lia) Hz) as [? _]. lia. }
  assert (Hkeep : forall bn, 0 <= bn < MAXFILE -> block_addr V ip bn <> 0 -> block_addr V1 ip1 bn <> 0).
  { intros bn Hbn Hz. destruct (W4 bn Hbn) as [->|[? _]]; done. }
  assert (Hwin : forall p, off <= p < off + Z.of_nat (length data) ->
    block_addr V1 ip1 (p / BSIZE) <> 0 /\ file_byte V1 ip1 p = data !!! Z.to_nat (p - off)).
  { intros p Hp. destruct (lookup_lt_is_Some_2 data (Z.to_nat (p - off))) as [b Hb]; [lia|].
    rewrite (list_lookup_total_correct _ _ _ Hb). specialize (W2 _ _ Hb).
    replace (off + Z.of_nat (Z.to_nat (p - off))) with p in W2 by lia. exact W2. }
  assert (Hold : forall p, 0 <= p < i_size ip -> block_addr V ip (p / BSIZE) <> 0).
  { intros p Hp. destruct (in_blocks p ltac:(lia)) as (? & ? & ?). apply Wh2; lia. }
  assert (Hdok : dinode_ok (dinode_of ip2)).
  { destruct Hdi as [D1 D2 D3 D4 D5 D6]. unfold ip2. split; simpl; try (rewrite W1; done); [unfold sz; lia|].
    split; [apply Hok1|]. by apply (file_addrs_range V1). }
  assert (Hl : (o + 64 <= length (V1 b0))%nat) by (rewrite HV; apply dinode_off_range).
  split.
  - unfold ip2. rewrite W1. by destruct ip.
  - done.
  - split; [unfold ip2; simpl; unfold sz; lia|]. intros bn Hb Hs. rewrite HA. unfold ip2, sz in Hs. simpl in Hs.
    assert (Eb : bn * BSIZE / BSIZE = bn) by (apply Z.div_mul; lia).
    destruct (decide (bn * BSIZE < i_size ip)) as [Hlt|Hge].
    + apply Hkeep; [lia|]. by apply Wh2.
    + destruct (Hwin (bn * BSIZE)) as [Hz _]; [lia|]. by rewrite Eb in Hz.
  - intros p Hp. unfold ip2, sz in Hp. simpl in Hp. case_decide as Hr'.
    + destruct (Hwin p Hr') as [H1 H2]. rewrite Hfb; [done|lia|done].
    + assert (Hpo : 0 <= p < i_size ip) by lia. pose proof (Hold p Hpo) as Hz. destruct (in_blocks p ltac:(lia)) as (? & ? & ?).
      rewrite Hfb; [by apply W3; [lia|done|done]|lia|apply Hkeep; [lia|done]].
  - fold b0 o. rewrite E0. by apply dinode_roundtrip_ok.
  - fold b0 o. rewrite E0. rewrite <- (W8 b0) by lia. apply put_dinode_only; [apply Hok1|done].
  - intros b Hb Hne. rewrite EV by done. by apply W8.
  - intros b Hd Hi Hn. rewrite EV by (destruct Hd; lia). by apply W7.
  - intros b Hb Hu. destruct (inode_block_apart start size sb dev V1 ip1 b0 (put_dinode o (dinode_of ip2) (V1 b0)) L Hok1) as [_ Hu2]; [lia|].
    unfold inode_view. simpl. rewrite En. fold b0 o. rewrite Hu2 by done. by apply W6.
Qed.

Lemma writei_ok i s V ip T c k data J off :
  let n := Z.of_nat (length data) in
  on_file i V ip T (Z.to_nat (spans off n) + c)%nat k -> J k -> src_gives s data J ->
  whole V ip -> dinode_ok (dinode_of ip) -> 0 <= i_inum ip < sb_ninodes sb -> IBLOCK (i_inum ip) sb ∈ T ->
  0 <= off <= i_size ip -> off + n <= MAXFILE * BSIZE ->
  exists k' V' ip' T', writei i s off n k = Ok n k' /\ on_file i V' ip' T' c k' /\ only_file i k k' /\
    stored off data V ip V' ip'.
Proof.
  intros n Hon HJ Hs Hw Hdi Hin HT Ho Hmax. assert (HMB : MAXFILE * BSIZE = 268 * 1024) by done.
  pose proof (on_ok _ _ _ _ _ _ _ _ _ Hon) as Hok. pose proof (on_ip _ _ _ _ _ _ _ _ _ Hon) as Hi.
  pose proof (spans_bound off n ltac:(lia) ltac:(lia)) as [_ Hsp].
  destruct (writei_loop i s data J off (Z.to_nat (n / BSIZE + 3)) k V ip T c 0) as (k1 & V1 & ip1 & T1 & E1 & Hon1 & F1 & W1 & HT1);
    fold n; rewrite ?Z.add_0_r, ?Z.sub_0_r in *; try done; try lia.
  fold n in E1, W1. assert (Ed : bytes_at data (Z.to_nat 0) (Z.to_nat n) = data).
  { unfold bytes_at. simpl. apply take_ge. lia. }
  rewrite Ed in W1. pose proof (on_ip _ _ _ _ _ _ _ _ _ Hon1) as Hi1.
  assert (Esz : i_size ip1 = i_size ip) by (by rewrite (wn_ip _ _ _ _ _ _ _ W1)).
  assert (Einum : i_inum ip1 = i_inum ip) by (by rewrite (wn_ip _ _ _ _ _ _ _ W1)).
  set (ip2 := set_i_size (Z.max (i_size ip) (off + n)) ip1).
  assert (H2 : exists k2, (if i_size ip1 <? off + n then upd_inode i (set_i_size (off + n)) else ret tt) k1 = Ok tt k2 /\
    on_file i V1 ip2 T1 c k2 /\ only_file i k1 k2).
  { destruct (Z.ltb_spec (i_size ip1) (off + n)) as [Hlt|Hge].
    - destruct (upd_inode_ok i (set_i_size (off + n)) k1 ip1 Hi1) as (k2 & E2 & I2 & K2 & F2).
      exists k2. split; [done|]. split; [|done]. unfold ip2. rewrite Z.max_r by lia.
      destruct Hon1 as [A1 A2 A3 A4 A5 A6 A7 A8]. split; try done.
      + by apply (txr_log _ _ _ _ _ k1).
      + by rewrite (only_file_sb i k1).
      + by destruct A4.
    - exists k1. split; [done|]. split; [|done]. unfold ip2. rewrite Z.max_l, <- Esz by lia.
      replace (set_i_size (i_size ip1) ip1) with ip1 by (by destruct ip1). done. }
  destruct H2 as (k2 & E2 & Hon2 & F2).
  destruct (iupdate_ok i V1 ip2 T1 c k2 Hon2) as (k3 & E3 & Hon3 & F3);
    [simpl; by rewrite Einum|simpl; rewrite Einum; by apply HT1|].
  exists k3, (inode_view ip2 V1), ip2, T1. split; [|split; [done|split]].
  - unfold writei. krun (get_inode_ok i k ip Hi). rewrite (proj2 (Z.ltb_ge (i_size ip) off)) by lia.
    rewrite (proj2 (Z.ltb_ge (u32 (off + n)) off)) by (rewrite u32_small; lia). cbn [orb].
    rewrite (proj2 (Z.ltb_ge (MAXFILE * BSIZE) (off + n))) by lia. krun E1. krun (get_inode_ok i k1 ip1 Hi1).
    krun E2. by krun E3.
  - etrans; [exact F1|]. etrans; [exact F2|]. by apply only_log_file.
  - apply written_stored; try done; [apply Hon1| |apply Hon3].
    intros b. eapply (txr_len _ _ _ _ _ _ b), Hon1.
Qed.

End Writei.
