(* ===== verification/FsOp.v ===== *)
(** * File system operations as a whole

    [writei] with data of the user, and a write between [begin_op] and
    [end_op]: whatever prefix of its disk writes a crash lets through, the disk
    that recovery restores holds the file as before the write or as after it. *)

From S2P Require Import Prelude Riscv Memory CString Sys Spinlock Proc Kalloc Vm PageTable Uvm UserCopy Sleeplock Either Bio Block Bcache BufCache Log Kernel Machine Fs File LogDisk LogOk LogCrash LogTx FsTx FsBlocks FsFile FsUser FsWrite.

(** ** Data of the user *)

Lemma ubytes_sub us m va data a n :
  ubytes us m va (length data) = Some data -> (a + n <= length data)%nat ->
  ubytes us m (va + Z.of_nat a) n = Some (bytes_at data a n).
Proof.
  intros H Hn. replace (length data) with (a + (n + (length data - a - n)))%nat in H by lia.
  rewrite ubytes_app in H. destruct (ubytes us m va a) as [b1|] eqn:E1; [|done]. simpl in H.
  rewrite ubytes_app in H. destruct (ubytes us m (va + Z.of_nat a) n) as [b2|] eqn:E2; [|done]. simpl in H.
  destruct (ubytes us m (va + Z.of_nat a + Z.of_nat n) _) as [b3|]; [|done]. simpl in H. injection H as <-.
  apply ubytes_length in E1, E2. f_equal. unfold bytes_at. rewrite drop_app_length', take_app_length' by done. done.
Qed.

Section UserSource.
Context {D : Type} (me : nat) (kend root va : Z) (t : ptree) (us : umap).
Hypothesis kend_pos : 0 < kend.
Implicit Types (k : kernel D) (data : list byte).

(** The user's memory at [va] holds [data]. *)
Definition user_data data k : Prop :=
  in_user me kend root t us k /\ ubytes us (k_mem k) va (length data) = Some data.

Lemma user_gives data :
  0 <= va -> va + Z.of_nat (length data) < 2 ^ 64 -> src_gives (D := D) me (FromUser va) data (user_data data).
Proof.
  intros H0 Hlen. split.
  - intros k tot m [[H1 H2] H3] Hc Ht Hm Htm. unfold copy_from. apply (zoom_read k_kmemL). set (s := lget k_kmemL k).
    assert (Hcs : calm me (km_sys s)) by exact Hc. unfold either_copyin. krun (my_pagetable_ok me s Hcs).
    change (proc_of (km_sys s) me) with (proc_of (k_sys k) me). rewrite H2. unfold u64. rewrite Z.mod_small by lia.
    pose proof (copyin_ok kend root (va + tot) m t us s kend_pos H1 ltac:(lia) ltac:(lia)) as E.
    change (km_mem s) with (k_mem k) in E. replace (va + tot) with (va + Z.of_nat (Z.to_nat tot)) in E |- * by lia.
    rewrite (ubytes_sub _ _ _ _ _ _ H3) in E by lia. exact E.
  - intros i k k' [H1 H2] F. split; [by eapply in_user_file|]. by rewrite (only_file_mem i k).
Qed.

End UserSource.

(** ** Files of a disk image *)

Definition disk_inode (sb : superblock) (fs : Z -> block) (inum : Z) : dinode :=
  dinode_at (fs (IBLOCK inum sb)) (dinode_off inum).

(** The contents of file [inum]. *)
Definition disk_file (sb : superblock) (fs : Z -> block) (inum : Z) : list byte :=
  let d := disk_inode sb fs inum in
  file_bytes fs (load_dinode d inode_zero) 0 (Z.to_nat (d_size d)).

(** [data] put over [old] at [off]. *)
Definition splice (off : Z) (data old : list byte) : list byte :=
  take (Z.to_nat off) old ++ data ++ drop (Z.to_nat off + length data) old.

Lemma file_bytes_load V ip i0 off n : file_bytes V (load_dinode (dinode_of ip) i0) off n = file_bytes V ip off n.
Proof. done. Qed.

Lemma stored_file sb dev start size off data V ip V' ip' :
  stored dev sb off data V ip V' ip' -> 0 <= off <= i_size ip ->
  layout start size sb -> disk_inode sb V (i_inum ip) = dinode_of ip -> 0 <= i_size ip ->
  disk_file sb V' (i_inum ip) = splice off data (disk_file sb V (i_inum ip)).
Proof.
  intros [S1 S2 S3 S4 S5 S6 S7 S8 S9] Ho HL Hd Hsz. unfold disk_file.
  change (disk_inode sb V' (i_inum ip)) with (dinode_at (V' (IBLOCK (i_inum ip) sb)) (dinode_off (i_inum ip))).
  rewrite S5, Hd, !file_bytes_load. change (d_size (dinode_of ip')) with (i_size ip').
  change (d_size (dinode_of ip)) with (i_size ip).
  assert (Es : i_size ip' = Z.max (i_size ip) (off + Z.of_nat (length data))) by (by rewrite S1).
  apply list_eq. intros j. unfold splice. set (old := file_bytes V ip 0 (Z.to_nat (i_size ip))).
  assert (Eold : length old = Z.to_nat (i_size ip)) by apply length_file_bytes.
  destruct (decide (j < Z.to_nat (i_size ip'))%nat) as [Hj|Hj].
  - rewrite file_bytes_lookup by done. rewrite Z.add_0_l, S4 by lia. destruct (decide (off <= Z.of_nat j < _)) as [Hin|Hout].
    + rewrite lookup_app_r by (rewrite length_take; lia). rewrite length_take, Nat.min_l by lia.
      rewrite lookup_app_l by lia. symmetry. replace (Z.to_nat (Z.of_nat j - off)) with (j - Z.to_nat off)%nat by lia.
      apply list_lookup_lookup_total_lt. lia.
    + destruct (decide (Z.of_nat j < off)).
      * rewrite lookup_app_l by (rewrite length_take; lia). rewrite lookup_take_lt by lia. unfold old.
        rewrite file_bytes_lookup by lia. by rewrite Z.add_0_l.
      * rewrite lookup_app_r by (rewrite length_take; lia). rewrite length_take, Nat.min_l by lia.
        rewrite lookup_app_r by lia. rewrite lookup_drop. unfold old.
        rewrite file_bytes_lookup by lia. do 2 f_equal. lia.
  - rewrite !lookup_ge_None_2; [done| |rewrite length_file_bytes; lia].
    rewrite !length_app, length_take, length_drop. lia.
Qed.

Section WriteUser.
Context {D : Type} `{!DiskDriver D} {mach : Machine} (me : nat) (dev start size : Z).
Context (txs : tx_state D) `{!TxOk me dev (home start size) txs} (sb : superblock).
Hypothesis L : layout start size sb.

(** C7: [writei] of user data, in an operation of the log with room for the
    blocks it spans and enough free blocks: it returns [n], the file then has the
    new bytes at [off] and its other bytes, its size is the larger of the old
    one and the end of the write, the on-disk inode is the one in memory, and
    blocks of other files and other inodes are as before.  An offset past the
    end, a range that wraps around and one past the largest file return -1 and
    change nothing. *)
Theorem writei_correct (kend root va off : Z) (t : ptree) (us : umap) (data : list byte) (i : nat)
    (V : Z -> block) (ip : inode) (T : list Z) (c : nat) (k : kernel D)
    (Hend : 0 < kend) (Hu : user_data me kend root va t us data k)
    (Hva : 0 <= va /\ va + Z.of_nat (length data) < 2 ^ 64)
    (Hon : on_file dev txs sb i V ip T (Z.to_nat (spans off (Z.of_nat (length data))) + c) k)
    (Hw : whole V ip) (Hdi : dinode_ok (dinode_of ip)) (Hin : 0 <= i_inum ip < sb_ninodes sb)
    (HT : IBLOCK (i_inum ip) sb ∈ T) (Hoff : 0 <= off < 2 ^ 32) :
  let n := Z.of_nat (length data) in
  (off <= i_size ip -> off + n <= MAXFILE * BSIZE ->
   exists k' V' ip' T', writei i (FromUser va) off n k = Ok n k' /\ on_file dev txs sb i V' ip' T' c k' /\
     only_file i k k' /\ stored dev sb off data V ip V' ip') /\
  (i_size ip < off \/ u32 (off + n) < off \/ MAXFILE * BSIZE < off + n ->
   writei i (FromUser va) off n k = Ok (-1) k).
Proof.
  intros n. split.
  - intros Ho Hmax. apply (writei_ok me dev start size txs sb L i (FromUser va) V ip T c k data
      (user_data me kend root va t us data)); try done; [|lia].
    apply user_gives; [done|lia|lia].
  - intros Hbad. unfold writei. krun (get_inode_ok i k ip (on_ip _ _ _ _ _ _ _ _ _ Hon)).
    destruct (Z.ltb_spec (i_size ip) off) as [|Hs]; [done|]. destruct (Z.ltb_spec (u32 (off + n)) off) as [|Hov]; [done|].
    cbn [orb]. by rewrite (proj2 (Z.ltb_lt (MAXFILE * BSIZE) (off + n))) by lia.
Qed.

End WriteUser.

(** ** A write as a transaction *)

(** The blocks of the bitmap. *)
Definition bmap_blocks (sb : superblock) : list Z :=
  map (fun j => sb_bmapstart sb + Z.of_nat j) (seq 0 (S (Z.to_nat (sb_size sb / BPB)))).

Lemma bmap_blocks_all start size sb b :
  layout start size sb -> 0 <= b < sb_size sb -> BBLOCK b sb ∈ bmap_blocks sb.
Proof.
  intros L Hb. destruct (BBLOCK_range start size sb b L Hb) as (-> & _). assert (HB : BPB = 8192) by done.
  apply list_elem_of_fmap. exists (Z.to_nat (b / BPB)). rewrite elem_of_seq. rewrite HB. split; dlia.
Qed.

Section WriteOp.
Context {D : Type} `{!DiskDriver D} {mach : Machine} (me : nat) (dev start size : Z).
Context (O : observations D) `{!CacheOk wake_bound me dev O} (sb : superblock) (d0 : disk).
Hypothesis Hdev : 0 < dev < 2 ^ 31.
Hypothesis Hlog : 0 <= start /\ 0 < size /\ start + size < 2 ^ 31.
Hypothesis L : layout start size sb.

(** An operation logs at most [MAXOPBLOCKS] blocks. *)
Local Abbreviation op_txs := (txs dev start size O (Z.to_nat MAXOPBLOCKS) d0).

Lemma grow_list V hs dt l T c (k : kernel D) :
  op_txs V hs dt T (length l + c)%nat k -> op_txs V hs dt (l ++ T) c k.
Proof.
  revert c. induction l as [|b l IH]; intros c H; [done|]. simpl. apply txs_grow, IH.
  by rewrite Nat.add_succ_r.
Qed.

(** The blocks a write may log besides the blocks of its range. *)
Definition op_blocks (ip : inode) : list Z :=
  bmap_blocks sb ++ IBLOCK (i_inum ip) sb :: if decide (ind_addr ip = 0) then [] else [ind_addr ip].

(** What a write needs: an inode that is on the disk as in memory, and free
    blocks. *)
Record writable_file (i : nat) (ip : inode) (n : nat) (k : kernel D) : Prop := {
  wf_sb : k_sb k = sb;
  wf_ip : k_itable k !! i = Some ip;
  wf_inum : 0 <= i_inum ip < sb_ninodes sb;
  wf_disk : disk_inode sb (dk_get d0) (i_inum ip) = dinode_of ip;
  wf_dinode : dinode_ok (dinode_of ip);
  wf_ok : file_ok sb dev (dk_get d0) ip;
  wf_whole : whole (dk_get d0) ip;
  wf_meta : meta_used sb (dk_get d0);
  wf_free : has_free sb (dk_get d0) (need ip + n)
}.

Lemma start_write i ip n k k1 :
  writable_file i ip n k -> only_log k k1 -> op_txs (dk_get d0) [] None [] (Z.to_nat MAXOPBLOCKS) k1 ->
  sb_size sb / BPB + 3 + Z.of_nat n <= MAXOPBLOCKS ->
  on_file dev op_txs sb i (dk_get d0) ip (op_blocks ip) n k1.
Proof.
  intros [W1 W2 W3 W4 W5 W6 W7 W8 W9] F K Hroom.
  pose proof (layout_order start size sb L). assert (Hq : 0 <= sb_size sb / BPB) by (apply Z.div_pos; [lia|done]).
  assert (Hlen : (length (op_blocks ip) + (need ip + n) <= Z.to_nat MAXOPBLOCKS)%nat).
  { unfold op_blocks, bmap_blocks, need. rewrite length_app, length_map, length_seq.
    destruct (decide (ind_addr ip = 0)); simpl length; lia. }
  split; try done.
  - rewrite <- (app_nil_r (op_blocks ip)). apply grow_list. by eapply txs_weaken.
  - by rewrite (only_log_sb k).
  - by rewrite (only_log_itable k).
  - intros b Hb. apply elem_of_app. left. by apply (bmap_blocks_all start size).
  - intros Hi. apply elem_of_app. right. right. rewrite decide_False by done. by left.
Qed.

(** A file's contents depend on its blocks only. *)
Lemma disk_file_ext V V' ip :
  file_ok sb dev V ip -> whole V ip -> disk_inode sb V (i_inum ip) = dinode_of ip ->
  0 <= i_inum ip < sb_ninodes sb ->
  (forall b, home start size b -> V' b = V b) -> disk_file sb V' (i_inum ip) = disk_file sb V (i_inum ip).
Proof.
  intros Hok Hw Hd Hin HV. destruct (IBLOCK_range start size sb _ L Hin) as [Hh _].
  assert (Ed : disk_inode sb V' (i_inum ip) = disk_inode sb V (i_inum ip)) by (unfold disk_inode; by rewrite HV).
  unfold disk_file. rewrite Ed, Hd, !file_bytes_load. change (d_size (dinode_of ip)) with (i_size ip).
  apply list_eq. intros j. destruct (decide (j < Z.to_nat (i_size ip))%nat) as [Hj|Hj];
    [|by rewrite !lookup_ge_None_2 by (rewrite length_file_bytes; lia)].
  rewrite !file_bytes_lookup by done. f_equal. unfold file_byte. rewrite Z.add_0_l.
  destruct Hw as [W1 W2]. destruct (in_blocks (Z.of_nat j) ltac:(lia)) as (E1 & E2 & E3).
  assert (HMB : MAXFILE * BSIZE = 268 * 1024) by done. assert (HM : MAXFILE = 268) by done.
  assert (HB : BSIZE = 1024) by done. pose proof (fo_addrs _ _ _ _ Hok) as OA.
  assert (Hz : block_addr V ip (Z.of_nat j / BSIZE) <> 0) by (apply W2; [done|]; rewrite HB at 2; lia).
  assert (Hdb : forall a, data_block sb V a -> V' a = V a) by (intros a [Ha _]; by apply HV, (data_home start size sb L)).
  assert (EA : forall x, block_addr V' ip x = block_addr V ip x).
  { intros x. unfold block_addr. case_decide; [done|]. case_decide as Hi; [done|]. by rewrite Hdb by (by apply (ao_ind _ _ _ _ OA)). }
  rewrite EA, Hdb; [done|]. apply (ao_data _ _ _ _ OA); [lia|done].
Qed.

(** C2: a write is one atomic update of the disk, down to the file's contents:
    after [begin_op], [writei] and [end_op] the file has the new bytes; and
    whatever prefix of the disk writes a crash lets through, recovery restores a
    disk on which the file is as before, or has all the new bytes. *)
Theorem write_crash_safe (i : nat) (s : src) (data : list byte) (J : kernel D -> Prop) (ip : inode) (off : Z) (k : kernel D)
    (Hq : quiet dev start size O (k_log k)) (Hd : the_disk (lg_bio (k_log k)) = d0)
    (Hfree : (13 <= o_free O (lg_bio (k_log k)))%nat) (Hsize : MAXOPBLOCKS < size - 1)
    (Hw : writable_file i ip (Z.to_nat (spans off (Z.of_nat (length data)))) k)
    (Hroom : sb_size sb / BPB + 3 + spans off (Z.of_nat (length data)) <= MAXOPBLOCKS)
    (HJ : forall k1, only_log k k1 -> J k1) (Hs : src_gives me s data J)
    (Hoff : 0 <= off <= i_size ip) (Hmax : off + Z.of_nat (length data) <= MAXFILE * BSIZE) :
  let n := Z.of_nat (length data) in
  let old := disk_file sb (dk_get d0) (i_inum ip) in
  exists k' dws, (begin_op_k ;; let! r := writei i s off n in end_op_k ;; ret r) k = Ok n k' /\
    quiet dev start size O (k_log k') /\ the_disk (lg_bio (k_log k')) = dk_puts dws d0 /\
    disk_file sb (dk_get (the_disk (lg_bio (k_log k')))) (i_inum ip) = splice off data old /\
    forall p, p `prefix_of` dws -> exists fs, represents start size (after p (dk_get d0)) fs /\
      (disk_file sb fs (i_inum ip) = old \/ disk_file sb fs (i_inum ip) = splice off data old).
Proof.
  intros n old. assert (Hcap : Z.of_nat (Z.to_nat MAXOPBLOCKS) < LOGSIZE /\ Z.of_nat (Z.to_nat MAXOPBLOCKS) < size - 1).
  { unfold LOGSIZE, MAXOPBLOCKS in *. lia. }
  destruct (fs_begin_ok me dev start size O (Z.to_nat MAXOPBLOCKS) d0 k Hq Hd) as (k1 & E1 & K1 & F1).
  { change (Z.to_nat MAXOPBLOCKS) with 10%nat. lia. }
  pose proof (spans_bound off n ltac:(lia) ltac:(lia)) as [Hsp _].
  assert (Hon : on_file dev op_txs sb i (dk_get d0) ip (op_blocks ip) (Z.to_nat (spans off n) + 0) k1).
  { rewrite Nat.add_0_r. apply (start_write i ip _ k); [done|done|done|]. rewrite Z2Nat.id by done. exact Hroom. }
  pose proof (log_tx me dev start size O (Z.to_nat MAXOPBLOCKS) d0 Hdev Hlog Hcap) as TX.
  destruct Hw as [W1 W2 W3 W4 W5 W6 W7 W8 W9].
  destruct (writei_ok me dev start size op_txs sb L i s (dk_get d0) ip (op_blocks ip) 0 k1 data J off)
    as (k2 & V2 & ip2 & T2 & E2 & Hon2 & F2 & S2); try done; [by apply HJ| |].
  { apply elem_of_app. right. by left. }
  destruct (fs_end_ok me dev start size O (Z.to_nat MAXOPBLOCKS) d0 Hdev Hlog V2 T2 _ k2 (on_tx _ _ _ _ _ _ _ _ _ Hon2))
    as (k3 & dws & E3 & Q3 & F3 & D3 & Hhome & Hcrash); [rewrite <- Hd; apply Hq|].
  assert (Hnew : disk_file sb V2 (i_inum ip) = splice off data old).
  { apply (stored_file sb dev start size off data (dk_get d0) ip V2 ip2); [done|done|done|done|lia]. }
  assert (Ein : i_inum ip2 = i_inum ip) by (by rewrite (st_ip _ _ _ _ _ _ _ _ S2)).
  exists k3, dws. split; [|split; [done|split; [done|split]]].
  - krun E1. krun E2. by krun E3.
  - rewrite <- Hnew, <- Ein. apply disk_file_ext; [apply S2|apply S2|rewrite Ein; apply S2|by rewrite Ein|].
    intros b [Hb _]. by apply Hhome.
  - intros p Hp. destruct (Hcrash p Hp) as [H|H]; eexists; (split; [exact H|]); [by left|by right].
Qed.

End WriteOp.
