(* ===== verification/FsInode.v ===== *)
(** * The table of inodes in memory

    [iget], [idup], [ilock], [iunlock] and [iput] of [fs.c] in an operation of
    the log: an inode that is referred to has one entry, which counts the
    references and, once it is valid, has the contents of the inode on disk. *)

From S2P Require Import Prelude Riscv Memory CString Sys Spinlock Proc Kalloc Sleeplock Uart Printf Console Bio Block Bcache BufCache Log Kernel Machine Fs File LogDisk LogOk LogCrash LogTx FsTx FsBlocks FsFile FsWrite FsOp.

(** ** The scan of [iget] *)

Definition is_entry (dev inum : Z) (ip : inode) : Prop := 0 < i_ref ip /\ i_dev ip = dev /\ i_inum ip = inum.

Lemma iget_scan_ok dev inum l i0 e :
  match iget_scan dev inum l i0 e with
  | inl j => exists n ip, j = (i0 + n)%nat /\ l !! n = Some ip /\ is_entry dev inum ip
  | inr o =>
      (forall n ip, l !! n = Some ip -> ~ is_entry dev inum ip) /\
      match o with
      | Some j => e = Some j \/ e = None /\ exists n ip, j = (i0 + n)%nat /\ l !! n = Some ip /\ i_ref ip = 0
      | None => e = None /\ forall n ip, l !! n = Some ip -> i_ref ip <> 0
      end
  end.
Proof.
  revert i0 e. induction l as [|ip l IH]; intros i0 e; simpl.
  { split; [done|]. destruct e; [by left|done]. }
  destruct ((0 <? i_ref ip) && (i_dev ip =? dev) && (i_inum ip =? inum)) eqn:E.
  - apply andb_true_iff in E as [[H1%Z.ltb_lt H2%Z.eqb_eq]%andb_true_iff H3%Z.eqb_eq].
    exists 0%nat, ip. split; [lia|]. by split.
  - assert (Hn : ~ is_entry dev inum ip).
    { intros (H1 & H2 & H3). apply Z.ltb_lt in H1. apply Z.eqb_eq in H2, H3. by rewrite H1, H2, H3 in E. }
    specialize (IH (S i0) (match e with None => if i_ref ip =? 0 then Some i0 else None | _ => e end)).
    destruct (iget_scan _ _ _ _ _) as [j|o].
    + destruct IH as (n & jp & -> & H). exists (S n), jp. split; [lia|]. exact H.
    + destruct IH as [Hno Ho]. split; [intros [|n] jp; simpl; [by intros [= <-]|apply Hno]|].
      destruct o as [j|].
      * destruct Ho as [He|[He (n & jp & -> & H)]].
        -- destruct e; [by left|]. destruct (Z.eqb_spec (i_ref ip) 0) as [H0|]; [|done].
           injection He as <-. right. split; [done|]. exists 0%nat, ip. split; [lia|]. done.
        -- destruct e; [done|]. right. split; [done|]. exists (S n), jp. split; [lia|]. exact H.
      * destruct Ho as [He Hl]. destruct e; [done|]. split; [done|]. intros [|n] jp; simpl; [|apply Hl].
        intros [= <-]. by destruct (Z.eqb_spec (i_ref ip) 0).
Qed.

(** ** References *)

(** The number of references to inode [inum]. *)
Definition iref (tbl : list inode) (inum : Z) : Z :=
  from_option i_ref 0 (List.find (fun ip => (0 <? i_ref ip) && (i_inum ip =? inum)) tbl).

(** The entries that can be recycled. *)
Definition ifree (tbl : list inode) : nat := length (filter (fun ip => i_ref ip = 0) tbl).

Section Inodes.
Context {D : Type} `{!DiskDriver D} {mach : Machine} (me : nat) (dev start size : Z).
Context (txs : tx_state D) `{!TxOk me dev (home start size) txs} (sb : superblock).
Hypothesis L : layout start size sb.
Implicit Types (V : Z -> block) (tbl : list inode) (k : kernel D).

(** The entries in use are for different inodes of the disk, and the valid ones
    are as on the disk. *)
Record itable_ok V tbl : Prop := {
  it_len : length tbl = NINODE;
  it_ref : forall i ip, tbl !! i = Some ip -> 0 <= i_ref ip;
  it_dev : forall i ip, tbl !! i = Some ip -> 0 < i_ref ip -> i_dev ip = dev /\ 0 <= i_inum ip < sb_ninodes sb;
  it_uniq : forall i j ip jp, tbl !! i = Some ip -> tbl !! j = Some jp -> 0 < i_ref ip -> 0 < i_ref jp ->
    i_inum ip = i_inum jp -> i = j;
  it_valid : forall i ip, tbl !! i = Some ip -> 0 < i_ref ip -> i_valid ip = true ->
    dinode_of ip = disk_inode sb V (i_inum ip)
}.

Lemma iref_at V tbl i ip :
  itable_ok V tbl -> tbl !! i = Some ip -> 0 < i_ref ip -> iref tbl (i_inum ip) = i_ref ip.
Proof.
  intros Hok Hi Hr. unfold iref. destruct (List.find _ _) as [jp|] eqn:E.
  - apply List.find_some in E as [[j Hj]%list_elem_of_In%list_elem_of_lookup [H1%Z.ltb_lt H2%Z.eqb_eq]%andb_true_iff].
    assert (j = i) as -> by (by apply (it_uniq _ _ Hok j i jp ip)). by simplify_eq.
  - exfalso. eapply List.find_none in E; [|apply list_elem_of_In, list_elem_of_lookup; by exists i].
    apply andb_false_iff in E as [E%Z.ltb_ge|E%Z.eqb_neq]; [lia|done].
Qed.

Lemma iref_none tbl inum :
  (forall i ip, tbl !! i = Some ip -> 0 < i_ref ip -> i_inum ip <> inum) -> iref tbl inum = 0.
Proof.
  intros H. unfold iref. destruct (List.find _ _) as [jp|] eqn:E; [|done].
  apply List.find_some in E as [[j Hj]%list_elem_of_In%list_elem_of_lookup [H1%Z.ltb_lt H2%Z.eqb_eq]%andb_true_iff].
  exfalso. by apply (H j jp).
Qed.

Lemma iref_pos V tbl inum :
  itable_ok V tbl -> iref tbl inum <> 0 ->
  exists i ip, tbl !! i = Some ip /\ 0 < i_ref ip /\ i_inum ip = inum /\ iref tbl inum = i_ref ip.
Proof.
  intros Hok. unfold iref. destruct (List.find _ _) as [jp|] eqn:E; [|done]. intros _.
  apply List.find_some in E as [[j Hj]%list_elem_of_In%list_elem_of_lookup [H1%Z.ltb_lt H2%Z.eqb_eq]%andb_true_iff].
  by exists j, jp.
Qed.

(** Entry [i] replaced by [ip'], in a way that keeps the table well formed. *)
Lemma itable_insert V tbl i ip ip' :
  itable_ok V tbl -> tbl !! i = Some ip -> 0 <= i_ref ip' ->
  (0 < i_ref ip' -> i_dev ip' = dev /\ 0 <= i_inum ip' < sb_ninodes sb) ->
  (0 < i_ref ip' -> 0 < i_ref ip /\ i_inum ip = i_inum ip' \/ iref tbl (i_inum ip') = 0) ->
  (0 < i_ref ip' -> i_valid ip' = true -> dinode_of ip' = disk_inode sb V (i_inum ip')) ->
  itable_ok V (<[i := ip']> tbl).
Proof.
  intros Hok Hi Hr Hd Hu Hv. assert (Hlt : (i < length tbl)%nat) by (by eapply lookup_lt_Some).
  assert (Hget : forall j jp, <[i := ip']> tbl !! j = Some jp -> j = i /\ jp = ip' \/ j <> i /\ tbl !! j = Some jp).
  { intros j jp Hj. destruct (decide (i = j)) as [<-|Hne].
    - rewrite list_lookup_insert_eq in Hj by done. injection Hj as <-. by left.
    - rewrite list_lookup_insert_ne in Hj by done. by right. }
  assert (Hother : forall j jp, j <> i -> tbl !! j = Some jp -> 0 < i_ref jp -> 0 < i_ref ip' -> i_inum jp <> i_inum ip').
  { intros j jp Hj Hjp Hrj Hr' E. destruct (Hu Hr') as [[H1 H2]|H0].
    - apply Hj. apply (it_uniq _ _ Hok j i jp ip); try done. congruence.
    - rewrite <- E, (iref_at V tbl j jp) in H0 by done. lia. }
  split.
  - rewrite length_insert. apply Hok.
  - intros j jp [[-> ->]|[_ Hj]]%Hget; [done|]. by apply (it_ref _ _ Hok j).
  - intros j jp [[-> ->]|[_ Hj]]%Hget; [done|]. by apply (it_dev _ _ Hok j).
  - intros j1 j2 jp1 jp2 [[-> ->]|[N1 H1]]%Hget [[-> ->]|[N2 H2]]%Hget R1 R2 E; [done|..].
    + exfalso. by apply (Hother j2 jp2).
    + exfalso. by apply (Hother j1 jp1).
    + by apply (it_uniq _ _ Hok j1 j2 jp1 jp2).
  - intros j jp [[-> ->]|[_ Hj]]%Hget; [done|]. by apply (it_valid _ _ Hok j).
Qed.

Lemma iref_insert V tbl i ip ip' n :
  itable_ok V tbl -> tbl !! i = Some ip -> itable_ok V (<[i := ip']> tbl) ->
  iref (<[i := ip']> tbl) n =
  if decide (0 < i_ref ip' /\ i_inum ip' = n) then i_ref ip'
  else if decide (0 < i_ref ip /\ i_inum ip = n) then 0 else iref tbl n.
Proof.
  intros Hok Hi Hok'. assert (Hlt : (i < length tbl)%nat) by (by eapply lookup_lt_Some).
  assert (Hi' : <[i := ip']> tbl !! i = Some ip') by (by apply list_lookup_insert_eq).
  destruct (decide (0 < i_ref ip' /\ i_inum ip' = n)) as [[H1 <-]|Hno']; [by apply (iref_at V _ i)|].
  destruct (decide (0 < i_ref ip /\ i_inum ip = n)) as [[H1 <-]|Hno].
  - apply iref_none. intros j jp Hj Hr E. destruct (decide (i = j)) as [<-|Hne].
    + simplify_eq. by apply Hno'.
    + rewrite list_lookup_insert_ne in Hj by done. by apply Hne, (it_uniq _ _ Hok i j ip jp).
  - destruct (decide (iref tbl n = 0)) as [E0|En].
    + rewrite E0. apply iref_none. intros j jp Hj Hr E. destruct (decide (i = j)) as [<-|Hne].
      * simplify_eq. by apply Hno'.
      * rewrite list_lookup_insert_ne in Hj by done. rewrite <- E, (iref_at V tbl j jp) in E0 by done. lia.
    + destruct (iref_pos V tbl n Hok En) as (j & jp & Hj & Hr & <- & ->). apply (iref_at V _ j); [done| |done].
      rewrite list_lookup_insert_ne; [done|]. intros <-. simplify_eq. by apply Hno.
Qed.

Lemma ifree_insert tbl i ip ip' :
  tbl !! i = Some ip ->
  (ifree (<[i := ip']> tbl) + (if decide (i_ref ip = 0%Z) then 1 else 0) =
   ifree tbl + (if decide (i_ref ip' = 0%Z) then 1 else 0))%nat.
Proof.
  unfold ifree. revert i. induction tbl as [|x tbl IH]; intros [|i] Hi; simpl in Hi; try done; simpl; rewrite !filter_cons.
  - injection Hi as ->. repeat case_decide; simpl; lia.
  - specialize (IH i Hi). destruct (decide (i_ref x = 0)); simpl; lia.
Qed.

(** ** An operation of the log at work on inodes *)

(** [h] is the entry whose lock the process holds. *)
Record fstate V (T : list Z) (c : nat) (h : option nat) k : Prop := {
  fs_tx : txs V [] None T c k;
  fs_sb : k_sb k = sb;
  fs_table : itable_ok V (k_itable k);
  fs_locks : forall i, sl_locked (slk_of (k_slk k) (SInode i)) = bool_decide (h = Some i);
  fs_mine : forall i, h = Some i -> sl_pid (slk_of (k_slk k) (SInode i)) = p_pid (proc_of (k_sys k) me)
}.

(** Only the log, the run states of other processes and the table changed. *)
Definition only_table k k' : Prop :=
  k' = set_k_itable (k_itable k') (set_k_log (k_log k') k) /\ woken (k_sys k) (k_sys k').

#[export] Instance only_table_preorder : PreOrder only_table.
Proof.
  split.
  - intros k. split; [by destruct k|done].
  - intros k1 k2 k3 [A1 A2] [B1 B2]. split; [rewrite B1, A1; by destruct k1|by etrans].
Qed.

Lemma only_log_table k k' : only_log k k' -> only_table k k'.
Proof. intros [H1 [H2 _]]. split; [|done]. rewrite H1. by destruct k. Qed.

Lemma only_table_set k tbl : only_table k (set_k_itable tbl k).
Proof. split; [by destruct k|]. by change (k_sys (set_k_itable tbl k)) with (k_sys k). Qed.

(** Changes of the table under its lock. *)
Lemma release_itable k tbl :
  calm me (k_sys k) ->
  zoom k_sysL (release L_itable) (set_k_itable tbl (lset k_sysL (locked L_itable (k_sys k)) k)) =
  Ok tt (set_k_itable tbl k).
Proof.
  intros Hc. rewrite (zoom_release k_sysL L_itable (k_sys k)); [|apply Hc|by apply Hc|done].
  f_equal. by destruct k as [[[[] ? ?] ? ? ? ? ? ? ?]].
Qed.

Lemma fstate_table V T c h k tbl :
  fstate V T c h k -> itable_ok V tbl -> fstate V T c h (set_k_itable tbl k) /\ only_table k (set_k_itable tbl k).
Proof.
  intros [F1 F2 F3 F4 F5] Ht. split; [split; try done; by apply (txr_log _ _ _ _ _ k)|]. apply only_table_set.
Qed.

Lemma set_itable_twice k tbl tbl' : set_k_itable tbl (set_k_itable tbl' k) = set_k_itable tbl k.
Proof. done. Qed.

Lemma alter_at {A} (f : A -> A) (i : nat) (l : list A) x : l !! i = Some x -> alter f i l = <[i := f x]> l.
Proof.
  revert i. induction l as [|y l IH]; intros [|i] H; simpl in *; try done; [by simplify_eq|]. f_equal. by apply IH.
Qed.

(** What is left of [iget] when it has changed entry [j] to [ip']. *)
Lemma iget_counts V T c h k j ip ip' inum :
  fstate V T c h k -> k_itable k !! j = Some ip -> 0 <= inum < sb_ninodes sb ->
  is_entry dev inum ip' -> (i_valid ip' = true -> 0 < i_ref ip /\ i_valid ip = true /\ dinode_of ip' = dinode_of ip) ->
  (0 < i_ref ip /\ i_inum ip = inum /\ i_ref ip' = i_ref ip + 1 \/
   i_ref ip = 0 /\ iref (k_itable k) inum = 0 /\ i_ref ip' = 1) ->
  let k' := set_k_itable (<[j := ip']> (k_itable k)) k in
  fstate V T c h k' /\ only_table k k' /\
    (forall n, iref (k_itable k') n = iref (k_itable k) n + if decide (n = inum) then 1 else 0) /\
    (ifree (k_itable k') + (if decide (iref (k_itable k) inum = 0%Z) then 1 else 0) = ifree (k_itable k))%nat.
Proof.
  intros F Hj Hn (Hr & Hd & Hi) Hv Hcase k'. pose proof (fs_table _ _ _ _ _ F) as Hok.
  assert (Hok' : itable_ok V (<[j := ip']> (k_itable k))).
  { apply (itable_insert V _ j ip); try done; [lia|by rewrite Hi|rewrite Hi; tauto|].
    intros _ Hv'. destruct (Hv Hv') as (H1 & H2 & ->). rewrite Hi.
    destruct Hcase as [(_ & <- & _)|(H0 & _)]; [|lia]. by apply (it_valid _ _ Hok j). }
  destruct (fstate_table V T c h k _ F Hok') as [F' Hot]. split; [exact F'|]. split; [exact Hot|].
  unfold k'. simpl. pose proof (ifree_insert (k_itable k) j ip ip' Hj) as Hfr. split.
  - intros n. rewrite (iref_insert V _ j ip) by done. rewrite Hi.
    destruct Hcase as [(H1 & <- & H2)|(H0 & H1 & H2)].
    + destruct (decide (n = i_inum ip)) as [->|Hne].
      * rewrite decide_True by done. rewrite (iref_at V _ j ip) by done. done.
      * rewrite !decide_False by (intros [_ E]; congruence). lia.
    + destruct (decide (n = inum)) as [->|Hne].
      * rewrite decide_True by done. lia.
      * rewrite decide_False by (intros [_ E]; congruence). rewrite decide_False by lia. lia.
  - destruct Hcase as [(H1 & <- & H2)|(H0 & H1 & H2)].
    + rewrite (iref_at V _ j ip) by done. rewrite !decide_False in * by lia. lia.
    + rewrite (decide_True (P := iref _ _ = 0)) by done. rewrite (decide_True (P := i_ref ip = 0)) in Hfr by done.
      rewrite decide_False in Hfr by lia. lia.
Qed.

(** [iget]: one more reference to the inode, in its entry or in a free one. *)
Lemma iget_ok V T c h k inum :
  fstate V T c h k -> 0 <= inum < sb_ninodes sb -> (iref (k_itable k) inum = 0 -> (0 < ifree (k_itable k))%nat) ->
  exists j ip ip' k', iget dev inum k = Ok j k' /\ fstate V T c h k' /\ only_table k k' /\
    k_itable k !! j = Some ip /\ k_itable k' = <[j := ip']> (k_itable k) /\ is_entry dev inum ip' /\
    (0 < i_ref ip -> ip' = set_i_ref (i_ref ip + 1) ip) /\
    (forall n, iref (k_itable k') n = iref (k_itable k) n + if decide (n = inum) then 1 else 0) /\
    (ifree (k_itable k') + (if decide (iref (k_itable k) inum = 0%Z) then 1 else 0) = ifree (k_itable k))%nat.
Proof.
  intros F Hn Hfree. pose proof (fs_table _ _ _ _ _ F) as Hok. pose proof (it_len _ _ Hok) as Hlen.
  pose proof (txr_calm _ _ _ _ _ _ (fs_tx _ _ _ _ _ F)) as Hc.
  unfold iget. krun (zoom_acquire k_sysL L_itable k (ca_idle _ _ Hc L_itable I)). rewrite bind_gets.
  change (k_itable (lset k_sysL _ k)) with (k_itable k). rewrite (take_ge (k_itable k)) by lia.
  pose proof (iget_scan_ok dev inum (k_itable k) 0 None) as Hs.
  destruct (iget_scan dev inum (k_itable k) 0 None) as [j|[j|]].
  - destruct Hs as (n & ip & -> & Hj & Hr & Hd & Hi). simpl in *. set (ip' := set_i_ref (i_ref ip + 1) ip).
    unfold upd_inode. rewrite bind_modify. change (k_itable (lset k_sysL _ k)) with (k_itable k).
    rewrite (alter_at _ _ _ _ Hj). krun (release_itable k (<[n := ip']> (k_itable k)) Hc).
    destruct (iget_counts V T c h k n ip ip' inum) as (H1 & H2 & H3 & H4); try done.
    + split; [simpl; lia|done].
    + by left.
    + exists n, ip, ip'. eexists. split; [done|]. split; [exact H1|]. split; [exact H2|]. split; [done|].
      split; [done|]. split; [split; [simpl; lia|done]|]. done.
  - destruct Hs as [Hno [?|[_ (n & ip & -> & Hj & H0)]]]; [done|]. simpl in *.
    set (ip' := set_i_valid false (set_i_ref 1 (set_i_inum inum (set_i_dev dev ip)))).
    assert (Hz : iref (k_itable k) inum = 0).
    { apply iref_none. intros i jp Hi Hr E. apply (Hno i jp Hi). split; [done|]. split; [|done].
      by apply (it_dev _ _ Hok i). }
    unfold upd_inode. rewrite !bind_modify. simpl. rewrite !list_alter_alter_eq. unfold compose.
    rewrite !set_itable_twice, (alter_at _ _ _ _ Hj). krun (release_itable k (<[n := ip']> (k_itable k)) Hc).
    destruct (iget_counts V T c h k n ip ip' inum) as (H1 & H2 & H3 & H4); try done; [by right|].
    exists n, ip, ip'. eexists. split; [done|]. split; [exact H1|]. split; [exact H2|]. split; [done|].
    split; [done|]. split; [done|]. split; [lia|]. done.
  - destruct Hs as [Hno [_ Hall]]. exfalso.
    assert (Hz : iref (k_itable k) inum = 0).
    { apply iref_none. intros i jp Hi Hr E. apply (Hno i jp Hi). split; [done|]. split; [|done].
      by apply (it_dev _ _ Hok i). }
    specialize (Hfree Hz). unfold ifree in Hfree. destruct (filter _ _) as [|x r] eqn:E; [simpl in Hfree; lia|].
    assert (Hx : x ∈ x :: r) by (by left). rewrite <- E in Hx.
    apply list_elem_of_filter in Hx as [H0 [i Hi]%list_elem_of_lookup]. by apply (Hall i x).
Qed.

(** *** Locking *)

(** The entry of an inode that has been read from disk. *)
Definition loaded V (ip : inode) : inode := set_i_valid true (load_dinode (disk_inode sb V (i_inum ip)) ip).

Lemma dinode_of_loaded V ip : dinode_of (loaded V ip) = disk_inode sb V (i_inum ip).
Proof. unfold loaded. by destruct (disk_inode sb V (i_inum ip)). Qed.

Lemma loaded_valid V tbl i ip :
  itable_ok V tbl -> tbl !! i = Some ip -> 0 < i_ref ip -> i_valid ip = true -> loaded V ip = ip.
Proof.
  intros Hok Hi Hr Hv. unfold loaded. rewrite <- (it_valid _ _ Hok i ip Hi Hr Hv).
  destruct ip. simpl in *. by subst.
Qed.

Lemma fstate_slk V T c h h' k x :
  fstate V T c h k -> woken (k_sys k) (sk_sys x) ->
  (forall i, slk_of x (SBuf i) = slk_of (k_slk k) (SBuf i)) ->
  (forall i, sl_locked (slk_of x (SInode i)) = bool_decide (h' = Some i)) ->
  (forall i, h' = Some i -> sl_pid (slk_of x (SInode i)) = p_pid (proc_of (k_sys k) me)) ->
  fstate V T c h' (set_k_slk x k) /\ only_table k (set_k_slk x k).
Proof.
  intros [F1 F2 F3 F4 F5] Hw Hb Hl Hp. split.
  - split; try done.
    + apply txr_slk; try done; [eapply calm_woken; [by eapply txr_calm|done]|by apply wo_pid].
    + intros i Hi. rewrite <- (wo_pid _ _ me Hw) in Hp. by apply Hp.
  - split; [by destruct k|done].
Qed.

Lemma ilock_acquire V T c k j :
  fstate V T c None k -> (j < NINODE)%nat ->
  exists k', zoom k_slkL (acquiresleep wake_bound (SInode j)) k = Ok tt k' /\
    fstate V T c (Some j) k' /\ only_table k k' /\ k_itable k' = k_itable k.
Proof.
  intros F Hj. pose proof (txr_calm _ _ _ _ _ _ (fs_tx _ _ _ _ _ F)) as Hc.
  assert (Hl : sl_locked (slk_of (k_slk k) (SInode j)) = false) by apply (fs_locks _ _ _ _ _ F).
  set (x := set_slk (SInode j) (taken (p_pid (proc_of (sk_sys (k_slk k)) me)) (slk_of (k_slk k) (SInode j))) (k_slk k)).
  exists (set_k_slk x k).
  split; [apply (zoom_Ok k_slkL); by apply (acquiresleep_ok wake_bound me)|].
  destruct (fstate_slk V T c None (Some j) k x F) as [H1 H2]; [done| | | |by split].
  - intros i. by apply slk_of_set_ne.
  - intros i. destruct (decide (j = i)) as [<-|Hne].
    + unfold x. rewrite slk_of_set. by rewrite bool_decide_eq_true_2.
    + unfold x. rewrite slk_of_set_ne by congruence. rewrite (fs_locks _ _ _ _ _ F).
      by rewrite !bool_decide_eq_false_2 by congruence.
  - intros i [= <-]. unfold x. by rewrite slk_of_set.
Qed.

Lemma iunlock_ok V T c k j ip :
  fstate V T c (Some j) k -> k_itable k !! j = Some ip -> 0 < i_ref ip ->
  exists k', iunlock (Some j) k = Ok tt k' /\ fstate V T c None k' /\ only_table k k' /\ k_itable k' = k_itable k.
Proof.
  intros F Hj Hr. pose proof (txr_calm _ _ _ _ _ _ (fs_tx _ _ _ _ _ F)) as Hc.
  assert (Hlt : (j < NINODE)%nat).
  { rewrite <- (it_len _ _ (fs_table _ _ _ _ _ F)). by eapply lookup_lt_Some. }
  pose proof (holdingsleep_ok me (SInode j) (k_slk k) Hc Hlt) as Hh.
  rewrite (fs_locks _ _ _ _ _ F), (fs_mine _ _ _ _ _ F j), bool_decide_eq_true_2, Z.eqb_refl in Hh by done.
  apply (zoom_read k_slkL) in Hh.
  unfold iunlock. krun Hh. krun (get_inode_ok j k ip Hj). cbn [andb negb orb].
  rewrite (proj2 (Z.ltb_ge (i_ref ip) 1)) by lia.
  destruct (releasesleep_ok me (SInode j) (k_slk k) Hc Hlt) as (y & Er & Hw). apply (zoom_Ok k_slkL) in Er.
  eexists. split; [exact Er|].
  destruct (fstate_slk V T c (Some j) None k (Slk y (<[SInode j := freed (slk_of (k_slk k) (SInode j))]> (sk_locks (k_slk k)))) F)
    as [H1 H2]; [done| | |done|by split].
  - intros i. unfold slk_of. simpl. by rewrite lookup_insert_ne.
  - intros i. destruct (decide (j = i)) as [<-|Hne]; unfold slk_of; simpl.
    + by rewrite lookup_insert_eq.
    + rewrite lookup_insert_ne by congruence. fold (slk_of (k_slk k) (SInode i)). rewrite (fs_locks _ _ _ _ _ F).
      rewrite !bool_decide_eq_false_2 by congruence. done.
Qed.

(** The same references, entry by entry. *)
Definition same_refs tbl tbl' : Prop := (forall n, iref tbl' n = iref tbl n) /\ ifree tbl' = ifree tbl.

Lemma same_refs_insert V tbl i ip ip' :
  itable_ok V tbl -> tbl !! i = Some ip -> itable_ok V (<[i := ip']> tbl) ->
  i_ref ip' = i_ref ip -> i_inum ip' = i_inum ip -> same_refs tbl (<[i := ip']> tbl).
Proof.
  intros Hok Hi Hok' Er En. split.
  - intros n. rewrite (iref_insert V _ i ip) by done. rewrite Er, En. case_decide as H; [|done].
    destruct H as [H <-]. symmetry. by apply (iref_at V _ i).
  - pose proof (ifree_insert tbl i ip ip' Hi) as H. rewrite Er in H. case_decide; lia.
Qed.

Lemma loaded_table V tbl i ip :
  itable_ok V tbl -> tbl !! i = Some ip -> 0 < i_ref ip ->
  itable_ok V (<[i := loaded V ip]> tbl) /\ same_refs tbl (<[i := loaded V ip]> tbl).
Proof.
  intros Hok Hi Hr. assert (Hok' : itable_ok V (<[i := loaded V ip]> tbl)).
  { apply (itable_insert V _ i ip); [done|done|simpl; lia|intros _; by apply (it_dev _ _ Hok i ip)|by left|].
    intros _ _. exact (dinode_of_loaded V ip). }
  split; [done|]. by apply (same_refs_insert V _ i ip).
Qed.

Lemma fstate_log V T c h k k' : fstate V T c h k -> txs V [] None T c k' -> only_log k k' -> fstate V T c h k'.
Proof.
  intros [F1 F2 F3 F4 F5] X O. pose proof (only_log_sb _ _ O) as Es. pose proof (only_log_itable _ _ O) as Et.
  destruct O as [R [W Q]]. split; [done|congruence|congruence| |].
  - intros i. by rewrite Q.
  - intros i Hi. rewrite Q, F5 by done. symmetry. exact (wo_pid _ _ me W).
Qed.

(** [ilock]: the lock of the entry, which then has the contents of the inode. *)
Lemma ilock_ok V T c k j ip :
  fstate V T c None k -> k_itable k !! j = Some ip -> 0 < i_ref ip -> d_type (disk_inode sb V (i_inum ip)) <> 0 ->
  exists k', ilock (Some j) k = Ok tt k' /\ fstate V T c (Some j) k' /\ only_table k k' /\
    k_itable k' = <[j := loaded V ip]> (k_itable k) /\ same_refs (k_itable k) (k_itable k').
Proof.
  intros F Hj Hr Ht. pose proof (fs_table _ _ _ _ _ F) as Hok. pose proof (it_dev _ _ Hok j ip Hj Hr) as [Hd Hn].
  assert (Hlt : (j < NINODE)%nat) by (rewrite <- (it_len _ _ Hok); by eapply lookup_lt_Some).
  destruct (loaded_table V _ j ip Hok Hj Hr) as [Hok' Hsame].
  unfold ilock. krun (get_inode_ok j k ip Hj). rewrite (proj2 (Z.ltb_ge (i_ref ip) 1)) by lia.
  destruct (ilock_acquire V T c k j F Hlt) as (k1 & E1 & F1 & O1 & I1). krun E1.
  rewrite <- I1 in Hj. krun (get_inode_ok j k1 ip Hj).
  destruct (i_valid ip) eqn:Hv; cbn [negb].
  { exists k1. split; [done|]. split; [done|]. split; [done|].
    rewrite I1 in Hj |- *. rewrite (loaded_valid V _ j ip Hok Hj Hr Hv), list_insert_id by done. by split. }
  rewrite bind_gets, (fs_sb _ _ _ _ _ F1), Hd.
  destruct (IBLOCK_range start size sb (i_inum ip) L Hn) as [[_ Hb] _].
  destruct (txr_bread V [] T c k1 (IBLOCK (i_inum ip) sb) (fs_tx _ _ _ _ _ F1)) as (b & k2 & E2 & X2 & O2);
    [apply not_elem_of_nil|done|simpl; lia|]. krun E2.
  krun (txr_data _ _ _ _ _ _ b (IBLOCK (i_inum ip) sb) X2 ltac:(by left)).
  assert (I2 : k_itable k2 = k_itable k) by (by rewrite (only_log_itable _ _ O2)).
  rewrite I1, <- I2 in Hj.
  unfold upd_inode at 1. rewrite bind_modify. fold (disk_inode sb V (i_inum ip)).
  set (k3 := set_k_itable _ k2).
  destruct (txr_brelse V [] T c k3 b (IBLOCK (i_inum ip) sb)) as (k4 & E4 & X4 & O4); [by apply (txr_log _ _ _ _ _ k2)|].
  krun E4. unfold upd_inode. rewrite bind_modify. rewrite (proj2 (Z.eqb_neq _ 0)) by done.
  assert (I4 : alter (set_i_valid true) j (k_itable k4) = <[j := loaded V ip]> (k_itable k)).
  { rewrite (only_log_itable _ _ O4). simpl. rewrite list_alter_alter_eq. unfold compose.
    rewrite (alter_at _ _ _ _ Hj), I2. done. }
  rewrite I4. exists (set_k_itable (<[j := loaded V ip]> (k_itable k)) k4). split; [done|].
  assert (F4 : fstate V T c (Some j) (set_k_itable (k_itable k1) k4)).
  { apply (fstate_log V T c _ k1); [done|by apply (txr_log _ _ _ _ _ k4)|]. destruct O2 as [R2 U2], O4 as [R4 U4].
    split; [|exact (transitivity (R := undisturbed) U2 U4)]. unfold same_rest. rewrite R4. unfold k3. rewrite R2. by destruct k1. }
  destruct (fstate_table V T c (Some j) _ _ F4 Hok') as [F5 _]. split; [exact F5|]. split; [|by split].
  etrans; [exact O1|]. etrans; [by apply only_log_table|]. etrans; [|apply only_table_set].
  etrans; [apply (only_table_set k2)|]. by apply only_log_table.
Qed.

(** *** Counting *)

(** [idup]: one more reference. *)
Lemma idup_ok V T c h k j ip :
  fstate V T c h k -> k_itable k !! j = Some ip -> 0 < i_ref ip ->
  exists k', idup j k = Ok j k' /\ fstate V T c h k' /\ only_table k k' /\
    k_itable k' = <[j := set_i_ref (i_ref ip + 1) ip]> (k_itable k) /\
    (forall n, iref (k_itable k') n = iref (k_itable k) n + if decide (n = i_inum ip) then 1 else 0) /\
    ifree (k_itable k') = ifree (k_itable k).
Proof.
  intros F Hj Hr. pose proof (fs_table _ _ _ _ _ F) as Hok. destruct (it_dev _ _ Hok j ip Hj Hr) as [Hd Hn].
  pose proof (txr_calm _ _ _ _ _ _ (fs_tx _ _ _ _ _ F)) as Hc. set (ip' := set_i_ref (i_ref ip + 1) ip).
  unfold idup. krun (zoom_acquire k_sysL L_itable k (ca_idle _ _ Hc L_itable I)).
  unfold upd_inode. rewrite bind_modify. change (k_itable (lset k_sysL _ k)) with (k_itable k).
  rewrite (alter_at _ _ _ _ Hj). krun (release_itable k (<[j := ip']> (k_itable k)) Hc).
  destruct (iget_counts V T c h k j ip ip' (i_inum ip)) as (H1 & H2 & H3 & H4); try done.
  - split; [simpl; lia|done].
  - by left.
  - eexists. split; [done|]. split; [exact H1|]. split; [exact H2|]. split; [done|]. split; [exact H3|].
    rewrite (iref_at V _ j ip), decide_False in H4 by (done || lia). lia.
Qed.

(** [iput] of an inode that has links: one reference less. *)
Lemma iput_ok V T c h k j ip :
  fstate V T c h k -> k_itable k !! j = Some ip -> 0 < i_ref ip -> d_nlink (disk_inode sb V (i_inum ip)) <> 0 ->
  exists k', iput (Some j) k = Ok tt k' /\ fstate V T c h k' /\ only_table k k' /\
    k_itable k' = <[j := set_i_ref (i_ref ip - 1) ip]> (k_itable k) /\
    (forall n, iref (k_itable k') n = iref (k_itable k) n - if decide (n = i_inum ip) then 1 else 0) /\
    ifree (k_itable k') = (ifree (k_itable k) + if decide (i_ref ip = 1%Z) then 1 else 0)%nat.
Proof.
  intros F Hj Hr Hl. pose proof (fs_table _ _ _ _ _ F) as Hok. destruct (it_dev _ _ Hok j ip Hj Hr) as [Hd Hn].
  pose proof (txr_calm _ _ _ _ _ _ (fs_tx _ _ _ _ _ F)) as Hc. set (ip' := set_i_ref (i_ref ip - 1) ip).
  assert (Hok' : itable_ok V (<[j := ip']> (k_itable k))).
  { apply (itable_insert V _ j ip); [done|done|simpl; lia|done|by left|].
    intros _ Hv. by apply (it_valid _ _ Hok j ip). }
  unfold iput. krun (zoom_acquire k_sysL L_itable k (ca_idle _ _ Hc L_itable I)). 
  krun (zoom_read k_sysL (deref (Some j)) (lset k_sysL (locked L_itable (k_sys k)) k) j eq_refl).
  krun (get_inode_ok j (lset k_sysL (locked L_itable (k_sys k)) k) ip Hj).
  assert (Hno : (i_ref ip =? 1) && i_valid ip && (i_nlink ip =? 0) = false).
  { destruct (i_valid ip) eqn:Hv; [|by rewrite andb_false_r]. apply andb_false_intro2, Z.eqb_neq.
    by rewrite <- (it_valid _ _ Hok j ip Hj Hr Hv) in Hl. }
  rewrite Hno, bind_ret. unfold upd_inode. rewrite bind_modify.
  change (k_itable (lset k_sysL _ k)) with (k_itable k). rewrite (alter_at _ _ _ _ Hj).
  rewrite (release_itable k (<[j := ip']> (k_itable k)) Hc).
  destruct (fstate_table V T c h k _ F Hok') as [F' Hot].
  eexists. split; [done|]. split; [exact F'|]. split; [exact Hot|]. split; [done|].
  pose proof (ifree_insert (k_itable k) j ip ip' Hj) as Hfr. simpl in Hfr |- *. split.
  - intros n. rewrite (iref_insert V _ j ip) by done. simpl. destruct (decide (n = i_inum ip)) as [->|Hne].
    + rewrite (iref_at V _ j ip) by done. repeat case_decide; lia.
    + rewrite !decide_False by (intros [_ E]; congruence). lia.
  - rewrite decide_False in Hfr by lia. repeat case_decide; lia.
Qed.

End Inodes.
