(* ===== verification/FsDir.v ===== *)
(** * Directories and the walk of a path

    The entries of a directory as the disk has them, the inode a path leads to,
    and [dirlookup], [namex], [namei] and [nameiparent] of [fs.c] in an operation
    of the log, shown to find it with the references counted. *)

From S2P Require Import Prelude Riscv Memory CString Sys Spinlock Proc Kalloc Sleeplock Uart Printf Console Bio Block Bcache BufCache Log Kernel Machine Fs File LogDisk LogOk LogCrash LogTx FsPath FsTx FsBlocks FsFile FsWrite FsOp FsInode.

Section Tree.
Context (sb : superblock) (dev : Z).
Implicit Types (V : Z -> block) (n : Z) (e : list byte).

(** ** The tree on the disk *)

(** Inode [n] as the disk has it. *)
Definition on_disk V n : inode := load_dinode (disk_inode sb V n) (set_i_dev dev inode_zero).

(** The bytes of entry [m] of directory [n]. *)
Definition dir_entry V n (m : nat) : list byte := file_bytes V (on_disk V n) (sizeof_dirent * Z.of_nat m) (Z.to_nat sizeof_dirent).

(** The number of entries, used or not. *)
Definition dir_count V n : nat := Z.to_nat (d_size (disk_inode sb V n) / sizeof_dirent).

Definition dir_entries V n : list (list byte) := map (dir_entry V n) (seq 0 (dir_count V n)).

(** The entry is used, and for the name [e]. *)
Definition names e (de : list byte) : bool :=
  negb (dirent_inum de =? 0) && bytes_eqb (until_nul (dirent_name de)) (take DIRSIZ e).

(** The inode of the first entry for [e]. *)
Definition dir_lookup V n e : option Z := dirent_inum <$> List.find (names e) (dir_entries V n).

Definition is_dir V n : bool := d_type (disk_inode sb V n) =? T_DIR.

(** The inode that the elements [es] of a path lead to from [n]. *)
Fixpoint walk_path V n (es : list (list byte)) : option Z :=
  match es with
  | [] => Some n
  | e :: es => if is_dir V n then match dir_lookup V n e with Some n' => walk_path V n' es | None => None end else None
  end.

(** The directory that has, or would have, the last element. *)
Definition walk_parent V n (es : list (list byte)) : option Z :=
  match last es with
  | None => None
  | Some _ =>
      match walk_path V n (removelast es) with
      | Some d => if is_dir V d then Some d else None
      | None => None
      end
  end.

Definition resolve V (parent : bool) n es : option Z := if parent then walk_parent V n es else walk_path V n es.

Lemma resolve_cons V parent n e es :
  resolve V parent n (e :: es) =
  if is_dir V n then
    if parent && (length es =? 0)%nat then Some n
    else match dir_lookup V n e with Some n' => resolve V parent n' es | None => None end
  else None.
Proof.
  destruct parent; [|done]. cbn [resolve andb]. destruct es as [|e' es].
  - unfold walk_parent. simpl. by destruct (is_dir V n).
  - unfold walk_parent. change (last (e :: e' :: es)) with (last (e' :: es)).
    change (removelast (e :: e' :: es)) with (e :: removelast (e' :: es)).
    destruct (last (e' :: es)) eqn:El; [|by apply last_None in El]. cbn [walk_path length Nat.eqb].
    destruct (is_dir V n); [|done]. by destruct (dir_lookup V n e).
Qed.

(** An allocated inode that some entry is for. *)
Record linked V n : Prop := {
  li_range : 0 <= n < sb_ninodes sb;
  li_type : d_type (disk_inode sb V n) <> 0;
  li_nlink : d_nlink (disk_inode sb V n) <> 0
}.

(** A directory: a sequence of whole entries, which are for linked inodes. *)
Record dir_ok V n : Prop := {
  di_file : file_ok sb dev V (on_disk V n);
  di_whole : whole V (on_disk V n);
  di_size : d_size (disk_inode sb V n) mod sizeof_dirent = 0;
  di_linked : forall de, de ∈ dir_entries V n -> dirent_inum de <> 0 -> linked V (dirent_inum de)
}.

Definition tree_ok V : Prop := forall n, linked V n -> is_dir V n = true -> dir_ok V n.

Lemma dir_lookup_linked V n e n' : dir_ok V n -> dir_lookup V n e = Some n' -> linked V n'.
Proof.
  intros H. unfold dir_lookup. destruct (List.find _ _) as [de|] eqn:E; [|done]. intros [= <-].
  apply List.find_some in E as [H1%list_elem_of_In [H2 _]%andb_true_iff]. apply (di_linked _ _ H); [done|].
  by apply negb_true_iff, Z.eqb_neq in H2.
Qed.

Lemma length_dirent_name V n m : length (dirent_name (dir_entry V n m)) = DIRSIZ.
Proof. unfold dirent_name. rewrite length_drop. unfold dir_entry. by rewrite length_file_bytes. Qed.

(** The test of [dirlookup]. *)
Lemma names_namecmp V n m name e :
  holds name e -> names e (dir_entry V n m) =
  negb (dirent_inum (dir_entry V n m) =? 0) && (namecmp name (dirent_name (dir_entry V n m)) =? 0).
Proof.
  intros [Hl Hu]. unfold names. f_equal. rewrite <- Hu.
  pose proof (namecmp_zero name (dirent_name (dir_entry V n m)) Hl (length_dirent_name V n m)) as H.
  destruct (bytes_eqb_spec (until_nul (dirent_name (dir_entry V n m))) (until_nul name)) as [E|E]; symmetry.
  - by apply Z.eqb_eq, H.
  - apply Z.eqb_neq. intros Hz. by apply E, eq_sym, H.
Qed.

(** The entries from [m] on. *)
Lemma dir_entries_from V n m :
  (m < dir_count V n)%nat -> drop m (dir_entries V n) = dir_entry V n m :: drop (S m) (dir_entries V n).
Proof.
  intros H. apply drop_S. unfold dir_entries. rewrite list_lookup_fmap, lookup_seq_lt by done. done.
Qed.

End Tree.

(** ** The code *)

Section Names.
Context {D : Type} `{!DiskDriver D} {mach : Machine} (me : nat) (dev start size : Z).
Context (txs : tx_state D) `{!TxOk me dev (home start size) txs} (sb : superblock).
Hypothesis L : layout start size sb.
Implicit Types (V : Z -> block) (tbl : list inode) (k : kernel D).
Local Abbreviation fstate := (fstate me dev txs sb).

(** Entry [j] is for inode [n]. *)
Definition entry_for (n : Z) (j : nat) k : Prop := exists ip, k_itable k !! j = Some ip /\ is_entry dev n ip.

(** One more reference, to inode [n], than in [k]. *)
Record gained (n : Z) k k' : Prop := {
  ga_refs : forall m, iref (k_itable k') m = iref (k_itable k) m + if decide (m = n) then 1 else 0;
  ga_free : (ifree (k_itable k') + (if decide (iref (k_itable k) n = 0%Z) then 1 else 0) = ifree (k_itable k))%nat
}.

(** Entries in use stay. *)
Definition keeps k k' : Prop :=
  forall i ip, k_itable k !! i = Some ip -> 0 < i_ref ip ->
    exists ip', k_itable k' !! i = Some ip' /\ 0 < i_ref ip' /\ i_inum ip' = i_inum ip.

Lemma iref_nonneg V tbl n : itable_ok dev sb V tbl -> 0 <= iref tbl n.
Proof.
  intros Hok. destruct (decide (iref tbl n = 0)) as [->|Hne]; [done|].
  destruct (iref_pos dev sb V tbl n Hok Hne) as (i & ip & _ & H & _ & ->). lia.
Qed.

Lemma iget_gained V T c h k n :
  fstate V T c h k -> 0 <= n < sb_ninodes sb -> (iref (k_itable k) n = 0 -> (0 < ifree (k_itable k))%nat) ->
  exists j k', iget dev n k = Ok j k' /\ fstate V T c h k' /\ only_table k k' /\ entry_for n j k' /\ gained n k k' /\
    keeps k k'.
Proof.
  intros F Hn Hf.
  destruct (iget_ok me dev start size txs sb V T c h k n F Hn Hf) as (j & ip & ip' & k' & E & F' & O & Hj & Ht & He & Hr & Hc & Hfr).
  assert (Hj' : k_itable k' !! j = Some ip') by (rewrite Ht; apply list_lookup_insert_eq; by eapply lookup_lt_Some).
  exists j, k'. split; [done|]. split; [done|]. split; [done|]. split; [by exists ip'|]. split; [by split|].
  intros i x Hi Hx. destruct (decide (i = j)) as [->|Hne].
  - simplify_eq. exists ip'. split; [done|]. rewrite Hr by done. simpl. split; [lia|done].
  - exists x. split; [|done]. by rewrite Ht, list_lookup_insert_ne.
Qed.

(** [readi] of one entry of a directory. *)
Lemma read_dirent_ok V T c h k j ip n m msg :
  fstate V T c h k -> k_itable k !! j = Some ip -> i_dev ip = dev -> dinode_of ip = disk_inode sb V n ->
  dir_ok sb dev V n -> (m < dir_count sb V n)%nat ->
  exists k', read_dirent j (sizeof_dirent * Z.of_nat m) msg k = Ok (dir_entry sb dev V n m) k' /\
    fstate V T c h k' /\ only_log k k'.
Proof.
  intros F Hj Hd Hdi [O1 O2 O3 _] Hm. unfold dir_count in Hm.
  assert (Ha : i_addrs ip = i_addrs (on_disk sb dev V n)) by (unfold on_disk; by rewrite <- Hdi).
  assert (Hs : i_size ip = d_size (disk_inode sb V n)) by (by rewrite <- Hdi).
  assert (Hf : file_ok sb dev V ip).
  { destruct O1 as [A1 A2 A3]. split; [by rewrite Ha|done|]. unfold block_addr, ind_addr. by rewrite Ha. }
  assert (Hw : whole V ip).
  { destruct O2 as [W1 W2]. split; [by rewrite Hs|]. unfold block_addr, ind_addr. by rewrite Ha, Hs. }
  assert (HS : sizeof_dirent = 16) by done. assert (HM : MAXFILE * BSIZE < 2 ^ 31) by done.
  pose proof (wh_size _ _ Hw) as Hsz. rewrite HS in *.
  assert (Hle : 16 * Z.of_nat m + 16 <= i_size ip) by (rewrite Hs in *; dlia).
  assert (Hr : readable ip (16 * Z.of_nat m) 16 = 16) by (unfold readable; rewrite decide_True; lia).
  destruct (readi_ok me dev start size txs sb L j ToLocal V ip T c k (16 * Z.of_nat m) 16 (fun _ k' => only_log k k'))
    as (k' & E & X & _ & O); [by apply F|done|done|done|done|lia|lia| |].
  { split; [|intros k1 k2 _ H1 H2; by etrans]. intros k1 tot m' H _ _ _ _. by exists k1. }
  rewrite Hr in E. unfold read_dirent. rewrite HS. krun E. exists k'. split; [|split; [by apply (fstate_log me dev txs sb V T c h k)|done]].
  unfold ret. f_equal. unfold dir_entry, file_bytes, file_byte, block_addr, ind_addr. by rewrite Ha.
Qed.

Lemma dirlookup_round V T c h k j ip n name e m :
  fstate V T c h k -> k_itable k !! j = Some ip -> i_dev ip = dev -> dinode_of ip = disk_inode sb V n ->
  dir_ok sb dev V n -> holds name e -> (0 < ifree (k_itable k))%nat -> (m < dir_count sb V n)%nat ->
  exists x k', dirlookup_body j name (sizeof_dirent * Z.of_nat m) k = Ok x k' /\ fstate V T c h k' /\
    if names e (dir_entry sb dev V n m) then
      exists j' off, x = inr (Some (j', off)) /\ only_table k k' /\ keeps k k' /\
        entry_for (dirent_inum (dir_entry sb dev V n m)) j' k' /\ gained (dirent_inum (dir_entry sb dev V n m)) k k'
    else x = inl (sizeof_dirent * Z.of_nat (S m)) /\ only_log k k'.
Proof.
  intros F Hj Hd Hdi Ho Hh Hf Hm. assert (Hlt : sizeof_dirent * Z.of_nat m < i_size ip).
  { replace (i_size ip) with (d_size (disk_inode sb V n)) by (by rewrite <- Hdi). unfold dir_count in Hm.
    change sizeof_dirent with 16 in *. pose proof (wh_size _ _ (di_whole _ _ _ _ Ho)) as [H _]. simpl in H. dlia. }
  destruct (read_dirent_ok V T c h k j ip n m "dirlookup read" F Hj Hd Hdi Ho Hm) as (k1 & E1 & F1 & O1).
  pose proof (only_log_itable _ _ O1) as I1. rewrite (names_namecmp sb dev V n m name e Hh).
  unfold dirlookup_body. krun (get_inode_ok j k ip Hj). rewrite (proj2 (Z.ltb_lt _ _) Hlt). cbn [negb]. krun E1.
  assert (Hnext : sizeof_dirent * Z.of_nat m + sizeof_dirent = sizeof_dirent * Z.of_nat (S m)) by lia.
  assert (Hin : dir_entry sb dev V n m ∈ dir_entries sb dev V n).
  { apply list_elem_of_In, List.in_map, List.in_seq. lia. }
  set (de := dir_entry sb dev V n m) in *.
  destruct (Z.eqb_spec (dirent_inum de) 0) as [Hz|Hz]; cbn [negb andb]; [by eexists _, k1; rewrite Hnext|].
  destruct (Z.eqb_spec (namecmp name (dirent_name de)) 0) as [Hc|Hc]; [|by eexists _, k1; rewrite Hnext].
  destruct (iget_gained V T c h k1 (dirent_inum de) F1) as (j' & k2 & E2 & F2 & O2 & H2 & G2 & K2);
    [by apply (di_linked _ _ _ _ Ho)|by rewrite I1|].
  rewrite Hd. krun E2. eexists _, k2. split; [done|]. split; [done|]. eexists j', _. split; [done|].
  split; [etrans; [by apply only_log_table|done]|]. split; [intros i x H; rewrite <- I1 in H; by apply K2|].
  split; [done|]. destruct G2 as [G1 G2]. rewrite I1 in G1, G2. by split.
Qed.

(** The loop of [dirlookup], from entry [m] on. *)
Lemma dirlookup_loop V T c h j ip n name e : forall fuel m k,
  fstate V T c h k -> k_itable k !! j = Some ip -> i_dev ip = dev -> dinode_of ip = disk_inode sb V n ->
  dir_ok sb dev V n -> holds name e -> (0 < ifree (k_itable k))%nat ->
  (m <= dir_count sb V n)%nat -> (dir_count sb V n - m < fuel)%nat ->
  exists r k', while fuel (dirlookup_body j name) (sizeof_dirent * Z.of_nat m) k = Ok r k' /\ fstate V T c h k' /\
    match dirent_inum <$> List.find (names e) (drop m (dir_entries sb dev V n)) with
    | Some n' => exists j' off, r = Some (j', off) /\ only_table k k' /\ keeps k k' /\ entry_for n' j' k' /\ gained n' k k'
    | None => r = None /\ only_log k k'
    end.
Proof.
  induction fuel as [|fuel IH]; intros m k F Hj Hd Hdi Ho Hh Hf Hm Hfuel; [lia|]. cbn [while].
  destruct (decide (m = dir_count sb V n)) as [->|Hne].
  { rewrite (bind_Ok _ _ _ (inr None) k).
    - exists None, k. split; [done|]. split; [done|].
      by rewrite drop_ge by (unfold dir_entries; by rewrite length_map, length_seq).
    - unfold dirlookup_body. krun (get_inode_ok j k ip Hj). rewrite (proj2 (Z.ltb_ge _ (i_size ip))); [done|].
      replace (i_size ip) with (d_size (disk_inode sb V n)) by (by rewrite <- Hdi). unfold dir_count.
      pose proof (di_size _ _ _ _ Ho) as Hmod. change sizeof_dirent with 16 in *. dlia. }
  destruct (dirlookup_round V T c h k j ip n name e m) as (x & k1 & E1 & F1 & R); try done; [lia|].
  rewrite (bind_Ok _ _ _ _ _ E1), (dir_entries_from sb dev V n m) by lia. cbn [List.find].
  destruct (names e (dir_entry sb dev V n m)).
  - destruct R as (j' & off & -> & R). exists (Some (j', off)), k1. split; [done|]. split; [done|]. by exists j', off.
  - destruct R as [-> O1]. pose proof (only_log_itable _ _ O1) as I1.
    destruct (IH (S m) k1) as (r & k2 & E2 & F2 & R); try done; try lia; [by rewrite I1|by rewrite I1|].
    exists r, k2. split; [done|]. split; [done|]. destruct (_ <$> _) as [n'|].
    + destruct R as (j' & off & -> & R1 & R2 & R3 & [R4 R5]). exists j', off. split; [done|].
      split; [etrans; [by apply only_log_table|done]|]. split; [intros i x H; rewrite <- I1 in H; by apply R2|].
      split; [done|]. rewrite I1 in R4, R5. by split.
    + destruct R as [-> R]. split; [done|]. by etrans.
Qed.

(** [dirlookup]: a reference to the inode of the first entry with the name. *)
Lemma dirlookup_ok V T c h k j ip n name e :
  fstate V T c h k -> k_itable k !! j = Some ip -> i_dev ip = dev -> dinode_of ip = disk_inode sb V n ->
  is_dir sb V n = true -> dir_ok sb dev V n -> holds name e -> (0 < ifree (k_itable k))%nat ->
  exists r k', dirlookup j name k = Ok r k' /\ fstate V T c h k' /\
    match dir_lookup sb dev V n e with
    | Some n' => exists j' off, r = Some (j', off) /\ only_table k k' /\ keeps k k' /\ entry_for n' j' k' /\ gained n' k k'
    | None => r = None /\ only_log k k'
    end.
Proof.
  intros F Hj Hd Hdi Ht Ho Hh Hf. unfold dirlookup. krun (get_inode_ok j k ip Hj).
  assert (Ht' : i_type ip = T_DIR) by (unfold is_dir in Ht; rewrite <- Hdi in Ht; by apply Z.eqb_eq in Ht).
  rewrite Ht', Z.eqb_refl. cbn [negb].
  destruct (dirlookup_loop V T c h j ip n name e (S (Z.to_nat ((i_size ip + 15) / sizeof_dirent))) 0 k)
    as (r & k' & E & F' & R); try done; [lia| |by exists r, k'].
  replace (i_size ip) with (d_size (disk_inode sb V n)) by (by rewrite <- Hdi). unfold dir_count.
  pose proof (wh_size _ _ (di_whole _ _ _ _ Ho)) as [H _]. simpl in H. change sizeof_dirent with 16. dlia.
Qed.

(** *** The walk *)

(** A reference to [n] is given back. *)
Record dropped (n : Z) k k' : Prop := {
  dr_refs : forall m, iref (k_itable k') m = iref (k_itable k) m - if decide (m = n) then 1 else 0;
  dr_free : ifree (k_itable k') = (ifree (k_itable k) + if decide (iref (k_itable k) n = 1%Z) then 1 else 0)%nat;
  dr_entry : forall n' j, entry_for n' j k -> 0 < iref (k_itable k') n' -> entry_for n' j k'
}.

Lemma iput_dropped V T c h k j n :
  fstate V T c h k -> entry_for n j k -> d_nlink (disk_inode sb V n) <> 0 ->
  exists k', iput (Some j) k = Ok tt k' /\ fstate V T c h k' /\ only_table k k' /\ dropped n k k'.
Proof.
  intros F (ip & Hj & Hr & Hd & <-) Hl. pose proof (fs_table _ _ _ _ _ _ _ _ _ F) as Hok.
  destruct (iput_ok me dev start size txs sb V T c h k j ip F Hj Hr Hl) as (k' & E & F' & O & Ht & Hc & Hf).
  exists k'. split; [done|]. split; [done|]. split; [done|]. pose proof (iref_at dev sb V _ j ip Hok Hj Hr) as Hat.
  split; [done|by rewrite Hat|]. intros n' j' (x & Hx & Hxr & Hxd & <-) Hp. destruct (decide (j' = j)) as [->|Hne].
  - simplify_eq. exists (set_i_ref (i_ref ip - 1) ip). rewrite Ht, list_lookup_insert_eq by (by eapply lookup_lt_Some).
    split; [done|]. split; [|done]. simpl. rewrite Hc, decide_True in Hp by done. lia.
  - exists x. by rewrite Ht, list_lookup_insert_ne.
Qed.

Lemma iunlockput_ok V T c k j n :
  fstate V T c (Some j) k -> entry_for n j k -> d_nlink (disk_inode sb V n) <> 0 ->
  exists k', iunlockput (Some j) k = Ok tt k' /\ fstate V T c None k' /\ only_table k k' /\ dropped n k k'.
Proof.
  intros F (ip & Hj & Hr & He) Hl. destruct (iunlock_ok me dev start size txs sb V T c k j ip F Hj Hr) as (k1 & E1 & F1 & O1 & I1).
  destruct (iput_dropped V T c None k1 j n F1) as (k2 & E2 & F2 & O2 & [D1 D2 D3]); [by exists ip; rewrite I1|done|].
  exists k2. split; [unfold iunlockput; by krun E1|]. split; [done|]. split; [by etrans|].
  rewrite I1 in D1, D2. split; [done|done|]. intros n' j' (x & Hx). apply D3. exists x. by rewrite I1.
Qed.

(** What was gained is given back. *)
Lemma gained_dropped V n k0 k k' :
  itable_ok dev sb V (k_itable k0) -> gained n k0 k -> dropped n k k' -> same_refs (k_itable k0) (k_itable k').
Proof.
  intros Hok [G1 G2] [D1 D2 _]. pose proof (iref_nonneg V _ n Hok). split.
  - intros m. rewrite D1, G1. lia.
  - rewrite D2, G1, (decide_True (P := n = n)) by done. repeat case_decide; lia.
Qed.

(** One step from [n] to [n']. *)
Lemma gained_step V n n' k0 k1 k2 k3 :
  itable_ok dev sb V (k_itable k0) -> gained n k0 k1 -> gained n' k1 k2 -> dropped n k2 k3 -> gained n' k0 k3.
Proof.
  intros Hok [G1 G2] [H1 H2] [D1 D2 _]. pose proof (iref_nonneg V _ n Hok). pose proof (iref_nonneg V _ n' Hok). split.
  - intros m. rewrite D1, H1, G1. lia.
  - rewrite H1, G1 in D2. rewrite G1 in H2. rewrite (decide_True (P := n = n)) in D2 by done.
    destruct (decide (n = n')) as [<-|Hne].
    + rewrite (decide_True (P := n = n)) in H2 by done. repeat case_decide; lia.
    + rewrite (decide_False (P := n' = n)) in H2 by done. repeat case_decide; lia.
Qed.

Lemma gained_same n k0 k k' : gained n k0 k -> same_refs (k_itable k) (k_itable k') -> gained n k0 k'.
Proof. intros [G1 G2] [S1 S2]. split; [intros m; by rewrite S1, G1|]. by rewrite S2. Qed.

Lemma same_refs_eq tbl tbl' : tbl' = tbl -> same_refs tbl tbl'.
Proof. by intros ->. Qed.

(** The result of a walk: a reference to the inode, and none else. *)
Definition found k0 (o : option Z) (r : option nat) k : Prop :=
  match o with
  | Some n => exists j, r = Some j /\ entry_for n j k /\ gained n k0 k
  | None => r = None /\ same_refs (k_itable k0) (k_itable k)
  end.

(** On the way: a reference to [n], at entry [j], and none else. *)
Record at_inode V T c k0 (n : Z) (j : nat) k : Prop := {
  at_state : fstate V T c None k;
  at_only : only_table k0 k;
  at_entry : entry_for n j k;
  at_gained : gained n k0 k;
  at_linked : linked sb V n
}.

Lemma at_ilock V T c k0 n j k :
  at_inode V T c k0 n j k ->
  exists ip k1, ilock (Some j) k = Ok tt k1 /\ fstate V T c (Some j) k1 /\ only_table k0 k1 /\ gained n k0 k1 /\
    k_itable k1 !! j = Some ip /\ is_entry dev n ip /\ dinode_of ip = disk_inode sb V n.
Proof.
  intros [F O (ip & Hj & Hr & Hd & <-) G [_ Ht _]].
  destruct (ilock_ok me dev start size txs sb L V T c k j ip F Hj Hr Ht) as (k1 & E & F1 & O1 & I1 & S1).
  exists (loaded sb V ip), k1. split; [done|]. split; [done|]. split; [by etrans|]. split; [by apply (gained_same _ _ k)|].
  split; [rewrite I1; apply list_lookup_insert_eq; by eapply lookup_lt_Some|]. split; [done|]. apply dinode_of_loaded.
Qed.

(** The name [nameiparent] leaves. *)
Definition last_name (parent : bool) (es : list (list byte)) (r : option nat) (name : list byte) : Prop :=
  parent = true -> is_Some r -> exists e, last es = Some e /\ holds name e.

Record arrived V T c k0 parent (n : Z) (es : list (list byte)) (r : option nat) (name : list byte) k : Prop := {
  ar_state : fstate V T c None k;
  ar_only : only_table k0 k;
  ar_found : found k0 (resolve sb dev V parent n es) r k;
  ar_name : last_name parent es r name
}.

(** The step to the inode of the next element, with the directory locked. *)
Lemma namex_step V T c k0 n j ip name e k :
  tree_ok sb dev V -> itable_ok dev sb V (k_itable k0) -> (2 <= ifree (k_itable k0))%nat ->
  fstate V T c (Some j) k -> only_table k0 k -> gained n k0 k -> k_itable k !! j = Some ip -> is_entry dev n ip ->
  dinode_of ip = disk_inode sb V n -> linked sb V n -> is_dir sb V n = true -> holds name e ->
  exists r k1 k2, dirlookup j name k = Ok r k1 /\ iunlockput (Some j) k1 = Ok tt k2 /\
    match dir_lookup sb dev V n e with
    | Some n' => exists j' off, r = Some (j', off) /\ at_inode V T c k0 n' j' k2
    | None => r = None /\ fstate V T c None k2 /\ only_table k0 k2 /\ same_refs (k_itable k0) (k_itable k2)
    end.
Proof.
  intros Ht Hok Hfree F O G Hj (Hr & Hd & Hi) Hdi Hl Hdir Hh.
  destruct (dirlookup_ok V T c (Some j) k j ip n name e) as (r & k1 & E1 & F1 & R); try done; [by apply Ht| |].
  { pose proof (ga_free _ _ _ G). case_decide; lia. }
  destruct (dir_lookup sb dev V n e) as [n'|] eqn:El.
  - destruct R as (j' & off & -> & O1 & K1 & He1 & G1). destruct (K1 j ip Hj Hr) as (ip' & Hj' & Hr' & Hi').
    assert (He1' : entry_for n j k1).
    { exists ip'. split; [done|]. split; [done|]. split; [|congruence]. by apply (it_dev _ _ _ _ (fs_table _ _ _ _ _ _ _ _ _ F1) j). }
    destruct (iunlockput_ok V T c k1 j n F1 He1' (li_nlink _ _ _ Hl)) as (k2 & E2 & F2 & O2 & D2).
    pose proof (gained_step V n n' k0 k k1 k2 Hok G G1 D2) as G2.
    exists (Some (j', off)), k1, k2. split; [done|]. split; [done|]. exists j', off. split; [done|].
    split; [done|by do 2 (etrans; [done|])| |done|by apply (dir_lookup_linked sb dev V n e), El; apply Ht].
    apply (dr_entry _ _ _ D2); [done|]. rewrite (ga_refs _ _ _ G2), decide_True by done.
    pose proof (iref_nonneg V _ n' Hok). lia.
  - destruct R as [-> O1]. pose proof (only_log_itable _ _ O1) as I1.
    assert (He1 : entry_for n j k1) by (exists ip; by rewrite I1).
    destruct (iunlockput_ok V T c k1 j n F1 He1 (li_nlink _ _ _ Hl)) as (k2 & E2 & F2 & O2 & D2).
    exists None, k1, k2. split; [done|]. split; [done|]. split; [done|]. split; [done|].
    split; [etrans; [exact O|]; etrans; [by apply only_log_table|done]|].
    apply (gained_dropped V n k0 k1 k2 Hok); [|done]. eapply gained_same; [done|]. by apply same_refs_eq.
Qed.

(** One round ends the walk, or goes on from the next inode. *)
Lemma namex_round V T c k0 parent n j path name k :
  tree_ok sb dev V -> itable_ok dev sb V (k_itable k0) -> (2 <= ifree (k_itable k0))%nat ->
  at_inode V T c k0 n j k -> length name = DIRSIZ -> Byte.x00 ∉ path ->
  exists x k', namex_body parent (j, path, name) k = Ok x k' /\
    match x with
    | inr (r, name') => arrived V T c k0 parent n (elements path) r name' k'
    | inl (j', path', name') => exists n', at_inode V T c k0 n' j' k' /\ length name' = DIRSIZ /\ (Byte.x00 ∉ path') /\
        (length path' < length path)%nat /\ resolve sb dev V parent n (elements path) = resolve sb dev V parent n' (elements path') /\
        (parent = true -> last (elements path) = last (elements path'))
    end.
Proof.
  intros Ht Hok Hfree At Hn Hp. pose proof (skipelem_ok path name Hn Hp) as Hs. unfold namex_body.
  destruct (skipelem path name) as [[rest name']|].
  2: { rewrite Hs. destruct At as [F O He G Hl]. destruct parent.
    - destruct (iput_dropped V T c None k j n F He (li_nlink _ _ _ Hl)) as (k1 & E1 & F1 & O1 & D1). krun E1.
      eexists _, k1. split; [done|]. split; [done|by etrans| |intros _ [? ?]; done]. split; [done|]. by eapply gained_dropped.
    - eexists _, k. split; [done|]. split; [done|done| |done]. by exists j. }
  destruct Hs as (e & Ee & [Hl' Hu] & Hlen & Hp' & Hnil). rewrite Ee.
  pose proof (resolve_cons sb dev V parent n e (elements rest)) as Hres.
  destruct (at_ilock V T c k0 n j k At) as (ip & k1 & E1 & F1 & O1 & G1 & Hj & Hen & Hdi). krun E1.
  pose proof (at_linked _ _ _ _ _ _ _ At) as Hl. krun (get_inode_ok j k1 ip Hj).
  assert (Hty : (i_type ip =? T_DIR) = is_dir sb V n) by (unfold is_dir; by rewrite <- Hdi). rewrite Hty.
  destruct (is_dir sb V n) eqn:Hdir; cbn [negb].
  2: { destruct (iunlockput_ok V T c k1 j n F1 ltac:(by exists ip) (li_nlink _ _ _ Hl)) as (k2 & E2 & F2 & O2 & D2).
    krun E2. eexists _, k2. split; [done|]. split; [done|by etrans| |intros _ [? ?]; done].
    rewrite Hres. split; [done|]. by apply (gained_dropped V n k0 k1). }
  assert (Hz : (length rest =? 0)%nat = (length (elements rest) =? 0)%nat).
  { destruct rest as [|b rest]; [done|]. destruct (elements (b :: rest)) eqn:El; [|done]. by pose proof (proj2 Hnil eq_refl). }
  rewrite <- Hz in Hres. destruct (parent && (length rest =? 0)%nat) eqn:Epar.
  { destruct (iunlock_ok me dev start size txs sb V T c k1 j ip F1 Hj) as (k3 & E3 & F3 & O3 & I3); [apply Hen|].
    krun E3. eexists _, k3. split; [done|]. split; [done|by etrans| |].
    - rewrite Hres. exists j. split; [done|]. split; [exists ip; by rewrite I3|]. eapply gained_same; [done|by apply same_refs_eq].
    - intros _ _. exists e. split; [|done]. apply andb_true_iff in Epar as [_ H%Nat.eqb_eq].
      apply nil_length_inv, Hnil in H. by rewrite H. }
  destruct (namex_step V T c k0 n j ip name' e k1) as (r & k2 & k3 & E2 & E3 & R); try done.
  krun E2. destruct (dir_lookup sb dev V n e) as [n'|] eqn:El.
  - destruct R as (j' & off & -> & At'). krun E3. eexists _, k3. split; [done|]. exists n'.
    split; [done|]. split; [done|]. split; [done|]. split; [done|]. split; [done|].
    intros ->. cbn [andb] in Epar. rewrite Hz in Epar. by destruct (elements rest).
  - destruct R as (-> & F3 & O3 & S3). krun E3. eexists _, k3. split; [done|]. split; [done|done| |intros _ [? ?]; done].
    by rewrite Hres.
Qed.

Lemma namex_loop V T c k0 parent : 
  tree_ok sb dev V -> itable_ok dev sb V (k_itable k0) -> (2 <= ifree (k_itable k0))%nat ->
  forall fuel n j path name k, at_inode V T c k0 n j k -> length name = DIRSIZ -> Byte.x00 ∉ path ->
  (length path < fuel)%nat ->
  exists r name' k', while fuel (namex_body parent) (j, path, name) k = Ok (r, name') k' /\
    arrived V T c k0 parent n (elements path) r name' k'.
Proof.
  intros Ht Hok Hfree. induction fuel as [|fuel IH]; intros n j path name k At Hn Hp Hfuel; [lia|]. cbn [while].
  destruct (namex_round V T c k0 parent n j path name k) as (x & k1 & E & R); try done. rewrite (bind_Ok _ _ _ _ _ E).
  destruct x as [[[j' path'] name']|[r name']]; [|by exists r, name', k1].
  destruct R as (n' & At' & Hn' & Hp' & Hlt & Er & El).
  destruct (IH n' j' path' name' k1 At' Hn' Hp') as (r & name2 & k2 & E2 & [A1 A2 A3 A4]); [lia|].
  exists r, name2, k2. split; [done|]. split; [done|done|by rewrite Er|].
  intros Hpar Hr. rewrite El by done. by apply A4.
Qed.

Definition absolute (path : list byte) : bool := match path with b :: _ => Byte.eqb b SLASH | [] => false end.

(** The walk of [path] starts at inode [n]: the root, or the current directory. *)
Definition starts_at k (path : list byte) (n : Z) : Prop :=
  if absolute path then dev = ROOTDEV /\ n = ROOTINO
  else exists j, p_cwd (proc_of (k_sys k) me) = Some j /\ entry_for n j k.

Lemma idup_cwd V T c k n j :
  fstate V T c None k -> linked sb V n -> p_cwd (proc_of (k_sys k) me) = Some j -> entry_for n j k ->
  exists k', (let! cwd := my_cwd in let! i := zoom k_sysL (deref cwd) in idup i) k = Ok j k' /\
    at_inode V T c k n j k'.
Proof.
  intros F Hl Hj (ip & Hi & Hr & Hd & <-). pose proof (txr_calm _ _ _ _ _ _ (fs_tx _ _ _ _ _ _ _ _ _ F)) as Hc.
  assert (E1 : my_cwd k = Ok (Some j) k).
  { unfold my_cwd. assert (E : zoom k_sysL myproc k = Ok (Some me) k).
    { apply (zoom_read k_sysL). simpl. rewrite myproc_settled by apply Hc. by rewrite (ca_me _ _ Hc). }
    krun E. krun (zoom_read k_sysL (deref (Some me)) k me eq_refl). unfold gets. by rewrite Hj. }
  krun E1. krun (zoom_read k_sysL (deref (Some j)) k j eq_refl).
  destruct (idup_ok me dev start size txs sb V T c None k j ip F Hi Hr) as (k' & E & F' & O & Ht & Hc' & Hf).
  exists k'. split; [done|]. split; [done|done| | |done].
  - eexists. rewrite Ht, list_lookup_insert_eq by (by eapply lookup_lt_Some). split; [done|]. split; [simpl; lia|done].
  - split; [done|]. rewrite (iref_at dev sb V _ j ip), decide_False by (lia || apply F || done). lia.
Qed.

Lemma namex_start V T c k path n :
  fstate V T c None k -> linked sb V n -> (0 < ifree (k_itable k))%nat -> starts_at k path n ->
  exists j k', (match path with
                | b :: _ =>
                    if Byte.eqb b SLASH then iget ROOTDEV ROOTINO
                    else let! cwd := my_cwd in let! i := zoom k_sysL (deref cwd) in idup i
                | [] => let! cwd := my_cwd in let! i := zoom k_sysL (deref cwd) in idup i
                end) k = Ok j k' /\ at_inode V T c k n j k'.
Proof.
  intros F Hl Hf Hs. unfold starts_at in Hs. destruct path as [|b path].
  { destruct Hs as (j & Hj & He). exists j. by apply idup_cwd. }
  simpl in Hs. destruct (Byte.eqb b SLASH).
  - destruct Hs as [<- ->].
    destruct (iget_gained V T c None k ROOTINO F (li_range _ _ _ Hl)) as (j & k' & E & F' & O & He & G & _); [done|].
    by exists j, k'.
  - destruct Hs as (j & Hj & He). exists j. by apply idup_cwd.
Qed.

(** C9: [namex], and so [namei] and [nameiparent], resolve a path: in an operation
    of the log, on a disk whose directories are well formed, they find the inode
    that the elements of the path lead to from the root or from the current
    directory (for [nameiparent] the directory of the last element, which is left
    in the name buffer), or no inode when an element is missing or is not a
    directory.  The caller gets one reference to that inode; every other count of
    references in the table is as before, no inode stays locked and no block is
    logged. *)
Theorem namex_correct (V : Z -> block) (T : list Z) (c : nat) (k : kernel D) (path name : list byte) (parent : bool) (n : Z)
    (Htree : tree_ok sb dev V) (Hstate : fstate V T c None k) (Hfree : (2 <= ifree (k_itable k))%nat)
    (Hname : length name = DIRSIZ) (Hpath : Byte.x00 ∉ path) (Hstart : starts_at k path n) (Hlinked : linked sb V n) :
  exists r name' k', namex path parent name k = Ok (r, name') k' /\
    arrived V T c k parent n (elements path) r name' k'.
Proof.
  destruct (namex_start V T c k path n Hstate Hlinked ltac:(lia) Hstart) as (j & k1 & E1 & At).
  unfold namex. krun E1. apply (namex_loop V T c k parent Htree); try done; [by apply Hstate|lia].
Qed.

End Names.
