(* ===== verification/FsDemo.v ===== *)
(** * A small file system

    A disk with an empty file, on which the theorems about [fs.c] apply: the
    layout [mkfs] makes, a bitmap in which the blocks before the data are marked,
    and inode 1, a file without blocks; a process with two pages of memory. *)

From S2P Require Import Prelude Riscv Memory CString Sys Spinlock Proc Kalloc Vm PageTable Uvm UserCopy Sleeplock Either Uart Printf Console Pipe Bio Block Bcache BufCache Log Kernel Machine Fs File LogDisk LogOk LogCrash LogTx FsTx FsBlocks FsFile FsUser FsWrite FsOp.

#[local] Existing Instance demo_machine.

(** Blocks 0 to 45 are in use. *)
Definition demo_bitmap : block :=
  replicate 5 Byte.xff ++ [Byte.x3f] ++ replicate (Z.to_nat BSIZE - 6) Byte.x00.

Definition demo_ip : inode := Inode 1 1 1 true T_FILE 0 0 1 0 (replicate (S NDIRECT) 0).

Definition demo_inodes : block := put_dinode (dinode_off 1) (dinode_of demo_ip) zero_block.

Definition demo_disk : disk := dk_put 32 demo_inodes (dk_put 45 demo_bitmap empty_disk).

Definition demo_kernel (t : bio disk) (m : mem) : kernel disk :=
  Kernel (ram_log t) 0 m [] [] 0 0 false true [] [] 0 0 0 [] ram_sb (demo_ip :: replicate 49 inode_zero)
    0 false csr_zero [] 0 true.

Lemma demo_layout : layout 2 30 ram_sb.
Proof. split; vm_compute; intuition congruence. Qed.

Lemma demo_get b : dk_get demo_disk b = if decide (b = 32) then demo_inodes else if decide (b = 45) then demo_bitmap else zero_block.
Proof. unfold demo_disk. by rewrite !dk_get_put, empty_disk_get. Qed.

Lemma demo_inodes_len : length demo_inodes = Z.to_nat BSIZE.
Proof. vm_compute. reflexivity. Qed.

Lemma demo_len b : length (dk_get demo_disk b) = Z.to_nat BSIZE.
Proof.
  rewrite demo_get. case_decide; [apply demo_inodes_len|]. case_decide; [reflexivity|]. apply length_replicate.
Qed.

Lemma demo_bits :
  forallb (fun n => Bool.eqb (bit_set demo_bitmap (Z.of_nat n)) (Z.of_nat n <? 46)) (seq 0 2000) = true.
Proof. vm_compute. reflexivity. Qed.

(** The marks of the bitmap. *)
Lemma demo_used b : 0 <= b < 2000 -> used ram_sb (dk_get demo_disk) b = (b <? 46).
Proof.
  intros Hb. assert (E : BBLOCK b ram_sb = 45).
  { unfold BBLOCK. change (sb_bmapstart ram_sb) with 45. change BPB with 8192. rewrite Z.div_small by lia. done. }
  unfold used. rewrite E, demo_get, decide_False, decide_True by done. change BPB with 8192.
  rewrite Z.mod_small by lia. pose proof (proj1 (forallb_forall _ _) demo_bits (Z.to_nat b)) as H.
  cbv beta in H. rewrite Z2Nat.id in H by lia. apply Bool.eqb_prop, H, in_seq. lia.
Qed.

Lemma demo_meta : meta_used ram_sb (dk_get demo_disk).
Proof.
  intros b Hb. change (datastart ram_sb) with 46 in Hb. rewrite demo_used by lia. apply Z.ltb_lt. lia.
Qed.

Lemma demo_no_blocks V bn : 0 <= bn -> block_addr V demo_ip bn = 0.
Proof.
  intros Hb. unfold block_addr. case_decide.
  - unfold demo_ip. cbn [i_addrs]. unfold NDIRECT in *. rewrite list_lookup_total_alt, lookup_replicate_2 by lia. done.
  - done.
Qed.

Lemma demo_file_ok : file_ok ram_sb 1 (dk_get demo_disk) demo_ip.
Proof.
  split; [done|done|]. split.
  - intros H. destruct H. reflexivity.
  - intros bn Hb H. by rewrite demo_no_blocks in H by lia.
  - intros bn bn' Hb Hb' H. by rewrite demo_no_blocks in H by lia.
  - intros bn Hb H. by rewrite demo_no_blocks in H by lia.
Qed.

Lemma demo_whole : whole (dk_get demo_disk) demo_ip.
Proof.
  split; [vm_compute; intuition congruence|]. intros bn Hb H. change (i_size demo_ip) with 0 in H.
  change BSIZE with 1024 in H. lia.
Qed.

Lemma demo_dinode : dinode_ok (dinode_of demo_ip).
Proof.
  split; try (cbn; unfold T_FILE; lia). split; [done|]. intros a Ha.
  apply elem_of_replicate in Ha as [-> _]. lia.
Qed.

Lemma demo_free_blocks n : (n <= 100)%nat -> has_free ram_sb (dk_get demo_disk) n.
Proof.
  intros Hn. exists (map (fun j => 46 + Z.of_nat j) (seq 0 n)). split; [|split].
  - apply NoDup_fmap_2; [intros x y; lia|apply NoDup_seq].
  - by rewrite length_map, length_seq.
  - intros b (j & -> & Hj)%list_elem_of_fmap. apply elem_of_seq in Hj. change (datastart ram_sb) with 46.
    change (sb_size ram_sb) with 2000. split; [lia|]. rewrite demo_used by lia. apply Z.ltb_ge. lia.
Qed.

Lemma demo_disk_inode : disk_inode ram_sb (dk_get demo_disk) 1 = dinode_of demo_ip.
Proof.
  unfold disk_inode. change (IBLOCK 1 ram_sb) with 32. rewrite demo_get, decide_True by done.
  apply dinode_roundtrip_ok; [apply demo_dinode|]. vm_compute. lia.
Qed.

(** A quiet kernel on this disk, with a process that has memory. *)
Lemma demo_quiet (y : sys) (m : mem) : calm 0 y ->
  exists t : bio disk, quiet 1 2 30 ram_obs (ram_log t) /\ o_free ram_obs t = NBUF /\ the_disk t = demo_disk /\
    k_sys (demo_kernel t m) = y.
Proof.
  intros Hy. destruct (ram_fresh_on demo_disk y demo_len Hy) as (t & Hf & Hn & Hd & Hs). exists t. split; [|done].
  split; [done|apply ram_lists|done|done|done|]. change (lg_bio (ram_log t)) with t. rewrite Hd, demo_get.
  rewrite !decide_False by done. split; [vm_compute; reflexivity|]. intros i b H. discriminate.
Qed.

Abbreviation demo_txs := (txs 1 2 30 ram_obs (Z.to_nat MAXOPBLOCKS) demo_disk).

#[local] Instance demo_tx_ok : TxOk (D := disk) 0 1 (home 2 30) demo_txs.
Proof.
  refine (log_tx 0 1 2 30 ram_obs (Z.to_nat MAXOPBLOCKS) demo_disk ltac:(lia) ltac:(lia) _).
  vm_compute. intuition congruence.
Qed.

Lemma demo_writable n t m : (n <= 99)%nat -> writable_file 1 ram_sb demo_disk 0 demo_ip n (demo_kernel t m).
Proof.
  intros Hn. split; [reflexivity|reflexivity|vm_compute; intuition congruence|apply demo_disk_inode|apply demo_dinode|apply demo_file_ok|apply demo_whole|apply demo_meta|].
  apply demo_free_blocks. change (need demo_ip) with 1%nat. lia.
Qed.

(** The kernel in an operation, about to write the file. *)
Lemma demo_op (y : sys) (m : mem) : calm 0 y ->
  exists k : kernel disk, on_file 1 demo_txs ram_sb 0 (dk_get demo_disk) demo_ip (op_blocks ram_sb demo_ip) 1 k /\
    k_mem k = m /\ woken y (k_sys k).
Proof.
  intros Hy. destruct (demo_quiet y m Hy) as (t & Hq & Hn & Hd & Hs).
  destruct (fs_begin_ok 0 1 2 30 ram_obs (Z.to_nat MAXOPBLOCKS) demo_disk (demo_kernel t m) Hq Hd) as (k & _ & K & F).
  { change (lg_bio (k_log (demo_kernel t m))) with t. rewrite Hn. unfold NBUF. simpl. lia. }
  exists k. split; [|split; [by rewrite (only_log_mem (demo_kernel t m))|]].
  - apply (start_write 1 2 30 ram_obs ram_sb demo_disk demo_layout 0 demo_ip 1 (demo_kernel t m));
      [by apply demo_writable; lia|exact F|exact K|]. vm_compute. discriminate.
  - rewrite <- Hs. apply F.
Qed.

Lemma balloc_correct_witness : exists (k k' : kernel disk) nb, balloc 1 k = Ok nb k' /\ 46 <= nb < 2000.
Proof.
  destruct (demo_op calm_sys ∅ calm_sys_ok) as (k & Hon & _ & _). destruct Hon as [H1 H2 H3 H4 H5 H6 H7 H8].
  destruct (balloc_correct 0 1 2 30 demo_txs ram_sb demo_layout (dk_get demo_disk) [] (op_blocks ram_sb demo_ip) 1 k H1)
    as [(nb & k' & V' & E & F & _)|[Hno _]].
  - split; [exact H2|exact demo_meta| |simpl; lia|exact H6]. intros b Hb. by apply not_elem_of_nil in Hb.
  - exists k, k', nb. split; [exact E|apply F].
  - specialize (Hno 46 ltac:(vm_compute; intuition congruence)). rewrite demo_used in Hno by lia. discriminate.
Defined.

Lemma bfree_correct_witness : exists (k k' : kernel disk), bfree 1 40 k = Ok tt k'.
Proof.
  destruct (demo_op calm_sys ∅ calm_sys_ok) as (k & Hon & _ & _). destruct Hon as [H1 H2 H3 H4 H5 H6 H7 H8].
  destruct (bfree_correct 0 1 2 30 demo_txs ram_sb demo_layout (dk_get demo_disk) [] (op_blocks ram_sb demo_ip) _ k 40 H1 H2)
    as [Hf _].
  - vm_compute. intuition congruence.
  - apply not_elem_of_nil.
  - apply H6. vm_compute. intuition congruence.
  - simpl. lia.
  - destruct Hf as (k' & V' & E & _); [rewrite demo_used by lia; reflexivity|]. by exists k, k'.
Defined.

(** A process with a byte of memory, and the kernel in an operation. *)
Lemma demo_user :
  exists t us k b, on_file (D := disk) 1 demo_txs ram_sb 0 (dk_get demo_disk) demo_ip (op_blocks ram_sb demo_ip) 1 k /\
    in_user 0 small_end (PHYSTOP - PGSIZE) t us k /\ NoDup (pt_pages t ++ upages us) /\
    Forall (page_ok small_end) (upages us) /\ ubyte us (k_mem k) 0 = Some b /\ uwritable us 0 = true.
Proof.
  destruct demo_space as (us & t & l & s & _ & H2 & Hf & Hp).
  destruct (uspace_pages_ok _ _ _ _ _ _ _ H2) as [Hpg Hd]. destruct (demo_first us (km_mem s) Hf Hp) as [Hb Hw].
  destruct (demo_op (pipe_sys (PHYSTOP - PGSIZE)) (km_mem s) (pipe_sys_calm _)) as (k & Hon & Hm & Hwo).
  destruct (Hb (km_mem s)) as [b Hb']. exists t, us, k, b. split; [exact Hon|]. split; [split|].
  - rewrite Hm. apply (uspace_utable _ _ _ _ _ _ H2).
  - rewrite (wo_pagetable _ _ 0 Hwo). reflexivity.
  - rewrite Hm. done.
Qed.


Lemma writei_correct_witness : exists (k k' : kernel disk), writei 0 (FromUser 0) 0 1 k = Ok 1 k'.
Proof.
  destruct demo_user as (t & us & k & b & Hon & Hu & Hd & Hp & Hb & Hw).
  destruct (writei_correct 0 1 2 30 demo_txs ram_sb demo_layout small_end (PHYSTOP - PGSIZE) 0 0 t us [b] 0 (dk_get demo_disk)
    demo_ip (op_blocks ram_sb demo_ip) 0 k small_end_pos) as [H _].
  - split; [exact Hu|]. cbn [ubytes length]. by rewrite Hb.
  - simpl. lia.
  - exact Hon.
  - exact demo_whole.
  - exact demo_dinode.
  - vm_compute. intuition congruence.
  - apply elem_of_app. right. by left.
  - lia.
  - destruct H as (k' & V' & ip' & T' & E & _); [vm_compute; discriminate|vm_compute; discriminate|]. exists k, k'. exact E.
Defined.

Lemma write_crash_safe_witness : exists (k k' : kernel disk),
  (begin_op_k ;; let! r := writei 0 (FromLocal [Byte.x41]) 0 1 in end_op_k ;; ret r) k = Ok 1 k' /\
  disk_file ram_sb (dk_get (the_disk (lg_bio (k_log k')))) 1 = [Byte.x41].
Proof.
  destruct (demo_quiet calm_sys ∅ calm_sys_ok) as (t & Hq & Hn & Hd & Hs). exists (demo_kernel t ∅).
  destruct (write_crash_safe 0 1 2 30 ram_obs ram_sb demo_disk ltac:(lia) ltac:(lia) demo_layout 0 (FromLocal [Byte.x41]) [Byte.x41]
    (fun _ => True) demo_ip 0 (demo_kernel t ∅) Hq Hd) as (k' & dws & E & _ & _ & Hf & _).
  - change (lg_bio (k_log (demo_kernel t ∅))) with t. rewrite Hn. unfold NBUF. lia.
  - reflexivity.
  - apply demo_writable. vm_compute. lia.
  - vm_compute. discriminate.
  - done.
  - apply local_gives.
  - vm_compute. intuition congruence.
  - vm_compute. discriminate.
  - exists k'. split; [exact E|]. change (i_inum demo_ip) with 1 in Hf. etrans; [exact Hf|].
    unfold disk_file, splice. rewrite demo_disk_inode. reflexivity.
Defined.
