(* ===== verification/DirDemo.v ===== *)
(** * A small directory

    A disk with a root directory that has one file, on which the theorem about
    the walk of a path applies. *)

From S2P Require Import Prelude Riscv Memory CString Sys Spinlock Proc Kalloc Sleeplock Uart Printf Console Bio Block Bcache BufCache Log Kernel Machine Fs File LogDisk LogOk LogCrash LogTx FsPath FsTx FsBlocks FsFile FsWrite FsOp FsInode FsDir FsDemo.

#[local] Existing Instance demo_machine.

Definition padded (name : string) : list byte := take DIRSIZ (bytes_of name ++ replicate DIRSIZ Byte.x00).

Definition root_block : block :=
  let es := dirent_of 1 (padded ".") ++ dirent_of 1 (padded "..") ++ dirent_of 2 (padded "hello") in
  es ++ replicate (Z.to_nat BSIZE - length es) Byte.x00.

Definition root_dinode : dinode := Dinode T_DIR 0 0 1 48 (46 :: replicate NDIRECT 0).

Definition hello_dinode : dinode := Dinode T_FILE 0 0 1 0 (replicate (S NDIRECT) 0).

Definition dir_inodes : block :=
  put_dinode (dinode_off 1) root_dinode (put_dinode (dinode_off 2) hello_dinode zero_block).

Definition dir_bitmap : block := replicate 5 Byte.xff ++ [Byte.x7f] ++ replicate (Z.to_nat BSIZE - 6) Byte.x00.

Definition dir_disk : disk := dk_put 32 dir_inodes (dk_put 45 dir_bitmap (dk_put 46 root_block empty_disk)).

Lemma dir_get b :
  dk_get dir_disk b = if decide (b = 32) then dir_inodes else if decide (b = 45) then dir_bitmap
                      else if decide (b = 46) then root_block else zero_block.
Proof. unfold dir_disk. by rewrite !dk_get_put, empty_disk_get. Qed.

Lemma dir_len b : length (dk_get dir_disk b) = Z.to_nat BSIZE.
Proof.
  rewrite dir_get. case_decide; [vm_compute; reflexivity|]. case_decide; [reflexivity|].
  case_decide; [vm_compute; reflexivity|]. apply length_replicate.
Qed.

Lemma dir_types :
  forallb (fun n => (d_type (disk_inode ram_sb (dk_get dir_disk) (Z.of_nat n)) =? 0) || (n =? 1)%nat || (n =? 2)%nat) (seq 0 200) = true.
Proof. vm_compute. reflexivity. Qed.

Lemma dir_linked n : linked ram_sb (dk_get dir_disk) n -> n = 1 \/ n = 2.
Proof.
  intros [[H0 H1] H2 _]. change (sb_ninodes ram_sb) with 200 in H1.
  pose proof (proj1 (forallb_forall _ _) dir_types (Z.to_nat n) ltac:(apply in_seq; lia)) as H. cbv beta in H.
  rewrite Z2Nat.id in H by lia. apply orb_true_iff in H as [[H%Z.eqb_eq|H%Nat.eqb_eq]%orb_true_iff|H%Nat.eqb_eq]; [done|lia|lia].
Qed.

Lemma linked_1 : linked ram_sb (dk_get dir_disk) 1.
Proof. split; vm_compute; intuition discriminate. Qed.

Lemma linked_2 : linked ram_sb (dk_get dir_disk) 2.
Proof. split; vm_compute; intuition discriminate. Qed.

Lemma root_addrs :
  forallb (fun bn => block_addr (dk_get dir_disk) (on_disk ram_sb 1 (dk_get dir_disk) 1) (Z.of_nat bn) =? if (bn =? 0)%nat then 46 else 0)
    (seq 0 268) = true.
Proof. vm_compute. reflexivity. Qed.

Lemma root_addr bn : 0 <= bn < MAXFILE ->
  block_addr (dk_get dir_disk) (on_disk ram_sb 1 (dk_get dir_disk) 1) bn = if decide (bn = 0) then 46 else 0.
Proof.
  change MAXFILE with 268. intros H. pose proof (proj1 (forallb_forall _ _) root_addrs (Z.to_nat bn) ltac:(apply in_seq; lia)) as E.
  apply Z.eqb_eq in E. rewrite Z2Nat.id in E by lia. rewrite E. case_decide as Hd.
  - by rewrite Hd.
  - destruct (Nat.eqb_spec (Z.to_nat bn) 0); [lia|done].
Qed.

Lemma root_dir_ok : dir_ok ram_sb 1 (dk_get dir_disk) 1.
Proof.
  split.
  - split; [vm_compute; reflexivity|done|]. split.
    + intros H. destruct H. vm_compute. reflexivity.
    + intros bn Hb. rewrite root_addr by done. case_decide; [|done]. intros _. split; [vm_compute; intuition discriminate|]. vm_compute. reflexivity.
    + intros bn bn' Hb Hb'. rewrite !root_addr by done. repeat case_decide; congruence.
    + intros bn Hb. rewrite root_addr by done. case_decide; [|done]. intros _. vm_compute. discriminate.
  - split; [vm_compute; intuition discriminate|]. intros bn Hb H. rewrite root_addr.
    + change BSIZE with 1024 in H. assert (bn = 0) as -> by (vm_compute (i_size _) in H; lia). done.
    + change BSIZE with 1024 in H. vm_compute (i_size _) in H. change MAXFILE with 268. lia.
  - vm_compute. reflexivity.
  - intros de Hde%list_elem_of_In Hn. vm_compute in Hde. destruct Hde as [<-|[<-|[<-|[]]]].
    + exact linked_1.
    + exact linked_1.
    + exact linked_2.
Qed.

Lemma dir_tree_ok : tree_ok ram_sb 1 (dk_get dir_disk).
Proof.
  intros n [->| ->]%dir_linked Hd; [apply root_dir_ok|]. vm_compute in Hd. discriminate.
Qed.

Abbreviation dir_txs := (txs 1 2 30 ram_obs (Z.to_nat MAXOPBLOCKS) dir_disk).

#[local] Instance dir_tx_ok : TxOk (D := disk) 0 1 (home 2 30) dir_txs.
Proof.
  refine (log_tx 0 1 2 30 ram_obs (Z.to_nat MAXOPBLOCKS) dir_disk ltac:(lia) ltac:(lia) _).
  vm_compute. intuition congruence.
Qed.

Definition dir_kernel (t : bio disk) : kernel disk :=
  Kernel (ram_log t) 0 ∅ [] [] 0 0 false true [] [] 0 0 0 [] ram_sb (replicate NINODE inode_zero)
    0 false csr_zero [] 0 true.

Definition is_buf (l : slid) : bool := match l with SBuf _ => true | SInode _ => false end.

(** The sleep locks of the buffers alone. *)
Definition buf_locks (s : slk) : slk := Slk (sk_sys s) (filter (fun x => is_buf x.1 = true) (sk_locks s)).

(** An operation in which no inode is referred to yet. *)
Lemma dir_op : exists k : kernel disk,
  fstate 0 1 dir_txs ram_sb (dk_get dir_disk) [] (Z.to_nat MAXOPBLOCKS) None k /\ k_itable k = replicate NINODE inode_zero.
Proof.
  destruct (ram_fresh_on dir_disk calm_sys dir_len calm_sys_ok) as (t & Hf & Hn & Hd & Hs).
  destruct (fs_begin_ok 0 1 2 30 ram_obs (Z.to_nat MAXOPBLOCKS) dir_disk (dir_kernel t)) as (k & _ & X & O); [|done| |].
  - split; [done|apply ram_lists|done|done|done|]. change (lg_bio (k_log (dir_kernel t))) with t. rewrite Hd, dir_get.
    rewrite !decide_False by done. split; [vm_compute; reflexivity|]. intros i b H. discriminate.
  - change (lg_bio (k_log (dir_kernel t))) with t. rewrite Hn. unfold NBUF. simpl. lia.
  - exists (set_k_slk (buf_locks (k_slk k)) k). split; [|exact (only_log_itable _ _ O)]. split.
    + apply txr_slk; [done|by eapply (txr_calm (txs := dir_txs))|done|]. intros i. unfold slk_of, buf_locks. simpl.
      rewrite map_lookup_filter. by destruct (sk_locks (k_slk k) !! SBuf i).
    + exact (only_log_sb _ _ O).
    + change (k_itable (set_k_slk _ k)) with (k_itable k). rewrite (only_log_itable _ _ O).
      change (k_itable (dir_kernel t)) with (replicate NINODE inode_zero).
      assert (Hz : forall i ip, replicate NINODE inode_zero !! i = Some ip -> i_ref ip = 0).
      { intros i ip H. apply lookup_replicate in H as [-> _]. done. }
      split; [apply length_replicate| | | |]; intros i; intros; match goal with H : replicate _ _ !! i = Some _ |- _ => apply Hz in H end; lia.
    + intros i. unfold slk_of, buf_locks. simpl. rewrite map_lookup_filter. by destruct (sk_locks (k_slk k) !! SInode i).
    + done.
Qed.

Lemma namex_correct_witness : exists (k k' : kernel disk) j ip name,
  namex (bytes_of "/hello") false no_name k = Ok (Some j, name) k' /\
    k_itable k' !! j = Some ip /\ i_inum ip = 2 /\ i_ref ip = 1.
Proof.
  destruct dir_op as (k & F & Ht).
  destruct (namex_correct 0 1 2 30 dir_txs ram_sb demo_layout (dk_get dir_disk) [] (Z.to_nat MAXOPBLOCKS) k
    (bytes_of "/hello") no_name false 1 dir_tree_ok F) as (r & name' & k' & E & [F' _ Hf _]).
  - rewrite Ht. vm_compute. lia.
  - reflexivity.
  - intros H%list_elem_of_In. vm_compute in H. intuition discriminate.
  - split; reflexivity.
  - exact linked_1.
  - assert (Er : resolve ram_sb 1 (dk_get dir_disk) false 1 (elements (bytes_of "/hello")) = Some 2) by (vm_compute; reflexivity).
    rewrite Er in Hf. destruct Hf as (j & -> & (ip & Hj & Hr & _ & Hi) & G). exists k, k', j, ip, name'.
    split; [exact E|]. split; [exact Hj|]. split; [exact Hi|].
    rewrite <- (iref_at 1 ram_sb _ _ j ip (fs_table _ _ _ _ _ _ _ _ _ F') Hj Hr), Hi, (ga_refs _ _ _ G), Ht. vm_compute. reflexivity.
Defined.
