(* ===== verification/Mkfs.v ===== *)
(** * [mkfs/mkfs.c]

    The program that builds the file system image: the superblock, the inodes, a
    root directory with one entry for each file, the files and the bitmap.  The
    image file is a sequence of blocks; a failing [assert] or [die] is a panic.  The conversions [xint] and
    [xshort] give numbers the byte order of the disk, which is how the fields of
    a block are read and written here. *)

From S2P Require Import Prelude Riscv Memory CString Sys Spinlock Proc Sleeplock Uart Printf Bio Block Log Kernel Machine Fs FsPath.

Module Mkfs.

Definition NINODES : Z := 200.

Definition nbitmap : Z := FSSIZE / BPB + 1.

Definition ninodeblocks : Z := NINODES / IPB + 1.

Definition nlog : Z := LOGSIZE.

Definition nmeta : Z := 2 + nlog + ninodeblocks + nbitmap.

Definition nblocks : Z := FSSIZE - nmeta.

Definition sb : superblock :=
  Superblock FSMAGIC FSSIZE nblocks NINODES nlog 2 (2 + nlog) (2 + nlog + ninodeblocks).

(** The image file, its length in blocks, and the two counters. *)
Record mkfs := St {
  mk_blocks : gmap Z block;
  mk_len : Z;
  mk_freeinode : Z;
  mk_freeblock : Z
}.

Definition assert (c : bool) (msg : string) : M mkfs unit := if c then ret tt else panic msg.

Definition wsect (sec : Z) (buf : block) : M mkfs unit :=
  modify (fun s => St (<[sec := buf]> (mk_blocks s)) (Z.max (mk_len s) (sec + 1)) (mk_freeinode s) (mk_freeblock s)).

(** Reading past the end of the file is a short read. *)
Definition rsect (sec : Z) : M mkfs block :=
  let! len := gets mk_len in
  if sec <? len then gets (fun s => blk (mk_blocks s) sec) else panic "read".

Definition winode (inum : Z) (ip : dinode) : M mkfs unit :=
  let bn := IBLOCK inum sb in
  let! buf := rsect bn in
  wsect bn (put_dinode (dinode_off inum) ip buf).

Definition rinode (inum : Z) : M mkfs dinode :=
  let bn := IBLOCK inum sb in
  let! buf := rsect bn in
  ret (dinode_at buf (dinode_off inum)).

Definition next_inode : M mkfs Z := fun s =>
  Ok (mk_freeinode s) (St (mk_blocks s) (mk_len s) (u32 (mk_freeinode s + 1)) (mk_freeblock s)).

(** [freeblock++] *)
Definition next_block : M mkfs Z := fun s =>
  Ok (mk_freeblock s) (St (mk_blocks s) (mk_len s) (mk_freeinode s) (u32 (mk_freeblock s + 1))).

Definition ialloc (type : Z) : M mkfs Z :=
  let! inum := next_inode in
  winode inum (Dinode type 0 0 1 0 (replicate (S NDIRECT) 0)) ;;
  ret inum.

(** The bitmap block with the first [used] bits set. *)
Definition bitmap (used : Z) : block :=
  foldl (fun buf i => set_bit (Z.of_nat i) buf) zero_block (seq 0 (Z.to_nat used)).

Definition balloc (used : Z) : M mkfs unit :=
  assert (used <? BPB) "used < BPB" ;;
  wsect (sb_bmapstart sb) (bitmap used).

Definition set_d_addr (k : nat) (a : Z) (d : dinode) : dinode :=
  Dinode (d_type d) (d_major d) (d_minor d) (d_nlink d) (d_size d) (<[k := a]> (d_addrs d)).

Definition set_d_size (n : Z) (d : dinode) : dinode :=
  Dinode (d_type d) (d_major d) (d_minor d) (d_nlink d) n (d_addrs d).

(** A direct block of the inode, allocated if there is none. *)
Definition direct (k : nat) (din : dinode) : M mkfs dinode :=
  if d_addrs din !!! k =? 0 then let! b := next_block in ret (set_d_addr k b din) else ret din.

(** The block for block [fbn] of the file. *)
Definition iblock (fbn : Z) (din : dinode) : M mkfs (dinode * Z) :=
  if fbn <? Z.of_nat NDIRECT then
    let! din := direct (Z.to_nat fbn) din in
    ret (din, d_addrs din !!! Z.to_nat fbn)
  else
    let! din := direct NDIRECT din in
    let ind := d_addrs din !!! NDIRECT in
    let j := (4 * Z.to_nat (fbn - Z.of_nat NDIRECT))%nat in
    let! indirect := rsect ind in
    if get32 indirect j =? 0 then
      let! b := next_block in
      let indirect := put32 j b indirect in
      wsect ind indirect ;;
      ret (din, get32 indirect j)
    else ret (din, get32 indirect j).

Definition iappend_body : dinode * Z * list byte -> M mkfs (dinode * Z * list byte + dinode * Z) :=
  fun '(din, off, p) =>
    let n := Z.of_nat (length p) in
    if negb (0 <? n) then ret (inr (din, off)) else
    let fbn := off / BSIZE in
    assert (fbn <? MAXFILE) "fbn < MAXFILE" ;;
    let! (din, x) := iblock fbn din in
    let n1 := Z.min n ((fbn + 1) * BSIZE - off) in
    let! buf := rsect x in
    wsect x (put_bytes (Z.to_nat (off - fbn * BSIZE)) (take (Z.to_nat n1) p) buf) ;;
    ret (inl (din, off + n1, drop (Z.to_nat n1) p)).

(** [n] bytes span at most [n / BSIZE + 2] blocks. *)
Definition iappend (inum : Z) (p : list byte) : M mkfs unit :=
  let! din := rinode inum in
  let! (din, off) := while (length p / Z.to_nat BSIZE + 3) iappend_body (din, d_size din, p) in
  winode inum (set_d_size off din).

(** [strncpy] into a zeroed [de.name]. *)
Definition dirent_for (inum : Z) (name : list byte) : list byte := dirent_of inum (nul_pad DIRSIZ (take DIRSIZ name)).

(** The name a file gets: without ["user/"], and without a leading underscore. *)
Definition strip_user (a : list byte) : list byte :=
  if bytes_eqb (take 5 a) (bytes_of "user/") then drop 5 a else a.

Definition strip_underscore (a : list byte) : list byte :=
  match a with b :: a' => if Byte.eqb b Byte.x5f then a' else a | [] => [] end.

Definition has_slash (a : list byte) : bool := existsb (Byte.eqb SLASH) a.

(** One file: its argument, and the results of [read] when it can be opened. *)
Definition add_file (rootino : Z) (f : list byte * option (list (list byte))) : M mkfs unit :=
  let shortname := strip_user f.1 in
  assert (negb (has_slash shortname)) "index(shortname, '/') == 0" ;;
  match f.2 with
  | None => panic "open"
  | Some chunks =>
      let shortname := strip_underscore shortname in
      assert (length shortname <=? DIRSIZ)%nat "strlen(shortname) <= DIRSIZ" ;;
      let! inum := ialloc T_FILE in
      iappend rootino (dirent_for inum shortname) ;;
      forM chunks (iappend inum)
  end.

(** [main], with the arguments from [argv[2]] on. *)
Definition main (files : list (list byte * option (list (list byte)))) : M mkfs unit :=
  forM (seq 0 (Z.to_nat FSSIZE)) (fun i => wsect (Z.of_nat i) zero_block) ;;
  wsect 1 (put32 28 (sb_bmapstart sb) (put32 24 (sb_inodestart sb) (put32 20 (sb_logstart sb) (put32 16 (sb_nlog sb)
    (put32 12 (sb_ninodes sb) (put32 8 (sb_nblocks sb) (put32 4 (sb_size sb) (put32 0 (sb_magic sb) zero_block)))))))) ;;
  let! rootino := ialloc T_DIR in
  assert (rootino =? ROOTINO) "rootino == ROOTINO" ;;
  iappend rootino (dirent_for rootino (bytes_of ".")) ;;
  iappend rootino (dirent_for rootino (bytes_of "..")) ;;
  forM files (add_file rootino) ;;
  (* fix size of root inode dir *)
  let! din := rinode rootino in
  let off := d_size din in
  let off := (off / BSIZE + 1) * BSIZE in
  winode rootino (set_d_size off din) ;;
  let! used := gets mk_freeblock in
  balloc used.

(** An empty image file, and the counters of a new process. *)
Definition start : mkfs := St ∅ 0 1 nmeta.

End Mkfs.
