(* ===== verification/MkfsOk.v ===== *)
(** * The image [mkfs] builds

    The program of [mkfs/mkfs.c] ends for every list of files that fits, with an
    image the kernel can mount: the layout of the superblock, an empty log, a
    bitmap that marks exactly the blocks handed out, and a root directory that
    leads to every file with its contents.  The invariant of the program gives
    each block after the bitmap one role in one file. *)

From stdpp Require Import functions.
From S2P Require Import Prelude Riscv Memory CString Sys Spinlock Proc Kalloc Sleeplock Uart Printf Bio Block Log Kernel Machine Fs LogDisk FsPath FsTx FsBlocks FsFile FsWrite FsOp FsInode FsDir Mkfs.

Module MkfsOk.
Import Mkfs.Mkfs.
Implicit Types (V : Z -> block) (d : dinode) (s : mkfs) (fb n a bn : Z) (p : list byte).

(** ** The image *)

Definition view s : Z -> block := blk (mk_blocks s).

(** A whole image, with the counters in range and the blocks ahead clear. *)
Record image_ok s : Prop := {
  im_len : mk_len s = FSSIZE;
  im_block : forall b, length (view s b) = Z.to_nat BSIZE;
  im_free : nmeta <= mk_freeblock s <= FSSIZE;
  im_clear : forall b, mk_freeblock s <= b -> view s b = zero_block
}.

Lemma rsect_ok s b : image_ok s -> b < FSSIZE -> rsect b s = Ok (view s b) s.
Proof.
  intros H Hb. unfold rsect. rewrite bind_gets, (im_len s H), (proj2 (Z.ltb_lt b FSSIZE)) by done. done.
Qed.

Lemma wsect_ok s b x :
  image_ok s -> b < mk_freeblock s -> length x = Z.to_nat BSIZE ->
  exists s', wsect b x s = Ok tt s' /\ image_ok s' /\ (forall b', view s' b' = upd_view b x (view s) b') /\
    mk_freeblock s' = mk_freeblock s /\ mk_freeinode s' = mk_freeinode s.
Proof.
  intros [I1 I2 I3 I4] Hb Hx. eexists. split; [reflexivity|].
  assert (E : forall b', view (St (<[b:=x]> (mk_blocks s)) (Z.max (mk_len s) (b + 1)) (mk_freeinode s) (mk_freeblock s)) b' =
    upd_view b x (view s) b').
  { intros b'. unfold view, blk, upd_view. simpl. case_decide as H.
    - subst b'. by rewrite lookup_insert_eq.
    - by rewrite lookup_insert_ne by done. }
  split; [|by split]. split; simpl.
  - lia.
  - intros b'. rewrite E. unfold upd_view. by case_decide.
  - done.
  - intros b' Hb'. rewrite E, upd_view_ne by lia. by apply I4.
Qed.

Lemma next_block_ok s :
  image_ok s -> mk_freeblock s < FSSIZE ->
  exists s', next_block s = Ok (mk_freeblock s) s' /\ image_ok s' /\ view s' = view s /\
    mk_freeblock s' = mk_freeblock s + 1 /\ mk_freeinode s' = mk_freeinode s.
Proof.
  intros [I1 I2 I3 I4] Hs. eexists. split; [reflexivity|]. assert (HF : FSSIZE = 2000) by done.
  assert (E : u32 (mk_freeblock s + 1) = mk_freeblock s + 1) by (apply u32_small; change nmeta with 46 in I3; lia).
  split; [|done]. split; simpl; rewrite ?E; try done; [lia|]. intros b Hb. apply I4. lia.
Qed.

(** ** Where the blocks of a file are *)

Definition ld d : inode := load_dinode d (set_i_dev 1 inode_zero).

Definition addr V d bn : Z := block_addr V (ld d) bn.

Definition ind d : Z := d_addrs d !!! NDIRECT.

(** Blocks between the bitmap and [fb], each with one role. *)
Record placed fb (A : Z -> Z) (i : Z) : Prop := {
  pl_ind : i <> 0 -> nmeta <= i < fb;
  pl_data : forall bn, 0 <= bn < MAXFILE -> A bn <> 0 -> nmeta <= A bn < fb;
  pl_inj : forall bn bn', 0 <= bn < MAXFILE -> 0 <= bn' < MAXFILE -> A bn <> 0 -> A bn = A bn' -> bn = bn';
  pl_apart : forall bn, 0 <= bn < MAXFILE -> A bn <> 0 -> A bn <> i
}.

Lemma placed_ext fb fb' A A' i :
  fb <= fb' -> (forall bn, 0 <= bn < MAXFILE -> A' bn = A bn) -> placed fb A i -> placed fb' A' i.
Proof.
  intros H0 HA [P1 P2 P3 P4]. split.
  - intros H. specialize (P1 H). lia.
  - intros bn Hb. rewrite HA by done. intros H. specialize (P2 bn Hb H). lia.
  - intros bn bn' Hb Hb'. rewrite !HA by done. by apply P3.
  - intros bn Hb. rewrite HA by done. by apply P4.
Qed.

(** The next block, for block [bn] of the file. *)
Lemma placed_slot fb A A' i bn :
  nmeta <= fb -> (forall bn', 0 <= bn' < MAXFILE -> A' bn' = if decide (bn' = bn) then fb else A bn') ->
  placed fb A i -> placed (fb + 1) A' i.
Proof.
  intros H0 HA [P1 P2 P3 P4]. split.
  - intros H. specialize (P1 H). lia.
  - intros b Hb. rewrite HA by done. case_decide; [lia|]. intros Hz. specialize (P2 b Hb Hz). lia.
  - intros b b' Hb Hb'. rewrite !HA by done. repeat case_decide; try congruence.
    + intros _ E. assert (Hz : A b' <> 0) by (change nmeta with 46 in *; lia). specialize (P2 b' Hb' Hz). lia.
    + intros Hz E. specialize (P2 b Hb Hz). lia.
    + by apply P3.
  - intros b Hb. rewrite HA by done. case_decide; [|by apply P4]. intros _ E.
    assert (Hz : i <> 0) by (change nmeta with 46 in *; lia). specialize (P1 Hz). lia.
Qed.

(** The next block, for the addresses beyond the direct ones. *)
Lemma placed_ind fb A : nmeta <= fb -> placed fb A 0 -> placed (fb + 1) A fb.
Proof.
  intros H0 [P1 P2 P3 P4]. split; [lia| |done|].
  - intros b Hb H. specialize (P2 b Hb H). lia.
  - intros b Hb H. specialize (P2 b Hb H). lia.
Qed.

Lemma addr_direct V d bn : bn < Z.of_nat NDIRECT -> addr V d bn = d_addrs d !!! Z.to_nat bn.
Proof. intros H. unfold addr, block_addr. by rewrite decide_True. Qed.

Lemma addr_indirect V d bn :
  Z.of_nat NDIRECT <= bn -> addr V d bn = if decide (ind d = 0) then 0 else get32 (V (ind d)) (4 * Z.to_nat (bn - Z.of_nat NDIRECT)).
Proof. intros H. unfold addr, block_addr. by rewrite decide_False by lia. Qed.

(** Only the block of addresses matters. *)
Lemma addr_ext V V' d bn : (ind d <> 0 -> V' (ind d) = V (ind d)) -> addr V' d bn = addr V d bn.
Proof.
  intros H. unfold addr, block_addr. case_decide; [done|]. case_decide as Hi; [done|].
  change (ind_addr (ld d)) with (ind d) in *. by rewrite H.
Qed.

(** What a new address changes. *)
Lemma addr_set_direct V d k a bn :
  length (d_addrs d) = S NDIRECT -> 0 <= k < Z.of_nat NDIRECT -> 0 <= bn ->
  addr V (set_d_addr (Z.to_nat k) a d) bn = if decide (bn = k) then a else addr V d bn.
Proof.
  intros Hl Hk Hbn. assert (E : ind (set_d_addr (Z.to_nat k) a d) = ind d).
  { unfold ind. simpl. apply list_lookup_total_insert_ne. unfold NDIRECT in *. lia. }
  destruct (decide (bn < Z.of_nat NDIRECT)) as [H|H].
  - rewrite !addr_direct by done. simpl. case_decide as Hb.
    + subst bn. apply list_lookup_total_insert_eq. unfold NDIRECT in *. lia.
    + apply list_lookup_total_insert_ne. lia.
  - rewrite !addr_indirect, E by lia. by rewrite (decide_False (P := bn = k)) by lia.
Qed.

Lemma addr_set_ind V d a bn :
  length (d_addrs d) = S NDIRECT -> ind d = 0 -> a <> 0 -> V a = zero_block -> 0 <= bn ->
  addr V (set_d_addr NDIRECT a d) bn = addr V d bn /\ ind (set_d_addr NDIRECT a d) = a.
Proof.
  intros Hl Hi Ha Hz Hbn. assert (E : ind (set_d_addr NDIRECT a d) = a).
  { unfold ind. simpl. apply list_lookup_total_insert_eq. lia. }
  split; [|done]. destruct (decide (bn < Z.of_nat NDIRECT)) as [H|H].
  - rewrite !addr_direct by done. simpl. apply list_lookup_total_insert_ne. unfold NDIRECT in *. lia.
  - rewrite !addr_indirect, E, Hi, Hz by lia. rewrite decide_False by done. rewrite decide_True by done. apply get32_zero.
Qed.

Lemma addr_set_slot V d k a bn :
  length (V (ind d)) = Z.to_nat BSIZE -> ind d <> 0 -> 0 <= a < 2 ^ 32 -> Z.of_nat NDIRECT <= k < MAXFILE ->
  addr (upd_view (ind d) (put32 (4 * Z.to_nat (k - Z.of_nat NDIRECT)) a (V (ind d))) V) d bn =
  if decide (bn = k) then a else addr V d bn.
Proof.
  intros Hl Hi Ha Hk. destruct (decide (bn < Z.of_nat NDIRECT)) as [H|H].
  - rewrite !addr_direct by done. by rewrite decide_False by lia.
  - rewrite !addr_indirect by lia. rewrite !(decide_False (P := ind d = 0)) by done. rewrite upd_view_eq.
    change MAXFILE with 268 in Hk. change (Z.to_nat BSIZE) with 1024%nat in Hl. unfold NDIRECT in *. case_decide.
    + subst bn. rewrite get32_put32 by lia. by apply u32_small.
    + apply get32_put32_apart; lia.
Qed.

(** The blocks that block [fbn] of a file takes. *)
Definition cost V d fbn : Z :=
  (if decide (addr V d fbn = 0) then 1 else 0) + (if decide (Z.of_nat NDIRECT <= fbn /\ ind d = 0) then 1 else 0).

(** From [d] to [d']: block [fbn] of the file is [x], which was its block before
    or is a new one. *)
Record grows s d fbn s' d' x : Prop := {
  gs_image : image_ok s';
  gs_inode : mk_freeinode s' = mk_freeinode s;
  gs_block : mk_freeblock s' = mk_freeblock s + cost (view s) d fbn;
  gs_rest : d' = Dinode (d_type d) (d_major d) (d_minor d) (d_nlink d) (d_size d) (d_addrs d');
  gs_len : length (d_addrs d') = S NDIRECT;
  gs_addr : forall bn, 0 <= bn < MAXFILE -> addr (view s') d' bn = if decide (bn = fbn) then x else addr (view s) d bn;
  gs_x : x <> 0 /\ if decide (addr (view s) d fbn = 0) then mk_freeblock s <= x else x = addr (view s) d fbn;
  gs_ind : ind d' = ind d \/ mk_freeblock s <= ind d';
  gs_has_ind : ind d' <> 0 <-> ind d <> 0 \/ Z.of_nat NDIRECT <= fbn;
  gs_placed : placed (mk_freeblock s') (addr (view s') d') (ind d');
  gs_view : forall b, b < nmeta \/ b <> ind d' -> view s' b = view s b
}.

Lemma ind_set_direct k a d : (k < NDIRECT)%nat -> ind (set_d_addr k a d) = ind d.
Proof. intros H. unfold ind. simpl. apply list_lookup_total_insert_ne. lia. Qed.

Lemma iblock_direct s d fbn :
  image_ok s -> length (d_addrs d) = S NDIRECT -> placed (mk_freeblock s) (addr (view s) d) (ind d) ->
  0 <= fbn < Z.of_nat NDIRECT -> mk_freeblock s + cost (view s) d fbn <= FSSIZE ->
  exists s' d' x, iblock fbn d s = Ok (d', x) s' /\ grows s d fbn s' d' x.
Proof.
  intros I Hl P Hf Hc. assert (Hm : nmeta = 46) by done. pose proof (im_free s I) as Hfree.
  assert (Ec : cost (view s) d fbn = if decide (addr (view s) d fbn = 0) then 1 else 0).
  { unfold cost. rewrite (decide_False (P := _ /\ _)) by lia. lia. }
  unfold iblock, direct. rewrite (proj2 (Z.ltb_lt _ _)) by lia. rewrite <- (addr_direct (view s)) by lia.
  destruct (Z.eqb_spec (addr (view s) d fbn) 0) as [Ez|Ez].
  - rewrite decide_True in Ec by done. destruct (next_block_ok s I ltac:(lia)) as (s1 & E1 & I1 & V1 & F1 & N1).
    exists s1, (set_d_addr (Z.to_nat fbn) (mk_freeblock s) d), (mk_freeblock s).
    assert (HA : forall bn, 0 <= bn < MAXFILE -> addr (view s1) (set_d_addr (Z.to_nat fbn) (mk_freeblock s) d) bn =
      if decide (bn = fbn) then mk_freeblock s else addr (view s) d bn).
    { intros bn Hbn. rewrite V1. apply addr_set_direct; [done|lia|lia]. }
    assert (Ei : ind (set_d_addr (Z.to_nat fbn) (mk_freeblock s) d) = ind d) by (apply ind_set_direct; unfold NDIRECT in *; lia).
    split.
    + rewrite (bind_Ok _ _ _ (set_d_addr (Z.to_nat fbn) (mk_freeblock s) d) s1) by (by krun E1). unfold ret. simpl. do 2 f_equal.
      apply list_lookup_total_insert_eq. unfold NDIRECT in *. lia.
    + split; rewrite ?Ei; try done.
      * lia.
      * simpl. by rewrite length_insert.
      * rewrite decide_True by done. lia.
      * by left.
      * split; [by left|]. intros [?|?]; [done|lia].
      * rewrite F1. by eapply placed_slot; [lia|exact HA|].
      * intros b _. by rewrite V1.
  - rewrite decide_False in Ec by done. exists s, d, (addr (view s) d fbn). split.
    + rewrite bind_ret. unfold ret. by rewrite <- (addr_direct (view s)) by lia.
    + split; try done.
      * lia.
      * by destruct d.
      * intros bn Hbn. by case_decide; subst.
      * by rewrite decide_False.
      * by left.
      * split; [by left|]. intros [?|?]; [done|lia].
Qed.

(** The block of addresses. *)
Lemma direct_ind_ok s d :
  image_ok s -> length (d_addrs d) = S NDIRECT -> placed (mk_freeblock s) (addr (view s) d) (ind d) ->
  mk_freeblock s + (if decide (ind d = 0) then 1 else 0) <= FSSIZE ->
  exists s' d', direct NDIRECT d s = Ok d' s' /\ image_ok s' /\ view s' = view s /\ mk_freeinode s' = mk_freeinode s /\
    mk_freeblock s' = mk_freeblock s + (if decide (ind d = 0) then 1 else 0) /\
    d' = Dinode (d_type d) (d_major d) (d_minor d) (d_nlink d) (d_size d) (d_addrs d') /\
    length (d_addrs d') = S NDIRECT /\ (forall bn, 0 <= bn -> addr (view s) d' bn = addr (view s) d bn) /\
    ind d' <> 0 /\ (ind d' = ind d \/ mk_freeblock s <= ind d') /\ placed (mk_freeblock s') (addr (view s) d') (ind d').
Proof.
  intros I Hl P Hc. assert (Hm : nmeta = 46) by done. pose proof (im_free s I) as Hfree.
  unfold direct. change (d_addrs d !!! NDIRECT) with (ind d). destruct (Z.eqb_spec (ind d) 0) as [Ez|Ez].
  - rewrite decide_True in * by done. destruct (next_block_ok s I ltac:(lia)) as (s1 & E1 & I1 & V1 & F1 & N1).
    assert (HA : forall bn, 0 <= bn -> addr (view s) (set_d_addr NDIRECT (mk_freeblock s) d) bn = addr (view s) d bn /\
      ind (set_d_addr NDIRECT (mk_freeblock s) d) = mk_freeblock s).
    { intros bn Hbn. apply addr_set_ind; try done; [lia|]. apply (im_clear s I). lia. }
    assert (Ei := proj2 (HA 0 ltac:(lia))).
    exists s1, (set_d_addr NDIRECT (mk_freeblock s) d). rewrite Ei. split_and!; try done; try lia.
    + by krun E1.
    + simpl. by rewrite length_insert.
    + intros bn Hbn. by apply HA.
    + rewrite F1. apply (placed_ext (mk_freeblock s + 1) _ (addr (view s) d)); [lia|intros bn Hbn; apply HA; lia|].
      apply placed_ind; [lia|]. by rewrite <- Ez.
  - rewrite decide_False in * by done. exists s, d. split_and!; try done; try lia.
    all: by destruct d.
Qed.

Lemma iblock_indirect s d fbn :
  image_ok s -> length (d_addrs d) = S NDIRECT -> placed (mk_freeblock s) (addr (view s) d) (ind d) ->
  Z.of_nat NDIRECT <= fbn < MAXFILE -> mk_freeblock s + cost (view s) d fbn <= FSSIZE ->
  exists s' d' x, iblock fbn d s = Ok (d', x) s' /\ grows s d fbn s' d' x.
Proof.
  intros I Hl P Hf Hc. assert (Hm : nmeta = 46) by done. pose proof (im_free s I) as Hfree.
  assert (Ec : cost (view s) d fbn =
    (if decide (addr (view s) d fbn = 0) then 1 else 0) + (if decide (ind d = 0) then 1 else 0)).
  { unfold cost. f_equal. destruct (decide (ind d = 0)); [by rewrite decide_True by lia|by rewrite decide_False by lia]. }
  destruct (direct_ind_ok s d I Hl P) as (s1 & d1 & E1 & I1 & V1 & N1 & F1 & R1 & L1 & A1 & Z1 & W1 & P1).
  { repeat case_decide; lia. }
  unfold iblock. rewrite (proj2 (Z.ltb_ge _ _)) by lia. krun E1.
  change (d_addrs d1 !!! NDIRECT) with (ind d1). assert (Hi := pl_ind _ _ _ P1 Z1). pose proof (im_free s1 I1) as Hfree1.
  krun (rsect_ok s1 (ind d1) I1 ltac:(lia)). rewrite V1.
  assert (Ea : get32 (view s (ind d1)) (4 * Z.to_nat (fbn - Z.of_nat NDIRECT)) = addr (view s) d fbn).
  { rewrite <- A1, addr_indirect by lia. by rewrite decide_False. }
  rewrite Ea. destruct (Z.eqb_spec (addr (view s) d fbn) 0) as [Ez|Ez].
  - rewrite decide_True in Ec by done. assert (Hb : mk_freeblock s1 < FSSIZE) by lia.
    destruct (next_block_ok s1 I1 Hb) as (s2 & E2 & I2 & V2 & F2 & N2). krun E2.
    set (x' := put32 _ _ _).
    assert (Hx' : length x' = Z.to_nat BSIZE).
    { unfold x'. rewrite length_put32; [apply (im_block s I)|]. rewrite (im_block s I). change (Z.to_nat BSIZE) with 1024%nat.
      change MAXFILE with 268 in *. unfold NDIRECT in *. lia. }
    destruct (wsect_ok s2 (ind d1) x' I2 ltac:(lia) Hx') as (s3 & E3 & I3 & V3 & F3 & N3). krun E3.
    assert (HA : forall bn, 0 <= bn < MAXFILE -> addr (view s3) d1 bn = if decide (bn = fbn) then mk_freeblock s1 else addr (view s) d bn).
    { intros bn Hbn. rewrite (addr_ext (upd_view (ind d1) x' (view s))) by (intros _; by rewrite V3, V2, V1).
      unfold x'. rewrite addr_set_slot; [|apply (im_block s I)|done| |done].
      - by rewrite A1 by lia.
      - change FSSIZE with 2000 in *. lia. }
    exists s3, d1, (mk_freeblock s1). split.
    + unfold ret. do 2 f_equal. unfold x'. rewrite get32_put32.
      * apply u32_small. change FSSIZE with 2000 in *. lia.
      * rewrite (im_block s I). change (Z.to_nat BSIZE) with 1024%nat. change MAXFILE with 268 in *. unfold NDIRECT in *. lia.
    + split; try done; try (rewrite ?F3, ?F2, ?F1, ?N3, ?N2, ?N1; done || lia).
      * rewrite decide_True by done. split; [lia|]. rewrite F1. destruct (decide (ind d = 0)); lia.
      * rewrite F3, F2. eapply placed_slot; [lia| |exact P1]. intros bn Hbn. rewrite HA by done. by rewrite A1 by lia.
      * intros b Hbi. rewrite V3, upd_view_ne by lia. by rewrite V2, V1.
  - rewrite decide_False in Ec by done. exists s1, d1, (addr (view s) d fbn). split; [done|].
    split; try done; try lia.
    * intros bn Hbn. rewrite V1, A1 by lia. by destruct (decide (bn = fbn)) as [->|].
    * by rewrite decide_False.
    * by rewrite V1.
    * intros b _. by rewrite V1.
Qed.

Lemma iblock_ok s d fbn :
  image_ok s -> length (d_addrs d) = S NDIRECT -> placed (mk_freeblock s) (addr (view s) d) (ind d) ->
  0 <= fbn < MAXFILE -> mk_freeblock s + cost (view s) d fbn <= FSSIZE ->
  exists s' d' x, iblock fbn d s = Ok (d', x) s' /\ grows s d fbn s' d' x.
Proof.
  intros. destruct (decide (fbn < Z.of_nat NDIRECT)); [apply iblock_direct|apply iblock_indirect]; auto; lia.
Qed.

(** ** The files so far *)

(** Block [a] has a role in the file. *)
Definition claims V d a : Prop := a <> 0 /\ (a = ind d \/ exists bn, 0 <= bn < MAXFILE /\ addr V d bn = a).

(** The first [sz] bytes of the file have blocks, and nothing else has. *)
Record laid V fb d (sz : Z) : Prop := {
  la_len : length (d_addrs d) = S NDIRECT;
  la_size : 0 <= sz <= MAXFILE * BSIZE;
  la_map : forall bn, 0 <= bn < MAXFILE -> addr V d bn <> 0 <-> bn * BSIZE < sz;
  la_ind : ind d <> 0 <-> Z.of_nat NDIRECT * BSIZE < sz;
  la_placed : placed fb (addr V d) (ind d)
}.

(** The inodes before [fi], with the contents [C] and zeroes after them: no two
    share a block. *)
Record tree V fb fi (D : Z -> dinode) (C : Z -> list byte) : Prop := {
  tr_laid : forall n, 1 <= n < fi -> laid V fb (D n) (Z.of_nat (length (C n)));
  tr_bytes : forall n, 1 <= n < fi -> file_bytes V (ld (D n)) 0 (length (C n)) = C n;
  tr_tail : forall n q, 1 <= n < fi -> Z.of_nat (length (C n)) <= q < MAXFILE * BSIZE -> addr V (D n) (q / BSIZE) <> 0 ->
    file_byte V (ld (D n)) q = Byte.x00;
  tr_apart : forall n n' a, 1 <= n < fi -> 1 <= n' < fi -> claims V (D n) a -> claims V (D n') a -> n = n'
}.

(** The blocks of a file of [sz] bytes. *)
Definition file_blocks (sz : Z) : Z := (sz + BSIZE - 1) / BSIZE + (if decide (Z.of_nat NDIRECT * BSIZE < sz) then 1 else 0).

Lemma claims_range V fb d a : placed fb (addr V d) (ind d) -> claims V d a -> nmeta <= a < fb.
Proof.
  intros P [H0 [->|(bn & Hbn & <-)]]; [by apply (pl_ind _ _ _ P)|by apply (pl_data _ _ _ P)].
Qed.

(** Files whose blocks keep their contents. *)
Lemma addr_frame V V' d bn : (forall a, claims V d a -> V' a = V a) -> addr V' d bn = addr V d bn.
Proof. intros H. apply addr_ext. intros Hi. apply H. split; [done|by left]. Qed.

Lemma claims_frame V V' d a : (forall a, claims V d a -> V' a = V a) -> claims V' d a -> claims V d a.
Proof.
  intros H [H0 [->|(bn & Hbn & E)]]; (split; [done|]); [by left|]. right. exists bn. by rewrite (addr_frame V) in E.
Qed.

Lemma laid_frame V V' fb fb' d sz :
  fb <= fb' -> (forall a, claims V d a -> V' a = V a) -> laid V fb d sz -> laid V' fb' d sz.
Proof.
  intros Hf H [L1 L2 L3 L4 L5]. split; [done|done| |done|].
  - intros bn Hbn. rewrite (addr_frame V) by done. by apply L3.
  - apply (placed_ext fb _ (addr V d)); [done| |done]. intros bn Hbn. by apply addr_frame.
Qed.

Lemma byte_frame V V' d q :
  (forall a, claims V d a -> V' a = V a) -> 0 <= q / BSIZE < MAXFILE -> addr V d (q / BSIZE) <> 0 ->
  file_byte V' (ld d) q = file_byte V (ld d) q.
Proof.
  intros H Hq Ha. unfold file_byte. change (block_addr V' (ld d)) with (addr V' d). change (block_addr V (ld d)) with (addr V d).
  rewrite (addr_frame V) by done. rewrite H; [done|]. split; [done|]. right. by exists (q / BSIZE).
Qed.

Lemma bytes_frame V V' fb d sz :
  (forall a, claims V d a -> V' a = V a) -> laid V fb d (Z.of_nat sz) -> file_bytes V' (ld d) 0 sz = file_bytes V (ld d) 0 sz.
Proof.
  intros H L. apply map_ext_in. intros j Hj%in_seq. pose proof (la_size _ _ _ _ L).
  assert (Hq : 0 <= (0 + Z.of_nat j) / BSIZE < MAXFILE) by (change BSIZE with 1024 in *; change MAXFILE with 268 in *; dlia).
  apply byte_frame; [done|done|]. apply (la_map _ _ _ _ L); [done|]. change BSIZE with 1024. dlia.
Qed.

Lemma cost_laid V fb d off m :
  laid V fb d off -> 0 < m -> off mod BSIZE + m <= BSIZE -> off + m <= MAXFILE * BSIZE ->
  cost V d (off / BSIZE) = file_blocks (off + m) - file_blocks off.
Proof.
  intros [L1 L2 L3 L4 L5] Hm Ho Hs. unfold cost, file_blocks, NDIRECT in *.
  change BSIZE with 1024 in *. change MAXFILE with 268 in *.
  specialize (L3 (off / 1024) ltac:(dlia)).
  repeat case_decide; dlia.
Qed.

(** ** [iappend] *)

Lemma file_bytes_app V ip o (a b : nat) : file_bytes V ip o (a + b) = file_bytes V ip o a ++ file_bytes V ip (o + Z.of_nat a) b.
Proof.
  apply list_eq. intros j. destruct (decide (j < a + b)%nat) as [Hj|Hj].
  - rewrite file_bytes_lookup by done. destruct (decide (j < a)%nat).
    + rewrite lookup_app_l, file_bytes_lookup by (rewrite ?length_file_bytes; lia). done.
    + rewrite lookup_app_r by (rewrite length_file_bytes; lia). rewrite length_file_bytes, file_bytes_lookup by lia.
      do 2 f_equal. lia.
  - rewrite !lookup_ge_None_2; [done|rewrite length_app, !length_file_bytes; lia|rewrite length_file_bytes; lia].
Qed.

(** The file after its block [x] took the bytes [bs] at [off]. *)
Section Append.
Context (s s1 s2 : mkfs) (d d' : dinode) (x off : Z) (bs : list byte).
Let m : Z := Z.of_nat (length bs).
Let fbn : Z := off / BSIZE.
Hypothesis I : image_ok s.
Hypothesis L : laid (view s) (mk_freeblock s) d off.
Hypothesis G : grows s d fbn s1 d' x.
Hypothesis Hm : 0 < m.
Hypothesis Hfit : off mod BSIZE + m <= BSIZE.
Hypothesis Hmax : off + m <= MAXFILE * BSIZE.
Hypothesis W : forall b, view s2 b = upd_view x (put_bytes (Z.to_nat (off mod BSIZE)) bs (view s1 x)) (view s1) b.

Lemma fbn_range : 0 <= off /\ 0 <= fbn < MAXFILE.
Proof.
  pose proof (la_size _ _ _ _ L). unfold fbn. change BSIZE with 1024 in *. change MAXFILE with 268 in *. split; [lia|]. dlia.
Qed.

Lemma x_range : nmeta <= x < mk_freeblock s1.
Proof.
  pose proof fbn_range. pose proof (gs_addr _ _ _ _ _ _ G fbn ltac:(lia)) as E. rewrite decide_True in E by done.
  rewrite <- E. apply (pl_data _ _ _ (gs_placed _ _ _ _ _ _ G)); [lia|]. rewrite E. apply G.
Qed.

Lemma x_not_ind : x <> ind d'.
Proof.
  pose proof fbn_range. pose proof (gs_addr _ _ _ _ _ _ G fbn ltac:(lia)) as E. rewrite decide_True in E by done.
  rewrite <- E. apply (pl_apart _ _ _ (gs_placed _ _ _ _ _ _ G)); [lia|]. rewrite E. apply G.
Qed.

Lemma addr_after bn : 0 <= bn < MAXFILE -> addr (view s2) d' bn = if decide (bn = fbn) then x else addr (view s) d bn.
Proof.
  intros Hbn. rewrite <- (gs_addr _ _ _ _ _ _ G bn Hbn). apply addr_ext. intros _. rewrite W. apply upd_view_ne.
  intros E. by apply x_not_ind.
Qed.

Lemma view_after b : b < nmeta \/ b <> x /\ b <> ind d' -> view s2 b = view s b.
Proof.
  intros Hb. pose proof x_range. rewrite W, upd_view_ne by lia. apply (gs_view _ _ _ _ _ _ G). lia.
Qed.

(** Old blocks with a role, and new ones. *)
Lemma claims_x : claims (view s) d x \/ mk_freeblock s <= x.
Proof.
  destruct (gs_x _ _ _ _ _ _ G) as [Hx H]. case_decide as Hz; [by right|]. left. split; [done|]. right. exists fbn.
  split; [apply fbn_range|done].
Qed.

Lemma claims_ind : ind d' <> 0 -> claims (view s) d (ind d') \/ mk_freeblock s <= ind d'.
Proof.
  intros Hi. destruct (gs_ind _ _ _ _ _ _ G) as [E|E]; [|by right]. left. split; [done|by left].
Qed.

Lemma claims_after a : claims (view s2) d' a -> claims (view s) d a \/ mk_freeblock s <= a.
Proof.
  intros [H0 [->|(bn & Hbn & E)]]; [by apply claims_ind|]. rewrite addr_after in E by done.
  case_decide; [subst a; apply claims_x|]. left. split; [done|]. right. by exists bn.
Qed.

Lemma laid_after : laid (view s2) (mk_freeblock s1) d' (off + m).
Proof.
  pose proof fbn_range as [H0 Hf]. pose proof (gs_has_ind _ _ _ _ _ _ G) as Hi.
  pose proof (la_ind _ _ _ _ L) as Li. split.
  - apply G.
  - lia.
  - intros bn Hbn. rewrite addr_after by done. pose proof (la_map _ _ _ _ L bn Hbn) as Hmap. unfold fbn in *.
    change BSIZE with 1024 in *. case_decide as E.
    + subst bn. split; [dlia|]. intros _. apply G.
    + rewrite Hmap. dlia.
  - rewrite Hi, Li. unfold fbn, NDIRECT. change BSIZE with 1024 in *. dlia.
  - apply (placed_ext (mk_freeblock s1) _ (addr (view s1) d')); [done| |apply G]. intros bn Hbn.
    rewrite addr_after by done. by rewrite (gs_addr _ _ _ _ _ _ G bn Hbn).
Qed.

Lemma byte_out q :
  0 <= q < MAXFILE * BSIZE -> q < off \/ off + m <= q -> addr (view s) d (q / BSIZE) <> 0 ->
  file_byte (view s2) (ld d') q = file_byte (view s) (ld d) q.
Proof.
  intros Hq Hout Ha. pose proof fbn_range as [H0 Hf]. unfold file_byte.
  change (block_addr (view s2) (ld d')) with (addr (view s2) d'). change (block_addr (view s) (ld d)) with (addr (view s) d).
  assert (Hbn : 0 <= q / BSIZE < MAXFILE) by (change BSIZE with 1024 in *; change MAXFILE with 268 in *; dlia).
  pose proof (addr_after _ Hbn) as E. rewrite E. case_decide as Ef.
  - rewrite Ef in *. destruct (gs_x _ _ _ _ _ _ G) as [_ Hx]. rewrite decide_False in Hx by done. rewrite <- Hx.
    rewrite W, upd_view_eq, (gs_view _ _ _ _ _ _ G) by (right; apply x_not_ind).
    rewrite !list_lookup_total_alt, put_bytes_lookup; [|rewrite (im_block s I); fold m; change BSIZE with 1024 in *; dlia].
    rewrite decide_False; [done|]. unfold fbn, m in *. change BSIZE with 1024 in *. dlia.
  - rewrite view_after; [done|]. right. split.
    + intros Ex. apply Ef. pose proof (la_placed _ _ _ _ laid_after) as P. apply (pl_inj _ _ _ P); [done|done| |].
      * by rewrite E.
      * by rewrite E, addr_after, (decide_True (P := fbn = fbn)) by done.
    + rewrite <- E. apply (pl_apart _ _ _ (la_placed _ _ _ _ laid_after)); [done|]. by rewrite E.
Qed.

Lemma tail_after q :
  (forall q, off <= q < MAXFILE * BSIZE -> addr (view s) d (q / BSIZE) <> 0 -> file_byte (view s) (ld d) q = Byte.x00) ->
  off + m <= q < MAXFILE * BSIZE -> addr (view s2) d' (q / BSIZE) <> 0 -> file_byte (view s2) (ld d') q = Byte.x00.
Proof.
  intros Ht Hq. pose proof fbn_range as [H0 Hf].
  assert (Hbn : 0 <= q / BSIZE < MAXFILE) by (change BSIZE with 1024 in *; change MAXFILE with 268 in *; dlia).
  rewrite addr_after by done. destruct (decide (addr (view s) d (q / BSIZE) = 0)) as [Ez|Ez].
  - case_decide as Ef; [|done]. intros _. unfold file_byte. change (block_addr (view s2) (ld d')) with (addr (view s2) d').
    rewrite addr_after, decide_True, W, upd_view_eq, (gs_view _ _ _ _ _ _ G) by (done || right; apply x_not_ind).
    destruct (gs_x _ _ _ _ _ _ G) as [_ Hx]. rewrite <- Ef, decide_True in Hx by done.
    rewrite list_lookup_total_alt, put_bytes_lookup; [|rewrite (im_block s I); fold m; change BSIZE with 1024 in *; dlia].
    rewrite decide_False by (unfold fbn, m in *; change BSIZE with 1024 in *; dlia).
    rewrite (im_clear s I x Hx). unfold zero_block. by rewrite lookup_replicate_2 by (change BSIZE with 1024; dlia).
  - intros _. rewrite byte_out by (done || lia). apply Ht; [lia|done].
Qed.

Lemma bytes_after (c : list byte) :
  image_ok s2 -> off = Z.of_nat (length c) -> file_bytes (view s) (ld d) 0 (length c) = c ->
  file_bytes (view s2) (ld d') 0 (length c + length bs) = c ++ bs.
Proof.
  intros I2 Ho Hc. pose proof fbn_range as [H0 Hf]. rewrite file_bytes_app. f_equal.
  - rewrite <- Hc at 2. apply map_ext_in. intros j Hj%in_seq.
    apply byte_out; [change MAXFILE with 268 in *; change BSIZE with 1024 in *; lia|lia|].
    apply (la_map _ _ _ _ L); unfold fbn in *; change MAXFILE with 268 in *; change BSIZE with 1024 in *; dlia.
  - rewrite Z.add_0_l, <- Ho, <- file_bytes_block; [|done|apply (im_block s2 I2)|done].
    change (block_addr (view s2) (ld d')) with (addr (view s2) d'). rewrite addr_after by done.
    rewrite decide_True, W, upd_view_eq by done. apply bytes_at_put. rewrite (im_block s1 (gs_image _ _ _ _ _ _ G)). fold m.
    change BSIZE with 1024 in *. dlia.
Qed.

Section Others.
Context (D : Z -> dinode) (C : Z -> list byte) (n : Z).
Let fi : Z := mk_freeinode s.
Hypothesis T : tree (view s) (mk_freeblock s) fi D C.
Hypothesis Hn : 1 <= n < fi.
Hypothesis HD : D n = d.
Hypothesis Ho : off = Z.of_nat (length (C n)).

Lemma other_claims n' a : 1 <= n' < fi -> n' <> n -> claims (view s) (D n') a -> view s2 a = view s a.
Proof.
  intros Hn' Hne Ha. pose proof (claims_range _ _ _ _ (la_placed _ _ _ _ (tr_laid _ _ _ _ _ T n' Hn')) Ha) as Hr.
  apply view_after. right. split.
  - intros ->. destruct claims_x as [Hc|]; [|lia]. apply Hne. apply (tr_apart _ _ _ _ _ T n' n x); try done. by rewrite HD.
  - intros ->. destruct claims_ind as [Hc|]; [apply Ha| |lia]. apply Hne.
    apply (tr_apart _ _ _ _ _ T n' n (ind d')); try done. by rewrite HD.
Qed.

Lemma claims_before n' a : 1 <= n' < fi -> claims (view s2) ((<[n := d']> D) n') a ->
  claims (view s) (D n') a /\ a < mk_freeblock s \/ n' = n /\ mk_freeblock s <= a.
Proof.
  intros Hn'. assert (HR : claims (view s) (D n') a -> a < mk_freeblock s).
  { apply (claims_range _ _ _ _ (la_placed _ _ _ _ (tr_laid _ _ _ _ _ T n' Hn'))). }
  destruct (decide (n' = n)) as [->|Hne].
  - rewrite fn_lookup_insert. intros Ha. rewrite HD in *. destruct (claims_after a Ha); [left; auto|by right].
  - rewrite fn_lookup_insert_ne by done. intros Ha. left.
    assert (H : claims (view s) (D n') a) by (apply (claims_frame (view s) (view s2)); [by intros; apply (other_claims n')|done]).
    auto.
Qed.

Lemma tree_after : image_ok s2 -> tree (view s2) (mk_freeblock s1) fi (<[n := d']> D) (<[n := C n ++ bs]> C).
Proof.
  intros I2. assert (Hfb : mk_freeblock s <= mk_freeblock s1).
  { rewrite (gs_block _ _ _ _ _ _ G). unfold cost. repeat case_decide; lia. }
  split.
  - intros n' Hn'. destruct (decide (n' = n)) as [->|Hne].
    + rewrite !fn_lookup_insert, length_app, Nat2Z.inj_add, <- Ho. apply laid_after.
    + rewrite !fn_lookup_insert_ne by done.
      apply (laid_frame (view s) _ (mk_freeblock s)); [done|by intros; apply (other_claims n')|by apply T].
  - intros n' Hn'. destruct (decide (n' = n)) as [->|Hne].
    + rewrite !fn_lookup_insert, length_app. apply bytes_after; try done. rewrite <- HD. by apply T.
    + rewrite !fn_lookup_insert_ne by done.
      rewrite (bytes_frame (view s) _ (mk_freeblock s)); [by apply T|by intros; apply (other_claims n')|by apply T].
  - intros n' q Hn'. destruct (decide (n' = n)) as [->|Hne].
    + rewrite !fn_lookup_insert, length_app, Nat2Z.inj_add, <- Ho. apply tail_after. rewrite <- HD, Ho. intros q'. by apply T.
    + rewrite !fn_lookup_insert_ne by done. intros Hq Ha. pose proof (fun a => other_claims n' a Hn' Hne) as Ho'.
      rewrite (addr_frame (view s)) in Ha by done.
      rewrite (byte_frame (view s)); [by apply T|done| |done]. change MAXFILE with 268 in *; change BSIZE with 1024 in *; dlia.
  - intros n1 n2 a H1 H2 C1 C2.
    destruct (claims_before n1 a H1 C1) as [[C1' ?]|[-> ?]], (claims_before n2 a H2 C2) as [[C2' ?]|[-> ?]]; try lia.
    by apply (tr_apart _ _ _ _ _ T n1 n2 a).
Qed.

End Others.

End Append.

(** The fields of an inode other than the addresses and the size. *)
Definition same_kind d d' : Prop :=
  d_type d' = d_type d /\ d_major d' = d_major d /\ d_minor d' = d_minor d /\ d_nlink d' = d_nlink d.

(** Only files changed. *)
Record appended s s' : Prop := {
  ap_image : image_ok s';
  ap_inode : mk_freeinode s' = mk_freeinode s;
  ap_view : forall b, b < nmeta -> view s' b = view s b
}.

#[local] Instance appended_trans : Transitive appended.
Proof.
  intros s1 s2 s3 [A1 A2 A3] [B1 B2 B3]. split; [done|congruence|]. intros b Hb. by rewrite B3, A3.
Qed.

Lemma iappend_body_ok s D C n p :
  let off := Z.of_nat (length (C n)) in
  let m := Z.min (Z.of_nat (length p)) (BSIZE - off mod BSIZE) in
  image_ok s -> tree (view s) (mk_freeblock s) (mk_freeinode s) D C -> 1 <= n < mk_freeinode s -> p <> [] ->
  off + Z.of_nat (length p) <= MAXFILE * BSIZE -> mk_freeblock s + file_blocks (off + m) - file_blocks off <= FSSIZE ->
  exists s' d', iappend_body (D n, off, p) s = Ok (inl (d', off + m, drop (Z.to_nat m) p)) s' /\ appended s s' /\
    mk_freeblock s' = mk_freeblock s + file_blocks (off + m) - file_blocks off /\ same_kind (D n) d' /\
    tree (view s') (mk_freeblock s') (mk_freeinode s') (<[n := d']> D) (<[n := C n ++ take (Z.to_nat m) p]> C).
Proof.
  intros off m I T Hn Hp Hmax Hfree. assert (L := tr_laid _ _ _ _ _ T n Hn). fold off in L.
  assert (0 <= off) by (unfold off; lia).
  assert (Hlp : 0 < Z.of_nat (length p)) by (destruct p; [done|simpl; lia]).
  destruct (spans_step off (Z.of_nat (length p))) as (M1 & M2 & _); [done|done|]. fold m in M1, M2.
  set (bs := take (Z.to_nat m) p). assert (Hbs : Z.of_nat (length bs) = m) by (unfold bs; rewrite length_take; lia).
  assert (Hf : 0 <= off / BSIZE < MAXFILE) by (change BSIZE with 1024 in *; change MAXFILE with 268 in *; dlia).
  pose proof (cost_laid _ _ _ _ m L ltac:(lia) M2 ltac:(lia)) as Ec.
  destruct (iblock_ok s (D n) (off / BSIZE)) as (s1 & d' & x & E1 & G); [done|apply L|apply L|done|lia|].
  pose proof (x_range s s1 (D n) d' x off bs L G ltac:(lia) ltac:(lia)) as Hx. assert (I1 := gs_image _ _ _ _ _ _ G).
  pose proof (im_free s1 I1).
  destruct (wsect_ok s1 x (put_bytes (Z.to_nat (off mod BSIZE)) bs (view s1 x)) I1) as (s2 & E2 & I2 & V2 & F2 & N2);
    [lia| |].
  { rewrite length_put_bytes; rewrite (im_block s1 I1); [done|]. change BSIZE with 1024 in *. dlia. }
  exists s2, d'. split_and!.
  - unfold iappend_body. rewrite (proj2 (Z.ltb_lt _ _)) by done. cbn [negb]. rewrite (proj2 (Z.ltb_lt _ _)) by lia.
    unfold assert. rewrite bind_ret. krun E1. krun (rsect_ok s1 x I1 ltac:(lia)).
    replace (off - off / BSIZE * BSIZE) with (off mod BSIZE) by (change BSIZE with 1024; dlia).
    replace (Z.min (Z.of_nat (length p)) ((off / BSIZE + 1) * BSIZE - off)) with m
      by (unfold m; f_equal; change BSIZE with 1024; dlia).
    fold bs. krun E2. done.
  - split; [done|rewrite N2; apply G|]. intros b Hb. apply (view_after s s1 s2 (D n) d' x off bs L G ltac:(lia) ltac:(lia) V2). by left.
  - rewrite F2, (gs_block _ _ _ _ _ _ G). lia.
  - rewrite (gs_rest _ _ _ _ _ _ G). done.
  - rewrite F2, N2, (gs_inode _ _ _ _ _ _ G). apply (tree_after s s1 s2 (D n) d' x off bs I L G); done || lia.
Qed.

(** Only the addresses and the blocks of the files matter. *)
Lemma tree_ext V V' fb fi D D' C C' :
  (forall b, nmeta <= b -> V' b = V b) ->
  (forall n, 1 <= n < fi -> d_addrs (D' n) = d_addrs (D n) /\ C' n = C n) -> tree V fb fi D C -> tree V' fb fi D' C'.
Proof.
  intros HV HE T.
  assert (Hi : forall n, 1 <= n < fi -> ind (D' n) = ind (D n)) by (intros n Hn; unfold ind; by rewrite (proj1 (HE n Hn))).
  assert (HA : forall n bn, 1 <= n < fi -> addr V' (D' n) bn = addr V (D n) bn).
  { intros n bn Hn. unfold addr, block_addr. change (ind_addr (ld (D' n))) with (ind (D' n)).
    change (ind_addr (ld (D n))) with (ind (D n)). simpl. rewrite (proj1 (HE n Hn)), Hi by done.
    case_decide; [done|]. case_decide as H0; [done|]. rewrite HV; [done|].
    apply (pl_ind _ _ _ (la_placed _ _ _ _ (tr_laid _ _ _ _ _ T n Hn)) H0). }
  assert (HB : forall n q, 1 <= n < fi -> 0 <= q < MAXFILE * BSIZE -> addr V (D n) (q / BSIZE) <> 0 ->
    file_byte V' (ld (D' n)) q = file_byte V (ld (D n)) q).
  { intros n q Hn Hq Ha. unfold file_byte. change (block_addr V' (ld (D' n))) with (addr V' (D' n)). rewrite HA by done.
    rewrite HV; [done|]. apply (pl_data _ _ _ (la_placed _ _ _ _ (tr_laid _ _ _ _ _ T n Hn))); [|done].
    change MAXFILE with 268 in *; change BSIZE with 1024 in *; dlia. }
  assert (HC : forall n a, 1 <= n < fi -> claims V' (D' n) a -> claims V (D n) a).
  { intros n a Hn [H0 [->|(bn & Hbn & E)]]; (split; [done|]); [left; by apply Hi|]. right. exists bn. by rewrite HA in E. }
  split.
  - intros n Hn. destruct (HE n Hn) as [Ed ->]. destruct (tr_laid _ _ _ _ _ T n Hn) as [L1 L2 L3 L4 L5].
    split; [by rewrite Ed|done| |by rewrite Hi|rewrite Hi by done].
    + intros bn Hbn. rewrite HA by done. by apply L3.
    + apply (placed_ext fb _ (addr V (D n))); [done| |done]. intros bn _. by apply HA.
  - intros n Hn. rewrite (proj2 (HE n Hn)). rewrite <- (tr_bytes _ _ _ _ _ T n Hn) at 2.
    destruct (tr_laid _ _ _ _ _ T n Hn) as [L1 L2 L3 L4 L5]. apply map_ext_in. intros j Hj%in_seq. apply HB; [done|lia|].
    apply L3; change MAXFILE with 268 in *; change BSIZE with 1024 in *; dlia.
  - intros n q Hn. rewrite (proj2 (HE n Hn)), HA by done. intros Hq Ha. rewrite HB by (done || lia). by apply T.
  - intros n n' a Hn Hn' Ha Ha'. apply (tr_apart _ _ _ _ _ T n n' a); auto.
Qed.

Lemma file_blocks_mono a b : a <= b -> file_blocks a <= file_blocks b.
Proof. intros H. unfold file_blocks. change BSIZE with 1024. unfold NDIRECT. repeat case_decide; dlia. Qed.

Lemma iappend_loop n fuel : forall s D C p,
  let off := Z.of_nat (length (C n)) in
  let off' := off + Z.of_nat (length p) in
  image_ok s -> tree (view s) (mk_freeblock s) (mk_freeinode s) D C -> 1 <= n < mk_freeinode s ->
  off' <= MAXFILE * BSIZE -> mk_freeblock s + file_blocks off' - file_blocks off <= FSSIZE ->
  spans off (Z.of_nat (length p)) + 1 <= Z.of_nat fuel ->
  exists s' d', while fuel iappend_body (D n, off, p) s = Ok (d', off') s' /\ appended s s' /\
    mk_freeblock s' = mk_freeblock s + file_blocks off' - file_blocks off /\ same_kind (D n) d' /\
    tree (view s') (mk_freeblock s') (mk_freeinode s') (<[n := d']> D) (<[n := C n ++ p]> C).
Proof.
  induction fuel as [|fuel IH]; intros s D C p off off' I T Hn Hmax Hfree Hfuel.
  { pose proof (spans_bound off (Z.of_nat (length p)) ltac:(unfold off; lia) ltac:(lia)). lia. }
  cbn [while]. destruct (decide (p = [])) as [->|Hp].
  - exists s, (D n). unfold off'. simpl. rewrite Z.add_0_r. split; [done|]. split; [done|]. split; [lia|]. split; [done|].
    apply (tree_ext (view s) _ _ _ D _ C); [done| |done]. intros n' _. destruct (decide (n' = n)) as [->|].
    + by rewrite !fn_lookup_insert, app_nil_r.
    + by rewrite !fn_lookup_insert_ne.
  - assert (0 < Z.of_nat (length p)) by (destruct p; [done|simpl; lia]).
    destruct (spans_step off (Z.of_nat (length p))) as (M1 & M2 & M3); [unfold off; lia|done|]. set (m := Z.min _ _) in *.
    pose proof (file_blocks_mono (off + m) off' ltac:(lia)).
    destruct (iappend_body_ok s D C n p I T Hn Hp) as (s1 & d1 & E1 & A1 & F1 & K1 & T1); [done|fold off m; lia|].
    fold off m in E1, F1, T1. rewrite (bind_Ok _ _ _ _ _ E1).
    set (C1 := <[n := C n ++ take (Z.to_nat m) p]> C) in *. set (D1 := <[n := d1]> D) in *.
    assert (Ec : C1 n = C n ++ take (Z.to_nat m) p) by apply fn_lookup_insert.
    assert (Eo : Z.of_nat (length (C1 n)) = off + m) by (rewrite Ec, length_app, length_take; unfold off; lia).
    assert (Ed : Z.of_nat (length (drop (Z.to_nat m) p)) = Z.of_nat (length p) - m) by (rewrite length_drop; lia).
    destruct (IH s1 D1 C1 (drop (Z.to_nat m) p)) as (s2 & d2 & E2 & A2 & F2 & K2 & T2);
      rewrite ?Eo, ?Ed in *; [apply A1|done|rewrite (ap_inode _ _ A1); done|lia| |lia|].
    { replace (off + m + (Z.of_nat (length p) - m)) with off' by lia. lia. }
    replace (off + m + (Z.of_nat (length p) - m)) with off' in * by lia.
    assert (EDn : D1 n = d1) by apply fn_lookup_insert. rewrite EDn in *.
    exists s2, d2. split; [done|]. split; [by transitivity s1|]. split; [lia|]. split.
    { destruct K1 as (? & ? & ? & ?), K2 as (? & ? & ? & ?). split_and!; congruence. }
    apply (tree_ext (view s2) _ _ _ (<[n := d2]> D1) _ (<[n := C1 n ++ drop (Z.to_nat m) p]> C1)); [done| |done].
    intros n' _. destruct (decide (n' = n)) as [->|].
    + rewrite !fn_lookup_insert, Ec, <- app_assoc. by rewrite take_drop.
    + rewrite !fn_lookup_insert_ne by done. unfold D1, C1. by rewrite !fn_lookup_insert_ne.
Qed.

(** ** Inodes in the image *)

Definition inode_of s n : dinode := disk_inode sb (view s) n.

Lemma IBLOCK_image n : 0 <= n < NINODES -> IBLOCK n sb = n / 16 + 32.
Proof.
  intros H. unfold IBLOCK. change IPB with 16. change (sb_inodestart sb) with 32. apply u32_small.
  change NINODES with 200 in H. dlia.
Qed.

Lemma rinode_ok s n : image_ok s -> 0 <= n < NINODES -> rinode n s = Ok (inode_of s n) s.
Proof.
  intros I Hn. unfold rinode. pose proof (IBLOCK_image n Hn). change NINODES with 200 in Hn.
  krun (rsect_ok s (IBLOCK n sb) I ltac:(change FSSIZE with 2000; dlia)). done.
Qed.

Lemma dinode_at_only o x x' o' :
  only_at o 64 x x' -> (o' + 64 <= o \/ o + 64 <= o')%nat -> dinode_at x' o' = dinode_at x o'.
Proof.
  intros H Ho. unfold dinode_at.
  rewrite !(get16_only o 64 x x'), (get32_only o 64 x x') by (done || lia). f_equal. apply map_ext_in. intros k Hk%in_seq.
  unfold NDIRECT in Hk. apply (get32_only o 64); [done|lia].
Qed.

Lemma winode_ok s n d :
  image_ok s -> 0 <= n < NINODES -> dinode_ok d ->
  exists s', winode n d s = Ok tt s' /\ image_ok s' /\ mk_freeblock s' = mk_freeblock s /\ mk_freeinode s' = mk_freeinode s /\
    inode_of s' n = d /\ (forall n', 0 <= n' < NINODES -> n' <> n -> inode_of s' n' = inode_of s n') /\
    (forall b, b < 32 \/ 45 <= b -> view s' b = view s b).
Proof.
  intros I Hn Hd. pose proof (IBLOCK_image n Hn) as Eb. pose proof (im_free s I) as Hfree. change nmeta with 46 in Hfree.
  assert (Hb : 32 <= IBLOCK n sb < 45) by (change NINODES with 200 in Hn; dlia).
  pose proof (dinode_off_range n) as Hoff. rewrite <- (im_block s I (IBLOCK n sb)) in Hoff.
  pose proof (put_dinode_only (dinode_off n) d (view s (IBLOCK n sb)) (proj1 (do_addrs d Hd)) Hoff) as Honly.
  destruct (wsect_ok s (IBLOCK n sb) (put_dinode (dinode_off n) d (view s (IBLOCK n sb))) I) as (s' & E & I' & V' & F' & N').
  { lia. }
  { rewrite (proj1 Honly). apply (im_block s I). }
  exists s'. split; [|split; [done|split; [done|split; [done|split; [|split]]]]].
  - unfold winode. krun (rsect_ok s (IBLOCK n sb) I ltac:(change FSSIZE with 2000; lia)). done.
  - unfold inode_of, disk_inode. rewrite V', upd_view_eq. by apply dinode_roundtrip_ok.
  - intros n' Hn' Hne. unfold inode_of, disk_inode. rewrite V'. destruct (decide (IBLOCK n' sb = IBLOCK n sb)) as [E'|E'].
    + rewrite E', upd_view_eq. apply (dinode_at_only (dinode_off n)); [done|]. rewrite Eb, IBLOCK_image in E' by done.
      unfold dinode_off, sizeof_dinode. change IPB with 16. change NINODES with 200 in *. dlia.
    + by rewrite upd_view_ne.
  - intros b Hbb. rewrite V', upd_view_ne; [done|lia].
Qed.

(** The addresses of a file fit the fields of its inode. *)
Lemma laid_fit V fb d sz k a : laid V fb d sz -> fb <= FSSIZE -> d_addrs d !! k = Some a -> 0 <= a < 2 ^ 32.
Proof.
  intros L Hfb Hk. pose proof (lookup_lt_Some _ _ _ Hk) as Hl. rewrite (la_len _ _ _ _ L) in Hl.
  change FSSIZE with 2000 in Hfb. apply list_lookup_total_correct in Hk. destruct (decide (a = 0)); [lia|].
  assert (nmeta <= a < fb); [|change nmeta with 46 in *; lia]. destruct (decide (k = NDIRECT)) as [->|].
  - subst a. by apply (pl_ind _ _ _ (la_placed _ _ _ _ L)).
  - assert (E : addr V d (Z.of_nat k) = a) by (rewrite addr_direct by lia; by rewrite Nat2Z.id).
    rewrite <- E. apply (pl_data _ _ _ (la_placed _ _ _ _ L)); [|by rewrite E]. change MAXFILE with 268. unfold NDIRECT in *. lia.
Qed.

(** ** The image so far *)

(** A file: its type and its contents. *)
Abbreviation file_spec := (Z * list byte)%type.

Definition contents (fs : list file_spec) n : list byte := (fs !!! Z.to_nat (n - 1)).2.

(** The blocks that the files take. *)
Definition total (fs : list file_spec) : Z := foldr Z.add 0 (map (fun f => file_blocks (Z.of_nat (length f.2))) fs).

Definition super : block :=
  put32 28 (sb_bmapstart sb) (put32 24 (sb_inodestart sb) (put32 20 (sb_logstart sb) (put32 16 (sb_nlog sb)
    (put32 12 (sb_ninodes sb) (put32 8 (sb_nblocks sb) (put32 4 (sb_size sb) (put32 0 (sb_magic sb) zero_block))))))).

(** Inode [d] is for the file [f]. *)
Record inode_for (f : file_spec) d : Prop := {
  if_type : d_type d = f.1 /\ (f.1 = T_DIR \/ f.1 = T_FILE);
  if_dev : d_major d = 0 /\ d_minor d = 0;
  if_nlink : d_nlink d = 1;
  if_size : d_size d = Z.of_nat (length f.2)
}.

(** Inode [1 + i] is for file [i] of the list. *)
Record built s (fs : list file_spec) : Prop := {
  bu_image : image_ok s;
  bu_next : mk_freeinode s = 1 + Z.of_nat (length fs);
  bu_count : Z.of_nat (length fs) < NINODES;
  bu_blocks : mk_freeblock s = nmeta + total fs;
  bu_tree : tree (view s) (mk_freeblock s) (mk_freeinode s) (inode_of s) (contents fs);
  bu_inode : forall i f, fs !! i = Some f -> inode_for f (inode_of s (1 + Z.of_nat i));
  bu_unused : forall n, 0 <= n < NINODES -> n = 0 \/ mk_freeinode s <= n -> d_type (inode_of s n) = 0;
  bu_super : view s 1 = super;
  bu_log : forall b, 2 <= b < 32 -> view s b = zero_block
}.

Lemma total_cons f fs : total (f :: fs) = file_blocks (Z.of_nat (length f.2)) + total fs.
Proof. done. Qed.

Lemma total_insert fs i f f' :
  fs !! i = Some f ->
  total (<[i := f']> fs) = total fs + file_blocks (Z.of_nat (length f'.2)) - file_blocks (Z.of_nat (length f.2)).
Proof.
  revert i. induction fs as [|g fs IH]; intros [|i]; try done.
  - intros [= ->]. change (<[0%nat := f']> (f :: fs)) with (f' :: fs). rewrite !total_cons. lia.
  - intros H%IH. change (<[S i := f']> (g :: fs)) with (g :: <[i := f']> fs). rewrite !total_cons. lia.
Qed.

Lemma contents_insert fs i f n :
  (i < length fs)%nat -> 1 <= n -> contents (<[i := f]> fs) n = if decide (n = 1 + Z.of_nat i) then f.2 else contents fs n.
Proof.
  intros Hi Hn. unfold contents. case_decide as E.
  - subst n. replace (Z.to_nat _) with i by lia. by rewrite list_lookup_total_insert_eq.
  - rewrite list_lookup_total_insert_ne by lia. done.
Qed.

Lemma inode_for_ok V fb f d : laid V fb d (Z.of_nat (length f.2)) -> fb <= FSSIZE -> inode_for f d -> dinode_ok d.
Proof.
  intros L Hfb [[F1 F1'] [F2 F3] F4 F5]. split; rewrite ?F2, ?F3, ?F4; try lia.
  - rewrite F1. unfold T_DIR, T_FILE in F1'. lia.
  - rewrite F5. pose proof (la_size _ _ _ _ L). change MAXFILE with 268 in *. change BSIZE with 1024 in *. lia.
  - split; [apply L|]. intros a [k Hk]%list_elem_of_lookup. by eapply laid_fit.
Qed.

Lemma iappend_ok s fs i f p :
  let fs' := <[i := (f.1, f.2 ++ p)]> fs in
  built s fs -> fs !! i = Some f -> Z.of_nat (length (f.2 ++ p)) <= MAXFILE * BSIZE -> nmeta + total fs' <= FSSIZE ->
  exists s', iappend (1 + Z.of_nat i) p s = Ok tt s' /\ built s' fs'.
Proof.
  intros fs' B Hf Hmax Hroom. set (n := 1 + Z.of_nat i). destruct B as [B1 B2 B3 B4 B5 B6 B7 B8 B9].
  pose proof (lookup_lt_Some _ _ _ Hf) as Hi. pose proof (total_insert fs i f (f.1, f.2 ++ p) Hf) as Et. fold fs' in Et. simpl in Et.
  rewrite length_app, Nat2Z.inj_add in Et, Hmax.
  assert (Ec : contents fs n = f.2).
  { unfold contents, n. replace (Z.to_nat _) with i by lia. by rewrite (list_lookup_total_correct _ _ _ Hf). }
  assert (Hn : 0 <= n < NINODES) by (unfold n; lia). assert (Hr : 1 <= n < mk_freeinode s) by (unfold n; lia).
  destruct (B6 i f Hf) as [K1 K2 K3 K4]. fold n in K1, K2, K3, K4.
  destruct (iappend_loop n (length p / Z.to_nat BSIZE + 3) s (inode_of s) (contents fs) p) as (s1 & d1 & E1 & A1 & F1 & S1 & T1);
    rewrite ?Ec in *; [done|done|lia|lia|lia| |].
  { pose proof (spans_bound (Z.of_nat (length f.2)) (Z.of_nat (length p)) ltac:(lia) ltac:(lia)).
    change BSIZE with 1024 in *. change (Z.to_nat 1024) with 1024%nat. rewrite Nat2Z.inj_add, Nat2Z.inj_div. lia. }
  set (off' := Z.of_nat (length f.2) + Z.of_nat (length p)) in *. destruct A1 as [I1 N1 V1].
  assert (Hin : forall n', 0 <= n' < NINODES -> inode_of s1 n' = inode_of s n').
  { intros n' Hn'. unfold inode_of, disk_inode. rewrite V1; [done|]. rewrite IBLOCK_image by done.
    change NINODES with 200 in Hn'. change nmeta with 46. dlia. }
  assert (L1 := tr_laid _ _ _ _ _ T1 n ltac:(lia)). rewrite !fn_lookup_insert, length_app, Nat2Z.inj_add in L1. fold off' in L1.
  destruct S1 as (Sa & Sb & Sc & Sd).
  assert (HF : inode_for (f.1, f.2 ++ p) (set_d_size off' d1)).
  { split; simpl; [rewrite Sa; done|by rewrite Sb, Sc|by rewrite Sd|]. rewrite length_app. unfold off'. lia. }
  destruct (winode_ok s1 n (set_d_size off' d1) I1 Hn) as (s2 & E2 & I2 & F2 & N2 & D2 & O2 & V2).
  { apply (inode_for_ok (view s1) (mk_freeblock s1) (f.1, f.2 ++ p)); [|apply (im_free s1 I1)|done].
    simpl. rewrite length_app, Nat2Z.inj_add. fold off'. destruct L1. by split. }
  exists s2. split.
  - unfold iappend. krun (rinode_ok s n B1 Hn). rewrite K4. krun E1. done.
  - assert (Hl : length fs' = length fs) by apply length_insert. split; rewrite ?Hl, ?F2, ?N2, ?N1; try done; try lia.
    + rewrite N1 in T1. apply (tree_ext (view s1) _ _ _ (<[n := d1]> (inode_of s)) _ (<[n := f.2 ++ p]> (contents fs))); [| |done].
      * intros b Hb. apply V2. change nmeta with 46 in Hb. lia.
      * intros n' Hn'. unfold fs'. rewrite contents_insert by lia. destruct (decide (n' = n)) as [->|Hne].
        -- rewrite D2, !fn_lookup_insert. by rewrite decide_True.
        -- rewrite !fn_lookup_insert_ne by done. rewrite O2, Hin by (done || lia). by rewrite decide_False.
    + intros j g Hj. unfold fs' in Hj. destruct (decide (j = i)) as [->|Hne].
      * rewrite list_lookup_insert_eq in Hj by done. injection Hj as <-. fold n. by rewrite D2.
      * rewrite list_lookup_insert_ne in Hj by done. pose proof (lookup_lt_Some _ _ _ Hj).
        rewrite O2, Hin by (unfold n; lia). by apply B6.
    + intros n' Hn' Hu. rewrite O2, Hin by (done || lia). by apply B7.
    + by rewrite V2, V1 by (change nmeta with 46; lia).
    + intros b Hb. rewrite V2, V1 by (change nmeta with 46; lia). by apply B9.
Qed.

(** ** The rest of the program *)

Definition new_dinode (type : Z) : dinode := Dinode type 0 0 1 0 (replicate (S NDIRECT) 0).

Lemma new_dinode_addr V type bn : 0 <= bn < MAXFILE -> addr V (new_dinode type) bn = 0.
Proof.
  intros H. destruct (decide (bn < Z.of_nat NDIRECT)).
  - rewrite addr_direct by done. apply (lookup_total_replicate_2 (S NDIRECT) 0 (Z.to_nat bn)). unfold NDIRECT in *. lia.
  - rewrite addr_indirect by lia. done.
Qed.

Lemma new_dinode_laid V fb type : laid V fb (new_dinode type) 0.
Proof.
  split; [done|done| | |].
  - intros bn Hbn. rewrite new_dinode_addr by done. change BSIZE with 1024. lia.
  - done.
  - split; try done; intros bn; intros; by rewrite new_dinode_addr in *.
Qed.

Lemma new_dinode_claims V type a : claims V (new_dinode type) a -> False.
Proof. intros [H0 [->|(bn & Hbn & E)]]; [done|]. rewrite new_dinode_addr in E by done. done. Qed.

Lemma contents_snoc fs f n :
  1 <= n < 2 + Z.of_nat (length fs) ->
  contents (fs ++ [f]) n = if decide (n = 1 + Z.of_nat (length fs)) then f.2 else contents fs n.
Proof.
  intros Hn. unfold contents. case_decide as E.
  - subst n. rewrite lookup_total_app_r by lia. replace (Z.to_nat _ - _)%nat with 0%nat by lia. done.
  - rewrite lookup_total_app_l by lia. done.
Qed.

Lemma total_app fs fs' : total (fs ++ fs') = total fs + total fs'.
Proof. induction fs as [|f fs IH]; [done|]. rewrite <- app_comm_cons, !total_cons, IH. lia. Qed.

Lemma tree_new V fb fi D C : 1 <= fi -> D fi = new_dinode (d_type (D fi)) -> C fi = [] -> tree V fb fi D C -> tree V fb (fi + 1) D C.
Proof.
  intros Hfi HD HC T. assert (Hc : forall n, 1 <= n < fi + 1 -> n = fi \/ 1 <= n < fi) by lia. split.
  - intros n [->|Hn]%Hc; [|by apply T]. rewrite HD, HC. apply new_dinode_laid.
  - intros n [->|Hn]%Hc; [|by apply T]. by rewrite HC.
  - intros n q [->|Hn]%Hc; [|by apply T]. rewrite HC, HD. intros Hq. rewrite new_dinode_addr; [done|].
    change (Z.of_nat (length [])) with 0 in Hq. change MAXFILE with 268 in *. change BSIZE with 1024 in *. dlia.
  - intros n n' a [->|Hn]%Hc [->|Hn']%Hc; [done| | |by apply T].
    + rewrite HD. by intros []%new_dinode_claims.
    + rewrite HD. by intros _ []%new_dinode_claims.
Qed.

Lemma ialloc_ok s fs type :
  built s fs -> Z.of_nat (S (length fs)) < NINODES -> type = T_DIR \/ type = T_FILE ->
  exists s', ialloc type s = Ok (1 + Z.of_nat (length fs)) s' /\ built s' (fs ++ [(type, [])]).
Proof.
  intros [B1 B2 B3 B4 B5 B6 B7 B8 B9] Hc Ht. set (n := 1 + Z.of_nat (length fs)) in *.
  set (s0 := St (mk_blocks s) (mk_len s) (u32 (mk_freeinode s + 1)) (mk_freeblock s)).
  assert (N0 : mk_freeinode s0 = n + 1) by (simpl; rewrite B2; apply u32_small; change NINODES with 200 in *; unfold n; lia).
  assert (I0 : image_ok s0) by (destruct B1; by split).
  assert (HF : inode_for (type, []) (new_dinode type)) by done.
  destruct (winode_ok s0 n (new_dinode type) I0) as (s1 & E1 & I1 & F1 & N1 & D1 & O1 & V1); [lia| |].
  { apply (inode_for_ok (view s) (mk_freeblock s) (type, [])); [apply new_dinode_laid|apply (im_free s B1)|done]. }
  exists s1. split.
  - unfold ialloc, next_inode. rewrite (bind_Ok _ _ _ (mk_freeinode s) s0) by done. rewrite B2. fold (new_dinode type). by krun E1.
  - assert (Hl : length (fs ++ [(type, [] : list byte)]) = S (length fs)) by (rewrite length_app; simpl; lia).
    assert (Fs : mk_freeblock s1 = mk_freeblock s) by done.
    split; rewrite ?Hl; try done; try lia.
    + rewrite total_app, Fs, B4. change (total [(type, [])]) with 0. lia.
    + rewrite N1, N0. apply tree_new; [lia|by rewrite D1|by rewrite contents_snoc, decide_True by lia|].
      rewrite Fs. rewrite B2 in B5.
      apply (tree_ext (view s) _ _ _ (inode_of s) _ (contents fs)); [| |done].
      * intros b Hb. rewrite V1; [done|]. change nmeta with 46 in Hb. lia.
      * intros n' Hn'. rewrite O1 by lia. rewrite contents_snoc, decide_False by lia. done.
    + intros i f [[Hlt Hf]|[-> <-]]%lookup_snoc_Some.
      * rewrite O1 by lia. by apply B6.
      * fold n. by rewrite D1.
    + intros n' Hn' Hu. rewrite N1, N0 in Hu. rewrite O1 by lia. apply B7; [done|lia].
    + by rewrite V1 by lia.
    + intros b Hb. rewrite V1 by lia. by apply B9.
Qed.

(** The reads of a file, one after the other. *)
Lemma appends_ok cs : forall s fs i f,
  let fs' := <[i := (f.1, f.2 ++ concat cs)]> fs in
  built s fs -> fs !! i = Some f -> Z.of_nat (length (f.2 ++ concat cs)) <= MAXFILE * BSIZE -> nmeta + total fs' <= FSSIZE ->
  exists s', forM cs (iappend (1 + Z.of_nat i)) s = Ok tt s' /\ built s' fs'.
Proof.
  induction cs as [|c cs IH]; intros s fs i f fs' B Hf Hmax Hroom; simpl concat in *.
  { exists s. split; [done|]. unfold fs'. rewrite app_nil_r. destruct f as [ty c]. by rewrite list_insert_id. }
  set (f1 := (f.1, f.2 ++ c)). pose proof (lookup_lt_Some _ _ _ Hf) as Hi.
  assert (E' : fs' = <[i := (f1.1, f1.2 ++ concat cs)]> (<[i := f1]> fs)).
  { unfold fs', f1. simpl. by rewrite list_insert_insert_eq, app_assoc. }
  assert (Hm : file_blocks (Z.of_nat (length f1.2)) <= file_blocks (Z.of_nat (length (f.2 ++ c ++ concat cs)))).
  { apply file_blocks_mono. unfold f1. simpl. rewrite !length_app. lia. }
  pose proof (total_insert fs i f f1 Hf). pose proof (total_insert fs i f (f.1, f.2 ++ c ++ concat cs) Hf) as Et. fold fs' in Et.
  simpl length in *. simpl snd in Et, Hm.
  destruct (iappend_ok s fs i f c B Hf) as (s1 & E1 & B1); [rewrite !length_app in *; lia|fold f1; lia|]. fold f1 in B1.
  destruct (IH s1 (<[i := f1]> fs) i f1 B1) as (s2 & E2 & B2).
  - by rewrite list_lookup_insert_eq.
  - unfold f1. simpl. by rewrite <- app_assoc.
  - by rewrite <- E'.
  - exists s2. split; [|by rewrite E']. cbn [forM]. by krun E1.
Qed.

End MkfsOk.
