(* ===== verification/MkfsImage.v ===== *)
(** * The image [mkfs] leaves

    [main] of [mkfs/mkfs.c] on a list of files that fits: the run ends without an
    error, and the image is a file system as the kernel's theorems ask for it,
    with the files under their names. *)

From stdpp Require Import functions.
From S2P Require Import Prelude Riscv Memory CString Sys Spinlock Proc Kalloc Sleeplock Uart Printf Bio Block Log Kernel Machine Fs LogDisk FsPath FsTx FsBlocks FsFile FsWrite FsOp FsInode FsDir Mkfs MkfsOk.

Module MkfsImage.
Import Mkfs.Mkfs MkfsOk.MkfsOk.
Implicit Types (V : Z -> block) (s : mkfs) (n a bn : Z).

(** ** What the image should have *)

(** An argument: the path, and the results of [read] when it can be opened. *)
Abbreviation input := (list byte * option (list (list byte)))%type.

(** The name of a file in the root directory. *)
Definition short (f : input) : list byte := strip_underscore (strip_user f.1).

Definition bytes_in (f : input) : list byte := concat (default [] f.2).

(** The entries of the root directory. *)
Definition entries (files : list input) : list (Z * list byte) :=
  (1, bytes_of ".") :: (1, bytes_of "..") :: imap (fun i f => (2 + Z.of_nat i, short f)) files.

Definition root_bytes (files : list input) : list byte := concat (map (fun e => dirent_for e.1 e.2) (entries files)).

(** The files of the image, in the order of their inodes. *)
Definition expect (files : list input) : list (Z * list byte) :=
  (T_DIR, root_bytes files) :: map (fun f => (T_FILE, bytes_in f)) files.

(** A file that can be added: it can be opened, its name has no slash and fits
    an entry, and its bytes fit a file. *)
Record input_ok (f : input) : Prop := {
  in_open : exists cs, f.2 = Some cs;
  in_slash : has_slash (strip_user f.1) = false;
  in_name : (length (short f) <= DIRSIZ)%nat;
  in_nul : Byte.x00 ∉ f.1;
  in_size : Z.of_nat (length (bytes_in f)) <= MAXFILE * BSIZE
}.

(** The files fit: there are inodes and blocks for them. *)
Record fits (files : list input) : Prop := {
  ft_files : Forall input_ok files;
  ft_inodes : Z.of_nat (S (length files)) < NINODES;
  ft_blocks : nmeta + total (expect files) <= FSSIZE
}.

(** ** Adding the files *)

Lemma length_dirent_for n name : length (dirent_for n name) = 16%nat.
Proof.
  unfold dirent_for, dirent_of, nul_pad. rewrite !length_app, length_le_split, length_replicate, length_take. unfold DIRSIZ. lia.
Qed.

Lemma length_entries files : length (entries files) = S (S (length files)).
Proof. unfold entries. simpl. by rewrite length_imap. Qed.

Lemma length_concat_16 {A} (l : list (list A)) : Forall (fun x => length x = 16%nat) l -> length (concat l) = (16 * length l)%nat.
Proof. induction 1; simpl; [done|]. rewrite length_app. lia. Qed.

Lemma concat_at {A} (l : list (list A)) m x :
  Forall (fun x => length x = 16%nat) l -> l !! m = Some x -> take 16 (drop (16 * m) (concat l)) = x.
Proof.
  intros H. revert m. induction H as [|y l Hy H IH]; intros [|m]; try done.
  - intros [= ->]. simpl concat. rewrite Nat.mul_0_r, drop_0. by apply take_app_length'.
  - intros Hm. simpl concat. replace (16 * S m)%nat with (length y + 16 * m)%nat by lia. rewrite <- drop_drop, drop_app_length. by apply IH.
Qed.

Lemma concat_replicate {A} (n k : nat) (x : A) : concat (replicate n (replicate k x)) = replicate (k * n) x.
Proof.
  induction n as [|n IH]; simpl; [by rewrite Nat.mul_0_r|]. rewrite IH, <- replicate_add. f_equal. lia.
Qed.

Lemma length_root_bytes files : length (root_bytes files) = (16 * S (S (length files)))%nat.
Proof.
  unfold root_bytes. rewrite length_concat_16.
  - by rewrite length_map, length_entries.
  - apply Forall_forall. intros de (e & -> & _)%list_elem_of_fmap. apply length_dirent_for.
Qed.

Lemma entries_snoc files f : entries (files ++ [f]) = entries files ++ [(2 + Z.of_nat (length files), short f)].
Proof. unfold entries. rewrite imap_app. do 2 (rewrite <- app_comm_cons; f_equal). cbn [imap]. unfold compose. by rewrite Nat.add_0_r. Qed.

Lemma root_bytes_snoc files f :
  root_bytes (files ++ [f]) = root_bytes files ++ dirent_for (2 + Z.of_nat (length files)) (short f).
Proof.
  unfold root_bytes. rewrite entries_snoc, map_app, concat_app. f_equal. apply app_nil_r.
Qed.

Lemma expect_snoc files f :
  expect (files ++ [f]) =
  (T_DIR, root_bytes files ++ dirent_for (2 + Z.of_nat (length files)) (short f)) ::
  map (fun f => (T_FILE, bytes_in f)) files ++ [(T_FILE, bytes_in f)].
Proof. unfold expect. by rewrite root_bytes_snoc, map_app. Qed.

Lemma length_expect files : length (expect files) = S (length files).
Proof. unfold expect. simpl. by rewrite length_map. Qed.

Lemma file_blocks_nonneg sz : 0 <= sz -> 0 <= file_blocks sz.
Proof. intros H. unfold file_blocks. change BSIZE with 1024. case_decide; dlia. Qed.

Lemma total_expect_mono files files' : total (expect files) <= total (expect (files ++ files')).
Proof.
  unfold expect. rewrite !total_cons, map_app, total_app. simpl snd.
  pose proof (file_blocks_mono (Z.of_nat (length (root_bytes files))) (Z.of_nat (length (root_bytes (files ++ files'))))) as H.
  rewrite !length_root_bytes, length_app in *. specialize (H ltac:(lia)).
  assert (0 <= total (map (fun f => (T_FILE, bytes_in f)) files')); [|lia].
  clear H. induction files' as [|f fs IH]; [done|]. rewrite map_cons, total_cons. pose proof (file_blocks_nonneg (Z.of_nat (length (bytes_in f)))).
  simpl snd. lia.
Qed.

Lemma add_file_ok s files f :
  built s (expect files) -> input_ok f -> Z.of_nat (S (S (length files))) < NINODES ->
  nmeta + total (expect (files ++ [f])) <= FSSIZE ->
  exists s', add_file 1 f s = Ok tt s' /\ built s' (expect (files ++ [f])).
Proof.
  intros B [[cs Hcs] Hs Hl Hz Hsz] Hc Hroom. assert (Eb : bytes_in f = concat cs) by (unfold bytes_in; by rewrite Hcs).
  rewrite Eb in Hsz.
  destruct (ialloc_ok s (expect files) T_FILE B) as (s1 & E1 & B1); [by rewrite length_expect|by right|].
  rewrite length_expect in E1. set (fs1 := expect files ++ _) in B1.
  assert (El : length (expect files ++ [(T_FILE, [] : list byte)]) = S (S (length files))) by (rewrite length_app, length_expect; simpl; lia).
  set (de := dirent_for (2 + Z.of_nat (length files)) (short f)).
  set (fs2 := <[0%nat := (T_DIR, root_bytes files ++ de)]> fs1).
  assert (E2 : fs2 = (T_DIR, root_bytes files ++ de) :: map (fun f => (T_FILE, bytes_in f)) files ++ [(T_FILE, [])]) by done.
  set (fs3 := <[S (length files) := (T_FILE, concat cs)]> fs2).
  assert (E3 : fs3 = expect (files ++ [f])).
  { rewrite expect_snoc. unfold fs3. rewrite E2. simpl. fold de. f_equal.
    rewrite insert_app_r_alt by (rewrite length_map; lia). rewrite length_map, Nat.sub_diag. simpl.
    by rewrite Eb. }
  assert (Hf2 : fs2 !! S (length files) = Some (T_FILE, [])).
  { rewrite E2. simpl. rewrite lookup_app_r by (rewrite length_map; lia). rewrite length_map, Nat.sub_diag. done. }
  assert (Et : total fs3 = total fs2 + file_blocks (Z.of_nat (length (concat cs)))).
  { unfold fs3. rewrite (total_insert _ _ _ _ Hf2). cbn [snd length]. change (file_blocks (Z.of_nat 0)) with 0. lia. }
  pose proof (file_blocks_nonneg (Z.of_nat (length (concat cs))) ltac:(lia)).
  destruct (iappend_ok s1 fs1 0 (T_DIR, root_bytes files) de B1) as (s2 & E4 & B2); [done| | |].
  { unfold de. cbn [snd]. rewrite length_app, length_dirent_for, length_root_bytes. change NINODES with 200 in Hc.
    change MAXFILE with 268. change BSIZE with 1024. lia. }
  { change (nmeta + total fs2 <= FSSIZE). rewrite E3 in Et. lia. }
  destruct (appends_ok cs s2 fs2 (S (length files)) (T_FILE, [])) as (s3 & E5 & B3); [done|done|done| |].
  { change (nmeta + total fs3 <= FSSIZE). rewrite E3. lia. }
  exists s3. change (built s3 fs3) in B3. rewrite E3 in B3. split; [|done].
  unfold add_file. rewrite Hs. unfold assert. cbn [negb]. rewrite bind_ret, Hcs. fold (short f).
  rewrite (proj2 (Nat.leb_le _ _)) by done. rewrite bind_ret. krun E1.
  replace (1 + Z.of_nat (S (length files))) with (2 + Z.of_nat (length files)) by lia. fold de.
  change (1 + Z.of_nat 0) with 1 in E4. krun E4. rewrite <- E5. f_equal. f_equal. lia.
Qed.

Lemma add_files_ok files : forall s done,
  built s (expect done) -> Forall input_ok files -> Z.of_nat (S (length (done ++ files))) < NINODES ->
  nmeta + total (expect (done ++ files)) <= FSSIZE ->
  exists s', forM files (add_file 1) s = Ok tt s' /\ built s' (expect (done ++ files)).
Proof.
  induction files as [|f files IH]; intros s done B Hok Hc Hroom.
  { exists s. by rewrite app_nil_r. }
  apply Forall_cons in Hok as [Hf Hok]. replace (done ++ f :: files) with ((done ++ [f]) ++ files) in * by (by rewrite <- app_assoc).
  pose proof (total_expect_mono (done ++ [f]) files). rewrite !length_app in Hc. simpl in Hc.
  destruct (add_file_ok s done f B Hf) as (s1 & E1 & B1); [lia|lia|].
  destruct (IH s1 (done ++ [f]) B1 Hok) as (s2 & E2 & B2); [rewrite !length_app; simpl; lia|done|].
  exists s2. split; [|done]. cbn [forM]. by krun E1.
Qed.

(** ** The start of the image *)

Lemma zeroes_ok (k : nat) : forall (a : nat) s,
  (forall b, view s b = zero_block) -> mk_len s = Z.of_nat a ->
  exists s', forM (seq a k) (fun i => wsect (Z.of_nat i) zero_block) s = Ok tt s' /\ (forall b, view s' b = zero_block) /\
    mk_len s' = Z.of_nat (a + k) /\ mk_freeinode s' = mk_freeinode s /\ mk_freeblock s' = mk_freeblock s.
Proof.
  induction k as [|k IH]; intros a s Hz Hl; cbn [seq forM].
  { exists s. split_and!; try done. lia. }
  set (s1 := St (<[Z.of_nat a := zero_block]> (mk_blocks s)) (Z.max (mk_len s) (Z.of_nat a + 1)) (mk_freeinode s) (mk_freeblock s)).
  destruct (IH (S a) s1) as (s' & E & Hz' & Hl' & Hi & Hb).
  - intros b. unfold view, blk, s1. cbn [mk_blocks]. destruct (decide (Z.of_nat a = b)) as [<-|Hne].
    + by rewrite lookup_insert_eq.
    + rewrite lookup_insert_ne by done. apply Hz.
  - unfold s1. cbn [mk_len]. lia.
  - exists s'. split; [|split_and!; try done; lia]. by rewrite (bind_Ok _ _ _ tt s1).
Qed.

Lemma zero_dinode o : d_type (dinode_at zero_block o) = 0.
Proof.
  unfold dinode_at. cbn [d_type]. replace (get16 zero_block o) with 0; [done|].
  unfold get16, zero_block. unfold bytes_at. rewrite drop_replicate, take_replicate, le_combine_zeros. done.
Qed.

Lemma start_built : exists s,
  (forM (seq 0 (Z.to_nat FSSIZE)) (fun i => wsect (Z.of_nat i) zero_block) ;; wsect 1 super) start = Ok tt s /\ built s [].
Proof.
  destruct (zeroes_ok (Z.to_nat FSSIZE) 0 start) as (s1 & E1 & Z1 & L1 & N1 & F1); [done|done|].
  assert (I1 : image_ok s1).
  { split; [done|intros b; by rewrite Z1|by rewrite F1|intros b _; apply Z1]. }
  destruct (wsect_ok s1 1 super I1) as (s2 & E2 & I2 & V2 & F2 & N2); [by rewrite F1|vm_compute; reflexivity|].
  exists s2. split; [by krun E1|]. split.
  - done.
  - by rewrite N2, N1.
  - done.
  - by rewrite F2, F1.
  - rewrite N2, N1. change (mk_freeinode start) with 1. split; intros; lia.
  - done.
  - intros n Hn _. unfold inode_of, disk_inode. rewrite V2, upd_view_ne, Z1; [apply zero_dinode|].
    rewrite IBLOCK_image by done. change NINODES with 200 in Hn. dlia.
  - by rewrite V2, upd_view_eq.
  - intros b Hb. rewrite V2, upd_view_ne by lia. apply Z1.
Qed.

Lemma root_built s :
  built s [] -> exists s', (let! rootino := ialloc T_DIR in
    assert (rootino =? ROOTINO) "rootino == ROOTINO" ;;
    iappend rootino (dirent_for rootino (bytes_of ".")) ;;
    iappend rootino (dirent_for rootino (bytes_of ".."))) s = Ok tt s' /\ built s' (expect []).
Proof.
  intros B. destruct (ialloc_ok s [] T_DIR B) as (s1 & E1 & B1); [done|by left|].
  destruct (iappend_ok s1 [(T_DIR, [])] 0 (T_DIR, []) (dirent_for 1 (bytes_of ".")) B1) as (s2 & E2 & B2);
    [done|vm_compute; discriminate|vm_compute; discriminate|].
  destruct (iappend_ok s2 [(T_DIR, dirent_for 1 (bytes_of "."))] 0 (T_DIR, dirent_for 1 (bytes_of ".")) (dirent_for 1 (bytes_of "..")) B2)
    as (s3 & E3 & B3); [done|vm_compute; discriminate|vm_compute; discriminate|].
  exists s3. split; [|exact B3]. krun E1. unfold assert. change (1 + Z.of_nat (length [])) with ROOTINO. cbn [Z.eqb].
  rewrite Z.eqb_refl, bind_ret. change (1 + Z.of_nat 0) with 1 in *. change ROOTINO with 1. krun E2. by krun E3.
Qed.

(** ** The end of the image *)

Lemma bitmap_bits k :
  Z.of_nat k <= BPB -> length (bitmap (Z.of_nat k)) = Z.to_nat BSIZE /\
  forall b, 0 <= b < BPB -> bit_set (bitmap (Z.of_nat k)) b = (b <? Z.of_nat k).
Proof.
  unfold bitmap. rewrite Nat2Z.id. change BPB with 8192. induction k as [|k IH]; intros Hk.
  - split; [done|]. intros b Hb. simpl foldl. unfold bit_set, zero_block.
    rewrite lookup_total_replicate_2 by (change (Z.to_nat BSIZE) with 1024%nat; dlia).
    rewrite (proj2 (Z.ltb_ge b (Z.of_nat 0))) by lia. rewrite has_testbit by dlia. apply Z.testbit_0_l.
  - destruct IH as [L IH]; [lia|]. rewrite seq_S, foldl_app. cbn [foldl Nat.add]. split; [by rewrite length_set_bit|].
    intros b Hb. rewrite bit_set_set; [|lia|rewrite L; change (Z.to_nat BSIZE) with 1024%nat; lia]. rewrite IH by done.
    destruct (Z.ltb_spec b (Z.of_nat (S k))), (Z.ltb_spec b (Z.of_nat k)); rewrite ?orb_true_r; try done; try lia.
    + rewrite bool_decide_eq_true_2 by lia. done.
    + rewrite bool_decide_eq_false_2 by lia. done.
Qed.

(** The size of the root directory in whole blocks. *)
Definition rounded (off : Z) : Z := (off / BSIZE + 1) * BSIZE.

Lemma finish_ok s fs rb :
  built s fs -> fs !! 0%nat = Some (T_DIR, rb) ->
  rounded (Z.of_nat (length rb)) <= MAXFILE * BSIZE ->
  exists s', (let! din := rinode ROOTINO in
    winode ROOTINO (set_d_size (rounded (d_size din)) din) ;;
    let! used := gets mk_freeblock in balloc used) s = Ok tt s' /\
    image_ok s' /\ mk_freeblock s' = nmeta + total fs /\
    (forall b, b < 32 \/ 46 <= b -> view s' b = view s b) /\ view s' 45 = bitmap (nmeta + total fs) /\
    inode_of s' 1 = set_d_size (rounded (Z.of_nat (length rb))) (inode_of s 1) /\
    (forall n, 0 <= n < NINODES -> n <> 1 -> inode_of s' n = inode_of s n).
Proof.
  intros B Hr Hmax. assert (I := bu_image s fs B). destruct (bu_inode s fs B 0 _ Hr) as [K1 K2 K3 K4].
  change (1 + Z.of_nat 0) with 1 in *. cbn [snd] in K4. pose proof (im_free s I) as Hfree.
  assert (Hd : dinode_ok (set_d_size (rounded (Z.of_nat (length rb))) (inode_of s 1))).
  { destruct (inode_for_ok (view s) (mk_freeblock s) (T_DIR, rb) (inode_of s 1)) as [D1 D2 D3 D4 D5 D6].
    - pose proof (lookup_lt_Some _ _ _ Hr). assert (Hn : 1 <= 1 < mk_freeinode s) by (rewrite (bu_next s fs B); lia).
      pose proof (tr_laid _ _ _ _ _ (bu_tree s fs B) 1 Hn) as L. unfold contents in L.
      by rewrite (list_lookup_total_correct fs (Z.to_nat (1 - 1)) _ Hr) in L.
    - lia.
    - by split.
    - split; try done. simpl. unfold rounded in *. change MAXFILE with 268 in *. change BSIZE with 1024 in *. dlia. }
  destruct (winode_ok s 1 _ I ltac:(done) Hd) as (s1 & E1 & I1 & F1 & N1 & D1 & O1 & V1).
  set (u := Z.to_nat (mk_freeblock s)).
  assert (Eu : Z.of_nat u = mk_freeblock s) by (unfold u; change nmeta with 46 in *; lia).
  destruct (bitmap_bits u) as [Lb _]; [rewrite Eu; change FSSIZE with 2000 in *; change BPB with 8192; lia|]. rewrite Eu in Lb.
  destruct (wsect_ok s1 45 (bitmap (mk_freeblock s)) I1) as (s2 & E2 & I2 & V2 & F2 & N2); [rewrite F1; change nmeta with 46 in *; lia|done|].
  assert (HO : forall n, 0 <= n < NINODES -> inode_of s2 n = inode_of s1 n).
  { intros n Hn. unfold inode_of, disk_inode. rewrite V2, upd_view_ne; [done|]. rewrite IBLOCK_image by done.
    change NINODES with 200 in Hn. dlia. }
  exists s2. rewrite <- (bu_blocks s fs B). split_and!.
  - change ROOTINO with 1. krun (rinode_ok s 1 I ltac:(done)). rewrite K4. krun E1. rewrite bind_gets, F1. unfold balloc, assert.
    rewrite (proj2 (Z.ltb_lt _ _)) by (change FSSIZE with 2000 in *; change BPB with 8192; lia). by rewrite bind_ret.
  - done.
  - by rewrite F2.
  - intros b Hb. rewrite V2, upd_view_ne by lia. apply V1. lia.
  - by rewrite V2, upd_view_eq.
  - by rewrite HO.
  - intros n Hn Hne. by rewrite HO, O1.
Qed.

Lemma length_root_fits files : fits files -> rounded (Z.of_nat (length (root_bytes files))) <= MAXFILE * BSIZE.
Proof.
  intros F. pose proof (ft_inodes files F) as Hi. change NINODES with 200 in Hi. rewrite length_root_bytes. unfold rounded.
  change MAXFILE with 268. change BSIZE with 1024. dlia.
Qed.

(** The image [s'] after the program, against [s] before the last steps. *)
Record finished files s s' : Prop := {
  fi_built : built s (expect files);
  fi_image : image_ok s';
  fi_view : forall b, b < 32 \/ 46 <= b -> view s' b = view s b;
  fi_bitmap : view s' 45 = bitmap (nmeta + total (expect files));
  fi_root : inode_of s' 1 = set_d_size (rounded (Z.of_nat (length (root_bytes files)))) (inode_of s 1);
  fi_inode : forall n, 0 <= n < NINODES -> n <> 1 -> inode_of s' n = inode_of s n
}.

Lemma main_runs files : fits files -> exists s s', main files start = Ok tt s' /\ finished files s s'.
Proof.
  intros F. destruct start_built as (s1 & E1 & B1). apply bind_Ok_inv in E1 as ([] & s0 & E0 & E1).
  destruct (root_built s1 B1) as (s2 & E2 & B2).
  apply bind_Ok_inv in E2 as (r & s3 & E3 & E2). apply bind_Ok_inv in E2 as ([] & s4 & E4 & E2).
  apply bind_Ok_inv in E2 as ([] & s5 & E5 & E2).
  assert (r = ROOTINO) as ->.
  { by destruct (Z.eqb_spec r ROOTINO). }
  destruct (add_files_ok files s2 [] B2) as (s6 & E6 & B6); [apply F|apply F|apply F|]. cbn [app] in B6.
  destruct (finish_ok s6 (expect files) (root_bytes files) B6) as (s7 & E7 & I7 & F7 & V7 & M7 & R7 & O7);
    [done|by apply length_root_fits|].
  exists s6, s7. split; [|by split]. unfold main. fold super. krun E0. krun E1. krun E3. krun E4. krun E5. krun E2.
  change ROOTINO with 1 in *. krun E6. exact E7.
Qed.

(** ** Entries *)

Record entry_fits (e : Z * list byte) : Prop := {
  ef_inum : 0 < e.1 < 2 ^ 16;
  ef_length : (length e.2 <= DIRSIZ)%nat;
  ef_nul : Byte.x00 ∉ e.2
}.

Lemma inum_dirent_for e : entry_fits e -> dirent_inum (dirent_for e.1 e.2) = e.1.
Proof.
  intros [H _ _]. unfold dirent_inum, dirent_for, dirent_of, get16, bytes_at. rewrite drop_0.
  rewrite take_app_length' by (by rewrite length_le_split). rewrite le_combine_split. apply Z.mod_small. split; [lia|exact (proj2 H)].
Qed.

Lemma name_dirent_for e : entry_fits e -> until_nul (dirent_name (dirent_for e.1 e.2)) = e.2.
Proof.
  intros [_ H Hz]. unfold dirent_name, dirent_for, dirent_of. rewrite drop_app_length' by (by rewrite length_le_split).
  unfold nul_pad. rewrite take_ge by done. destruct (DIRSIZ - length e.2)%nat; simpl.
  - rewrite app_nil_r. by apply until_nul_idemp.
  - by apply until_nul_app_nul.
Qed.

Lemma find_entries es k n e :
  Forall entry_fits es -> NoDup (map snd es) -> (length e <= DIRSIZ)%nat ->
  dirent_inum <$> List.find (names e) (map (fun e => dirent_for e.1 e.2) es ++ replicate k (replicate 16 Byte.x00)) = Some n <->
  (n, e) ∈ es.
Proof.
  intros Hf Hn He. induction Hf as [|x es Hx Hf IH]; cbn [map app].
  - rewrite elem_of_nil. split; [|done]. induction k as [|k IH]; [done|]. exact IH.
  - cbn [List.find]. unfold names at 1. rewrite inum_dirent_for, name_dirent_for, (take_ge e) by done.
    destruct (Z.eqb_spec x.1 0) as [H0|_]; [destruct (ef_inum x Hx); lia|]. cbn [negb andb].
    apply NoDup_cons in Hn as [Hnot Hn]. rewrite elem_of_cons. destruct (bytes_eqb_spec x.2 e) as [<-|Hne].
    + cbn [fmap option_fmap option_map]. rewrite inum_dirent_for by done. split.
      * intros [= <-]. left. by destruct x.
      * intros [E|H]; [by rewrite <- E|]. destruct Hnot. by apply (list_elem_of_fmap_2 snd) in H.
    + rewrite IH by done. split; [by right|]. intros [E|H]; [|done]. by rewrite <- E in Hne.
Qed.

Lemma short_in x (f : input) : x ∈ short f -> x ∈ f.1.
Proof.
  assert (Hu : forall a : list byte, x ∈ strip_user a -> x ∈ a).
  { intros a. unfold strip_user. destruct (bytes_eqb _ _); [|done]. intros H. rewrite <- (take_drop 5 a). by apply elem_of_app; right. }
  intros H. apply Hu. revert H. unfold short, strip_underscore. destruct (strip_user f.1) as [|b a]; [done|].
  destruct (Byte.eqb b Byte.x5f); [|done]. by right.
Qed.

(** ** The file system on the image *)

(** [V] is a file system with the files [files]. *)
Record image_for V (files : list input) : Prop := {
  mf_super : superblock_of (V 1) = sb;
  mf_layout : layout (sb_logstart sb) (sb_nlog sb) sb;
  mf_log : hdr_ok (V (sb_logstart sb)) [];
  mf_used : forall b, 0 <= b < FSSIZE -> used sb V b = (b <? nmeta + total (expect files));
  mf_linked : forall n, linked sb V n <-> 1 <= n <= 1 + Z.of_nat (length files);
  mf_tree : tree_ok sb ROOTDEV V;
  mf_root : is_dir sb V ROOTINO = true;
  mf_names : forall n e, (length e <= DIRSIZ)%nat -> dir_lookup sb ROOTDEV V ROOTINO e = Some n <-> (n, e) ∈ entries files;
  mf_files : forall i f, files !! i = Some f -> let n := 2 + Z.of_nat i in
    d_type (disk_inode sb V n) = T_FILE /\ disk_file sb V n = bytes_in f /\
    file_ok sb ROOTDEV V (on_disk sb ROOTDEV V n) /\ whole V (on_disk sb ROOTDEV V n);
  mf_apart : forall n n' a, linked sb V n -> linked sb V n' ->
    claims V (disk_inode sb V n) a -> claims V (disk_inode sb V n') a -> n = n'
}.

Section Image.
Context (files : list input) (s s' : mkfs).
Hypothesis F : fits files.
Hypothesis R : finished files s s'.
Local Abbreviation V := (view s').
Local Abbreviation fb := (nmeta + total (expect files)).

Lemma image_tree : tree V fb (2 + Z.of_nat (length files)) (inode_of s') (contents (expect files)).
Proof.
  destruct R as [B I HV HB HR HO]. pose proof (bu_tree _ _ B) as T. rewrite (bu_blocks _ _ B), (bu_next _ _ B), length_expect in T.
  replace (1 + Z.of_nat (S (length files))) with (2 + Z.of_nat (length files)) in T by lia. pose proof (ft_inodes _ F).
  eapply tree_ext; [| |exact T].
  - intros b Hb. apply HV. change nmeta with 46 in Hb. lia.
  - intros n Hn. split; [|done]. destruct (decide (n = 1)) as [->|]; [by rewrite HR|]. by rewrite HO by lia.
Qed.

(** File [i] of the image, the root directory first. *)
Lemma image_spec n : 1 <= n < 2 + Z.of_nat (length files) -> exists f, expect files !! Z.to_nat (n - 1) = Some f /\ contents (expect files) n = f.2.
Proof.
  intros Hn. destruct (lookup_lt_is_Some_2 (expect files) (Z.to_nat (n - 1))) as [f Hf]; [rewrite length_expect; lia|].
  exists f. split; [done|]. unfold contents. by rewrite (list_lookup_total_correct _ _ _ Hf).
Qed.

Lemma image_kind n f :
  1 <= n < 2 + Z.of_nat (length files) -> expect files !! Z.to_nat (n - 1) = Some f ->
  d_type (inode_of s' n) = f.1 /\ d_nlink (inode_of s' n) = 1 /\
  d_size (inode_of s' n) = (if decide (n = 1) then rounded (Z.of_nat (length f.2)) else Z.of_nat (length f.2)).
Proof.
  intros Hn Hf. destruct R as [B I HV HB HR HO]. pose proof (ft_inodes _ F).
  destruct (bu_inode _ _ B _ _ Hf) as [[K1 _] K2 K3 K4]. replace (1 + Z.of_nat (Z.to_nat (n - 1))) with n in * by lia. case_decide as E.
  - subst n. rewrite HR. injection Hf as <-. done.
  - by rewrite HO by lia.
Qed.

Lemma image_used b : 0 <= b < FSSIZE -> used sb V b = (b <? fb).
Proof.
  intros Hb. destruct R as [B I HV HB HR HO]. unfold used.
  assert (E : BBLOCK b sb = 45).
  { unfold BBLOCK. change (sb_bmapstart sb) with 45. change BPB with 8192. change FSSIZE with 2000 in Hb. rewrite Z.div_small by lia. done. }
  pose proof (im_free _ (bu_image _ _ B)) as Hf. rewrite (bu_blocks _ _ B) in Hf. change FSSIZE with 2000 in *.
  rewrite E, HB, Z.mod_small by (change BPB with 8192; lia).
  destruct (bitmap_bits (Z.to_nat fb)) as [_ Hbits]; [change BPB with 8192; lia|].
  rewrite Z2Nat.id in Hbits by (change nmeta with 46 in *; lia). apply Hbits. change BPB with 8192. lia.
Qed.

Lemma image_file_ok n : 1 <= n < 2 + Z.of_nat (length files) -> file_ok sb ROOTDEV V (on_disk sb ROOTDEV V n).
Proof.
  intros Hn. pose proof (tr_laid _ _ _ _ _ image_tree n Hn) as L. pose proof (la_placed _ _ _ _ L) as P.
  assert (Hd : forall a, nmeta <= a < fb -> data_block sb V a).
  { intros a Ha. pose proof (ft_blocks _ F) as Hfb. split.
    - change (datastart sb) with nmeta. change (sb_size sb) with FSSIZE. lia.
    - rewrite image_used by (change nmeta with 46 in *; lia). apply Z.ltb_lt. lia. }
  split; [apply L|done|]. split.
  - intros H. by apply Hd, (pl_ind _ _ _ P).
  - intros bn Hbn H. by apply Hd, (pl_data _ _ _ P).
  - apply (pl_inj _ _ _ P).
  - apply (pl_apart _ _ _ P).
Qed.

Lemma image_entry_ok e : e ∈ entries files -> entry_fits e /\ 1 <= e.1 < 2 + Z.of_nat (length files).
Proof.
  pose proof (ft_inodes _ F) as Hi. change NINODES with 200 in Hi.
  intros [->|[->|(i & f & -> & Hf)%elem_of_lookup_imap]%elem_of_cons]%elem_of_cons.
  - split; [|simpl; lia]. split; [simpl; lia|vm_compute; lia|]. intros H%list_elem_of_In. vm_compute in H. intuition discriminate.
  - split; [|simpl; lia]. split; [simpl; lia|vm_compute; lia|]. intros H%list_elem_of_In. vm_compute in H. intuition discriminate.
  - pose proof (lookup_lt_Some _ _ _ Hf). split; [|simpl; lia].
    pose proof (proj1 (Forall_lookup _ _) (ft_files _ F) i f Hf) as [K1 K2 K3 K4 K5].
    split; [simpl; lia|done|]. intros H0. apply K4. by apply short_in.
Qed.

Lemma image_linked n : linked sb V n <-> 1 <= n <= 1 + Z.of_nat (length files).
Proof.
  pose proof (ft_inodes _ F). split.
  - intros [H1 H2 _]. change (sb_ninodes sb) with NINODES in H1. destruct (decide (1 <= n <= 1 + Z.of_nat (length files))) as [|Hn]; [done|].
    destruct H2. change (d_type (inode_of s' n) = 0). rewrite (fi_inode _ _ _ R) by lia.
    apply (bu_unused _ _ (fi_built _ _ _ R)); [done|]. rewrite (bu_next _ _ (fi_built _ _ _ R)), length_expect. lia.
  - intros Hn. destruct (image_spec n ltac:(lia)) as (f & Hf & _). destruct (image_kind n f ltac:(lia) Hf) as (K1 & K2 & _).
    split; [change (sb_ninodes sb) with NINODES; lia| |].
    + change (d_type (inode_of s' n) <> 0). rewrite K1. unfold expect in Hf.
      apply list_elem_of_lookup_2, elem_of_cons in Hf as [->|(g & -> & _)%list_elem_of_fmap]; done.
    + change (d_nlink (inode_of s' n) <> 0). by rewrite K2.
Qed.

Lemma image_is_dir n : 1 <= n <= 1 + Z.of_nat (length files) -> is_dir sb V n = (n =? 1).
Proof.
  intros Hn. destruct (image_spec n ltac:(lia)) as (f & Hf & _). destruct (image_kind n f ltac:(lia) Hf) as (K1 & _ & _).
  change (is_dir sb V n) with (d_type (inode_of s' n) =? T_DIR). rewrite K1. destruct (Z.eqb_spec n 1) as [->|Hne].
  - by injection Hf as <-.
  - replace (Z.to_nat (n - 1)) with (S (Z.to_nat (n - 2))) in Hf by lia. cbn [expect lookup list_lookup] in Hf.
    apply list_elem_of_lookup_2 in Hf as (g & -> & _)%list_elem_of_fmap. done.
Qed.

(** The last block of the root directory is not full. *)
Hypothesis Hpart : Z.of_nat (S (S (length files))) mod 64 <> 0.

Lemma root_part : Z.of_nat (length (root_bytes files)) mod BSIZE <> 0.
Proof. rewrite length_root_bytes. change BSIZE with 1024. dlia. Qed.

Lemma image_whole n : 1 <= n < 2 + Z.of_nat (length files) -> whole V (on_disk sb ROOTDEV V n).
Proof.
  intros Hn. destruct (image_spec n Hn) as (f & Hf & Ef). destruct (image_kind n f Hn Hf) as (_ & _ & Es).
  pose proof (tr_laid _ _ _ _ _ image_tree n Hn) as L. rewrite Ef in L. pose proof (la_size _ _ _ _ L) as Hs.
  pose proof (length_root_fits _ F) as Hr. pose proof root_part as Hp.
  assert (Hc : forall bn, 0 <= bn -> bn * BSIZE < d_size (inode_of s' n) -> bn * BSIZE < Z.of_nat (length f.2)).
  { intros bn Hbn. rewrite Es. case_decide as E; [|done]. subst n. injection Hf as <-. cbn [snd]. unfold rounded.
    change BSIZE with 1024 in *. dlia. }
  split.
  - change (i_size _) with (d_size (inode_of s' n)). rewrite Es. case_decide as E; [|done]. subst n. injection Hf as <-.
    cbn [snd] in *. unfold rounded in *. change BSIZE with 1024 in *. dlia.
  - intros bn Hbn H. specialize (Hc bn Hbn H). apply (la_map _ _ _ _ L); [|done]. change MAXFILE with 268 in *. change BSIZE with 1024 in *. lia.
Qed.

(** The entries of the root directory: those of the files, and unused ones up to
    the end of the block. *)
Lemma image_entries : exists k, dir_entries sb ROOTDEV V ROOTINO =
  map (fun e => dirent_for e.1 e.2) (entries files) ++ replicate k (replicate 16 Byte.x00).
Proof.
  assert (Hn : 1 <= 1 < 2 + Z.of_nat (length files)) by lia. set (ip := on_disk sb ROOTDEV V 1).
  destruct (image_kind 1 _ Hn eq_refl) as (_ & _ & Es). cbn [snd] in Es. rewrite decide_True in Es by done.
  set (off := Z.of_nat (length (root_bytes files))) in *. pose proof root_part as Hp. fold off in Hp.
  assert (Eo : off = 16 * (2 + Z.of_nat (length files))) by (unfold off; rewrite length_root_bytes; lia).
  set (k := Z.to_nat (rounded off / 16 - (2 + Z.of_nat (length files)))).
  assert (Ek : rounded off = off + 16 * Z.of_nat k) by (unfold k, rounded in *; change BSIZE with 1024 in *; dlia).
  exists k. set (l := _ ++ _).
  assert (Hl : Forall (fun x => length x = 16%nat) l).
  { apply Forall_app. split; apply Forall_forall.
    - intros de (e & -> & _)%list_elem_of_fmap. apply length_dirent_for.
    - by intros de [-> _]%elem_of_replicate. }
  assert (Ec : file_bytes V ip 0 (Z.to_nat (rounded off)) = concat l).
  { unfold l. rewrite concat_app. fold (root_bytes files). replace (Z.to_nat (rounded off)) with (length (root_bytes files) + 16 * k)%nat by (unfold off in *; lia).
    rewrite file_bytes_app. f_equal; [exact (tr_bytes _ _ _ _ _ image_tree 1 Hn)|].
    rewrite concat_replicate. apply list_eq. intros j. destruct (decide (j < 16 * k)%nat) as [Hj|Hj].
    - rewrite file_bytes_lookup, lookup_replicate_2 by lia. f_equal. fold off. rewrite Z.add_0_l.
      apply (tr_tail _ _ _ _ _ image_tree 1 (off + Z.of_nat j) Hn).
      + change (contents (expect files) 1) with (root_bytes files). fold off. pose proof (length_root_fits _ F) as H. fold off in H. lia.
      + apply (wh_mapped _ _ (image_whole 1 Hn)); change BSIZE with 1024 in *; [dlia|].
        change (i_size _) with (d_size (inode_of s' 1)). rewrite Es. dlia.
    - rewrite !lookup_ge_None_2; [done|rewrite length_replicate; lia|rewrite length_file_bytes; lia]. }
  assert (Ed : dir_count sb V ROOTINO = length l).
  { unfold dir_count. change (disk_inode sb V ROOTINO) with (inode_of s' 1). rewrite Es. unfold l, sizeof_dirent.
    rewrite length_app, length_map, length_entries, length_replicate. rewrite Ek, Eo. dlia. }
  unfold dir_entries. rewrite Ed. apply list_eq. intros m. rewrite list_lookup_fmap. destruct (decide (m < length l)%nat) as [Hm|Hm].
  - rewrite lookup_seq_lt by done. destruct (lookup_lt_is_Some_2 l m Hm) as [x Hx]. rewrite Hx. cbn [fmap option_fmap option_map Nat.add].
    f_equal. unfold dir_entry. fold ip. change (Z.to_nat sizeof_dirent) with 16%nat.
    replace (sizeof_dirent * Z.of_nat m) with (0 + Z.of_nat (16 * m)) by (unfold sizeof_dirent; lia).
    rewrite <- (bytes_at_file V ip 0 (Z.to_nat (rounded off))).
    + rewrite Ec. by apply concat_at.
    + rewrite <- (length_file_bytes V ip 0 (Z.to_nat (rounded off))), Ec, length_concat_16 by done. lia.
  - by rewrite !lookup_ge_None_2 by (rewrite ?length_seq; lia).
Qed.

Lemma image_tree_ok : tree_ok sb ROOTDEV V.
Proof.
  intros n Hn%image_linked Hd. rewrite image_is_dir in Hd by done. apply Z.eqb_eq in Hd as ->.
  split; [apply image_file_ok; lia|apply image_whole; lia| |].
  - change (d_size (inode_of s' 1) mod 16 = 0).
    destruct (image_kind 1 _ ltac:(lia) eq_refl) as (_ & _ & ->). rewrite decide_True by done. unfold rounded. change BSIZE with 1024. dlia.
  - destruct image_entries as [k E]. change 1 with ROOTINO. rewrite E.
    intros de [(e & -> & He)%list_elem_of_fmap|[-> _]%elem_of_replicate]%elem_of_app Hz; [|done].
    destruct (image_entry_ok e He) as [Hf Hr]. rewrite inum_dirent_for by done. apply image_linked. lia.
Qed.

End Image.

(** C8: [mkfs] on files that fit (they can be opened, their names have at most
    [DIRSIZ] bytes and are different, there are inodes and blocks enough, and
    the last block of the root directory is not full) ends without an error, and
    leaves a file system: the superblock of the layout, an empty log, a bitmap
    that marks exactly the blocks in use, a tree in which the root directory has
    the entry of every file and no other, each file with the bytes that were
    read, and no block in two files. *)
Theorem mkfs_correct files :
  fits files -> NoDup (map snd (entries files)) -> Z.of_nat (S (S (length files))) mod 64 <> 0 ->
  exists s, main files start = Ok tt s /\ mk_len s = FSSIZE /\ image_for (view s) files.
Proof.
  intros F Hnd Hp. destruct (main_runs files F) as (s & s' & E & R). exists s'. split; [done|].
  split; [apply (im_len _ (fi_image _ _ _ R))|]. assert (B := fi_built _ _ _ R).
  assert (HL : forall n, linked sb (view s') n -> 1 <= n < 2 + Z.of_nat (length files)) by (intros n Hn%(image_linked files s s' F R); lia).
  split.
  - rewrite (fi_view _ _ _ R), (bu_super _ _ B) by lia. vm_compute. reflexivity.
  - split; vm_compute; intuition discriminate.
  - change (sb_logstart sb) with 2. rewrite (fi_view _ _ _ R), (bu_log _ _ B) by lia. split; [vm_compute; reflexivity|done].
  - by apply (image_used files s).
  - by apply (image_linked files s).
  - by apply (image_tree_ok files s).
  - by rewrite (image_is_dir files s s' F R) by (change ROOTINO with 1; lia).
  - intros n e He. destruct (image_entries files s s' F R Hp) as [k Ek]. unfold dir_lookup. rewrite Ek. apply find_entries; [|exact Hnd|exact He].
    apply Forall_forall. intros x Hx. by apply (image_entry_ok files F).
  - intros i f Hf n. pose proof (lookup_lt_Some _ _ _ Hf). assert (Hn : 1 <= n < 2 + Z.of_nat (length files)) by (unfold n; lia).
    assert (Hx : expect files !! Z.to_nat (n - 1) = Some (T_FILE, bytes_in f)).
    { replace (Z.to_nat (n - 1)) with (S i) by (unfold n; lia). change (map (fun f => (T_FILE, bytes_in f)) files !! i = Some (T_FILE, bytes_in f)). by rewrite list_lookup_fmap, Hf. }
    destruct (image_kind files s s' F R n _ Hn Hx) as (K1 & _ & K3). rewrite decide_False in K3 by (unfold n; lia).
    split; [done|]. split; [|split; [by apply (image_file_ok files s)|by apply (image_whole files s)]].
    pose proof (tr_bytes _ _ _ _ _ (image_tree files s s' F R) n Hn) as Hb. unfold contents in Hb.
    rewrite (list_lookup_total_correct _ _ _ Hx) in Hb. unfold disk_file. change (disk_inode sb (view s') n) with (inode_of s' n).
    rewrite K3, Nat2Z.id. exact Hb.
  - intros n n' a Hn Hn'. apply (tr_apart _ _ _ _ _ (image_tree files s s' F R)); auto.
Qed.

(** Two files, one longer than a block, one with an underscore in its name. *)
Definition demo_files : list input :=
  [(bytes_of "README", Some [replicate 1024 Byte.x61; replicate 10 Byte.x62]); (bytes_of "user/_cat", Some [bytes_of "cat"])].

Lemma mkfs_correct_witness :
  exists s, main demo_files start = Ok tt s /\ mk_len s = FSSIZE /\ image_for (view s) demo_files.
Proof.
  apply mkfs_correct.
  - split.
    + repeat constructor; try (by eexists); try (vm_compute; reflexivity); try (vm_compute; lia); try (vm_compute; discriminate).
      * intros H%list_elem_of_In. vm_compute in H. intuition discriminate.
      * intros H%list_elem_of_In. vm_compute in H. intuition discriminate.
    + done.
    + vm_compute. discriminate.
  - vm_compute. repeat constructor; intros H%list_elem_of_In; simpl in H; intuition discriminate.
  - done.
Defined.

(** C33: When the entries of the root directory fill its blocks, the size that
    [mkfs] gives it covers one more block, which it does not have. *)
Theorem mkfs_directory_gap files :
  fits files -> Z.of_nat (S (S (length files))) mod 64 = 0 ->
  exists s, main files start = Ok tt s /\ let root := on_disk sb ROOTDEV (view s) ROOTINO in
    let bn := Z.of_nat (length (root_bytes files)) / BSIZE in
    i_size root = (bn + 1) * BSIZE /\ block_addr (view s) root bn = 0.
Proof.
  intros F Hp. destruct (main_runs files F) as (s & s' & E & R). exists s'. split; [done|].
  assert (Hn : 1 <= 1 < 2 + Z.of_nat (length files)) by lia.
  destruct (image_kind files s s' F R 1 _ Hn eq_refl) as (_ & _ & Es). rewrite decide_True in Es by done. split; [exact Es|].
  pose proof (tr_laid _ _ _ _ _ (image_tree files s s' F R) 1 Hn) as L. change (contents (expect files) 1) with (root_bytes files) in L.
  pose proof (length_root_fits files F) as Hl. unfold rounded in Hl. rewrite length_root_bytes in *.
  pose proof (la_map _ _ _ _ L (Z.of_nat (16 * S (S (length files))) / BSIZE)) as Hm.
  apply dec_stable. intros H. change BSIZE with 1024 in *. change MAXFILE with 268 in *.
  assert (Eq : Z.of_nat (16 * S (S (length files))) = 16 * Z.of_nat (S (S (length files)))) by lia. rewrite Eq in *.
  set (z := Z.of_nat (S (S (length files)))) in *. assert (0 < z) by lia. clear - Hm Hl Hp H H0. apply Hm in H; dlia.
Qed.

(** 62 empty files. *)
Definition gap_files : list input :=
  map (fun i => ([byte.of_Z (Z.of_nat i + 48); Byte.x61], Some [])) (seq 0 62).

Lemma mkfs_directory_gap_witness :
  exists s, main gap_files start = Ok tt s /\ let root := on_disk sb ROOTDEV (view s) ROOTINO in
    i_size root = 2048 /\ block_addr (view s) root 1 = 0.
Proof.
  refine (mkfs_directory_gap gap_files _ eq_refl). split.
  - apply Forall_forall. intros f (i & -> & Hi%elem_of_seq)%list_elem_of_fmap.
    do 62 (destruct i as [|i]; [split; [by eexists|vm_compute; reflexivity|vm_compute; lia|
      intros H%list_elem_of_In; vm_compute in H; intuition discriminate|vm_compute; discriminate]|]). lia.
  - done.
  - vm_compute. discriminate.
Defined.

End MkfsImage.
