(* ===== verification/User.v ===== *)
(** * User programs: system calls and [user/ulib.c]

    A user program is a computation on the memory of its process.  A system call
    hands the hart over, with the request; the process is resumed with the answer:
    the result, and the bytes the kernel copies out.  [drive] runs a process
    against a kernel that answers its calls.  The loops of the library stop at a
    nul, a count or the end of input; [bound] limits the rounds of those that
    stop at a nul. *)

From S2P Require Import Prelude Riscv Memory CString.

(** ** System calls *)

(** The calls of user.h; [fork] and [wait] as all others return to one process. *)
Inductive syscall :=
  | Fork
  | Exit (status : Z)
  | Wait
  | Pipe
  | Write (fd : Z) (bs : list byte)
  | Read (fd n : Z)
  | Close (fd : Z)
  | Kill (pid : Z)
  | Exec (path : list byte) (argv : list (list byte))
  | Open (path : list byte) (mode : Z)
  | Mknod (path : list byte) (major minor : Z)
  | Unlink (path : list byte)
  | Fstat (fd : Z)
  | Link (old new : list byte)
  | Mkdir (path : list byte)
  | Chdir (path : list byte)
  | Dup (fd : Z)
  | Getpid
  | Sbrk (n : Z)
  | Sleep (n : Z)
  | Uptime.

(** The result, and what is copied out: the bytes read, the two descriptors of a
    pipe, the status of a child, a [struct stat]. *)
Definition answer : Type := Z * list byte.

Record uproc := Uproc { u_mem : mem; u_call : syscall; u_answer : answer }.

Definition set_u_mem (m : mem) (s : uproc) : uproc := Uproc m (u_call s) (u_answer s).

Definition set_u_call (c : syscall) (s : uproc) : uproc := Uproc (u_mem s) c (u_answer s).

Definition set_u_answer (r : answer) (s : uproc) : uproc := Uproc (u_mem s) (u_call s) r.

Definition U (A : Type) : Type := M uproc A.

Definition ecall (c : syscall) : U answer := fun s => Switch (set_u_call c s) (fun t => Ok (u_answer t) t).

Definition ldb (p : Z) : U byte := gets (fun s => ld8 (u_mem s) p).

Definition stb (p : Z) (b : byte) : U unit := modify (fun s => set_u_mem (st8 (u_mem s) p b) s).

Definition stbs (p : Z) (bs : list byte) : U unit := modify (fun s => set_u_mem (st_bytes (u_mem s) p bs) s).

Definition ldbs (p : Z) (n : nat) : U (list byte) := gets (fun s => ld_bytes (u_mem s) p n).

(** A call that has only a result. *)
Definition call (c : syscall) : U Z := let! r := ecall c in ret r.1.

Definition read (fd buf n : Z) : U Z :=
  let! r := ecall (Read fd n) in
  stbs buf r.2 ;;
  ret r.1.

Definition write (fd p n : Z) : U Z :=
  let! bs := ldbs p (Z.to_nat n) in
  call (Write fd bs).

(** [exit] does not return. *)
Definition exit {A} (status : Z) : U A := fun s => Switch (set_u_call (Exit status) s) (fun t => Spin t).

(** ** Running a process *)

Inductive ending (W A : Type) :=
  | Returned (a : A) (s : uproc) (w : W)
  | Exited (status : Z) (s : uproc) (w : W)
  | Crashed (msg : string) (s : uproc) (w : W)
  | Stuck.

Arguments Returned {W A} a s w.
Arguments Exited {W A} status s w.
Arguments Crashed {W A} msg s w.
Arguments Stuck {W A}.

(** A kernel that answers the calls of one process. *)
Class Unix (W : Type) := syscalls : W -> syscall -> answer * W.

Section Drive.
Context {W : Type} `{!Unix W}.

Fixpoint drive {A} (o : outcome uproc A) (w : W) : ending W A :=
  match o with
  | Ok a s => Returned a s w
  | Panic msg s => Crashed msg s w
  | Spin _ | Fuel => Stuck
  | Switch s k =>
      match u_call s with
      | Exit status => Exited status s w
      | c => let '(r, w') := syscalls w c in drive (k (set_u_answer r s)) w'
      end
  end.

Definition ebind {A B} (e : ending W A) (f : A -> uproc -> W -> ending W B) : ending W B :=
  match e with
  | Returned a s w => f a s w
  | Exited n s w => Exited n s w
  | Crashed msg s w => Crashed msg s w
  | Stuck => Stuck
  end.

Lemma drive_obind {A B} (o : outcome uproc A) (f : A -> U B) w :
  drive (obind o f) w = ebind (drive o w) (fun a s w => drive (f a s) w).
Proof.
  revert w. induction o as [a s|msg s|s|s k IH|]; intros w; try done. simpl.
  destruct (u_call s); try done; destruct (syscalls w _); apply IH.
Qed.

(** [c] returns. *)
Lemma drive_bind {A B} (c : U A) (f : A -> U B) s w a s' w' :
  drive (c s) w = Returned a s' w' -> drive (bind c f s) w = drive (f a s') w'.
Proof. intros H. unfold bind. by rewrite drive_obind, H. Qed.

Lemma drive_exits {A B} (c : U A) (f : A -> U B) s w n s' w' :
  drive (c s) w = Exited n s' w' -> drive (bind c f s) w = Exited n s' w'.
Proof. intros H. unfold bind. by rewrite drive_obind, H. Qed.

(** [c] computes on memory alone. *)
Lemma drive_ok {A B} (c : U A) (f : A -> U B) s w a s' :
  c s = Ok a s' -> drive (bind c f s) w = drive (f a s') w.
Proof. intros H. by rewrite (bind_Ok _ _ _ _ _ H). Qed.

Lemma drive_assoc {A B C} (c : U A) (f : A -> U B) (g : B -> U C) s w :
  drive (bind (bind c f) g s) w = drive (bind c (fun a => bind (f a) g) s) w.
Proof. unfold bind. rewrite !drive_obind. destruct (drive (c s) w) as [a s' w'| | |]; [|done..]. cbn [ebind]. by rewrite drive_obind. Qed.

Lemma drive_ecall (c : syscall) s w :
  (forall n, c <> Exit n) ->
  drive (ecall c s) w = let '(r, w') := syscalls w c in Returned r (set_u_answer r (set_u_call c s)) w'.
Proof. intros H. simpl. destruct c; try done. by destruct (H status). Qed.

End Drive.

(** Run the first command of a sequence with an equation that says what it does. *)
Ltac urun H :=
  lazymatch type of H with
  | drive _ _ = Returned _ _ _ => rewrite (drive_bind _ _ _ _ _ _ _ H)
  | drive _ _ = Exited _ _ _ => rewrite (drive_exits _ _ _ _ _ _ _ H)
  | _ = Ok _ _ => rewrite (drive_ok _ _ _ _ _ _ H)
  end.

(** ** Streams *)

(** What a program relies on when it reads one descriptor to its end and writes
    another: [read] returns some of what is left, and nothing only at the end;
    [write] appends all it is given. *)
Class Stdio (W : Type) `{!Unix W} (fin fout : Z) (inp out : W -> list byte) : Prop := {
  io_read : forall w n, 0 < n -> exists bs w', syscalls w (Read fin n) = ((Z.of_nat (length bs), bs), w') /\
    inp w = bs ++ inp w' /\ Z.of_nat (length bs) <= n /\ (bs = [] -> inp w = []) /\ out w' = out w;
  io_write : forall w bs, exists w', syscalls w (Write fout bs) = ((Z.of_nat (length bs), []), w') /\
    out w' = out w ++ bs /\ inp w' = inp w
}.

(** ** Programs that only write *)

(** The outcome returns [a] with the memory [m] after it wrote [o] to [fd] and made
    no other call, whatever [write] returned. *)
Inductive emitted {A} (fd : Z) : outcome uproc A -> A -> mem -> list byte -> Prop :=
  | Emitted_ok a s : emitted fd (Ok a s) a (u_mem s) []
  | Emitted_write s k bs a m o :
      u_call s = Write fd bs -> (forall r, emitted fd (k (set_u_answer r s)) a m o) -> emitted fd (Switch s k) a m (bs ++ o).

(** [c] returns [a], writes [o] and leaves memory alone. *)
Definition uemits {A} (fd : Z) (c : U A) (a : A) (o : list byte) : Prop := forall s, emitted fd (c s) a (u_mem s) o.

Lemma emitted_bind {A B} fd (x : outcome uproc A) (f : A -> U B) a b m o1 o2 :
  emitted fd x a m o1 -> (forall s, u_mem s = m -> emitted fd (f a s) b m o2) -> emitted fd (obind x f) b m (o1 ++ o2).
Proof.
  intros H Hf. induction H as [a s|s k bs a m o Hc H IH]; simpl; [by apply Hf|].
  rewrite <- app_assoc. apply Emitted_write; [done|]. intros r. by apply IH.
Qed.

Lemma uemits_ret {A} fd (a : A) : uemits fd (ret a) a [].
Proof. intros s. apply Emitted_ok. Qed.

Lemma uemits_bind {A B} fd (c : U A) (f : A -> U B) a b o1 o2 :
  uemits fd c a o1 -> uemits fd (f a) b o2 -> uemits fd (bind c f) b (o1 ++ o2).
Proof. intros H1 H2 s. eapply emitted_bind; [apply H1|]. intros s' <-. apply H2. Qed.

Lemma uemits_then {A B} fd (c : U A) (f : A -> U B) a b o :
  uemits fd c a o -> uemits fd (f a) b [] -> uemits fd (bind c f) b o.
Proof. intros H1 H2. rewrite <- (app_nil_r o). by eapply uemits_bind. Qed.

Lemma uemits_pure {A B} fd (c : U A) a (f : A -> U B) b o :
  (forall s, c s = Ok a s) -> uemits fd (f a) b o -> uemits fd (bind c f) b o.
Proof. intros Hc H s. rewrite (bind_Ok _ _ _ _ _ (Hc s)). apply H. Qed.

Lemma uemits_write fd (bs : list byte) : uemits fd (call (Write fd bs) ;; ret tt) tt bs.
Proof.
  intros s. rewrite <- (app_nil_r bs) at 2. unfold call, bind, ecall. simpl. apply Emitted_write; [done|]. intros r. exact (Emitted_ok fd tt (set_u_answer r (set_u_call (Write fd bs) s))).
Qed.

Lemma uemits_forM {A} fd (l : list A) (f : A -> U unit) (o : A -> list byte) :
  (forall x, uemits fd (f x) tt (o x)) -> uemits fd (forM l f) tt (concat (map o l)).
Proof. intros H. induction l as [|x l IH]; simpl; [apply uemits_ret|]. by eapply uemits_bind. Qed.

(** In any environment such a program returns. *)
Lemma uemits_returns {W} `{!Unix W} {A} fd (c : U A) a o s (w : W) :
  uemits fd c a o -> exists s' w', drive (c s) w = Returned a s' w' /\ u_mem s' = u_mem s.
Proof.
  intros H. specialize (H s). revert w. induction H as [a t|t k bs a m o Hc H IH]; intros w; simpl; [by exists t, w|].
  rewrite Hc. destruct (syscalls w (Write fd bs)) as [r w']. apply IH.
Qed.

Section Emits.
Context {W : Type} `{!Unix W} {fin fout : Z} {inp out : W -> list byte} `{!Stdio W fin fout inp out}.

Lemma uemits_drive {A} (c : U A) a o s w :
  uemits fout c a o -> exists s' w', drive (c s) w = Returned a s' w' /\ u_mem s' = u_mem s /\ out w' = out w ++ o /\ inp w' = inp w.
Proof.
  intros H. specialize (H s). revert w. induction H as [a t|t k bs a m o Hc H IH]; intros w; simpl.
  - exists t, w. by rewrite app_nil_r.
  - rewrite Hc. destruct (io_write w bs) as (w1 & E & O & I). rewrite E.
    destruct (IH (Z.of_nat (length bs), []) w1) as (s' & w' & E' & M & O' & I'). exists s', w'. by rewrite O', O, I', I, app_assoc.
Qed.

Lemma drive_read (s : uproc) (w : W) (buf n : Z) : 0 < n ->
  exists bs s' w', drive (read fin buf n s) w = Returned (Z.of_nat (length bs)) s' w' /\
    u_mem s' = st_bytes (u_mem s) buf bs /\ inp w = bs ++ inp w' /\ Z.of_nat (length bs) <= n /\
    (bs = [] -> inp w = []) /\ out w' = out w.
Proof.
  intros Hn. destruct (io_read w n Hn) as (bs & w' & E & R). exists bs. eexists _, w'. split.
  - unfold read, bind. simpl. by rewrite E.
  - done.
Qed.

Lemma drive_write (s : uproc) (w : W) (p n : Z) : 0 <= n ->
  exists s' w', drive (write fout p n s) w = Returned n s' w' /\ u_mem s' = u_mem s /\
    out w' = out w ++ ld_bytes (u_mem s) p (Z.to_nat n) /\ inp w' = inp w.
Proof.
  intros Hn. destruct (io_write w (ld_bytes (u_mem s) p (Z.to_nat n))) as (w' & E & O & I).
  exists (set_u_answer (n, []) (set_u_call (Write fout (ld_bytes (u_mem s) p (Z.to_nat n))) s)), w'. split; [|done].
  unfold write, call, bind. simpl. rewrite E. simpl. by rewrite length_ld_bytes, Z2Nat.id.
Qed.

End Emits.

(** A stream of input that arrives in pieces of at most [pc_chunk] bytes. *)
Record pieces := Pieces { pc_in : list byte; pc_out : list byte; pc_chunk : nat }.

#[export] Instance pieces_unix : Unix pieces := fun w c =>
  match c with
  | Read 0 n =>
      let bs := take (Nat.min (Z.to_nat n) (S (pc_chunk w))) (pc_in w) in
      ((Z.of_nat (length bs), bs), Pieces (drop (length bs) (pc_in w)) (pc_out w) (pc_chunk w))
  | Write 1 bs => ((Z.of_nat (length bs), []), Pieces (pc_in w) (pc_out w ++ bs) (pc_chunk w))
  | _ => ((-1, []), w)
  end.

#[export] Instance pieces_stdio : Stdio pieces 0 1 pc_in pc_out.
Proof.
  split.
  - intros w n Hn. eexists _, _. split; [reflexivity|]. cbn [pc_in pc_out]. rewrite length_take.
    split; [|split; [lia|split; [|done]]].
    + set (k := Nat.min (Z.to_nat n) (S (pc_chunk w))). rewrite <- (take_drop k (pc_in w)) at 1. f_equal.
      destruct (Nat.min_spec k (length (pc_in w))) as [[H ->]|[H ->]]; [done|]. by rewrite !drop_ge by lia.
    + intros H. apply (f_equal length) in H. rewrite length_take in H. simpl in H. apply nil_length_inv. lia.
  - intros w bs. by eexists.
Qed.

(** ** ulib.c *)

Module Ulib.

Section Ulib.
Variable bound : nat.

(** The wrapper of [main]. *)
Definition start (main : U unit) : U unit := main ;; exit 0.

Definition strcpy (s t : Z) : U Z :=
  while bound (fun '(s, t) =>
    let! b := ldb t in
    stb s b ;;
    if Byte.eqb b Byte.x00 then ret (inr tt) else ret (inl (s + 1, t + 1))) (s, t) ;;
  ret s.

Definition strcmp (p q : Z) : U Z :=
  while bound (fun '(p, q) =>
    let! x := ldb p in
    let! y := ldb q in
    if negb (Byte.eqb x Byte.x00) && Byte.eqb x y then ret (inl (p + 1, q + 1))
    else ret (inr (byte.unsigned x - byte.unsigned y))) (p, q).

Definition strlen (s : Z) : U Z :=
  while bound (fun n =>
    let! b := ldb (s + n) in
    if Byte.eqb b Byte.x00 then ret (inr n) else ret (inl (n + 1))) 0.

(** The loop writes [n] bytes upwards, as that of the kernel. *)
Definition memset (dst c n : Z) : U Z :=
  modify (fun s => set_u_mem (memset_loop (u_mem s) dst (byte.of_Z c) (Z.to_nat n)) s) ;;
  ret dst.

Definition strchr (s : Z) (c : byte) : U Z :=
  while bound (fun s =>
    let! b := ldb s in
    if Byte.eqb b Byte.x00 then ret (inr 0)
    else if Byte.eqb b c then ret (inr s)
    else ret (inl (s + 1))) s.

(** One character of [gets]: the next [i], or the final one. *)
Definition gets_body (buf max i : Z) : U (Z + Z) :=
  if negb (i + 1 <? max) then ret (inr i) else
  let! r := ecall (Read 0 1) in
  if r.1 <? 1 then ret (inr i) else
  let c := nth 0 r.2 Byte.x00 in
  stb (buf + i) c ;;
  if Byte.eqb c Byte.x0a || Byte.eqb c Byte.x0d then ret (inr (i + 1)) else ret (inl (i + 1)).

Definition gets (buf max : Z) : U Z :=
  let! i := while (S (Z.to_nat max)) (gets_body buf max) 0 in
  stb (buf + i) Byte.x00 ;;
  ret buf.

(** The string at [p], which a system call takes. *)
Fixpoint string_at (fuel : nat) (m : mem) (p : Z) : option (list byte) :=
  match fuel with
  | O => None
  | S fuel =>
      if Byte.eqb (ld8 m p) Byte.x00 then Some []
      else match string_at fuel m (p + 1) with Some bs => Some (ld8 m p :: bs) | None => None end
  end.

Definition cstring (p : Z) : U (list byte) := fun s =>
  match string_at bound (u_mem s) p with Some bs => Ok bs s | None => Fuel end.

Definition open (path mode : Z) : U Z := let! bs := cstring path in call (Open bs mode).

(** [fstat], which fills [st] when it succeeds. *)
Definition fstat (fd st : Z) : U Z :=
  let! r := ecall (Fstat fd) in
  stbs st r.2 ;;
  ret r.1.

Definition O_RDONLY : Z := 0x000.

Definition O_WRONLY : Z := 0x001.

Definition O_RDWR : Z := 0x002.

Definition O_CREATE : Z := 0x200.

Definition O_TRUNC : Z := 0x400.

Definition stat (n st : Z) : U Z :=
  let! fd := open n O_RDONLY in
  if fd <? 0 then ret (-1) else
  let! r := fstat fd st in
  call (Close fd) ;;
  ret r.

(** [n = n*10 + *s++ - '0'] in [int]; an overflow is undefined. *)
Definition atoi (s : Z) : U Z :=
  while bound (fun '(s, n) =>
    let! b := ldb s in
    let d := byte.unsigned b in
    if (48 <=? d) && (d <=? 57) then
      if n * 10 + d <? 2 ^ 31 then ret (inl (s + 1, n * 10 + d - 48)) else panic "undefined: overflow"
    else ret (inr n)) (s, 0).

Definition memmove (vdst vsrc n : Z) : U Z :=
  modify (fun s => set_u_mem
    (if vdst <? vsrc then copy_up (u_mem s) vdst vsrc (Z.to_nat n)
     else copy_down (u_mem s) (vdst + n) (vsrc + n) (Z.to_nat n)) s) ;;
  ret vdst.

(** [char] is unsigned. *)
Definition memcmp (s1 s2 n : Z) : U Z := Prelude.gets (fun s => memcmp_loop (u_mem s) s1 s2 (Z.to_nat n)).

Definition memcpy (dst src n : Z) : U Z := memmove dst src n.

(** *** Strings *)

(** The characters of [bs], and a nul, are at [p]. *)
Fixpoint cstr (m : mem) (p : Z) (bs : list byte) : Prop :=
  match bs with
  | [] => ld8 m p = Byte.x00
  | b :: bs => ld8 m p = b /\ b <> Byte.x00 /\ cstr m (p + 1) bs
  end.

Lemma cstr_nul m p bs : cstr m p bs -> Byte.x00 ∉ bs.
Proof.
  revert p. induction bs as [|b bs IH]; intros p H; [apply not_elem_of_nil|]. destruct H as (_ & Hb & H).
  apply not_elem_of_cons. split; [done|by eapply IH].
Qed.

Lemma cstr_iff m p bs :
  cstr m p bs <-> (Byte.x00 ∉ bs) /\ ld_bytes m p (length bs) = bs /\ ld8 m (p + Z.of_nat (length bs)) = Byte.x00.
Proof.
  revert p. induction bs as [|b bs IH]; intros p; simpl.
  - rewrite Z.add_0_r. split; [|tauto]. intros H. split; [apply not_elem_of_nil|done].
  - rewrite IH, not_elem_of_cons. replace (p + 1 + Z.of_nat (length bs)) with (p + Z.of_nat (S (length bs))) by lia.
    split; [intros (<- & H1 & H2 & H3 & H4); rewrite H3; done|]. intros ([H1 H2] & [= H3 H4] & H5). by rewrite H4.
Qed.

Lemma cstr_ext m m' p bs :
  cstr m p bs -> (forall a, p <= a <= p + Z.of_nat (length bs) -> ld8 m' a = ld8 m a) -> cstr m' p bs.
Proof.
  rewrite !cstr_iff. intros (H1 & H2 & H3) H. split; [done|]. rewrite H by lia. split; [|done].
  rewrite <- H2 at 2. apply ld_bytes_ext. intros a Ha. apply H. lia.
Qed.

Lemma cstr_drop m p bs k : (k <= length bs)%nat -> cstr m p bs -> cstr m (p + Z.of_nat k) (drop k bs).
Proof.
  revert p k. induction bs as [|b bs IH]; intros p [|k] Hk H; simpl in *; rewrite ?Z.add_0_r; try done; [lia|].
  replace (p + Z.of_nat (S k)) with (p + 1 + Z.of_nat k) by lia. apply IH; [lia|apply H].
Qed.

Lemma byte_eqb_refl b : Byte.eqb b b = true.
Proof. by destruct (byte_eqb_spec b b). Qed.

Lemma byte_eqb_ne b c : b <> c -> Byte.eqb b c = false.
Proof. by destruct (byte_eqb_spec b c). Qed.

(** The first place of [c] in [bs]. *)
Fixpoint place (c : byte) (bs : list byte) : option nat :=
  match bs with
  | [] => None
  | b :: bs => if Byte.eqb b c then Some 0%nat else S <$> place c bs
  end.

Lemma while_S {S A B} fuel (body : A -> M S (A + B)) a s r s' :
  body a s = Ok r s' ->
  while (Datatypes.S fuel) body a s = match r with inl a' => while fuel body a' s' | inr b => Ok b s' end.
Proof. intros H. cbn [while]. rewrite (bind_Ok _ _ _ _ _ H). by destruct r. Qed.

Lemma strlen_ok p bs s : cstr (u_mem s) p bs -> (length bs < bound)%nat -> strlen p s = Ok (Z.of_nat (length bs)) s.
Proof.
  intros H Hb. unfold strlen.
  enough (G : forall fuel k, (k <= length bs)%nat -> (length bs - k < fuel)%nat ->
    while fuel (fun n => let! b := ldb (p + n) in if Byte.eqb b Byte.x00 then ret (inr n) else ret (inl (n + 1))) (Z.of_nat k) s
    = Ok (Z.of_nat (length bs)) s) by (apply (G bound 0%nat); lia).
  induction fuel as [|fuel IH]; intros k Hk Hf; [lia|]. pose proof (cstr_drop _ _ _ k Hk H) as Hc.
  destruct (drop k bs) as [|b r] eqn:E.
  - rewrite (while_S _ _ _ _ (inr (Z.of_nat k)) s); [|unfold bind, ldb, Prelude.gets; simpl; simpl in Hc; by rewrite Hc].
    apply (f_equal length) in E. rewrite length_drop in E. simpl in E. by replace (length bs) with k by lia.
  - rewrite (while_S _ _ _ _ (inl (Z.of_nat k + 1)) s).
    + replace (Z.of_nat k + 1) with (Z.of_nat (S k)) by lia. apply (f_equal length) in E. rewrite length_drop in E. simpl in E. apply IH; lia.
    + destruct Hc as (Hb1 & Hb2 & _). unfold bind, ldb, Prelude.gets. simpl. by rewrite Hb1, byte_eqb_ne.
Qed.

Lemma cstring_ok p bs s : cstr (u_mem s) p bs -> (length bs < bound)%nat -> cstring p s = Ok bs s.
Proof.
  intros H Hb. unfold cstring. enough (E : string_at bound (u_mem s) p = Some bs) by (by rewrite E).
  revert p bs H Hb. induction bound as [|fuel IH]; intros p bs H Hb; [lia|]. cbn [string_at]. destruct bs as [|b bs].
  - simpl in H. by rewrite H.
  - destruct H as (H1 & H2 & H3). simpl in Hb. rewrite H1, byte_eqb_ne by done. by rewrite (IH (p + 1) bs H3 ltac:(lia)).
Qed.

Lemma strchr_ok p c bs s :
  cstr (u_mem s) p bs -> (length bs < bound)%nat ->
  strchr p c s = Ok (match place c bs with Some i => p + Z.of_nat i | None => 0 end) s.
Proof.
  unfold strchr. revert p bs. induction bound as [|fuel IH]; intros p bs H Hb; [lia|]. destruct bs as [|b bs].
  - simpl in H. rewrite (while_S _ _ _ _ (inr 0) s); [done|]. unfold bind, ldb, Prelude.gets. simpl. by rewrite H.
  - destruct H as (H1 & H2 & H3). simpl in Hb. simpl place. destruct (byte_eqb_spec b c) as [<-|Hne].
    + rewrite (while_S _ _ _ _ (inr p) s); [by rewrite Z.add_0_r|]. unfold bind, ldb, Prelude.gets. simpl. by rewrite H1, byte_eqb_ne, byte_eqb_refl.
    + rewrite (while_S _ _ _ _ (inl (p + 1)) s).
      * rewrite (IH (p + 1) bs H3 ltac:(lia)). destruct (place c bs); simpl; [|done]. f_equal. lia.
      * unfold bind, ldb, Prelude.gets. simpl. by rewrite H1, !byte_eqb_ne.
Qed.

Lemma memmove_ok dst src n s :
  0 <= n -> memmove dst src n s = Ok dst (set_u_mem (st_bytes (u_mem s) dst (ld_bytes (u_mem s) src (Z.to_nat n))) s).
Proof.
  intros Hn. unfold memmove. rewrite bind_modify. unfold ret. do 2 f_equal. destruct (Z.ltb_spec dst src).
  - apply copy_up_eq. lia.
  - rewrite <- (copy_down_eq _ dst src (Z.to_nat n)) by lia. by rewrite Z2Nat.id.
Qed.

End Ulib.

Lemma drive_while {W : Type} `{!Unix W} {A B} fuel (body : A -> U (A + B)) a s (w : W) r s' w' :
  drive (body a s) w = Returned r s' w' ->
  drive (while (Datatypes.S fuel) body a s) w = match r with inl a' => drive (while fuel body a' s') w' | inr b => Returned b s' w' end.
Proof. intros H. cbn [while]. rewrite (drive_bind _ _ _ _ _ _ _ H). by destruct r. Qed.

(** ** Reading lines *)

Definition newline (c : byte) : bool := Byte.eqb c Byte.x0a || Byte.eqb c Byte.x0d.

(** The bytes up to the first end of line, at most [n]. *)
Fixpoint first_line (n : nat) (bs : list byte) : list byte :=
  match n, bs with
  | S n, b :: bs => b :: (if newline b then [] else first_line n bs)
  | _, _ => []
  end.

Section Gets.
Context {W : Type} `{!Unix W} (inp : W -> list byte) (R : W -> W -> Prop) `{!PreOrder R}.

(** A kernel whose [read] gives what is left of the input, changing what [R] allows. *)
Hypothesis read_inp : forall w n, 0 < n -> exists bs w', syscalls w (Read 0 n) = ((Z.of_nat (length bs), bs), w') /\
  inp w = bs ++ inp w' /\ Z.of_nat (length bs) <= n /\ (bs = [] -> inp w = []) /\ R w w'.

Lemma gets_loop buf max : forall fuel (d : nat) s w, (Z.to_nat (max - 1) - d < fuel)%nat -> 
  let l := first_line (Z.to_nat (max - 1) - d) (inp w) in
  exists s' w', drive (while fuel (gets_body buf max) (Z.of_nat (d)) s) w = Returned (Z.of_nat (d + length l)) s' w' /\
    u_mem s' = st_bytes (u_mem s) (buf + Z.of_nat (d)) l /\ inp w = l ++ inp w' /\ R w w'.
Proof.
  induction fuel as [|fuel IH]; intros d s w Hf; [lia|]. set (i := Z.of_nat (d)). cbn zeta.
  destruct (Z.ltb_spec (i + 1) max) as [Hi|Hi].
  2: { replace (Z.to_nat (max - 1) - d)%nat with 0%nat by lia. exists s, w. cbn [first_line length app st_bytes].
       rewrite Nat.add_0_r. erewrite (drive_while _ _ _ _ _ (inr i)) by (unfold gets_body; by rewrite (proj2 (Z.ltb_ge _ _) Hi)). done. }
  destruct (Z.to_nat (max - 1) - d)%nat as [|k] eqn:Ek; [lia|].
  destruct (read_inp w 1 ltac:(lia)) as (bs & w1 & E1 & Hin & Hl & Hend & HR).
  assert (E : drive (ecall (Read 0 1) s) w = Returned (Z.of_nat (length bs), bs) (set_u_answer (Z.of_nat (length bs), bs) (set_u_call (Read 0 1) s)) w1)
    by (rewrite drive_ecall by done; by rewrite E1).
  destruct bs as [|c [|]]; [| |simpl in Hl; lia].
  - rewrite (Hend eq_refl). simpl in Hin. exists (set_u_answer (0, []) (set_u_call (Read 0 1) s)), w1. cbn [first_line length app st_bytes].
    erewrite (drive_while _ _ _ _ _ (inr i)).
    2: { unfold gets_body. rewrite (proj2 (Z.ltb_lt _ _) Hi). cbn [negb]. urun E. done. }
    rewrite Nat.add_0_r. split_and!; [done|done|by rewrite <- (Hend eq_refl)|done].
  - simpl in Hin. rewrite Hin. cbn [first_line]. set (s1 := set_u_answer _ (set_u_call _ s)) in *.
    assert (E2 : drive (gets_body buf max i s) w =
      Returned (if newline c then inr (i + 1) else inl (i + 1)) (set_u_mem (st8 (u_mem s1) (buf + i) c) s1) w1).
    { unfold gets_body. rewrite (proj2 (Z.ltb_lt _ _) Hi). cbn [negb]. urun E. cbn [fst snd length nth]. unfold newline. by destruct (_ || _). }
    rewrite (drive_while _ _ _ _ _ _ _ _ E2). set (s2 := set_u_mem _ s1). destruct (newline c).
    + exists s2, w1. split_and!; [f_equal; simpl; lia|done|done|done].
    + destruct (IH (S d) s2 w1) as (s3 & w3 & E3 & M3 & I3 & R3); [lia|].
      replace (Z.to_nat (max - 1) - S d)%nat with k in * by lia.
      replace (Z.of_nat (S d)) with (i + 1) in * by lia. exists s3, w3.
      split_and!; [rewrite E3; f_equal; simpl; lia|rewrite M3, Z.add_assoc; done|simpl; by rewrite <- I3|by etrans].
Qed.

Lemma gets_ok buf max s w : let l := first_line (Z.to_nat (max - 1)) (inp w) in
  exists s' w', drive (gets buf max s) w = Returned buf s' w' /\ u_mem s' = st_bytes (u_mem s) buf (l ++ [Byte.x00]) /\
    inp w = l ++ inp w' /\ R w w'.
Proof.
  destruct (gets_loop buf max (S (Z.to_nat max)) 0%nat s w) as (s' & w' & E & M & I & HR); [simpl; lia|]. simpl in E, M, I.
  rewrite Nat.sub_0_r, Z.add_0_r in *. unfold gets. urun E. eexists _, w'. split; [done|]. split; [|done].
  simpl. rewrite st_bytes_app, M. done.
Qed.

End Gets.

End Ulib.
