(* ===== verification/UserPrintf.v ===== *)
(** * [user/printf.c]

    [fprintf] of user programs, which writes one character at a time, against the
    reference for the formats: [vprintf] writes exactly what the format and the
    arguments say, with every number cut to 32 bits. *)

From S2P Require Import Prelude Riscv Memory CString Sys Spinlock Uart Printf User.

Module UPrintf.

Definition digits : list byte := String.list_byte_of_string "0123456789ABCDEF".

Definition putc (fd : Z) (c : byte) : U unit := call (Write fd [c]) ;; ret tt.

(** [buf[i++] = c] for [char buf[16]]. *)
Definition push (c : byte) (buf : list byte) : U (list byte) :=
  if (length buf <? 16)%nat then ret (buf ++ [c]) else panic "undefined: printint buf".

Definition printint_body (base : Z) : Z * list byte -> U (Z * list byte + list byte) :=
  fun '(x, buf) =>
    let! buf := push (digits !!! Z.to_nat (x mod base)) buf in
    let x := x / base in
    ret (if x =? 0 then inr buf else inl (x, buf)).

(** 64 rounds are more than enough for a 32-bit number. *)
Definition printint (fd xx base : Z) (sgn : bool) : U unit :=
  let neg := sgn && (xx <? 0) in
  let x := if neg then u32 (- xx) else u32 xx in
  let! buf := while 64 (printint_body base) (x, []) in
  let! buf := (if neg then push Byte.x2d buf else ret buf) in
  forM (reverse buf) (putc fd).

Fixpoint printptr_loop (fd : Z) (n : nat) (x : Z) : U unit :=
  match n with
  | O => ret tt
  | S n => putc fd (digits !!! Z.to_nat (Z.shiftr x 60)) ;; printptr_loop fd n (u64 (Z.shiftl x 4))
  end.

Definition printptr (fd x : Z) : U unit :=
  putc fd Byte.x30 ;;
  putc fd Byte.x78 ;;
  printptr_loop fd 16 x.

Definition va_get {A} (o : option A) : U A :=
  match o with Some x => ret x | None => panic "undefined: va_arg" end.

(** The [if] chain on the characters after a [%]: the index and the arguments to
    go on with. *)
Definition vprintf_conv (fd c0 c1 c2 : Z) (i : nat) (ap : list va) : U (nat * list va) :=
  let int base sgn k :=
    let! (x, ap) := va_get (va_int ap) in
    printint fd x base sgn ;; ret ((i + k)%nat, ap) in
  (* the uint64 is passed as an int *)
  let long base sgn k :=
    let! (x, ap) := va_get (va_u64 ap) in
    printint fd (s32 x) base sgn ;; ret ((i + k)%nat, ap) in
  if c0 =? 100 (* d *) then int 10 true 0%nat
  else if (c0 =? 108) && (c1 =? 100) then long 10 true 1%nat
  else if (c0 =? 108) && (c1 =? 108) && (c2 =? 100) then long 10 true 2%nat
  else if c0 =? 117 (* u *) then int 10 false 0%nat
  else if (c0 =? 108) && (c1 =? 117) then long 10 false 1%nat
  else if (c0 =? 108) && (c1 =? 108) && (c2 =? 117) then long 10 false 2%nat
  else if c0 =? 120 (* x *) then int 16 false 0%nat
  else if (c0 =? 108) && (c1 =? 120) then long 16 false 1%nat
  else if (c0 =? 108) && (c1 =? 108) && (c2 =? 120) then long 16 false 2%nat
  else if c0 =? 112 (* p *) then
    let! (x, ap) := va_get (va_u64 ap) in
    printptr fd x ;; ret (i, ap)
  else if c0 =? 115 (* s *) then
    let! (s, ap) := va_get (va_str ap) in
    forM (default null_string s) (putc fd) ;; ret (i, ap)
  else if c0 =? 37 (* %% *) then putc fd Byte.x25 ;; ret (i, ap)
  else
    (* Unknown % sequence.  Print it to draw attention. *)
    putc fd Byte.x25 ;;
    putc fd (byte.of_Z c0) ;;
    ret (i, ap).

(** One round of the loop; [st] is [state == '%']. *)
Definition vprintf_body (fd : Z) (fmt : list byte) : nat * bool * list va -> U (nat * bool * list va + unit) :=
  fun '(i, st, ap) =>
    let c0 := fmt_at fmt i in
    if c0 =? 0 then ret (inr tt) else
    if negb st then
      if c0 =? 37 then ret (inl (S i, true, ap))
      else putc fd (byte.of_Z c0) ;; ret (inl (S i, false, ap))
    else
    let c1 := if negb (c0 =? 0) then fmt_at fmt (i + 1) else 0 in
    let c2 := if negb (c1 =? 0) then fmt_at fmt (i + 2) else 0 in
    let! (i, ap) := vprintf_conv fd c0 c1 c2 i ap in
    ret (inl (S i, false, ap)).

Definition vprintf (fd : Z) (fmt : list byte) (ap : list va) : U unit :=
  while (S (length fmt)) (vprintf_body fd fmt) (0%nat, false, ap).

Definition fprintf (fd : Z) (fmt : string) (ap : list va) : U unit := vprintf fd (bytes_of fmt) ap.

Definition printf (fmt : string) (ap : list va) : U unit := vprintf 1 (bytes_of fmt) ap.

(** A format that ends in a newline. *)
Definition line (s : string) : string := String.append s (String (Ascii.ascii_of_nat 10) EmptyString).

(** ** The reference *)

Definition upper (b : byte) : byte := let z := byte.unsigned b in if 97 <=? z then byte.of_Z (z - 32) else b.

(** The numeral of an [int]. *)
Definition int_numeral (base x : Z) (sgn : bool) : list byte :=
  if sgn && (x <? 0) then Byte.x2d :: map upper (numeral base (u32 (- x))) else map upper (numeral base (u32 x)).

Definition directive_text (d : directive) (ap : list va) : option (list byte * list va) :=
  match d with
  | DNum long base sgn =>
      '(x, ap) ← (if long then va_u64 ap else va_int ap);
      Some (int_numeral base (s32 x) sgn, ap)
  | DPtr => '(x, ap) ← va_u64 ap; Some (Byte.x30 :: Byte.x78 :: map upper (hex16 16 x), ap)
  | DStr => '(s, ap) ← va_str ap; Some (default null_string s, ap)
  | DPercent => Some ([Byte.x25], ap)
  | DEnd => Some ([], ap)
  | DUnknown c => Some ([Byte.x25; c], ap)
  end.

(** What [vprintf(fd, fmt, ap)] writes; [None] where that is undefined. *)
Fixpoint text (fuel : nat) (fmt : list byte) (ap : list va) : option (list byte) :=
  match fuel, fmt with
  | S fuel, Byte.x25 :: fmt =>
      let '(d, k) := directive_of (fmt !!! 0%nat) (fmt !!! 1%nat) (fmt !!! 2%nat) in
      '(out, ap) ← directive_text d ap;
      rest ← text fuel (drop (S k) fmt) ap;
      Some (out ++ rest)
  | S fuel, c :: fmt => rest ← text fuel fmt ap; Some (c :: rest)
  | _, _ => Some []
  end.

(** ** Numbers *)

Lemma upper_digit k : 0 <= k < 16 -> upper (Printf.digits !!! Z.to_nat k) = digits !!! Z.to_nat k.
Proof.
  intros H. assert (Hk : (Z.to_nat k < 16)%nat) by lia. revert Hk. generalize (Z.to_nat k). intros n Hn.
  do 16 (destruct n as [|n]; [reflexivity|]). lia.
Qed.

Lemma push_digit base x buf s :
  2 <= base <= 16 -> (length buf < 16)%nat ->
  push (digits !!! Z.to_nat (x mod base)) (map upper (reverse buf)) s =
  Ok (map upper (reverse ((Printf.digits !!! Z.to_nat (x mod base)) :: buf))) s.
Proof.
  intros Hb Hl. unfold push. rewrite length_map, length_reverse. rewrite (proj2 (Nat.ltb_lt _ _) Hl).
  rewrite reverse_cons, map_app. simpl. rewrite upper_digit; [done|]. pose proof (Z.mod_pos_bound x base). lia.
Qed.

Lemma int_loop fuel k base x buf s :
  2 <= base <= 16 -> 0 <= x < base ^ Z.of_nat (S k) -> (length buf + S k <= 16)%nat -> (k < fuel)%nat ->
  while fuel (printint_body base) (x, map upper (reverse buf)) s = Ok (map upper (reverse (numeral_aux fuel base x buf))) s.
Proof.
  intros Hb. revert k x buf. induction fuel as [|fuel IH]; intros k x buf Hx Hl Hf; [lia|].
  cbn [while numeral_aux]. unfold printint_body at 1, bind. rewrite push_digit by (done || lia). cbn [obind ret].
  destruct (Z.eqb_spec (x / base) 0) as [Hz|Hz]; [done|].
  destruct k as [|k]; [exfalso; apply Hz, Z.div_small; rewrite Z.pow_1_r in Hx; lia|].
  apply (IH k (x / base) (_ :: buf)); [apply (digit_pow x base (S k)); (lia || done)|simpl; lia|lia].
Qed.

Lemma upper_list_reverse l : reverse (map upper (reverse l)) = map upper l.
Proof. rewrite <- fmap_reverse. by rewrite reverse_involutive. Qed.

Section Emit.
Context {fd : Z}.
Local Abbreviation emits := (uemits fd).

Lemma putc_emits c : emits (putc fd c) tt [c].
Proof. apply uemits_write. Qed.

Lemma puts_emits l : emits (forM l (putc fd)) tt l.
Proof.
  pose proof (uemits_forM fd l (putc fd) (fun c => [c]) putc_emits) as H.
  replace (concat (map (fun c => [c]) l)) with l in H; [done|]. clear. induction l; simpl; by f_equal.
Qed.

Lemma printint_emits xx base sgn :
  10 <= base <= 16 -> - 2 ^ 31 <= xx < 2 ^ 31 -> emits (printint fd xx base sgn) tt (int_numeral base xx sgn).
Proof.
  intros Hb Hx. unfold printint, int_numeral. set (neg := sgn && (xx <? 0)). set (x := if neg then u32 (- xx) else u32 xx).
  assert (Hr : 0 <= x < base ^ Z.of_nat 10).
  { assert (10 ^ 10 <= base ^ Z.of_nat 10) by (apply Z.pow_le_mono_l; lia).
    pose proof (u32_range (- xx)). pose proof (u32_range xx). unfold x. destruct neg; lia. }
  eapply uemits_pure; [intros s; apply (int_loop 64 9 base x [] s); first [done|lia|simpl; lia]|].
  pose proof (numeral_aux_short 64 base x [] 9 ltac:(lia) Hr) as Hs. cbn [length] in Hs.
  unfold numeral. destruct neg; cbn [x].
  - eapply (uemits_pure _ _ (map upper (reverse (numeral_aux 64 base x [])) ++ [Byte.x2d])).
    + intros s. unfold push. rewrite length_map, length_reverse. rewrite (proj2 (Nat.ltb_lt _ _)) by lia. done.
    + rewrite reverse_snoc, upper_list_reverse. apply puts_emits.
  - eapply uemits_pure; [done|]. rewrite upper_list_reverse. apply puts_emits.
Qed.

Lemma printptr_loop_emits n x :
  0 <= x -> (n <= 16)%nat -> emits (printptr_loop fd n (u64 (x * 16 ^ (16 - Z.of_nat n)))) tt (map upper (hex16 n x)).
Proof.
  intros Hx. induction n as [|n IH]; intros Hn; [apply uemits_ret|]. cbn [printptr_loop hex16 map]. rewrite ptr_digit by (done || lia).
  rewrite upper_digit by (apply Z.mod_pos_bound; lia).
  change (?c :: ?l) with ([c] ++ l). eapply uemits_bind; [apply putc_emits|]. rewrite Z.shiftl_mul_pow2 by lia.
  replace (u64 _) with (u64 (x * 16 ^ (16 - Z.of_nat n))); [apply IH; lia|].
  unfold u64. rewrite Zmult_mod_idemp_l, <- Z.mul_assoc. do 2 f_equal.
  change (2 ^ 4) with (16 ^ 1). rewrite <- Z.pow_add_r by lia. f_equal. lia.
Qed.

Lemma printptr_emits x : 0 <= x < 2 ^ 64 -> emits (printptr fd x) tt (Byte.x30 :: Byte.x78 :: map upper (hex16 16 x)).
Proof.
  intros Hx. unfold printptr. change (?c :: ?c' :: ?l) with ([c] ++ [c'] ++ l).
  eapply uemits_bind; [apply putc_emits|]. eapply uemits_bind; [apply putc_emits|].
  pose proof (printptr_loop_emits 16 x ltac:(lia) ltac:(lia)) as H.
  change (16 ^ (16 - Z.of_nat 16)) with 1 in H. rewrite Z.mul_1_r, u64_small in H by lia. exact H.
Qed.

(** What the [if] chain runs for a directive. *)
Definition directive_do (d : directive * nat) (i : nat) (ap : list va) : U (nat * list va) :=
  match d.1 with
  | DNum false base sgn =>
      let! (x, ap) := va_get (va_int ap) in printint fd x base sgn ;; ret ((i + d.2)%nat, ap)
  | DNum true base sgn =>
      let! (x, ap) := va_get (va_u64 ap) in printint fd (s32 x) base sgn ;; ret ((i + d.2)%nat, ap)
  | DPtr => let! (x, ap) := va_get (va_u64 ap) in printptr fd x ;; ret (i, ap)
  | DStr => let! (s, ap) := va_get (va_str ap) in forM (default null_string s) (putc fd) ;; ret (i, ap)
  | DPercent => putc fd Byte.x25 ;; ret (i, ap)
  | DEnd => putc fd Byte.x25 ;; putc fd Byte.x00 ;; ret (i, ap)
  | DUnknown c => putc fd Byte.x25 ;; putc fd c ;; ret (i, ap)
  end.

Lemma vprintf_conv_directive c0 c1 c2 i ap :
  vprintf_conv fd (byte.unsigned c0) (byte.unsigned c1) (byte.unsigned c2) i ap =
  directive_do (directive_of c0 c1 c2) i ap.
Proof. destruct c0; try reflexivity. destruct c1; try reflexivity. destruct c2; reflexivity. Qed.

Lemma s32_s32 z : s32 (s32 z) = s32 z.
Proof.
  unfold s32. set (r := z mod 2 ^ 32). assert (Hr : 0 <= r < 2 ^ 32) by (apply Z.mod_pos_bound; lia).
  destruct (Z.ltb_spec r (2 ^ 31)).
  - rewrite Z.mod_small by lia. by rewrite (proj2 (Z.ltb_lt _ _)).
  - replace ((r - 2 ^ 32) mod 2 ^ 32) with r.
    + by rewrite (proj2 (Z.ltb_ge _ _)).
    + rewrite <- (Z_mod_plus_full (r - 2 ^ 32) 1 (2 ^ 32)). rewrite Z.mod_small; lia.
Qed.

Lemma directive_emits c0 c1 c2 d k i ap o ap' :
  directive_of c0 c1 c2 = (d, k) -> directive_text d ap = Some (o, ap') -> c0 <> Byte.x00 ->
  emits (directive_do (d, k) i ap) ((i + k)%nat, ap') o.
Proof.
  intros Hd Ho Hz. pose proof (directive_of_base _ _ _ _ _ Hd) as Hb.
  destruct d as [long base sgn| | | | |c]; unfold directive_do; cbn [fst snd]; cbn [directive_text] in Ho.
  - destruct ap as [|[z|] ap]; [by destruct long..| |by destruct long].
    destruct long; cbn in Ho; injection Ho as <- <-; (eapply uemits_pure; [done|]);
      (eapply uemits_then; [|apply uemits_ret]).
    + apply printint_emits; [done|apply s32_range].
    + rewrite s32_s32. apply printint_emits; [done|apply s32_range].
  - subst k. rewrite Nat.add_0_r. destruct ap as [|[z|] ap]; try done. injection Ho as <- <-.
    eapply uemits_pure; [done|]. eapply uemits_then; [|apply uemits_ret]. apply printptr_emits, u64_range.
  - subst k. rewrite Nat.add_0_r. destruct ap as [|[|z] ap]; try done. injection Ho as <- <-.
    eapply uemits_pure; [done|]. eapply uemits_then; [apply puts_emits|apply uemits_ret].
  - subst k. rewrite Nat.add_0_r. injection Ho as <- <-. eapply uemits_then; [apply putc_emits|apply uemits_ret].
  - done.
  - subst k. rewrite Nat.add_0_r. injection Ho as <- <-.
    apply (uemits_bind _ _ _ tt _ [Byte.x25] [c]); [apply putc_emits|]. eapply uemits_then; [apply putc_emits|apply uemits_ret].
Qed.

Lemma text_cons n c rest ap :
  text (S n) (c :: rest) ap =
  if decide (c = Byte.x25) then
    let '(d, k) := directive_of (rest !!! 0%nat) (rest !!! 1%nat) (rest !!! 2%nat) in
    '(o, ap) ← directive_text d ap; more ← text n (drop (S k) rest) ap; Some (o ++ more)
  else more ← text n rest ap; Some (c :: more).
Proof. destruct c, (decide _); (reflexivity || done). Qed.

Section Loop.
Variable fmt : list byte.
Hypothesis nonul : Byte.x00 ∉ fmt.

Lemma body_char i ap c rest :
  drop i fmt = c :: rest -> c <> Byte.x25 -> emits (vprintf_body fd fmt (i, false, ap)) (inl (S i, false, ap)) [c].
Proof.
  intros H Hne. destruct (drop_cons_at _ _ _ _ H) as (Hc & _ & _). unfold vprintf_body, fmt_at. rewrite Hc.
  destruct (Z.eqb_spec (byte.unsigned c) 0) as [Hz%byte_zero|].
  { exfalso. apply nonul, (subseteq_drop i). rewrite H, Hz. left. }
  destruct (Z.eqb_spec (byte.unsigned c) 37) as [Hz|]; [by destruct c|]. cbn [negb]. rewrite byte.of_Z_unsigned.
  eapply uemits_then; [apply putc_emits|apply uemits_ret].
Qed.

(** The two rounds for a directive. *)
Lemma body_percent i ap rest :
  drop i fmt = Byte.x25 :: rest -> emits (vprintf_body fd fmt (i, false, ap)) (inl (S i, true, ap)) [].
Proof.
  intros H. destruct (drop_cons_at _ _ _ _ H) as (Hc & _ & _). unfold vprintf_body, fmt_at. rewrite Hc. apply uemits_ret.
Qed.

Lemma body_conv i ap d k o ap' c0 rest :
  drop i fmt = c0 :: rest -> directive_of c0 (rest !!! 0%nat) (rest !!! 1%nat) = (d, k) ->
  directive_text d ap = Some (o, ap') ->
  emits (vprintf_body fd fmt (i, true, ap)) (inl (S (i + k), false, ap')) o.
Proof.
  intros H Hd Ho. destruct (drop_cons_at _ _ _ _ H) as (Hc & Hr & Hj). unfold vprintf_body, fmt_at. rewrite Hc.
  destruct (Z.eqb_spec (byte.unsigned c0) 0) as [Hz%byte_zero|Hz].
  { exfalso. apply nonul, (subseteq_drop i). rewrite H, Hz. left. }
  cbn [negb]. replace (i + 1)%nat with (S i + 0)%nat by lia. replace (i + 2)%nat with (S i + 1)%nat by lia. rewrite !Hj.
  assert (E2 : (if negb (byte.unsigned (rest !!! 0%nat) =? 0) then byte.unsigned (rest !!! 1%nat) else 0) = byte.unsigned (rest !!! 1%nat)).
  { destruct (Z.eqb_spec (byte.unsigned (rest !!! 0%nat)) 0) as [Hz'%byte_zero|]; [|done]. simpl.
    rewrite Hr in Hz'. apply suffix_zero in Hz'; [|done]. rewrite <- Hr in Hz'. by destruct rest; [|simpl in Hz'; lia]. }
  rewrite E2, vprintf_conv_directive, Hd. apply (uemits_then _ _ _ ((i + k)%nat, ap')); [|apply uemits_ret].
  eapply directive_emits; [done|done|]. intros ->. done.
Qed.

Lemma vprintf_loop n fuel i ap o :
  text n (drop i fmt) ap = Some o -> (length (drop i fmt) <= n)%nat -> (length (drop i fmt) <= fuel)%nat ->
  emits (while (S fuel) (vprintf_body fd fmt) (i, false, ap)) tt o.
Proof.
  assert (Hend : forall fuel i st ap, drop i fmt = [] -> emits (while (S fuel) (vprintf_body fd fmt) (i, st, ap)) tt []).
  { intros f j st aq H. cbn [while]. apply (uemits_bind _ _ _ (inr tt) _ [] []); [|apply uemits_ret]. unfold vprintf_body, fmt_at.
    rewrite <- (Nat.add_0_r j), <- lookup_total_drop, Nat.add_0_r, H. apply uemits_ret. }
  revert fuel i ap o. induction n as [|n IH]; intros fuel i ap o Hf Hn Hfu.
  - assert (H : drop i fmt = []) by (by destruct (drop i fmt); [|simpl in Hn; lia]). rewrite H in Hf. injection Hf as <-. by apply Hend.
  - destruct (drop i fmt) as [|c rest] eqn:H; [injection Hf as <-; by apply Hend|].
    rewrite text_cons in Hf. destruct (drop_cons_at _ _ _ _ H) as (_ & Hr & _). simpl in Hn, Hfu.
    destruct fuel as [|fuel]; [lia|]. remember (S fuel) as m. cbn [while]. subst m. destruct (decide (c = Byte.x25)) as [->|Hne].
    + destruct (directive_of _ _ _) as [d k] eqn:Hd. destruct (directive_text d ap) as [[o' ap']|] eqn:Ho; [|done]. cbn in Hf.
      destruct (text n (drop (S k) rest) ap') as [more|] eqn:Hm; [|done]. injection Hf as <-.
      apply (uemits_bind _ _ _ (inl (S i, true, ap)) _ [] (o' ++ more)); [by eapply body_percent|].
      destruct rest as [|c0 rest'].
      * injection Hd as <- <-. injection Ho as <- <-. rewrite drop_nil in Hm. destruct n; injection Hm as <-; by apply Hend.
      * remember (S fuel) as m. destruct fuel as [|fuel]; [simpl in Hfu; lia|]. subst m. remember (S fuel) as m. cbn [while].
        eapply uemits_bind; [eapply body_conv; [by symmetry|exact Hd|exact Ho]|]. subst m.
        replace (S (S i + k)) with (S i + S k)%nat by lia. simpl in Hn, Hfu.
        apply IH; rewrite <- drop_drop, <- Hr; [done|simpl; rewrite length_drop; lia|simpl; rewrite length_drop; lia].
    + destruct (text n rest ap) as [more|] eqn:Hm; [|done]. injection Hf as <-.
      apply (uemits_bind _ _ _ (inl (S i, false, ap)) _ [c] more); [by eapply body_char|]. apply IH; rewrite <- Hr; (done || lia).
Qed.

End Loop.

Lemma vprintf_emits (fmt : list byte) (ap : list va) (o : list byte) :
  Byte.x00 ∉ fmt -> text (length fmt) fmt ap = Some o -> emits (vprintf fd fmt ap) tt o.
Proof. intros Hn Ht. apply (vprintf_loop fmt Hn (length fmt)); by rewrite drop_0. Qed.


End Emit.

Lemma fprintf_emits fd (fmt : string) ap o : forallb (fun b => negb (Byte.eqb b Byte.x00)) (bytes_of fmt) = true ->
  text (length (bytes_of fmt)) (bytes_of fmt) ap = Some o -> uemits fd (fprintf fd fmt ap) tt o.
Proof. intros Hn Ho. apply vprintf_emits; [|done]. intros H%list_elem_of_In. rewrite forallb_forall in Hn. by apply Hn in H. Qed.


End UPrintf.
