(* ===== verification/Umalloc.v ===== *)
(** * The allocator of user programs, [user/umalloc.c]

    Blocks are made of units of 16 bytes, the first of which is a header: the next
    free block, and the number of units.  The free blocks form a ring, ordered by
    address, through the static header [base]; [freep] is where the last search
    ended.  The theorems say that blocks in use never overlap each other or the
    free ones, that nobody else writes to them, and that what is freed can be
    allocated again, joined with the free blocks next to it. *)

From stdpp Require Import sorting.
From S2P Require Import Prelude Riscv Memory CString User.

Module Umalloc.

Definition HEADER : Z := 16.

Section Umalloc.

(** The addresses of the static variables, and a bound on the rounds of a loop. *)
Variables (base freep : Z) (bound : nat).

Definition s_ptr (p : Z) : U Z := Prelude.gets (fun s => ld64 (u_mem s) p).

Definition s_size (p : Z) : U Z := Prelude.gets (fun s => ld32 (u_mem s) (p + 8)).

Definition set_ptr (p v : Z) : U unit := modify (fun s => set_u_mem (st64 (u_mem s) p v) s).

Definition set_size (p v : Z) : U unit := modify (fun s => set_u_mem (st32 (u_mem s) (p + 8) v) s).

(** [p + n], for a pointer to a header. *)
Definition header_at (p n : Z) : Z := u64 (p + HEADER * n).

Definition free_body (bp p : Z) : U (Z + Z) :=
  let! next := s_ptr p in
  if (p <? bp) && (bp <? next) then ret (inr p)
  else if (next <=? p) && ((p <? bp) || (bp <? next)) then ret (inr p)
  else ret (inl next).

Definition free (ap : Z) : U unit :=
  let bp := header_at ap (-1) in
  let! f := s_ptr freep in
  let! p := while bound (free_body bp) f in
  let! n := s_size bp in
  let! next := s_ptr p in
  (if header_at bp n =? next then
     let! m := s_size next in
     set_size bp (n + m) ;;
     let! next := s_ptr p in
     let! q := s_ptr next in
     set_ptr bp q
   else set_ptr bp next) ;;
  let! k := s_size p in
  (if header_at p k =? bp then
     let! n := s_size bp in
     set_size p (k + n) ;;
     let! q := s_ptr bp in
     set_ptr p q
   else set_ptr p bp) ;;
  set_ptr freep p.

Definition sbrk (n : Z) : U Z := let! r := call (Sbrk (s32 n)) in ret (u64 r).

Definition morecore (nu : Z) : U Z :=
  let nu := if nu <? 4096 then 4096 else nu in
  let! p := sbrk (nu * HEADER) in
  if p =? u64 (-1) then ret 0 else
  set_size p nu ;;
  free (header_at p 1) ;;
  s_ptr freep.

Definition malloc_body (nunits : Z) : Z * Z -> U (Z * Z + Z) := fun '(prevp, p) =>
  let! size := s_size p in
  if nunits <=? size then
    let! p :=
      if size =? nunits then
        let! q := s_ptr p in
        set_ptr prevp q ;;
        ret p
      else
        set_size p (size - nunits) ;;
        let! k := s_size p in
        let p := header_at p k in
        set_size p nunits ;;
        ret p in
    set_ptr freep prevp ;;
    ret (inr (header_at p 1))
  else
  let! f := s_ptr freep in
  if p =? f then
    let! p := morecore nunits in
    if p =? 0 then ret (inr 0) else
    let! q := s_ptr p in
    ret (inl (p, q))
  else
    let! q := s_ptr p in
    ret (inl (p, q)).

Definition malloc (nbytes : Z) : U Z :=
  let nunits := u32 ((nbytes + HEADER - 1) / HEADER + 1) in
  let! f := s_ptr freep in
  let! prevp :=
    if f =? 0 then
      set_ptr freep base ;;
      set_ptr base base ;;
      set_size base 0 ;;
      ret base
    else ret f in
  let! p := s_ptr prevp in
  while bound (malloc_body nunits) (prevp, p).

End Umalloc.

(** ** Free lists *)

(** A block: its address, and its units. *)
Abbreviation blk := (Z * Z)%type.

Implicit Types (e f : blk) (l X Y : list blk).

Definition upto e f : Prop := e.1 + 16 * e.2 <= f.1.

(** [e] ends before [f], which is not next to it. *)
Definition before e f : Prop := e.1 + 16 * e.2 < f.1.

Definition within (lo hi : Z) e : Prop := lo <= e.1 /\ 1 <= e.2 /\ e.1 + 16 * e.2 <= hi.

(** The byte at [x] is in a block of the list. *)
Definition covers l (x : Z) : Prop := Exists (fun e => e.1 <= x < e.1 + 16 * e.2) l.

Definition free_list (lo hi : Z) l : Prop := StronglySorted before l /\ Forall (within lo hi) l.

(** A block in front of others, joined with the next when they meet. *)
Definition join e l : list blk :=
  match l with
  | [] => [e]
  | f :: l' => if e.1 + 16 * e.2 =? f.1 then (e.1, e.2 + f.2) :: l' else e :: l
  end.

Lemma covers_app X Y x : covers (X ++ Y) x <-> covers X x \/ covers Y x.
Proof. apply Exists_app. Qed.

Lemma covers_cons e Y x : covers (e :: Y) x <-> e.1 <= x < e.1 + 16 * e.2 \/ covers Y x.
Proof. apply Exists_cons. Qed.

Lemma join_covers e Y x : 0 <= e.2 -> Forall (fun f => 0 <= f.2) Y -> covers (join e Y) x <-> covers (e :: Y) x.
Proof.
  intros He HY. destruct Y as [|f Y]; [done|]. apply Forall_cons in HY as [Hf _]. cbn [join].
  destruct (Z.eqb_spec (e.1 + 16 * e.2) f.1) as [E|]; [|done]. rewrite !covers_cons. cbn [fst snd].
  assert (e.1 <= x < e.1 + 16 * (e.2 + f.2) <-> e.1 <= x < e.1 + 16 * e.2 \/ f.1 <= x < f.1 + 16 * f.2) by lia. tauto.
Qed.

(** The first address is that of the block. *)
Lemma join_cons e Y : exists n Y', join e Y = (e.1, n) :: Y' /\ (Y' = Y \/ exists f, Y = f :: Y').
Proof.
  destruct Y as [|f Y]; cbn [join]; [exists e.2, []; split; [by destruct e|by left]|].
  destruct (_ =? _); [by exists (e.2 + f.2), Y; eauto|]. exists e.2, (f :: Y). split; [by destruct e|by left].
Qed.

Lemma before_upto e Y : 0 <= e.2 -> Forall (fun f => 0 <= f.2) Y -> Forall (upto e) Y -> StronglySorted before Y ->
  match Y with f :: _ => e.1 + 16 * e.2 <> f.1 | [] => True end -> Forall (before e) Y.
Proof.
  intros He HY Hu Hs Hne. destruct Y as [|f Y]; [done|]. apply StronglySorted_inv in Hs as [_ Hf]. apply Forall_cons in Hu as [Hu _], HY as [H0 _].
  unfold upto, before in *. constructor; [lia|]. eapply Forall_impl; [exact Hf|]. simpl. intros g Hg. lia.
Qed.

Lemma join_sorted e Y : 0 <= e.2 -> Forall (fun f => 0 <= f.2) Y -> Forall (upto e) Y -> StronglySorted before Y -> StronglySorted before (join e Y).
Proof.
  intros He HY Hu Hs. destruct Y as [|f Y]; [by repeat constructor|]. cbn [join].
  destruct (Z.eqb_spec (e.1 + 16 * e.2) f.1) as [E|Hne].
  - apply StronglySorted_inv in Hs as [Hs Hf]. constructor; [done|]. eapply Forall_impl; [exact Hf|]. unfold before. simpl. intros g Hg. lia.
  - constructor; [done|]. by apply before_upto.
Qed.

Lemma join_within lo hi e Y : within lo hi e -> Forall (within lo hi) Y -> Forall (within lo hi) (join e Y).
Proof.
  intros He HY. destruct Y as [|f Y]; [by constructor|]. cbn [join]. destruct (Z.eqb_spec (e.1 + 16 * e.2) f.1) as [E|Hne]; [|by constructor].
  apply Forall_cons in HY as [Hf HY]. constructor; [|done]. unfold within in *. simpl. lia.
Qed.

(** ** Headers in memory *)

Definition hd_addr l (last : Z) : Z := match l with [] => last | e :: _ => e.1 end.

(** The headers of the blocks, each pointing at the next and the last at [last]. *)
Fixpoint seg (m : mem) l (last : Z) : Prop :=
  match l with
  | [] => True
  | e :: l => ld64 m e.1 = hd_addr l last /\ ld32 m (e.1 + 8) = e.2 /\ seg m l last
  end.

(** [m'] differs from [m] in the header at [a] only. *)
Definition only (a : Z) (m m' : mem) : Prop := forall x, ~ (a <= x < a + 16) -> ld8 m' x = ld8 m x.

#[local] Instance only_preorder a : PreOrder (only a).
Proof. split; [done|]. intros m1 m2 m3 H H' x Hx. by rewrite H', H. Qed.

Lemma only_ptr a m v : only a m (st64 m a v).
Proof. intros x Hx. apply ld8_st64_out. lia. Qed.

Lemma only_size a m v : only a m (st32 m (a + 8) v).
Proof. intros x Hx. apply ld8_st_bytes_out. rewrite length_le_split. lia. Qed.

(** Headers elsewhere stay. *)
Lemma only_hdr a m m' b : only a m m' -> apart a 16 b 16 -> ld64 m' b = ld64 m b /\ ld32 m' (b + 8) = ld32 m (b + 8).
Proof. intros H Hb. unfold apart in Hb. split; [apply ld64_ext|apply ld32_ext]; intros i Hi; apply H; lia. Qed.

Lemma only_seg a m m' l last : only a m m' -> Forall (fun e => apart a 16 e.1 16) l -> seg m l last -> seg m' l last.
Proof.
  intros H Hl. induction Hl as [|e l He Hl IH]; [done|]. intros (H1 & H2 & H3). destruct (only_hdr _ _ _ _ H He) as [E1 E2].
  split_and!; [by rewrite E1|by rewrite E2|by apply IH].
Qed.

Lemma seg_concat m X Y last : seg m (X ++ Y) last <-> seg m X (hd_addr Y last) /\ seg m Y last.
Proof.
  induction X as [|e X IH]; simpl; [tauto|]. rewrite IH. destruct X as [|e' X]; simpl; tauto.
Qed.

Lemma seg_hd m X a b : (X <> [] -> a = b) -> seg m X a -> seg m X b.
Proof. destruct X as [|e X]; [done|]. intros H. by rewrite (H ltac:(done)). Qed.

Lemma st_ptr_hdr m a v : ld64 (st64 m a v) a = u64 v /\ ld32 (st64 m a v) (a + 8) = ld32 m (a + 8).
Proof. split; [apply ld64_st64|]. apply ld32_ext. intros i Hi. apply ld8_st64_out. lia. Qed.

Lemma st_size_hdr m a v : ld64 (st32 m (a + 8) v) a = ld64 m a /\ ld32 (st32 m (a + 8) v) (a + 8) = u32 v.
Proof. split; [|apply ld32_st32]. apply ld64_ext. intros i Hi. apply ld8_st_bytes_out. rewrite length_le_split. lia. Qed.

Lemma header_at_small p n : 0 <= p + 16 * n < 2 ^ 64 -> header_at p n = p + 16 * n.
Proof. intros H. apply u64_small. exact H. Qed.

(** ** Freeing *)

(** What the allocator relies on of the kernel: [sbrk] extends the memory of the
    process and returns where it ended, or fails and returns -1. *)
Class Brk (W : Type) `{!Unix W} := {
  brk : W -> Z;
  br_sbrk : forall w n, 0 <= n -> exists r w', syscalls w (Sbrk n) = ((r, []), w') /\
    (r = brk w /\ brk w' = brk w + n /\ brk w' <= 2 ^ 36 \/ r = -1 /\ brk w' = brk w)
}.

Section Heap.

(** The heap is above the static variables, and its units can be counted in 32 bits. *)
Variables (base freep lo : Z) (bound : nat).
Hypothesis base_range : 0 < base /\ base + 16 <= lo.
Hypothesis freep_range : 0 <= freep /\ freep + 8 <= lo /\ apart base 16 freep 8.

Lemma within_apart hi e f : within lo hi e -> within lo hi f -> upto e f -> apart e.1 16 f.1 16.
Proof. unfold within, upto, apart. lia. Qed.

Lemma within_base hi e : within lo hi e -> base < e.1 /\ apart e.1 16 base 16.
Proof. unfold within, apart. lia. Qed.

Lemma above_apart hi e Y : within lo hi e -> Forall (within lo hi) Y -> Forall (upto e) Y -> Forall (fun f => apart e.1 16 f.1 16) Y.
Proof.
  intros He HY Hu. apply Forall_forall. intros f Hf. rewrite Forall_forall in HY, Hu. eapply within_apart; [exact He|by apply HY|by apply Hu].
Qed.

(** The header at [e] takes in the block at [next] if they meet. *)
Definition join_mem (m : mem) e (next : Z) : mem :=
  if e.1 + 16 * e.2 =? next then
    let m1 := st32 m (e.1 + 8) (e.2 + ld32 m (next + 8)) in st64 m1 e.1 (ld64 m1 next)
  else st64 m e.1 next.

Lemma join_mem_only m e next : only e.1 m (join_mem m e next).
Proof. unfold join_mem. destruct (_ =? _); [|apply only_ptr]. etrans; [apply only_size|apply only_ptr]. Qed.

Lemma hd_range hi Y : lo <= hi <= 2 ^ 36 -> Forall (within lo hi) Y -> 0 <= hd_addr Y base < 2 ^ 64.
Proof. intros Hhi HY. destruct Y as [|g Y]; simpl; [lia|]. apply Forall_cons in HY as [(? & ? & ?) _]. lia. Qed.

Definition at_base hi e : Prop := within lo hi e \/ e = (base, 0).

Lemma join_mem_seg hi m e Y : lo <= hi <= 2 ^ 36 -> at_base hi e -> Forall (within lo hi) Y -> Forall (upto e) Y ->
  Forall (fun f => apart e.1 16 f.1 16) Y -> (Y = [] -> within lo hi e) ->
  seg m Y base -> ld32 m (e.1 + 8) = e.2 -> seg (join_mem m e (hd_addr Y base)) (join e Y) base.
Proof.
  intros Hhi He HY Hu Ha Hnil Hseg Hsz. pose proof (join_mem_only m e (hd_addr Y base)) as O. unfold join_mem in *.
  pose proof (hd_range _ _ Hhi HY) as Hr. destruct Y as [|f Y]; cbn [join hd_addr] in *.
  { destruct (Hnil eq_refl) as (? & ? & ?). rewrite (proj2 (Z.eqb_neq _ _)) by lia. cbn [seg hd_addr].
    destruct (st_ptr_hdr m e.1 base) as [-> ->]. split_and!; [apply u64_small; lia|done|done]. }
  pose proof Hseg as (S1 & S2 & S3). apply Forall_cons in Ha as [Ha HaY], HY as [(? & ? & ?) HY], Hu as [Hu _].
  destruct (Z.eqb_spec (e.1 + 16 * e.2) f.1) as [E|Hne]; cbn zeta in *.
  - rewrite S2 in *. set (m1 := st32 m (e.1 + 8) (e.2 + f.2)) in *. destruct (only_hdr _ _ _ f.1 (only_size e.1 m (e.2 + f.2)) Ha) as [E1 _].
    fold m1 in E1. rewrite E1, S1 in *. cbn [seg fst snd]. destruct (st_ptr_hdr m1 e.1 (hd_addr Y base)) as [-> ->].
    destruct (st_size_hdr m e.1 (e.2 + f.2)) as [_ E2]. fold m1 in E2. rewrite E2. split_and!.
    + apply u64_small. by apply (hd_range hi).
    + apply u32_small. destruct He as [(? & ? & ?)| ->]; simpl in *; lia.
    + eapply only_seg; [exact O|done|done].
  - cbn [seg hd_addr]. destruct (st_ptr_hdr m e.1 f.1) as [-> ->]. split; [by apply u64_small|]. split; [done|].
    eapply (only_seg e.1 m _ (f :: Y)); [exact O|by constructor|done].
Qed.

(** ** The ring *)

Definition ring l : list blk := (base, 0) :: l.

(** The successor in the ring. *)
Definition succ l (i : nat) : nat := if decide (S i < length (ring l))%nat then S i else 0%nat.

Lemma seg_lookup m l last i e : seg m l last -> l !! i = Some e ->
  ld32 m (e.1 + 8) = e.2 /\ ld64 m e.1 = match l !! S i with Some f => f.1 | None => last end.
Proof.
  revert i. induction l as [|f l IH]; intros i Hs Hi; [done|]. destruct Hs as (H1 & H2 & H3). destruct i as [|i]; [|by apply IH].
  injection Hi as ->. split; [done|]. rewrite H1. by destruct l.
Qed.

Lemma ring_next m l i e : seg m (ring l) base -> ring l !! i = Some e -> exists f, ring l !! succ l i = Some f /\ ld64 m e.1 = f.1.
Proof.
  intros Hs Hi. destruct (seg_lookup _ _ _ _ _ Hs Hi) as [_ ->]. unfold succ. destruct (decide _) as [H|H].
  - destruct (lookup_lt_is_Some_2 _ _ H) as [f Hf]. exists f. by rewrite Hf.
  - exists (base, 0). split; [done|]. by rewrite lookup_ge_None_2 by lia.
Qed.

(** Addresses grow along the ring. *)
Lemma ring_sorted hi l : free_list lo hi l -> StronglySorted before (ring l).
Proof.
  intros [Hs Hw]. constructor; [done|]. eapply Forall_impl; [exact Hw|]. intros e (? & ? & ?). unfold before. simpl. lia.
Qed.

Lemma sorted_lookup l i j e f : StronglySorted before l -> l !! i = Some e -> l !! j = Some f -> (i < j)%nat -> before e f.
Proof.
  intros Hs. revert i j. induction Hs as [|g l Hs IH Hg]; intros i j Hi Hj Hij; [done|]. destruct j as [|j]; [lia|]. simpl in Hj.
  destruct i as [|i]; [|apply (IH i j); [done|done|lia]]. injection Hi as ->. rewrite Forall_lookup in Hg. by eapply Hg.
Qed.

(** The place of a block among the free ones: after [f], before [Y]. *)
Record place l e X f Y : Prop := {
  pl_ring : ring l = X ++ f :: Y;
  pl_below : f.1 < e.1;
  pl_meet : upto f e;
  pl_above : Forall (upto e) Y
}.

(** A round of the loop of [free], from the entry at [i] of the ring. *)
Lemma free_round hi l e X f Y i g s : free_list lo hi l -> within lo hi e -> place l e X f Y ->
  seg (u_mem s) (ring l) base -> ring l !! i = Some g ->
  if decide (i = length X) then free_body e.1 g.1 s = Ok (inr f.1) s
  else exists h, ring l !! succ l i = Some h /\ free_body e.1 g.1 s = Ok (inl h.1) s.
Proof.
  intros Hl He Hpl Hs Hi. pose proof (within_base _ _ He) as [Hbe _]. pose proof He as (_ & He2 & _).
  destruct (ring_next _ _ _ _ Hs Hi) as (h & Hh & En). unfold free_body, s_ptr. rewrite bind_gets, En. pose proof (ring_sorted _ _ Hl) as Hsort.
  assert (Hf : ring l !! length X = Some f) by (rewrite (pl_ring _ _ _ _ _ Hpl); by apply list_lookup_middle).
  assert (HY : forall j y, ring l !! j = Some y -> (length X < j)%nat -> e.1 < y.1).
  { intros j y Hy Hj. rewrite (pl_ring _ _ _ _ _ Hpl), lookup_app_r in Hy by lia. destruct (j - length X)%nat as [|d] eqn:Ed; [lia|].
    pose proof (Forall_lookup_1 _ _ _ _ (pl_above _ _ _ _ _ Hpl) Hy) as Hu. unfold upto in Hu. lia. }
  pose proof (pl_below _ _ _ _ _ Hpl) as Hlt. assert (Hb : ring l !! 0%nat = Some (base, 0)) by done.
  unfold succ in *. destruct (decide (i = length X)) as [->|Hne].
  - rewrite Hf in Hi. injection Hi as <-. destruct (decide _) as [H|H].
    + pose proof (HY _ _ Hh ltac:(lia)). rewrite (proj2 (Z.ltb_lt _ _)), (proj2 (Z.ltb_lt e.1 _)) by lia. done.
    + rewrite Hb in Hh. injection Hh as <-. cbn [fst]. rewrite (proj2 (Z.ltb_ge e.1 base)), (proj2 (Z.ltb_lt f.1 _)) by lia. rewrite andb_false_r.
      destruct (length X) as [|n] eqn:E; [rewrite Hb in Hf; by injection Hf as <-; rewrite Z.leb_refl|].
      pose proof (sorted_lookup _ _ _ _ _ Hsort Hb Hf ltac:(lia)) as Hbf. unfold before in Hbf. simpl in Hbf.
      rewrite (proj2 (Z.leb_le base f.1)) by lia. done.
  - exists h. split; [done|]. assert (Hgh : (S i < length (ring l))%nat -> ring l !! S i = Some h -> g.1 < h.1).
    { intros _ Hh'. pose proof (sorted_lookup _ _ _ _ _ Hsort Hi Hh' ltac:(lia)) as Hgh. unfold before in Hgh.
      assert (0 <= g.2); [|lia]. destruct i as [|i]; [rewrite Hb in Hi; by injection Hi as <-|].
      destruct (Forall_lookup_1 _ _ _ _ (proj2 Hl) Hi) as (_ & ? & _). lia. }
    destruct (decide (i < length X)%nat) as [Hlt'|Hge].
    + pose proof (lookup_lt_Some _ _ _ Hf). rewrite decide_True in Hh by lia. pose proof (Hgh ltac:(lia) Hh).
      assert (h.1 <= f.1). { destruct (decide (S i = length X)) as [E|]; [rewrite E, Hf in Hh; by injection Hh as ->|].
        pose proof (sorted_lookup _ _ _ _ _ Hsort Hh Hf ltac:(lia)) as Hhf. unfold before in Hhf.
        destruct (Forall_lookup_1 _ _ _ _ (proj2 Hl) Hh) as (_ & ? & _). lia. }
      rewrite (proj2 (Z.ltb_ge e.1 h.1)), (proj2 (Z.leb_gt h.1 g.1)) by lia. by rewrite andb_false_r.
    + pose proof (HY _ _ Hi ltac:(lia)). rewrite (proj2 (Z.ltb_ge g.1 e.1)) by lia. cbn [andb orb]. destruct (decide (S i < _)%nat) as [Hl'|Hl'].
      * pose proof (Hgh Hl' Hh). rewrite (proj2 (Z.leb_gt h.1 g.1)) by lia. done.
      * rewrite Hb in Hh. injection Hh as <-. cbn [fst]. rewrite (proj2 (Z.ltb_ge e.1 base)) by lia. by rewrite andb_false_r.
Qed.

(** The rounds from [i] to [k] in the ring. *)
Definition distance l (i k : nat) : nat := if decide (i <= k)%nat then k - i else length (ring l) - i + k.

Lemma distance_succ l i k : (i < length (ring l))%nat -> (k < length (ring l))%nat -> i <> k -> distance l i k = S (distance l (succ l i) k).
Proof. intros Hi Hk Hne. unfold distance, succ. repeat destruct (decide _); lia. Qed.

Lemma distance_bound l i k : (i < length (ring l))%nat -> (k < length (ring l))%nat -> (distance l i k < length (ring l))%nat.
Proof. intros Hi Hk. unfold distance. destruct (decide _); lia. Qed.

Lemma free_loop hi l e X f Y : free_list lo hi l -> within lo hi e -> place l e X f Y ->
  forall fuel i g s, seg (u_mem s) (ring l) base -> ring l !! i = Some g -> (distance l i (length X) < fuel)%nat ->
  while fuel (free_body e.1) g.1 s = Ok f.1 s.
Proof.
  intros Hl He Hpl. induction fuel as [|fuel IH]; intros i g s Hs Hi Hf; [lia|].
  pose proof (free_round _ _ _ _ _ _ _ _ _ Hl He Hpl Hs Hi) as Hr. destruct (decide (i = length X)) as [->|Hne].
  - by rewrite (Ulib.while_S _ _ _ _ _ _ Hr).
  - destruct Hr as (h & Hh & Hr). rewrite (Ulib.while_S _ _ _ _ _ _ Hr). apply (IH (succ l i)); [done|done|].
    rewrite distance_succ in Hf; [lia|by eapply lookup_lt_Some| |done]. rewrite (pl_ring _ _ _ _ _ Hpl), length_app. simpl. lia.
Qed.

(** What [free] does once it has found the place. *)
Lemma free_tail e p s : let m := u_mem s in
  ld32 m (e.1 + 8) = e.2 -> apart e.1 16 p 16 -> 0 <= e.1 + 16 * e.2 < 2 ^ 64 ->
  let m1 := join_mem m e (ld64 m p) in 0 <= p + 16 * ld32 m1 (p + 8) < 2 ^ 64 ->
  (let! n := s_size e.1 in
   let! next := s_ptr p in
   (if header_at e.1 n =? next then
      let! m := s_size next in
      set_size e.1 (n + m) ;;
      let! next := s_ptr p in
      let! q := s_ptr next in
      set_ptr e.1 q
    else set_ptr e.1 next) ;;
   let! k := s_size p in
   (if header_at p k =? e.1 then
      let! n := s_size e.1 in
      set_size p (k + n) ;;
      let! q := s_ptr e.1 in
      set_ptr p q
    else set_ptr p e.1) ;;
   set_ptr freep p) s =
  Ok tt (set_u_mem (st64 (join_mem m1 (p, ld32 m1 (p + 8)) e.1) freep p) s).
Proof.
  intros m Hsz Hep He m1 Hp. unfold s_size, s_ptr, set_size, set_ptr in *. rewrite !bind_gets. fold m. rewrite Hsz, header_at_small by done.
  match goal with |- bind ?c _ _ = _ => assert (E1 : c s = Ok tt (set_u_mem m1 s)) end.
  { unfold m1, join_mem. destruct (_ =? _); [|done]. rewrite bind_gets, bind_modify, !bind_gets. fold m. cbn [u_mem set_u_mem].
    set (m2 := st32 m (e.1 + 8) _). destruct (only_hdr _ _ _ p (only_size e.1 m _ : only e.1 m m2) Hep) as [-> _]. done. }
  rewrite (bind_Ok _ _ _ _ _ E1), bind_gets. cbn [u_mem set_u_mem]. rewrite header_at_small by done.
  match goal with |- bind ?c _ ?s1 = _ => assert (E2 : c s1 = Ok tt (set_u_mem (join_mem m1 (p, ld32 m1 (p + 8)) e.1) s)) end.
  { unfold join_mem. cbn [fst snd]. by destruct (p + _ =? e.1). }
  by rewrite (bind_Ok _ _ _ _ _ E2).
Qed.

Definition disjoint e l : Prop := Forall (fun f => upto e f \/ upto f e) l.

Lemma place_exists e R f : StronglySorted before (f :: R) -> Forall (fun f => 1 <= f.2) R -> disjoint e R -> upto f e -> f.1 < e.1 -> 0 <= e.2 ->
  exists X g Y, f :: R = X ++ g :: Y /\ g.1 < e.1 /\ upto g e /\ Forall (upto e) Y.
Proof.
  revert f. induction R as [|g R IH]; intros f Hs H0 Hd Hf Hlt He; [by exists [], f, []|].
  apply Forall_cons in Hd as [[Hg|Hg] Hd], H0 as [Hg0 H0]; apply StronglySorted_inv in Hs as [Hs _].
  - exists [], f, (g :: R). split_and!; [done|done|done|]. constructor; [done|]. apply StronglySorted_inv in Hs as [_ Hs].
    eapply Forall_impl; [exact Hs|]. unfold upto, before in *. simpl. intros h Hh. lia.
  - destruct (IH g Hs H0 Hd Hg) as (X & h & Y & -> & Hh & Hu & HY); [|done|by exists (f :: X), h, Y].
    unfold upto in Hg. lia.
Qed.

(** The allocator: its free blocks are those of the list, and [freep] is in the ring. *)
Definition heap (m : mem) l (hi : Z) : Prop :=
  free_list lo hi l /\ seg m (ring l) base /\ exists i e, ring l !! i = Some e /\ ld64 m freep = e.1.

Definition static (x : Z) : Prop := base <= x < base + 16 \/ freep <= x < freep + 8.

(** [m'] is as [m] but for the static variables and the bytes of the blocks. *)
Definition keeps l (m m' : mem) : Prop := forall x, ~ covers l x -> ~ static x -> ld8 m' x = ld8 m x.

Lemma within_units lo' hi l : Forall (within lo' hi) l -> Forall (fun e => 0 <= e.2) l /\ Forall (fun e => 1 <= e.2) l.
Proof. intros H. split; (eapply Forall_impl; [exact H|]); unfold within; intros; lia. Qed.

Lemma join_free hi e Y : within lo hi e -> Forall (upto e) Y -> free_list lo hi Y ->
  free_list lo hi (join e Y) /\ (forall x, covers (join e Y) x <-> covers (e :: Y) x) /\
  Forall (fun g => e.1 <= g.1) (join e Y) /\ Exists (fun g => e.2 <= g.2) (join e Y).
Proof.
  intros He Hu [Hs Hw]. pose proof (within_units _ _ _ Hw) as [H0 H1]. pose proof He as (_ & He1 & _).
  split; [split; [apply join_sorted; [lia|done..]|by apply join_within]|]. split; [intros x; apply join_covers; [lia|done]|].
  assert (Ha : Forall (fun g => e.1 <= g.1) Y) by (eapply Forall_impl; [exact Hu|]; unfold upto; simpl; intros; lia).
  destruct Y as [|f Y]; cbn [join]; [split; repeat constructor; lia|]. apply Forall_cons in Ha as [Hf Ha], H0 as [Hf0 _].
  destruct (_ =? _); (split; [constructor; [simpl; lia|try done; by constructor]|left; simpl; lia]).
Qed.

(** The blocks after [e] is put at its place. *)
Lemma join_free_list hi l e X f Y : free_list lo hi l -> within lo hi e -> place l e X f Y ->
  exists l', X ++ join f (join e Y) = ring l' /\ free_list lo hi l' /\ (forall x, covers l' x <-> covers l x \/ e.1 <= x < e.1 + 16 * e.2) /\
    Exists (fun g => e.2 <= g.2) l'.
Proof.
  intros [Hs Hw] He [HR Hlt Hfe HeY]. pose proof (within_base _ _ He) as [Hb _].
  assert (HY : free_list lo hi Y).
  { destruct X as [|b X]; [by injection HR as <- <-|]. injection HR as <- ->. apply StronglySorted_app in Hs as (_ & _ & Hs). apply Forall_app in Hw as [_ Hw].
    apply StronglySorted_inv in Hs as [Hs _]. by apply Forall_cons in Hw as [_ Hw]. }
  destruct (join_free _ _ _ He HeY HY) as (Hj & Hcov & Hge & Hbig). destruct X as [|b X]; injection HR as <- HR.
  - exists (join e Y). subst Y. split; [|split_and!; [done| |done]; intros x; rewrite Hcov, covers_cons; tauto].
    destruct (join_cons e l) as (n & l' & -> & _). cbn [join app]. by rewrite (proj2 (Z.eqb_neq _ _)) by (simpl; lia).
  - subst l. apply StronglySorted_app in Hs as (HXf & HX & Hs). apply Forall_app in Hw as [HwX Hw]. apply Forall_cons in Hw as [Hf _].
    assert (Hfj : Forall (upto f) (join e Y)) by (eapply Forall_impl; [exact Hge|]; unfold upto in *; simpl; intros; lia).
    destruct (join_free _ _ _ Hf Hfj Hj) as ([Hs' Hw'] & Hcov' & Hge' & _). exists (X ++ join f (join e Y)). split; [done|]. split_and!.
    + split; [|by apply Forall_app]. apply StronglySorted_app. split_and!; [|done|done]. intros x g Hx Hg.
      specialize (HXf x f Hx ltac:(by left)). rewrite Forall_forall in Hge'. specialize (Hge' g Hg). unfold before in *. simpl in Hge'. lia.
    + intros x. rewrite !covers_app, Hcov', !covers_cons, Hcov, covers_cons. tauto.
    + apply Exists_app. right. destruct (join e Y) as [|g Z] eqn:E; [by inversion Hbig|]. cbn [join]. destruct Hf as (_ & Hf & _).
      destruct (_ =? _); [|by right]. inversion Hbig; subst; [left; simpl; lia|by right].
Qed.

Lemma ring_at_base hi l f : free_list lo hi l -> f ∈ ring l -> at_base hi f.
Proof. intros [_ Hw] Hf. apply elem_of_cons in Hf as [->|Hf]; [by right|left]. rewrite Forall_forall in Hw. by apply Hw. Qed.

Lemma at_base_apart hi f e : at_base hi f -> within lo hi e -> f.1 < e.1 -> upto f e -> apart e.1 16 f.1 16.
Proof. intros [(? & ? & ?)| ->] (? & ? & ?) Hlt Hu; unfold apart, upto in *; simpl in *; lia. Qed.

Lemma freep_hdr hi m e v : at_base hi e -> ld64 (st64 m freep v) e.1 = ld64 m e.1 /\ ld32 (st64 m freep v) (e.1 + 8) = ld32 m (e.1 + 8).
Proof.
  intros He. assert (Ha : apart freep 8 e.1 16). { unfold apart in *. destruct He as [(? & ? & ?)| ->]; simpl; lia. } unfold apart in Ha.
  split; [apply ld64_ext|apply ld32_ext]; intros i Hi; apply ld8_st64_out; lia.
Qed.

Lemma freep_seg hi m l last v : Forall (at_base hi) l -> seg m l last -> seg (st64 m freep v) l last.
Proof.
  intros Hl. induction Hl as [|e l He Hl IH]; [done|]. intros (H1 & H2 & H3). destruct (freep_hdr hi m e v He) as [E1 E2].
  split_and!; [by rewrite E1|by rewrite E2|by apply IH].
Qed.

(** A header of the ring is static, or in a free block. *)
Lemma at_base_static hi f l : at_base hi f -> f ∈ ring l -> forall x, f.1 <= x < f.1 + 16 -> static x \/ covers l x.
Proof.
  intros Hf Hin x Hx. apply elem_of_cons in Hin as [->|Hin]; [by left; left|]. destruct Hf as [(? & ? & ?)| ->]; [|by left; left].
  right. apply Exists_exists. exists f. split; [done|lia].
Qed.

(** The memory after [e] was put after [f]. *)
Definition freed_mem (m : mem) e f : mem := st64 (join_mem (join_mem m e (ld64 m f.1)) f e.1) freep f.1.

Lemma freed_seg hi m l e X f Y : lo <= hi <= 2 ^ 36 -> free_list lo hi l -> seg m (ring l) base -> within lo hi e -> ld32 m (e.1 + 8) = e.2 ->
  place l e X f Y -> ld32 (join_mem m e (ld64 m f.1)) (f.1 + 8) = f.2 /\ seg (freed_mem m e f) (X ++ join f (join e Y)) base.
Proof.
  intros Hhi Hl Hs He Hsz [HR Hlt Hfe HeY].
  assert (HRb : Forall (at_base hi) (X ++ f :: Y)). { apply Forall_forall. intros g Hg. rewrite <- HR in Hg. by eapply ring_at_base. }
  pose proof (ring_sorted _ _ Hl) as Hsort. rewrite HR in Hs, Hsort. apply seg_concat in Hs as [HsX (Hf1 & Hf2 & HsY)].
  apply Forall_app in HRb as [HbX HbfY]. apply Forall_cons in HbfY as [Hbf HbY]. apply StronglySorted_app in Hsort as (HXf & _ & Hsort).
  assert (HY : Forall (within lo hi) Y).
  { apply Forall_forall. intros g Hg. rewrite Forall_forall in HbY, HeY. destruct (HbY g Hg) as [?| ->]; [done|].
    specialize (HeY _ Hg). destruct He as (? & ? & ?). unfold upto in HeY. simpl in HeY. lia. }
  pose proof (at_base_apart _ _ _ Hbf He Hlt Hfe) as Hef. pose proof (above_apart _ _ _ He HY HeY) as HaY.
  set (m1 := join_mem m e (ld64 m f.1)). pose proof (join_mem_only m e (ld64 m f.1)) as O1. fold m1 in O1.
  assert (S1 : seg m1 (join e Y) base) by (unfold m1; rewrite Hf1; by eapply join_mem_seg; eauto; left).
  destruct (only_hdr _ _ _ _ O1 Hef) as [_ E2]. rewrite Hf2 in E2. split; [done|]. unfold freed_mem. fold m1. 
  apply StronglySorted_inv in Hsort as [HsortY _]. destruct (join_free _ _ _ He HeY (conj HsortY HY)) as ([_ Hjw] & _ & Hge & _).
  pose proof (join_mem_only m1 f e.1) as O2. destruct (join_cons e Y) as (n & Y' & Ej & _).
  assert (Hfj : Forall (fun g => upto f g /\ apart f.1 16 g.1 16) (join e Y)).
  { eapply Forall_impl; [exact Hge|]. simpl. intros g Hg. unfold upto, apart in *. lia. }
  apply Forall_and in Hfj as [Hfu Hfa].
  assert (S2 : seg (join_mem m1 f e.1) (join f (join e Y)) base).
  { replace e.1 with (hd_addr (join e Y) base) by (by rewrite Ej). eapply join_mem_seg; eauto. by rewrite Ej. }
  assert (HXa : Forall (fun x => apart e.1 16 x.1 16 /\ apart f.1 16 x.1 16) X).
  { apply Forall_forall. intros x Hx. specialize (HXf x f Hx ltac:(by left)). rewrite Forall_forall in HbX. specialize (HbX x Hx).
    unfold before, apart in *. destruct HbX as [(? & ? & ?)| ->], Hbf as [(? & ? & ?)| ->]; simpl in *; lia. }
  apply Forall_and in HXa as [HXe HXf'].
  assert (Hall : Forall (at_base hi) (X ++ join f (join e Y))).
  { apply Forall_app. split; [done|]. destruct Hbf as [Hfw| ->]; [eapply Forall_impl; [by apply join_within|]; by left|].
    rewrite Ej. cbn [join]. rewrite (proj2 (Z.eqb_neq _ _)) by (destruct He as (? & ? & ?); simpl; lia).
    constructor; [by right|]. rewrite <- Ej. eapply Forall_impl; [exact Hjw|]. by left. }
  apply (freep_seg hi _ _ _ _ Hall). apply seg_concat. split; [|done]. destruct (join_cons f (join e Y)) as (k & Z & -> & _). cbn [hd_addr fst].
  eapply only_seg; [exact O2|done|]. eapply only_seg; [exact O1|done|exact HsX].
Qed.

Lemma freed_keeps hi m l l' e f : at_base hi f -> f ∈ ring l -> (forall x, covers l' x <-> covers l x \/ e.1 <= x < e.1 + 16 * e.2) -> within lo hi e ->
  keeps l' m (freed_mem m e f).
Proof.
  intros Hf Hin Hc He x Hx Hn. rewrite Hc in Hx. unfold freed_mem.
  rewrite ld8_st64_out by (intros H; apply Hn; by right).
  rewrite (join_mem_only _ f). 2: { intros H. destruct (at_base_static _ _ _ Hf Hin x H); tauto. }
  apply join_mem_only. destruct He as (? & ? & ?). lia.
Qed.

Lemma free_ok hi l e s : lo <= hi <= 2 ^ 36 -> heap (u_mem s) l hi -> within lo hi e -> disjoint e l -> ld32 (u_mem s) (e.1 + 8) = e.2 ->
  (length (ring l) <= bound)%nat ->
  exists l' m', free freep bound (e.1 + 16) s = Ok tt (set_u_mem m' s) /\ heap m' l' hi /\ keeps l' (u_mem s) m' /\
    (forall x, covers l' x <-> covers l x \/ e.1 <= x < e.1 + 16 * e.2) /\ Exists (fun g => e.2 <= g.2) l'.
Proof.
  intros Hhi (Hl & Hs & i & g & Hi & Hg) He Hd Hsz Hb. pose proof He as (He1 & He2 & He3). pose proof (within_base _ _ He) as [Hbe _].
  destruct (place_exists e l (base, 0)) as (X & f & Y & HR & Hlt & Hfe & HeY);
    [by apply (ring_sorted hi)|by apply (within_units lo hi), Hl|done|unfold upto; simpl; lia|simpl; lia|lia|].
  assert (Hpl : place l e X f Y) by done. destruct (freed_seg _ _ _ _ _ _ _ Hhi Hl Hs He Hsz Hpl) as [E2 Hs'].
  assert (Hin : f ∈ ring l) by (unfold ring; rewrite HR; apply elem_of_app; right; by left).
  destruct (join_free_list _ _ _ _ _ _ Hl He Hpl) as (l' & ER & Hl' & Hc & Hbig). pose proof (ring_at_base _ _ _ Hl Hin) as Hbf.
  exists l', (freed_mem (u_mem s) e f). split_and!; [| | |done|done].
  - unfold free. rewrite (header_at_small (e.1 + 16) (-1)) by lia. replace (e.1 + 16 + 16 * -1) with e.1 by lia.
    unfold s_ptr at 1. rewrite bind_gets, Hg.
    assert (E : while bound (free_body e.1) g.1 s = Ok f.1 s).
    { apply (free_loop hi l e X f Y Hl He Hpl bound i g s Hs Hi). eapply Nat.lt_le_trans; [apply distance_bound|done]; [by eapply lookup_lt_Some|].
      unfold ring. rewrite HR, length_app. simpl. lia. }
    krun E. rewrite (free_tail e f.1 s Hsz); [by rewrite E2; destruct f|by eapply at_base_apart|lia|].
    rewrite E2. destruct Hbf as [(? & ? & ?)| ->]; simpl; lia.
  - split; [done|]. rewrite <- ER. split; [done|]. exists (length X). destruct (join_cons f (join e Y)) as (n & Z & -> & _). exists (f.1, n).
    split; [by apply list_lookup_middle|]. unfold freed_mem. rewrite ld64_st64. apply u64_small. destruct Hbf as [(? & ? & ?)| ->]; simpl; lia.
  - by eapply freed_keeps.
Qed.

(** ** Allocating *)

(** A round of the search that goes on. *)
Lemma malloc_skip n l i k (p : Z) g f s : seg (u_mem s) (ring l) base -> ring l !! i = Some g -> ring l !! k = Some f -> ld64 (u_mem s) freep = f.1 ->
  g.2 < n -> g.1 <> f.1 -> exists h, ring l !! succ l i = Some h /\ malloc_body freep bound n (p, g.1) s = Ok (inl (g.1, h.1)) s.
Proof.
  intros Hs Hg Hf Hfp Hn Hne. destruct (ring_next _ _ _ _ Hs Hg) as (h & Hh & En). exists h. split; [done|].
  unfold malloc_body, s_size, s_ptr. rewrite bind_gets. destruct (seg_lookup _ _ _ _ _ Hs Hg) as [-> _].
  rewrite (proj2 (Z.leb_gt n g.2)) by lia. rewrite bind_gets, Hfp, (proj2 (Z.eqb_neq _ _)) by done. by rewrite bind_gets, En.
Qed.

Lemma ring_inj hi l i j e f : free_list lo hi l -> ring l !! i = Some e -> ring l !! j = Some f -> e.1 = f.1 -> i = j.
Proof.
  intros Hl Hi Hj E. pose proof (ring_sorted _ _ Hl) as Hs. destruct (Nat.lt_trichotomy i j) as [H|[H|H]]; [|done|].
  - pose proof (sorted_lookup _ _ _ _ _ Hs Hi Hj H) as Hb. destruct (ring_at_base _ _ _ Hl (list_elem_of_lookup_2 _ _ _ Hi)) as [(? & ? & ?)| ->];
      unfold before in Hb; simpl in *; lia.
  - pose proof (sorted_lookup _ _ _ _ _ Hs Hj Hi H) as Hb. destruct (ring_at_base _ _ _ Hl (list_elem_of_lookup_2 _ _ _ Hj)) as [(? & ? & ?)| ->];
      unfold before in Hb; simpl in *; lia.
Qed.

(** The search stops at a block that is large enough, or at [freep] when all it
    saw were too small. *)
Lemma malloc_search hi n l k f s : free_list lo hi l -> seg (u_mem s) (ring l) base -> ring l !! k = Some f -> ld64 (u_mem s) freep = f.1 ->
  forall d fuel i j e g, distance l i k = d -> (d < fuel)%nat -> succ l j = i -> ring l !! j = Some e -> ring l !! i = Some g ->
  exists fuel' i' j' e' g', while fuel (malloc_body freep bound n) (e.1, g.1) s = while (S fuel') (malloc_body freep bound n) (e'.1, g'.1) s /\
    (fuel <= fuel' + S d)%nat /\ succ l j' = i' /\ ring l !! j' = Some e' /\ ring l !! i' = Some g' /\
    (n <= g'.2 \/ i' = k /\ forall i'' g'', (distance l i i'' <= d)%nat -> ring l !! i'' = Some g'' -> g''.2 < n).
Proof.
  intros Hl Hs Hk Hfp. induction d as [|d IH]; intros fuel i j e g Hd Hf Hj He Hg; (destruct fuel as [|fuel]; [lia|]).
  - assert (i = k) as ->. { destruct (decide (i = k)) as [|Hne]; [done|]. rewrite distance_succ in Hd; [done|by eapply lookup_lt_Some..|done]. }
    exists fuel, k, j, e, g. split; [done|]. split; [lia|]. split_and!; [done..|]. rewrite Hk in Hg. injection Hg as <-.
    destruct (Z.le_gt_cases n f.2); [by left|right]. split; [done|]. intros i g Hi Hg.
    destruct (decide (k = i)) as [<-|Hne]; [rewrite Hk in Hg; injection Hg as <-; lia|]. rewrite distance_succ in Hi; [lia|by eapply lookup_lt_Some..|done].
  - destruct (Z.le_gt_cases n g.2) as [Hn|Hn]; [exists fuel, i, j, e, g; split_and!; try done; [lia|by left]|].
    assert (Hik : i <> k). { intros ->. unfold distance in Hd. rewrite decide_True in Hd by lia. lia. }
    destruct (malloc_skip n l i k e.1 g f s Hs Hg Hk Hfp Hn) as (h & Hh & E); [intros H; by eapply Hik, ring_inj|].
    rewrite distance_succ in Hd; [|by eapply lookup_lt_Some..|done]. injection Hd as Hd. rewrite (Ulib.while_S _ _ _ _ _ _ E).
    destruct (IH fuel (succ l i) i g h Hd ltac:(lia) eq_refl Hg Hh) as (fuel' & i' & j' & e' & g' & E' & Hf' & H1 & H2 & H3 & H4).
    exists fuel', i', j', e', g'. split_and!; [done|lia|done|done|done|]. destruct H4 as [?|[-> H4]]; [by left|right]. split; [done|].
    intros i2 g2 Hi2 Hg2. destruct (decide (i = i2)) as [->|Hne]; [rewrite Hg in Hg2; injection Hg2 as <-; lia|]. eapply H4; [|done].
    rewrite distance_succ in Hi2; [lia|by eapply lookup_lt_Some..|done].
Qed.

Lemma split_free hi P g Y : free_list lo hi (P ++ g :: Y) ->
  free_list lo hi P /\ within lo hi g /\ free_list lo hi Y /\ Forall (fun x => before x g) P /\ Forall (before g) Y /\
  forall x y, x ∈ P -> y ∈ Y -> before x y.
Proof.
  intros [Hs Hw]. apply StronglySorted_app in Hs as (Hpg & Hp & Hs). apply StronglySorted_inv in Hs as [HsY HgY].
  apply Forall_app in Hw as [HwP Hw]. apply Forall_cons in Hw as [Hwg HwY]. split_and!; try done.
  - apply Forall_forall. intros x Hx. apply Hpg; [done|by left].
  - intros x y Hx Hy. apply Hpg; [done|by right].
Qed.

Lemma free_list_app hi P Y : free_list lo hi P -> free_list lo hi Y -> (forall x y, x ∈ P -> y ∈ Y -> before x y) -> free_list lo hi (P ++ Y).
Proof. intros [Hs Hw] [Hs' Hw'] H. split; [by apply StronglySorted_app|by apply Forall_app]. Qed.

(** The block that the search found, without which the rest is still a free list. *)
Lemma taken_free hi P g Y n : free_list lo hi (P ++ g :: Y) -> 1 <= n < g.2 -> free_list lo hi (P ++ (g.1, g.2 - n) :: Y).
Proof.
  intros H Hn. destruct (split_free _ _ _ _ H) as (HP & Hg & HY & HPg & HgY & HPY). apply free_list_app; [done| |].
  - destruct HY as [HsY HwY]. split; constructor; try done; [|unfold within in *; simpl; lia].
    eapply Forall_impl; [exact HgY|]. unfold before. simpl. intros; lia.
  - intros x y Hx [->|Hy]%elem_of_cons; [|by apply HPY]. rewrite Forall_forall in HPg. exact (HPg x Hx).
Qed.

(** The last header of a segment, pointed elsewhere. *)
Lemma seg_repoint hi m P e a b : free_list lo hi P -> last (ring P) = Some e -> 0 <= b < 2 ^ 64 -> seg m (ring P) a -> seg (st64 m e.1 b) (ring P) b.
Proof.
  intros HP He Hb Hs. apply last_Some in He as [X HX]. pose proof (ring_sorted _ _ HP) as Hsort. rewrite HX in *.
  assert (Hall : Forall (at_base hi) (X ++ [e])) by (apply Forall_forall; intros x Hx; rewrite <- HX in Hx; by eapply ring_at_base).
  apply seg_concat in Hs as [HsX (_ & Hsz & _)]. apply seg_concat. cbn [hd_addr seg] in *. destruct (st_ptr_hdr m e.1 b) as [-> ->].
  split; [|split_and!; [by apply u64_small|done|done]]. eapply only_seg; [apply only_ptr| |done].
  apply StronglySorted_app in Hsort as (Hx & _ & _). apply Forall_app in Hall as [HbX Hbe]. apply Forall_cons in Hbe as [Hbe _].
  apply Forall_forall. intros x Hin. specialize (Hx x e Hin ltac:(by left)). rewrite Forall_forall in HbX. specialize (HbX x Hin).
  unfold before, apart in *. destruct HbX as [(? & ? & ?)| ->], Hbe as [(? & ? & ?)| ->]; simpl in *; lia.
Qed.

(** What [malloc] gives out: [b] units from the free ones. *)
Definition gives hi (m m' : mem) l l' b : Prop :=
  heap m' l' hi /\ ld32 m' (b.1 + 8) = b.2 /\ within lo hi b /\ disjoint b l' /\
  (forall x, covers l x <-> covers l' x \/ b.1 <= x < b.1 + 16 * b.2) /\ keeps l m m'.

Lemma ring_app_seg m P g Y : seg m (ring (P ++ g :: Y)) base <-> seg m (ring P) g.1 /\ seg m (g :: Y) base.
Proof. unfold ring. rewrite app_comm_cons. apply seg_concat. Qed.

Lemma last_at_base hi P e : free_list lo hi P -> last (ring P) = Some e -> at_base hi e /\ e ∈ ring P.
Proof. intros HP He. assert (e ∈ ring P) by (by apply last_Some_elem_of). split; [by eapply ring_at_base|done]. Qed.

(** A store to [freep] of the end of a part of the ring. *)
Lemma heap_intro hi m l e k : lo <= hi <= 2 ^ 36 -> free_list lo hi l -> seg m (ring l) base -> ring l !! k = Some e -> heap (st64 m freep e.1) l hi.
Proof.
  intros Hhi Hl Hs He. pose proof (ring_at_base _ _ _ Hl (list_elem_of_lookup_2 _ _ _ He)) as Hb. split; [done|]. split.
  - eapply freep_seg; [|done]. apply Forall_forall. intros x Hx. by eapply ring_at_base.
  - exists k, e. split; [done|]. rewrite ld64_st64. apply u64_small. destruct Hb as [(? & ? & ?)| ->]; simpl; lia.
Qed.

Lemma ring_in P Z e : e ∈ ring P -> e ∈ ring (P ++ Z).
Proof. unfold ring. rewrite app_comm_cons. intros H. apply elem_of_app. by left. Qed.

Lemma ring_below hi P Z e y : free_list lo hi (P ++ Z) -> e ∈ ring P -> y ∈ Z -> e.1 + 16 <= y.1.
Proof.
  intros [Hs Hw] He Hy. apply Forall_app in Hw as [HwP HwZ]. rewrite Forall_forall in HwP, HwZ. destruct (HwZ y Hy) as (? & ? & ?).
  apply elem_of_cons in He as [->|He]; [simpl; lia|]. apply StronglySorted_app in Hs as (Hb & _). specialize (Hb e y He Hy). unfold before in Hb.
  destruct (HwP e He) as (? & ? & ?). lia.
Qed.

(** The bytes that a step of [malloc] writes are static or free. *)
Lemma take_keeps hi l e m m' v : free_list lo hi l -> e ∈ ring l -> keeps l m m' -> keeps l m (st64 (st64 m' e.1 v) freep e.1).
Proof.
  intros Hl Hin Hk x Hx Hn. rewrite ld8_st64_out by (intros H; apply Hn; by right). rewrite only_ptr; [by apply Hk|].
  intros H. destruct (at_base_static _ _ _ (ring_at_base _ _ _ Hl Hin) Hin x H); tauto.
Qed.

Lemma take_exact hi P g Y e k m : lo <= hi <= 2 ^ 36 -> free_list lo hi (P ++ g :: Y) -> seg m (ring (P ++ g :: Y)) base ->
  last (ring P) = Some e -> ring P !! k = Some e ->
  gives hi m (st64 (st64 m e.1 (ld64 m g.1)) freep e.1) (P ++ g :: Y) (P ++ Y) g.
Proof.
  intros Hhi Hl Hs He Hk. destruct (split_free _ _ _ _ Hl) as (HP & Hg & HY & HPg & HgY & HPY). destruct (last_at_base _ _ _ HP He) as [Hbe Hin].
  apply ring_app_seg in Hs as [HsP (Hg1 & Hg2 & HsY)]. rewrite Hg1.
  assert (Hbelow : forall y, y ∈ g :: Y -> apart e.1 16 y.1 16) by (intros y Hy; left; by eapply ring_below).
  assert (Hl' : free_list lo hi (P ++ Y)) by (by apply free_list_app).
  split_and!; [| |done| | |].
  - apply (heap_intro _ _ _ _ k); [done|done| |by apply (lookup_app_l_Some (ring P))]. unfold ring. rewrite app_comm_cons. apply seg_concat. split.
    + eapply seg_repoint; [done|done|by eapply hd_range, HY|done].
    + eapply only_seg; [apply only_ptr| |done]. apply Forall_forall. intros y Hy. apply Hbelow. by right.
  - destruct (freep_hdr hi (st64 m e.1 (hd_addr Y base)) g e.1 (or_introl Hg)) as [_ ->].
    destruct (only_hdr _ _ _ g.1 (only_ptr e.1 m (hd_addr Y base)) (Hbelow g ltac:(by left))) as [_ ->]. done.
  - apply Forall_app. split; [eapply Forall_impl; [exact HPg|]|eapply Forall_impl; [exact HgY|]]; unfold upto, before; intros; [right|left]; lia.
  - intros x. rewrite !covers_app, covers_cons. tauto.
  - eapply take_keeps; [done|by apply ring_in|done].
Qed.

Lemma take_split hi P g Y e k n m : lo <= hi <= 2 ^ 36 -> free_list lo hi (P ++ g :: Y) -> seg m (ring (P ++ g :: Y)) base ->
  e ∈ ring P -> ring P !! k = Some e -> 1 <= n < g.2 ->
  let a := g.1 + 16 * (g.2 - n) in
  gives hi m (st64 (st32 (st32 m (g.1 + 8) (g.2 - n)) (a + 8) n) freep e.1) (P ++ g :: Y) (P ++ (g.1, g.2 - n) :: Y) (a, n).
Proof.
  intros Hhi Hl Hs Hin Hk Hn a. destruct (split_free _ _ _ _ Hl) as (HP & Hg & HY & HPg & HgY & HPY). pose proof Hg as (Hg1 & Hg2 & Hg3).
  pose proof (taken_free _ _ _ _ _ Hl Hn) as Hl'. apply ring_app_seg in Hs as [HsP (Sg1 & Sg2 & HsY)].
  set (m1 := st32 m (g.1 + 8) (g.2 - n)). pose proof (only_size g.1 m (g.2 - n)) as O1. fold m1 in O1.
  set (m2 := st32 m1 (a + 8) n). pose proof (only_size a m1 n) as O2. fold m2 in O2.
  assert (HP' : Forall (fun x => apart g.1 16 x.1 16 /\ apart a 16 x.1 16) (ring P)).
  { apply Forall_forall. intros x Hx. pose proof (ring_below _ P (g :: Y) x g Hl Hx ltac:(by left)). unfold apart. lia. }
  assert (HY' : Forall (fun y => apart g.1 16 y.1 16 /\ apart a 16 y.1 16) Y).
  { eapply Forall_impl; [exact HgY|]. unfold before, apart. simpl. intros; lia. }
  apply Forall_and in HP' as [HPg' HPa], HY' as [HYg HYa].
  assert (Hag : apart a 16 g.1 16) by (unfold apart; lia). destruct (only_hdr _ _ _ _ O2 Hag) as [E1 E2].
  destruct (st_size_hdr m g.1 (g.2 - n)) as [E3 E4]. fold m1 in E3, E4.
  assert (Hb : within lo hi (a, n)) by (unfold within; simpl; lia).
  split_and!; [| |done| | |].
  - apply (heap_intro _ _ _ _ k); [done|done| |by apply (lookup_app_l_Some (ring P))]. apply ring_app_seg. cbn [fst snd seg]. rewrite E1, E2, E3, E4.
    split; [|split_and!; [done|apply u32_small; lia|]]; (eapply only_seg; [exact O2|done|]; eapply only_seg; [exact O1|done|done]).
  - destruct (freep_hdr hi m2 (a, n) e.1 (or_introl Hb)) as [_ E]. cbn [fst snd] in *. rewrite E. destruct (st_size_hdr m1 a n) as [_ E5]. fold m2 in E5.
    rewrite E5. apply u32_small. lia.
  - apply Forall_app. split; [eapply Forall_impl; [exact HPg|]|constructor; [|eapply Forall_impl; [exact HgY|]]];
      unfold upto, before; simpl; intros; [right|right|left]; lia.
  - intros x. rewrite !covers_app, !covers_cons. cbn [fst snd].
    assert (g.1 <= x < g.1 + 16 * g.2 <-> g.1 <= x < g.1 + 16 * (g.2 - n) \/ a <= x < a + 16 * n) by lia. tauto.
  - intros x Hx Hns. rewrite ld8_st64_out by (intros H; apply Hns; by right). rewrite covers_app, covers_cons in Hx. rewrite O2, O1; [done| |];
      intros H; apply Hx; right; left; lia.
Qed.

Lemma malloc_take hi n l j e g s : lo <= hi <= 2 ^ 36 -> free_list lo hi l -> seg (u_mem s) (ring l) base ->
  ring l !! j = Some e -> ring l !! succ l j = Some g -> 1 <= n <= g.2 ->
  exists l' b m', malloc_body freep bound n (e.1, g.1) s = Ok (inr (b.1 + 16)) (set_u_mem m' s) /\ b.2 = n /\ gives hi (u_mem s) m' l l' b.
Proof.
  intros Hhi Hl Hs He Hg Hn. destruct (seg_lookup _ _ _ _ _ Hs Hg) as [Hsz _].
  unfold succ in Hg. destruct (decide _) as [Hj|]; [|injection Hg as <-; simpl in Hn; lia]. cbn [ring lookup list_lookup] in Hg.
  set (P := take j l). set (Y := drop (S j) l). assert (El : l = P ++ g :: Y) by (symmetry; by apply take_drop_middle).
  assert (Hlen : length P = j) by (unfold P; rewrite length_take; apply lookup_lt_Some in Hg; lia).
  assert (Hk : ring P !! j = Some e). { change (ring P) with (take (S j) (ring l)). rewrite lookup_take_lt; [done|lia]. }
  assert (Hlast : last (ring P) = Some e) by (rewrite last_lookup; cbn [ring length pred]; by rewrite Hlen).
  rewrite El in Hl, Hs |- *. destruct (split_free _ _ _ _ Hl) as (HP & (Hg1 & Hg2 & Hg3) & _).
  unfold malloc_body, s_size, s_ptr, set_size, set_ptr. rewrite bind_gets, Hsz, (proj2 (Z.leb_le n g.2)) by lia.
  set (m := u_mem s) in *. destruct (Z.eqb_spec g.2 n) as [E|Hne].
  - exists (P ++ Y), g, (st64 (st64 m e.1 (ld64 m g.1)) freep e.1). split; [|split; [done|by eapply take_exact]].
    rewrite <- (Z.mul_1_r 16), <- header_at_small by lia. reflexivity.
  - set (a := g.1 + 16 * (g.2 - n)). set (m1 := st32 m (g.1 + 8) (g.2 - n)).
    exists (P ++ (g.1, g.2 - n) :: Y), (a, n), (st64 (st32 m1 (a + 8) n) freep e.1). split; [|split; [done|]].
    + assert (Ek : ld32 m1 (g.1 + 8) = g.2 - n) by (unfold m1; rewrite ld32_st32; apply u32_small; lia).
      trans (Ok (S := uproc) (inr (header_at (header_at g.1 (ld32 m1 (g.1 + 8))) 1) : Z * Z + Z)
        (set_u_mem (st64 (st32 m1 (header_at g.1 (ld32 m1 (g.1 + 8)) + 8) n) freep e.1) s)); [reflexivity|].
      rewrite Ek, (header_at_small g.1) by lia. fold a. rewrite (header_at_small a) by lia. done.
    + eapply take_split; [done|done|done|by eapply list_elem_of_lookup_2|done|lia].
Qed.

(** The search from [freep]: it finds a block, or all are too small. *)
Lemma malloc_pass hi n l s fuel : lo <= hi <= 2 ^ 36 -> heap (u_mem s) l hi -> 1 <= n -> (length (ring l) <= fuel)%nat ->
  let f := ld64 (u_mem s) freep in
  (exists l' b m', while fuel (malloc_body freep bound n) (f, ld64 (u_mem s) f) s = Ok (b.1 + 16) (set_u_mem m' s) /\
     b.2 = n /\ gives hi (u_mem s) m' l l' b) \/
  Forall (fun g => g.2 < n) l /\ exists fuel' p, (fuel <= fuel' + length (ring l))%nat /\
    while fuel (malloc_body freep bound n) (f, ld64 (u_mem s) f) s = while (S fuel') (malloc_body freep bound n) (p, f) s.
Proof.
  intros Hhi (Hl & Hs & k & f & Hk & Hf) Hn Hfuel. cbn zeta. rewrite Hf. destruct (ring_next _ _ _ _ Hs Hk) as (g & Hg & ->).
  pose proof (lookup_lt_Some _ _ _ Hk) as Hlt. pose proof (lookup_lt_Some _ _ _ Hg) as Hlt'. pose proof (distance_bound l _ _ Hlt' Hlt) as Hd.
  destruct (malloc_search hi n l k f s Hl Hs Hk Hf _ fuel (succ l k) k f g eq_refl ltac:(lia) eq_refl Hk Hg)
    as (fuel' & i & j & e' & g' & E & Hfu & Hij & He' & Hg' & H). rewrite E. destruct (Z.le_gt_cases n g'.2) as [Hbig|Hsmall].
  - left. rewrite <- Hij in Hg'. destruct (malloc_take hi n l j e' g' s Hhi Hl Hs He' Hg' ltac:(lia)) as (l' & b & m' & E1 & Hb & Hgv).
    exists l', b, m'. by rewrite (Ulib.while_S _ _ _ _ _ _ E1).
  - right. destruct H as [?|[-> Hall]]; [lia|]. rewrite Hk in Hg'. injection Hg' as <-. split; [|exists fuel', e'.1; split; [lia|done]].
    apply Forall_forall. intros x Hx. apply list_elem_of_lookup_1 in Hx as [i Hi]. apply (Hall (S i) x); [|done].
    assert (Hi' : (S i < length (ring l))%nat) by (apply lookup_lt_Some in Hi; simpl; lia).
    pose proof (distance_bound l (succ l k) (S i) Hlt' Hi'). assert (distance l (succ l k) k = (length (ring l) - 1)%nat); [|lia].
    unfold distance, succ in *. repeat destruct (decide _); lia.
Qed.

(** The round that asks for more. *)
Lemma malloc_more hi n l s (p : Z) : heap (u_mem s) l hi -> 1 <= n -> Forall (fun g => g.2 < n) l ->
  malloc_body freep bound n (p, ld64 (u_mem s) freep) s =
  (let! p := morecore freep bound n in if p =? 0 then ret (inr 0) else let! q := s_ptr p in ret (inl (p, q))) s.
Proof.
  intros (Hl & Hs & k & f & Hk & Hf) Hn Hsmall. unfold malloc_body, s_size, s_ptr. rewrite bind_gets, Hf.
  destruct (seg_lookup _ _ _ _ _ Hs Hk) as [-> _]. rewrite (proj2 (Z.leb_gt n f.2)); [by rewrite bind_gets, Hf, Z.eqb_refl|].
  destruct k as [|k]; [injection Hk as <-; simpl; lia|]. by apply (Forall_lookup_1 _ _ _ _ Hsmall Hk).
Qed.

Lemma free_list_length lo' hi l : lo' <= hi -> free_list lo' hi l -> 16 * Z.of_nat (length l) <= hi - lo'.
Proof.
  revert lo'. induction l as [|e l IH]; intros lo' Hlo [Hs Hw]; [simpl; lia|]. apply StronglySorted_inv in Hs as [Hs He].
  apply Forall_cons in Hw as [(? & ? & ?) Hw]. lapply (IH (e.1 + 16 * e.2)); [|lia]. intros H'. lapply H'; [simpl; lia|]. split; [done|].
  apply Forall_forall. intros f Hf. rewrite Forall_forall in He, Hw. specialize (He f Hf). destruct (Hw f Hf) as (? & ? & ?).
  unfold before in He. unfold within. lia.
Qed.

Lemma free_list_grow hi hi' l : hi <= hi' -> free_list lo hi l -> free_list lo hi' l.
Proof. intros Hhi [Hs Hw]. split; [done|]. eapply Forall_impl; [exact Hw|]. unfold within. intros; lia. Qed.

(** A header written past the heap. *)
Lemma heap_grow hi hi' m m' l : lo <= hi <= hi' -> only hi m m' -> heap m l hi -> heap m' l hi'.
Proof.
  intros Hhi O (Hl & Hs & i & e & Hi & He). split; [eapply free_list_grow; [|done]; lia|]. split.
  - eapply only_seg; [exact O| |done]. apply Forall_forall. intros f Hf. unfold apart.
    destruct (ring_at_base _ _ _ Hl Hf) as [(? & ? & ?)| ->]; simpl; lia.
  - exists i, e. split; [done|]. rewrite <- He. apply ld64_ext. intros x Hx. apply O. lia.
Qed.

Lemma heap_freep hi m l : heap m l hi -> 0 < ld64 m freep.
Proof. intros (Hl & _ & i & e & Hi & ->). destruct (ring_at_base _ _ _ Hl (list_elem_of_lookup_2 _ _ _ Hi)) as [(? & ? & ?)| ->]; simpl; lia. Qed.

Context {W : Type} `{!Unix W} `{!Brk W}.

Lemma drive_call (c : syscall) s (w : W) r w' : (forall n, c <> Exit n) -> syscalls w c = (r, w') ->
  drive (call c s) w = Returned r.1 (set_u_answer r (set_u_call c s)) w'.
Proof. intros Hc E. unfold call. assert (E1 := drive_ecall c s w Hc). rewrite E in E1. by urun E1. Qed.

Lemma sbrk_ok n s (w : W) : 0 <= n < 2 ^ 31 -> lo <= brk w <= 2 ^ 36 ->
  exists r s' w', drive (sbrk n s) w = Returned r s' w' /\ u_mem s' = u_mem s /\
    (r = brk w /\ brk w' = brk w + n /\ brk w' <= 2 ^ 36 \/ r = u64 (-1) /\ brk w' = brk w).
Proof.
  intros Hn Hw. destruct (br_sbrk w n ltac:(lia)) as (r & w' & E & H). unfold sbrk. rewrite s32_small by lia.
  assert (E1 := drive_call (Sbrk n) s w _ _ ltac:(done) E). urun E1. eexists _, _, w'. split; [done|]. split; [done|].
  cbn [fst]. destruct H as [(-> & H1 & H2)|[-> H]]; [left|by right]. by rewrite u64_small by lia.
Qed.

Lemma morecore_ok n l s (w : W) : 1 <= n -> 16 * n < 2 ^ 31 -> lo <= brk w <= 2 ^ 36 -> heap (u_mem s) l (brk w) -> (length (ring l) <= bound)%nat ->
  exists r s' w', drive (morecore freep bound n s) w = Returned r s' w' /\
    (r = 0 /\ u_mem s' = u_mem s /\ brk w' = brk w \/
     r <> 0 /\ exists l', brk w' = brk w + 16 * Z.max n 4096 /\ brk w' <= 2 ^ 36 /\ ld64 (u_mem s') freep = r /\ heap (u_mem s') l' (brk w') /\
       keeps l' (u_mem s) (u_mem s') /\ (forall x, covers l' x <-> covers l x \/ brk w <= x < brk w') /\ Exists (fun g => n <= g.2) l').
Proof.
  intros Hn1 Hn Hw Hheap Hb. unfold morecore. replace (if n <? 4096 then 4096 else n) with (Z.max n 4096) by (destruct (Z.ltb_spec n 4096); lia).
  set (nu := Z.max n 4096). destruct (sbrk_ok (nu * HEADER) s w) as (r & s1 & w1 & E1 & M1 & H); [unfold HEADER; lia|done|]. urun E1.
  destruct H as [(-> & Hbrk & Hmax)|[-> Hbrk]]; [|rewrite Z.eqb_refl; eexists 0, s1, w1; split; [done|by left]].
  unfold HEADER in Hbrk. rewrite (proj2 (Z.eqb_neq _ _)) by (change (u64 (-1)) with (2 ^ 64 - 1); lia).
  set (e := (brk w, nu)). set (s2 := set_u_mem (st32 (u_mem s1) (e.1 + 8) e.2) s1).
  assert (E2 : set_size (brk w) nu s1 = Ok tt s2) by done. urun E2.
  assert (O : only (brk w) (u_mem s) (u_mem s2)) by (rewrite <- M1; apply (only_size e.1)).
  assert (He : within lo (brk w1) e) by (unfold within; simpl; lia).
  destruct (free_ok (brk w1) l e s2) as (l' & m' & E3 & Hheap' & Hk & Hc & Hbig); [lia| |done| |simpl|done|].
  { eapply heap_grow; [|exact O|done]. lia. }
  { destruct Hheap as ([_ Hw'] & _). eapply Forall_impl; [exact Hw'|]. intros f (? & ? & ?). right. unfold upto. simpl. lia. }
  { rewrite ld32_st32. apply u32_small. simpl. lia. }
  rewrite header_at_small, Z.mul_1_r by lia. urun E3. pose proof (heap_freep _ _ _ Hheap') as Hfp.
  exists (ld64 m' freep), (set_u_mem m' s2), w1. split; [done|]. right. split; [lia|]. exists l'. cbn [u_mem set_u_mem].
  assert (Hc' : forall x, covers l' x <-> covers l x \/ brk w <= x < brk w1).
  { intros x. rewrite Hc. cbn [fst snd e]. replace (brk w1) with (brk w + 16 * nu) by lia. done. }
  split_and!; [lia|done|done|done| |done|].
  - intros x Hx Hns. rewrite (Hk x Hx Hns). apply O. rewrite Hc' in Hx. intros H. apply Hx. right. lia.
  - eapply Exists_impl; [exact Hbig|]. simpl. intros g Hg. lia.
Qed.

(** Before the first call, or with a heap. *)
Definition ready (m : mem) l (hi : Z) : Prop := ld64 m freep = 0 /\ l = [] \/ heap m l hi.

Lemma init_ok s hi l : lo <= hi <= 2 ^ 36 -> ready (u_mem s) l hi ->
  exists s', (if ld64 (u_mem s) freep =? 0 then set_ptr freep base ;; set_ptr base base ;; set_size base 0 ;; ret base
      else ret (ld64 (u_mem s) freep)) s = Ok (ld64 (u_mem s') freep) s' /\
    heap (u_mem s') l hi /\ keeps l (u_mem s) (u_mem s').
Proof.
  intros Hhi [[Hz ->]|Hh].
  2: { pose proof (heap_freep _ _ _ Hh). rewrite (proj2 (Z.eqb_neq _ _)) by lia. by exists s. }
  rewrite Hz. cbn [Z.eqb]. set (m1 := st64 (u_mem s) freep base). set (m2 := st64 m1 base base). set (m3 := st32 m2 (base + 8) 0).
  pose proof (only_ptr base m1 base) as O1. pose proof (only_size base m2 0) as O2. fold m2 in O1. fold m3 in O2. unfold apart in freep_range.
  assert (Ef : ld64 m3 freep = base).
  { trans (ld64 m1 freep); [apply ld64_ext; intros i Hi; rewrite O2, O1 by lia; done|]. unfold m1. rewrite ld64_st64. apply u64_small. lia. }
  exists (set_u_mem m3 s). cbn [u_mem set_u_mem]. rewrite Ef. split; [done|]. split.
  - split; [by repeat constructor|]. split; [|by exists 0%nat, (base, 0)]. cbn [ring seg hd_addr fst snd]. destruct (st_size_hdr m2 base 0) as [E1 E2].
    fold m3 in E1, E2. rewrite E1, E2. unfold m2. rewrite ld64_st64. split_and!; [apply u64_small; lia|done|done].
  - intros x _ Hns. unfold static in Hns. rewrite O2, O1 by lia. apply ld8_st64_out. lia.
Qed.

Lemma units_range nb : 0 <= nb -> 1 <= (nb + HEADER - 1) / HEADER + 1.
Proof. intros H. unfold HEADER. pose proof (Z.div_pos (nb + 16 - 1) 16). lia. Qed.

Lemma keeps_then l l' m m1 m2 : (forall x, covers l x -> covers l' x) -> keeps l m m1 -> keeps l' m1 m2 -> keeps l' m m2.
Proof. intros Hc H1 H2 x Hx Hn. rewrite H2, H1 by auto. done. Qed.

Definition units (nbytes : Z) : Z := (nbytes + HEADER - 1) / HEADER + 1.

Lemma malloc_ok nb l s (w : W) : 0 <= nb -> 16 * units nb < 2 ^ 31 -> lo <= brk w <= 2 ^ 36 -> ready (u_mem s) l (brk w) ->
  brk w + 16 * Z.max (units nb) 4096 - lo + 2 <= Z.of_nat bound ->
  exists r s' w', drive (malloc base freep bound nb s) w = Returned r s' w' /\ brk w <= brk w' <= 2 ^ 36 /\
    (r = 0 /\ brk w' = brk w /\ heap (u_mem s') l (brk w) /\ keeps l (u_mem s) (u_mem s') \/
     exists l1 l' b, r = b.1 + 16 /\ b.2 = units nb /\ (forall x, covers l1 x <-> covers l x \/ brk w <= x < brk w') /\
       gives (brk w') (u_mem s) (u_mem s') l1 l' b).
Proof.
  intros Hnb Hn Hw Hr Hb. unfold malloc. fold (units nb). set (n := units nb) in *. assert (Hn1 : 1 <= n) by (by apply units_range). clearbody n.
  rewrite u32_small by lia.
  destruct (init_ok s (brk w) l Hw Hr) as (s0 & E0 & Hh & Hk0). unfold s_ptr at 1. rewrite bind_gets. urun E0.
  unfold s_ptr at 1. rewrite bind_gets. pose proof (free_list_length _ _ _ (proj1 Hw) (proj1 Hh)) as Hlen.
  destruct (malloc_pass (brk w) n l s0 bound Hw Hh Hn1 ltac:(simpl; lia)) as [(l' & b & m' & E1 & Hbn & Hgv)|(Hsmall & fuel & p & Hfuel & E1)].
  { rewrite E1. exists (b.1 + 16), (set_u_mem m' s0), w. split; [done|]. split; [lia|]. right. exists l, l', b. split_and!; [done|done|intros x; split; [by left|by intros [?|?]; [|lia] ]|].
    destruct Hgv as (? & ? & ? & ? & ? & Hk). split_and!; try done. by eapply keeps_then. }
  rewrite E1. destruct (morecore_ok n l s0 w Hn1 Hn Hw Hh ltac:(simpl; lia)) as (r & s1 & w1 & E2 & H).
  pose proof (malloc_more _ n l s0 p Hh Hn1 Hsmall) as E3. destruct H as [(-> & M1 & Hbrk)|(Hr0 & l1 & Hbrk & Hmax & Hfp & Hh1 & Hk1 & Hc1 & Hbig)].
  { assert (E4 : drive (malloc_body freep bound n (p, ld64 (u_mem s0) freep) s0) w = Returned (inr 0) s1 w1) by (rewrite E3; by urun E2).
    rewrite (Ulib.drive_while _ _ _ _ _ _ _ _ E4). exists 0, s1, w1. split; [done|]. split; [lia|]. left. rewrite M1. done. }
  assert (E4 : drive (malloc_body freep bound n (p, ld64 (u_mem s0) freep) s0) w = Returned (inl (r, ld64 (u_mem s1) r)) s1 w1).
  { rewrite E3. urun E2. by rewrite (proj2 (Z.eqb_neq _ _)) by done. }
  rewrite (Ulib.drive_while _ _ _ _ _ _ _ _ E4). rewrite <- Hfp. assert (Hw1 : lo <= brk w1 <= 2 ^ 36) by (clear - Hbrk Hw Hmax; lia).
  pose proof (free_list_length lo (brk w1) l1 (proj1 Hw1) (proj1 Hh1)) as Hlen1.
  assert (Hfu : (length (ring l1) <= fuel)%nat) by (cbn [ring length] in *; clear - Hb Hbrk Hlen Hlen1 Hfuel Hw; lia).
  destruct (malloc_pass (brk w1) n l1 s1 fuel Hw1 Hh1 Hn1 Hfu) as [(l' & b & m' & E5 & Hbn & Hgv)|(Hsmall1 & _)].
  - rewrite E5. exists (b.1 + 16), (set_u_mem m' s1), w1. split; [done|]. split; [clear - Hbrk Hw1; lia|]. right. exists l1, l', b. split_and!; [done|done|done|].
    destruct Hgv as (? & ? & ? & ? & ? & Hk). split_and!; try done. eapply keeps_then; [done| |done]. eapply keeps_then; [|done|done].
    intros x Hx. apply Hc1. by left.
  - exfalso. apply Exists_exists in Hbig as (g & Hg & Hle). rewrite Forall_forall in Hsmall1. specialize (Hsmall1 g Hg). simpl in *. lia.
Qed.

(** ** The allocator and its client *)

(** The bytes of a block given out as [p], and of all those in use. *)
Definition bytes_of_block (p n x : Z) : Prop := p - 16 <= x < p - 16 + 16 * n.

Definition used (A : gmap Z Z) (x : Z) : Prop := exists p n, A !! p = Some n /\ bytes_of_block p n x.

(** [A] maps each pointer in use to its units.  The blocks in use have their sizes
    in their headers and are apart from each other and from the free ones, and
    every byte of the heap is free or in use. *)
Record allocator (m : mem) (A : gmap Z Z) (hi : Z) l : Prop := {
  al_range : lo <= hi <= 2 ^ 36;
  al_ready : ready m l hi;
  al_start : ld64 m freep = 0 -> A = ∅;
  al_size : forall p n, A !! p = Some n -> within lo hi (p - 16, n) /\ ld32 m (p - 16 + 8) = n;
  al_free : forall x, used A x -> ~ covers l x;
  al_apart : forall p q n k, A !! p = Some n -> A !! q = Some k -> p <> q -> apart (p - 16) (16 * n) (q - 16) (16 * k);
  al_full : forall x, lo <= x < hi -> covers l x \/ used A x
}.

Lemma used_not_static m A hi l x : allocator m A hi l -> used A x -> ~ static x.
Proof. intros H (p & n & Hp & Hx) Hs. destruct (al_size _ _ _ _ H p n Hp) as [(? & ? & ?) _]. unfold static, bytes_of_block in *. simpl in *. lia. Qed.

Lemma ready_free_list m l hi : ready m l hi -> free_list lo hi l.
Proof. intros [[_ ->]|(H & _)]; [by repeat constructor|done]. Qed.

Lemma covers_range hi l x : Forall (within lo hi) l -> covers l x -> lo <= x < hi.
Proof. intros Hw Hx. apply Exists_exists in Hx as (e & He & Hx). rewrite Forall_forall in Hw. destruct (Hw e He) as (? & ? & ?). lia. Qed.

(** The headers of blocks in use stay when their bytes stay. *)
Lemma size_kept m m' (A : gmap Z Z) p n : (forall x, used A x -> ld8 m' x = ld8 m x) -> A !! p = Some n -> 1 <= n ->
  ld32 m' (p - 16 + 8) = ld32 m (p - 16 + 8).
Proof. intros H Hp Hn. apply ld32_ext. intros i Hi. apply H. exists p, n. split; [done|]. unfold bytes_of_block. lia. Qed.

Lemma used_insert (A : gmap Z Z) p n x : A !! p = None -> used (<[p := n]> A) x <-> bytes_of_block p n x \/ used A x.
Proof.
  intros Hp. split.
  - intros (q & k & Hq & Hx). apply lookup_insert_Some in Hq as [[-> ->]|[Hne Hq]]; [by left|right; by exists q, k].
  - intros [Hx|(q & k & Hq & Hx)]; [exists p, n|exists q, k]; (split; [|done]); [by rewrite lookup_insert_eq|].
    rewrite lookup_insert_ne; [done|]. intros ->. by rewrite Hp in Hq.
Qed.

(** Two blocks that share no byte. *)
Lemma apart_bytes a n b k : 1 <= n -> 1 <= k -> (forall x, a <= x < a + 16 * n -> ~ (b <= x < b + 16 * k)) -> apart a (16 * n) b (16 * k).
Proof.
  intros Hn Hk H. unfold apart. destruct (Z.le_gt_cases (a + 16 * n) b); [by left|]. destruct (Z.le_gt_cases (b + 16 * k) a); [by right|].
  destruct (H (Z.max a b)); lia.
Qed.

Lemma allocator_insert m m' A hi hi' l l1 l' b : allocator m A hi l -> hi <= hi' <= 2 ^ 36 ->
  (forall x, covers l1 x <-> covers l x \/ hi <= x < hi') -> (forall x, covers l1 x <-> covers l' x \/ b.1 <= x < b.1 + 16 * b.2) ->
  heap m' l' hi' -> ld32 m' (b.1 + 8) = b.2 -> within lo hi' b -> disjoint b l' ->
  (forall x, used A x -> ld8 m' x = ld8 m x) -> (forall x, used A x -> ~ covers l1 x) ->
  b.1 + 16 <> 0 /\ A !! (b.1 + 16) = None /\ allocator m' (<[b.1 + 16 := b.2]> A) hi' l'.
Proof.
  intros [H1 H2 _ H3 H4 H5 H6] Hhi Hc1 Hc Hh Hsz Hb Hd Hkeep Hold. pose proof Hb as (Hb1 & Hb2 & Hb3).
  assert (Hfresh : A !! (b.1 + 16) = None).
  { destruct (A !! (b.1 + 16)) as [k|] eqn:E; [|done]. destruct (H3 _ _ E) as [(_ & Hk & _) _]. simpl in Hk. destruct (Hold b.1).
    - exists (b.1 + 16), k. split; [done|]. unfold bytes_of_block. lia.
    - apply Hc. right. lia. }
  assert (Hblk : forall x, bytes_of_block (b.1 + 16) b.2 x <-> b.1 <= x < b.1 + 16 * b.2) by (unfold bytes_of_block; lia).
  assert (Hnew : forall q k, A !! q = Some k -> apart b.1 (16 * b.2) (q - 16) (16 * k)).
  { intros q k Hq. apply apart_bytes; [lia|by destruct (H3 _ _ Hq) as [(_ & ? & _) _]|]. intros x Hx Hx'. destruct (Hold x); [by exists q, k|].
    apply Hc. by right. }
  split; [lia|]. split; [done|]. split.
  - lia.
  - by right.
  - pose proof (heap_freep _ _ _ Hh). lia.
  - intros p n Hp. apply lookup_insert_Some in Hp as [[<- <-]|[Hne Hp]].
    + replace (b.1 + 16 - 16) with b.1 by lia. by destruct b.
    + destruct (H3 p n Hp) as [(? & ? & ?) Hs]. simpl in *. split; [unfold within; simpl; lia|]. by rewrite (size_kept _ _ _ _ _ Hkeep Hp).
  - intros x Hx Hcx. apply used_insert in Hx as [Hx|Hx]; [| |done].
    + apply Hblk in Hx. apply Exists_exists in Hcx as (e & He & Hxe). unfold disjoint in Hd. rewrite Forall_forall in Hd.
      destruct (Hd e He); unfold upto in *; lia.
    + apply (Hold x Hx), Hc. by left.
  - intros p q n k Hp Hq Hne. apply lookup_insert_Some in Hp as [[<- <-]|[Hnp Hp]], Hq as [[<- <-]|[Hnq Hq]]; [done| | |by apply H5].
    + replace (b.1 + 16 - 16) with b.1 by lia. by apply Hnew.
    + replace (b.1 + 16 - 16) with b.1 by lia. specialize (Hnew _ _ Hp). unfold apart in *. lia.
  - intros x Hx. rewrite used_insert, Hblk by done. destruct (Z.lt_ge_cases x hi) as [Hlt|Hge].
    + destruct (H6 x ltac:(lia)) as [Hcx|Hu]; [|by right; right]. assert (covers l1 x) as Hl1 by (apply Hc1; by left). apply Hc in Hl1. tauto.
    + assert (covers l1 x) as Hl1 by (apply Hc1; right; lia). apply Hc in Hl1. tauto.
Qed.

Lemma malloc_safe nb A l s (w : W) : 0 <= nb -> 16 * units nb < 2 ^ 31 -> allocator (u_mem s) A (brk w) l ->
  brk w + 16 * Z.max (units nb) 4096 - lo + 2 <= Z.of_nat bound ->
  exists r s' w' l', drive (malloc base freep bound nb s) w = Returned r s' w' /\ (forall x, used A x -> ld8 (u_mem s') x = ld8 (u_mem s) x) /\
    (r = 0 /\ allocator (u_mem s') A (brk w') l' \/
     r <> 0 /\ A !! r = None /\ allocator (u_mem s') (<[r := units nb]> A) (brk w') l').
Proof.
  intros Hnb Hn HA Hb. destruct (malloc_ok nb l s w Hnb Hn (al_range _ _ _ _ HA) (al_ready _ _ _ _ HA) Hb) as (r & s' & w' & E & Hbrk & H).
  exists r, s', w'. destruct H as [(-> & Hbrk' & Hh & Hk)|(l1 & l' & b & -> & Hbn & Hc1 & Hgv)].
  - exists l. split; [done|]. assert (Hkeep : forall x, used A x -> ld8 (u_mem s') x = ld8 (u_mem s) x).
    { intros x Hx. apply Hk; [by apply (al_free _ _ _ _ HA)|by eapply used_not_static]. }
    split; [done|]. left. split; [done|]. rewrite Hbrk'. destruct HA as [H1 H2 _ H3 H4 H5 H6]. split; try done; [by right| |].
    { pose proof (heap_freep _ _ _ Hh). lia. }
    intros p n Hp. destruct (H3 p n Hp) as [Hw Hsz]. split; [done|]. rewrite (size_kept _ _ _ _ _ Hkeep Hp); [done|by destruct Hw as (? & ? & ?)].
  - exists l'. split; [done|]. destruct Hgv as (Hh & Hsz & Hb' & Hd & Hc & Hk). pose proof HA as [H1 H2 _ H3 H4 H5 H6].
    assert (Hold : forall x, used A x -> ~ covers l1 x).
    { intros x Hx Hc'. apply Hc1 in Hc' as [Hc'|Hc']; [by eapply H4|]. destruct Hx as (p & n & Hp & Hx).
      destruct (H3 p n Hp) as [(? & ? & ?) _]. unfold bytes_of_block in Hx. simpl in *. lia. }
    assert (Hkeep : forall x, used A x -> ld8 (u_mem s') x = ld8 (u_mem s) x).
    { intros x Hx. apply Hk; [by apply Hold|by eapply used_not_static]. }
    split; [done|]. right. rewrite <- Hbn. apply (allocator_insert _ _ _ _ _ _ _ _ _ HA Hbrk Hc1 Hc Hh Hsz Hb' Hd Hkeep Hold).
Qed.

Lemma used_delete (A : gmap Z Z) p n x : A !! p = Some n -> used A x <-> bytes_of_block p n x \/ used (delete p A) x.
Proof. intros Hp. rewrite <- (insert_delete_id A p n Hp) at 1. apply used_insert, lookup_delete_eq. Qed.

(** A block in use is apart from the free ones. *)
Lemma used_disjoint m A hi l p n : allocator m A hi l -> A !! p = Some n -> disjoint (p - 16, n) l.
Proof.
  intros HA Hp. destruct (al_size _ _ _ _ HA p n Hp) as [(_ & Hn & _) _]. simpl in Hn. pose proof (ready_free_list _ _ _ (al_ready _ _ _ _ HA)) as [_ Hw].
  apply Forall_forall. intros e He. rewrite Forall_forall in Hw. destruct (Hw e He) as (_ & He2 & _).
  destruct (apart_bytes (p - 16) n e.1 e.2 Hn He2) as [H|H]; [|by left|by right]. intros x Hx Hx'. apply (al_free _ _ _ _ HA x); [by exists p, n|].
  apply Exists_exists. by exists e.
Qed.

Lemma free_safe A l s hi p n : allocator (u_mem s) A hi l -> A !! p = Some n -> hi - lo + 2 <= Z.of_nat bound ->
  exists s' l', free freep bound p s = Ok tt s' /\ allocator (u_mem s') (delete p A) hi l' /\
    (forall x, covers l' x <-> covers l x \/ bytes_of_block p n x) /\ (forall x, used (delete p A) x -> ld8 (u_mem s') x = ld8 (u_mem s) x).
Proof.
  intros HA Hp Hb. pose proof HA as [H1 H2 H2' H3 H4 H5 H6]. destruct (H3 p n Hp) as [Hw Hsz].
  destruct H2 as [[Hz _]|Hh]; [rewrite (H2' Hz) in Hp; done|]. pose proof (free_list_length lo hi l (proj1 H1) (proj1 Hh)) as Hlen.
  destruct (free_ok hi l (p - 16, n) s H1 Hh Hw (used_disjoint _ _ _ _ _ _ HA Hp) Hsz ltac:(cbn [ring length]; lia))
    as (l' & m' & E & Hh' & Hk & Hc & _). cbn [fst snd] in *. replace (p - 16 + 16) with p in E by lia.
  exists (set_u_mem m' s), l'. cbn [u_mem set_u_mem]. split; [done|]. change (forall x, covers l' x <-> covers l x \/ bytes_of_block p n x) in Hc.
  assert (Hsub : forall x, used (delete p A) x -> used A x) by (intros x Hx; apply (used_delete A p n); [done|by right]).
  assert (Hnew : forall x, used (delete p A) x -> ~ covers l' x).
  { intros x Hx Hcx. apply Hc in Hcx as [Hcx|Hcx]; [by apply (H4 x (Hsub x Hx))|]. destruct Hx as (q & k & Hq & Hx).
    apply lookup_delete_Some in Hq as [Hne Hq]. specialize (H5 p q n k Hp Hq Hne). unfold apart, bytes_of_block in *. lia. }
  assert (Hkeep : forall x, used (delete p A) x -> ld8 m' x = ld8 (u_mem s) x).
  { intros x Hx. apply Hk; [by apply Hnew|eapply used_not_static; [exact HA|by apply Hsub]]. }
  split; [|done]. split; [done|by right| | |done| |].
  - pose proof (heap_freep _ _ _ Hh'). lia.
  - intros q k Hq. pose proof Hq as [_ Hq']%lookup_delete_Some. destruct (H3 q k Hq') as [Hwq Hsq]. split; [done|].
    rewrite (size_kept _ _ _ _ _ Hkeep Hq); [done|by destruct Hwq as (_ & ? & _)].
  - intros q r k j Hq Hr. apply lookup_delete_Some in Hq as [_ Hq], Hr as [_ Hr]. by apply H5.
  - intros x Hx. rewrite Hc. destruct (H6 x Hx) as [?|Hu]; [tauto|]. apply (used_delete A p n x Hp) in Hu. tauto.
Qed.

(** With nothing in use the heap is one free block. *)
Lemma all_free m hi l : allocator m ∅ hi l -> lo < hi -> exists n, l = [(lo, n)] /\ lo + 16 * n = hi.
Proof.
  intros [H1 H2 _ _ _ _ H6] Hlt. destruct (ready_free_list _ _ _ H2) as [Hs Hw].
  assert (Hc : forall x, lo <= x < hi -> exists e, e ∈ l /\ e.1 <= x < e.1 + 16 * e.2).
  { intros x Hx. destruct (H6 x Hx) as [Hc|(p & n & Hp & _)]; [by apply Exists_exists in Hc|done]. }
  destruct l as [|e l]; [destruct (Hc lo ltac:(lia)) as (e & He & _); by apply elem_of_nil in He|].
  apply StronglySorted_inv in Hs as [_ He]. apply Forall_cons in Hw as [(? & ? & ?) Hw]. rewrite Forall_forall in He, Hw.
  assert (He1 : e.1 = lo).
  { destruct (Hc lo ltac:(lia)) as (f & Hf & Hx). apply elem_of_cons in Hf as [->|Hf]; [lia|]. specialize (He f Hf). unfold before in He. lia. }
  assert (He2 : e.1 + 16 * e.2 = hi).
  { destruct (Z.lt_ge_cases (e.1 + 16 * e.2) hi) as [Hx|]; [|lia]. destruct (Hc (e.1 + 16 * e.2) ltac:(lia)) as (f & Hf & Hx').
    apply elem_of_cons in Hf as [->|Hf]; [lia|]. specialize (He f Hf). unfold before in He. lia. }
  exists e.2. split; [|lia]. destruct l as [|f l]; [by destruct e; simpl in He1; subst|].
  specialize (He f ltac:(by left)). destruct (Hw f ltac:(by left)) as (? & ? & ?). unfold before in He. lia.
Qed.

End Heap.

(** ** The theorems *)

(** The static variables are below the heap. *)
Definition layout (base freep lo : Z) : Prop := (0 < base /\ base + 16 <= lo) /\ (0 <= freep /\ freep + 8 <= lo /\ apart base 16 freep 8).


(** C26: [free] gives a block back.  It returns, exactly the bytes of the block become
    free, the other blocks in use keep their contents and the invariant holds; and
    when no block is in use any more the whole heap is one free block again. *)
Theorem free_correct (base freep lo : Z) (bound : nat) (A : gmap Z Z) (l : list (Z * Z)) (s : uproc) (hi p n : Z)
    (HL : layout base freep lo) (HA : allocator base freep lo (u_mem s) A hi l) (Hp : A !! p = Some n) (Hb : hi - lo + 2 <= Z.of_nat bound) :
  exists s' l', free freep bound p s = Ok tt s' /\ allocator base freep lo (u_mem s') (delete p A) hi l' /\
    (forall x, covers l' x <-> covers l x \/ bytes_of_block p n x) /\ (forall x, used (delete p A) x -> ld8 (u_mem s') x = ld8 (u_mem s) x) /\
    (delete p A = ∅ -> exists k, l' = [(lo, k)] /\ lo + 16 * k = hi).
Proof.
  destruct HL as [H1 H2]. destruct (free_safe base freep lo bound H1 H2 A l s hi p n HA Hp Hb) as (s' & l' & E & HA' & Hc & Hk).
  exists s', l'. split_and!; try done. intros Hd. rewrite Hd in HA'. eapply all_free; [done..|].
  destruct (al_size _ _ _ _ _ _ _ HA p n Hp) as [(? & ? & ?) _]. simpl in *. lia.
Qed.

(** ** A kernel with 64 GB *)

Record arena := Arena { ar_brk : Z }.

#[export] Instance arena_unix : Unix arena := fun w c =>
  match c with
  | Sbrk n => if ar_brk w + n <=? 2 ^ 36 then ((ar_brk w, []), Arena (ar_brk w + n)) else ((-1, []), w)
  | _ => ((0, []), w)
  end.

#[export] Program Instance arena_brk : Brk arena := {| brk := ar_brk |}.
Next Obligation.
  intros w n Hn. unfold syscalls, arena_unix. destruct (Z.leb_spec (ar_brk w + n) (2 ^ 36)); eexists _, _; (split; [done|]); [by left|by right].
Qed.

(** A process that has not allocated yet. *)
Definition fresh : uproc := Uproc ∅ Getpid (0, []).

Lemma fresh_layout : layout 4096 4112 8192.
Proof. unfold layout, apart. lia. Qed.

Lemma fresh_allocator : allocator 4096 4112 8192 (u_mem fresh) ∅ (brk (Arena 8192)) [].
Proof.
  split; [simpl; lia|by left|done|done| |done|simpl; lia]. intros x (p & n & Hp & _). done.
Qed.


Lemma free_correct_witness :
  exists r s1 w1 s2 k, drive (malloc 4096 4112 (Z.to_nat 100000) 100 fresh) (Arena 8192) = Returned r s1 w1 /\
    free 4112 (Z.to_nat 100000) r s1 = Ok tt s2 /\ allocator 4096 4112 8192 (u_mem s2) ∅ (brk w1) [(8192, k)].
Proof.
  destruct (malloc_safe 4096 4112 8192 (Z.to_nat 100000) (proj1 fresh_layout) (proj2 fresh_layout) 100 ∅ [] fresh (Arena 8192)
    ltac:(lia) ltac:(vm_compute; reflexivity) fresh_allocator ltac:(vm_compute; discriminate)) as (r & s1 & w1 & l1 & E & _ & H).
  assert (E0 : match drive (malloc 4096 4112 (Z.to_nat 100000) 100 fresh) (Arena 8192) with Returned r _ w => (r, ar_brk w) | _ => (0, 0) end = (73616, 73728))
    by (vm_compute; reflexivity).
  rewrite E in E0. injection E0 as -> Hw. destruct H as [[H _]|(_ & _ & H)]; [discriminate H|].
  destruct (free_correct 4096 4112 8192 (Z.to_nat 100000) (<[73616 := units 100]> ∅) l1 s1 (brk w1) 73616 (units 100)) as (s2 & l2 & E2 & HA & _ & _ & Hall).
  - exact fresh_layout.
  - exact H.
  - apply lookup_insert_eq.
  - cbn [brk arena_brk]. rewrite Hw. vm_compute. discriminate.
  - rewrite delete_insert_id in HA, Hall by done. destruct (Hall eq_refl) as (k & -> & _). exists 73616, s1, w1, s2, k. split; [exact E|]. split; [exact E2|exact HA].
Defined.


End Umalloc.
