(* ===== verification/Grep.v ===== *)
(** * [user/grep.c]

    The regular expression matcher, shown to decide whether some part of the text
    is in the language of the pattern, and [grep], which writes exactly the
    lines that match, however its input is split into reads. *)

From S2P Require Import Prelude Riscv Memory CString Sys Spinlock Uart Printf User UserPrintf.

Import Ulib UPrintf.

(** ** The matcher *)

Definition STAR : byte := Byte.x2a.

Definition DOT : byte := Byte.x2e.

Definition CARET : byte := Byte.x5e.

Definition DOLLAR : byte := Byte.x24.

Definition NL : byte := Byte.x0a.

(** [matchhere] and [matchstar] on strings of the process, to a depth of [fuel]
    calls and rounds. *)
Fixpoint matchhere (fuel : nat) (m : mem) (re text : Z) : option bool :=
  match fuel with
  | O => None
  | S fuel =>
      if Byte.eqb (ld8 m re) Byte.x00 then Some true
      else if Byte.eqb (ld8 m (re + 1)) STAR then matchstar fuel m (ld8 m re) (re + 2) text
      else if Byte.eqb (ld8 m re) DOLLAR && Byte.eqb (ld8 m (re + 1)) Byte.x00 then Some (Byte.eqb (ld8 m text) Byte.x00)
      else if negb (Byte.eqb (ld8 m text) Byte.x00) && (Byte.eqb (ld8 m re) DOT || Byte.eqb (ld8 m re) (ld8 m text))
      then matchhere fuel m (re + 1) (text + 1)
      else Some false
  end
with matchstar (fuel : nat) (m : mem) (c : byte) (re text : Z) : option bool :=
  match fuel with
  | O => None
  | S fuel =>
      (* a * matches zero or more instances *)
      match matchhere fuel m re text with
      | Some true => Some true
      | Some false =>
          if negb (Byte.eqb (ld8 m text) Byte.x00) && (Byte.eqb (ld8 m text) c || Byte.eqb c DOT)
          then matchstar fuel m c re (text + 1)
          else Some false
      | None => None
      end
  end.

(** The loop of [match], with [fuel] for the rounds and [depth] for the calls. *)
Fixpoint match_loop (fuel depth : nat) (m : mem) (re text : Z) : option bool :=
  match fuel with
  | O => None
  | S fuel =>
      (* must look at empty string *)
      match matchhere depth m re text with
      | Some true => Some true
      | Some false => if Byte.eqb (ld8 m text) Byte.x00 then Some false else match_loop fuel depth m re (text + 1)
      | None => None
      end
  end.

Definition match_ (fuel : nat) (m : mem) (re text : Z) : option bool :=
  if Byte.eqb (ld8 m re) CARET then matchhere fuel m (re + 1) text
  else match_loop fuel fuel m re text.

(** ** [grep] *)

Section Grep.
Variable bound : nat.

(** The address of [char buf[1024]]. *)
Variable buf : Z.

Definition match_u (re text : Z) : U bool := fun s =>
  match match_ bound (u_mem s) re text with Some b => Ok b s | None => Fuel end.

(** One round of the loop over the lines in the buffer: the next line, or the end. *)
Definition grep_line (pattern p : Z) : U (Z + Z) :=
  let! q := strchr bound p NL in
  if q =? 0 then ret (inr p) else
  stb q Byte.x00 ;;
  let! b := match_u pattern p in
  (if b then
     stb q NL ;;
     write 1 p (q + 1 - p) ;; ret tt
   else ret tt) ;;
  ret (inl (q + 1)).

Definition grep_body (pattern fd m : Z) : U (Z + unit) :=
  let! n := read fd (buf + m) (1024 - m - 1) in
  if negb (0 <? n) then ret (inr tt) else
  let m := m + n in
  stb (buf + m) Byte.x00 ;;
  let! p := while bound (grep_line pattern) buf in
  if 0 <? m then
    let m := m - (p - buf) in
    memmove buf p m ;;
    ret (inl m)
  else ret (inl m).

Definition grep (pattern fd : Z) : U unit := while bound (grep_body pattern fd) 0.

(** [argv[i]] *)
Definition arg (argv i : Z) : U Z := Prelude.gets (fun s => ld64 (u_mem s) (argv + 8 * i)).

Definition grep_file (pattern argv i : Z) : U unit :=
  let! a := arg argv i in
  let! fd := open bound a O_RDONLY in
  if fd <? 0 then
    let! name := cstring bound a in
    printf (line "grep: cannot open %s") [Str (Some name)] ;;
    exit 1
  else
  grep pattern fd ;;
  call (Close fd) ;;
  ret tt.

Definition grep_main (argc argv : Z) : U unit :=
  if argc <=? 1 then
    fprintf 2 (line "usage: grep pattern [file ...]") [] ;;
    exit 1
  else
  let! pattern := arg argv 1 in
  if argc <=? 2 then
    grep pattern 0 ;;
    exit 0
  else
  forM (map Z.of_nat (seq 2 (Z.to_nat (argc - 2)))) (grep_file pattern argv) ;;
  exit 0.

End Grep.

(** ** The language of a pattern *)

(** A character, or any number of instances of one; the dot is any character. *)
Inductive item := One (c : byte) | Many (c : byte).

Definition sym (c x : byte) : Prop := c = DOT \/ c = x.

Definition item_ok (i : item) (w : list byte) : Prop :=
  match i with
  | One c => exists x, w = [x] /\ sym c x
  | Many c => Forall (sym c) w
  end.

(** [w] is one word for each item. *)
Definition denotes (its : list item) (w : list byte) : Prop := exists ws, Forall2 item_ok its ws /\ w = concat ws.

(** The items of a pattern without the caret, and whether a dollar ends it. *)
Fixpoint items (re : list byte) : list item * bool :=
  match re with
  | [] => ([], false)
  | c :: re' =>
      match re' with
      | [] => if Byte.eqb c DOLLAR then ([], true) else ([One c], false)
      | d :: re2 =>
          if Byte.eqb d STAR then let '(its, e) := items re2 in (Many c :: its, e)
          else let '(its, e) := items re' in (One c :: its, e)
      end
  end.

(** A prefix of [t] is in the language, all of it if a dollar ends the pattern. *)
Definition prefix_in (re t : list byte) : Prop :=
  exists w post, t = w ++ post /\ denotes (items re).1 w /\ ((items re).2 = true -> post = []).

(** Pattern [re] selects the text [t]. *)
Definition selects (re t : list byte) : Prop :=
  match re with
  | c :: re' => if Byte.eqb c CARET then prefix_in re' t else exists pre u, t = pre ++ u /\ prefix_in re u
  | [] => exists pre u, t = pre ++ u /\ prefix_in [] u
  end.

(** *** The matcher on lists *)

Fixpoint star (c : byte) (h : list byte -> bool) (t : list byte) : bool :=
  h t || match t with
         | x :: t' => (Byte.eqb x c || Byte.eqb c DOT) && star c h t'
         | [] => false
         end.

Fixpoint here (re t : list byte) : bool :=
  match re with
  | [] => true
  | c :: re' =>
      let one := match t with x :: t' => (Byte.eqb c DOT || Byte.eqb c x) && here re' t' | [] => false end in
      match re' with
      | d :: re2 => if Byte.eqb d STAR then star c (here re2) t else one
      | [] => if Byte.eqb c DOLLAR then match t with [] => true | _ => false end else one
      end
  end.

Fixpoint anywhere (h : list byte -> bool) (t : list byte) : bool :=
  h t || match t with _ :: t' => anywhere h t' | [] => false end.

Definition selected (re t : list byte) : bool :=
  match re with
  | c :: re' => if Byte.eqb c CARET then here re' t else anywhere (here re) t
  | [] => anywhere (here []) t
  end.

Lemma star_ok c h t :
  star c h t = true <-> exists w u, t = w ++ u /\ Forall (sym c) w /\ h u = true.
Proof.
  induction t as [|x t IH]; simpl; rewrite orb_true_iff.
  - split.
    + intros [H|]; [|done]. by exists [], [].
    + intros (w & u & E & _ & H). symmetry in E. apply app_eq_nil in E as [-> ->]. by left.
  - rewrite andb_true_iff, orb_true_iff, IH. split.
    + intros [H|[Hx (w & u & -> & Hw & H)]]; [by exists [], (x :: t)|].
      exists (x :: w), u. split; [done|]. split; [|done]. apply Forall_cons. split; [|done]. unfold sym.
      destruct Hx as [Hx|Hx]; [right|left].
      * by destruct (byte_eqb_spec x c).
      * by destruct (byte_eqb_spec c DOT).
    + intros (w & u & E & Hw & H). destruct w as [|y w]; simpl in E; [left; by rewrite E|]. injection E as <- ->. right.
      apply Forall_cons in Hw as [Hy Hw]. split; [|by exists w, u].
      destruct Hy as [->|<-]; [by right|left; apply byte_eqb_refl].
Qed.

Lemma denotes_one c its w : denotes (One c :: its) w <-> exists x w', w = x :: w' /\ sym c x /\ denotes its w'.
Proof.
  split.
  - intros (ws & H & ->). apply Forall2_cons_inv_l in H as (u & us & (x & -> & Hx) & Hr & ->). exists x, (concat us). split; [done|]. split; [done|]. by exists us.
  - intros (x & w' & -> & Hx & ws & H & ->). exists ([x] :: ws). split; [|done]. constructor; [by exists x|done].
Qed.

Lemma denotes_many c its w : denotes (Many c :: its) w <-> exists v w', w = v ++ w' /\ Forall (sym c) v /\ denotes its w'.
Proof.
  split.
  - intros (ws & H & ->). apply Forall2_cons_inv_l in H as (u & us & Hx & Hr & ->). exists u, (concat us). split; [done|]. split; [done|]. by exists us.
  - intros (v & w' & -> & Hv & ws & H & ->). exists (v :: ws). split; [|done]. by constructor.
Qed.

Lemma denotes_nil w : denotes [] w <-> w = [].
Proof. split; [intros (ws & H & ->); by inversion H|intros ->; exists []; by split]. Qed.

Lemma prefix_one c re t :
  (items (c :: re)) = (let '(its, e) := items re in (One c :: its, e)) ->
  prefix_in (c :: re) t <-> exists x t', t = x :: t' /\ sym c x /\ prefix_in re t'.
Proof.
  intros E. unfold prefix_in. rewrite E. destruct (items re) as [its e]. simpl. split.
  - intros (w & post & -> & (x & w' & -> & Hx & H)%denotes_one & He). exists x, (w' ++ post). split; [done|]. split; [done|]. by exists w', post.
  - intros (x & t' & -> & Hx & w & post & -> & H & He). exists (x :: w), post. split; [done|]. split; [|done].
    apply denotes_one. by exists x, w.
Qed.

Lemma sym_eqb c x : (Byte.eqb c DOT || Byte.eqb c x) = true <-> sym c x.
Proof. unfold sym. rewrite orb_true_iff. destruct (byte_eqb_spec c DOT), (byte_eqb_spec c x); intuition congruence. Qed.

(** The matcher on lists decides the language. *)
Lemma here_ok re t : here re t = true <-> prefix_in re t.
Proof.
  revert re t. enough (G : forall n re t, (length re <= n)%nat -> here re t = true <-> prefix_in re t) by (intros; by eapply G).
  induction n as [|n IH]; intros [|c re] t Hn; simpl in Hn; [|lia| |].
  1, 2: split; [intros _; exists [], t; split; [done|]; split; [by apply denotes_nil|done]|done].
  assert (Hone : items (c :: re) = (let '(its, e) := items re in (One c :: its, e)) ->
    (match t with x :: t' => (Byte.eqb c DOT || Byte.eqb c x) && here re t' | [] => false end) = true <-> prefix_in (c :: re) t).
  { intros E. rewrite (prefix_one _ _ _ E). destruct t as [|x t]; [split; [done|intros (? & ? & ? & _); done]|].
    rewrite andb_true_iff, sym_eqb, (IH re t) by lia. split; [intros [H1 H2]; by exists x, t|].
    intros (y & t' & [= <- <-] & H1 & H2). done. }
  destruct re as [|d re2].
  - simpl. destruct (byte_eqb_spec c DOLLAR) as [->|Hc].
    + unfold prefix_in. simpl. split.
      * destruct t; [|done]. intros _. exists [], []. split; [done|]. split; [by apply denotes_nil|done].
      * intros (w & post & -> & ->%denotes_nil & He). by rewrite He.
    + apply Hone. simpl. by rewrite byte_eqb_ne.
  - change (here (c :: d :: re2) t) with (if Byte.eqb d STAR then star c (here re2) t else
      match t with x :: t' => (Byte.eqb c DOT || Byte.eqb c x) && here (d :: re2) t' | [] => false end).
    destruct (Byte.eqb d STAR) eqn:Ed; [|apply Hone; cbn [items]; by rewrite Ed].
    rewrite star_ok. unfold prefix_in at 1. cbn [items]. rewrite Ed. simpl in Hn.
    destruct (items re2) as [its e] eqn:Ei. simpl. split.
    + intros (v & u & -> & Hv & Hu). apply IH in Hu as (w & post & -> & H & He); [|lia]. rewrite Ei in H, He.
      exists (v ++ w), post. rewrite app_assoc. split; [done|]. split; [|done]. apply denotes_many. by exists v, w.
    + intros (w & post & -> & (v & w' & -> & Hv & H)%denotes_many & He). exists v, (w' ++ post). rewrite app_assoc.
      split; [done|]. split; [done|]. apply IH; [lia|]. exists w', post. by rewrite Ei.
Qed.

Lemma anywhere_ok h t : anywhere h t = true <-> exists pre u, t = pre ++ u /\ h u = true.
Proof.
  induction t as [|x t IH]; simpl; rewrite orb_true_iff.
  - split; [intros [H|]; [by exists [], []|done]|]. intros (pre & u & E & H). symmetry in E. apply app_eq_nil in E as [-> ->]. by left.
  - rewrite IH. split.
    + intros [H|(pre & u & -> & H)]; [by exists [], (x :: t)|by exists (x :: pre), u].
    + intros ([|y pre] & u & E & H); simpl in E; [left; by rewrite E|]. injection E as <- ->. right. by exists pre, u.
Qed.

Lemma selected_ok re t : selected re t = true <-> selects re t.
Proof.
  assert (Hany : forall r, anywhere (here r) t = true <-> exists pre u, t = pre ++ u /\ prefix_in r u).
  { intros r. rewrite anywhere_ok. split; intros (pre & u & E & H); exists pre, u; (split; [done|]); by apply here_ok. }
  unfold selected, selects. destruct re as [|c re]; [apply Hany|]. destruct (Byte.eqb c CARET); [apply here_ok|apply Hany].
Qed.

(** *** The code *)

Lemma cstr_at m p bs : cstr m p bs -> ld8 m p = nth 0 bs Byte.x00.
Proof. destruct bs; simpl; [done|by intros [? _]]. Qed.

Lemma cstr_head m p bs : cstr m p bs -> Byte.eqb (ld8 m p) Byte.x00 = match bs with [] => true | _ => false end.
Proof. destruct bs as [|b bs]; simpl; [by intros ->|]. intros (-> & Hb & _). by apply byte_eqb_ne. Qed.

Lemma matchhere_ok fuel : forall m re text R T, cstr m re R -> cstr m text T ->
  ((length R + length T + 1 <= fuel)%nat -> matchhere fuel m re text = Some (here R T)) /\
  (forall c, (length R + length T + 2 <= fuel)%nat -> matchstar fuel m c re text = Some (star c (here R) T)).
Proof.
  induction fuel as [|fuel IH]; intros m re text R T HR HT; [split; intros; lia|]. split.
  - intros Hf. cbn [matchhere]. rewrite (cstr_head m re R HR). destruct R as [|c R]; [done|].
    destruct HR as (Ec & Hc & HR). rewrite (cstr_at m (re + 1) R HR), Ec, (cstr_head m text T HT).
    assert (Hone : (if negb (match T with [] => true | _ => false end) && (Byte.eqb c DOT || Byte.eqb c (ld8 m text))
        then matchhere fuel m (re + 1) (text + 1) else Some false) =
      Some (match T with x :: t' => (Byte.eqb c DOT || Byte.eqb c x) && here R t' | [] => false end)).
    { destruct T as [|x T]; [done|]. destruct HT as (Ex & Hx & HT). rewrite Ex. simpl. simpl in Hf.
      destruct (Byte.eqb c DOT || Byte.eqb c x); simpl; [|done]. apply (IH m (re + 1) (text + 1) R T); [done|done|lia]. }
    destruct R as [|d R].
    + simpl. destruct (Byte.eqb c DOLLAR) eqn:Ed; cbn [andb]; [by destruct T|]. exact Hone.
    + destruct HR as (Ed & Hd & HR). cbn [nth]. change (here (c :: d :: R) T) with (if Byte.eqb d STAR then star c (here R) T else
        match T with x :: t' => (Byte.eqb c DOT || Byte.eqb c x) && here (d :: R) t' | [] => false end).
      destruct (Byte.eqb d STAR).
      * simpl in Hf. replace (re + 2) with (re + 1 + 1) by lia. apply (IH m (re + 1 + 1) text R T); [done|done|lia].
      * rewrite (byte_eqb_ne d Byte.x00) by done. rewrite andb_false_r. exact Hone.
  - intros c Hf. cbn [matchstar]. rewrite (proj1 (IH m re text R T HR HT) ltac:(lia)).
    rewrite (cstr_head m text T HT). destruct T as [|x T].
    + simpl. by destruct (here R []).
    + cbn [star]. destruct (here R (x :: T)); [done|]. destruct HT as (Ex & Hx & HT). rewrite Ex. cbn [negb andb orb].
      destruct (Byte.eqb x c || Byte.eqb c DOT); [|done]. simpl in Hf.
      apply (IH m re (text + 1) R T); [done|done|lia].
Qed.

Lemma match_loop_ok fuel depth m re text R T :
  cstr m re R -> cstr m text T -> (length R + length T + 1 <= depth)%nat -> (length T < fuel)%nat ->
  match_loop fuel depth m re text = Some (anywhere (here R) T).
Proof.
  intros HR. revert text T. induction fuel as [|fuel IH]; intros text T HT Hd Hf; [lia|]. cbn [match_loop].
  rewrite (proj1 (matchhere_ok depth m re text R T HR HT) Hd), (cstr_head m text T HT). destruct T as [|x T].
  - simpl. by destruct (here R []).
  - simpl. destruct (here R (x :: T)); [done|]. simpl in Hd, Hf. apply IH; [apply HT|lia|lia].
Qed.

Lemma match_ok fuel m re text R T :
  cstr m re R -> cstr m text T -> (length R + length T + 1 <= fuel)%nat -> match_ fuel m re text = Some (selected R T).
Proof.
  intros HR HT Hf. unfold match_, selected. rewrite (cstr_at m re R HR). destruct R as [|c R].
  - by apply match_loop_ok; simpl in *; try lia.
  - simpl nth. destruct (Byte.eqb c CARET).
    + apply (matchhere_ok fuel m (re + 1) text R T); [apply HR|done|simpl in Hf; lia].
    + apply match_loop_ok; [done|done|done|lia].
Qed.

(** [match(re, text)] answers 1 exactly when the pattern selects the text: some
    part of it (from its start on after a caret, up to its end before a dollar) is
    in the language of the pattern, in which a dot stands for any character and a
    star for any number of instances of the character before it. *)
Theorem match_correct (fuel : nat) (m : mem) (re text : Z) (R T : list byte)
    (HR : cstr m re R) (HT : cstr m text T) (Hf : (length R + length T + 1 <= fuel)%nat) :
  exists b, match_ fuel m re text = Some b /\ (b = true <-> selects R T).
Proof. exists (selected R T). split; [by apply match_ok|apply selected_ok]. Qed.

(** *** Lines *)

(** The lines of [bs] that a newline ends, and what follows the last one. *)
Fixpoint lines (bs : list byte) : list (list byte) * list byte :=
  match bs with
  | [] => ([], [])
  | b :: bs =>
      let '(ls, r) := lines bs in
      if Byte.eqb b NL then ([] :: ls, r)
      else match ls with [] => ([], b :: r) | l :: ls => ((b :: l) :: ls, r) end
  end.

(** The lines that [re] selects, each with its newline. *)
Definition grepped (re bs : list byte) : list byte :=
  concat (map (fun l => l ++ [NL]) (List.filter (selected re) (lines bs).1)).

Lemma lines_split l Y : NL ∉ l -> lines (l ++ NL :: Y) = (l :: (lines Y).1, (lines Y).2).
Proof.
  induction l as [|b l IH]; intros H; simpl; [by destruct (lines Y)|]. apply not_elem_of_cons in H as [Hb H].
  rewrite IH by done. by rewrite byte_eqb_ne.
Qed.

Lemma lines_none X : NL ∉ X -> lines X = ([], X).
Proof.
  induction X as [|b X IH]; intros H; simpl; [done|]. apply not_elem_of_cons in H as [Hb H].
  rewrite IH by done. by rewrite byte_eqb_ne.
Qed.

Lemma lines_rest_nl X : NL ∉ (lines X).2.
Proof.
  induction X as [|b X IH]; simpl; [apply not_elem_of_nil|]. destruct (lines X) as [ls r].
  destruct (byte_eqb_spec b NL); [done|]. destruct ls; [|done]. by apply not_elem_of_cons.
Qed.

Lemma lines_only X : (lines X).1 = [] -> (lines X).2 = X.
Proof.
  induction X as [|b X IH]; simpl; [done|]. destruct (lines X) as [ls r]. destruct (Byte.eqb b NL); [done|].
  destruct ls; [|done]. simpl in *. intros _. f_equal. by apply IH.
Qed.

Lemma lines_rest X : drop (length X - length (lines X).2) X = (lines X).2.
Proof.
  induction X as [|b X IH]; simpl; [done|]. assert (Hle : (length (lines X).2 <= length X)%nat).
  { rewrite <- IH, length_drop. lia. }
  pose proof (lines_only X) as Ho. destruct (lines X) as [ls r]. cbn [fst snd] in *.
  assert (Hd : drop (S (length X) - length r) (b :: X) = r) by (by rewrite Nat.sub_succ_l by done).
  destruct (Byte.eqb b NL); [done|]. destruct ls as [|l ls]; cbn [snd]; [|done].
  rewrite Ho by done. cbn [length]. by rewrite Nat.sub_diag.
Qed.

Lemma lines_app A B :
  lines (A ++ B) = ((lines A).1 ++ (lines ((lines A).2 ++ B)).1, (lines ((lines A).2 ++ B)).2).
Proof.
  induction A as [|b A IH]; simpl; [by destruct (lines B)|]. rewrite IH. destruct (lines A) as [ls r]. simpl.
  destruct (Byte.eqb b NL) eqn:E; [done|]. destruct ls as [|l ls]; simpl; [|done].
  rewrite E. by destruct (lines (r ++ B)) as [[|l ls] r'].
Qed.

Lemma grepped_app re A B : grepped re (A ++ B) = grepped re A ++ grepped re ((lines A).2 ++ B).
Proof. unfold grepped. rewrite lines_app. simpl. by rewrite List.filter_app, map_app, concat_app. Qed.

(** Every line fits into the buffer. *)
Definition lines_fit (X : list byte) : Prop := Forall (fun l => (length l < 1023)%nat) ((lines X).1 ++ [(lines X).2]).

Lemma lines_fit_tail A B : lines_fit (A ++ B) -> lines_fit ((lines A).2 ++ B).
Proof. unfold lines_fit. rewrite lines_app. simpl. rewrite <- app_assoc. by intros [_ H]%Forall_app. Qed.

Lemma lines_first r B :
  NL ∉ r -> (length r <= length (match (lines (r ++ B)).1 with [] => (lines (r ++ B)).2 | l :: _ => l end))%nat.
Proof.
  induction r as [|b r IH]; intros Hr; simpl; [lia|]. apply not_elem_of_cons in Hr as [Hb Hr]. specialize (IH Hr).
  destruct (lines (r ++ B)) as [ls r']. rewrite byte_eqb_ne by done. destruct ls; simpl in *; lia.
Qed.

Lemma lines_fit_head r B : NL ∉ r -> lines_fit (r ++ B) -> (length r < 1023)%nat.
Proof.
  intros Hr H. pose proof (lines_first r B Hr) as Hl. unfold lines_fit in H. destruct (lines (r ++ B)) as [[|l ls] r']; cbn [fst snd app] in *.
  - rewrite Forall_singleton in H. lia.
  - rewrite Forall_cons in H. lia.
Qed.

Lemma place_spec c X :
  match place c X with
  | Some i => exists Y, X = take i X ++ c :: Y /\ (c ∉ take i X) /\ (i < length X)%nat
  | None => c ∉ X
  end.
Proof.
  induction X as [|b X IH]; simpl; [apply not_elem_of_nil|]. destruct (byte_eqb_spec b c) as [->|Hne].
  - exists X. split; [done|]. split; [apply not_elem_of_nil|simpl; lia].
  - destruct (place c X) as [i|]; simpl.
    + destruct IH as (Y & E & Hn & Hi). exists Y. split; [by rewrite <- E|]. split; [by apply not_elem_of_cons|lia].
    + by apply not_elem_of_cons.
Qed.

(** *** The buffer *)

Definition same_out (a len : Z) (m m' : mem) : Prop := forall x, ~ (a <= x < a + len) -> ld8 m' x = ld8 m x.

#[export] Instance same_out_preorder a len : PreOrder (same_out a len).
Proof. split; [done|]. intros m1 m2 m3 H1 H2 x Hx. by rewrite H2, H1. Qed.

Lemma same_out_sub a len a' len' m m' : same_out a' len' m m' -> a <= a' -> a' + len' <= a + len -> same_out a len m m'.
Proof. intros H H1 H2 x Hx. apply H. lia. Qed.

Lemma same_out_st8 a b m : same_out a 1 m (st8 m a b).
Proof. intros x Hx. apply ld8_st8_ne. lia. Qed.

Lemma same_out_st_bytes a bs m : same_out a (Z.of_nat (length bs)) m (st_bytes m a bs).
Proof. intros x Hx. by apply ld8_st_bytes_out. Qed.

Lemma cstr_same m m' p bs a len :
  cstr m p bs -> same_out a len m m' -> p + Z.of_nat (length bs) < a \/ a + len <= p -> cstr m' p bs.
Proof. intros H Hs Ha. apply (cstr_ext m); [done|]. intros x Hx. apply Hs. lia. Qed.

Section GrepOk.
Context {W : Type} `{!Unix W} {fd : Z} {inp out : W -> list byte} `{!Stdio W fd 1 inp out}.
Variable bound : nat.
Variable buf pattern : Z.
Variable R : list byte.

(** The memory [grep] needs: the pattern, apart from the buffer. *)
Hypothesis buf_pos : 0 < buf.
Hypothesis pattern_apart : pattern + Z.of_nat (length R) < buf \/ buf + 1024 <= pattern.
Hypothesis bound_large : (length R + 2048 <= bound)%nat.

(** One line of the buffer: a prefix of the text at [p]. *)
Lemma grep_line_ok s w p X i Y :
  cstr (u_mem s) pattern R -> buf <= p -> p + Z.of_nat (length X) < buf + 1024 -> cstr (u_mem s) p X ->
  place NL X = Some i -> X = take i X ++ NL :: Y -> (i < length X)%nat ->
  exists s' w', drive (grep_line bound pattern p s) w = Returned (inl (p + Z.of_nat i + 1)) s' w' /\
    same_out p (Z.of_nat i + 1) (u_mem s) (u_mem s') /\ inp w' = inp w /\
    out w' = out w ++ (if selected R (take i X) then take i X ++ [NL] else []).
Proof.
  intros HR Hp Hend HX Hpl EX Hi. unfold grep_line. pose proof (strchr_ok bound p NL X s HX ltac:(lia)) as E1. rewrite Hpl in E1.
  urun E1. set (q := p + Z.of_nat i). rewrite (proj2 (Z.eqb_neq q 0)) by lia.
  set (s1 := set_u_mem (st8 (u_mem s) q Byte.x00) s). assert (E2 : stb q Byte.x00 s = Ok tt s1) by done. urun E2.
  assert (Hl : length (take i X) = i) by (rewrite length_take; lia).
  assert (HT : cstr (u_mem s1) p (take i X)).
  { apply cstr_iff. apply cstr_iff in HX as (N & B & _). rewrite Hl. split; [|split].
    - intros H. apply N. by eapply subseteq_take.
    - transitivity (take i (ld_bytes (u_mem s) p (length X))); [|by rewrite B].
      replace (length X) with (i + (length X - i))%nat by lia. rewrite ld_bytes_add, take_app_le, take_ge by (rewrite length_ld_bytes; lia).
      apply ld_bytes_ext. intros a Ha. apply (same_out_st8 q). lia.
    - apply ld8_st8_eq. }
  assert (HR1 : cstr (u_mem s1) pattern R) by (apply (cstr_same _ _ _ _ q 1 HR (same_out_st8 q _ _)); lia).
  assert (E3 : match_u bound pattern p s1 = Ok (selected R (take i X)) s1).
  { unfold match_u. by rewrite (match_ok bound _ _ _ R (take i X)) by (done || rewrite Hl; lia). }
  urun E3. destruct (selected R (take i X)).
  - set (s2 := set_u_mem (st8 (u_mem s1) q NL) s1).
    destruct (drive_write (fout := 1) (inp := inp) (out := out) s2 w p (q + 1 - p) ltac:(lia)) as (s3 & w3 & E4 & M & O & I).
    assert (E5 : drive ((stb q NL ;; write 1 p (q + 1 - p) ;; ret tt) s1) w = Returned tt s3 w3).
    { assert (E : stb q NL s1 = Ok tt s2) by done. urun E. by urun E4. }
    urun E5. exists s3, w3. split; [done|]. rewrite M, O. split; [|split; [done|]].
    + intros x Hx. simpl. rewrite !ld8_st8_ne; (done || lia).
    + f_equal. replace (Z.to_nat (q + 1 - p)) with (S i) by lia. rewrite ld_bytes_snoc. f_equal.
      * apply cstr_iff in HT as (_ & B & _). rewrite Hl in B. rewrite <- B. apply ld_bytes_ext. intros a Ha.
        apply (same_out_st8 q). lia.
      * simpl. by rewrite ld8_st8_eq.
  - assert (E5 : ret (S := uproc) tt s1 = Ok tt s1) by done. urun E5. exists s1, w. split; [done|]. rewrite app_nil_r.
    split; [|done]. intros x Hx. apply (same_out_st8 q). lia.
Qed.

(** The lines in the buffer, and what is left of the text. *)
Lemma grep_lines_ok : forall n s w p X fuel,
  (length X < n)%nat -> (length X < fuel)%nat ->
  cstr (u_mem s) pattern R -> buf <= p -> p + Z.of_nat (length X) < buf + 1024 -> cstr (u_mem s) p X ->
  exists s' w', let r := (lines X).2 in
    drive (while fuel (grep_line bound pattern) p s) w = Returned (p + Z.of_nat (length X - length r)) s' w' /\
    same_out p (Z.of_nat (length X - length r)) (u_mem s) (u_mem s') /\ inp w' = inp w /\
    out w' = out w ++ grepped R X /\ (length r <= length X)%nat.
Proof.
  induction n as [|n IH]; intros s w p X fuel Hn Hfu HR Hp Hend HX; [lia|]. destruct fuel as [|fuel]; [lia|].
  cbn [while]. pose proof (place_spec NL X) as Hpl. destruct (place NL X) as [i|] eqn:Epl.
  - destruct Hpl as (Y & EX & Hnl & Hi).
    destruct (grep_line_ok s w p X i Y HR Hp Hend HX Epl EX Hi) as (s1 & w1 & E1 & M1 & I1 & O1). urun E1.
    assert (HlX : length X = (i + S (length Y))%nat).
    { apply (f_equal length) in EX. rewrite length_app, length_take in EX. simpl in EX. lia. }
    assert (HY : cstr (u_mem s1) (p + Z.of_nat i + 1) Y).
    { apply (cstr_same (u_mem s) _ _ _ p (Z.of_nat i + 1)); [|done|lia].
      replace (p + Z.of_nat i + 1) with (p + Z.of_nat (S i)) by lia. replace Y with (drop (S i) X); [by apply cstr_drop; [lia|]|].
      rewrite EX at 1. rewrite drop_app_ge by (rewrite length_take; lia). rewrite length_take. by replace (S i - Nat.min i (length X))%nat with 1%nat by lia. }
    destruct (IH s1 w1 (p + Z.of_nat i + 1) Y fuel) as (s2 & w2 & E2 & M2 & I2 & O2 & L2); try lia.
    { apply (cstr_same _ _ _ _ p (Z.of_nat i + 1) HR M1). lia. }
    { done. }
    assert (ElX : lines X = (take i X :: (lines Y).1, (lines Y).2)) by (rewrite EX at 1; by apply lines_split).
    exists s2, w2. rewrite ElX. cbn [snd]. rewrite E2. split; [f_equal; lia|]. split; [|split; [congruence|split; [|lia]]].
    + etrans; [apply (same_out_sub _ _ p (Z.of_nat i + 1) _ _ M1); lia|]. apply (same_out_sub _ _ _ _ _ _ M2); lia.
    + rewrite O2, O1, <- app_assoc. f_equal. unfold grepped. rewrite ElX. simpl. by destruct (selected R (take i X)).
  - assert (E : grep_line bound pattern p s = Ok (inr p) s).
    { unfold grep_line. pose proof (strchr_ok bound p NL X s HX ltac:(lia)) as E1. rewrite Epl in E1. by rewrite (bind_Ok _ _ _ _ _ E1). }
    urun E. exists s, w. rewrite (lines_none X Hpl). cbn [snd]. rewrite Nat.sub_diag, Z.add_0_r.
    split; [done|]. split; [done|]. split; [done|]. split; [|done]. unfold grepped. rewrite (lines_none X Hpl). simpl. by rewrite app_nil_r.
Qed.

(** The bytes of [X] are at [p]. *)
Definition holds_at (m : mem) (p : Z) (X : list byte) : Prop := ld_bytes m p (length X) = X.

Lemma holds_at_same m m' p X a len :
  holds_at m p X -> same_out a len m m' -> p + Z.of_nat (length X) <= a \/ a + len <= p -> holds_at m' p X.
Proof. unfold holds_at. intros H Hs Ha. rewrite <- H at 2. apply ld_bytes_ext. intros x Hx. apply Hs. lia. Qed.

Lemma holds_at_app m p X Y : holds_at m p X -> holds_at (st_bytes m (p + Z.of_nat (length X)) Y) p (X ++ Y).
Proof.
  intros H. unfold holds_at. rewrite length_app, ld_bytes_add, ld_bytes_st_bytes by done. f_equal.
  apply (holds_at_same m _ _ _ _ _ H (same_out_st_bytes _ _ _)). lia.
Qed.

Lemma holds_at_drop m p X k : holds_at m p X -> (k <= length X)%nat -> holds_at m (p + Z.of_nat k) (drop k X).
Proof.
  unfold holds_at. intros H Hk. rewrite length_drop. replace (length X) with (k + (length X - k))%nat in H by lia.
  rewrite ld_bytes_add in H. rewrite <- H at 2. rewrite drop_app_ge by (rewrite length_ld_bytes; lia).
  by rewrite length_ld_bytes, Nat.sub_diag.
Qed.

(** One read of [grep], with the start [r] of a line in the buffer. *)
Lemma grep_body_ok s w r :
  cstr (u_mem s) pattern R -> holds_at (u_mem s) buf r -> NL ∉ r -> Byte.x00 ∉ r ++ inp w -> lines_fit (r ++ inp w) ->
  exists s' w' bs, inp w = bs ++ inp w' /\ (bs = [] -> inp w = []) /\
    drive (grep_body bound buf pattern fd (Z.of_nat (length r)) s) w =
      Returned (if decide (bs = []) then inr tt else inl (Z.of_nat (length (lines (r ++ bs)).2))) s' w' /\
    cstr (u_mem s') pattern R /\ (bs <> [] -> holds_at (u_mem s') buf (lines (r ++ bs)).2) /\
    out w' = out w ++ (if decide (bs = []) then [] else grepped R (r ++ bs)).
Proof.
  intros HR Hr Hnl Hnul Hfit. pose proof (lines_fit_head r (inp w) Hnl Hfit) as Hlen. unfold grep_body.
  destruct (drive_read (fout := 1) (inp := inp) (out := out) s w (buf + Z.of_nat (length r)) (1024 - Z.of_nat (length r) - 1) ltac:(lia))
    as (bs & s1 & w1 & E1 & M1 & I1 & L1 & Hz & O1).
  urun E1. destruct (decide (bs = [])) as [->|Hne].
  { exists s1, w1, []. simpl. split; [done|]. split; [done|]. split; [done|]. simpl in M1. rewrite M1, O1. split; [done|]. split; [intros H; by destruct H|by rewrite ?app_nil_r]. }
  assert (Hbs : (0 < length bs)%nat) by (destruct bs; [done|simpl; lia]).
  rewrite (proj2 (Z.ltb_lt 0 (Z.of_nat (length bs)))) by lia. cbn [negb].
  set (X := r ++ bs). assert (HlX : length X = (length r + length bs)%nat) by apply length_app.
  replace (Z.of_nat (length r) + Z.of_nat (length bs)) with (Z.of_nat (length X)) by lia.
  set (s2 := set_u_mem (st8 (u_mem s1) (buf + Z.of_nat (length X)) Byte.x00) s1).
  assert (E2 : stb (buf + Z.of_nat (length X)) Byte.x00 s1 = Ok tt s2) by done. urun E2.
  assert (HX : cstr (u_mem s2) buf X).
  { apply cstr_iff. split; [|split].
    - intros H. apply Hnul. rewrite I1, app_assoc. apply elem_of_app. by left.
    - apply (holds_at_same (u_mem s1) _ _ _ (buf + Z.of_nat (length X)) 1); [|apply same_out_st8|lia]. rewrite M1. by apply holds_at_app.
    - apply ld8_st8_eq. }
  assert (HR2 : cstr (u_mem s2) pattern R).
  { apply (cstr_same (u_mem s) _ _ _ buf 1024 HR); [|done]. intros x Hx. simpl. rewrite ld8_st8_ne, M1 by lia.
    apply (same_out_st_bytes (buf + Z.of_nat (length r)) bs). lia. }
  destruct (grep_lines_ok (S (length X)) s2 w1 buf X bound) as (s3 & w3 & E3 & M3 & I3 & O3 & L3); try lia; [done|done|].
  urun E3. rewrite (proj2 (Z.ltb_lt 0 (Z.of_nat (length X)))) by lia. set (r' := (lines X).2) in *.
  replace (Z.of_nat (length X) - (buf + Z.of_nat (length X - length r') - buf)) with (Z.of_nat (length r')) by lia.
  urun (memmove_ok buf (buf + Z.of_nat (length X - length r')) (Z.of_nat (length r')) s3 ltac:(lia)). rewrite Nat2Z.id.
  assert (Hr' : holds_at (u_mem s3) (buf + Z.of_nat (length X - length r')) r').
  { apply (holds_at_same (u_mem s2) _ _ _ buf (Z.of_nat (length X - length r'))); [|done|lia].
    apply cstr_iff in HX as (_ & B & _). pose proof (holds_at_drop _ _ _ (length X - length r') B ltac:(lia)) as H. unfold r' in H at 2. by rewrite lines_rest in H. }
  unfold holds_at in Hr'. rewrite Hr'. set (s4 := set_u_mem _ s3). exists s4, w3, bs. rewrite !decide_False by done.
  split; [by rewrite I3|]. split; [done|]. split; [done|]. split; [|split; [|by rewrite O3, O1]].
  - apply (cstr_same (u_mem s2) _ _ _ buf 1024 HR2); [|done]. etrans; [apply (same_out_sub _ _ _ _ _ _ M3); lia|].
    apply (same_out_sub _ _ _ _ _ _ (same_out_st_bytes buf r' _)); lia.
  - intros _. by apply ld_bytes_st_bytes.
Qed.

Lemma grep_loop_ok : forall fuel s w r,
  (length (inp w) < fuel)%nat ->
  cstr (u_mem s) pattern R -> holds_at (u_mem s) buf r -> NL ∉ r -> Byte.x00 ∉ r ++ inp w -> lines_fit (r ++ inp w) ->
  exists s' w', drive (while fuel (grep_body bound buf pattern fd) (Z.of_nat (length r)) s) w = Returned tt s' w' /\
    inp w' = [] /\ out w' = out w ++ grepped R (r ++ inp w).
Proof.
  induction fuel as [|fuel IH]; intros s w r Hf HR Hr Hnl Hnul Hfit; [lia|]. cbn [while].
  destruct (grep_body_ok s w r HR Hr Hnl Hnul Hfit) as (s1 & w1 & bs & I1 & Hz & E1 & HR1 & Hr1 & O1). urun E1.
  destruct (decide (bs = [])) as [->|Hne].
  - exists s1, w1. specialize (Hz eq_refl). split; [done|]. split; [by rewrite I1 in Hz|]. rewrite O1, Hz, !app_nil_r.
    unfold grepped. rewrite lines_none by done. simpl. by rewrite app_nil_r.
  - rewrite I1, app_assoc in Hnul, Hfit. destruct (IH s1 w1 (lines (r ++ bs)).2) as (s2 & w2 & E2 & I2 & O2); try done.
    + rewrite I1, length_app in Hf. destruct bs; [done|]. simpl in Hf. lia.
    + by apply Hr1.
    + apply lines_rest_nl.
    + intros H. apply Hnul. apply elem_of_app in H as [H|H]; apply elem_of_app; [left|by right].
      rewrite <- (lines_rest (r ++ bs)) in H. by eapply subseteq_drop.
    + by apply lines_fit_tail.
    + exists s2, w2. split; [done|]. split; [done|]. rewrite O2, O1, <- app_assoc. f_equal. rewrite I1, app_assoc. symmetry. apply grepped_app.
Qed.

End GrepOk.

(** C22: [grep(pattern, fd)] reads [fd] to its end and writes to the standard output
    exactly the lines that the pattern selects, in order and each with its
    newline, however the input is cut into reads, as long as the input has no nul
    and every line fits into the buffer.  (What follows the last newline is not a
    line.) *)
Theorem grep_correct {W : Type} `{!Unix W} (fd : Z) (inp out : W -> list byte) `{!Stdio W fd 1 inp out}
    (bound : nat) (buf pattern : Z) (R : list byte) (s : uproc) (w : W)
    (Hbuf : 0 < buf) (Hap : pattern + Z.of_nat (length R) < buf \/ buf + 1024 <= pattern)
    (Hbound : (length R + length (inp w) + 2048 <= bound)%nat)
    (HR : cstr (u_mem s) pattern R) (Hnul : Byte.x00 ∉ inp w) (Hfit : lines_fit (inp w)) :
  exists s' w', drive (grep bound buf pattern fd s) w = Returned tt s' w' /\ inp w' = [] /\
    out w' = out w ++ grepped R (inp w).
Proof. apply (grep_loop_ok bound buf pattern R Hbuf Hap ltac:(lia) bound s w []); try done; [lia|]. apply not_elem_of_nil. Qed.

Definition demo_text : list byte := bytes_of (line "abc" ++ line "xbz" ++ line "abbbd" ++ "ab").

Lemma grep_correct_witness :
  exists s' w', drive (grep 3000 4096 100 0 (Uproc (st_bytes ∅ 100 (bytes_of "^ab*")) Getpid (0, []))) (Pieces demo_text [] 2)
    = Returned tt s' w' /\ pc_out w' = bytes_of (line "abc" ++ line "abbbd").
Proof.
  destruct (grep_correct 0 pc_in pc_out 3000 4096 100 (bytes_of "^ab*") (Uproc (st_bytes ∅ 100 (bytes_of "^ab*")) Getpid (0, []))
    (Pieces demo_text [] 2)) as (s' & w' & E & _ & O).
  - lia.
  - vm_compute. by left.
  - change (length (bytes_of "^ab*")) with 4%nat. change (length (pc_in (Pieces demo_text [] 2))) with 16%nat. lia.
  - vm_compute. intuition discriminate.
  - intros H%list_elem_of_In. vm_compute in H. intuition discriminate.
  - unfold lines_fit. vm_compute (lines _). repeat (apply Forall_cons; split; [simpl; lia|]). by apply Forall_nil.
  - exists s', w'. split; [exact E|]. rewrite O. vm_compute. reflexivity.
Defined.

Lemma match_correct_witness :
  exists b, match_ 20 (st_bytes (st_bytes ∅ 100 (bytes_of "b.*d$")) 200 (bytes_of "abccd")) 100 200 = Some b /\
    (b = true <-> selects (bytes_of "b.*d$") (bytes_of "abccd")).
Proof.
  apply match_correct.
  - vm_compute. intuition discriminate.
  - vm_compute. intuition discriminate.
  - vm_compute. lia.
Defined.
