(* ===== verification/Programs.v ===== *)
(** * The user programs

    [cat], [echo], [wc], [kill], [ln], [mkdir], [rm], [sleep], [zombie], [find],
    [ls], [primes], [pingpong], [xargs], [init], [forktest] and [stressfs], each as
    a computation of the process that runs it.  Strings and arrays are in the
    memory of the process; the addresses of local and static variables are
    parameters, as their placement is the compiler's. *)

From S2P Require Import Prelude Riscv Memory CString Block Fs Uart Printf User UserPrintf Grep.
Import User.Ulib UserPrintf.UPrintf.

Module Programs.

Definition DIRSIZ : Z := 14.

Section Programs.
Variable bound : nat.

(** [for(i = 1; i < argc; i++)] *)
Definition each_arg (argc : Z) (f : Z -> U unit) : U unit := forM (map Z.of_nat (seq 1 (Z.to_nat (argc - 1)))) f.

(** The same, with a [break]. *)
Definition while_arg (argc : Z) (f : Z -> U bool) : U unit :=
  while (S (Z.to_nat argc)) (fun i =>
    if i <? argc then let! go := f i in ret (if go then inl (i + 1) else inr tt) else ret (inr tt)) 1.

Definition arg_string (argv i : Z) : U (list byte) := let! p := Grep.arg argv i in cstring bound p.

(** ** cat.c *)

Definition cat_body (buf fd : Z) (_ : unit) : U (unit + Z) :=
  let! n := read fd buf 512 in
  if 0 <? n then
    let! r := write 1 buf n in
    if negb (r =? n) then
      fprintf 2 (line "cat: write error") [] ;;
      exit 1
    else ret (inl tt)
  else ret (inr n).

Definition cat (buf fd : Z) : U unit :=
  let! n := while bound (cat_body buf fd) tt in
  if n <? 0 then
    fprintf 2 (line "cat: read error") [] ;;
    exit 1
  else ret tt.

Definition cat_file (buf argv i : Z) : U unit :=
  let! a := Grep.arg argv i in
  let! fd := open bound a O_RDONLY in
  if fd <? 0 then
    let! name := cstring bound a in
    fprintf 2 (line "cat: cannot open %s") [Str (Some name)] ;;
    exit 1
  else
  cat buf fd ;;
  call (Close fd) ;;
  ret tt.

Definition cat_main (buf argc argv : Z) : U unit :=
  if argc <=? 1 then
    cat buf 0 ;;
    exit 0
  else
  each_arg argc (cat_file buf argv) ;;
  exit 0.

(** ** echo.c *)

Definition echo_arg (argc argv i : Z) : U unit :=
  let! a := Grep.arg argv i in
  let! n := strlen bound a in
  write 1 a n ;;
  (if i + 1 <? argc then call (Write 1 [Byte.x20]) else call (Write 1 [Byte.x0a])) ;;
  ret tt.

Definition echo_main (argc argv : Z) : U unit :=
  each_arg argc (echo_arg argc argv) ;;
  exit 0.

(** ** wc.c *)

(** The characters of [" \r\t\n\v"]. *)
Definition wc_blank (c : byte) : bool := existsb (Byte.eqb c) [Byte.x20; Byte.x0d; Byte.x09; Byte.x0a; Byte.x0b].

(** [l], [w], [c] and [inword]; [c], the largest, must not overflow. *)
Definition wc_char (b : byte) : Z * Z * Z * bool -> U (Z * Z * Z * bool) := fun '(l, w, c, inword) =>
  if 2 ^ 31 <=? c + 1 then panic "undefined: overflow" else
  let c := c + 1 in
  let l := if Byte.eqb b Byte.x0a then l + 1 else l in
  if wc_blank b then ret (l, w, c, false)
  else if negb inword then ret (l, w + 1, c, true)
  else ret (l, w, c, inword).

Definition wc_chars (buf n : Z) (st : Z * Z * Z * bool) : U (Z * Z * Z * bool) :=
  while (S (Z.to_nat n)) (fun '(i, st) =>
    if i <? n then
      let! b := ldb (buf + i) in
      let! st := wc_char b st in
      ret (inl (i + 1, st))
    else ret (inr st)) (0, st).

Definition wc_body (buf fd : Z) (st : Z * Z * Z * bool) : U (Z * Z * Z * bool + Z * (Z * Z * Z * bool)) :=
  let! n := read fd buf 512 in
  if 0 <? n then let! st := wc_chars buf n st in ret (inl st)
  else ret (inr (n, st)).

(** [name] reads the name that is printed. *)
Definition wc (buf fd : Z) (name : U (list byte)) : U unit :=
  let! (n, st) := while bound (wc_body buf fd) (0, 0, 0, false) in
  let '(l, w, c, _) := st in
  if n <? 0 then
    printf (line "wc: read error") [] ;;
    exit 1
  else
  let! name := name in
  printf (line "%d %d %d %s") [Num l; Num w; Num c; Str (Some name)].

Definition wc_file (buf argv i : Z) : U unit :=
  let! a := Grep.arg argv i in
  let! fd := open bound a O_RDONLY in
  if fd <? 0 then
    let! name := cstring bound a in
    printf (line "wc: cannot open %s") [Str (Some name)] ;;
    exit 1
  else
  wc buf fd (cstring bound a) ;;
  call (Close fd) ;;
  ret tt.

Definition wc_main (buf argc argv : Z) : U unit :=
  if argc <=? 1 then
    wc buf 0 (ret []) ;;
    exit 0
  else
  each_arg argc (wc_file buf argv) ;;
  exit 0.

(** ** kill.c, ln.c, mkdir.c, rm.c, sleep.c, zombie.c *)

Definition kill_main (argc argv : Z) : U unit :=
  if argc <? 2 then
    fprintf 2 (line "usage: kill pid...") [] ;;
    exit 1
  else
  each_arg argc (fun i =>
    let! a := Grep.arg argv i in
    let! pid := atoi bound a in
    call (Kill pid) ;;
    ret tt) ;;
  exit 0.

Definition ln_main (argc argv : Z) : U unit :=
  if negb (argc =? 3) then
    fprintf 2 (line "Usage: ln old new") [] ;;
    exit 1
  else
  let! old := arg_string argv 1 in
  let! new := arg_string argv 2 in
  let! r := call (Link old new) in
  (if r <? 0 then fprintf 2 (line "link %s %s: failed") [Str (Some old); Str (Some new)] else ret tt) ;;
  exit 0.

Definition mkdir_main (argc argv : Z) : U unit :=
  if argc <? 2 then
    fprintf 2 (line "Usage: mkdir files...") [] ;;
    exit 1
  else
  while_arg argc (fun i =>
    let! name := arg_string argv i in
    let! r := call (Mkdir name) in
    if r <? 0 then fprintf 2 (line "mkdir: %s failed to create") [Str (Some name)] ;; ret false
    else ret true) ;;
  exit 0.

Definition rm_main (argc argv : Z) : U unit :=
  if argc <? 2 then
    fprintf 2 (line "Usage: rm files...") [] ;;
    exit 1
  else
  while_arg argc (fun i =>
    let! name := arg_string argv i in
    let! r := call (Unlink name) in
    if r <? 0 then fprintf 2 (line "rm: %s failed to delete") [Str (Some name)] ;; ret false
    else ret true) ;;
  exit 0.

Definition sleep_main (argc argv : Z) : U unit :=
  if argc <? 2 then
    fprintf 2 (line "Usage: sleep ticks") [] ;;
    exit 1
  else
  let! a := Grep.arg argv 1 in
  let! ticks := atoi bound a in
  call (Sleep ticks) ;;
  exit 0.

Definition zombie_main : U unit :=
  let! pid := call Fork in
  (if 0 <? pid then call (Sleep 5) ;; ret tt else ret tt) ;;
  exit 0.

(** ** find.c *)

Definition ldh (p : Z) : U Z := Prelude.gets (fun s => le_combine (ld_bytes (u_mem s) p 2)).

Definition ldw (p : Z) : U Z := Prelude.gets (fun s => ld32 (u_mem s) p).

Definition ldd (p : Z) : U Z := Prelude.gets (fun s => ld64 (u_mem s) p).

(** The fields of a [struct stat]. *)
Definition st_ino (st : Z) : U Z := ldw (st + 4).

Definition st_type (st : Z) : U Z := let! t := ldh (st + 8) in ret (s16 t).

Definition st_size (st : Z) : U Z := ldd (st + 16).

(** The locals of the calls of [find], by depth: [char buf[512]], [struct dirent de]
    and [struct stat st]; and the strings of the program. *)
Record frames := Frames { fr_buf : nat -> Z; fr_de : nat -> Z; fr_st : nat -> Z; fr_dot : Z; fr_dotdot : Z }.

Section Find.
Variable fr : frames.

(** What the loop does with an entry; [rec] is the call for a directory. *)
Definition find_entry (d : nat) (p filename : Z) (rec : Z -> U unit) : U unit :=
  let buf := fr_buf fr d in
  let de := fr_de fr d in
  let st := fr_st fr d in
  let! inum := ldh de in
  if inum =? 0 then ret tt else
  let! c1 := strcmp bound (de + 2) (fr_dot fr) in
  let! c2 := if c1 =? 0 then ret 0 else strcmp bound (de + 2) (fr_dotdot fr) in
  if c2 =? 0 then ret tt else
  strcpy bound p (de + 2) ;;
  let! r := stat bound buf st in
  if r <? 0 then
    let! name := cstring bound buf in
    fprintf 2 (line "find: cannot stat %s") [Str (Some name)]
  else
  let! type := st_type st in
  if type =? T_FILE then
    let! c := strcmp bound (de + 2) filename in
    if c =? 0 then let! name := cstring bound buf in printf (line "%s") [Str (Some name)] else ret tt
  else if type =? T_DIR then rec buf
  else ret tt.

Fixpoint find (fuel d : nat) (path filename : Z) : U unit :=
  match fuel with
  | O => fun _ => Fuel
  | S fuel =>
      let buf := fr_buf fr d in
      let st := fr_st fr d in
      let! fd := open bound path 0 in
      if fd <? 0 then
        let! name := cstring bound path in
        fprintf 2 (line "find: cannot open %s") [Str (Some name)]
      else
      let! r := fstat fd st in
      if r <? 0 then
        let! name := cstring bound path in
        fprintf 2 (line "find: cannot stat %s") [Str (Some name)] ;;
        call (Close fd) ;; ret tt
      else
      let! type := st_type st in
      if negb (type =? T_DIR) then
        let! name := cstring bound path in
        fprintf 2 (line "find: %s is not a directory") [Str (Some name)] ;;
        call (Close fd) ;; ret tt
      else
      let! n := strlen bound path in
      if 512 <? n + 1 + DIRSIZ + 1 then
        printf (line "find: path too long") [] ;;
        call (Close fd) ;; ret tt
      else
      strcpy bound buf path ;;
      let! n := strlen bound buf in
      let p := buf + n in
      stb p Byte.x2f ;;
      let p := p + 1 in
      while bound (fun _ =>
        let! r := read fd (fr_de fr d) 16 in
        if r =? 16 then
          find_entry d p filename (fun path => find fuel (S d) path filename) ;;
          ret (inl tt)
        else ret (inr tt)) tt ;;
      call (Close fd) ;;
      ret tt
  end.

Definition find_main (argc argv : Z) : U unit :=
  if argc <? 3 then
    fprintf 2 (line "Usage: find <directory> <filename>") [] ;;
    exit 1
  else
  let! dir := Grep.arg argv 1 in
  let! name := Grep.arg argv 2 in
  find bound 0 dir name ;;
  exit 0.

End Find.

(** ** ls.c *)

(** The locals of [ls], and [static char buf[DIRSIZ+1]] of [fmtname]. *)
Record ls_vars := LsVars { lv_buf : Z; lv_de : Z; lv_st : Z; lv_fmt : Z; lv_dot : Z }.

Section Ls.
Variable lv : ls_vars.

Definition fmtname (path : Z) : U Z :=
  let! n := strlen bound path in
  let! p := while (S (S (Z.to_nat n))) (fun p =>
    if p <? path then ret (inr p) else
    let! b := ldb p in
    if negb (Byte.eqb b Byte.x2f) then ret (inl (p - 1)) else ret (inr p)) (path + n) in
  let p := p + 1 in
  let! n := strlen bound p in
  if DIRSIZ <=? n then ret p else
  let buf := lv_fmt lv in
  let! n := strlen bound p in
  memmove buf p n ;;
  let! n := strlen bound p in
  memset (buf + n) 32 (DIRSIZ - n) ;;
  ret buf.

(** [printf("%s %d %d %d\n", fmtname(path), st.type, st.ino, (int) st.size)] *)
Definition ls_line (path : Z) : U unit :=
  let! p := fmtname path in
  let! name := cstring bound p in
  let! type := st_type (lv_st lv) in
  let! ino := st_ino (lv_st lv) in
  let! size := st_size (lv_st lv) in
  printf (line "%s %d %d %d") [Str (Some name); Num type; Num ino; Num (s32 size)].

Definition ls_entry (p : Z) : U unit :=
  let! inum := ldh (lv_de lv) in
  if inum =? 0 then ret tt else
  memmove p (lv_de lv + 2) DIRSIZ ;;
  stb (p + DIRSIZ) Byte.x00 ;;
  let! r := stat bound (lv_buf lv) (lv_st lv) in
  if r <? 0 then
    let! name := cstring bound (lv_buf lv) in
    printf (line "ls: cannot stat %s") [Str (Some name)]
  else ls_line (lv_buf lv).

Definition ls (path : Z) : U unit :=
  let! fd := open bound path O_RDONLY in
  if fd <? 0 then
    let! name := cstring bound path in
    fprintf 2 (line "ls: cannot open %s") [Str (Some name)]
  else
  let! r := fstat fd (lv_st lv) in
  if r <? 0 then
    let! name := cstring bound path in
    fprintf 2 (line "ls: cannot stat %s") [Str (Some name)] ;;
    call (Close fd) ;; ret tt
  else
  let! type := st_type (lv_st lv) in
  (if (type =? T_DEVICE) || (type =? T_FILE) then ls_line path
   else if type =? T_DIR then
     let! n := strlen bound path in
     if 512 <? n + 1 + DIRSIZ + 1 then printf (line "ls: path too long") []
     else
     strcpy bound (lv_buf lv) path ;;
     let! n := strlen bound (lv_buf lv) in
     let p := lv_buf lv + n in
     stb p Byte.x2f ;;
     let p := p + 1 in
     while bound (fun _ =>
       let! r := read fd (lv_de lv) 16 in
       if r =? 16 then ls_entry p ;; ret (inl tt) else ret (inr tt)) tt
   else ret tt) ;;
  call (Close fd) ;;
  ret tt.

Definition ls_main (argc argv : Z) : U unit :=
  if argc <? 2 then
    ls (lv_dot lv) ;;
    exit 0
  else
  each_arg argc (fun i => let! a := Grep.arg argv i in ls a) ;;
  exit 0.

End Ls.

(** ** primes.c *)

(** [pipe(p)]: the result, and the two descriptors. *)
Definition pipe : U (Z * Z * Z) :=
  let! r := ecall Pipe in
  ret (r.1, s32 (get32 r.2 0), s32 (get32 r.2 4)).

(** [read(fd, &v, sizeof(int))]: the result, and the variable, at [v]. *)
Definition read_int (fd v : Z) : U (Z * Z) :=
  let! r := read fd v 4 in
  let! x := ldw v in
  ret (r, s32 x).

(** [write(fd, &i, sizeof(int))] *)
Definition write_int (fd i : Z) : U Z := call (Write fd (le_split 4 i)).

(** [num % prime]; the compiled remainder by 0 is undefined in C. *)
Definition rem (num prime : Z) : U Z := if prime =? 0 then panic "undefined: division by zero" else ret (Z.rem num prime).

(** The addresses of [prime] and [num]. *)
Record sieve_vars := SieveVars { sv_prime : Z; sv_num : Z }.

Section Primes.
Variable sv : sieve_vars.

Definition sieve_body (prime p1 : Z) (_ : unit) : U (unit + unit) :=
  let! (r, num) := read_int 0 (sv_num sv) in
  if 0 <? r then
    let! d := rem num prime in
    if negb (d =? 0) then
      let! r := write_int p1 num in
      if negb (r =? 4) then
        fprintf 2 (line "primes: sieve write error") [] ;;
        exit 1
      else ret (inl tt)
    else ret (inl tt)
  else ret (inr tt).

Fixpoint sieve (fuel : nat) : U unit :=
  match fuel with
  | O => fun _ => Fuel
  | S fuel =>
      let! (r, prime) := read_int 0 (sv_prime sv) in
      if r =? 0 then exit 0 else
      printf (line "prime %d") [Num prime] ;;
      let! (r, p0, p1) := pipe in
      if r <? 0 then exit 0 else
      let! pid := call Fork in
      (if pid =? 0 then
         call (Close p1) ;;
         call (Close 0) ;;
         call (Dup p0) ;;
         call (Close p0) ;;
         sieve fuel
       else
         call (Close p0) ;;
         while bound (sieve_body prime p1) tt ;;
         call (Close p1) ;;
         call Wait ;;
         ret tt) ;;
      exit 0
  end.

Definition primes_main : U unit :=
  let! (_, p0, p1) := pipe in
  let! pid := call Fork in
  (if pid =? 0 then
     call (Close p1) ;;
     call (Close 0) ;;
     call (Dup p0) ;;
     call (Close p0) ;;
     sieve bound
   else
     call (Close p0) ;;
     forM (map Z.of_nat (seq 2 279)) (fun i =>
       let! r := write_int p1 i in
       if negb (r =? 4) then
         fprintf 2 (line "primes: main write error") [] ;;
         exit 1
       else ret tt) ;;
     call (Close p1) ;;
     call Wait ;;
     ret tt) ;;
  exit 0.

End Primes.

(** ** pingpong.c *)

(** [buf] is the address of [char buf[1]]. *)
Definition pingpong_main (buf : Z) : U unit :=
  let! (_, a0, a1) := pipe in
  let! (_, b0, b1) := pipe in
  let! pid := call Fork in
  if pid <? 0 then
    fprintf 2 (line "fork failed") [] ;;
    exit 1
  else if pid =? 0 then
    call (Close a1) ;;
    call (Close b0) ;;
    let! n := read a0 buf 1 in
    (if n =? 1 then let! me := call Getpid in printf (line "%d: received ping") [Num me] else ret tt) ;;
    write b1 buf 1 ;;
    call (Close a0) ;;
    call (Close b1) ;;
    exit 0
  else
    call (Close a0) ;;
    call (Close b1) ;;
    call (Write a1 (bytes_of "x")) ;;
    let! n := read b0 buf 1 in
    (if n =? 1 then let! me := call Getpid in printf (line "%d: received pong") [Num me] else ret tt) ;;
    call (Close a1) ;;
    call (Close b0) ;;
    exit 0.

(** ** xargs.c *)

Definition MAX_LINE_LEN : Z := 512.

(** The addresses of [child_argv], [line_buf] and [ch]. *)
Record xargs_vars := XargsVars { xv_argv : Z; xv_line : Z; xv_ch : Z }.

Section Xargs.
Variable xv : xargs_vars.

Definition set_arg (i p : Z) : U unit := modify (fun s => set_u_mem (st64 (u_mem s) (xv_argv xv + 8 * i) p) s).

(** The strings of an argument vector, up to the null pointer. *)
Fixpoint argv_strings (fuel : nat) (argv : Z) : U (list (list byte)) :=
  match fuel with
  | O => fun _ => Fuel
  | S fuel =>
      let! p := ldd argv in
      if p =? 0 then ret [] else
      let! bs := cstring bound p in
      let! r := argv_strings fuel (argv + 8) in
      ret (bs :: r)
  end.

Definition exec (path argv : Z) : U Z :=
  let! bs := cstring bound path in
  let! args := argv_strings bound argv in
  call (Exec bs args).

(** Runs the command with the line as its last argument. *)
Definition xargs_run (argc command : Z) : U unit :=
  let! pid := call Fork in
  if pid =? 0 then
    set_arg (argc - 1) (xv_line xv) ;;
    set_arg argc 0 ;;
    exec command (xv_argv xv) ;;
    let! name := cstring bound command in
    fprintf 2 (line "xargs: exec %s failed") [Str (Some name)] ;;
    exit 1
  else call Wait ;; ret tt.

Definition xargs_body (argc command char_idx : Z) : U (Z + Z) :=
  let! n := read 0 (xv_ch xv) 1 in
  if negb (0 <? n) then ret (inr char_idx) else
  let! ch := ldb (xv_ch xv) in
  if Byte.eqb ch Byte.x0a then
    stb (xv_line xv + char_idx) Byte.x00 ;;
    xargs_run argc command ;;
    ret (inl 0)
  else if char_idx <? MAX_LINE_LEN - 1 then
    stb (xv_line xv + char_idx) ch ;;
    ret (inl (char_idx + 1))
  else ret (inl char_idx).

Definition xargs_main (argc argv : Z) : U unit :=
  if argc <? 2 then
    fprintf 2 (line "Usage: xargs <command> [args...]") [] ;;
    exit 1
  else
  let! command := Grep.arg argv 1 in
  each_arg argc (fun i => let! a := Grep.arg argv i in set_arg (i - 1) a) ;;
  let! char_idx := while bound (xargs_body argc command) 0 in
  (if 0 <? char_idx then
     stb (xv_line xv + char_idx) Byte.x00 ;;
     xargs_run argc command
   else ret tt) ;;
  exit 0.

End Xargs.

(** ** init.c *)

(** The inner loop, which waits for the shell. *)
Definition init_wait (pid : Z) (_ : unit) : U (unit + unit) :=
  let! wpid := call Wait in
  if wpid =? pid then ret (inr tt)
  else if wpid <? 0 then
    printf (line "init: wait returned an error") [] ;;
    exit 1
  else ret (inl tt).

Definition init_round (_ : unit) : U (unit + unit) :=
  printf (line "init: starting sh") [] ;;
  let! pid := call Fork in
  if pid <? 0 then
    printf (line "init: fork failed") [] ;;
    exit 1
  else if pid =? 0 then
    call (Exec (bytes_of "sh") [bytes_of "sh"]) ;;
    printf (line "init: exec sh failed") [] ;;
    exit 1
  else
  while bound (init_wait pid) tt ;;
  ret (inl tt).

Definition init_main : U unit :=
  let! fd := call (Open (bytes_of "console") O_RDWR) in
  (if fd <? 0 then
     call (Mknod (bytes_of "console") 1 0) ;;
     call (Open (bytes_of "console") O_RDWR) ;;
     ret tt
   else ret tt) ;;
  call (Dup 0) ;;
  call (Dup 0) ;;
  while bound init_round tt.

(** ** forktest.c *)

Definition print (s : string) : U unit := call (Write 1 (bytes_of s)) ;; ret tt.

Definition forktest_fork (n : Z) : U (Z + Z) :=
  if negb (n <? 1000) then ret (inr n) else
  let! pid := call Fork in
  if pid <? 0 then ret (inr n)
  else if pid =? 0 then exit 0
  else ret (inl (n + 1)).

Definition forktest_wait (n : Z) : U (Z + unit) :=
  if negb (0 <? n) then ret (inr tt) else
  let! r := call Wait in
  if r <? 0 then print (line "wait stopped early") ;; exit 1
  else ret (inl (n - 1)).

Definition forktest : U unit :=
  print (line "fork test") ;;
  let! n := while 1001 forktest_fork 0 in
  if n =? 1000 then print (line "fork claimed to work N times!") ;; exit 1 else
  while 1001 forktest_wait n ;;
  let! r := call Wait in
  if negb (r =? -1) then print (line "wait got too many") ;; exit 1 else
  print (line "fork test OK").

Definition forktest_main : U unit := forktest ;; exit 0.

(** ** stressfs.c *)

(** [data] is the address of [char data[512]]; [path[8] += i]. *)
Definition stressfs_main (data : Z) : U unit :=
  printf (line "stressfs starting") [] ;;
  memset data 97 512 ;;
  let! i := while 5 (fun i =>
    if i <? 4 then let! pid := call Fork in if 0 <? pid then ret (inr i) else ret (inl (i + 1))
    else ret (inr i)) 0 in
  printf (line "write %d") [Num i] ;;
  let path := bytes_of "stressfs" ++ [byte.of_Z (48 + i)] in
  let! fd := call (Open path (Z.lor O_CREATE O_RDWR)) in
  forM (seq 0 20) (fun _ => write fd data 512 ;; ret tt) ;;
  call (Close fd) ;;
  printf (line "read") [] ;;
  let! fd := call (Open path O_RDONLY) in
  forM (seq 0 20) (fun _ => read fd data 512 ;; ret tt) ;;
  call (Close fd) ;;
  call Wait ;;
  exit 0.

End Programs.

End Programs.
