(* ===== verification/ProgramsOk.v ===== *)
(** * What the programs on files do

    [cat] writes the files it is given, one after the other; [wc] counts lines,
    words and bytes; [echo] writes its arguments.  They run on a kernel with files
    that can be opened and read to their ends, and an output. *)

From S2P Require Import Prelude Riscv Memory CString Block Uart Printf User UserPrintf Grep Programs.
Import User.Ulib UserPrintf.UPrintf Programs.Programs.

Module ProgramsOk.

(** ** Files *)

(** What is left to read at each open descriptor, what was written to descriptor 1,
    and the contents of the files. *)
Class Files (W : Type) `{!Unix W} := {
  rest : W -> gmap Z (list byte);
  out : W -> list byte;
  contents : list byte -> option (list byte);
  fi_open : forall w path, exists fd w', syscalls w (Open path O_RDONLY) = ((fd, []), w') /\ out w' = out w /\
    match contents path with
    | Some c => 0 <= fd /\ rest w !! fd = None /\ rest w' = <[fd := c]> (rest w)
    | None => fd < 0 /\ rest w' = rest w
    end;
  fi_read : forall w fd c n, rest w !! fd = Some c -> 0 < n -> exists bs c' w', syscalls w (Read fd n) = ((Z.of_nat (length bs), bs), w') /\
    c = bs ++ c' /\ Z.of_nat (length bs) <= n /\ (bs = [] -> c = []) /\ rest w' = <[fd := c']> (rest w) /\ out w' = out w;
  fi_write : forall w bs, exists w', syscalls w (Write 1 bs) = ((Z.of_nat (length bs), []), w') /\ out w' = out w ++ bs /\ rest w' = rest w;
  fi_err : forall w bs, exists r w', syscalls w (Write 2 bs) = (r, w') /\ out w' = out w /\ rest w' = rest w;
  fi_close : forall w fd, exists r w', syscalls w (Close fd) = (r, w') /\ out w' = out w /\ rest w' = delete fd (rest w)
}.

(** The arguments of a program: pointers to strings, apart from [len] bytes at [buf]. *)
Definition args_at (m : mem) (argv : Z) (L : list (list byte)) (buf len : Z) : Prop :=
  forall i a, L !! i = Some a -> exists p, ld64 m (argv + 8 * Z.of_nat i) = p /\ cstr m p a /\
    apart buf len (argv + 8 * Z.of_nat i) 8 /\ apart buf len p (Z.of_nat (length a) + 1).

Lemma args_same m m' argv L buf len : args_at m argv L buf len -> Grep.same_out buf len m m' -> args_at m' argv L buf len.
Proof.
  intros H Hs i a Hi. destruct (H i a Hi) as (p & Hp & Hc & H1 & H2). exists p. unfold apart in *. split_and!; [|eapply Grep.cstr_same; [done..|]; lia|done|done].
  rewrite <- Hp. apply ld64_ext. intros x Hx. apply Hs. lia.
Qed.

Section Files.
Context {W : Type} `{!Unix W} `{!Files W}.
Implicit Types (w : W) (s : uproc).
Variable bound : nat.

Lemma drive_message fd (c : U unit) o s w : fd = 1 \/ fd = 2 -> uemits fd c tt o ->
  exists s' w', drive (c s) w = Returned tt s' w' /\ u_mem s' = u_mem s /\ out w' = out w ++ (if fd =? 1 then o else []) /\ rest w' = rest w.
Proof.
  intros Hfd H. specialize (H s). remember (u_mem s) as m eqn:Em. clear Em. revert w. induction H as [a t|t k bs a m o Hc H IH]; intros w; simpl.
  - exists t, w. destruct (_ =? _); by rewrite app_nil_r.
  - rewrite Hc. destruct Hfd as [->| ->].
    + destruct (fi_write w bs) as (w1 & E & O & I). rewrite E. destruct (IH (Z.of_nat (length bs), []) w1) as (s' & w' & E' & M & O' & I').
      exists s', w'. simpl in *. destruct a. by rewrite O', O, I', I, app_assoc.
    + destruct (fi_err w bs) as (r & w1 & E & O & I). rewrite E. destruct (IH r w1) as (s' & w' & E' & M & O' & I').
      exists s', w'. simpl in *. destruct a. by rewrite O', O, I', I.
Qed.

Lemma drive_read_file s w fd c buf n : rest w !! fd = Some c -> 0 < n ->
  exists bs c' s' w', drive (read fd buf n s) w = Returned (Z.of_nat (length bs)) s' w' /\ u_mem s' = st_bytes (u_mem s) buf bs /\
    c = bs ++ c' /\ Z.of_nat (length bs) <= n /\ (bs = [] -> c = []) /\ rest w' = <[fd := c']> (rest w) /\ out w' = out w.
Proof.
  intros Hc Hn. destruct (fi_read w fd c n Hc Hn) as (bs & c' & w' & E & H). unfold read.
  assert (E1 := drive_ecall (Read fd n) s w ltac:(done)). rewrite E in E1. urun E1. by eexists bs, c', _, w'.
Qed.

Lemma drive_write_out s w p n : 0 <= n -> exists s' w', drive (write 1 p n s) w = Returned n s' w' /\ u_mem s' = u_mem s /\
  out w' = out w ++ ld_bytes (u_mem s) p (Z.to_nat n) /\ rest w' = rest w.
Proof.
  intros Hn. destruct (fi_write w (ld_bytes (u_mem s) p (Z.to_nat n))) as (w' & E & H). unfold write, ldbs. rewrite bind_gets. unfold call.
  assert (E1 := drive_ecall (Write 1 (ld_bytes (u_mem s) p (Z.to_nat n))) s w ltac:(done)). rewrite E in E1. urun E1. rewrite length_ld_bytes, Z2Nat.id by done.
  by eexists _, w'.
Qed.

Lemma drive_close_fd s w fd : exists s' w', (exists r, drive (call (Close fd) s) w = Returned r s' w') /\ u_mem s' = u_mem s /\ out w' = out w /\ rest w' = delete fd (rest w).
Proof.
  destruct (fi_close w fd) as (r & w' & E & H). unfold call. assert (E1 := drive_ecall (Close fd) s w ltac:(done)). rewrite E in E1. urun E1. eexists _, w'. split; [by eexists|done].
Qed.

(** ** [cat] *)

Variable buf : Z.

Lemma cat_loop fd : forall fuel s w c, rest w !! fd = Some c -> (length c < fuel)%nat ->
  exists s' w', drive (while fuel (cat_body buf fd) tt s) w = Returned 0 s' w' /\ out w' = out w ++ c /\ rest w' = <[fd := []]> (rest w) /\
    Grep.same_out buf 512 (u_mem s) (u_mem s').
Proof.
  induction fuel as [|fuel IH]; intros s w c Hc Hf; [lia|].
  destruct (drive_read_file s w fd c buf 512 Hc ltac:(lia)) as (bs & c' & s1 & w1 & E1 & M1 & -> & Hl & Hend & R1 & O1).
  assert (Hs1 : Grep.same_out buf 512 (u_mem s) (u_mem s1)).
  { rewrite M1. eapply Grep.same_out_sub; [apply Grep.same_out_st_bytes|lia|lia]. }
  destruct (decide (bs = [])) as [->|Hne].
  - specialize (Hend eq_refl). simpl in Hend. subst c'. assert (E : drive (cat_body buf fd tt s) w = Returned (inr 0) s1 w1) by (unfold cat_body; by urun E1).
    rewrite (drive_while _ _ _ _ _ _ _ _ E). exists s1, w1. by rewrite O1, R1, app_nil_r.
  - assert (Hpos : (0 < length bs)%nat) by (destruct bs; simpl; [done|lia]).
    destruct (drive_write_out s1 w1 buf (Z.of_nat (length bs)) ltac:(lia)) as (s2 & w2 & E2 & M2 & O2 & R2).
    rewrite M1, Nat2Z.id, ld_bytes_st_bytes in O2 by done.
    assert (E : drive (cat_body buf fd tt s) w = Returned (inl tt) s2 w2).
    { unfold cat_body. urun E1. rewrite (proj2 (Z.ltb_lt _ _)) by lia. urun E2. by rewrite Z.eqb_refl. }
    rewrite (drive_while _ _ _ _ _ _ _ _ E). destruct (IH s2 w2 c') as (s3 & w3 & E3 & O3 & R3 & H3);
      [by rewrite R2, R1, lookup_insert_eq|rewrite length_app in Hf; lia|].
    exists s3, w3. split; [done|]. split; [by rewrite O3, O2, O1, <- app_assoc|]. split; [by rewrite R3, R2, R1, insert_insert_eq|].
    etrans; [exact Hs1|]. by rewrite <- M2.
Qed.

Lemma cat_ok fd s w c : rest w !! fd = Some c -> (length c < bound)%nat ->
  exists s' w', drive (cat bound buf fd s) w = Returned tt s' w' /\ out w' = out w ++ c /\ rest w' = <[fd := []]> (rest w) /\
    Grep.same_out buf 512 (u_mem s) (u_mem s').
Proof.
  intros Hc Hb. destruct (cat_loop fd bound s w c Hc Hb) as (s' & w' & E & H). exists s', w'. split; [|done]. unfold cat. by urun E.
Qed.

Lemma drive_open s w p path : cstr (u_mem s) p path -> (length path < bound)%nat ->
  exists fd s' w', drive (open bound p O_RDONLY s) w = Returned fd s' w' /\ u_mem s' = u_mem s /\ out w' = out w /\
    match contents path with
    | Some c => 0 <= fd /\ rest w !! fd = None /\ rest w' = <[fd := c]> (rest w)
    | None => fd < 0 /\ rest w' = rest w
    end.
Proof.
  intros Hp Hb. destruct (fi_open w path) as (fd & w' & E & H). unfold open. urun (cstring_ok bound p path s Hp Hb). unfold call.
  assert (E1 := drive_ecall (Open path O_RDONLY) s w ltac:(done)). rewrite E in E1. urun E1. by eexists fd, _, w'.
Qed.

(** ** A program that goes through its arguments *)

(** What it does with one: write and go on, or write and exit. *)
Definition action : Type := list byte + list byte * Z.

(** What it writes for all, and its exit status. *)
Fixpoint each_file (act : list byte -> action) (paths : list (list byte)) : list byte * Z :=
  match paths with
  | [] => ([], 0)
  | p :: paths => match act p with inl o => (o ++ (each_file act paths).1, (each_file act paths).2) | inr r => r end
  end.

(** [f] acts so on the argument at [k]. *)
Definition acts (f : Z -> U unit) (argv : Z) (act : list byte -> action) (path : list byte) : Prop :=
  forall k s w p, ld64 (u_mem s) (argv + 8 * k) = p -> cstr (u_mem s) p path -> apart buf 512 p (Z.of_nat (length path) + 1) ->
  match act path with
  | inl o => exists s' w', drive (f k s) w = Returned tt s' w' /\ out w' = out w ++ o /\ rest w' = rest w /\ Grep.same_out buf 512 (u_mem s) (u_mem s')
  | inr (o, st) => exists s' w', drive (f k s) w = Exited st s' w' /\ out w' = out w ++ o
  end.

Lemma args_tail m argv a L k : args_at m (argv + 8 * k) (a :: L) buf 512 -> args_at m (argv + 8 * (k + 1)) L buf 512.
Proof. intros H i b Hi. replace (argv + 8 * (k + 1) + 8 * Z.of_nat i) with (argv + 8 * k + 8 * Z.of_nat (S i)) by lia. by apply H. Qed.

Lemma argv_loop f argv act : forall paths k s w, args_at (u_mem s) (argv + 8 * Z.of_nat k) paths buf 512 -> Forall (acts f argv act) paths ->
  exists s' w', drive (bind (forM (map Z.of_nat (seq k (length paths))) f) (fun _ => exit (A := unit) 0) s) w =
    Exited (each_file act paths).2 s' w' /\ out w' = out w ++ (each_file act paths).1.
Proof.
  induction paths as [|p paths IH]; intros k s w Ha Hp; cbn [length seq map forM each_file].
  { exists (set_u_call (Exit 0) s), w. by rewrite app_nil_r. }
  apply Forall_cons in Hp as [Hf Hp]. rewrite drive_assoc. destruct (Ha 0%nat p eq_refl) as (q & Hq & Hc & _ & Hap).
  rewrite Z.add_0_r in Hq. specialize (Hf (Z.of_nat k) s w q Hq Hc Hap). destruct (act p) as [o|[o st]].
  - destruct Hf as (s1 & w1 & E1 & O1 & R1 & S1). urun E1. destruct (IH (S k) s1 w1) as (s2 & w2 & E2 & O2); [|done|].
    { replace (Z.of_nat (S k)) with (Z.of_nat k + 1) by lia. eapply args_tail, args_same; [exact Ha|done]. }
    exists s2, w2. split; [done|]. rewrite O2, O1. by rewrite <- app_assoc.
  - destruct Hf as (s1 & w1 & E1 & O1). urun E1. by exists s1, w1.
Qed.

(** The file of a path can be read within the bound. *)
Definition readable (path : list byte) : Prop := (length path < bound)%nat /\ forall c, contents path = Some c -> (length c < bound)%nat.

Definition cat_action (path : list byte) : action := match contents path with Some c => inl c | None => inr ([], 1) end.

Lemma cat_acts argv path : readable path -> acts (cat_file bound buf argv) argv cat_action path.
Proof.
  intros [Hb Hlen] k s w p Hp Hc _. destruct (drive_open s w p path Hc Hb) as (fd & s1 & w1 & E1 & M1 & O1 & H). unfold cat_file, Grep.arg, cat_action.
  destruct (contents path) as [c|].
  - destruct H as (H0 & Hn & R1). destruct (cat_ok fd s1 w1 c) as (s2 & w2 & E2 & O2 & R2 & S2); [by rewrite R1, lookup_insert_eq|by apply Hlen|].
    destruct (drive_close_fd s2 w2 fd) as (s3 & w3 & [r E3] & M3 & O3 & R3). exists s3, w3. split.
    + rewrite bind_gets, Hp. urun E1. rewrite (proj2 (Z.ltb_ge _ _)) by lia. urun E2. by urun E3.
    + split; [by rewrite O3, O2, O1|]. split; [|by rewrite M3, <- M1]. rewrite R3, R2, R1, insert_insert_eq. by apply delete_insert_id.
  - destruct H as [H0 R1]. destruct (drive_message 2 _ _ s1 w1 (or_intror eq_refl) (fprintf_emits 2 (line "cat: cannot open %s") [Str (Some path)] _ eq_refl eq_refl))
      as (s2 & w2 & E2 & _ & O2 & _). eexists _, w2. split; [|rewrite O2, O1; done].
    rewrite bind_gets, Hp. urun E1. rewrite (proj2 (Z.ltb_lt _ _)) by lia. rewrite <- M1 in Hc. urun (cstring_ok bound p path s1 Hc Hb). by urun E2.
Qed.

(** ** [wc] *)

(** The words of a text: what is between blanks. *)
Fixpoint fields (cur : list byte) (bs : list byte) : list (list byte) :=
  match bs with
  | [] => match cur with [] => [] | _ => [cur] end
  | b :: bs => if wc_blank b then match cur with [] => fields [] bs | _ => cur :: fields [] bs end else fields (cur ++ [b]) bs
  end.

Definition newlines (bs : list byte) : Z := Z.of_nat (length (List.filter (Byte.eqb Byte.x0a) bs)).

Definition words (bs : list byte) : Z := Z.of_nat (length (fields [] bs)).

(** The text so far, what the counters hold, and whether it ends in a word. *)
Definition counted (bs : list byte) : Z * Z * Z * bool :=
  (newlines bs, words bs, Z.of_nat (length bs), match last bs with Some b => negb (wc_blank b) | None => false end).

Lemma fields_snoc bs b : forall cur, length (fields cur (bs ++ [b])) =
  (length (fields cur bs) + (if wc_blank b then 0 else match last bs with Some c => if wc_blank c then 1 else 0 | None => match cur with [] => 1 | _ => 0 end end))%nat.
Proof.
  induction bs as [|c bs IH]; intros cur.
  - cbn [app fields last]. destruct (wc_blank b), cur; simpl; try lia.
  - assert (El : last (c :: bs) = Some (default c (last bs))) by (destruct bs; [done|simpl; by destruct (last _) eqn:E; [|apply last_None in E] ]).
    rewrite El. cbn [app fields]. destruct (wc_blank c) eqn:Ec.
    + assert (E : length (fields [] (bs ++ [b])) = (length (fields [] bs) + (if wc_blank b then 0 else if wc_blank (default c (last bs)) then 1 else 0))%nat).
      { rewrite IH. destruct (last bs); [done|]. simpl. by rewrite Ec. }
      destruct cur; cbn [length]; rewrite E; lia.
    + rewrite IH. destruct (wc_blank b); [done|]. destruct (last bs); [done|]. simpl. rewrite Ec. by destruct cur.
Qed.

Lemma wc_char_ok b bs s : Z.of_nat (length bs) + 1 < 2 ^ 31 -> wc_char b (counted bs) s = Ok (counted (bs ++ [b])) s.
Proof.
  intros Hl. unfold wc_char, counted. rewrite (proj2 (Z.leb_gt _ _)) by lia. rewrite last_snoc, length_app. cbn [length].
  replace (Z.of_nat (length bs + 1)) with (Z.of_nat (length bs) + 1) by lia.
  assert (En : (if Byte.eqb b Byte.x0a then newlines bs + 1 else newlines bs) = newlines (bs ++ [b])).
  { unfold newlines. rewrite List.filter_app, length_app. cbn [List.filter]. destruct (byte_eqb_spec b Byte.x0a) as [->|Hne].
    - rewrite byte_eqb_refl. simpl. lia.
    - rewrite byte_eqb_ne by done. simpl. lia. }
  rewrite En. assert (Ew : words (bs ++ [b]) = words bs + (if wc_blank b then 0 else match last bs with Some c => if wc_blank c then 1 else 0 | None => 1 end)).
  { unfold words. rewrite fields_snoc. destruct (wc_blank b), (last bs) as [c|]; try destruct (wc_blank c); lia. }
  rewrite Ew. destruct (wc_blank b), (last bs) as [c|]; cbn [negb]; try destruct (wc_blank c); cbn [negb]; unfold ret; by rewrite ?Z.add_0_r.
Qed.

Lemma wc_chars_ok n bs s : let new := ld_bytes (u_mem s) buf (Z.to_nat n) in 0 <= n -> Z.of_nat (length bs) + n < 2 ^ 31 ->
  wc_chars buf n (counted bs) s = Ok (counted (bs ++ new)) s.
Proof.
  intros new Hn Hl. unfold wc_chars.
  enough (G : forall d i, i + Z.of_nat d = n -> 0 <= i -> while (S d) (fun '(i, st) => if i <? n then
      let! b := ldb (buf + i) in let! st := wc_char b st in ret (inl (i + 1, st)) else ret (inr st)) (i, counted (bs ++ take (Z.to_nat i) new)) s =
    Ok (counted (bs ++ new)) s).
  { specialize (G (Z.to_nat n) 0 ltac:(lia) ltac:(lia)). cbn [Z.to_nat take] in G. by rewrite app_nil_r in G. }
  assert (Hlen : length new = Z.to_nat n) by (unfold new; by rewrite length_ld_bytes).
  induction d as [|d IH]; intros i Hi H0.
  - rewrite (while_S _ _ _ _ (inr (counted (bs ++ new))) s); [done|]. rewrite (proj2 (Z.ltb_ge i n)) by lia. by rewrite take_ge by lia.
  - assert (Hb : new !! Z.to_nat i = Some (ld8 (u_mem s) (buf + i))).
    { unfold new. rewrite ld_bytes_lookup by lia. by rewrite Z2Nat.id by lia. }
    assert (E := wc_char_ok (ld8 (u_mem s) (buf + i)) (bs ++ take (Z.to_nat i) new) s ltac:(rewrite length_app, length_take; lia)).
    rewrite <- app_assoc, <- take_S_r in E by done. rewrite (while_S _ _ _ _ (inl (i + 1, counted (bs ++ take (S (Z.to_nat i)) new))) s).
    2: { rewrite (proj2 (Z.ltb_lt i n)) by lia. unfold ldb. rewrite bind_gets. by rewrite (bind_Ok _ _ _ _ _ E). }
    replace (S (Z.to_nat i)) with (Z.to_nat (i + 1)) by lia. apply IH; lia.
Qed.

Lemma wc_loop fd : forall fuel s w bs c, rest w !! fd = Some c -> (length c < fuel)%nat -> Z.of_nat (length bs + length c) < 2 ^ 31 ->
  exists s' w', drive (while fuel (wc_body buf fd) (counted bs) s) w = Returned (0, counted (bs ++ c)) s' w' /\ out w' = out w /\
    rest w' = <[fd := []]> (rest w) /\ Grep.same_out buf 512 (u_mem s) (u_mem s').
Proof.
  induction fuel as [|fuel IH]; intros s w bs c Hc Hf Hlen; [lia|].
  destruct (drive_read_file s w fd c buf 512 Hc ltac:(lia)) as (new & c' & s1 & w1 & E1 & M1 & -> & Hl & Hend & R1 & O1).
  assert (Hs1 : Grep.same_out buf 512 (u_mem s) (u_mem s1)).
  { rewrite M1. eapply Grep.same_out_sub; [apply Grep.same_out_st_bytes|lia|lia]. }
  rewrite length_app in Hf, Hlen. destruct (decide (new = [])) as [->|Hne].
  - specialize (Hend eq_refl). simpl in Hend. subst c'.
    assert (E : drive (wc_body buf fd (counted bs) s) w = Returned (inr (0, counted bs)) s1 w1) by (unfold wc_body; by urun E1).
    rewrite (drive_while _ _ _ _ _ _ _ _ E). exists s1, w1. by rewrite O1, R1, !app_nil_r.
  - assert (Hpos : (0 < length new)%nat) by (destruct new; simpl; [done|lia]).
    assert (E2 := wc_chars_ok (Z.of_nat (length new)) bs s1 ltac:(lia) ltac:(lia)). rewrite M1, Nat2Z.id, ld_bytes_st_bytes in E2 by done.
    assert (E : drive (wc_body buf fd (counted bs) s) w = Returned (inl (counted (bs ++ new))) s1 w1).
    { unfold wc_body. urun E1. rewrite (proj2 (Z.ltb_lt _ _)) by lia. by urun E2. }
    rewrite (drive_while _ _ _ _ _ _ _ _ E). destruct (IH s1 w1 (bs ++ new) c') as (s3 & w3 & E3 & O3 & R3 & H3);
      [by rewrite R1, lookup_insert_eq|lia|rewrite length_app; lia|].
    exists s3, w3. rewrite app_assoc. split; [done|]. split; [by rewrite O3, O1|]. split; [by rewrite R3, R1, insert_insert_eq|]. by etrans.
Qed.

(** The line that [wc] prints. *)
Definition wc_report (c name : list byte) : list byte :=
  int_numeral 10 (newlines c) true ++ Byte.x20 :: int_numeral 10 (words c) true ++ Byte.x20 :: int_numeral 10 (Z.of_nat (length c)) true ++
  Byte.x20 :: name ++ [Byte.x0a].

Lemma fields_length bs : forall cur, (length (fields cur bs) <= length cur + length bs)%nat.
Proof.
  induction bs as [|b bs IH]; intros cur; cbn [fields length]; [destruct cur; simpl; lia|]. destruct (wc_blank b).
  - specialize (IH []). destruct cur; simpl in *; lia.
  - specialize (IH (cur ++ [b])). rewrite length_app in IH. simpl in IH. lia.
Qed.

Lemma wc_report_emits c name : Z.of_nat (length c) < 2 ^ 31 ->
  uemits 1 (printf (line "%d %d %d %s") [Num (newlines c); Num (words c); Num (Z.of_nat (length c)); Str (Some name)]) tt (wc_report c name).
Proof.
  intros Hl. apply (fprintf_emits 1 (line "%d %d %d %s")); [done|].
  assert (H1 : s32 (s32 (newlines c)) = newlines c).
  { assert (0 <= newlines c < 2 ^ 31). { unfold newlines. split; [lia|]. eapply Z.le_lt_trans; [apply Nat2Z.inj_le, List.filter_length_le|done]. } rewrite s32_s32. apply s32_small. lia. }
  assert (H2 : s32 (s32 (words c)) = words c).
  { assert (0 <= words c < 2 ^ 31). { unfold words. split; [lia|]. eapply Z.le_lt_trans; [apply Nat2Z.inj_le, fields_length|done]. } rewrite s32_s32. apply s32_small. lia. }
  assert (H3 : s32 (s32 (Z.of_nat (length c))) = Z.of_nat (length c)) by (rewrite s32_s32; apply s32_small; lia).
  unfold wc_report. rewrite <- H1, <- H2, <- H3 at 2. reflexivity.
Qed.

Lemma wc_ok fd name s w c bs : rest w !! fd = Some c -> (length c < bound)%nat -> Z.of_nat (length c) < 2 ^ 31 ->
  (forall s', Grep.same_out buf 512 (u_mem s) (u_mem s') -> name s' = Ok bs s') ->
  exists s' w', drive (wc bound buf fd name s) w = Returned tt s' w' /\ out w' = out w ++ wc_report c bs /\ rest w' = <[fd := []]> (rest w) /\
    Grep.same_out buf 512 (u_mem s) (u_mem s').
Proof.
  intros Hc Hb Hl Hname. destruct (wc_loop fd bound s w [] c Hc Hb Hl) as (s1 & w1 & E1 & O1 & R1 & S1).
  destruct (drive_message 1 _ _ s1 w1 (or_introl eq_refl) (wc_report_emits c bs Hl)) as (s2 & w2 & E2 & M2 & O2 & R2).
  exists s2, w2. split; [|split; [by rewrite O2, O1|split; [by rewrite R2|by rewrite M2] ] ]. unfold wc. urun E1. cbn [counted app].
  change (0 <? 0) with false. cbn match. urun (Hname s1 S1). exact E2.
Qed.

Definition wc_action (path : list byte) : action :=
  match contents path with Some c => inl (wc_report c path) | None => inr (bytes_of "wc: cannot open " ++ path ++ [Byte.x0a], 1) end.

Lemma wc_acts argv path : readable path -> (forall c, contents path = Some c -> Z.of_nat (length c) < 2 ^ 31) -> acts (wc_file bound buf argv) argv wc_action path.
Proof.
  intros [Hb Hlen] Hsz k s w p Hp Hc Hap. destruct (drive_open s w p path Hc Hb) as (fd & s1 & w1 & E1 & M1 & O1 & H). unfold wc_file, Grep.arg, wc_action.
  destruct (contents path) as [c|].
  - destruct H as (H0 & Hn & R1). destruct (wc_ok fd (cstring bound p) s1 w1 c path) as (s2 & w2 & E2 & O2 & R2 & S2);
      [by rewrite R1, lookup_insert_eq|by apply Hlen|by apply Hsz| |].
    { intros s' Hs. apply cstring_ok; [|done]. rewrite M1 in Hs. eapply Grep.cstr_same; [exact Hc|exact Hs|]. unfold apart in Hap. lia. }
    destruct (drive_close_fd s2 w2 fd) as (s3 & w3 & [r E3] & M3 & O3 & R3). exists s3, w3. split.
    + rewrite bind_gets, Hp. urun E1. rewrite (proj2 (Z.ltb_ge _ _)) by lia. urun E2. by urun E3.
    + split; [by rewrite O3, O2, O1|]. split; [|by rewrite M3, <- M1]. rewrite R3, R2, R1, insert_insert_eq. by apply delete_insert_id.
  - destruct H as [H0 R1]. destruct (drive_message 1 _ _ s1 w1 (or_introl eq_refl) (fprintf_emits 1 (line "wc: cannot open %s") [Str (Some path)] _ eq_refl eq_refl))
      as (s2 & w2 & E2 & _ & O2 & _). eexists _, w2. split; [|rewrite O2, O1; done].
    rewrite bind_gets, Hp. urun E1. rewrite (proj2 (Z.ltb_lt _ _)) by lia. rewrite <- M1 in Hc. urun (cstring_ok bound p path s1 Hc Hb). by urun E2.
Qed.

(** ** [echo] *)

(** The arguments with spaces between them, and a newline after the last. *)
Fixpoint echo_text (args : list (list byte)) : list byte :=
  match args with
  | [] => []
  | a :: args => a ++ match args with [] => [Byte.x0a] | _ => Byte.x20 :: echo_text args end
  end.

Lemma echo_args argc argv : forall args k s w, args_at (u_mem s) (argv + 8 * Z.of_nat k) args buf 512 -> argc = Z.of_nat (k + length args) ->
  Forall (fun a => (length a < bound)%nat) args ->
  exists s' w', drive (bind (forM (map Z.of_nat (seq k (length args))) (echo_arg bound argc argv)) (fun _ => exit (A := unit) 0) s) w =
    Exited 0 s' w' /\ out w' = out w ++ echo_text args.
Proof.
  induction args as [|a args IH]; intros k s w Ha Hargc Hb; cbn [length seq map forM echo_text].
  { exists (set_u_call (Exit 0) s), w. by rewrite app_nil_r. }
  apply Forall_cons in Hb as [Hb1 Hb]. destruct (Ha 0%nat a eq_refl) as (p & Hp & Hc & _). rewrite Z.add_0_r in Hp.
  destruct (drive_write_out s w p (Z.of_nat (length a)) ltac:(lia)) as (s1 & w1 & E1 & M1 & O1 & R1).
  assert (Ea : ld_bytes (u_mem s) p (length a) = a) by (apply cstr_iff in Hc as (_ & H & _); exact H). rewrite Nat2Z.id, Ea in O1.
  set (sep := match args with [] => [Byte.x0a] | _ => [Byte.x20] end).
  destruct (fi_write w1 sep) as (w2 & E2 & O2 & R2). set (s2 := set_u_answer (Z.of_nat (length sep), []) (set_u_call (Write 1 sep) s1)).
  assert (E : drive (echo_arg bound argc argv (Z.of_nat k) s) w = Returned tt s2 w2).
  { unfold echo_arg, Grep.arg. rewrite bind_gets, Hp. urun (strlen_ok bound p a s Hc Hb1). urun E1.
    assert (Ew : drive (call (Write 1 sep) s1) w1 = Returned (Z.of_nat (length sep)) s2 w2).
    { unfold call. assert (E3 := drive_ecall (Write 1 sep) s1 w1 ltac:(done)). rewrite E2 in E3. by urun E3. }
    unfold sep in Ew. destruct args as [|b args].
    - rewrite (proj2 (Z.ltb_ge _ _)) by (simpl in Hargc; lia). by urun Ew.
    - rewrite (proj2 (Z.ltb_lt _ _)) by (simpl in Hargc; lia). by urun Ew. }
  rewrite drive_assoc. urun E. destruct (IH (S k) s2 w2) as (s3 & w3 & E3 & O3); [|simpl in Hargc; lia|done|].
  { replace (Z.of_nat (S k)) with (Z.of_nat k + 1) by lia. unfold s2. cbn [u_mem set_u_answer set_u_call]. rewrite M1. by eapply args_tail. }
  exists s3, w3. split; [done|]. rewrite O3, O2, O1, <- !app_assoc. unfold sep. f_equal. f_equal. destruct args; [by rewrite app_nil_r|done].
Qed.

End Files.

(** ** The theorems *)

Section Theorems.
Context {W : Type} `{!Unix W} `{!Files W}.

(** [cat] writes to its output the contents of the files it is given, in order
    and nothing else, and exits with status 0; at a file that cannot be opened it
    stops and exits with status 1.  Without arguments it copies its input. *)
Theorem cat_correct (bound : nat) (buf argv : Z) (name : list byte) (paths : list (list byte)) (s : uproc) (w : W) (c0 : list byte)
    (Ha : args_at (u_mem s) argv (name :: paths) buf 512) (Hf : Forall (readable bound) paths)
    (Hin : rest w !! 0 = Some c0) (H0 : (length c0 < bound)%nat) :
  let r := match paths with [] => (c0, 0) | _ => each_file cat_action paths end in
  exists s' w', drive (cat_main bound buf (Z.of_nat (length (name :: paths))) argv s) w = Exited r.2 s' w' /\ out w' = out w ++ r.1.
Proof.
  unfold cat_main. destruct paths as [|p paths].
  - cbn [length]. change (Z.of_nat 1 <=? 1) with true. cbn match. destruct (cat_ok bound buf 0 s w c0 Hin H0) as (s1 & w1 & E1 & O1 & _).
    exists (set_u_call (Exit 0) s1), w1. by urun E1.
  - rewrite (proj2 (Z.leb_gt _ _)) by (simpl; lia). unfold each_arg. replace (Z.to_nat _) with (length (p :: paths)) by (simpl; lia).
    apply (argv_loop buf (cat_file bound buf argv) argv cat_action (p :: paths) 1); [by apply (args_tail buf _ argv name _ 0); rewrite Z.add_0_r|].
    eapply Forall_impl; [exact Hf|]. intros x Hx. by apply cat_acts.
Qed.

(** C29: [wc] prints for each file the number of its lines, words and bytes and its
    name, where words are what is between blanks; for a file that cannot be opened
    it prints a message and exits with status 1.  Without arguments it counts its
    input. *)
Theorem wc_correct (bound : nat) (buf argv : Z) (name : list byte) (paths : list (list byte)) (s : uproc) (w : W) (c0 : list byte)
    (Ha : args_at (u_mem s) argv (name :: paths) buf 512) (Hf : Forall (readable bound) paths)
    (Hsz : Forall (fun p => forall c, contents p = Some c -> Z.of_nat (length c) < 2 ^ 31) paths)
    (Hin : rest w !! 0 = Some c0) (H0 : (length c0 < bound)%nat) (H0' : Z.of_nat (length c0) < 2 ^ 31) :
  let r := match paths with [] => (wc_report c0 [], 0) | _ => each_file wc_action paths end in
  exists s' w', drive (wc_main bound buf (Z.of_nat (length (name :: paths))) argv s) w = Exited r.2 s' w' /\ out w' = out w ++ r.1.
Proof.
  unfold wc_main. destruct paths as [|p paths].
  - cbn [length]. change (Z.of_nat 1 <=? 1) with true. cbn match. destruct (wc_ok bound buf 0 (ret []) s w c0 [] Hin H0 H0' ltac:(done)) as (s1 & w1 & E1 & O1 & _).
    exists (set_u_call (Exit 0) s1), w1. by urun E1.
  - rewrite (proj2 (Z.leb_gt _ _)) by (simpl; lia). unfold each_arg. replace (Z.to_nat _) with (length (p :: paths)) by (simpl; lia).
    apply (argv_loop buf (wc_file bound buf argv) argv wc_action (p :: paths) 1); [by apply (args_tail buf _ argv name _ 0); rewrite Z.add_0_r|].
    apply Forall_forall. intros x Hx. rewrite Forall_forall in Hf, Hsz. apply wc_acts; [by apply Hf|by apply Hsz].
Qed.

(** [echo] writes its arguments with a space between any two and a newline after
    the last, and exits with status 0. *)
Theorem echo_correct (bound : nat) (buf argv : Z) (name : list byte) (args : list (list byte)) (s : uproc) (w : W)
    (Ha : args_at (u_mem s) argv (name :: args) buf 512) (Hb : Forall (fun a => (length a < bound)%nat) args) :
  exists s' w', drive (echo_main bound (Z.of_nat (length (name :: args))) argv s) w = Exited 0 s' w' /\ out w' = out w ++ echo_text args.
Proof.
  unfold echo_main, each_arg. replace (Z.to_nat _) with (length args) by (simpl; lia).
  apply (echo_args bound buf _ argv args 1); [by apply (args_tail buf _ argv name _ 0); rewrite Z.add_0_r|simpl; lia|done].
Qed.

End Theorems.

(** ** A kernel with two files *)

Record shelf := Shelf { sh_rest : gmap Z (list byte); sh_out : list byte }.

Definition shelf_contents (path : list byte) : option (list byte) :=
  match path with
  | [Byte.x61] => Some (bytes_of "one two" ++ [Byte.x0a])
  | [Byte.x62] => Some (bytes_of " three")
  | _ => None
  end.

#[export] Instance shelf_unix : Unix shelf := fun w c =>
  match c with
  | Open path _ =>
      match shelf_contents path with
      | Some c => let fd := Z.of_nat (fresh (set_map (C := gset Z) (D := gset nat) Z.to_nat (dom (sh_rest w)))) in ((fd, []), Shelf (<[fd := c]> (sh_rest w)) (sh_out w))
      | None => ((-1, []), w)
      end
  | Read fd n =>
      match sh_rest w !! fd with
      | Some c => let bs := take (Z.to_nat n) c in ((Z.of_nat (length bs), bs), Shelf (<[fd := drop (Z.to_nat n) c]> (sh_rest w)) (sh_out w))
      | None => ((-1, []), w)
      end
  | Write 1 bs => ((Z.of_nat (length bs), []), Shelf (sh_rest w) (sh_out w ++ bs))
  | Close fd => ((0, []), Shelf (delete fd (sh_rest w)) (sh_out w))
  | _ => ((0, []), w)
  end.

#[export] Program Instance shelf_files : Files shelf := {| rest := sh_rest; out := sh_out; contents := shelf_contents |}.
Next Obligation.
  intros w path. unfold syscalls, shelf_unix. destruct (shelf_contents path) as [c|]; [|by eexists _, _]. eexists _, _. split; [done|]. split; [done|].
  split; [lia|]. split; [|done]. apply not_elem_of_dom. intros H. apply (elem_of_map_2 (D := gset nat) Z.to_nat) in H. rewrite Nat2Z.id in H. by apply is_fresh in H.
Qed.
Next Obligation.
  intros w fd c n Hc Hn. unfold syscalls, shelf_unix. rewrite Hc. eexists _, (drop (Z.to_nat n) c), _. split; [done|]. rewrite take_drop, length_take.
  split_and!; [done|lia| |done|done]. intros H. apply (f_equal length) in H. rewrite length_take in H. apply nil_length_inv. simpl in H. lia.
Qed.
Next Obligation. intros w bs. by eexists. Qed.
Next Obligation. intros w bs. by eexists _, _. Qed.
Next Obligation. intros w fd. by eexists _, _. Qed.

(** A process with the arguments [prog a b]. *)
Definition demo_mem : mem :=
  st_bytes (st_bytes (st_bytes (st64 (st64 (st64 ∅ 4096 8192) 4104 8200) 4112 8208)
    8192 (bytes_of "prog" ++ [Byte.x00])) 8200 [Byte.x61; Byte.x00]) 8208 [Byte.x62; Byte.x00].

Definition demo_proc : uproc := Uproc demo_mem Getpid (0, []).

Definition demo_shelf : shelf := Shelf {[0 := []]} [].

Lemma demo_args : args_at (u_mem demo_proc) 4096 [bytes_of "prog"; bytes_of "a"; bytes_of "b"] 0 512.
Proof.
  intros i a Hi. destruct i as [|[|[|i]]]; [| | |done]; injection Hi as <-; eexists; (split; [vm_compute; reflexivity|]);
    (split; [vm_compute; intuition discriminate|]); unfold apart; simpl; lia.
Qed.

Lemma demo_readable : Forall (readable 100) [bytes_of "a"; bytes_of "b"].
Proof.
  rewrite !Forall_cons, Forall_nil. split; [|split; [|done] ]; (split; [vm_compute; lia|]); intros c Hc; vm_compute in Hc; injection Hc as <-; vm_compute; lia.
Qed.

Lemma cat_correct_witness :
  exists s' w', drive (cat_main 100 0 3 4096 demo_proc) demo_shelf = Exited 0 s' w' /\ sh_out w' = bytes_of (line "one two" ++ " three").
Proof.
  destruct (cat_correct 100 0 4096 (bytes_of "prog") [bytes_of "a"; bytes_of "b"] demo_proc demo_shelf [] demo_args demo_readable)
    as (s' & w' & E & O); [vm_compute; reflexivity|vm_compute; lia|]. exists s', w'. split; [exact E|]. exact O.
Defined.

Lemma wc_correct_witness :
  exists s' w', drive (wc_main 100 0 3 4096 demo_proc) demo_shelf = Exited 0 s' w' /\ sh_out w' = bytes_of (line "1 2 8 a" ++ line "0 1 6 b").
Proof.
  destruct (wc_correct 100 0 4096 (bytes_of "prog") [bytes_of "a"; bytes_of "b"] demo_proc demo_shelf [] demo_args demo_readable)
    as (s' & w' & E & O); [|vm_compute; reflexivity|vm_compute; lia|vm_compute; reflexivity|].
  - rewrite !Forall_cons, Forall_nil. split; [|split; [|done] ]; intros c Hc; vm_compute in Hc; injection Hc as <-; vm_compute; reflexivity.
  - exists s', w'. split; [exact E|]. change (sh_out w') with (out w'). rewrite O. vm_compute. reflexivity.
Defined.

Lemma echo_correct_witness :
  exists s' w', drive (echo_main 100 3 4096 demo_proc) demo_shelf = Exited 0 s' w' /\ sh_out w' = bytes_of (line "a b").
Proof.
  destruct (echo_correct 100 0 4096 (bytes_of "prog") [bytes_of "a"; bytes_of "b"] demo_proc demo_shelf demo_args) as (s' & w' & E & O);
    [rewrite !Forall_cons, Forall_nil; split; [vm_compute; lia|split; [vm_compute; lia|done] ]|]. exists s', w'. split; [exact E|exact O].
Defined.

End ProgramsOk.
