(* ===== verification/Shell.v ===== *)
(** * The shell, [user/sh.c]

    The scanner and the parser on the line in memory, [nulterminate], [runcmd] and
    the main loop.  A [struct cmd] with its variants is the inductive type [cmd],
    whose strings are the addresses of the first and past the last character in
    the line; the allocation of these structs is taken to succeed, so there is no
    null command.  The nested functions of the parser are tied at [parseline].
    The rounds of loops over the line are bounded by its length, and the depth of
    the recursion too; [bound] is for the strings handed to system calls and the
    number of commands. *)

From S2P Require Import Prelude Riscv Memory CString Block Uart Printf User UserPrintf.
Import User.Ulib UserPrintf.UPrintf.

Module Shell.

Definition MAXARGS : nat := 10.

(** A string of the line: from the first address to before the second. *)
Definition span : Type := Z * Z.

Inductive cmd :=
  | EXEC (argv : list span)
  | REDIR (c : cmd) (file : span) (mode fd : Z)
  | PIPE (left right : cmd)
  | LIST (left right : cmd)
  | BACK (c : cmd).

(** ** Constructors *)

Definition execcmd : cmd := EXEC [].

Definition redircmd (subcmd : cmd) (file efile mode fd : Z) : cmd := REDIR subcmd (file, efile) mode fd.

Definition pipecmd (left right : cmd) : cmd := PIPE left right.

Definition listcmd (left right : cmd) : cmd := LIST left right.

Definition backcmd (subcmd : cmd) : cmd := BACK subcmd.

(** ** The scanner *)

Definition whitespace : list byte := [Byte.x20; Byte.x09; Byte.x0d; Byte.x0a; Byte.x0b].

Definition symbols : list byte := bytes_of "<|>&;()".

(** [strchr(bs, c)] of a constant string is not null. *)
Definition in_string (bs : list byte) (c : byte) : bool := existsb (Byte.eqb c) bs.

Fixpoint advance (n : nat) (m : mem) (p : byte -> bool) (s : Z) : Z :=
  match n with
  | O => s
  | S n => if p (ld8 m s) then advance n m p (s + 1) else s
  end.

(** [while(s < es && p( *s)) s++] *)
Definition skip (m : mem) (p : byte -> bool) (s es : Z) : Z := advance (Z.to_nat (es - s)) m p s.

Definition plain (c : byte) : bool := negb (in_string whitespace c) && negb (in_string symbols c).

(** The token, its first and past-the-last address, and the new [*ps]. *)
Definition gettoken (m : mem) (ps es : Z) : byte * Z * Z * Z :=
  let s := skip m (in_string whitespace) ps es in
  let q := s in
  let c := ld8 m s in
  let '(r, s) :=
    if Byte.eqb c Byte.x00 then (c, s)
    else if in_string (bytes_of "|();&<") c then (c, s + 1)
    else if Byte.eqb c Byte.x3e then
      if Byte.eqb (ld8 m (s + 1)) Byte.x3e then (Byte.x2b, s + 2) else (c, s + 1)
    else (Byte.x61, skip m plain s es) in
  let eq := s in
  (r, q, eq, skip m (in_string whitespace) s es).

Definition peek (m : mem) (ps es : Z) (toks : string) : bool * Z :=
  let s := skip m (in_string whitespace) ps es in
  (negb (Byte.eqb (ld8 m s) Byte.x00) && in_string (bytes_of toks) (ld8 m s), s).

Section Shell.
Variable bound : nat.

(** ** Panic and fork *)

Definition sh_panic {A} (s : string) : U A :=
  fprintf 2 (line "%s") [Str (Some (bytes_of s))] ;;
  exit 1.

Definition fork1 : U Z :=
  let! pid := call Fork in
  if pid =? -1 then sh_panic "fork" else ret pid.

(** ** The parser *)

Definition gettoken_u (ps es : Z) : U (byte * Z * Z * Z) := Prelude.gets (fun s => gettoken (u_mem s) ps es).

Definition peek_u (ps es : Z) (toks : string) : U (bool * Z) := Prelude.gets (fun s => peek (u_mem s) ps es toks).

Definition rounds (ps es : Z) : nat := S (Z.to_nat (es - ps)).

Definition redirs_body (es : Z) : cmd * Z -> U (cmd * Z + cmd * Z) := fun '(c, ps) =>
  let! (b, ps) := peek_u ps es "<>" in
  if negb b then ret (inr (c, ps)) else
  let! (tok, _, _, ps) := gettoken_u ps es in
  let! (t, q, eq, ps) := gettoken_u ps es in
  if negb (Byte.eqb t Byte.x61) then sh_panic "missing file for redirection" else
  ret (inl (
    (if Byte.eqb tok Byte.x3c then redircmd c q eq O_RDONLY 0
     else if Byte.eqb tok Byte.x3e then redircmd c q eq (Z.lor O_WRONLY (Z.lor O_CREATE O_TRUNC)) 1
     else if Byte.eqb tok Byte.x2b then redircmd c q eq (Z.lor O_WRONLY O_CREATE) 1
     else c), ps)).

Definition parseredirs (c : cmd) (ps es : Z) : U (cmd * Z) := while (rounds ps es) (redirs_body es) (c, ps).

(** [cmd->argv[argc] = q; cmd->eargv[argc] = eq], where [ret] is the command
    [cmd] with the redirections so far around it. *)
Fixpoint add_arg (c : cmd) (a : span) : cmd :=
  match c with
  | EXEC argv => EXEC (argv ++ [a])
  | REDIR c f mode fd => REDIR (add_arg c a) f mode fd
  | c => c
  end.

Definition args_body (es : Z) : cmd * nat * Z -> U (cmd * nat * Z + cmd * Z) := fun '(c, argc, ps) =>
  let! (b, ps) := peek_u ps es "|)&;" in
  if b then ret (inr (c, ps)) else
  let! (tok, q, eq, ps) := gettoken_u ps es in
  if Byte.eqb tok Byte.x00 then ret (inr (c, ps))
  else if negb (Byte.eqb tok Byte.x61) then sh_panic "syntax" else
  let c := add_arg c (q, eq) in
  let argc := S argc in
  if (MAXARGS <=? argc)%nat then sh_panic "too many args" else
  let! (c, ps) := parseredirs c ps es in
  ret (inl (c, argc, ps)).

Section Open.
Variable parseline : Z -> Z -> U (cmd * Z).

Definition parseblock (ps es : Z) : U (cmd * Z) :=
  let! (b, ps) := peek_u ps es "(" in
  if negb b then sh_panic "parseblock" else
  let! (_, _, _, ps) := gettoken_u ps es in
  let! (c, ps) := parseline ps es in
  let! (b, ps) := peek_u ps es ")" in
  if negb b then sh_panic "syntax - missing )" else
  let! (_, _, _, ps) := gettoken_u ps es in
  parseredirs c ps es.

Definition parseexec (ps es : Z) : U (cmd * Z) :=
  let! (b, ps) := peek_u ps es "(" in
  if b then parseblock ps es else
  let! (c, ps) := parseredirs execcmd ps es in
  while (rounds ps es) (args_body es) (c, 0%nat, ps).

Fixpoint parsepipe (fuel : nat) (ps es : Z) : U (cmd * Z) :=
  match fuel with
  | O => fun _ => Fuel
  | S fuel =>
      let! (c, ps) := parseexec ps es in
      let! (b, ps) := peek_u ps es "|" in
      if b then
        let! (_, _, _, ps) := gettoken_u ps es in
        let! (c', ps) := parsepipe fuel ps es in
        ret (pipecmd c c', ps)
      else ret (c, ps)
  end.

Definition backs_body (es : Z) : cmd * Z -> U (cmd * Z + cmd * Z) := fun '(c, ps) =>
  let! (b, ps) := peek_u ps es "&" in
  if negb b then ret (inr (c, ps)) else
  let! (_, _, _, ps) := gettoken_u ps es in
  ret (inl (backcmd c, ps)).

End Open.

Fixpoint parseline (fuel : nat) (ps es : Z) : U (cmd * Z) :=
  match fuel with
  | O => fun _ => Fuel
  | S fuel' =>
      let! (c, ps) := parsepipe (parseline fuel') fuel ps es in
      let! (c, ps) := while (rounds ps es) (backs_body es) (c, ps) in
      let! (b, ps) := peek_u ps es ";" in
      if b then
        let! (_, _, _, ps) := gettoken_u ps es in
        let! (c', ps) := parseline fuel' ps es in
        ret (listcmd c c', ps)
      else ret (c, ps)
  end.

Fixpoint nulterminate (c : cmd) : U unit :=
  match c with
  | EXEC argv => forM argv (fun a => stb a.2 Byte.x00)
  | REDIR c f _ _ => nulterminate c ;; stb f.2 Byte.x00
  | PIPE l r => nulterminate l ;; nulterminate r
  | LIST l r => nulterminate l ;; nulterminate r
  | BACK c => nulterminate c
  end.

Definition parsecmd (s : Z) : U cmd :=
  let! n := strlen bound s in
  let es := s + n in
  let! (c, s) := parseline (rounds s es) s es in
  let! (_, s) := peek_u s es "" in
  if negb (s =? es) then
    let! bs := cstring bound s in
    fprintf 2 (line "leftovers: %s") [Str (Some bs)] ;;
    sh_panic "syntax"
  else
  nulterminate c ;;
  ret c.

(** ** Running a command *)

(** The strings that [exec] fetches through [argv]. *)
Fixpoint arg_strings (argv : list span) : U (list (list byte)) :=
  match argv with
  | [] => ret []
  | a :: argv => let! bs := cstring bound a.1 in let! r := arg_strings argv in ret (bs :: r)
  end.

(** [exec(argv[0], argv)] *)
Definition exec (argv : list span) : U Z :=
  let! args := arg_strings argv in
  call (Exec (nth 0 args []) args).

(** [pipe(p)]: the result, [p[0]] and [p[1]]. *)
Definition pipe : U (Z * Z * Z) :=
  let! r := ecall Pipe in
  ret (r.1, s32 (get32 r.2 0), s32 (get32 r.2 4)).

Fixpoint runcmd (c : cmd) : U unit :=
  match c with
  | EXEC argv =>
      match argv with
      | [] => exit 1
      | a :: _ =>
          exec argv ;;
          let! name := cstring bound a.1 in
          fprintf 2 (line "exec %s failed") [Str (Some name)] ;;
          exit 0
      end
  | REDIR c f mode fd =>
      call (Close fd) ;;
      let! r := open bound f.1 mode in
      if r <? 0 then
        let! name := cstring bound f.1 in
        fprintf 2 (line "open %s failed") [Str (Some name)] ;;
        exit 1
      else
      runcmd c ;;
      exit 0
  | LIST l r =>
      let! pid := fork1 in
      (if pid =? 0 then runcmd l else ret tt) ;;
      call Wait ;;
      runcmd r ;;
      exit 0
  | PIPE l r =>
      let! (res, p0, p1) := pipe in
      if res <? 0 then sh_panic "pipe" else
      let! pid := fork1 in
      (if pid =? 0 then
         call (Close 1) ;;
         call (Dup p1) ;;
         call (Close p0) ;;
         call (Close p1) ;;
         runcmd l
       else ret tt) ;;
      let! pid := fork1 in
      (if pid =? 0 then
         call (Close 0) ;;
         call (Dup p0) ;;
         call (Close p0) ;;
         call (Close p1) ;;
         runcmd r
       else ret tt) ;;
      call (Close p0) ;;
      call (Close p1) ;;
      call Wait ;;
      call Wait ;;
      exit 0
  | BACK c =>
      let! pid := fork1 in
      (if pid =? 0 then runcmd c else ret tt) ;;
      exit 0
  end.

(** ** The main loop *)

Definition getcmd (buf nbuf : Z) : U Z :=
  call (Write 2 (bytes_of "$ ")) ;;
  memset buf 0 nbuf ;;
  gets buf nbuf ;;
  let! b := ldb buf in
  if Byte.eqb b Byte.x00 then ret (-1) else ret 0.

Definition console_body (_ : unit) : U (unit + unit) :=
  let! fd := call (Open (bytes_of "console") O_RDWR) in
  if fd <? 0 then ret (inr tt)
  else if 3 <=? fd then call (Close fd) ;; ret (inr tt)
  else ret (inl tt).

(** [buf] is the address of [static char buf[100]]. *)
Definition main_body (buf : Z) (_ : unit) : U (unit + unit) :=
  let! r := getcmd buf 100 in
  if r <? 0 then ret (inr tt) else
  let! b0 := ldb buf in
  let! b1 := ldb (buf + 1) in
  let! b2 := ldb (buf + 2) in
  if Byte.eqb b0 Byte.x63 && Byte.eqb b1 Byte.x64 && Byte.eqb b2 Byte.x20 then
    (* Chdir must be called by the parent, not the child. *)
    let! n := strlen bound buf in
    stb (buf + n - 1) Byte.x00 ;;
    let! path := cstring bound (buf + 3) in
    let! r := call (Chdir path) in
    (if r <? 0 then fprintf 2 (line "cannot cd %s") [Str (Some path)] else ret tt) ;;
    ret (inl tt)
  else
  let! pid := fork1 in
  (if pid =? 0 then let! c := parsecmd buf in runcmd c else ret tt) ;;
  call Wait ;;
  ret (inl tt).

Definition sh_main (buf : Z) : U unit :=
  while bound console_body tt ;;
  while bound (main_body buf) tt ;;
  exit 0.

End Shell.

End Shell.
