(* ===== verification/ShellParse.v ===== *)
(** * The parser of the shell

    The grammar of command lines, as a relation between sequences of tokens and
    syntax trees, and the theorem that [parsecmd] implements it: it returns the
    command of the only tree of the line, with every argument and file name a
    string of its own in memory, and where there is no tree it prints a message
    and exits. *)

From S2P Require Import Prelude Riscv Memory CString Block Uart Printf User UserPrintf Shell.
Import User.Ulib UserPrintf.UPrintf Shell.Shell.

Module ShellParse.
Implicit Types (R w : list byte) (m : mem).

(** ** Tokens *)

Inductive token := Sym (c : byte) | Append | Word (w : list byte).

Definition BAR : token := Sym Byte.x7c.
Definition AMP : token := Sym Byte.x26.
Definition SEMI : token := Sym Byte.x3b.
Definition LPAREN : token := Sym Byte.x28.
Definition RPAREN : token := Sym Byte.x29.
Definition LESS : token := Sym Byte.x3c.
Definition GREATER : token := Sym Byte.x3e.

Definition flush w (ts : list token) : list token := match w with [] => ts | _ => Word w :: ts end.

(** The tokens of a text; [w] is the word so far. *)
Fixpoint lex w R : list token :=
  match R with
  | [] => flush w []
  | c :: R' =>
      if in_string whitespace c then flush w (lex [] R')
      else if in_string symbols c then
        flush w (match R' with
          | c' :: R'' => if Byte.eqb c Byte.x3e && Byte.eqb c' Byte.x3e then Append :: lex [] R'' else Sym c :: lex [] R'
          | [] => [Sym c]
          end)
      else lex (w ++ [c]) R'
  end.

(** ** The grammar *)

Inductive tree :=
  | TExec (args : list (list byte))
  | TRedir (t : tree) (file : list byte) (mode fd : Z)
  | TPipe (l r : tree)
  | TList (l r : tree)
  | TBack (t : tree).

(** A redirection: the token, and the mode and descriptor it stands for. *)
Inductive redir := From_ | To_ | Append_.

Definition redir_token (r : redir) : token := match r with From_ => LESS | To_ => GREATER | Append_ => Append end.

Definition redir_mode (r : redir) : Z :=
  match r with From_ => O_RDONLY | To_ => Z.lor O_WRONLY (Z.lor O_CREATE O_TRUNC) | Append_ => Z.lor O_WRONLY O_CREATE end.

Definition redir_fd (r : redir) : Z := match r with From_ => 0 | _ => 1 end.

Definition wrap (t : tree) (rs : list (redir * list byte)) : tree :=
  foldl (fun t r => TRedir t r.2 (redir_mode r.1) (redir_fd r.1)) t rs.

(** What a simple command is made of. *)
Inductive item := Arg (w : list byte) | Redir (r : redir) (w : list byte).

Definition item_tokens (i : item) : list token :=
  match i with Arg w => [Word w] | Redir r w => [redir_token r; Word w] end.

Definition args (its : list item) : list (list byte) := omap (fun i => match i with Arg w => Some w | _ => None end) its.

Definition redirs (its : list item) : list (redir * list byte) :=
  omap (fun i => match i with Redir r w => Some (r, w) | _ => None end) its.

Definition tokens_of (its : list item) : list token := concat (map item_tokens its).

Inductive dline : list token -> tree -> Prop :=
  | Dline ts t n : dpipe ts t -> dline (ts ++ replicate n AMP) (Nat.iter n TBack t)
  | Dlist ts t n ts' t' :
      dpipe ts t -> dline ts' t' -> dline (ts ++ replicate n AMP ++ SEMI :: ts') (TList (Nat.iter n TBack t) t')
with dpipe : list token -> tree -> Prop :=
  | Dexec ts t : dexec ts t -> dpipe ts t
  | Dpipe ts t ts' t' : dexec ts t -> dpipe ts' t' -> dpipe (ts ++ BAR :: ts') (TPipe t t')
with dexec : list token -> tree -> Prop :=
  | Dblock ts t its : dline ts t -> args its = [] -> dexec (LPAREN :: ts ++ RPAREN :: tokens_of its) (wrap t (redirs its))
  | Dsimple its : (length (args its) < MAXARGS)%nat -> dexec (tokens_of its) (wrap (TExec (args its)) (redirs its)).

(** ** Scanning *)

Fixpoint drop_while (p : byte -> bool) R : list byte :=
  match R with [] => [] | c :: R' => if p c then drop_while p R' else R end.

Fixpoint take_while (p : byte -> bool) R : list byte :=
  match R with [] => [] | c :: R' => if p c then c :: take_while p R' else [] end.

Lemma take_drop_while p R : take_while p R ++ drop_while p R = R.
Proof. induction R as [|c R IH]; simpl; [done|]. destruct (p c); simpl; by rewrite ?IH. Qed.

Lemma take_while_all p R : Forall (fun c => p c = true) (take_while p R).
Proof. induction R as [|c R IH]; simpl; [done|]. destruct (p c) eqn:E; [by constructor|done]. Qed.

Lemma drop_while_head p R c R' : drop_while p R = c :: R' -> p c = false.
Proof. induction R as [|c' R IH]; simpl; [done|]. destruct (p c') eqn:E; [done|]. by intros [= -> ->]. Qed.

Lemma lex_strip R : lex [] (drop_while (in_string whitespace) R) = lex [] R.
Proof. induction R as [|c R IH]; [done|]. cbn [drop_while]. destruct (in_string whitespace c) eqn:E; [|done]. rewrite IH. cbn [lex]. by rewrite E. Qed.

Lemma lex_word a w R :
  Forall (fun c => plain c = true) w -> (forall c R', R = c :: R' -> plain c = false) ->
  lex a (w ++ R) = flush (a ++ w) (lex [] R).
Proof.
  intros H HR. revert a. induction H as [|c w Hc H IH]; intros a.
  - rewrite app_nil_r. simpl app. destruct R as [|c R]; [done|]. specialize (HR c R eq_refl).
    cbn [lex]. unfold plain in HR. apply andb_false_iff in HR. destruct (in_string whitespace c); [done|].
    destruct (in_string symbols c); [done|]. by destruct HR.
  - cbn [app lex]. unfold plain in Hc. apply andb_true_iff in Hc as [H1%negb_true_iff H2%negb_true_iff]. rewrite H1, H2, IH.
    by rewrite <- app_assoc.
Qed.

Lemma lex_length w R : (length (lex w R) <= length w + length R)%nat.
Proof.
  revert w. induction R as [R IH] using (induction_ltof1 _ length). unfold ltof in IH. intros w.
  assert (Hf : forall ts, (length (flush w ts) <= length w + length ts)%nat) by (intros ts; destruct w; simpl; lia).
  destruct R as [|c R]; [specialize (Hf []); simpl in *; lia|]. cbn [lex length].
  destruct (in_string whitespace c).
  { specialize (Hf (lex [] R)). pose proof (IH R ltac:(simpl; lia) []). cbn [length Nat.add] in *. lia. }
  destruct (in_string symbols c).
  - etrans; [apply Hf|]. destruct R as [|c' R]; [cbn [length]; lia|]. destruct (Byte.eqb c Byte.x3e && Byte.eqb c' Byte.x3e).
    + pose proof (IH R ltac:(simpl; lia) []). cbn [length Nat.add] in *. lia.
    + pose proof (IH (c' :: R) ltac:(simpl; lia) []). cbn [length Nat.add] in *. lia.
  - pose proof (IH R ltac:(simpl; lia) (w ++ [c])) as H. rewrite length_app in H. simpl in H. lia.
Qed.

Lemma list_ind2 {A} (P : list A -> Prop) : P [] -> (forall x l, P l -> (forall y l', l = y :: l' -> P l') -> P (x :: l)) -> forall l, P l.
Proof.
  intros H0 H1 l. enough (P l /\ forall y l', l = y :: l' -> P l') by tauto.
  induction l as [|x l [IH1 IH2]]; [done|]. split; [by apply H1|]. by intros y l' [= -> ->].
Qed.

Definition token_ok (t : token) : Prop := match t with Sym c => in_string symbols c = true | _ => True end.

Lemma lex_ok w R : Forall token_ok (lex w R).
Proof.
  revert w. induction R as [|c R IH IH2] using list_ind2; intros w.
  { by destruct w; repeat constructor. }
  assert (Hf : forall ts, Forall token_ok ts -> Forall token_ok (flush w ts)) by (intros ts H; destruct w; [done|by constructor]).
  cbn [lex]. destruct (in_string whitespace c); [by apply Hf|]. destruct (in_string symbols c) eqn:E; [|done].
  apply Hf. destruct R as [|c' R]; [by repeat constructor|]. destruct (_ && _).
  - constructor; [done|]. by eapply IH2.
  - by constructor.
Qed.

(** The rest of the line is at [s]. *)
Definition line_at m (es s : Z) R : Prop := cstr m s R /\ es = s + Z.of_nat (length R).

Definition letter (c : byte) : Prop := plain c = true /\ c <> Byte.x00.

(** The word [w] is between the two addresses, and ends there. *)
Record word_at m (a : span) w : Prop := {
  wa_word : w <> [] /\ Forall letter w;
  wa_bytes : ld_bytes m a.1 (length w) = w;
  wa_end : a.2 = a.1 + Z.of_nat (length w);
  wa_stop : ~ letter (ld8 m a.2)
}.

(** The tokens of the rest of the line. *)
Definition lexed m (es s : Z) (ts : list token) : Prop := exists R, line_at m es s R /\ lex [] R = ts.

Lemma line_at_ld m es s R : line_at m es s R -> ld8 m s = match R with c :: _ => c | [] => Byte.x00 end.
Proof. intros [H _]. destruct R; simpl in H; [done|apply H]. Qed.

Lemma line_at_next m es s c R : line_at m es s (c :: R) -> line_at m es (s + 1) R /\ c <> Byte.x00.
Proof. intros [(_ & H1 & H2) ->]. split; [|done]. split; [done|]. simpl length. lia. Qed.

Lemma advance_ok p m es R : forall s, line_at m es s R ->
  advance (length R) m p s = s + Z.of_nat (length (take_while p R)) /\ line_at m es (advance (length R) m p s) (drop_while p R).
Proof.
  induction R as [|c R IH]; intros s H.
  - simpl. rewrite Z.add_0_r. done.
  - pose proof (line_at_ld _ _ _ _ H) as Hc. cbn [advance length take_while drop_while]. rewrite Hc. destruct (p c).
    + destruct (IH (s + 1)) as [E L]; [by apply (line_at_next m es s c R)|]. split; [|done]. rewrite E. cbn [length]. lia.
    + rewrite Z.add_0_r. done.
Qed.

Lemma skip_ok p m es s R : line_at m es s R ->
  skip m p s es = s + Z.of_nat (length (take_while p R)) /\ line_at m es (skip m p s es) (drop_while p R).
Proof.
  intros H. unfold skip. replace (Z.to_nat (es - s)) with (length R) by (destruct H; lia). by apply advance_ok.
Qed.

(** The code of a token. *)
Definition code (t : token) : byte := match t with Sym c => c | Append => Byte.x2b | Word _ => Byte.x61 end.

Lemma symbol_cases c : in_string symbols c = true ->
  c = Byte.x3c \/ c = Byte.x7c \/ c = Byte.x3e \/ c = Byte.x26 \/ c = Byte.x3b \/ c = Byte.x28 \/ c = Byte.x29.
Proof. destruct c; vm_compute; try discriminate; tauto. Qed.

(** What the scanner returns for the next token. *)
Definition token_read m es (s : Z) (ts : list token) (r : byte * Z * Z * Z) : Prop :=
  match ts with
  | [] => r = (Byte.x00, es, es, es)
  | t :: ts' => exists q eq s', r = (code t, q, eq, s') /\ lexed m es s' ts' /\ s < s' /\
      match t with Word w => word_at m (q, eq) w | _ => True end
  end.

Lemma gettoken_stripped m es s R :
  line_at m es s R -> (forall c R', R = c :: R' -> in_string whitespace c = false) -> token_read m es s (lex [] R) (gettoken m s es).
Proof.
  intros H Hw. unfold gettoken. assert (E0 : skip m (in_string whitespace) s es = s).
  { destruct (skip_ok (in_string whitespace) _ _ _ _ H) as [-> _]. destruct R as [|c R]; [simpl; lia|]. cbn [take_while].
    rewrite (Hw c R eq_refl). simpl. lia. }
  rewrite E0. clear E0. rewrite (line_at_ld _ _ _ _ H). destruct R as [|c R].
  { assert (es = s) as -> by (destruct H; simpl in *; lia). cbn [lex flush token_read]. change (Byte.eqb Byte.x00 Byte.x00) with true. cbv iota beta zeta. unfold skip. rewrite Z.sub_diag. done. }
  destruct (line_at_next _ _ _ _ _ H) as [H1 Hc]. rewrite byte_eqb_ne by done. specialize (Hw c R eq_refl). cbn [lex]. rewrite Hw.
  assert (HL : forall s' R', line_at m es s' R' -> lexed m es (skip m (in_string whitespace) s' es) (lex [] R') /\ s' <= skip m (in_string whitespace) s' es).
  { intros s' R' H'. destruct (skip_ok (in_string whitespace) _ _ _ _ H') as [E L]. split; [|rewrite E; lia].
    exists (drop_while (in_string whitespace) R'). split; [done|apply lex_strip]. }
  destruct (in_string symbols c) eqn:Es.
  - destruct (in_string (bytes_of "|();&<") c) eqn:Eo.
    + destruct (HL (s + 1) R H1) as [HL1 HL2].
      assert (E : flush [] (match R with c' :: R'' => if Byte.eqb c Byte.x3e && Byte.eqb c' Byte.x3e then Append :: lex [] R'' else Sym c :: lex [] R | [] => [Sym c] end)
        = Sym c :: lex [] R).
      { assert (Hn : Byte.eqb c Byte.x3e = false) by (by destruct c). rewrite Hn. by destruct R. }
      rewrite E. cbn [token_read]. eexists _, _, _. split; [reflexivity|]. split; [done|]. split; [lia|done].
    + assert (c = Byte.x3e) as -> by (destruct c; done). cbn [Byte.eqb]. rewrite byte_eqb_refl. rewrite (line_at_ld _ _ _ _ H1).
      destruct R as [|c' R].
      * destruct (HL (s + 1) [] H1) as [HL1 HL2]. eexists _, _, _. split; [reflexivity|]. split; [done|]. split; [lia|done].
      * cbn [andb flush]. destruct (Byte.eqb c' Byte.x3e) eqn:E'.
        -- destruct (line_at_next _ _ _ _ _ H1) as [H2 _]. replace (s + 1 + 1) with (s + 2) in H2 by lia.
           destruct (HL (s + 2) R H2) as [HL1 HL2]. eexists _, _, _. split; [reflexivity|]. split; [done|]. split; [lia|done].
        -- destruct (HL (s + 1) (c' :: R) H1) as [HL1 HL2]. eexists _, _, _. split; [reflexivity|]. split; [done|]. split; [lia|done].
  - assert (Ep : plain c = true) by (unfold plain; by rewrite Hw, Es).
    assert (Eo : in_string (bytes_of "|();&<") c = false) by (destruct c; done).
    assert (Eg : Byte.eqb c Byte.x3e = false) by (destruct c; done). rewrite Eo, Eg.
    destruct (skip_ok plain _ _ _ _ H) as [E L]. set (w := take_while plain (c :: R)) in *. set (R' := drop_while plain (c :: R)) in *.
    assert (EL : lex [] (c :: R) = Word w :: lex [] R').
    { rewrite <- (take_drop_while plain (c :: R)). fold w R'. rewrite lex_word.
      - cbn [app]. unfold w. cbn [take_while]. rewrite Ep. done.
      - apply take_while_all.
      - intros c' R0. apply drop_while_head. }
    cbn [lex] in EL. rewrite Hw, Es in EL. rewrite EL. cbn [token_read]. destruct (HL _ R' L) as [HL1 HL2].
    assert (Hl : (0 < length w)%nat) by (unfold w; cbn [take_while]; rewrite Ep; simpl; lia).
    eexists _, _, _. split; [reflexivity|]. split; [done|]. split; [lia|].
    destruct H as [Hcs _]. apply cstr_iff in Hcs as (Hn & Hb & _).
    assert (HR : c :: R = w ++ R') by (symmetry; apply take_drop_while). split.
    + split; [intros Ew; rewrite Ew in Hl; simpl in Hl; lia|]. apply Forall_forall. intros x Hx. split.
      * by apply (proj1 (Forall_forall _ _) (take_while_all plain (c :: R))).
      * intros ->. apply Hn. rewrite HR. apply elem_of_app. by left.
    + simpl fst. rewrite HR, length_app in Hb. rewrite ld_bytes_add in Hb. by apply app_inj_1 in Hb as [Hb _]; [|rewrite length_ld_bytes].
    + simpl. lia.
    + simpl snd. rewrite (line_at_ld _ _ _ _ L). intros [Hp Hz]. destruct R' as [|c' R0] eqn:ER; [done|].
      by rewrite (drop_while_head plain (c :: R) c' R0 ER) in Hp.
Qed.

Lemma skip_twice p m es s R : line_at m es s R -> skip m p (skip m p s es) es = skip m p s es.
Proof.
  intros H. destruct (skip_ok p _ _ _ _ H) as [_ L]. destruct (skip_ok p _ _ _ _ L) as [-> _].
  replace (take_while p (drop_while p R)) with ([] : list byte); [simpl; lia|].
  destruct (drop_while p R) as [|c R'] eqn:E; [done|]. cbn [take_while]. by rewrite (drop_while_head p R c R' E).
Qed.

Lemma gettoken_ok m es s ts : lexed m es s ts -> token_read m es s ts (gettoken m s es).
Proof.
  intros (R & H & <-). destruct (skip_ok (in_string whitespace) _ _ _ _ H) as [E L].
  assert (Eg : gettoken m s es = gettoken m (skip m (in_string whitespace) s es) es) by (unfold gettoken; by rewrite (skip_twice _ _ _ _ _ H)).
  rewrite Eg. pose proof (gettoken_stripped m es _ _ L) as G. rewrite lex_strip in G.
  specialize (G (fun c R' => drop_while_head _ R c R')). destruct (lex [] R) as [|t ts]; [done|].
  destruct G as (q & eq & s' & G1 & G2 & G3 & G4). exists q, eq, s'. split; [done|]. split; [done|]. split; [lia|done].
Qed.

(** The next token starts with one of the characters. *)
Definition starts (toks : string) (ts : list token) : bool :=
  match ts with
  | Sym c :: _ => in_string (bytes_of toks) c
  | Append :: _ => in_string (bytes_of toks) Byte.x3e
  | _ => false
  end.

Definition symbolic (toks : string) : Prop := forall c, in_string (bytes_of toks) c = true -> in_string symbols c = true.

(** The first token of a text without blanks in front. *)
Lemma lex_first c R :
  in_string whitespace c = false ->
  (exists ts, lex [] (c :: R) = Sym c :: ts) \/ c = Byte.x3e /\ (exists ts, lex [] (c :: R) = Append :: ts) \/
  in_string symbols c = false /\ exists w ts, lex [] (c :: R) = Word w :: ts.
Proof.
  intros Hw. cbn [lex]. rewrite Hw. destruct (in_string symbols c) eqn:Es.
  - cbn [flush]. destruct R as [|c' R]; [left; by eexists|]. destruct (byte_eqb_spec c Byte.x3e) as [->|]; cbn [andb].
    + destruct (Byte.eqb c' Byte.x3e); [right; left; split; [done|by eexists]|left; by eexists].
    + left. by eexists.
  - right. right. split; [done|]. assert (Ep : plain c = true) by (unfold plain; by rewrite Hw, Es).
    assert (E : lex [] (c :: R) = Word (take_while plain (c :: R)) :: lex [] (drop_while plain (c :: R))).
    { rewrite <- (take_drop_while plain (c :: R)) at 1. rewrite lex_word; [|apply take_while_all|intros c' R0; apply drop_while_head].
      cbn [app take_while]. by rewrite Ep. }
    cbn [lex] in E. rewrite Hw, Es in E. rewrite E. by eexists _, _.
Qed.

Lemma peek_ok m es s ts toks :
  symbolic toks -> lexed m es s ts -> exists s', peek m s es toks = (starts toks ts, s') /\ lexed m es s' ts /\ s <= s'.
Proof.
  intros Ht (R & H & <-). destruct (skip_ok (in_string whitespace) _ _ _ _ H) as [E L].
  exists (skip m (in_string whitespace) s es). split; [|split; [|lia]].
  - unfold peek. f_equal. rewrite (line_at_ld _ _ _ _ L), <- lex_strip.
    destruct (drop_while (in_string whitespace) R) as [|c R'] eqn:ER; [done|].
    destruct (line_at_next _ _ _ _ _ L) as [_ Hc]. rewrite byte_eqb_ne by done. cbn [negb andb].
    destruct (lex_first c R' (drop_while_head _ R c R' ER)) as [[ts ->]|[[-> [ts ->]]|(Hs & w & ts & ->)]]; cbn [starts]; [done|done|].
    destruct (in_string (bytes_of toks) c) eqn:Ec; [|done]. apply Ht in Ec. congruence.
  - exists (drop_while (in_string whitespace) R). split; [done|apply lex_strip].
Qed.

Lemma lexed_rounds m es s ts : lexed m es s ts -> (length ts < rounds s es)%nat.
Proof.
  intros (R & [_ ->] & <-). pose proof (lex_length [] R). unfold rounds. simpl in *. lia.
Qed.

(** ** Commands and trees *)

(** The command [c] is that of the tree, with its words in memory. *)
Fixpoint means m (c : cmd) (t : tree) : Prop :=
  match c, t with
  | EXEC argv, TExec ws => Forall2 (word_at m) argv ws
  | REDIR c f mode fd, TRedir t w mode' fd' => means m c t /\ word_at m f w /\ mode = mode' /\ fd = fd'
  | PIPE l r, TPipe tl tr => means m l tl /\ means m r tr
  | LIST l r, TList tl tr => means m l tl /\ means m r tr
  | BACK c, TBack t => means m c t
  | _, _ => False
  end.

Lemma wrap_app t rs rs' : wrap t (rs ++ rs') = wrap (wrap t rs) rs'.
Proof. unfold wrap. apply foldl_app. Qed.

Lemma means_add_arg m c ws rs a w :
  means m c (wrap (TExec ws) rs) -> word_at m a w -> means m (add_arg c a) (wrap (TExec (ws ++ [w])) rs).
Proof.
  intros H Ha. revert c H. induction rs as [|r rs IH] using rev_ind; intros c H.
  - destruct c; try done. simpl in *. apply Forall2_app; [done|]. by constructor.
  - rewrite wrap_app in *. simpl in *. destruct c; try done. destruct H as (H1 & H2 & H3). simpl. split; [by apply IH|done].
Qed.

(** *** The parts of a simple command *)

Definition redir_of (t : token) : option redir :=
  match t with
  | Sym Byte.x3c => Some From_
  | Sym Byte.x3e => Some To_
  | Append => Some Append_
  | _ => None
  end.

(** The longest sequence of redirections. *)
Fixpoint scan_redirs (ts : list token) : list (redir * list byte) * list token :=
  match ts with
  | t :: Word w :: ts' =>
      match redir_of t with
      | Some r => let '(rs, b) := scan_redirs ts' in ((r, w) :: rs, b)
      | None => ([], ts)
      end
  | _ => ([], ts)
  end.

(** The longest sequence of arguments and redirections. *)
Fixpoint scan (ts : list token) : list item * list token :=
  match ts with
  | Word w :: ts' => let '(its, b) := scan ts' in (Arg w :: its, b)
  | t :: Word w :: ts' =>
      match redir_of t with
      | Some r => let '(its, b) := scan ts' in (Redir r w :: its, b)
      | None => ([], ts)
      end
  | _ => ([], ts)
  end.

Lemma redir_of_token r : redir_of (redir_token r) = Some r.
Proof. by destruct r. Qed.

Lemma redir_of_Some t r : redir_of t = Some r -> t = redir_token r.
Proof. destruct t as [[]| |]; simpl; intros [= <-]; done. Qed.

Lemma redir_of_starts t ts : starts "<>" (t :: ts) = match redir_of t with Some _ => true | None => false end.
Proof. destruct t as [[]| |]; reflexivity. Qed.

(** Not followed by more of the command. *)
Definition stops (ts : list token) : bool := match ts with [] => true | _ => starts "|)&;" ts end.

Lemma stops_no_redir ts : stops ts = true -> starts "<>" ts = false.
Proof. destruct ts as [|[[]| |] ts]; vm_compute; (reflexivity || discriminate). Qed.

Lemma scan_redirs_cons t ts :
  scan_redirs (t :: ts) = match redir_of t, ts with
    | Some r, Word w :: ts' => let '(rs, b) := scan_redirs ts' in ((r, w) :: rs, b)
    | _, _ => ([], t :: ts)
    end.
Proof. destruct ts as [|[| |w] ts]; cbn [scan_redirs]; by destruct (redir_of t). Qed.

Lemma scan_cons t ts :
  scan (t :: ts) = match t with
    | Word w => let '(its, b) := scan ts in (Arg w :: its, b)
    | _ => match redir_of t, ts with
      | Some r, Word w :: ts' => let '(its, b) := scan ts' in (Redir r w :: its, b)
      | _, _ => ([], t :: ts)
      end
    end.
Proof. destruct t, ts as [|[| |w'] ts]; cbn [scan]; try done; by destruct (redir_of _). Qed.

Definition as_items (rs : list (redir * list byte)) : list item := map (fun r => Redir r.1 r.2) rs.

Lemma args_as_items rs : args (as_items rs) = [].
Proof. by induction rs. Qed.

Lemma redirs_as_items rs : redirs (as_items rs) = rs.
Proof. induction rs as [|[r w] rs IH]; [done|]. simpl. by f_equal. Qed.

Lemma as_items_redirs its : args its = [] -> as_items (redirs its) = its.
Proof. induction its as [|[w|r w] its IH]; simpl; [done|done|]. intros H. by f_equal; apply IH. Qed.

Lemma scan_redirs_tokens ts : tokens_of (as_items (scan_redirs ts).1) ++ (scan_redirs ts).2 = ts.
Proof.
  induction ts as [|t ts _ IH] using list_ind2; [done|]. rewrite scan_redirs_cons.
  destruct (redir_of t) as [r|] eqn:E; [|done]. destruct ts as [|[| |w] ts]; try done. specialize (IH _ _ eq_refl).
  destruct (scan_redirs ts) as [rs b]. apply redir_of_Some in E as ->. simpl in *. by rewrite <- IH.
Qed.

Lemma scan_tokens ts : tokens_of (scan ts).1 ++ (scan ts).2 = ts.
Proof.
  induction ts as [|t ts IH IH2] using list_ind2; [done|]. rewrite scan_cons. destruct t as [c| |w].
  3: { destruct (scan ts) as [its b]. simpl in *. by f_equal. }
  all: destruct (redir_of _) as [r|] eqn:E; [|done]; destruct ts as [|[| |w'] ts]; try done; specialize (IH2 _ _ eq_refl);
    destruct (scan ts) as [its b]; apply redir_of_Some in E; rewrite E; simpl in *; by rewrite <- IH2.
Qed.

(** The scans find the sequence that is followed by something else. *)
Lemma scan_redirs_complete rs b : starts "<>" b = false -> scan_redirs (tokens_of (as_items rs) ++ b) = (rs, b).
Proof.
  intros Hb. induction rs as [|[r w] rs IH].
  - simpl. destruct b as [|t b]; [done|]. rewrite scan_redirs_cons. rewrite redir_of_starts in Hb. by destruct (redir_of t).
  - change (tokens_of (as_items ((r, w) :: rs)) ++ b) with (redir_token r :: Word w :: (tokens_of (as_items rs) ++ b)).
    rewrite scan_redirs_cons, redir_of_token, IH. done.
Qed.

Lemma scan_complete its b : stops b = true -> scan (tokens_of its ++ b) = (its, b).
Proof.
  intros Hb. induction its as [|[w|r w] its IH].
  - simpl. destruct b as [|t b]; [done|]. rewrite scan_cons. pose proof (stops_no_redir _ Hb) as Hr. rewrite redir_of_starts in Hr.
    destruct t as [c| |w]; [|done|done]. by destruct (redir_of (Sym c)).
  - change (tokens_of (Arg w :: its) ++ b) with (Word w :: (tokens_of its ++ b)). by rewrite scan_cons, IH.
  - change (tokens_of (Redir r w :: its) ++ b) with (redir_token r :: Word w :: (tokens_of its ++ b)).
    rewrite scan_cons, redir_of_token, IH. by destruct r.
Qed.

(** A command scanned in two steps. *)
Lemma scan_after_redirs ts :
  scan ts = (as_items (scan_redirs ts).1 ++ (scan (scan_redirs ts).2).1, (scan (scan_redirs ts).2).2).
Proof.
  induction ts as [|t ts _ IH] using list_ind2; [done|]. rewrite scan_redirs_cons.
  destruct (redir_of t) as [r|] eqn:E; [|cbn [fst snd as_items map app]; by destruct (scan (t :: ts))].
  destruct ts as [|[| |w] ts]; try (cbn [fst snd as_items map app]; by destruct (scan _)). specialize (IH _ _ eq_refl).
  destruct (scan_redirs ts) as [rs b]. cbn [fst snd] in *. apply redir_of_Some in E as ->. rewrite scan_cons, redir_of_token, IH.
  by destruct r.
Qed.

(** ** The parser *)

Section Parser.
Context {W : Type} `{!Unix W}.
(** The line is between [lo] and [es]. *)
Variables lo es : Z.
Implicit Types (st : uproc) (s : Z) (ts a b : list token) (t : tree) (c : cmd).

(** The tokens of the rest of the line at [s]. *)
Definition lexed_in st s ts : Prop := lexed (u_mem st) es s ts /\ lo <= s.

(** A message was written, and the process exited. *)
Definition fails {A} (o : outcome uproc A) : Prop :=
  forall u : W, exists st' u', drive o u = Exited 1 st' u'.

Lemma fails_bind {A B} (c : U A) (f : A -> U B) st : fails (c st) -> fails (bind c f st).
Proof. intros H w. destruct (H w) as (st' & w' & E). exists st', w'. by rewrite (drive_exits _ _ _ _ _ _ _ E). Qed.

Lemma fails_Ok {A B} (c : U A) (f : A -> U B) st x st' : c st = Ok x st' -> fails (f x st') -> fails (bind c f st).
Proof. intros E H. by rewrite (bind_Ok _ _ _ _ _ E). Qed.

Lemma emits_exit {A B} fd (c : U A) x o st : uemits fd c x o -> fails (bind c (fun _ => exit 1 : U B) st).
Proof.
  intros H w. destruct (uemits_returns fd c x o st w H) as (s1 & w1 & E & _). exists (set_u_call (Exit 1) s1), w1.
  by rewrite (drive_bind _ _ _ _ _ _ _ E).
Qed.

Lemma panic_fails {A} (msg : string) st : fails (sh_panic msg st : outcome uproc A).
Proof.
  apply (emits_exit 2 _ tt (bytes_of msg ++ [Byte.x0a])). apply vprintf_emits; [|done].
  intros H%list_elem_of_In. vm_compute in H. intuition discriminate.
Qed.

(** *** The scanner in the parser *)

Lemma peek_u_ok st s ts toks : symbolic toks -> lexed_in st s ts ->
  exists s', peek_u s es toks st = Ok (starts toks ts, s') st /\ lexed_in st s' ts.
Proof.
  intros Ht [H Hlo]. destruct (peek_ok _ _ _ _ toks Ht H) as (s' & E & H' & Hs). exists s'. split; [|split; [done|lia]].
  unfold peek_u, Prelude.gets. by rewrite E.
Qed.

Lemma gettoken_u_cons st s (t : token) ts : lexed_in st s (t :: ts) ->
  exists q eq s', gettoken_u s es st = Ok (code t, q, eq, s') st /\ lexed_in st s' ts /\
    match t with Word w => word_at (u_mem st) (q, eq) w | _ => True end.
Proof.
  intros [H Hlo]. destruct (gettoken_ok _ _ _ _ H) as (q & eq & s' & E & H1 & Hs & H2). exists q, eq, s'.
  split; [|split; [split; [done|lia]|done]].
  unfold gettoken_u, Prelude.gets. by rewrite E.
Qed.

Lemma gettoken_u_nil st s : lexed_in st s [] -> gettoken_u s es st = Ok (Byte.x00, es, es, es) st.
Proof. intros [H _]. unfold gettoken_u, Prelude.gets. by rewrite (gettoken_ok _ _ _ _ H). Qed.

Lemma lexed_end st s : lexed_in st s [] -> lexed_in st es [].
Proof.
  intros [(R & [H1 H2] & _) Hlo]. split; [|lia]. exists []. split; [|done]. split; [|simpl; lia].
  apply cstr_iff in H1 as (_ & _ & Hz). simpl. by rewrite H2.
Qed.

Lemma code_word st s ts (t : token) : lexed_in st s (t :: ts) -> Byte.eqb (code t) Byte.x61 = match t with Word _ => true | _ => false end.
Proof.
  intros [(R & _ & E) _]. pose proof (lex_ok [] R) as H. rewrite E in H. apply Forall_cons in H as [H _].
  destruct t as [c| |]; [|done|done]. destruct c; (done || vm_compute in H; discriminate).
Qed.

Lemma code_redir st s ts (t : token) r c q eq : lexed_in st s (t :: ts) -> redir_of t = Some r ->
  (if Byte.eqb (code t) Byte.x3c then redircmd c q eq O_RDONLY 0
   else if Byte.eqb (code t) Byte.x3e then redircmd c q eq (Z.lor O_WRONLY (Z.lor O_CREATE O_TRUNC)) 1
   else if Byte.eqb (code t) Byte.x2b then redircmd c q eq (Z.lor O_WRONLY O_CREATE) 1 else c) =
  REDIR c (q, eq) (redir_mode r) (redir_fd r).
Proof. intros _ ->%redir_of_Some. by destruct r. Qed.

Lemma symbolic_list toks : forallb (in_string symbols) (bytes_of toks) = true -> symbolic toks.
Proof.
  intros H c Hc. unfold in_string in Hc. apply existsb_exists in Hc as (x & Hx & E). destruct (byte_eqb_spec c x) as [->|]; [|done].
  rewrite forallb_forall in H. by apply H.
Qed.

Lemma redirs_loop fuel : forall st s ts c t, lexed_in st s ts -> (length ts < fuel)%nat -> means (u_mem st) c t ->
  let o := while fuel (redirs_body es) (c, s) st in
  let '(rs, b) := scan_redirs ts in
  if starts "<>" b then fails o
  else exists c' s', o = Ok (c', s') st /\ lexed_in st s' b /\ means (u_mem st) c' (wrap t rs).
Proof.
  induction fuel as [|fuel IH]; intros st s ts c t H Hf Hm; [lia|]. cbn [while].
  destruct (peek_u_ok st s ts "<>" ltac:(by apply symbolic_list) H) as (s1 & E1 & H1).
  destruct ts as [|t0 ts].
  { cbn [scan_redirs starts]. exists c, s1. split; [|done].
    rewrite (bind_Ok _ _ _ (inr (c, s1)) st); [done|]. unfold redirs_body. by krun E1. }
  rewrite scan_redirs_cons. pose proof (redir_of_starts t0 ts) as Es. rewrite Es in E1. destruct (redir_of t0) as [r|] eqn:Er.
  2: { rewrite Es. exists c, s1. split; [|done]. rewrite (bind_Ok _ _ _ (inr (c, s1)) st); [done|]. unfold redirs_body. by krun E1. }
  destruct (gettoken_u_cons st s1 t0 ts H1) as (q0 & eq0 & s2 & E2 & H2 & _).
  assert (Hp : forall x q eq s3, gettoken_u s2 es st = Ok (x, q, eq, s3) st -> Byte.eqb x Byte.x61 = false ->
    fails ((let! r := redirs_body es (c, s) in match r with inl a' => while fuel (redirs_body es) a' | inr b => ret b end) st)).
  { intros x q eq s3 E3 Hx. apply fails_bind. unfold redirs_body. krun E1. cbn [negb]. krun E2. krun E3. rewrite Hx. apply panic_fails. }
  destruct ts as [|t1 ts].
  { rewrite Es. by eapply Hp; [apply gettoken_u_nil|]. }
  destruct (gettoken_u_cons st s2 t1 ts H2) as (q & eq & s3 & E3 & H3 & Hw). pose proof (code_word _ _ _ _ H2) as Hc.
  destruct t1 as [c1| |w]; [rewrite Es; by eapply Hp|rewrite Es; by eapply Hp|].
  specialize (IH st s3 ts (REDIR c (q, eq) (redir_mode r) (redir_fd r)) (TRedir t w (redir_mode r) (redir_fd r)) H3).
  simpl in Hf. specialize (IH ltac:(lia) ltac:(done)). cbv zeta in IH |- *.
  rewrite (bind_Ok _ _ _ (inl (REDIR c (q, eq) (redir_mode r) (redir_fd r), s3)) st).
  - destruct (scan_redirs ts) as [rs b]. exact IH.
  - unfold redirs_body. krun E1. cbn [negb]. krun E2. krun E3. rewrite Hc. cbn [negb]. by rewrite (code_redir _ _ _ _ r _ _ _ H1 Er).
Qed.

Lemma parseredirs_ok st s ts c t : lexed_in st s ts -> means (u_mem st) c t ->
  let '(rs, b) := scan_redirs ts in
  if starts "<>" b then fails (parseredirs c s es st)
  else exists c' s', parseredirs c s es st = Ok (c', s') st /\ lexed_in st s' b /\ means (u_mem st) c' (wrap t rs).
Proof. intros H Hm. apply redirs_loop; [done|eapply lexed_rounds, H|done]. Qed.

Lemma args_app its its' : args (its ++ its') = args its ++ args its'.
Proof. apply omap_app. Qed.

Lemma redirs_app its its' : redirs (its ++ its') = redirs its ++ redirs its'.
Proof. apply omap_app. Qed.

(** Where the scan of a command stops, no redirection can follow but one without
    a file. *)
Lemma scan_stuck ts : starts "<>" ts = false -> match ts with Word _ :: _ => True | _ => scan ts = ([], ts) end.
Proof.
  destruct ts as [|t ts]; [done|]. rewrite redir_of_starts, scan_cons. destruct t as [c| |w]; [|done|done]. by destruct (redir_of (Sym c)).
Qed.

Lemma args_stop_ok fuel st s ts c n : lexed_in st s ts -> stops ts = true ->
  exists s', while (S fuel) (args_body es) (c, n, s) st = Ok (c, s') st /\ lexed_in st s' ts.
Proof.
  intros H Hs. cbn [while]. destruct (peek_u_ok st s ts "|)&;" ltac:(by apply symbolic_list) H) as (s1 & E1 & H1).
  destruct ts as [|t0 ts].
  - exists es. split; [|by eapply lexed_end]. rewrite (bind_Ok _ _ _ (inr (c, es)) st); [done|].
    unfold args_body. krun E1. cbn [starts]. krun (gettoken_u_nil st s1 H1). done.
  - exists s1. split; [|done]. rewrite (bind_Ok _ _ _ (inr (c, s1)) st); [done|]. unfold args_body. krun E1.
    unfold stops in Hs. by rewrite Hs.
Qed.

Lemma scan_redirs_stuck ts : starts "<>" (scan_redirs ts).2 = true -> scan (scan_redirs ts).2 = ([], (scan_redirs ts).2).
Proof.
  induction ts as [|t ts _ IH] using list_ind2; [done|]. rewrite scan_redirs_cons.
  destruct (redir_of t) as [r|] eqn:E; [|cbn [snd]; rewrite redir_of_starts, E; done].
  destruct ts as [|[| |w] ts]; cbn [snd]; try (intros _; rewrite scan_cons, E; by destruct t). specialize (IH _ _ eq_refl).
  by destruct (scan_redirs ts).
Qed.

(** A round that finds something else than a word. *)
Lemma args_bad st s (t0 : token) ts c n : lexed_in st s (t0 :: ts) -> starts "|)&;" (t0 :: ts) = false ->
  match t0 with Word _ => False | _ => True end -> fails (args_body es (c, n, s) st).
Proof.
  intros H Hs Ht. destruct (peek_u_ok st s _ "|)&;" ltac:(by apply symbolic_list) H) as (s1 & E1 & H1). rewrite Hs in E1.
  destruct (gettoken_u_cons st s1 t0 ts H1) as (q & eq & s2 & E2 & _). pose proof (code_word _ _ _ _ H1) as Hc.
  unfold args_body. krun E1. krun E2. rewrite Hc. destruct (byte_eqb_spec (code t0) Byte.x00) as [Ez|_].
  - exfalso. destruct H1 as [(R & _ & E) _]. pose proof (lex_ok [] R) as Ho. rewrite E in Ho. apply Forall_cons in Ho as [Ho _].
    destruct t0 as [c0| |]; [|done|done]. simpl in Ez. by rewrite Ez in Ho.
  - destruct t0; [apply panic_fails|apply panic_fails|done].
Qed.

(** A round with an argument and the redirections after it. *)
Lemma args_word st s w ts c ws rs : lexed_in st s (Word w :: ts) -> means (u_mem st) c (wrap (TExec ws) rs) ->
  let o := args_body es (c, length ws, s) st in
  let '(rs', b) := scan_redirs ts in
  if (S (length ws) <? MAXARGS)%nat && negb (starts "<>" b) then
    exists c' s', o = Ok (inl (c', length (ws ++ [w]), s')) st /\ lexed_in st s' b /\
      means (u_mem st) c' (wrap (TExec (ws ++ [w])) (rs ++ rs'))
  else fails o.
Proof.
  intros H Hm. destruct (peek_u_ok st s _ "|)&;" ltac:(by apply symbolic_list) H) as (s1 & E1 & H1).
  destruct (gettoken_u_cons st s1 _ ts H1) as (q & eq & s2 & E2 & H2 & Hwa).
  assert (Hbody : args_body es (c, length ws, s) st = (if (MAXARGS <=? S (length ws))%nat then sh_panic "too many args" else
    let! (c, ps) := parseredirs (add_arg c (q, eq)) s2 es in ret (inl (c, S (length ws), ps))) st).
  { unfold args_body. krun E1. cbn [starts]. krun E2. done. }
  pose proof (parseredirs_ok st s2 ts _ _ H2 (means_add_arg _ _ _ _ _ _ Hm Hwa)) as Hpr. cbv zeta. destruct (scan_redirs ts) as [rs' b].
  rewrite Hbody. destruct (Nat.leb_spec MAXARGS (S (length ws))) as [Hmax|Hmax].
  { rewrite (proj2 (Nat.ltb_ge _ _)) by lia. apply panic_fails. }
  rewrite (proj2 (Nat.ltb_lt _ _)) by lia. destruct (starts "<>" b); cbn [negb andb]; [by apply fails_bind|].
  destruct Hpr as (c' & s' & E3 & H3 & Hm3). exists c', s'. rewrite wrap_app. split; [|done]. krun E3.
  rewrite length_app. simpl. by rewrite Nat.add_1_r.
Qed.

Lemma args_loop fuel : forall st s ts c ws rs, lexed_in st s ts -> (length ts < fuel)%nat ->
  means (u_mem st) c (wrap (TExec ws) rs) -> (length ws < MAXARGS)%nat -> starts "<>" ts = false ->
  let o := while fuel (args_body es) (c, length ws, s) st in
  let '(its, b) := scan ts in
  if stops b && (length ws + length (args its) <? MAXARGS)%nat then
    exists c' s', o = Ok (c', s') st /\ lexed_in st s' b /\ means (u_mem st) c' (wrap (TExec (ws ++ args its)) (rs ++ redirs its))
  else fails o.
Proof.
  induction fuel as [|fuel IH]; intros st s ts c ws rs H Hf Hm Hw Hr; [lia|]. pose proof (scan_stuck ts Hr) as Hs.
  destruct (stops ts) eqn:Est.
  { assert (Esc : scan ts = ([], ts)) by (destruct ts as [|[| |] ts]; done). rewrite Esc, Est. cbn [andb args omap list_omap length].
    rewrite Nat.add_0_r, (proj2 (Nat.ltb_lt _ _)) by done. rewrite !app_nil_r.
    destruct (args_stop_ok fuel st s ts c (length ws) H Est) as (s' & E & H'). by exists c, s'. }
  destruct ts as [|t0 ts]; [done|]. cbn [while]. destruct t0 as [c0| |w].
  1,2: rewrite Hs, Est; apply fails_bind; by eapply args_bad.
  pose proof (args_word st s w ts c ws rs H Hm) as Hb. rewrite scan_cons, (scan_after_redirs ts).
  pose proof (scan_redirs_stuck ts) as Hst. pose proof (scan_redirs_tokens ts) as Htok. cbv zeta in Hb |- *.
  destruct (scan_redirs ts) as [rs' b]. cbn [fst snd] in *.
  assert (Ha : args (Arg w :: as_items rs' ++ (scan b).1) = [w] ++ args (scan b).1).
  { change (w :: args (as_items rs' ++ (scan b).1) = w :: args (scan b).1). by rewrite args_app, args_as_items. }
  assert (Hrd : redirs (Arg w :: as_items rs' ++ (scan b).1) = rs' ++ redirs (scan b).1).
  { change (redirs (as_items rs' ++ (scan b).1) = rs' ++ redirs (scan b).1). by rewrite redirs_app, redirs_as_items. }
  rewrite Ha, Hrd, length_app. cbn [length]. destruct (Nat.ltb_spec (S (length ws)) MAXARGS) as [Hmax|Hmax].
  2: { rewrite (proj2 (Nat.ltb_ge (_ + _) _)) by lia. rewrite andb_false_r. by apply fails_bind. }
  destruct (starts "<>" b) eqn:Eb; cbn [negb andb] in Hb.
  { rewrite Hst by done. cbn [fst snd].
    destruct (stops b) eqn:E; [apply stops_no_redir in E; congruence|]. by apply fails_bind. }
  destruct Hb as (c' & s' & E3 & H3 & Hm3). rewrite (bind_Ok _ _ _ _ _ E3).
  apply (f_equal length) in Htok. rewrite length_app in Htok. simpl in Hf.
  assert (El : length (ws ++ [w]) = S (length ws)) by (rewrite length_app; simpl; lia).
  specialize (IH st s' b c' (ws ++ [w]) (rs ++ rs') H3 ltac:(lia) Hm3 ltac:(lia) Eb). cbv zeta in IH.
  destruct (scan b) as [its b']. cbn [fst snd].
  replace (length ws + (1 + length (args its)))%nat with (length (ws ++ [w]) + length (args its))%nat by lia.
  by rewrite <- !app_assoc in IH.
Qed.

(** *** Parser functions and derivations *)

(** [o] is the result of parsing a prefix of [ts]: it returns with a derivation,
    and every derivation of a prefix that can be followed by the rest is that
    one; or it fails, and there is no such derivation. *)
Definition parsed (D : list token -> tree -> Prop) (fol : list token -> bool) st ts (o : outcome uproc (cmd * Z)) : Prop :=
  (exists a b t c s', ts = a ++ b /\ D a t /\ o = Ok (c, s') st /\ lexed_in st s' b /\ means (u_mem st) c t /\
     forall a' b' t', ts = a' ++ b' -> D a' t' -> fol b' = true -> b' = b /\ t' = t) \/
  fails o /\ forall a' b' t', ts = a' ++ b' -> D a' t' -> fol b' = true -> False.

Definition fol_pipe ts : bool := match ts with [] => true | _ => starts ")&;" ts end.

Definition fol_line ts : bool := match ts with [] => true | _ => starts ")" ts end.

Lemma tokens_not_sym its b (c : byte) ts : tokens_of its ++ b = Sym c :: ts -> redir_of (Sym c) = None -> its = [] /\ b = Sym c :: ts.
Proof.
  intros E Hc. destruct its as [|[w|r w] its]; [done|done|]. injection E as E _. rewrite <- E, redir_of_token in Hc. done.
Qed.

Lemma parsesimple_ok st s ts :
  lexed_in st s ts -> starts "(" ts = false ->
  parsed dexec stops st ts ((let! (c, ps) := parseredirs execcmd s es in while (rounds ps es) (args_body es) (c, 0%nat, ps)) st).
Proof.
  intros H Hp. set (o := bind _ _ st). pose proof (scan_after_redirs ts) as Ea. pose proof (scan_tokens ts) as Et.
  assert (Hu : forall a' b' t', ts = a' ++ b' -> dexec a' t' -> stops b' = true ->
    b' = (scan ts).2 /\ t' = wrap (TExec (args (scan ts).1)) (redirs (scan ts).1) /\ (length (args (scan ts).1) < MAXARGS)%nat).
  { intros a' b' t' E Hd Hb. destruct Hd as [a1 t1 its Hl Hz|its Hl]; [by rewrite E in Hp|]. rewrite E, scan_complete by done. done. }
  pose proof (parseredirs_ok st s ts execcmd (TExec []) H ltac:(by constructor)) as Hpr.
  pose proof (scan_redirs_stuck ts) as Hst. destruct (scan_redirs ts) as [rs b]. cbn [fst snd] in *.
  destruct (starts "<>" b) eqn:Eb.
  { right. split; [by apply fails_bind|]. intros a' b' t' E Hd Hb. destruct (Hu a' b' t' E Hd Hb) as (E1 & _ & _).
    rewrite Ea, Hst in E1 by done. cbn [snd] in E1. subst b'. apply stops_no_redir in Hb. congruence. }
  destruct Hpr as (c & s1 & E1 & H1 & Hm1).
  pose proof (args_loop (rounds s1 es) st s1 b c [] rs H1 (lexed_rounds _ _ _ _ (proj1 H1)) Hm1 ltac:(unfold MAXARGS; simpl; lia) Eb) as Hl.
  cbv zeta in Hl. cbn [length app Nat.add] in Hl. assert (Eo : o = while (rounds s1 es) (args_body es) (c, 0%nat, s1) st) by (unfold o; by krun E1).
  rewrite <- Eo in Hl. rewrite Ea in Hu, Et. cbn [fst snd] in Hu, Et. destruct (scan b) as [its b']. cbn [fst snd] in *.
  rewrite args_app, args_as_items, redirs_app, redirs_as_items in Hu. cbn [app] in Hu. destruct (stops b') eqn:Es; cbn [andb] in Hl.
  - destruct (Nat.ltb_spec (length (args its)) MAXARGS) as [Hn|Hn].
    + left. destruct Hl as (c' & s' & E' & H' & Hm'). exists (tokens_of (as_items rs ++ its)), b', (wrap (TExec (args its)) (rs ++ redirs its)), c', s'.
      split_and!; try done.
      * pose proof (Dsimple (as_items rs ++ its)) as Hd. rewrite args_app, args_as_items, redirs_app, redirs_as_items in Hd. by apply Hd.
      * intros a1 b1 t1 E Hd Hb. by destruct (Hu a1 b1 t1 E Hd Hb) as (-> & -> & _).
    + right. split; [done|]. intros a1 b1 t1 E Hd Hb. destruct (Hu a1 b1 t1 E Hd Hb) as (_ & _ & ?). lia.
  - right. split; [done|]. intros a1 b1 t1 E Hd Hb. destruct (Hu a1 b1 t1 E Hd Hb) as (-> & _). congruence.
Qed.

Section Open.
Context (line : Z -> Z -> U (cmd * Z)) (n : nat).
Hypothesis HL : forall st s ts, lexed_in st s ts -> (length ts < n)%nat -> parsed dline fol_line st ts (line s es st).

Lemma block_derivation ts a' b' t' : dexec a' t' -> stops b' = true -> LPAREN :: ts = a' ++ b' ->
  exists a t its, dline a t /\ args its = [] /\ ts = a ++ RPAREN :: tokens_of its ++ b' /\ t' = wrap t (redirs its).
Proof.
  intros Hd Hb E. destruct Hd as [a t its Hl Hz|its Hl].
  - exists a, t, its. injection E as E. rewrite <- app_assoc in E. done.
  - symmetry in E. apply tokens_not_sym in E as [_ ->]; done.
Qed.

Lemma redirs_derivation ts its b' : ts = tokens_of its ++ b' -> args its = [] -> stops b' = true ->
  scan_redirs ts = (redirs its, b') /\ starts "<>" b' = false.
Proof.
  intros -> Hz Hb. apply stops_no_redir in Hb. rewrite <- (as_items_redirs its Hz) at 1. split; [by apply scan_redirs_complete|done].
Qed.

Lemma parseblock_ok st s ts : lexed_in st s (LPAREN :: ts) -> (length ts < n)%nat ->
  parsed dexec stops st (LPAREN :: ts) (parseblock line s es st).
Proof.
  intros H Hn. destruct (peek_u_ok st s _ "(" ltac:(by apply symbolic_list) H) as (s1 & E1 & H1).
  destruct (gettoken_u_cons st s1 _ ts H1) as (q & eq & s2 & E2 & H2 & _).
  assert (Eo : parseblock line s es st = (let! (c, ps) := line s2 es in let! (b, ps) := peek_u ps es ")" in
    if negb b then sh_panic "syntax - missing )" else let! (_, _, _, ps) := gettoken_u ps es in parseredirs c ps es) st).
  { change (starts "(" (LPAREN :: ts)) with true in E1. unfold parseblock. krun E1. cbn [negb]. krun E2. done. }
  rewrite Eo. clear E1 E2 Eo. destruct (HL st s2 ts H2 Hn) as [(a & b & t & c & s3 & Ets & Hd & E3 & H3 & Hm & Hu)|[Hf Hu]].
  2: { right. split; [by apply fails_bind|]. intros a' b' t' E Hd Hb. destruct (block_derivation _ _ _ _ Hd Hb E) as (a & t & its & Hl & _ & Ht & _).
       by apply (Hu a _ t Ht Hl). }
  destruct (peek_u_ok st s3 _ ")" ltac:(by apply symbolic_list) H3) as (s4 & E4 & H4).
  assert (HB : forall a' b' t', LPAREN :: ts = a' ++ b' -> dexec a' t' -> stops b' = true ->
    exists its, b = RPAREN :: tokens_of its ++ b' /\ args its = [] /\ t' = wrap t (redirs its)).
  { intros a' b' t' E Hd' Hb. destruct (block_derivation _ _ _ _ Hd' Hb E) as (a1 & t1 & its & Hl & Hz & Ht & ->).
    destruct (Hu a1 _ t1 Ht Hl eq_refl) as [<- ->]. by exists its. }
  destruct (starts ")" b) eqn:Eb.
  2: { right. split.
    - apply (fails_Ok _ _ _ _ _ E3), (fails_Ok _ _ _ _ _ E4). apply panic_fails.
    - intros a' b' t' E Hd' Hb. destruct (HB a' b' t' E Hd' Hb) as (its & -> & _). done. }
  assert (exists b1, b = RPAREN :: b1) as [b1 ->] by (destruct b as [|[[]| |] b]; try done; by eexists).
  destruct (gettoken_u_cons st s4 _ b1 H4) as (q5 & eq5 & s5 & E5 & H5 & _).
  pose proof (parseredirs_ok st s5 b1 c t H5 Hm) as Hpr. pose proof (scan_redirs_tokens b1) as Hst.
  assert (HS : forall a' b' t', LPAREN :: ts = a' ++ b' -> dexec a' t' -> stops b' = true ->
    starts "<>" (scan_redirs b1).2 = false /\ b' = (scan_redirs b1).2 /\ t' = wrap t (scan_redirs b1).1).
  { intros a' b' t' E Hd' Hb. destruct (HB a' b' t' E Hd' Hb) as (its & [= Hb1] & Hz & ->).
    by destruct (redirs_derivation b1 its b' Hb1 Hz Hb) as [-> Hs]. }
  destruct (scan_redirs b1) as [rs b2]. cbn [fst snd] in *. destruct (starts "<>" b2) eqn:Es.
  - right. split; [|intros a' b' t' E Hd' Hb; by destruct (HS a' b' t' E Hd' Hb)].
    apply (fails_Ok _ _ _ _ _ E3), (fails_Ok _ _ _ _ _ E4), (fails_Ok _ _ _ _ _ E5). done.
  - left. destruct Hpr as (c' & s' & E6 & H6 & Hm6). exists (LPAREN :: a ++ RPAREN :: tokens_of (as_items rs)), b2, (wrap t rs), c', s'.
    split_and!; try done.
    + rewrite Ets, <- Hst. by rewrite <- app_comm_cons, <- app_assoc.
    + pose proof (Dblock a t (as_items rs) Hd (args_as_items rs)) as Hb. by rewrite redirs_as_items in Hb.
    + krun E3. krun E4. cbn [negb]. krun E5. done.
    + intros a' b' t' E Hd' Hb. by destruct (HS a' b' t' E Hd' Hb) as (_ & -> & ->).
Qed.

Lemma parseexec_ok st s ts : lexed_in st s ts -> (length ts <= n)%nat -> parsed dexec stops st ts (parseexec line s es st).
Proof.
  intros H Hn. destruct (peek_u_ok st s _ "(" ltac:(by apply symbolic_list) H) as (s1 & E1 & H1). unfold parseexec. krun E1.
  destruct (starts "(" ts) eqn:Es; [|by apply parsesimple_ok].
  assert (exists ts', ts = LPAREN :: ts') as [ts' ->] by (destruct ts as [|[[]| |] ts]; try done; by eexists). simpl in Hn.
  apply parseblock_ok; [done|lia].
Qed.

Lemma stops_of_pipe b : fol_pipe b = true -> stops b = true /\ starts "|" b = false.
Proof. destruct b as [|[[]| |] b]; vm_compute; (discriminate || done). Qed.

Lemma pipe_of_line b : fol_line b = true -> fol_pipe b = true /\ starts "&" b = false /\ starts ";" b = false.
Proof. destruct b as [|[[]| |] b]; vm_compute; (discriminate || done). Qed.

Lemma starts_sym toks (c : byte) b : bytes_of toks = [c] -> Byte.eqb Byte.x3e c = false -> starts toks b = true -> exists b', b = Sym c :: b'.
Proof.
  intros Et Hc. destruct b as [|[c'| |] b]; cbn [starts]; rewrite ?Et; try done; unfold in_string; cbn [existsb]; rewrite orb_false_r.
  - destruct (byte_eqb_spec c' c) as [->|]; [by eexists|done].
  - by rewrite Hc.
Qed.

Lemma parsepipe_ok fuel : forall st s ts, lexed_in st s ts -> (length ts < fuel)%nat -> (length ts <= n)%nat ->
  parsed dpipe fol_pipe st ts (parsepipe line fuel s es st).
Proof.
  induction fuel as [|fuel IH]; intros st s ts H Hf Hn; [lia|]. cbn [parsepipe].
  destruct (parseexec_ok st s ts H Hn) as [(a & b & t & c & s1 & Ets & Hd & E1 & H1 & Hm & Hu)|[Hfl Hu]].
  2: { right. split; [by apply fails_bind|]. intros a' b' t' E Hd Hb. destruct (stops_of_pipe _ Hb) as [Hs _].
       destruct Hd as [a1 t1 He|a1 t1 a2 t2 He Hp]; [by apply (Hu a1 b' t1)|]. rewrite <- app_assoc in E. by apply (Hu a1 _ t1 E He). }
  krun E1. destruct (peek_u_ok st s1 _ "|" ltac:(by apply symbolic_list) H1) as (s2 & E2 & H2). krun E2.
  destruct (starts "|" b) eqn:Eb.
  - apply (starts_sym "|" Byte.x7c) in Eb as [b1 ->]; [|done|done].
    destruct (gettoken_u_cons st s2 _ b1 H2) as (q & eq & s3 & E3 & H3 & _). krun E3.
    assert (Hlen : (length ts = length a + S (length b1))%nat) by (rewrite Ets, length_app; done).
    assert (HB : forall a' b' t', ts = a' ++ b' -> dpipe a' t' -> fol_pipe b' = true ->
      exists a2 t2, dpipe a2 t2 /\ b1 = a2 ++ b' /\ t' = TPipe t t2).
    { intros a' b' t' E Hd' Hb. destruct (stops_of_pipe _ Hb) as [Hs Hbar]. destruct Hd' as [a1 t1 He|a1 t1 a2 t2 He Hp].
      - destruct (Hu a1 b' t1 E He Hs) as [-> _]. done.
      - rewrite <- app_assoc in E. destruct (Hu a1 _ t1 E He eq_refl) as [Eb1 ->]. injection Eb1 as <-. by exists a2, t2. }
    destruct (IH st s3 b1 H3 ltac:(lia) ltac:(lia)) as [(a2 & b2 & t2 & c2 & s4 & Eb1 & Hd2 & E4 & H4 & Hm2 & Hu2)|[Hfl Hu2]].
    + left. exists (a ++ BAR :: a2), b2, (TPipe t t2), (PIPE c c2), s4. split_and!; try done.
      * by rewrite Ets, Eb1, <- app_assoc.
      * by apply Dpipe.
      * krun E4. done.
      * intros a' b' t' E Hd' Hb. destruct (HB a' b' t' E Hd' Hb) as (a3 & t3 & Hd3 & Eb3 & ->).
        by destruct (Hu2 a3 b' t3 Eb3 Hd3 Hb) as [-> ->].
    + right. split; [by apply fails_bind|]. intros a' b' t' E Hd' Hb.
      destruct (HB a' b' t' E Hd' Hb) as (a3 & t3 & Hd3 & Eb3 & ->). by apply (Hu2 a3 b' t3).
  - left. exists a, b, t, c, s2. split_and!; try done; [by apply Dexec|]. intros a' b' t' E Hd' Hb.
    destruct (stops_of_pipe _ Hb) as [Hs _]. destruct Hd' as [a1 t1 He|a1 t1 a2 t2 He Hp]; [by apply (Hu a1)|].
    rewrite <- app_assoc in E. by destruct (Hu a1 _ t1 E He eq_refl) as [<- _].
Qed.

End Open.

Lemma backs_loop fuel : forall st s ts c t, lexed_in st s ts -> (length ts < fuel)%nat -> means (u_mem st) c t ->
  exists k b c' s', ts = replicate k AMP ++ b /\ starts "&" b = false /\ lexed_in st s' b /\
    while fuel (backs_body es) (c, s) st = Ok (c', s') st /\ means (u_mem st) c' (Nat.iter k TBack t).
Proof.
  induction fuel as [|fuel IH]; intros st s ts c t H Hf Hm; [lia|]. cbn [while].
  destruct (peek_u_ok st s ts "&" ltac:(by apply symbolic_list) H) as (s1 & E1 & H1). destruct (starts "&" ts) eqn:Es.
  - apply (starts_sym "&" Byte.x26) in Es as [ts' ->]; [|done|done].
    destruct (gettoken_u_cons st s1 _ ts' H1) as (q & eq & s2 & E2 & H2 & _). simpl in Hf.
    destruct (IH st s2 ts' (BACK c) (TBack t) H2 ltac:(lia) Hm) as (k & b & c' & s' & -> & Hb & Hl & E & Hm').
    exists (S k), b, c', s'. split_and!; try done.
    + rewrite (bind_Ok _ _ _ (inl (BACK c, s2)) st); [done|]. unfold backs_body. krun E1. cbn [negb]. krun E2. done.
    + by rewrite Nat.iter_succ_r.
  - exists 0%nat, ts, c, s1. split_and!; try done. rewrite (bind_Ok _ _ _ (inr (c, s1)) st); [done|]. unfold backs_body. by krun E1.
Qed.

Lemma amps_unique k k' b b' : replicate k AMP ++ b = replicate k' AMP ++ b' -> starts "&" b = false -> starts "&" b' = false -> k = k' /\ b = b'.
Proof.
  intros E Hb Hb'. revert k' E. induction k as [|k IH]; intros [|k'] E; simpl in E.
  - done.
  - by rewrite E in Hb.
  - by rewrite <- E in Hb'.
  - injection E as E. destruct (IH k' E) as [-> ->]. done.
Qed.

Lemma parseline_ok fuel : forall st s ts, lexed_in st s ts -> (length ts < fuel)%nat ->
  parsed dline fol_line st ts (parseline fuel s es st).
Proof.
  induction fuel as [|fuel IH]; intros st s ts H Hf; [lia|]. cbn [parseline].
  assert (Hfol : forall k b, fol_line b = true -> fol_pipe (replicate k AMP ++ b) = true) by (intros [|k] b Hb; [by apply pipe_of_line|done]).
  destruct (parsepipe_ok (parseline fuel) fuel IH (S fuel) st s ts H Hf ltac:(lia))
    as [(a & b & t & c & s1 & Ets & Hd & E1 & H1 & Hm & Hu)|[Hfl Hu]].
  2: { right. split; [by apply fails_bind|]. intros a' b' t' E Hd Hb. destruct Hd as [a1 t1 k Hp|a1 t1 k a2 t2 Hp Hl]; rewrite <- app_assoc in E.
       - apply (Hu a1 _ t1 E Hp). by apply Hfol.
       - apply (Hu a1 _ t1 E Hp). by destruct k. }
  krun E1. destruct (backs_loop (rounds s1 es) st s1 b c t H1 (lexed_rounds _ _ _ _ (proj1 H1)) Hm) as (k & b1 & c1 & s2 & Eb & Hb1 & H2 & E2 & Hm2).
  krun E2. destruct (peek_u_ok st s2 b1 ";" ltac:(by apply symbolic_list) H2) as (s3 & E3 & H3). krun E3.
  assert (HB : forall a' b' t', ts = a' ++ b' -> dline a' t' -> fol_line b' = true ->
    b' = b1 /\ t' = Nat.iter k TBack t \/
    exists a2 t2, b1 = SEMI :: a2 ++ b' /\ dline a2 t2 /\ t' = TList (Nat.iter k TBack t) t2).
  { intros a' b' t' E Hd' Hb. destruct Hd' as [a1 t1 k' Hp|a1 t1 k' a2 t2 Hp Hl]; rewrite <- app_assoc in E.
    - left. destruct (Hu a1 _ t1 E Hp (Hfol _ _ Hb)) as [Eb' ->]. rewrite Eb in Eb'. apply amps_unique in Eb' as [-> ->]; [done| |done].
      by apply pipe_of_line.
    - right. assert (Hb2 : fol_pipe ((replicate k' AMP ++ SEMI :: a2) ++ b') = true) by (by destruct k').
      destruct (Hu a1 _ t1 E Hp Hb2) as [Eb' ->]. rewrite Eb, <- app_assoc in Eb'. apply amps_unique in Eb' as [-> <-]; [by exists a2, t2|done|done]. }
  destruct (starts ";" b1) eqn:Es.
  - apply (starts_sym ";" Byte.x3b) in Es as [b2 ->]; [|done|done].
    destruct (gettoken_u_cons st s3 _ b2 H3) as (q & eq & s4 & E4 & H4 & _). krun E4.
    assert (Hlen : (length b2 < fuel)%nat).
    { rewrite Ets, Eb, !length_app in Hf. simpl in Hf. lia. }
    destruct (IH st s4 b2 H4 Hlen) as [(a2 & b3 & t2 & c2 & s5 & Eb2 & Hd2 & E5 & H5 & Hm5 & Hu5)|[Hfl Hu5]].
    + left. exists (a ++ replicate k AMP ++ SEMI :: a2), b3, (TList (Nat.iter k TBack t) t2), (LIST c1 c2), s5. split_and!; try done.
      * rewrite Ets, Eb, Eb2. by rewrite <- !app_assoc.
      * by apply Dlist.
      * krun E5. done.
      * intros a' b' t' E Hd' Hb. destruct (HB a' b' t' E Hd' Hb) as [[-> _]|(a3 & t3 & [= Eb3] & Hd3 & ->)]; [done|].
        by destruct (Hu5 a3 b' t3 Eb3 Hd3 Hb) as [-> ->].
    + right. split; [by apply fails_bind|]. intros a' b' t' E Hd' Hb.
      destruct (HB a' b' t' E Hd' Hb) as [[-> _]|(a3 & t3 & [= Eb3] & Hd3 & ->)]; [done|]. by apply (Hu5 a3 b' t3).
  - left. exists (a ++ replicate k AMP), b1, (Nat.iter k TBack t), c1, s3. split_and!; try done.
    + by rewrite Ets, Eb, <- app_assoc.
    + by apply Dline.
    + intros a' b' t' E Hd' Hb. destruct (HB a' b' t' E Hd' Hb) as [?|(a3 & t3 & -> & _)]; done.
Qed.

(** The end of the line is reached exactly when no token is left. *)
Lemma peek_end st s b : lexed_in st s b ->
  exists s' R, peek_u s es "" st = Ok (false, s') st /\ lo <= s' /\ line_at (u_mem st) es s' R /\ (s' = es <-> b = []).
Proof.
  intros [(R & H & <-) Hlo]. destruct (skip_ok (in_string whitespace) _ _ _ _ H) as [E L].
  exists (skip (u_mem st) (in_string whitespace) s es), (drop_while (in_string whitespace) R). split_and!; [|lia|done|].
  - unfold peek_u, peek, Prelude.gets. by rewrite andb_false_r.
  - rewrite <- lex_strip. destruct L as [_ L]. destruct (drop_while (in_string whitespace) R) as [|c R'] eqn:ER; simpl length in L.
    + split; [done|intros _; lia].
    + split; [lia|]. destruct (lex_first c R' (drop_while_head _ R c R' ER)) as [[ts ->]|[[-> [ts ->]]|(Hs & w & ts & ->)]]; done.
Qed.

End Parser.

(** ** The strings of a command *)

(** The addresses where [nulterminate] puts a nul. *)
Fixpoint ends (c : cmd) : list Z :=
  match c with
  | EXEC argv => map snd argv
  | REDIR c f _ _ => ends c ++ [f.2]
  | PIPE l r | LIST l r => ends l ++ ends r
  | BACK c => ends c
  end.

Definition zeroes (l : list Z) m : mem := foldl (fun m a => st8 m a Byte.x00) m l.

(** The command [c] is that of the tree, and its arguments and file names are
    strings in memory. *)
Fixpoint runnable m (c : cmd) (t : tree) : Prop :=
  match c, t with
  | EXEC argv, TExec ws => Forall2 (fun (a : span) w => cstr m a.1 w) argv ws
  | REDIR c f mode fd, TRedir t w mode' fd' => runnable m c t /\ cstr m f.1 w /\ mode = mode' /\ fd = fd'
  | PIPE l r, TPipe tl tr => runnable m l tl /\ runnable m r tr
  | LIST l r, TList tl tr => runnable m l tl /\ runnable m r tr
  | BACK c, TBack t => runnable m c t
  | _, _ => False
  end.

Lemma ld8_zeroes l m a : ld8 (zeroes l m) a = if decide (a ∈ l) then Byte.x00 else ld8 m a.
Proof.
  revert m. induction l as [|b l IH]; intros m; [by rewrite decide_False by apply not_elem_of_nil|].
  change (zeroes (b :: l) m) with (zeroes l (st8 m b Byte.x00)). rewrite IH. destruct (decide (a ∈ l)) as [H|H].
  - rewrite decide_True by (by right). done.
  - destruct (decide (a = b)) as [->|Hne]; [rewrite decide_True by left; apply ld8_st8_eq|].
    rewrite decide_False by (rewrite elem_of_cons; tauto). by apply ld8_st8_ne.
Qed.

Lemma zeroes_app l l' m : zeroes (l ++ l') m = zeroes l' (zeroes l m).
Proof. apply foldl_app. Qed.

Lemma nulterminate_ok c : forall st, nulterminate c st = Ok tt (set_u_mem (zeroes (ends c) (u_mem st)) st).
Proof.
  assert (Hargs : forall (argv : list span) st, forM argv (fun a => stb a.2 Byte.x00) st = Ok tt (set_u_mem (zeroes (map snd argv) (u_mem st)) st)).
  { induction argv as [|a argv IH]; intros st; cbn [forM]; [by destruct st|]. unfold stb at 1. rewrite bind_modify, IH. done. }
  assert (H2 : forall c1 c2, (forall st, nulterminate c1 st = Ok tt (set_u_mem (zeroes (ends c1) (u_mem st)) st)) ->
    (forall st, nulterminate c2 st = Ok tt (set_u_mem (zeroes (ends c2) (u_mem st)) st)) ->
    forall st, (nulterminate c1 ;; nulterminate c2) st = Ok tt (set_u_mem (zeroes (ends c1 ++ ends c2) (u_mem st)) st)).
  { intros c1 c2 I1 I2 st. krun (I1 st). rewrite I2. by rewrite zeroes_app. }
  induction c as [argv|c IH f mode fd|l IHl r IHr|l IHl r IHr|c IH]; intros st; cbn [nulterminate ends].
  - apply Hargs.
  - krun (IH st). unfold stb, modify. by rewrite zeroes_app.
  - by apply H2.
  - by apply H2.
  - apply IH.
Qed.

(** A word becomes a string when its end and ends of other words are cleared. *)
Lemma word_string m E (a : span) w : word_at m a w -> a.2 ∈ E -> (forall e, e ∈ E -> ~ letter (ld8 m e)) -> cstr (zeroes E m) a.1 w.
Proof.
  intros [[_ H1] H2 H3 _] Ha HE. apply cstr_iff. split_and!.
  - intros H. by apply (proj1 (Forall_forall _ _) H1) in H as [_ H].
  - rewrite <- H2 at 2. apply ld_bytes_ext. intros x Hx. rewrite ld8_zeroes. rewrite decide_False; [done|]. intros Hin. apply (HE _ Hin).
    pose proof (ld_bytes_lookup m a.1 (length w) (Z.to_nat (x - a.1)) ltac:(lia)) as Hl. rewrite H2 in Hl.
    replace (a.1 + Z.of_nat (Z.to_nat (x - a.1))) with x in Hl by lia.
    apply (proj1 (Forall_forall _ _) H1). by eapply list_elem_of_lookup_2.
  - rewrite <- H3, ld8_zeroes. by rewrite decide_True.
Qed.

Lemma means_ends m c t : means m c t -> forall e, e ∈ ends c -> ~ letter (ld8 m e).
Proof.
  revert t. induction c as [argv|c IH f mode fd|l IHl r IHr|l IHl r IHr|c IH]; intros [ws|t w mo f'|tl tr|tl tr|t] H; try done; cbn [ends].
  - simpl in H. induction H as [|a w argv ws Ha H IH]; intros e; [by intros []%not_elem_of_nil|].
    intros [->|He]%elem_of_cons; [apply Ha|by apply IH].
  - destruct H as (H1 & H2 & _). intros e [He| ->%list_elem_of_singleton]%elem_of_app; [by eapply IH|apply H2].
  - destruct H as [H1 H2]. intros e [He|He]%elem_of_app; [by eapply IHl|by eapply IHr].
  - destruct H as [H1 H2]. intros e [He|He]%elem_of_app; [by eapply IHl|by eapply IHr].
  - by eapply IH.
Qed.

Lemma means_runnable m E c t : means m c t -> (forall e, e ∈ ends c -> e ∈ E) -> (forall e, e ∈ E -> ~ letter (ld8 m e)) -> runnable (zeroes E m) c t.
Proof.
  intros H HE HL. revert t H HE. induction c as [argv|c IH f mode fd|l IHl r IHr|l IHl r IHr|c IH]; intros [ws|t w mo f'|tl tr|tl tr|t] H HE;
    try done; cbn [ends] in HE; simpl in H |- *.
  - induction H as [|a w argv ws Ha H IH]; [done|]. constructor.
    + apply word_string; [done|apply HE; left|done].
    + apply IH. intros e He. apply HE. by right.
  - destruct H as (H1 & H2 & H3). split; [apply IH; [done|]|split; [|done]].
    + intros e He. apply HE, elem_of_app. by left.
    + apply word_string; [done| |done]. apply HE, elem_of_app. right. left.
  - destruct H as [H1 H2]. split; [apply IHl|apply IHr]; try done; intros e He; apply HE, elem_of_app; auto.
  - destruct H as [H1 H2]. split; [apply IHl|apply IHr]; try done; intros e He; apply HE, elem_of_app; auto.
  - by apply IH.
Qed.

Lemma parsecmd_cases {W : Type} `{!Unix W} (bound : nat) (s : Z) (R : list byte) (st : uproc)
    (HR : cstr (u_mem st) s R) (Hb : (length R < bound)%nat) :
  (exists t c st', dline (lex [] R) t /\ parsecmd bound s st = Ok c st' /\ runnable (u_mem st') c t /\
     forall t', dline (lex [] R) t' -> t' = t) \/
  (forall t, ~ dline (lex [] R) t) /\ forall u : W, exists st' u', drive (parsecmd bound s st) u = Exited 1 st' u'.
Proof.
  set (es := s + Z.of_nat (length R)). assert (H : lexed_in s es st s (lex [] R)) by (split; [by exists R|lia]).
  assert (E0 : strlen bound s st = Ok (Z.of_nat (length R)) st) by (by apply strlen_ok).
  pose proof (parseline_ok (W := W) s es (rounds s es) st s _ H (lexed_rounds _ _ _ _ (proj1 H))) as HP.
  unfold parsecmd.
  destruct HP as [(a & b & t & c & s1 & Ets & Hd & E1 & H1 & Hm & Hu)|[Hf Hu]].
  - destruct (peek_end _ _ st s1 b H1) as (s2 & R2 & E2 & Hlo & HL2 & Hend). destruct (decide (b = [])) as [->|Hne].
    + left. rewrite app_nil_r in Ets. rewrite <- Ets in Hd.
      exists t, c, (set_u_mem (zeroes (ends c) (u_mem st)) st). split_and!; [done| | |].
      * krun E0. fold es. krun E1. krun E2. rewrite (proj2 (Z.eqb_eq _ _)) by (by apply Hend). cbn [negb]. krun (nulterminate_ok c st). done.
      * apply means_runnable; [done|done|by eapply means_ends].
      * intros t' Ht'. destruct (Hu (lex [] R) [] t') as [_ Et]; [by rewrite app_nil_r|done|done|done].
    + right. split.
      * intros t' Ht'. destruct (Hu (lex [] R) [] t') as [Eb _]; [by rewrite app_nil_r|done|done|]. by apply Hne.
      * intros u. apply (fails_Ok (W := W) _ _ _ _ _ E0). fold es. apply (fails_Ok _ _ _ _ _ E1), (fails_Ok _ _ _ _ _ E2).
        rewrite (proj2 (Z.eqb_neq _ _)) by (rewrite Hend; done). cbn [negb]. destruct HL2 as [HR2 Hes].
        apply (fails_Ok _ _ _ _ _ (cstring_ok bound s2 R2 st HR2 ltac:(unfold es in Hes; lia))).
        intros w1. destruct (uemits_returns 2 (fprintf 2 (line "leftovers: %s") [Str (Some R2)]) tt (bytes_of "leftovers: " ++ R2 ++ [Byte.x0a]) st w1)
          as (st2 & w2 & E3 & _).
        { apply vprintf_emits; [|done]. intros Hin%list_elem_of_In. vm_compute in Hin. intuition discriminate. }
        destruct (panic_fails (A := cmd) "syntax" st2 w2) as (st3 & w3 & E4). exists st3, w3. by rewrite (drive_bind _ _ _ _ _ _ _ E3).
  - right. split.
    + intros t Ht. by apply (Hu (lex [] R) [] t); [by rewrite app_nil_r|..].
    + intros u. apply (fails_Ok (W := W) _ _ _ _ _ E0). fold es. by apply fails_bind.
Qed.

(** C19: [parsecmd] implements the grammar of command lines.  For a line in memory
    it returns the command of a tree that the grammar gives for the line, with
    each argument and file name a nul-terminated string, and this is the only
    tree; or the grammar gives no tree, and the shell writes a message to
    descriptor 2 and exits with status 1. *)
Theorem parsecmd_correct {W : Type} `{!Unix W} (bound : nat) (s : Z) (R : list byte) (st : uproc)
    (HR : cstr (u_mem st) s R) (Hb : (length R < bound)%nat) :
  (exists t c st', dline (lex [] R) t /\ parsecmd bound s st = Ok c st' /\ runnable (u_mem st') c t /\
     forall t', dline (lex [] R) t' -> t' = t) \/
  (forall t, ~ dline (lex [] R) t) /\ forall u : W, exists st' u', drive (parsecmd bound s st) u = Exited 1 st' u'.
Proof. by apply parsecmd_cases. Qed.

Definition demo_line : list byte := bytes_of "ls -l | (cat; wc) >> out &".

Definition demo_tree : tree :=
  TBack (TPipe (TExec [bytes_of "ls"; bytes_of "-l"])
    (TRedir (TList (TExec [bytes_of "cat"]) (TExec [bytes_of "wc"])) (bytes_of "out") 0x201 1)).

Lemma demo_derives : dline (lex [] demo_line) demo_tree.
Proof.
  assert (Hb : dexec (LPAREN :: [Word (bytes_of "cat"); SEMI; Word (bytes_of "wc")] ++ RPAREN :: tokens_of [Redir Append_ (bytes_of "out")])
    (wrap (TList (TExec [bytes_of "cat"]) (TExec [bytes_of "wc"])) (redirs [Redir Append_ (bytes_of "out")]))).
  { apply Dblock; [|done]. apply (Dlist [Word (bytes_of "cat")] _ 0 [Word (bytes_of "wc")] _).
    - apply Dexec, (Dsimple [Arg (bytes_of "cat")]). vm_compute. lia.
    - apply (Dline [Word (bytes_of "wc")] _ 0). apply Dexec, (Dsimple [Arg (bytes_of "wc")]). vm_compute. lia. }
  apply (Dline _ _ 1 (Dpipe _ _ _ _ (Dsimple [Arg (bytes_of "ls"); Arg (bytes_of "-l")] ltac:(vm_compute; lia)) (Dexec _ _ Hb))).
Qed.

Lemma parsecmd_correct_witness :
  exists c st', parsecmd 100 4096 (Uproc (st_bytes ∅ 4096 demo_line) Getpid (0, [])) = Ok c st' /\ runnable (u_mem st') c demo_tree.
Proof.
  destruct (parsecmd_correct (W := pieces) 100 4096 demo_line (Uproc (st_bytes ∅ 4096 demo_line) Getpid (0, [])))
    as [(t & c & st' & _ & E & H & Hu)|[Hn _]].
  - vm_compute. intuition discriminate.
  - vm_compute. lia.
  - rewrite <- (Hu _ demo_derives) in H. exists c, st'. split; [exact E|exact H].
  - destruct (Hn _ demo_derives).
Defined.

End ShellParse.
