(* ===== verification/ShellType.v ===== *)
(** * The commands that the shell runs are well formed

    A type for commands: an argument vector leaves room for the null pointer
    that ends it, an argument or a file name is a non-empty piece of the line,
    and a redirection has one of the three modes, with its descriptor.  Every
    command that [parsecmd] returns has the type, and the only memory it writes
    is that of the line. *)

From S2P Require Import Prelude Riscv Memory CString Block Uart Printf User UserPrintf Shell ShellParse.
Import User.Ulib UserPrintf.UPrintf Shell.Shell ShellParse.ShellParse.

Module ShellType.

(** ** The type *)

Definition span_in (lo hi : Z) (a : span) : Prop := lo <= a.1 /\ a.1 < a.2 /\ a.2 <= hi.

Definition redirection (mode fd : Z) : Prop :=
  mode = O_RDONLY /\ fd = 0 \/ mode = Z.lor O_WRONLY (Z.lor O_CREATE O_TRUNC) /\ fd = 1 \/ mode = Z.lor O_WRONLY O_CREATE /\ fd = 1.

Fixpoint typed (lo hi : Z) (c : cmd) : Prop :=
  match c with
  | EXEC argv => (length argv < MAXARGS)%nat /\ Forall (span_in lo hi) argv
  | REDIR c f mode fd => typed lo hi c /\ span_in lo hi f /\ redirection mode fd
  | PIPE l r | LIST l r => typed lo hi l /\ typed lo hi r
  | BACK c => typed lo hi c
  end.

(** A simple command with [n] arguments so far. *)
Fixpoint simple (lo hi : Z) (n : nat) (c : cmd) : Prop :=
  match c with
  | EXEC argv => length argv = n /\ Forall (span_in lo hi) argv
  | REDIR c f mode fd => simple lo hi n c /\ span_in lo hi f /\ redirection mode fd
  | _ => False
  end.

Lemma simple_typed lo hi n c : (n < MAXARGS)%nat -> simple lo hi n c -> typed lo hi c.
Proof. intros Hn. induction c; simpl; try done; [by intros [-> ?]|naive_solver]. Qed.

Lemma simple_add lo hi n c a : simple lo hi n c -> span_in lo hi a -> simple lo hi (S n) (add_arg c a).
Proof.
  intros H Ha. induction c; simpl in *; try done; [|naive_solver]. destruct H as [H1 H2]. split; [rewrite length_app; simpl; lia|].
  apply Forall_app. by rewrite Forall_singleton.
Qed.

Lemma typed_ends lo hi c e : typed lo hi c -> e ∈ ends c -> lo < e <= hi.
Proof.
  induction c as [argv|c IH f mode fd|l IHl r IHr|l IHl r IHr|c IH]; cbn [typed ends].
  - intros [_ H] (a & -> & Ha)%list_elem_of_fmap. apply (proj1 (Forall_forall _ _) H) in Ha as (? & ? & ?). lia.
  - intros (H1 & (H2 & H3 & H4) & _) [He| ->%list_elem_of_singleton]%elem_of_app; [by apply IH|lia].
  - intros [H1 H2] [He|He]%elem_of_app; auto.
  - intros [H1 H2] [He|He]%elem_of_app; auto.
  - apply IH.
Qed.

(** ** Computations that read the memory *)

(** If [c] returns, it has changed nothing, and its value satisfies [Q]. *)
Definition yields {A} (Q : A -> Prop) (c : U A) (st : uproc) : Prop := forall a st', c st = Ok a st' -> Q a /\ st' = st.

Section Yields.
Context {A B : Type}.
Implicit Types (st : uproc).

Lemma yields_ret (Q : A -> Prop) a st : Q a -> yields Q (ret a) st.
Proof. by intros H b st' [= <- <-]. Qed.

Lemma yields_bind (P : A -> Prop) (Q : B -> Prop) c f st : yields P c st -> (forall a, P a -> yields Q (f a) st) -> yields Q (bind c f) st.
Proof. intros Hc Hf b st' (a & st1 & E1 & E2)%bind_Ok_inv. apply Hc in E1 as [Ha ->]. by eapply Hf. Qed.

Lemma yields_while (P : A -> Prop) (Q : B -> Prop) body st n :
  (forall a, P a -> yields (fun r => match r with inl a => P a | inr b => Q b end) (body a) st) ->
  forall a, P a -> yields Q (while n body a) st.
Proof.
  intros H. induction n as [|n IH]; intros a Ha b st' E; [done|]. cbn [while] in E. apply bind_Ok_inv in E as (r & st1 & E1 & E2).
  apply (H _ Ha) in E1 as [Hr ->]. destruct r as [a'|b']; [by eapply IH|]. by injection E2 as <- <-.
Qed.

Lemma yields_panic (Q : A -> Prop) msg st : yields Q (sh_panic msg) st.
Proof. by intros a st' (x & st1 & _ & E)%bind_Ok_inv. Qed.

End Yields.

(** ** The scanner stays on the line *)

Lemma skip_bounds m p s es : s <= es -> s <= skip m p s es <= es.
Proof.
  unfold skip. intros H. replace es with (s + Z.of_nat (Z.to_nat (es - s))) at 3 by lia. generalize (Z.to_nat (es - s)). clear H es.
  intros n. revert s. induction n as [|n IH]; intros s; cbn [advance]; [lia|]. destruct (p (ld8 m s)); [|lia]. specialize (IH (s + 1)). lia.
Qed.

Lemma skip_stops m p s es : s <= es -> skip m p s es < es -> p (ld8 m (skip m p s es)) = false.
Proof.
  unfold skip. intros H. replace es with (s + Z.of_nat (Z.to_nat (es - s))) at 2 by lia. generalize (Z.to_nat (es - s)). clear H es.
  intros n. revert s. induction n as [|n IH]; intros s; cbn [advance]; [lia|]. destruct (p (ld8 m s)) eqn:E; [|done].
  intros H. apply IH. lia.
Qed.

Lemma skip_first m p s es : s < es -> p (ld8 m s) = true -> s < skip m p s es.
Proof.
  intros H Hp. unfold skip. destruct (Z.to_nat (es - s)) as [|n] eqn:En; [lia|]. cbn [advance]. rewrite Hp.
  pose proof (skip_bounds m p (s + 1) es ltac:(lia)) as Hb. unfold skip in Hb. by replace (Z.to_nat (es - (s + 1))) with n in Hb by lia; lia.
Qed.

Section Line.
Variables (lo es : Z) (st : uproc).
Hypothesis Hes : ld8 (u_mem st) es = Byte.x00.

Definition on_line (ps : Z) : Prop := lo <= ps <= es.

Lemma peek_on_line toks ps : on_line ps -> yields (fun r => on_line r.2) (peek_u ps es toks) st.
Proof. intros H a st' [= <- <-]. split; [|done]. unfold peek. cbn [snd]. pose proof (skip_bounds (u_mem st) (in_string whitespace) ps es (proj2 H)). unfold on_line in *. lia. Qed.

(** A token, and the word it is when it is one. *)
Definition token_on_line : byte * Z * Z * Z -> Prop := fun '(t, q, eq, ps) => on_line ps /\ (t = Byte.x61 -> span_in lo es (q, eq)).

Lemma gettoken_on_line ps : on_line ps -> yields token_on_line (gettoken_u ps es) st.
Proof.
  intros H a st' [= <- <-]. split; [|done]. unfold gettoken. set (m := u_mem st) in *.
  pose proof (skip_bounds m (in_string whitespace) ps es ltac:(unfold on_line in *; lia)) as Hs.
  pose proof (skip_stops m (in_string whitespace) ps es ltac:(unfold on_line in *; lia)) as Hstop.
  set (s := skip m (in_string whitespace) ps es) in *.
  assert (Hlt : ld8 m s <> Byte.x00 -> s < es) by (intros Hn; destruct (decide (s = es)) as [->|]; [by destruct Hn|lia]).
  assert (Hgo : forall t e, s <= e <= es -> (t = Byte.x61 -> s < e) -> token_on_line (t, s, e, skip m (in_string whitespace) e es)).
  { intros t e He Ht. pose proof (skip_bounds m (in_string whitespace) e es (proj2 He)). unfold token_on_line, on_line, span_in in *.
    split; [lia|]. intros Et. specialize (Ht Et). cbn [fst snd]. lia. }
  destruct (Byte.eqb (ld8 m s) Byte.x00) eqn:E0; [apply Byte.byte_dec_bl in E0; rewrite E0; apply Hgo; [lia|done]|].
  assert (Hn : s < es) by (apply Hlt; intros E; by rewrite E in E0).
  destruct (in_string (bytes_of "|();&<") (ld8 m s)) eqn:E1; [apply Hgo; lia|].
  destruct (Byte.eqb (ld8 m s) Byte.x3e) eqn:E2.
  - destruct (Byte.eqb (ld8 m (s + 1)) Byte.x3e) eqn:E3; apply Hgo; try done; try lia.
    destruct (decide (s + 1 = es)) as [E|]; [by rewrite E, Hes in E3|lia].
  - assert (Hp : plain (ld8 m s) = true).
    { unfold plain. rewrite (Hstop Hn). cbn in E1, E2 |- *. rewrite !orb_false_iff in E1. destruct E1 as (-> & -> & -> & -> & -> & -> & _).
      by rewrite E2. }
    apply Hgo; [pose proof (skip_bounds m plain s es (proj2 Hs)); lia|intros _; by apply skip_first].
Qed.

(** ** The parser *)

Implicit Types (c : cmd) (ps : Z).

Definition result (P : cmd -> Prop) : cmd * Z -> Prop := fun '(c, ps) => P c /\ on_line ps.

Abbreviation typed_result := (result (typed lo es)).

Lemma yields_peek {B} (Q : B -> Prop) toks ps f :
  on_line ps -> (forall b ps', on_line ps' -> yields Q (f (b, ps')) st) -> yields Q (bind (peek_u ps es toks) f) st.
Proof. intros H Hf. eapply yields_bind; [by apply peek_on_line|]. intros [b ps'] H'. by apply Hf. Qed.

Lemma yields_token {B} (Q : B -> Prop) ps f :
  on_line ps -> (forall t q eq ps', on_line ps' -> (t = Byte.x61 -> span_in lo es (q, eq)) -> yields Q (f (t, q, eq, ps')) st) ->
  yields Q (bind (gettoken_u ps es) f) st.
Proof. intros H Hf. eapply yields_bind; [by apply gettoken_on_line|]. intros [[[t q] eq] ps'] [H1 H2]. by apply Hf. Qed.

Lemma yields_result {B} (P : cmd -> Prop) (Q : B -> Prop) x f :
  yields (result P) x st -> (forall c ps, P c -> on_line ps -> yields Q (f (c, ps)) st) -> yields Q (bind x f) st.
Proof. intros H Hf. eapply yields_bind; [exact H|]. intros [c ps] [H1 H2]. by apply Hf. Qed.

Lemma parseredirs_yields (P : cmd -> Prop) c ps :
  (forall c f mode fd, P c -> span_in lo es f -> redirection mode fd -> P (REDIR c f mode fd)) ->
  P c -> on_line ps -> yields (result P) (parseredirs c ps es) st.
Proof.
  intros HP Hc H. unfold parseredirs. apply (yields_while (result P)); [|done]. clear c ps Hc H. intros [c ps] [Hc H]. unfold redirs_body.
  apply yields_peek; [done|]. intros [|] ps1 H1; cbn [negb]; [|by apply yields_ret].
  apply yields_token; [done|]. intros tok q0 eq0 ps2 H2 _. apply yields_token; [done|]. intros t q eq ps3 H3 Hw.
  destruct (Byte.eqb t Byte.x61) eqn:E; cbn [negb]; [|apply yields_panic]. apply Byte.byte_dec_bl, Hw in E. apply yields_ret. split; [|done].
  unfold redircmd, redirection in *. destruct (Byte.eqb tok _); [apply HP; auto|]. destruct (Byte.eqb tok _); [apply HP; auto|].
  destruct (Byte.eqb tok _); [apply HP; auto|done].
Qed.

Lemma typed_redirs c ps : typed lo es c -> on_line ps -> yields typed_result (parseredirs c ps es) st.
Proof. by apply parseredirs_yields. Qed.

Lemma simple_redirs n c ps : simple lo es n c -> on_line ps -> yields (result (simple lo es n)) (parseredirs c ps es) st.
Proof. by apply parseredirs_yields. Qed.

Lemma args_yields c ps : simple lo es 0 c -> on_line ps -> yields typed_result (while (rounds ps es) (args_body es) (c, 0%nat, ps)) st.
Proof.
  intros Hc H. apply (yields_while (fun '(c, n, ps) => simple lo es n c /\ (n < MAXARGS)%nat /\ on_line ps)); [|by split_and!; [|unfold MAXARGS; lia|]].
  clear c ps Hc H. intros [[c n] ps] (Hc & Hn & H). unfold args_body.
  apply yields_peek; [done|]. intros [|] ps1 H1; [apply yields_ret; split; [by eapply simple_typed|done]|].
  apply yields_token; [done|]. intros t q eq ps2 H2 Hw. destruct (Byte.eqb t Byte.x00); [apply yields_ret; split; [by eapply simple_typed|done]|].
  destruct (Byte.eqb t Byte.x61) eqn:E; cbn [negb]; [|apply yields_panic]. apply Byte.byte_dec_bl, Hw in E.
  destruct (Nat.leb_spec MAXARGS (S n)); [apply yields_panic|].
  eapply yields_result; [apply (simple_redirs (S n)); [by apply simple_add|done]|]. intros c' ps3 Hc' H3. by apply yields_ret.
Qed.

Section Open.
Variable parseline : Z -> Z -> U (cmd * Z).
Hypothesis Hline : forall ps, on_line ps -> yields typed_result (parseline ps es) st.

Lemma parseexec_yields ps : on_line ps -> yields typed_result (parseexec parseline ps es) st.
Proof.
  intros H. unfold parseexec. apply yields_peek; [done|]. clear ps H. intros [|] ps H.
  - unfold parseblock. apply yields_peek; [done|]. intros [|] ps1 H1; cbn [negb]; [|apply yields_panic].
    apply yields_token; [done|]. intros _ _ _ ps2 H2 _. eapply yields_result; [by apply Hline|]. intros c ps3 Hc H3.
    apply yields_peek; [done|]. intros [|] ps4 H4; cbn [negb]; [|apply yields_panic].
    apply yields_token; [done|]. intros _ _ _ ps5 H5 _. by apply typed_redirs.
  - eapply yields_result; [by apply (simple_redirs 0)|]. intros c ps1 Hc H1. by apply args_yields.
Qed.

Lemma parsepipe_yields fuel : forall ps, on_line ps -> yields typed_result (parsepipe parseline fuel ps es) st.
Proof.
  induction fuel as [|fuel IH]; intros ps H; [done|]. cbn [parsepipe]. eapply yields_result; [by apply parseexec_yields|].
  intros c ps1 Hc H1. apply yields_peek; [done|]. intros [|] ps2 H2; [|by apply yields_ret].
  apply yields_token; [done|]. intros _ _ _ ps3 H3 _. eapply yields_result; [by apply IH|]. intros c' ps4 Hc' H4. by apply yields_ret.
Qed.

End Open.

Lemma parseline_yields fuel : forall ps, on_line ps -> yields typed_result (parseline fuel ps es) st.
Proof.
  induction fuel as [|fuel IH]; intros ps H; [done|]. cbn [parseline]. eapply yields_result; [by apply parsepipe_yields|].
  intros c ps1 Hc H1. eapply yields_result.
  { apply (yields_while typed_result); [|by split]. intros [c' ps'] [Hc' H']. unfold backs_body. apply yields_peek; [done|].
    intros [|] ps2 H2; cbn [negb]; [|by apply yields_ret]. apply yields_token; [done|]. intros _ _ _ ps3 H3 _. by apply yields_ret. }
  clear c ps1 Hc H1. intros c ps1 Hc H1. apply yields_peek; [done|]. intros [|] ps2 H2; [|by apply yields_ret].
  apply yields_token; [done|]. intros _ _ _ ps3 H3 _. eapply yields_result; [by apply IH|]. intros c' ps4 Hc' H4. by apply yields_ret.
Qed.

End Line.

Lemma parsecmd_returns bound s R st c st' :
  cstr (u_mem st) s R -> (length R < bound)%nat -> parsecmd bound s st = Ok c st' ->
  typed s (s + Z.of_nat (length R)) c /\ st' = set_u_mem (zeroes (ends c) (u_mem st)) st.
Proof.
  intros HR Hb E. unfold parsecmd in E. rewrite (bind_Ok _ _ _ _ _ (strlen_ok bound s R st HR Hb)) in E.
  set (es := s + Z.of_nat (length R)) in *. apply bind_Ok_inv in E as ([c1 s1] & st1 & E1 & E).
  assert (He : ld8 (u_mem st) es = Byte.x00) by (apply cstr_iff in HR; apply HR).
  apply (parseline_yields s es st He) in E1 as [[Hc _] ->]; [|unfold on_line, es; lia].
  apply bind_Ok_inv in E as ([b s2] & st2 & [= _ _ <-] & E). destruct (s2 =? es); cbn [negb] in E.
  - rewrite (bind_Ok _ _ _ _ _ (nulterminate_ok c1 st)) in E. by injection E as <- <-.
  - apply bind_Ok_inv in E as (? & ? & _ & E). apply bind_Ok_inv in E as (? & ? & _ & E). by apply (yields_panic (fun _ => False)) in E as [ [] _].
Qed.

(** C27: Every command that [parsecmd] makes of a line is well formed: an argument
    vector has fewer than [MAXARGS] arguments, so that the null pointer after
    them is in its array; arguments and file names are non-empty pieces of the
    line; a redirection has one of the three modes, on descriptor 0 or 1.  The
    call writes nothing but bytes of the line and its terminator.  When there is
    no command the shell exits with status 1. *)
Theorem parsecmd_typed {W : Type} `{!Unix W} (bound : nat) (s : Z) (R : list byte) (st : uproc)
    (HR : cstr (u_mem st) s R) (Hb : (length R < bound)%nat) :
  let es := s + Z.of_nat (length R) in
  (exists c st', parsecmd bound s st = Ok c st' /\ typed s es c /\
     forall x, ~ (s <= x <= es) -> ld8 (u_mem st') x = ld8 (u_mem st) x) \/
  forall u : W, exists st' u', drive (parsecmd bound s st) u = Exited 1 st' u'.
Proof.
  intros es. destruct (parsecmd_cases (W := W) bound s R st HR Hb) as [(t & c & st' & _ & E & _)|[_ H]]; [left|by right].
  destruct (parsecmd_returns _ _ _ _ _ _ HR Hb E) as [Hc ->]. eexists _, _. split_and!; [exact E|done|].
  intros x Hx. simpl. rewrite ld8_zeroes, decide_False; [done|]. intros He%(typed_ends _ _ _ _ Hc). apply Hx. unfold es. lia.
Qed.

Lemma parsecmd_typed_witness :
  exists c st', parsecmd 100 4096 (Uproc (st_bytes ∅ 4096 demo_line) Getpid (0, [])) = Ok c st' /\
    typed 4096 (4096 + Z.of_nat (length demo_line)) c.
Proof.
  destruct (parsecmd_typed (W := pieces) 100 4096 demo_line (Uproc (st_bytes ∅ 4096 demo_line) Getpid (0, [])))
    as [(c & st' & E & H & _)|H].
  - vm_compute. intuition discriminate.
  - vm_compute. lia.
  - exists c, st'. split; [exact E|exact H].
  - destruct (H (Pieces [] [] 1)) as (st' & u' & E). exfalso.
    assert (F : forall o, o = parsecmd 100 4096 (Uproc (st_bytes ∅ 4096 demo_line) Getpid (0, [])) ->
      match o with Ok _ _ => True | _ => False end) by (intros o ->; vm_compute; exact I).
    specialize (F _ eq_refl). destruct (parsecmd _ _ _); [discriminate E|destruct F..].
Defined.

End ShellType.
