(* ===== verification/ShellRun.v ===== *)
(** * Running commands

    What [runcmd] of the shell executes: the processes it forks, the programs they
    become, and the open files each of them has.  The theorem says that a command
    runs as its tree says: both sides of a pipe have its ends as their output and
    input and no other process keeps an end of it open, a redirection replaces one
    descriptor, and nothing else changes. *)

From S2P Require Import Prelude Riscv Memory CString Block Uart Printf User UserPrintf Shell ShellParse.
Import User.Ulib UserPrintf.UPrintf Shell.Shell ShellParse.ShellParse.

Module ShellRun.

Scheme dline_mut := Minimality for dline Sort Prop
  with dpipe_mut := Minimality for dpipe Sort Prop
  with dexec_mut := Minimality for dexec Sort Prop.

Combined Scheme derives_mut from dline_mut, dpipe_mut, dexec_mut.

(** ** Open files and processes *)

(** A process is named by the forks that led to it; a pipe by the process that
    made it, and how often that had forked before. *)
Definition pname : Type := list nat * nat.

Inductive file :=
  | Given (n : Z)
  | File (path : list byte) (mode : Z)
  | ReadEnd (p : pname)
  | WriteEnd (p : pname).

Abbreviation table := (gmap Z file).

(** [fd] is the lowest descriptor that is not in use. *)
Definition lowest (m : table) (fd : Z) : Prop := 0 <= fd /\ m !! fd = None /\ forall d, 0 <= d < fd -> is_Some (m !! d).

(** What the shell relies on of the kernel: descriptors are the lowest free ones,
    [fork] gives the child the descriptors of the parent, and a pipe, a copy and a
    fork fail for want of descriptors only.  The commands it runs leave its input, which it reads from
    descriptor 0, alone. *)
Class Family (W : Type) `{!Unix W} := {
  fds : W -> table;
  name : W -> pname;
  inp : W -> list byte;
  child : W -> W;
  parent : W -> W;
  pid : W -> Z;
  can_open : list byte -> Z -> bool;
  can_exec : list byte -> bool;
  fa_child : forall w, fds (child w) = fds w /\ name (child w) = ((name w).1 ++ [(name w).2], 0%nat);
  fa_parent : forall w, fds (parent w) = fds w /\ name (parent w) = ((name w).1, S (name w).2) /\ inp (parent w) = inp w /\ 0 < pid w;
  fa_close : forall w fd, is_Some (fds w !! fd) -> let w' := (syscalls w (Close fd)).2 in
    fds w' = delete fd (fds w) /\ name w' = name w /\ inp w' = inp w;
  fa_dup : forall w fd f, fds w !! fd = Some f -> (size (fds w) < NOFILE)%nat -> exists r, let w' := (syscalls w (Dup fd)).2 in
    lowest (fds w) r /\ fds w' = <[r := f]> (fds w) /\ name w' = name w;
  fa_open : forall w path mode, (size (fds w) < NOFILE)%nat -> exists r, let w' := (syscalls w (Open path mode)).2 in
    (syscalls w (Open path mode)).1.1 = r /\ name w' = name w /\ inp w' = inp w /\
    if can_open path mode then lowest (fds w) r /\ fds w' = <[r := File path mode]> (fds w) else r < 0 /\ fds w' = fds w;
  fa_pipe : forall w, (size (fds w) + 2 <= NOFILE)%nat -> exists p0 p1, let w' := (syscalls w Pipe).2 in
    (syscalls w Pipe).1 = (0, le_split 4 p0 ++ le_split 4 p1) /\ p0 < Z.of_nat NOFILE /\ p1 < Z.of_nat NOFILE /\
    lowest (fds w) p0 /\ lowest (<[p0 := ReadEnd (name w)]> (fds w)) p1 /\
    fds w' = <[p1 := WriteEnd (name w)]> (<[p0 := ReadEnd (name w)]> (fds w)) /\ name w' = name w;
  fa_wait : forall w, let w' := (syscalls w Wait).2 in fds w' = fds w /\ name w' = name w /\ inp w' = inp w;
  fa_chdir : forall w path, let w' := (syscalls w (Chdir path)).2 in fds w' = fds w /\ name w' = name w /\ inp w' = inp w;
  fa_write : forall w fd bs, let w' := (syscalls w (Write fd bs)).2 in fds w' = fds w /\ name w' = name w /\ inp w' = inp w;
  fa_read : forall w n, 0 < n -> exists bs w', syscalls w (Read 0 n) = ((Z.of_nat (length bs), bs), w') /\
    inp w = bs ++ inp w' /\ Z.of_nat (length bs) <= n /\ (bs = [] -> inp w = []) /\ fds w' = fds w /\ name w' = name w
}.

(** A program that was started, with its arguments and descriptors. *)
Record event := Event { ev_argv : list (list byte); ev_fds : table }.

Section Run.
Context {W : Type} `{!Unix W} `{!Family W}.
Implicit Types (w : W) (s : uproc) (t : tree).

(** The programs that a process and the processes it forks become. *)
Fixpoint execs {A} (o : outcome uproc A) w : option (list event) :=
  match o with
  | Ok _ _ => Some []
  | Panic _ _ | Spin _ | Fuel => None
  | Switch s k =>
      match u_call s with
      | Exit _ => Some []
      | Fork =>
          match execs (k (set_u_answer (0, []) s)) (child w), execs (k (set_u_answer (pid w, []) s)) (parent w) with
          | Some l, Some l' => Some (l ++ l')
          | _, _ => None
          end
      | Exec path argv => if can_exec path then Some [Event argv (fds w)] else execs (k (set_u_answer (-1, []) s)) w
      | c => let '(r, w') := syscalls w c in execs (k (set_u_answer r s)) w'
      end
  end.

(** ** The reference *)

(** What process [p] runs for the tree, with the descriptors [m]. *)
Fixpoint wired (p : pname) (m : table) t : list event :=
  match t with
  | TExec [] => []
  | TExec (a :: ws) => if can_exec a then [Event (a :: ws) m] else []
  | TRedir t path mode fd => if can_open path mode then wired p (<[fd := File path mode]> m) t else []
  | TPipe l r =>
      wired (p.1 ++ [p.2], 0%nat) (<[1 := WriteEnd p]> m) l ++ wired (p.1 ++ [S p.2], 0%nat) (<[0 := ReadEnd p]> m) r
  | TList l r => wired (p.1 ++ [p.2], 0%nat) m l ++ wired (p.1, S p.2) m r
  | TBack t => wired (p.1 ++ [p.2], 0%nat) m t
  end.

(** ** Steps *)

(** What most calls leave as it was. *)
Definition same w w' : Prop := fds w' = fds w /\ name w' = name w /\ inp w' = inp w.

#[local] Instance same_preorder : PreOrder same.
Proof. split; [done|]. intros w1 w2 w3 (? & ? & ?) (? & ? & ?). split_and!; congruence. Qed.

(** [at_head tac] gives [tac] the continuation, state and world of the next step. *)
Ltac at_head tac := match goal with |- context [execs (bind _ ?g ?s) ?w] => tac g s w end.

Lemma execs_assoc {A B C} (o : outcome uproc A) (f : A -> U B) (g : B -> U C) w :
  execs (obind (obind o f) g) w = execs (obind o (fun a => bind (f a) g)) w.
Proof.
  revert w. induction o as [a s|msg s|s|s k IH|]; intros w; try done. cbn [obind execs]. destruct (u_call s); try done;
    try (destruct (syscalls w _); apply IH).
  - by rewrite !IH.
  - destruct (can_exec path); [done|apply IH].
Qed.

Lemma execs_bind {A B C} (c : U A) (f : A -> U B) (g : B -> U C) s w :
  execs (bind (bind c f) g s) w = execs (bind c (fun a => bind (f a) g) s) w.
Proof. apply execs_assoc. Qed.

Lemma execs_exit {A B} n (f : A -> U B) s w : execs (bind (exit n) f s) w = Some [].
Proof. done. Qed.

(** A call that is not [fork], [exec] or [exit]. *)
Definition plain_call (c : syscall) : bool := match c with Fork | Exit _ | Exec _ _ => false | _ => true end.

Lemma execs_ecall {B} c (f : answer -> U B) s w : plain_call c = true ->
  exists s', execs (bind (ecall c) f s) w = execs (f (syscalls w c).1 s') (syscalls w c).2 /\ u_mem s' = u_mem s.
Proof.
  intros Hc. exists (set_u_answer (syscalls w c).1 (set_u_call c s)). split; [|done]. unfold bind, ecall. simpl.
  destruct c; try done; by destruct (syscalls w _).
Qed.

Lemma execs_call {B} c (f : Z -> U B) s w : plain_call c = true ->
  exists s', execs (bind (call c) f s) w = execs (f (syscalls w c).1.1 s') (syscalls w c).2 /\ u_mem s' = u_mem s.
Proof.
  intros Hc. unfold call. rewrite execs_bind. destruct (execs_ecall c (fun r => bind (ret r.1) f) s w Hc) as (s' & E & M).
  exists s'. by rewrite E, bind_ret.
Qed.

(** Messages start nothing. *)
Lemma execs_emits {A B} fd (c : U A) a o (f : A -> U B) s w : uemits fd c a o ->
  exists s' w', execs (bind c f s) w = execs (f a s') w' /\ u_mem s' = u_mem s /\ same w w'.
Proof.
  intros H. specialize (H s). unfold bind. remember (u_mem s) as m eqn:Hm. clear Hm. revert w.
  induction H as [a t|t k bs a m o Hc H IH]; intros w; cbn [obind execs]; [by exists t, w|]. rewrite Hc.
  pose proof (fa_write w fd bs : same w (syscalls w (Write fd bs)).2) as F. destruct (syscalls w (Write fd bs)) as [r w'].
  destruct (IH r w') as (s' & w2 & E & M & F'). exists s', w2. split_and!; [done|done|by etrans].
Qed.

Lemma execs_fork1 {B} (f : Z -> U B) s w :
  exists s1 s2, u_mem s1 = u_mem s /\ u_mem s2 = u_mem s /\
    execs (bind fork1 f s) w =
    match execs (f 0 s1) (child w), execs (f (pid w) s2) (parent w) with Some l, Some l' => Some (l ++ l') | _, _ => None end.
Proof.
  destruct (fa_parent w) as (_ & _ & _ & Hp). eexists (set_u_answer (0, []) (set_u_call Fork s)), (set_u_answer (pid w, []) (set_u_call Fork s)).
  split; [done|]. split; [done|]. unfold fork1, call, bind, ecall. cbn [obind execs u_call set_u_call].
  cbn [u_answer set_u_answer fst obind ret]. rewrite (proj2 (Z.eqb_neq (pid w) (-1))) by lia. done.
Qed.

(** ** Descriptors *)

Definition std (m : table) : Prop := forall d, 0 <= d <= 2 -> is_Some (m !! d).

Lemma std_insert m fd f : std m -> std (<[fd := f]> m).
Proof. intros H d Hd. rewrite lookup_insert_is_Some. destruct (decide (fd = d)); [by left|right; split; [done|by apply H]]. Qed.

Lemma lowest_unique m a b : lowest m a -> lowest m b -> a = b.
Proof.
  intros (A1 & A2 & A3) (B1 & B2 & B3). destruct (Z.lt_trichotomy a b) as [H|[H|H]]; [|done|].
  - destruct (B3 a ltac:(lia)) as [x E]. congruence.
  - destruct (A3 b ltac:(lia)) as [x E]. congruence.
Qed.

Lemma lowest_std m a : std m -> lowest m a -> 3 <= a.
Proof. intros H (A1 & A2 & _). destruct (Z.le_gt_cases 3 a); [done|]. destruct (H a ltac:(lia)) as [x E]. congruence. Qed.

(** There are two more descriptors than those in use. *)
Definition ready (m : table) : Prop := std m /\ (size m + 2 <= NOFILE)%nat.

Lemma ready_insert m fd f : 0 <= fd <= 2 -> ready m -> ready (<[fd := f]> m).
Proof. intros Hfd [Hm Hr]. split; [by apply std_insert|]. rewrite map_size_insert_Some; [done|by apply Hm]. Qed.

Lemma size_closed (m : table) fd : is_Some (m !! fd) -> (size m < NOFILE + 1)%nat -> (size (delete fd m) < NOFILE)%nat.
Proof. intros Hf Hr. rewrite map_size_delete_Some by done. unfold NOFILE in *. lia. Qed.

(** A standard descriptor that was closed is the next one. *)
Lemma lowest_closed m fd r : std m -> 0 <= fd <= 2 -> lowest (delete fd m) r -> r = fd.
Proof.
  intros H Hfd Hr. apply (lowest_unique (delete fd m)); [done|]. split; [lia|]. split; [apply lookup_delete_eq|].
  intros d Hd. rewrite lookup_delete_ne by lia. apply H. lia.
Qed.

(** ** Commands *)

Variable bound : nat.

(** The words fit, and redirections are of standard input or output. *)
Fixpoint tree_fits t : Prop :=
  match t with
  | TExec ws => Forall (fun x => (length x < bound)%nat) ws
  | TRedir t x _ fd => tree_fits t /\ (length x < bound)%nat /\ 0 <= fd <= 1
  | TPipe l r | TList l r => tree_fits l /\ tree_fits r
  | TBack t => tree_fits t
  end.

Lemma arg_strings_ok s (argv : list span) ws :
  Forall2 (fun a x => cstr (u_mem s) a.1 x) argv ws -> Forall (fun x => (length x < bound)%nat) ws -> arg_strings bound argv s = Ok ws s.
Proof.
  induction 1 as [|a x argv ws Ha H IH]; intros Hl; [done|]. apply Forall_cons in Hl as [Hx Hl]. cbn [arg_strings].
  krun (cstring_ok bound a.1 x s Ha Hx). by krun (IH Hl).
Qed.

Lemma run_exec {B} argv ws (f : unit -> U B) s w :
  Forall2 (fun (a : span) x => cstr (u_mem s) a.1 x) argv ws -> Forall (fun x => (length x < bound)%nat) ws ->
  execs (bind (runcmd bound (EXEC argv)) f s) w = Some (wired (name w) (fds w) (TExec ws)).
Proof.
  intros H Hl. destruct H as [|a x argv ws Ha H]; [done|]. cbn [runcmd wired]. rewrite execs_bind. unfold exec. rewrite execs_bind.
  rewrite (bind_Ok _ _ _ _ _ (arg_strings_ok s (a :: argv) (x :: ws) ltac:(by constructor) Hl)). cbn [nth].
  unfold call. rewrite execs_bind. unfold bind at 1, ecall. cbn [obind execs u_call set_u_call].
  destruct (can_exec x); [done|]. rewrite bind_ret, execs_bind. set (s1 := set_u_answer _ _). apply Forall_cons in Hl as [Hx _].
  rewrite (bind_Ok _ _ _ _ _ (cstring_ok bound a.1 x s1 Ha Hx)), execs_bind.
  destruct (execs_emits 2 _ tt _ (fun _ => bind (exit 0) f) s1 w (fprintf_emits 2 (line "exec %s failed") [Str (Some x)] _ eq_refl eq_refl)) as (s2 & w2 & -> & _).
  apply execs_exit.
Qed.

(** The command runs as the tree says; it does not return. *)
Definition runs (c : cmd) t : Prop := forall B (f : unit -> U B) s w,
  runnable (u_mem s) c t -> ready (fds w) -> execs (bind (runcmd bound c) f s) w = Some (wired (name w) (fds w) t).

Lemma run_redir {B} c t (a : span) x mode fd (f : unit -> U B) s w : runs c t ->
  runnable (u_mem s) c t -> cstr (u_mem s) a.1 x -> (length x < bound)%nat -> 0 <= fd <= 1 -> ready (fds w) ->
  execs (bind (runcmd bound (REDIR c a mode fd)) f s) w = Some (wired (name w) (fds w) (TRedir t x mode fd)).
Proof.
  intros IH Hc Ha Hx Hfd Hready. pose proof Hready as [Hstd Hroom]. cbn [runcmd wired]. rewrite execs_bind.
  at_head ltac:(fun g s w => destruct (execs_call (Close fd) g s w eq_refl) as (s1 & -> & M1)).
  destruct (fa_close w fd (Hstd fd ltac:(lia))) as (F1 & N1 & _). set (w1 := (syscalls w (Close fd)).2) in *. rewrite execs_bind.
  unfold open. rewrite execs_bind. rewrite (bind_Ok _ _ _ _ _ (cstring_ok bound a.1 x s1 ltac:(by rewrite M1) Hx)).
  at_head ltac:(fun g s w => destruct (execs_call (Open x mode) g s w eq_refl) as (s2 & -> & M2)).
  destruct (fa_open w1 x mode ltac:(rewrite F1; apply size_closed; [by apply Hstd; lia|lia])) as (r & Er & N2 & _ & Ho). rewrite Er. destruct (can_open x mode).
  - destruct Ho as [Hr F2]. set (w2 := (syscalls w1 (Open x mode)).2) in *. rewrite F1 in Hr. apply (lowest_closed _ _ _ Hstd) in Hr as ->; [|lia].
    rewrite (proj2 (Z.ltb_ge fd 0)) by lia. rewrite execs_bind, IH.
    + rewrite N2, N1, F2, F1. by rewrite insert_delete_eq.
    + by rewrite M2, M1.
    + rewrite F2, F1, insert_delete_eq. apply ready_insert; [lia|done].
  - destruct Ho as [Hr _]. rewrite (proj2 (Z.ltb_lt r 0)) by done. rewrite execs_bind.
    rewrite (bind_Ok _ _ _ _ _ (cstring_ok bound a.1 x s2 ltac:(by rewrite M2, M1) Hx)), execs_bind.
    destruct (execs_emits 2 _ tt _ (fun _ => bind (exit 1) f) s2 (syscalls w1 (Open x mode)).2
      (fprintf_emits 2 (line "open %s failed") [Str (Some x)] _ eq_refl eq_refl)) as (s3 & w3 & -> & _). apply execs_exit.
Qed.

Lemma execs_close {B} fd (f : Z -> U B) s w : is_Some (fds w !! fd) ->
  exists r s' w', execs (bind (call (Close fd)) f s) w = execs (f r s') w' /\ u_mem s' = u_mem s /\
    fds w' = delete fd (fds w) /\ name w' = name w /\ inp w' = inp w.
Proof.
  intros Hfd. destruct (execs_call (Close fd) f s w eq_refl) as (s' & E & M). pose proof (fa_close w fd Hfd).
  by exists (syscalls w (Close fd)).1.1, s', (syscalls w (Close fd)).2.
Qed.

Lemma execs_dup {B} fd e (f : Z -> U B) s w : fds w !! fd = Some e -> (size (fds w) < NOFILE)%nat ->
  exists r s' w' d, execs (bind (call (Dup fd)) f s) w = execs (f r s') w' /\ u_mem s' = u_mem s /\
    lowest (fds w) d /\ fds w' = <[d := e]> (fds w) /\ name w' = name w.
Proof.
  intros Hfd Hroom. destruct (execs_call (Dup fd) f s w eq_refl) as (s' & E & M). destruct (fa_dup w fd e Hfd Hroom) as (d & Hd & F & N).
  by exists (syscalls w (Dup fd)).1.1, s', (syscalls w (Dup fd)).2, d.
Qed.

Lemma execs_wait {B} (f : Z -> U B) s w :
  exists r s' w', execs (bind (call Wait) f s) w = execs (f r s') w' /\ u_mem s' = u_mem s /\ same w w'.
Proof.
  destruct (execs_call Wait f s w eq_refl) as (s' & E & M). pose proof (fa_wait w).
  by exists (syscalls w Wait).1.1, s', (syscalls w Wait).2.
Qed.

Lemma pipe_answer p0 p1 : 0 <= p0 < 2 ^ 31 -> 0 <= p1 < 2 ^ 31 ->
  s32 (get32 (le_split 4 p0 ++ le_split 4 p1) 0) = p0 /\ s32 (get32 (le_split 4 p0 ++ le_split 4 p1) 4) = p1.
Proof.
  intros H0 H1. unfold get32, bytes_at. rewrite drop_0, take_app_length' by (by rewrite length_le_split).
  rewrite drop_app_length' by (by rewrite length_le_split). rewrite take_ge by (by rewrite length_le_split).
  rewrite !le_combine_split. change (8 * Z.of_nat 4) with 32. rewrite !Z.mod_small, !s32_small by lia. done.
Qed.

(** The descriptors of a process that has just made the pipe [q]. *)
Definition piped m p0 p1 q (m' : table) : Prop :=
  m' = <[p1 := WriteEnd q]> (<[p0 := ReadEnd q]> m) /\ 3 <= p0 /\ 3 <= p1 /\ p0 <> p1 /\ m !! p0 = None /\ m !! p1 = None.

Lemma execs_pipe {B} (f : Z * Z * Z -> U B) s w : ready (fds w) ->
  exists p0 p1 s' w', execs (bind pipe f s) w = execs (f (0, p0, p1) s') w' /\ u_mem s' = u_mem s /\
    piped (fds w) p0 p1 (name w) (fds w') /\ name w' = name w.
Proof.
  intros [Hstd Hroom]. unfold pipe. rewrite execs_bind. destruct (fa_pipe w Hroom) as (p0 & p1 & Ea & B0 & B1 & L0 & L1 & F & N).
  at_head ltac:(fun g s w => destruct (execs_ecall Pipe g s w eq_refl) as (s' & E & M)).
  exists p0, p1, s', (syscalls w Pipe).2. rewrite E, Ea. pose proof (lowest_std _ _ Hstd L0).
  pose proof (lowest_std _ _ (std_insert _ p0 _ Hstd) L1). destruct L0 as (_ & L0 & _), L1 as (_ & L1 & _).
  rewrite lookup_insert_None in L1. destruct L1 as [L1 Hne].
  split; [|by repeat split]. cbn [fst snd]. rewrite bind_ret. destruct (pipe_answer p0 p1) as [-> ->]; [unfold NOFILE in *; lia..|done].
Qed.

(** One side of a pipe: descriptor [a] becomes the end [b], and both ends are closed. *)
Lemma execs_side {B C} a b e (c : U B) (f : B -> U C) m p0 p1 q s w :
  0 <= a <= 1 -> ready m -> piped m p0 p1 q (fds w) -> fds w !! b = Some e -> 3 <= b ->
  exists s' w', execs (bind (call (Close a) ;; call (Dup b) ;; call (Close p0) ;; call (Close p1) ;; c) f s) w = execs (bind c f s') w' /\
    u_mem s' = u_mem s /\ fds w' = <[a := e]> m /\ name w' = name w.
Proof.
  intros Ha [Hm Hroom] (F & B0 & B1 & Hne & N0 & N1) Hb Hb3. assert (Hs : std (fds w)) by (rewrite F; by do 2 apply std_insert).
  rewrite execs_bind. at_head ltac:(fun g s w => destruct (execs_close a g s w (Hs a ltac:(lia))) as (r1 & s1 & w1 & -> & M1 & F1 & E1 & _)).
  rewrite execs_bind. at_head ltac:(fun g s w => destruct (execs_dup b e g s w) as (r2 & s2 & w2 & d & -> & M2 & L2 & F2 & E2)).
  { rewrite F1, lookup_delete_ne by lia. exact Hb. }
  { rewrite F1. apply size_closed; [apply Hs; lia|]. rewrite F, map_size_insert_None, map_size_insert_None; [lia|done|]. by rewrite lookup_insert_ne. }
  rewrite F1 in L2. apply (lowest_closed _ _ _ Hs) in L2 as ->; [|lia]. rewrite F1, insert_delete_eq, F in F2.
  rewrite execs_bind. at_head ltac:(fun g s w => destruct (execs_close p0 g s w) as (r3 & s3 & w3 & -> & M3 & F3 & E3 & _)).
  { rewrite F2, lookup_insert_ne, lookup_insert_ne, lookup_insert_eq by lia. done. }
  rewrite execs_bind. at_head ltac:(fun g s w => destruct (execs_close p1 g s w) as (r4 & s4 & w4 & -> & M4 & F4 & E4 & _)).
  { rewrite F3, F2, lookup_delete_ne, lookup_insert_ne, lookup_insert_eq by lia. done. }
  exists s4, w4. split; [done|]. split; [congruence|]. split; [|congruence]. rewrite F4, F3, F2. apply map_eq. intros i.
  rewrite !lookup_delete, !lookup_insert. repeat case_decide; subst; try lia; congruence.
Qed.

(** A forked child does its part, and the parent goes on. *)
Lemma execs_child {B} (g : Z -> U B) s w l : (forall s1, u_mem s1 = u_mem s -> execs (g 0 s1) (child w) = Some l) ->
  exists s2, u_mem s2 = u_mem s /\
    execs (bind fork1 g s) w = match execs (g (pid w) s2) (parent w) with Some l' => Some (l ++ l') | None => None end.
Proof. intros H. destruct (execs_fork1 g s w) as (s1 & s2 & M1 & M2 & ->). exists s2. split; [done|]. by rewrite (H s1 M1). Qed.

Lemma not_child w : (pid w =? 0) = false.
Proof. destruct (fa_parent w) as (_ & _ & _ & Hp). lia. Qed.

Lemma run_list {B} l r t u (f : unit -> U B) s w : runs l t -> runs r u ->
  runnable (u_mem s) l t -> runnable (u_mem s) r u -> ready (fds w) ->
  execs (bind (runcmd bound (LIST l r)) f s) w = Some (wired (name w) (fds w) (TList t u)).
Proof.
  intros Hl Hr Rl Rr Hs. cbn [runcmd wired]. rewrite execs_bind. destruct (fa_parent w) as (Fp & Np & _), (fa_child w) as [Fc Nc].
  at_head ltac:(fun g s w => destruct (execs_child g s w (wired ((name w).1 ++ [(name w).2], 0%nat) (fds w) t)) as (s2 & M2 & ->)).
  { intros s1 M1. change (0 =? 0) with true. cbn match. rewrite execs_bind, Hl; rewrite ?Fc, ?Nc, ?M1; done. }
  rewrite not_child, execs_bind, bind_ret, execs_bind.
  at_head ltac:(fun g s w => destruct (execs_wait g s w) as (z & s3 & w3 & -> & M3 & F3 & N3 & _)).
  rewrite execs_bind, Hr; rewrite ?F3, ?N3, ?Fp, ?Np, ?M3, ?M2; done.
Qed.

Lemma run_back {B} c t (f : unit -> U B) s w : runs c t -> runnable (u_mem s) c t -> ready (fds w) ->
  execs (bind (runcmd bound (BACK c)) f s) w = Some (wired (name w) (fds w) (TBack t)).
Proof.
  intros Hl Rl Hs. cbn [runcmd wired]. rewrite execs_bind. destruct (fa_child w) as [Fc Nc].
  at_head ltac:(fun g s w => destruct (execs_child g s w (wired ((name w).1 ++ [(name w).2], 0%nat) (fds w) t)) as (s2 & M2 & ->)).
  { intros s1 M1. change (0 =? 0) with true. cbn match. rewrite execs_bind, Hl; rewrite ?Fc, ?Nc, ?M1; done. }
  rewrite not_child, execs_bind, bind_ret, execs_exit. by rewrite app_nil_r.
Qed.

Lemma piped_ends m p0 p1 q m' : piped m p0 p1 q m' -> m' !! p0 = Some (ReadEnd q) /\ m' !! p1 = Some (WriteEnd q).
Proof. intros (-> & _ & _ & Hne & _). by rewrite lookup_insert_ne, !lookup_insert_eq by done. Qed.

Lemma execs_leave {B} p0 p1 (f : unit -> U B) s w : is_Some (fds w !! p0) -> is_Some (fds w !! p1) -> p0 <> p1 ->
  execs (bind (call (Close p0) ;; call (Close p1) ;; call Wait ;; call Wait ;; exit 0) f s) w = Some [].
Proof.
  intros H0 H1 Hne. rewrite execs_bind. at_head ltac:(fun g s w => destruct (execs_close p0 g s w H0) as (r1 & s1 & w1 & -> & _ & F1 & _)).
  rewrite execs_bind. at_head ltac:(fun g s w => destruct (execs_close p1 g s w) as (r2 & s2 & w2 & -> & _ & _)).
  { rewrite F1, lookup_delete_ne by done. exact H1. }
  do 2 (rewrite execs_bind; at_head ltac:(fun g s w => destruct (execs_wait g s w) as (? & ? & ? & -> & _))). apply execs_exit.
Qed.

Lemma run_pipe {B} l r t u (f : unit -> U B) s w : runs l t -> runs r u ->
  runnable (u_mem s) l t -> runnable (u_mem s) r u -> ready (fds w) ->
  execs (bind (runcmd bound (PIPE l r)) f s) w = Some (wired (name w) (fds w) (TPipe t u)).
Proof.
  intros Hl Hr Rl Rr Hs. cbn [runcmd wired]. rewrite execs_bind.
  at_head ltac:(fun g s w => destruct (execs_pipe g s w Hs) as (p0 & p1 & s1 & w1 & -> & M1 & P1 & N1)).
  change (0 <? 0) with false. cbn match. rewrite execs_bind. destruct (fa_parent w1) as (Fp & Np & _), (fa_child w1) as [Fc Nc].
  destruct (piped_ends _ _ _ _ _ P1) as [R1 W1]. pose proof P1 as (_ & B0 & B1 & Hne & _).
  at_head ltac:(fun g s w' => destruct (execs_child g s w' (wired ((name w).1 ++ [(name w).2], 0%nat) (<[1 := WriteEnd (name w)]> (fds w)) t)) as (s2 & M2 & ->)).
  { intros s3 M3. change (0 =? 0) with true. cbn match. rewrite execs_bind.
    at_head ltac:(fun g s w' => destruct (execs_side 1 p1 (WriteEnd (name w)) (runcmd bound l) g (fds w) p0 p1 (name w) s w')
      as (s4 & w4 & -> & M4 & F4 & N4); [lia|done|by rewrite Fc|by rewrite Fc|done|]).
    rewrite Hl; rewrite ?F4, ?N4, ?Nc, ?N1, ?M4, ?M3, ?M1; try done. apply ready_insert; [lia|done]. }
  rewrite not_child, execs_bind, bind_ret, execs_bind. destruct (fa_parent (parent w1)) as (Fq & Nq & _), (fa_child (parent w1)) as [Fd Nd].
  at_head ltac:(fun g s w' => destruct (execs_child g s w' (wired ((name w).1 ++ [S (name w).2], 0%nat) (<[0 := ReadEnd (name w)]> (fds w)) u)) as (s5 & M5 & ->)).
  { intros s3 M3. change (0 =? 0) with true. cbn match. rewrite execs_bind.
    at_head ltac:(fun g s w' => destruct (execs_side 0 p0 (ReadEnd (name w)) (runcmd bound r) g (fds w) p0 p1 (name w) s w')
      as (s4 & w4 & -> & M4 & F4 & N4); [lia|done|by rewrite Fd, Fp|by rewrite Fd, Fp|done|]).
    rewrite Hr; rewrite ?F4, ?N4, ?Nd, ?Np, ?N1, ?M4, ?M3, ?M2, ?M1; try done. apply ready_insert; [lia|done]. }
  rewrite not_child, execs_bind, bind_ret, (execs_leave p0 p1 f _ _); [by rewrite app_nil_r|by rewrite Fq, Fp, R1|by rewrite Fq, Fp, W1|done].
Qed.

Lemma runcmd_runs c : forall t, tree_fits t -> runs c t.
Proof.
  induction c as [argv|c IH a mode fd|l IHl r IHr|l IHl r IHr|c IH]; intros [ws|t x mode' fd'|tl tr|tl tr|t] Ht B f s w Hr Hs; try done.
  - by apply run_exec.
  - destruct Ht as (Ht & Hx & Hfd), Hr as (Hr & Ha & -> & ->). apply run_redir; try done. by apply IH.
  - destruct Ht, Hr. by apply run_pipe; [apply IHl|apply IHr|..].
  - destruct Ht, Hr. by apply run_list; [apply IHl|apply IHr|..].
  - by apply run_back; [apply IH|..].
Qed.

(** ** Programs that start nothing *)

Definition quiet_call (c : syscall) : bool := match c with Fork | Exec _ _ => false | _ => true end.

Fixpoint quiet {A} (o : outcome uproc A) : Prop :=
  match o with
  | Switch s k => quiet_call (u_call s) = true /\ forall r, quiet (k (set_u_answer r s))
  | _ => True
  end.

Lemma quiet_obind {A B} (o : outcome uproc A) (f : A -> U B) : quiet o -> (forall a s, quiet (f a s)) -> quiet (obind o f).
Proof. intros Ho Hf. induction o as [a s|msg s|s|s k IH|]; simpl in *; try done. destruct Ho as [H1 H2]. split; [done|]. intros r. by apply IH. Qed.

Lemma quiet_bind {A B} (c : U A) (f : A -> U B) s : quiet (c s) -> (forall a s, quiet (f a s)) -> quiet (bind c f s).
Proof. apply quiet_obind. Qed.

Lemma quiet_while {A B} (body : A -> U (A + B)) : (forall a s, quiet (body a s)) -> forall fuel a s, quiet (while fuel body a s).
Proof. intros H fuel. induction fuel as [|fuel IH]; intros a s; [done|]. cbn [while]. apply quiet_bind; [done|]. intros [a'|b] s'; [apply IH|done]. Qed.

Lemma quiet_emits {A} fd (c : U A) a o s : uemits fd c a o -> quiet (c s).
Proof. intros H. specialize (H s). induction H as [|s' k bs a m o Hc H IH]; simpl; [done|]. by rewrite Hc. Qed.

Lemma execs_drive {A B} (o : outcome uproc A) (f : A -> U B) w : quiet o ->
  match drive o w with
  | Returned a s' w' => execs (obind o f) w = execs (f a s') w'
  | Exited _ _ _ => execs (obind o f) w = Some []
  | _ => True
  end.
Proof.
  revert w. induction o as [a s|msg s|s|s k IH|]; intros w Hq; try done. cbn [quiet] in Hq. destruct Hq as [Hc Hk]. cbn [drive obind execs].
  destruct (u_call s); try done; destruct (syscalls w _) as [r w']; exact (IH _ _ (Hk r)).
Qed.

Lemma message_quiet (fmt : string) x s : forallb (fun b => negb (Byte.eqb b Byte.x00)) (bytes_of fmt) = true ->
  is_Some (text (length (bytes_of fmt)) (bytes_of fmt) [Str (Some x)]) -> quiet (fprintf 2 fmt [Str (Some x)] s).
Proof. intros Hn [o Ho]. eapply quiet_emits. by apply fprintf_emits. Qed.

Lemma sh_panic_quiet {A} msg s : quiet (sh_panic (A := A) msg s).
Proof. unfold sh_panic. apply quiet_bind; [|done]. by apply message_quiet. Qed.

(** Goes through a command that starts nothing. *)
Ltac hush :=
  repeat match goal with
  | |- forall _, _ => intro
  | |- quiet (bind _ _ _) => apply quiet_bind
  | |- quiet (while _ _ _ _) => apply quiet_while
  | |- quiet (sh_panic _ _) => apply sh_panic_quiet
  | |- quiet ((match ?x with _ => _ end) _) => destruct x
  | |- quiet _ => done
  end.

Lemma parseredirs_quiet c ps es s : quiet (parseredirs c ps es s).
Proof. unfold parseredirs, redirs_body. hush. Qed.

Lemma parseline_quiet fuel : forall ps es s, quiet (parseline fuel ps es s).
Proof.
  induction fuel as [|fuel IH]; intros ps es s; [done|]. cbn [parseline].
  assert (Hexec : forall ps es s, quiet (parseexec (parseline fuel) ps es s)).
  { intros. unfold parseexec, parseblock, args_body. hush; apply parseredirs_quiet. }
  assert (Hpipe : forall n ps es s, quiet (parsepipe (parseline fuel) n ps es s)).
  { intros n. induction n as [|n IHn]; intros; [done|]. cbn [parsepipe]. hush. }
  unfold backs_body. hush.
Qed.

Lemma nulterminate_quiet c : forall s, quiet (nulterminate c s).
Proof.
  induction c as [argv|c IH f mode fd|l IHl r IHr|l IHl r IHr|c IH]; intros s; cbn [nulterminate]; hush; try done.
  revert s. induction argv as [|a argv IH]; intros s; [done|]. cbn [forM]. hush.
Qed.

Lemma parsecmd_quiet p s : quiet (parsecmd bound p s).
Proof.
  unfold parsecmd. hush; try apply parseline_quiet; try apply nulterminate_quiet.
  - unfold strlen. hush.
  - unfold cstring. destruct (string_at _ _ _); done.
  - by apply message_quiet.
Qed.

(** ** The words of a line *)

Definition tokens_fit (ts : list token) : Prop := forall x, Word x ∈ ts -> (length x < bound)%nat.

Lemma lex_word_length R : forall (w x : list byte), Word x ∈ lex w R -> (length x <= length w + length R)%nat.
Proof.
  assert (Hflush : forall (w : list byte) ts (x : list byte) n, Word x ∈ flush w ts -> (Word x ∈ ts -> (length x <= n)%nat) -> (length x <= length w + n)%nat).
  { intros [|c w] ts x n H Hts; [by apply Hts|]. apply elem_of_cons in H as [[= ->]|H]; [lia|]. specialize (Hts H). lia. }
  induction R as [R IH] using (induction_ltof1 _ length). unfold ltof in IH. intros w x H. destruct R as [|c R]; cbn [lex] in H.
  { eapply Hflush; [exact H|]. by intros ?%elem_of_nil. }
  destruct (in_string whitespace c).
  { eapply Hflush; [exact H|]. intros H1. apply IH in H1; simpl in *; lia. }
  destruct (in_string symbols c).
  - eapply Hflush; [exact H|]. intros H1. destruct R as [|c' R].
    { apply list_elem_of_singleton in H1. done. }
    destruct (_ && _); apply elem_of_cons in H1 as [?|H1]; try done; apply IH in H1; simpl in *; lia.
  - apply IH in H; [|simpl; lia]. rewrite length_app in H. simpl in *. lia.
Qed.

Lemma args_words its x : x ∈ args its -> Word x ∈ tokens_of its.
Proof.
  unfold args, tokens_of. induction its as [|[y|r y] its IH]; simpl; [by intros ?%elem_of_nil| |].
  - intros [->|H]%elem_of_cons; [by left|right; by apply IH].
  - intros H. do 2 right. by apply IH.
Qed.

Lemma redirs_words its r x : (r, x) ∈ redirs its -> Word x ∈ tokens_of its.
Proof.
  unfold redirs, tokens_of. induction its as [|[y|r' y] its IH]; simpl; [by intros ?%elem_of_nil| |].
  - intros H. right. by apply IH.
  - intros [[= -> ->]|H]%elem_of_cons; [right; by left|do 2 right; by apply IH].
Qed.

Lemma wrap_fits t rs : tree_fits t -> (forall r x, (r, x) ∈ rs -> (length x < bound)%nat) -> tree_fits (wrap t rs).
Proof.
  revert t. induction rs as [|[r x] rs IH]; intros t Ht Hrs; [done|]. apply IH.
  - split; [done|]. split; [apply (Hrs r); by left|by destruct r].
  - intros r' x' H. apply (Hrs r'). by right.
Qed.

Lemma backs_fit n t : tree_fits t -> tree_fits (Nat.iter n TBack t).
Proof. by induction n. Qed.

Lemma derived_fits :
  (forall ts t, dline ts t -> tokens_fit ts -> tree_fits t) /\ (forall ts t, dpipe ts t -> tokens_fit ts -> tree_fits t) /\
  (forall ts t, dexec ts t -> tokens_fit ts -> tree_fits t).
Proof.
  apply derives_mut; unfold tokens_fit; intros; simpl.
  - apply backs_fit. set_solver.
  - split; [apply backs_fit|]; set_solver.
  - auto.
  - set_solver.
  - apply wrap_fits; [set_solver|]. intros r x Hr%redirs_words. set_solver.
  - apply wrap_fits; [|intros r x Hr%redirs_words; set_solver]. apply Forall_forall. intros x Hx%args_words. auto.
Qed.

(** What the child that the shell forks for a line starts. *)
Definition line_starts (R : list byte) p m (evs : list event) : Prop :=
  (exists t, dline (lex [] R) t /\ evs = wired p m t) \/ (forall t, ~ dline (lex [] R) t) /\ evs = [].

Lemma line_starts_some buf R p m s : cstr (u_mem s) buf R -> (length R < bound)%nat -> exists evs, line_starts R p m evs.
Proof.
  intros HR Hb. destruct (parsecmd_cases (W := W) bound buf R s HR Hb) as [(t & _ & _ & Ht & _)|[Hn _]].
  - exists (wired p m t). left. by exists t.
  - exists []. by right.
Qed.

Lemma line_runs {B} (f : unit -> U B) buf R s w evs :
  cstr (u_mem s) buf R -> (length R < bound)%nat -> ready (fds w) -> line_starts R (name w) (fds w) evs ->
  execs (bind (let! c := parsecmd bound buf in runcmd bound c) f s) w = Some evs.
Proof.
  intros HR Hb Hs He. rewrite execs_bind. destruct (parsecmd_cases (W := W) bound buf R s HR Hb) as [(t & c & s' & Ht & E & Hr & Hu)|[Hn E]].
  - destruct He as [(t' & Ht' & ->)|[He _]]; [|by destruct (He t)]. rewrite (Hu _ Ht'), (bind_Ok _ _ _ _ _ E). apply runcmd_runs; [|done|done].
    eapply (proj1 derived_fits); [exact Ht|]. intros x Hx%lex_word_length. simpl in Hx. lia.
  - destruct He as [(t' & Ht' & _)|[_ ->]]; [by destruct (Hn t')|]. destruct (E w) as (s' & w' & E').
    pose proof (execs_drive (parsecmd bound buf s) (fun a => bind (runcmd bound a) f) w (parsecmd_quiet buf s)) as H. by rewrite E' in H.
Qed.

(** ** A session *)

(** The line [cd dir], which the shell itself does. *)
Definition cd (l : list byte) : bool :=
  match l with b0 :: b1 :: b2 :: _ => Byte.eqb b0 Byte.x63 && Byte.eqb b1 Byte.x64 && Byte.eqb b2 Byte.x20 | _ => false end.

(** The programs started for an input, by process [p] with the descriptors [m]. *)
Inductive session (m : table) : pname -> list byte -> list event -> Prop :=
  | Session_end p : session m p [] []
  | Session_cd p l rest evs :
      l <> [] -> first_line 99 (l ++ rest) = l -> cd l = true -> session m p rest evs -> session m p (l ++ rest) evs
  | Session_line p l rest evs evs' :
      l <> [] -> first_line 99 (l ++ rest) = l -> cd l = false -> line_starts l (p.1 ++ [p.2], 0%nat) m evs -> session m (p.1, S p.2) rest evs' ->
      session m p (l ++ rest) (evs ++ evs').

Lemma first_line_length n bs : (length (first_line n bs) <= n)%nat.
Proof. revert bs. induction n as [|n IH]; intros [|b bs]; simpl; try lia. specialize (IH bs). destruct (newline b); simpl; lia. Qed.

Lemma first_line_nil n bs : first_line (S n) bs = [] -> bs = [].
Proof. by destruct bs. Qed.

Lemma gets_quiet buf n s : quiet (gets buf n s).
Proof. unfold gets, gets_body. hush. Qed.

Lemma cstr_st_bytes m p l : Byte.x00 ∉ l -> cstr (st_bytes m p (l ++ [Byte.x00])) p l.
Proof.
  intros H. apply cstr_iff. split_and!; [done| |].
  - pose proof (ld_bytes_st_bytes_sub m p (l ++ [Byte.x00]) 0 (length l)) as E. rewrite Z.add_0_r in E.
    rewrite E by (rewrite length_app; simpl; lia). apply take_app_length.
  - apply ld8_st_bytes_in, list_lookup_middle. done.
Qed.

Lemma cstr_empty m p l : cstr m p l -> Byte.eqb (ld8 m p) Byte.x00 = bool_decide (l = []).
Proof. destruct l as [|b l]; simpl; [by intros ->|]. intros (-> & H & _). by rewrite byte_eqb_ne. Qed.

(** What reading leaves as it was. *)
Definition placed w w' : Prop := fds w' = fds w /\ name w' = name w.

#[local] Instance placed_preorder : PreOrder placed.
Proof. split; [done|]. intros w1 w2 w3 (? & ?) (? & ?). split; congruence. Qed.

Lemma getcmd_ok {B} (f : Z -> U B) buf s w : Byte.x00 ∉ inp w -> let l := first_line 99 (inp w) in
  exists s' w', execs (bind (getcmd buf 100) f s) w = execs (f (if bool_decide (l = []) then -1 else 0) s') w' /\
    cstr (u_mem s') buf l /\ inp w = l ++ inp w' /\ placed w w'.
Proof.
  intros Hn l. unfold getcmd. rewrite execs_bind.
  at_head ltac:(fun g s w => destruct (execs_call (Write 2 (bytes_of "$ ")) g s w eq_refl) as (s1 & -> & _)).
  destruct (fa_write w 2 (bytes_of "$ ")) as (F1 & N1 & I1). set (w1 := (syscalls w _).2) in *.
  rewrite execs_bind. unfold memset. rewrite execs_bind, bind_modify, bind_ret, execs_bind. set (s2 := set_u_mem _ s1).
  destruct (gets_ok inp placed fa_read buf 100 s2 w1) as (s3 & w3 & E3 & M3 & I3 & F3 & N3).
  at_head ltac:(fun g s w => pose proof (execs_drive (gets buf 100 s) g w (gets_quiet _ _ _)) as G). rewrite E3 in G.
  setoid_rewrite G. rewrite I1 in M3, I3. change (first_line (Z.to_nat (100 - 1)) (inp w)) with l in M3, I3.
  assert (Hc : cstr (u_mem s3) buf l). { rewrite M3. apply cstr_st_bytes. intros Hin. apply Hn. rewrite I3. apply elem_of_app. by left. }
  exists s3, w3. split_and!; [|done|done|split; congruence]. rewrite execs_bind. unfold ldb. rewrite bind_gets, (cstr_empty _ _ _ Hc).
  by destruct (bool_decide _); rewrite bind_ret.
Qed.

Lemma cstr_cd m p l : cstr m p l -> Byte.eqb (ld8 m p) Byte.x63 && Byte.eqb (ld8 m (p + 1)) Byte.x64 && Byte.eqb (ld8 m (p + 2)) Byte.x20 = cd l.
Proof.
  destruct l as [|b0 [|b1 [|b2 l]]]; simpl.
  - by intros ->.
  - intros (-> & _ & ->). by rewrite andb_false_r.
  - replace (p + 1 + 1) with (p + 2) by lia. intros (-> & _ & -> & _ & ->). apply andb_false_r.
  - replace (p + 1 + 1) with (p + 2) by lia. by intros (-> & _ & -> & _ & -> & _).
Qed.

Lemma cstr_cut m p l k : cstr m p l -> (k <= length l)%nat -> cstr (st8 m (p + Z.of_nat k) Byte.x00) p (take k l).
Proof.
  revert p k. induction l as [|b l IH]; intros p [|k] H Hk; simpl in Hk; try lia; try (rewrite Z.add_0_r; simpl; apply ld8_st8_eq).
  destruct H as (H1 & H2 & H3). cbn [take cstr]. rewrite ld8_st8_ne by lia. split_and!; [done|done|].
  replace (p + Z.of_nat (S k)) with (p + 1 + Z.of_nat k) by lia. apply IH; [done|lia].
Qed.

(** The directory of [cd]: the line without its end. *)
Lemma cstr_dir m p l : cstr m p l -> (3 <= length l)%nat ->
  cstr (st8 m (p + Z.of_nat (length l) - 1) Byte.x00) (p + 3) (take (length l - 4) (drop 3 l)).
Proof.
  intros H Hl. pose proof (cstr_drop _ _ _ 3 Hl H) as Hd. destruct (decide (length l = 3%nat)) as [E|Hne].
  - rewrite E. change (ld8 (st8 m (p + 3 - 1) Byte.x00) (p + 3) = Byte.x00). rewrite ld8_st8_ne by lia. apply cstr_iff in H as (_ & _ & H). by rewrite E in H.
  - apply (cstr_cut _ _ _ (length l - 4)) in Hd; [|rewrite length_drop; lia].
    by replace (p + Z.of_nat (length l) - 1) with (p + Z.of_nat 3 + Z.of_nat (length l - 4)) by lia.
Qed.

Lemma execs_chdir {B} path (f : Z -> U B) s w :
  exists r s' w', execs (bind (call (Chdir path)) f s) w = execs (f r s') w' /\ u_mem s' = u_mem s /\ same w w'.
Proof.
  destruct (execs_call (Chdir path) f s w eq_refl) as (s' & E & M). pose proof (fa_chdir w path).
  by exists (syscalls w (Chdir path)).1.1, s', (syscalls w (Chdir path)).2.
Qed.

Lemma bind_ldb {B} p (f : byte -> U B) s : bind (ldb p) f s = f (ld8 (u_mem s) p) s.
Proof. done. Qed.

Lemma round_cd {B} (f : unit + unit -> U B) buf s w : (100 < bound)%nat -> Byte.x00 ∉ inp w -> let l := first_line 99 (inp w) in
  l <> [] -> cd l = true ->
  exists s' w', execs (bind (main_body bound buf tt) f s) w = execs (f (inl tt) s') w' /\ inp w = l ++ inp w' /\ placed w w'.
Proof.
  intros Hb Hn l Hl Hcd. unfold main_body. rewrite execs_bind.
  at_head ltac:(fun g s w => destruct (getcmd_ok g buf s w Hn) as (s1 & w1 & -> & Hc & I1 & P1)). fold l in Hc, I1 |- *.
  rewrite bool_decide_false by done. change (0 <? 0) with false. cbn match.
  assert (Hlen : (3 <= length l <= 99)%nat). { split; [by destruct l as [|? [|? [|? ?]]]; simpl; try lia|apply first_line_length]. }
  do 3 rewrite execs_bind, bind_ldb. rewrite (cstr_cd _ _ _ Hc), Hcd. rewrite execs_bind.
  rewrite (bind_Ok _ _ _ _ _ (strlen_ok bound buf l s1 Hc ltac:(lia))), execs_bind. unfold stb. rewrite bind_modify, execs_bind.
  set (s2 := set_u_mem _ s1). set (dir := take (length l - 4) (drop 3 l)).
  assert (Hd : cstr (u_mem s2) (buf + 3) dir) by (apply cstr_dir; [done|lia]).
  rewrite (bind_Ok _ _ _ _ _ (cstring_ok bound (buf + 3) dir s2 Hd ltac:(unfold dir; rewrite length_take; lia))), execs_bind.
  at_head ltac:(fun g s w => destruct (execs_chdir dir g s w) as (r & s3 & w3 & -> & M3 & F3 & N3 & I3)). rewrite execs_bind.
  destruct (r <? 0).
  - at_head ltac:(fun g s w => destruct (execs_emits 2 _ tt _ g s w (fprintf_emits 2 (line "cannot cd %s") [Str (Some dir)] _ eq_refl eq_refl))
      as (s4 & w4 & -> & _ & F4 & N4 & I4)).
    rewrite bind_ret. exists s4, w4. destruct P1. split_and!; [done|congruence|split; congruence].
  - rewrite !bind_ret. exists s3, w3. destruct P1. split_and!; [done|congruence|split; congruence].
Qed.

Lemma round_line {B} (f : unit + unit -> U B) buf s w : (100 < bound)%nat -> Byte.x00 ∉ inp w -> ready (fds w) -> let l := first_line 99 (inp w) in
  l <> [] -> cd l = false ->
  exists evs s' w', execs (bind (main_body bound buf tt) f s) w = match execs (f (inl tt) s') w' with Some l => Some (evs ++ l) | None => None end /\
    line_starts l ((name w).1 ++ [(name w).2], 0%nat) (fds w) evs /\
    inp w = l ++ inp w' /\ fds w' = fds w /\ name w' = ((name w).1, S (name w).2).
Proof.
  intros Hb Hn Hs l Hl Hcd. unfold main_body. rewrite execs_bind.
  at_head ltac:(fun g s w => destruct (getcmd_ok g buf s w Hn) as (s1 & w1 & -> & Hc & I1 & F1 & N1)). fold l in Hc, I1 |- *.
  rewrite bool_decide_false by done. change (0 <? 0) with false. cbn match.
  do 3 rewrite execs_bind, bind_ldb. rewrite (cstr_cd _ _ _ Hc), Hcd. rewrite execs_bind.
  pose proof (first_line_length 99 (inp w)) as Hlen. fold l in Hlen. destruct (fa_child w1) as [Fc Nc], (fa_parent w1) as (Fp & Np & Ip & _).
  destruct (line_starts_some buf l ((name w).1 ++ [(name w).2], 0%nat) (fds w) s1 Hc ltac:(lia)) as [evs He].
  at_head ltac:(fun g s w => destruct (execs_child g s w evs) as (s2 & M2 & ->)).
  { intros s3 M3. change (0 =? 0) with true. cbn match. rewrite execs_bind. apply (line_runs _ buf l); [by rewrite M3|lia|by rewrite Fc, F1|].
    by rewrite Fc, F1, Nc, N1. }
  rewrite not_child, execs_bind, bind_ret, execs_bind.
  at_head ltac:(fun g s w => destruct (execs_wait g s w) as (z & s4 & w4 & -> & _ & F4 & N4 & I4)).
  exists evs, s4, w4. rewrite bind_ret. split_and!; [done|done|congruence|congruence|congruence].
Qed.

Lemma execs_while {A B C} fuel (body : A -> U (A + B)) a (f : B -> U C) s w :
  execs (bind (while (S fuel) body a) f s) w =
  execs (bind (body a) (fun r => match r with inl a' => bind (while fuel body a') f | inr b => f b end) s) w.
Proof.
  cbn [while]. rewrite execs_bind. unfold bind. generalize (body a s). intros o. revert w.
  induction o as [r s'|msg s'|s'|s' k IH|]; intros w; try done.
  - by destruct r.
  - cbn [obind execs]. destruct (u_call s'); try done; try (destruct (syscalls w _); apply IH).
    + by rewrite !IH.
    + destruct (can_exec path); [done|apply IH].
Qed.

Lemma session_loop {B} (k : unit -> U B) buf (Hk : forall s w, execs (k tt s) w = Some []) (Hb : (100 < bound)%nat) :
  forall fuel s w, (length (inp w) < fuel)%nat -> Byte.x00 ∉ inp w -> ready (fds w) ->
  exists evs, session (fds w) (name w) (inp w) evs /\ execs (bind (while fuel (main_body bound buf) tt) k s) w = Some evs.
Proof.
  induction fuel as [|fuel IH]; intros s w Hf Hn Hs; [lia|]. rewrite execs_while. set (l := first_line 99 (inp w)).
  assert (Hrest : forall rest, inp w = l ++ rest -> l <> [] -> (Byte.x00 ∉ rest) /\ (length rest < fuel)%nat /\ first_line 99 (l ++ rest) = l).
  { intros rest E Hl. split; [intros H; apply Hn; rewrite E; apply elem_of_app; by right|]. rewrite <- E. split; [|done].
    rewrite E, length_app in Hf. destruct l; [done|]. simpl in Hf. lia. }
  destruct (decide (l = [])) as [El|Hl]; [|destruct (cd l) eqn:Ecd].
  - exists []. rewrite (first_line_nil _ _ El). split; [constructor|]. unfold main_body. rewrite execs_bind.
    at_head ltac:(fun g s w => destruct (getcmd_ok g buf s w Hn) as (s1 & w1 & -> & _)). fold l. rewrite El, bool_decide_true by done.
    change (-1 <? 0) with true. cbn match. by rewrite bind_ret.
  - at_head ltac:(fun g s w => destruct (round_cd g buf s w Hb Hn Hl Ecd) as (s1 & w1 & -> & I1 & F1 & N1)).
    destruct (Hrest _ I1 Hl) as (Hn1 & Hf1 & E1). destruct (IH s1 w1) as (evs & He & ->); [done|done|by rewrite F1|]. exists evs. split; [|done].
    rewrite F1, N1 in He. fold l in I1. rewrite I1. by apply Session_cd.
  - at_head ltac:(fun g s w => destruct (round_line g buf s w Hb Hn Hs Hl Ecd) as (evs & s1 & w1 & -> & Hev & I1 & F1 & N1)).
    destruct (Hrest _ I1 Hl) as (Hn1 & Hf1 & E1). destruct (IH s1 w1) as (evs' & He & ->); [done|done|by rewrite F1|]. exists (evs ++ evs'). split; [|done].
    rewrite F1, N1 in He. fold l in I1. rewrite I1. by apply Session_line.
Qed.

Lemma console_ok {B} (f : unit -> U B) n s w : ready (fds w) ->
  exists s' w', execs (bind (while (S n) console_body tt) f s) w = execs (f tt s') w' /\ same w w'.
Proof.
  intros [Hs Hroom]. rewrite execs_while. unfold console_body. rewrite execs_bind.
  at_head ltac:(fun g s w => destruct (execs_call (Open (bytes_of "console") O_RDWR) g s w eq_refl) as (s1 & -> & _)).
  destruct (fa_open w (bytes_of "console") O_RDWR ltac:(lia)) as (r & -> & N1 & I1 & Ho). set (w1 := (syscalls w _).2) in *.
  destruct (can_open _ _).
  - destruct Ho as [Hr F1]. pose proof (lowest_std _ _ Hs Hr). destruct Hr as (_ & Hr & _).
    rewrite (proj2 (Z.ltb_ge r 0)), (proj2 (Z.leb_le 3 r)) by lia. rewrite execs_bind.
    at_head ltac:(fun g s w => destruct (execs_close r g s w) as (z & s2 & w2 & -> & _ & F2 & N2 & I2)).
    { rewrite F1, lookup_insert_eq. done. }
    rewrite bind_ret. exists s2, w2. split; [done|]. split_and!; [|congruence|congruence]. rewrite F2, F1. by rewrite delete_insert_id.
  - destruct Ho as [Hr F1]. rewrite (proj2 (Z.ltb_lt r 0)) by lia. rewrite bind_ret. by exists s1, w1.
Qed.

Lemma sh_main_session buf s w : (100 < bound)%nat -> (length (inp w) < bound)%nat -> Byte.x00 ∉ inp w -> ready (fds w) ->
  exists evs, session (fds w) (name w) (inp w) evs /\ execs (sh_main bound buf s) w = Some evs.
Proof.
  intros Hb Hi Hn Hr. unfold sh_main. destruct bound as [|n] eqn:En; [lia|]. rewrite <- En in *.
  at_head ltac:(fun g s w => destruct (console_ok g n s w Hr) as (s1 & w1 & E & F1 & N1 & I1)). rewrite <- En in E. rewrite E.
  destruct (session_loop (B := unit) (fun _ => exit 0) buf ltac:(done) Hb bound s1 w1) as (evs & He & ->); [by rewrite I1|by rewrite I1|by rewrite F1|].
  exists evs. by rewrite F1, N1, I1 in He.
Qed.

End Run.

(** ** A kernel *)

(** The part of a kernel that one process and its children see, where all files
    open and all programs run. *)
Record desk := Desk { dk_fds : table; dk_name : pname; dk_inp : list byte }.

Definition dk_set (w : desk) (m : table) : desk := Desk m (dk_name w) (dk_inp w).

(** The first free descriptor, from [fd] on. *)
Fixpoint free_from (n : nat) (m : table) (fd : Z) : Z :=
  match n with O => fd | S n => if decide (m !! fd = None) then fd else free_from n m (fd + 1) end.

Definition free_fd (m : table) : Z := free_from (size m) m 0.

#[export] Instance desk_unix : Unix desk := fun w c =>
  match c with
  | Close fd => ((0, []), dk_set w (delete fd (dk_fds w)))
  | Dup fd =>
      let r := free_fd (dk_fds w) in
      match dk_fds w !! fd with Some f => ((r, []), dk_set w (<[r := f]> (dk_fds w))) | None => ((-1, []), w) end
  | Open path mode => let r := free_fd (dk_fds w) in ((r, []), dk_set w (<[r := File path mode]> (dk_fds w)))
  | Pipe =>
      let p0 := free_fd (dk_fds w) in
      let m := <[p0 := ReadEnd (dk_name w)]> (dk_fds w) in
      let p1 := free_fd m in
      ((0, le_split 4 p0 ++ le_split 4 p1), dk_set w (<[p1 := WriteEnd (dk_name w)]> m))
  | Read 0 n =>
      let bs := take (Z.to_nat n) (dk_inp w) in
      ((Z.of_nat (length bs), bs), Desk (dk_fds w) (dk_name w) (drop (Z.to_nat n) (dk_inp w)))
  | Write _ bs => ((Z.of_nat (length bs), []), w)
  | _ => ((0, []), w)
  end.

Lemma used_size (m : table) n : (forall d, 0 <= d < Z.of_nat n -> is_Some (m !! d)) -> (n <= size m)%nat.
Proof.
  intros H. rewrite <- size_dom. trans (size (list_to_set (C := gset Z) (Z.of_nat <$> seq 0 n))).
  - rewrite size_list_to_set; [by rewrite length_fmap, length_seq|]. apply NoDup_fmap_2; [apply _|apply NoDup_seq].
  - apply subseteq_size. intros d Hd. apply elem_of_list_to_set, list_elem_of_fmap in Hd as (i & -> & Hi). apply elem_of_seq in Hi.
    apply elem_of_dom, H. lia.
Qed.

Lemma free_from_ok m n fd : 0 <= fd -> fd + Z.of_nat n = Z.of_nat (size m) -> (forall d, 0 <= d < fd -> is_Some (m !! d)) ->
  lowest m (free_from n m fd) /\ free_from n m fd <= Z.of_nat (size m).
Proof.
  revert fd. induction n as [|n IH]; intros fd H0 Hn Hd; cbn [free_from].
  - split; [|lia]. split; [done|]. split; [|done]. destruct (m !! fd) eqn:E; [|done].
    pose proof (used_size m (S (Z.to_nat fd))) as Hs. lapply Hs; [lia|]. intros d Hd'. destruct (decide (d = fd)) as [->|]; [done|]. apply Hd. lia.
  - destruct (decide (m !! fd = None)) as [E|E]; [split; [done|lia]|]. apply IH; [lia|lia|]. intros d Hd'.
    destruct (decide (d = fd)) as [->|]; [by apply not_eq_None_Some|]. apply Hd. lia.
Qed.

Lemma free_fd_ok m : lowest m (free_fd m) /\ free_fd m <= Z.of_nat (size m).
Proof. apply free_from_ok; lia. Qed.

#[export] Program Instance desk_family : Family desk := {|
  fds := dk_fds;
  name := dk_name;
  inp := dk_inp;
  child w := Desk (dk_fds w) ((dk_name w).1 ++ [(dk_name w).2], 0%nat) (dk_inp w);
  parent w := Desk (dk_fds w) ((dk_name w).1, S (dk_name w).2) (dk_inp w);
  pid _ := 1;
  can_open _ _ := true;
  can_exec _ := true
|}.
Next Obligation. done. Qed.
Next Obligation. done. Qed.
Next Obligation. done. Qed.
Next Obligation. intros w fd f Hf _. exists (free_fd (dk_fds w)). unfold syscalls, desk_unix. rewrite Hf. by destruct (free_fd_ok (dk_fds w)). Qed.
Next Obligation. intros w path mode _. exists (free_fd (dk_fds w)). by destruct (free_fd_ok (dk_fds w)). Qed.
Next Obligation.
  intros w Hs. set (p0 := free_fd (dk_fds w)). set (m := <[p0 := ReadEnd (dk_name w)]> (dk_fds w)). exists p0, (free_fd m).
  destruct (free_fd_ok (dk_fds w)) as [L0 B0], (free_fd_ok m) as [L1 B1]. fold p0 in L0, B0.
  assert (size m = S (size (dk_fds w))) by (apply map_size_insert_None; by destruct L0 as (_ & ? & _)).
  split_and!; try done; lia.
Qed.
Next Obligation. done. Qed.
Next Obligation. done. Qed.
Next Obligation. done. Qed.
Next Obligation.
  intros w n Hn. eexists _, _. split; [done|]. cbn [dk_inp dk_fds dk_name]. rewrite take_drop, length_take. split_and!; [done|lia| |done|done].
  intros H. apply (f_equal length) in H. rewrite length_take in H. apply nil_length_inv. simpl in H. lia.
Qed.

(** C18: The shell runs what it reads.  On an input of lines it starts, in order,
    the programs of the command tree of each line, each with its arguments and
    with the descriptors that the pipes and redirections around it give it, and no
    others; lines that do not parse start nothing, [cd] is done by the shell
    itself, and at the end of the input the shell exits. *)
Theorem sh_main_correct {W : Type} `{!Unix W} `{!Family W} (bound : nat) (buf : Z) (s : uproc) (w : W)
    (Hb : (100 < bound)%nat) (Hi : (length (inp w) < bound)%nat) (Hn : Byte.x00 ∉ inp w) (Hr : ready (fds w)) :
  exists evs, session (fds w) (name w) (inp w) evs /\ execs (sh_main bound buf s) w = Some evs.
Proof. by apply sh_main_session. Qed.



Definition demo_world : desk :=
  Desk (list_to_map [(0, Given 0); (1, Given 1); (2, Given 2)]) ([], 0%nat) (bytes_of (line "cd /dir") ++ bytes_of (line "ls -l | wc > out")).

Lemma sh_main_correct_witness :
  exists evs, session (dk_fds demo_world) ([], 0%nat) (dk_inp demo_world) evs /\
    execs (sh_main 200 8192 (Uproc ∅ Getpid (0, []))) demo_world = Some evs /\
    evs = [Event [bytes_of "ls"; bytes_of "-l"] (<[1 := WriteEnd ([0%nat], 0%nat)]> (dk_fds demo_world));
           Event [bytes_of "wc"] (<[1 := File (bytes_of "out") 0x601]> (<[0 := ReadEnd ([0%nat], 0%nat)]> (dk_fds demo_world)))].
Proof.
  destruct (sh_main_correct 200 8192 (Uproc ∅ Getpid (0, [])) demo_world) as (evs & H1 & H2).
  - lia.
  - vm_compute. lia.
  - intros H%list_elem_of_In. vm_compute in H. intuition discriminate.
  - split; [|vm_compute; lia]. intros d Hd. assert (d = 0 \/ d = 1 \/ d = 2) as [-> | [-> | ->] ] by lia; eexists; vm_compute; reflexivity.
  - exists evs. split; [exact H1|]. split; [exact H2|].
    assert (E : execs (sh_main 200 8192 (Uproc ∅ Getpid (0, []))) demo_world = _) by (vm_compute; reflexivity).
    rewrite E in H2. injection H2 as <-. vm_compute. reflexivity.
Defined.

End ShellRun.
