(* ===== verification/ProgramsRun.v ===== *)
(** * Programs that start programs

    What [xargs] and [init] execute, on the kernels that the shell runs on:
    [xargs] starts its command once for each line of its input, and [init] keeps a
    shell running on the console. *)

From S2P Require Import Prelude Riscv Memory CString Block Uart Printf User UserPrintf Grep Shell ShellParse ShellRun Programs.
Import User.Ulib UserPrintf.UPrintf ShellRun.ShellRun Programs.Programs.

Module ProgramsRun.

(** [at_head tac] gives [tac] the continuation, state and world of the next step. *)
Ltac at_head tac := match goal with |- context [execs (bind _ ?g ?s) ?w] => tac g s w end.

(** ** [xargs] *)

(** The lines of the input, as [xargs] cuts them: at newlines, and at most 511 bytes
    of each; [cur] is the line so far. *)
Fixpoint xlines (cur bs : list byte) : list (list byte) :=
  match bs with
  | [] => match cur with [] => [] | _ => [cur] end
  | b :: bs =>
      if Byte.eqb b Byte.x0a then cur :: xlines [] bs
      else xlines (if (length cur <? 511)%nat then cur ++ [b] else cur) bs
  end.

Section Xargs.
Context {W : Type} `{!Unix W} `{!Family W}.
Implicit Types (w : W) (s : uproc).
Variables (bound : nat) (xv : xargs_vars).

(** The arguments after the name of the program: where they are, and their bytes. *)
Variable P : list (Z * list byte).

Abbreviation argc := (Z.of_nat (S (length P))).

Definition in_line (x : Z) : Prop := xv_line xv <= x < xv_line xv + 512.
Definition in_slots (x : Z) : Prop := xv_argv xv + 8 * Z.of_nat (length P) <= x < xv_argv xv + 8 * Z.of_nat (length P) + 16.
Definition in_argv (x : Z) : Prop := xv_argv xv <= x < xv_argv xv + 8 * Z.of_nat (length P) + 16.

(** The variables and the strings are apart. *)
Hypothesis vars_apart : 0 < xv_line xv < 2 ^ 64 /\ ~ in_line (xv_ch xv) /\ ~ in_argv (xv_ch xv) /\ forall x, in_line x -> ~ in_argv x.
Hypothesis strings_apart : forall p a, (p, a) ∈ P -> 0 < p < 2 ^ 64 /\ (length a < bound)%nat /\
  forall x, p <= x <= p + Z.of_nat (length a) -> ~ in_line x /\ ~ in_argv x /\ x <> xv_ch xv.
Hypothesis line_bound : (512 < bound)%nat /\ (length P + 2 < bound)%nat.

(** [child_argv] holds the arguments, which are in memory. *)
Definition env (m : mem) : Prop := forall i p a, P !! i = Some (p, a) -> ld64 m (xv_argv xv + 8 * Z.of_nat i) = p /\ cstr m p a.

(** [m'] differs from [m] in the line, the last arguments and the character. *)
Definition scratch (m m' : mem) : Prop := forall x, ~ in_line x -> ~ in_slots x -> x <> xv_ch xv -> ld8 m' x = ld8 m x.

Lemma env_scratch m m' : scratch m m' -> env m -> env m'.
Proof.
  intros Hs He i p a Hi. destruct (He i p a Hi) as [Hp Hc]. destruct (strings_apart p a (list_elem_of_lookup_2 _ _ _ Hi)) as (_ & _ & Hx).
  pose proof (lookup_lt_Some _ _ _ Hi) as Hlt. destruct vars_apart as (_ & _ & Hch & Hl). split.
  - rewrite <- Hp. apply ld64_ext. intros x Hx'. symmetry.
    assert (in_argv x) by (unfold in_argv; lia). rewrite Hs; [done|intros H'; by eapply Hl|unfold in_slots; lia|intros ->; done].
  - apply (cstr_ext m); [done|]. intros x Hx'. destruct (Hx x Hx') as (H1 & H2 & H3). apply Hs; [done| |done]. intros H. apply H2. unfold in_slots, in_argv in *. lia.
Qed.

(** What is started for a line. *)
Definition started w (l : list byte) : list event :=
  match P with (_, cmd) :: _ => if can_exec cmd then [Event (map snd P ++ [l]) (fds w)] else [] | [] => [] end.

Lemma argv_strings_ok s : forall Q fuel a l, 
  (forall i p x, Q !! i = Some (p, x) -> ld64 (u_mem s) (a + 8 * Z.of_nat i) = p /\ cstr (u_mem s) p x /\ 0 < p /\ (length x < bound)%nat) ->
  ld64 (u_mem s) (a + 8 * Z.of_nat (length Q)) = l -> l = 0 -> (length Q < fuel)%nat ->
  argv_strings bound fuel a s = Ok (map snd Q) s.
Proof.
  induction Q as [|[p x] Q IH]; intros fuel a l HQ Hl H0 Hf; (destruct fuel as [|fuel]; [simpl in Hf; lia|]); cbn [argv_strings]; unfold ldd; rewrite bind_gets.
  - rewrite Z.add_0_r in Hl. by rewrite Hl, H0.
  - destruct (HQ 0%nat p x eq_refl) as (H1 & H2 & H3 & H4). rewrite Z.add_0_r in H1. rewrite H1, (proj2 (Z.eqb_neq p 0)) by lia.
    krun (cstring_ok bound p x s H2 H4). assert (E : argv_strings bound fuel (a + 8) s = Ok (map snd Q) s).
    { apply (IH fuel (a + 8) l); [|rewrite <- Hl; f_equal; simpl; lia|done|simpl in Hf; lia].
      intros i q y Hi. replace (a + 8 + 8 * Z.of_nat i) with (a + 8 * Z.of_nat (S i)) by lia. by apply HQ. }
    by krun E.
Qed.

Lemma execs_fork {B} (g : Z -> U B) s w l : (forall s1, u_mem s1 = u_mem s -> execs (g 0 s1) (child w) = Some l) ->
  exists s2, u_mem s2 = u_mem s /\
    execs (bind (call Fork) g s) w = match execs (g (pid w) s2) (parent w) with Some l' => Some (l ++ l') | None => None end.
Proof.
  intros H. exists (set_u_answer (pid w, []) (set_u_call Fork s)). split; [done|]. unfold call, bind, ecall. cbn [obind execs u_call set_u_call].
  cbn [u_answer set_u_answer fst obind ret]. rewrite (H (set_u_answer (0, []) (set_u_call Fork s))) by done. done.
Qed.

(** The argument vector of the child. *)
Lemma child_argv s l : env (u_mem s) -> cstr (u_mem s) (xv_line xv) l -> (length l < 512)%nat ->
  let m2 := st64 (st64 (u_mem s) (xv_argv xv + 8 * (argc - 1)) (xv_line xv)) (xv_argv xv + 8 * argc) 0 in
  scratch (u_mem s) m2 /\ argv_strings bound bound (xv_argv xv) (set_u_mem m2 s) = Ok (map snd P ++ [l]) (set_u_mem m2 s).
Proof.
  intros He Hl Hlen m2. destruct vars_apart as (Hpos & _ & _ & Hla). assert (Em : m2 = st64 (st64 (u_mem s) (xv_argv xv + 8 * Z.of_nat (length P)) (xv_line xv)) (xv_argv xv + 8 * argc) 0).
  { unfold m2. by replace (argc - 1) with (Z.of_nat (length P)) by lia. }
  clearbody m2.
  assert (Hs : scratch (u_mem s) m2). { intros x _ Hx _. unfold in_slots in Hx. rewrite Em, !ld8_st64_out by lia. done. }
  split; [done|]. assert (He2 := env_scratch _ _ Hs He). assert (Hl2 : cstr m2 (xv_line xv) l).
  { apply (cstr_ext (u_mem s)); [done|]. intros x Hx. assert (Hin : in_line x) by (unfold in_line; lia). specialize (Hla x Hin).
    unfold in_argv in Hla. rewrite Em, !ld8_st64_out by lia. done. }
  replace (map snd P ++ [l]) with (map snd (P ++ [(xv_line xv, l)])) by (by rewrite map_app).
  apply (argv_strings_ok _ _ _ _ 0); [|rewrite length_app; cbn [length]|done|rewrite length_app; cbn [length]; lia].
  - intros i p x Hi. apply lookup_app_Some in Hi as [Hi|[Hge Hi]].
    + destruct (He2 i p x Hi) as [H1 H2]. destruct (strings_apart p x (list_elem_of_lookup_2 _ _ _ Hi)) as (H3 & H4 & _). split_and!; [done|done|lia|done].
    + destruct (i - length P)%nat as [|k] eqn:Ek; [|by destruct k]. injection Hi as <- <-. replace i with (length P) by lia.
      split_and!; [|done|lia|lia]. cbn [u_mem set_u_mem]. rewrite Em. rewrite ld64_st64_apart by (unfold apart; lia). rewrite ld64_st64. apply u64_small. lia.
  - cbn [u_mem set_u_mem]. rewrite Em. replace (Z.of_nat (length P + 1)) with argc by lia. by rewrite ld64_st64.
Qed.

Lemma xargs_run_ok {B} (g : unit -> U B) cp cmd P' s w l : P = (cp, cmd) :: P' -> env (u_mem s) -> cstr (u_mem s) (xv_line xv) l -> (length l < 512)%nat ->
  exists s' w', u_mem s' = u_mem s /\ fds w' = fds w /\ inp w' = inp w /\
    execs (bind (xargs_run bound xv argc cp) g s) w = match execs (g tt s') w' with Some e => Some (started w l ++ e) | None => None end.
Proof.
  intros HP He Hl Hlen. unfold xargs_run. destruct (fa_parent w) as (Fp & _ & Ip & _), (fa_child w) as [Fc _].
  assert (Hcmd : forall m, env m -> cstr m cp cmd) by (intros m Hm; apply (Hm 0%nat); by rewrite HP).
  assert (Hcb : (length cmd < bound)%nat) by (apply (strings_apart cp); rewrite HP; by left).
  assert (Est : started w l = if can_exec cmd then [Event (map snd P ++ [l]) (fds w)] else []) by (unfold started; by rewrite HP).
  rewrite execs_bind.
  at_head ltac:(fun g s w => destruct (execs_fork g s w (started w l)) as (s2 & M2 & ->)).
  { intros s1 M1. change (0 =? 0) with true. cbn match. destruct (child_argv s1 l) as [Hs Ea]; [rewrite M1; exact He|by rewrite M1|done|].
    set (m2 := st64 (st64 (u_mem s1) _ _) _ _) in *. rewrite !execs_bind. unfold set_arg at 1. rewrite bind_modify, execs_bind.
    unfold set_arg at 1. rewrite bind_modify, execs_bind. change (set_u_mem _ _) with (set_u_mem m2 s1).
    assert (He2 : env m2) by (eapply env_scratch; [exact Hs|by rewrite M1]).
    unfold exec. rewrite execs_bind. rewrite (bind_Ok _ _ _ _ _ (cstring_ok bound cp cmd (set_u_mem m2 s1) (Hcmd _ He2) Hcb)), execs_bind.
    rewrite (bind_Ok _ _ _ _ _ Ea). unfold call. rewrite execs_bind. unfold bind at 1, ecall. cbn [obind execs u_call set_u_call].
    rewrite Est. destruct (can_exec cmd); [by rewrite Fc|]. rewrite bind_ret, execs_bind.
    set (s3 := set_u_answer _ _). rewrite (bind_Ok _ _ _ _ _ (cstring_ok bound cp cmd s3 (Hcmd _ He2) Hcb)), execs_bind.
    at_head ltac:(fun g s w => destruct (execs_emits 2 _ tt _ g s w (fprintf_emits 2 (line "xargs: exec %s failed") [Str (Some cmd)] _ eq_refl eq_refl))
      as (s4 & w4 & -> & _)). apply execs_exit. }
  rewrite not_child, execs_bind.
  at_head ltac:(fun g s w => destruct (execs_wait g s w) as (z & s4 & w4 & -> & M4 & F4 & N4 & I4)). rewrite bind_ret.
  exists s4, w4. split_and!; [congruence|congruence|congruence|done].
Qed.

Lemma bind_stb {B} p b (f : unit -> U B) s : bind (stb p b) f s = f tt (set_u_mem (st8 (u_mem s) p b) s).
Proof. done. Qed.

Lemma execs_read1 {B} p (f : Z -> U B) s w : exists s' w', fds w' = fds w /\
  match inp w with
  | [] => u_mem s' = u_mem s /\ inp w' = [] /\ execs (bind (read 0 p 1) f s) w = execs (f 0 s') w'
  | b :: rest => u_mem s' = st8 (u_mem s) p b /\ inp w' = rest /\ execs (bind (read 0 p 1) f s) w = execs (f 1 s') w'
  end.
Proof.
  destruct (fa_read w 1 ltac:(lia)) as (bs & w' & E & I & Hl & Hend & F & N). unfold read. rewrite execs_bind.
  destruct (execs_ecall (Read 0 1) (fun r => bind (bind (stbs p r.2) (fun _ => ret r.1)) f) s w eq_refl) as (s1 & E1 & M1).
  rewrite E in E1. cbn [fst snd] in E1. exists (set_u_mem (st_bytes (u_mem s1) p bs) s1), w'. split; [done|].
  destruct bs as [|b [|]]; [| |simpl in Hl; lia].
  - rewrite (Hend eq_refl) in I |- *. simpl in I. split_and!; [done|done|]. rewrite E1. done.
  - simpl in I. rewrite I. split_and!; [simpl; by rewrite M1|done|]. rewrite E1. done.
Qed.

(** The line so far is in the buffer. *)
Definition holds (m : mem) (cur : list byte) : Prop := ld_bytes m (xv_line xv) (length cur) = cur.

Lemma holds_cstr m cur : holds m cur -> Byte.x00 ∉ cur -> (length cur < 512)%nat ->
  cstr (st8 m (xv_line xv + Z.of_nat (length cur)) Byte.x00) (xv_line xv) cur.
Proof.
  intros H Hn Hl. apply cstr_iff. split_and!; [done| |apply ld8_st8_eq]. etrans; [|exact H]. apply ld_bytes_ext. intros x Hx. apply ld8_st8_ne. lia.
Qed.

Lemma scratch_line m i b : 0 <= i < 512 -> scratch m (st8 m (xv_line xv + i) b).
Proof. intros Hi x Hx _ _. apply ld8_st8_ne. unfold in_line in Hx. lia. Qed.

Lemma scratch_ch m b : scratch m (st8 m (xv_ch xv) b).
Proof. intros x _ _ Hx. apply ld8_st8_ne. auto. Qed.

Lemma holds_ch m cur b : holds m cur -> (length cur <= 512)%nat -> holds (st8 m (xv_ch xv) b) cur.
Proof.
  intros H Hl. unfold holds. etrans; [|exact H]. apply ld_bytes_ext. intros x Hx. apply ld8_st8_ne. intros <-.
  destruct vars_apart as (_ & Hch & _). apply Hch. unfold in_line. lia.
Qed.

Lemma holds_snoc m cur b : holds m cur -> holds (st8 m (xv_line xv + Z.of_nat (length cur)) b) (cur ++ [b]).
Proof.
  intros H. unfold holds. rewrite length_app, ld_bytes_add. f_equal; [|simpl; by rewrite ld8_st8_eq].
  etrans; [|exact H]. apply ld_bytes_ext. intros x Hx. apply ld8_st8_ne. lia.
Qed.

(** The rest of [main] after the loop. *)
Definition xargs_end cp (char_idx : Z) : U unit :=
  (if 0 <? char_idx then stb (xv_line xv + char_idx) Byte.x00 ;; xargs_run bound xv argc cp else ret tt) ;; exit 0.

Lemma xargs_end_ok cp cmd P' s w cur : P = (cp, cmd) :: P' -> env (u_mem s) -> holds (u_mem s) cur -> Byte.x00 ∉ cur -> (length cur < 512)%nat ->
  execs (xargs_end cp (Z.of_nat (length cur)) s) w = Some (flat_map (started w) (xlines cur [])).
Proof.
  intros HP He Hh Hn Hl. unfold xargs_end. destruct cur as [|c cur]; [done|]. cbn [xlines flat_map]. rewrite app_nil_r.
  rewrite (proj2 (Z.ltb_lt 0 _)) by (simpl; lia). rewrite execs_bind. rewrite bind_stb.
  at_head ltac:(fun g s w => destruct (xargs_run_ok g cp cmd P' s w (c :: cur) HP) as (s2 & w2 & _ & _ & _ & ->)).
  - eapply env_scratch; [apply scratch_line; lia|done].
  - by apply holds_cstr.
  - done.
  - cbn [execs exit u_call set_u_call]. by rewrite app_nil_r.
Qed.

Lemma xargs_loop cp cmd P' (HP : P = (cp, cmd) :: P') : forall fuel s w cur, (length (inp w) < fuel)%nat -> Byte.x00 ∉ cur -> Byte.x00 ∉ inp w ->
  (length cur < 512)%nat -> env (u_mem s) -> holds (u_mem s) cur ->
  execs (bind (while fuel (xargs_body bound xv argc cp) (Z.of_nat (length cur))) (xargs_end cp) s) w = Some (flat_map (started w) (xlines cur (inp w))).
Proof.
  induction fuel as [|fuel IH]; intros s w cur Hf Hn Hi Hl He Hh; [lia|]. rewrite execs_while. unfold xargs_body at 1. rewrite execs_bind.
  at_head ltac:(fun g s w => destruct (execs_read1 (xv_ch xv) g s w) as (s1 & w1 & F1 & H)).
  assert (Hst : forall l, flat_map (started w) l = flat_map (started w1) l) by (intros l; unfold started; by rewrite F1).
  destruct (inp w) as [|b rest]; destruct H as (M1 & I1 & ->).
  { change (0 <? 0) with false. cbn [negb]. rewrite bind_ret, Hst. apply (xargs_end_ok cp cmd P'); [done|by rewrite M1..|done|done]. }
  change (0 <? 1) with true. cbn [negb]. apply not_elem_of_cons in Hi as [Hb Hi]. simpl in Hf.
  assert (He1 : env (u_mem s1)) by (rewrite M1; eapply env_scratch; [apply scratch_ch|done]).
  assert (Hh1 : holds (u_mem s1) cur) by (rewrite M1; apply holds_ch; [done|lia]).
  rewrite execs_bind, bind_ldb. assert (Ech : ld8 (u_mem s1) (xv_ch xv) = b) by (rewrite M1; apply ld8_st8_eq).
  rewrite Ech. cbn [xlines]. destruct (Byte.eqb b Byte.x0a).
  - rewrite execs_bind. rewrite bind_stb, execs_bind.
    at_head ltac:(fun g s w => destruct (xargs_run_ok g cp cmd P' s w cur HP) as (s2 & w2 & M2 & F2 & I2 & ->));
      [eapply env_scratch; [apply scratch_line; lia|done]|by apply holds_cstr|done|]. rewrite bind_ret. cbn [flat_map]. cbn match.
    assert (Hst2 : forall l, flat_map (started w) l = flat_map (started w2) l) by (intros l; unfold started; by rewrite F2, F1).
    pose proof (IH s2 w2 []) as IH'. change (Z.of_nat (length (@nil byte))) with 0 in IH'. rewrite IH'; [|rewrite I2, I1; lia|apply not_elem_of_nil|by rewrite I2, I1|simpl; lia| |done].
    + rewrite I2, I1, Hst2. f_equal. f_equal. unfold started. by rewrite F1.
    + rewrite M2. eapply env_scratch; [apply scratch_line; lia|done].
  - unfold MAX_LINE_LEN. destruct (Nat.ltb_spec (length cur) 511) as [Hlt|Hge].
    + rewrite (proj2 (Z.ltb_lt _ _)) by lia. rewrite execs_bind. rewrite bind_stb, bind_ret.
      replace (Z.of_nat (length cur) + 1) with (Z.of_nat (length (cur ++ [b]))) by (rewrite length_app; simpl; lia).
      rewrite Hst, <- I1. apply IH; [rewrite I1; lia|set_solver|by rewrite I1|rewrite length_app; simpl; lia| |by apply holds_snoc].
      eapply env_scratch; [apply scratch_line; lia|done].
    + rewrite (proj2 (Z.ltb_ge _ _)) by lia. rewrite bind_ret, Hst, <- I1. apply IH; rewrite ?I1; try done. lia.
Qed.

(** [argv] holds pointers to the arguments, after the name of the program. *)
Definition args_in (m : mem) (argv : Z) : Prop := forall i p a, P !! i = Some (p, a) ->
  let slot := argv + 8 * Z.of_nat (S i) in ld64 m slot = p /\ cstr m p a /\ forall x, slot <= x < slot + 8 -> ~ in_argv x.

Definition env_upto (k : nat) (m : mem) : Prop := forall i p a, (i < k)%nat -> P !! i = Some (p, a) -> ld64 m (xv_argv xv + 8 * Z.of_nat i) = p.

Lemma copy_args argv : forall n k s, (k + n = length P)%nat -> args_in (u_mem s) argv -> env_upto k (u_mem s) ->
  exists m', forM (map Z.of_nat (seq (S k) n)) (fun i => let! a := Grep.arg argv i in set_arg xv (i - 1) a) s = Ok tt (set_u_mem m' s) /\ env m'.
Proof.
  induction n as [|n IH]; intros k s Hk Ha Hu.
  - exists (u_mem s). split; [by destruct s|]. intros i p a Hi. destruct (Ha i p a Hi) as (_ & Hc & _). split; [|done].
    apply (Hu i p a); [|done]. apply lookup_lt_Some in Hi. lia.
  - destruct (lookup_lt_is_Some_2 P k) as [[p a] Hp]; [lia|]. destruct (Ha k p a Hp) as (H1 & H2 & H3). destruct (strings_apart p a (list_elem_of_lookup_2 _ _ _ Hp)) as (Hpos & _).
    cbn [seq map forM]. set (s1 := set_u_mem (st64 (u_mem s) (xv_argv xv + 8 * Z.of_nat k) p) s).
    assert (Hout : forall x, ~ in_argv x -> ld8 (u_mem s1) x = ld8 (u_mem s) x).
    { intros x Hx. apply ld8_st64_out. unfold in_argv in Hx. lia. }
    assert (E0 : (let! a := Grep.arg argv (Z.of_nat (S k)) in set_arg xv (Z.of_nat (S k) - 1) a) s = Ok tt s1).
    { unfold Grep.arg. rewrite bind_gets, H1. by replace (Z.of_nat (S k) - 1) with (Z.of_nat k) by lia. }
    rewrite (bind_Ok _ _ _ _ _ E0). destruct (IH (S k) s1) as (m' & E & He); [lia| | |exists m'; by rewrite E].
    + intros i q b Hi. destruct (Ha i q b Hi) as (G1 & G2 & G3). destruct (strings_apart q b (list_elem_of_lookup_2 _ _ _ Hi)) as (_ & _ & G4). split_and!; [| |done].
      * rewrite <- G1. apply ld64_ext. intros x Hx. apply Hout, G3, Hx.
      * apply (cstr_ext (u_mem s)); [done|]. intros x Hx. by apply Hout, G4.
    + intros i q b Hlt Hi. cbn [u_mem set_u_mem s1]. destruct (decide (i = k)) as [->|Hne].
      * rewrite Hp in Hi. injection Hi as <- <-. rewrite ld64_st64. apply u64_small. lia.
      * rewrite ld64_st64_apart by (unfold apart; lia). by apply (Hu i q b); [lia|].
Qed.

Lemma xargs_main_ok cp cmd P' argv s w : P = (cp, cmd) :: P' -> args_in (u_mem s) argv -> (length (inp w) < bound)%nat -> Byte.x00 ∉ inp w ->
  execs (xargs_main bound xv argc argv s) w = Some (flat_map (started w) (xlines [] (inp w))).
Proof.
  intros HP Ha Hi Hn. unfold xargs_main. rewrite (proj2 (Z.ltb_ge argc 2)) by (rewrite HP; simpl; lia).
  unfold Grep.arg at 1. rewrite bind_gets. destruct (Ha 0%nat cp cmd) as (E1 & _); [by rewrite HP|]. change (Z.of_nat 1) with 1 in E1. rewrite E1.
  destruct (copy_args argv (length P) 0 s) as (m' & E & He); [done|done|by intros i p a ?; lia|]. unfold each_arg.
  replace (Z.to_nat (argc - 1)) with (length P) by lia. rewrite (bind_Ok _ _ _ _ _ E).
  apply (xargs_loop cp cmd P' HP bound (set_u_mem m' s) w []); [done|apply not_elem_of_nil|done|simpl; lia|done|done].
Qed.

End Xargs.

(** The variables and the argument strings are apart from each other, and the
    strings fit the bound. *)
Definition xargs_layout (bound : nat) (xv : xargs_vars) (P : list (Z * list byte)) : Prop :=
  (0 < xv_line xv < 2 ^ 64 /\ ~ in_line xv (xv_ch xv) /\ ~ in_argv xv P (xv_ch xv) /\ forall x, in_line xv x -> ~ in_argv xv P x) /\
  (forall p a, (p, a) ∈ P -> 0 < p < 2 ^ 64 /\ (length a < bound)%nat /\
    forall x, p <= x <= p + Z.of_nat (length a) -> ~ in_line xv x /\ ~ in_argv xv P x /\ x <> xv_ch xv) /\
  (512 < bound)%nat /\ (length P + 2 < bound)%nat.

(** C24: [xargs command args...] starts the command once for each line of its input,
    in order, with the given arguments followed by the line; a last line without a
    newline counts if it is not empty, and lines are cut at 511 bytes.  The command
    gets the descriptors of [xargs]. *)
Theorem xargs_correct {W : Type} `{!Unix W} `{!Family W} (bound : nat) (xv : xargs_vars) (cp : Z) (cmd : list byte) (P : list (Z * list byte))
    (argv : Z) (s : uproc) (w : W) (HL : xargs_layout bound xv ((cp, cmd) :: P)) (Ha : args_in xv ((cp, cmd) :: P) (u_mem s) argv)
    (Hi : (length (inp w) < bound)%nat) (Hn : Byte.x00 ∉ inp w) :
  execs (xargs_main bound xv (Z.of_nat (S (S (length P)))) argv s) w =
  Some (flat_map (fun l => if can_exec cmd then [Event (cmd :: map snd P ++ [l]) (fds w)] else []) (xlines [] (inp w))).
Proof. destruct HL as (H1 & H2 & H3). exact (xargs_main_ok bound xv ((cp, cmd) :: P) H1 H2 H3 cp cmd P argv s w eq_refl Ha Hi Hn). Qed.

(** ** An example *)

Definition xargs_mem : mem :=
  st_bytes (st_bytes (st64 (st64 ∅ 4104 8192) 4112 8200) 8192 (bytes_of "echo" ++ [Byte.x00])) 8200 (bytes_of "-n" ++ [Byte.x00]).

Definition xargs_world : desk := Desk ∅ ([], 0%nat) (bytes_of (line "a b" ++ "c")).

Lemma xargs_correct_witness :
  execs (xargs_main 1000 (XargsVars 16384 20480 21000) 3 4096 (Uproc xargs_mem Getpid (0, []))) xargs_world =
  Some [Event [bytes_of "echo"; bytes_of "-n"; bytes_of "a b"] ∅; Event [bytes_of "echo"; bytes_of "-n"; bytes_of "c"] ∅].
Proof.
  rewrite (xargs_correct 1000 (XargsVars 16384 20480 21000) 8192 (bytes_of "echo") [(8200, bytes_of "-n")] 4096 (Uproc xargs_mem Getpid (0, [])) xargs_world).
  - vm_compute. reflexivity.
  - unfold xargs_layout, in_line, in_argv. cbn [xv_line xv_ch xv_argv length]. split; [split_and!; try lia; intros x Hx; lia|]. split; [|lia].
    intros p a Hp. apply elem_of_cons in Hp as [Hp|Hp]; [injection Hp as -> ->|apply list_elem_of_singleton in Hp; injection Hp as -> ->];
      change (length (bytes_of "echo")) with 4%nat; change (length (bytes_of "-n")) with 2%nat; (split; [lia|]); (split; [lia|]); intros x Hx; lia.
  - intros i p a Hi. destruct i as [|[|i]]; [| |done]; injection Hi as <- <-; (split; [vm_compute; reflexivity|]);
      (split; [vm_compute; intuition discriminate|]); unfold in_argv; cbn [xv_argv length]; intros x Hx; lia.
  - vm_compute. lia.
  - intros H%list_elem_of_In. vm_compute in H. intuition discriminate.
Defined.

End ProgramsRun.
