(* ===== verification/Primes.v ===== *)
(** * The sieve of [user/primes.c]

    [primes] runs a pipeline of processes: each prints the first number it reads
    and passes on those that it does not divide.  The theorem says that exactly the
    primes up to 280 are printed, in order.  The processes communicate through the
    pipes alone, so the kernel here runs each to its end before the one it forked,
    which then finds all its input in the pipe. *)

From Stdlib Require Import Znumtheory.
From stdpp Require Import sorting.
From S2P Require Import Prelude Riscv Memory CString Block Uart Printf User UserPrintf Shell ShellParse ShellRun Programs.
Import User.Ulib UserPrintf.UPrintf ShellRun.ShellRun Programs.Programs.

Module Primes.

(** ** A kernel with pipes *)

(** The descriptors of the process that runs, the contents of the pipes, how many
    there are, and what was written to the console. *)
Record plumbing := Plumbing { pl_fds : gmap Z file; pl_pipes : gmap nat (list byte); pl_next : nat; pl_out : list byte }.

Definition set_fds (m : gmap Z file) (w : plumbing) : plumbing := Plumbing m (pl_pipes w) (pl_next w) (pl_out w).

Definition pipe_id (n : nat) : pname := ([], n).

#[export] Instance plumbing_unix : Unix plumbing := fun w c =>
  let m := pl_fds w in
  match c with
  | Close fd => ((0, []), set_fds (delete fd m) w)
  | Dup fd => match m !! fd with Some f => let r := free_fd m in ((r, []), set_fds (<[r := f]> m) w) | None => ((-1, []), w) end
  | Pipe =>
      let p0 := free_fd m in
      let m0 := <[p0 := ReadEnd (pipe_id (pl_next w))]> m in
      let p1 := free_fd m0 in
      ((0, le_split 4 p0 ++ le_split 4 p1),
       Plumbing (<[p1 := WriteEnd (pipe_id (pl_next w))]> m0) (<[pl_next w := []]> (pl_pipes w)) (S (pl_next w)) (pl_out w))
  | Read fd n =>
      match m !! fd with
      | Some (ReadEnd (_, q)) =>
          let c := default [] (pl_pipes w !! q) in
          let bs := take (Z.to_nat n) c in
          ((Z.of_nat (length bs), bs), Plumbing m (<[q := drop (Z.to_nat n) c]> (pl_pipes w)) (pl_next w) (pl_out w))
      | _ => ((-1, []), w)
      end
  | Write fd bs =>
      match m !! fd with
      | Some (WriteEnd (_, q)) =>
          ((Z.of_nat (length bs), []), Plumbing m (<[q := default [] (pl_pipes w !! q) ++ bs]> (pl_pipes w)) (pl_next w) (pl_out w))
      | Some (Given _) => ((Z.of_nat (length bs), []), Plumbing m (pl_pipes w) (pl_next w) (pl_out w ++ bs))
      | _ => ((-1, []), w)
      end
  | _ => ((0, []), w)
  end.

(** Runs a process and those it forks, each before its children. *)
Fixpoint net {A} (o : outcome uproc A) (w : plumbing) : option plumbing :=
  match o with
  | Ok _ _ => Some w
  | Panic _ _ | Spin _ | Fuel => None
  | Switch s k =>
      match u_call s with
      | Exit _ => Some w
      | Fork =>
          match net (k (set_u_answer (1, []) s)) w with
          | Some w1 => net (k (set_u_answer (0, []) s)) (set_fds (pl_fds w) w1)
          | None => None
          end
      | c => let '(r, w') := syscalls w c in net (k (set_u_answer r s)) w'
      end
  end.

(** ** Steps *)

Lemma net_assoc {A B C} (o : outcome uproc A) (f : A -> U B) (g : B -> U C) w :
  net (obind (obind o f) g) w = net (obind o (fun a => bind (f a) g)) w.
Proof.
  revert w. induction o as [a s|msg s|s|s k IH|]; intros w; try done. cbn [obind net]. destruct (u_call s); try done;
    try (destruct (syscalls w _); apply IH). rewrite IH. destruct (net (obind (k _) _) w); [apply IH|done].
Qed.

Lemma net_bind {A B C} (c : U A) (f : A -> U B) (g : B -> U C) s w :
  net (bind (bind c f) g s) w = net (bind c (fun a => bind (f a) g) s) w.
Proof. apply net_assoc. Qed.

Lemma net_ecall {B} c (f : answer -> U B) s w : plain_call c = true ->
  exists s', net (bind (ecall c) f s) w = net (f (syscalls w c).1 s') (syscalls w c).2 /\ u_mem s' = u_mem s.
Proof.
  intros Hc. exists (set_u_answer (syscalls w c).1 (set_u_call c s)). split; [|done]. unfold bind, ecall. simpl.
  destruct c; try done; by destruct (syscalls w _).
Qed.

Lemma net_call {B} c (f : Z -> U B) s w : plain_call c = true ->
  exists s', net (bind (call c) f s) w = net (f (syscalls w c).1.1 s') (syscalls w c).2 /\ u_mem s' = u_mem s.
Proof.
  intros Hc. unfold call. rewrite net_bind. destruct (net_ecall c (fun r => bind (ret r.1) f) s w Hc) as (s' & E & M).
  exists s'. by rewrite E, bind_ret.
Qed.

Ltac at_net tac := match goal with |- context [net (bind _ ?g ?s) ?w] => tac g s w end.

Definition set_out (o : list byte) (w : plumbing) : plumbing := Plumbing (pl_fds w) (pl_pipes w) (pl_next w) o.

Lemma net_emits {A B} (c : U A) a o n (f : A -> U B) s w : uemits 1 c a o -> pl_fds w !! 1 = Some (Given n) ->
  exists s', net (bind c f s) w = net (f a s') (set_out (pl_out w ++ o) w) /\ u_mem s' = u_mem s.
Proof.
  intros H. specialize (H s). unfold bind. remember (u_mem s) as m eqn:Hm. clear Hm. revert w.
  induction H as [a t|t k bs a m o Hc H IH]; intros w Hw; cbn [obind net].
  - exists t. rewrite app_nil_r. by destruct w.
  - rewrite Hc. unfold syscalls, plumbing_unix. rewrite Hw.
    destruct (IH (Z.of_nat (length bs), []) (Plumbing (pl_fds w) (pl_pipes w) (pl_next w) (pl_out w ++ bs)) Hw) as (s' & E & M).
    exists s'. split; [|done]. rewrite E. unfold set_out. simpl. by rewrite <- app_assoc.
Qed.

Lemma net_fork {B} (g : Z -> U B) s w : exists s1 s2, u_mem s1 = u_mem s /\ u_mem s2 = u_mem s /\
  net (bind (call Fork) g s) w = match net (g 1 s1) w with Some w1 => net (g 0 s2) (set_fds (pl_fds w) w1) | None => None end.
Proof. eexists (set_u_answer (1, []) (set_u_call Fork s)), (set_u_answer (0, []) (set_u_call Fork s)). done. Qed.

(** ** Numbers through a pipe *)

Definition ints (xs : list Z) : list byte := concat (map (le_split 4) xs).

Definition set_pipe (q : nat) (c : list byte) (w : plumbing) : plumbing := Plumbing (pl_fds w) (<[q := c]> (pl_pipes w)) (pl_next w) (pl_out w).

Lemma net_read_int {B} v (f : Z * Z -> U B) s w x q xs : pl_fds w !! 0 = Some (ReadEnd (x, q)) -> pl_pipes w !! q = Some (ints xs) ->
  Forall (fun x => 0 <= x < 2 ^ 31) xs ->
  exists s' z, net (bind (read_int 0 v) f s) w =
    match xs with [] => net (f (0, z) s') (set_pipe q [] w) | y :: ys => net (f (4, y) s') (set_pipe q (ints ys) w) end.
Proof.
  intros Hfd Hq Hx. unfold read_int, read. rewrite !net_bind.
  at_net ltac:(fun g s w => destruct (net_ecall (Read 0 4) g s w eq_refl) as (s1 & -> & M1)).
  unfold syscalls, plumbing_unix. rewrite Hfd, Hq. cbn [default fst snd]. unfold id. destruct xs as [|y ys].
  - eexists _, _. done.
  - exists (set_u_mem (st_bytes (u_mem s1) v (le_split 4 y)) s1), 0. apply Forall_cons in Hx as [Hy _]. change (ints (y :: ys)) with (le_split 4 y ++ ints ys).
    change (Z.to_nat 4) with 4%nat. rewrite take_app_length', drop_app_length' by (by rewrite length_le_split).
    rewrite length_le_split. unfold stbs. rewrite net_bind, bind_modify, bind_ret. unfold ldw. rewrite net_bind, bind_gets, bind_ret.
    cbn [u_mem set_u_mem]. change (st_bytes (u_mem s1) v (le_split 4 y)) with (st32 (u_mem s1) v y). rewrite ld32_st32, u32_small, s32_small by lia. done.
Qed.

Lemma net_write_int {B} p1 z (f : Z -> U B) s w x q c : pl_fds w !! p1 = Some (WriteEnd (x, q)) -> pl_pipes w !! q = Some c ->
  exists s', net (bind (write_int p1 z) f s) w = net (f 4 s') (set_pipe q (c ++ le_split 4 z) w) /\ u_mem s' = u_mem s.
Proof.
  intros Hfd Hq. unfold write_int. at_net ltac:(fun g s w => destruct (net_call (Write p1 (le_split 4 z)) g s w eq_refl) as (s1 & -> & M1)).
  exists s1. split; [|done]. unfold syscalls, plumbing_unix. rewrite Hfd, Hq. done.
Qed.

(** ** A stage *)

(** The numbers that [prime] does not divide. *)
Definition pass (prime : Z) (xs : list Z) : list Z := List.filter (fun x => negb (Z.rem x prime =? 0)) xs.

Lemma ints_app xs ys : ints (xs ++ ys) = ints xs ++ ints ys.
Proof. unfold ints. by rewrite map_app, concat_app. Qed.

Lemma net_while {A B C} fuel (body : A -> U (A + B)) a (f : B -> U C) s w :
  net (bind (while (S fuel) body a) f s) w =
  net (bind (body a) (fun r => match r with inl a' => bind (while fuel body a') f | inr b => f b end) s) w.
Proof.
  cbn [while]. rewrite net_bind. unfold bind. generalize (body a s). intros o. revert w.
  induction o as [r s'|msg s'|s'|s' k IH|]; intros w; try done.
  - by destruct r.
  - cbn [obind net]. destruct (u_call s'); try done; try (destruct (syscalls w _); apply IH). rewrite !IH. destruct (net _ w); [apply IH|done].
Qed.

Lemma sieve_loop {B} sv prime p1 (f : unit -> U B) q x r y : prime <> 0 -> q <> r ->
  forall fuel xs ys s w, pl_fds w !! 0 = Some (ReadEnd (x, q)) -> pl_fds w !! p1 = Some (WriteEnd (y, r)) ->
  pl_pipes w !! q = Some (ints xs) -> pl_pipes w !! r = Some (ints ys) -> Forall (fun x => 0 <= x < 2 ^ 31) xs -> (length xs < fuel)%nat ->
  exists s' w', net (bind (while fuel (sieve_body sv prime p1) tt) f s) w = net (f tt s') w' /\
    pl_fds w' = pl_fds w /\ pl_next w' = pl_next w /\ pl_out w' = pl_out w /\ pl_pipes w' !! r = Some (ints (ys ++ pass prime xs)).
Proof.
  intros Hp Hqr. induction fuel as [|fuel IH]; intros xs ys s w Hq Hr Pq Pr Hx Hf; [lia|]. rewrite net_while. unfold sieve_body at 1. rewrite net_bind.
  at_net ltac:(fun g s w => destruct (net_read_int (sv_num sv) g s w x q xs Hq Pq Hx) as (s1 & z & ->)). destruct xs as [|n xs].
  - change (0 <? 0) with false. cbn match. rewrite bind_ret. eexists s1, (set_pipe q [] w). split; [done|]. split_and!; [done|done|done|].
    cbn [set_pipe pl_pipes pass List.filter]. by rewrite lookup_insert_ne, app_nil_r by done.
  - change (0 <? 4) with true. cbn match. unfold rem. rewrite (proj2 (Z.eqb_neq prime 0)) by done. rewrite net_bind, bind_ret.
    apply Forall_cons in Hx as [Hn Hx]. simpl in Hf. cbn [pass List.filter]. fold (pass prime xs). destruct (Z.rem n prime =? 0); cbn [negb].
    + rewrite bind_ret. destruct (IH xs ys s1 (set_pipe q (ints xs) w)) as (s' & w' & E & H1 & H2 & H3 & H4); try done; [by apply lookup_insert_eq| |lia|].
      * cbn [set_pipe pl_pipes]. by rewrite lookup_insert_ne by done.
      * exists s', w'. by rewrite E.
    + rewrite net_bind. at_net ltac:(fun g s w => destruct (net_write_int p1 n g s w y r (ints ys)) as (s2 & -> & _));
        [done|cbn [set_pipe pl_pipes]; by rewrite lookup_insert_ne by done|]. change (4 =? 4) with true. cbn [negb]. rewrite bind_ret.
      match goal with |- context [net (bind (while fuel _ tt) f s2) ?w2] => destruct (IH xs (ys ++ [n]) s2 w2) as (s' & w' & E & H1 & H2 & H3 & H4) end; try done.
      * cbn [set_pipe pl_pipes]. by rewrite lookup_insert_ne, lookup_insert_eq by done.
      * cbn [set_pipe pl_pipes]. rewrite lookup_insert_eq, ints_app. change (ints [n]) with (le_split 4 n ++ []). by rewrite app_nil_r.
      * lia.
      * exists s', w'. rewrite E. split_and!; try done. by rewrite H4, <- app_assoc.
Qed.

(** The pipe that a process makes. *)
Lemma net_pipe {B} (f : Z * Z * Z -> U B) s w : ready (pl_fds w) -> let q := pipe_id (pl_next w) in
  exists p0 p1 s' w', net (bind pipe f s) w = net (f (0, p0, p1) s') w' /\ piped (pl_fds w) p0 p1 q (pl_fds w') /\
    pl_pipes w' = <[pl_next w := []]> (pl_pipes w) /\ pl_next w' = S (pl_next w) /\ pl_out w' = pl_out w.
Proof.
  intros [Hstd Hroom] q. unfold pipe. rewrite net_bind. at_net ltac:(fun g s w => destruct (net_ecall Pipe g s w eq_refl) as (s1 & -> & _)).
  set (p0 := free_fd (pl_fds w)). set (m0 := <[p0 := ReadEnd q]> (pl_fds w)). set (p1 := free_fd m0).
  destruct (free_fd_ok (pl_fds w)) as [L0 B0], (free_fd_ok m0) as [L1 B1]. fold p0 in L0, B0. fold p1 in L1, B1.
  assert (Hsz : size m0 = S (size (pl_fds w))) by (apply map_size_insert_None; by destruct L0 as (_ & ? & _)).
  pose proof (lowest_std _ _ Hstd L0). pose proof (lowest_std _ _ (std_insert _ p0 _ Hstd) L1).
  exists p0, p1, s1, (Plumbing (<[p1 := WriteEnd q]> m0) (<[pl_next w := []]> (pl_pipes w)) (S (pl_next w)) (pl_out w)). split; [|split; [|done] ].
  - change (syscalls w Pipe) with ((0, le_split 4 p0 ++ le_split 4 p1), Plumbing (<[p1 := WriteEnd q]> m0) (<[pl_next w := []]> (pl_pipes w)) (S (pl_next w)) (pl_out w)).
    cbn [fst snd]. rewrite bind_ret.
    destruct (pipe_answer p0 p1) as [-> ->]; [unfold NOFILE in *; lia..|]. done.
  - cbn [pl_fds]. destruct L0 as (_ & L0 & _), L1 as (_ & L1 & _). unfold m0 in L1. rewrite lookup_insert_None in L1. destruct L1 as [L1 Hne].
    by repeat split.
Qed.

Lemma net_close {B} fd (f : Z -> U B) s w : exists s', net (bind (call (Close fd)) f s) w = net (f 0 s') (set_fds (delete fd (pl_fds w)) w).
Proof. destruct (net_call (Close fd) f s w eq_refl) as (s' & E & _). by exists s'. Qed.

(** The child reads the pipe as its input. *)
Lemma net_side {B C} (c : U B) (f : B -> U C) m p0 p1 q s w : ready m -> piped m p0 p1 q (pl_fds w) ->
  exists s', net (bind (call (Close p1) ;; call (Close 0) ;; call (Dup p0) ;; call (Close p0) ;; c) f s) w =
    net (bind c f s') (set_fds (<[0 := ReadEnd q]> m) w).
Proof.
  intros [Hm Hroom] Hp. pose proof (piped_ends _ _ _ _ _ Hp) as [R0 R1]. destruct Hp as (F & B0 & B1 & Hne & N0 & N1).
  rewrite net_bind. at_net ltac:(fun g s w => destruct (net_close p1 g s w) as (s1 & ->)).
  rewrite net_bind. at_net ltac:(fun g s w => destruct (net_close 0 g s w) as (s2 & ->)). cbn [pl_fds set_fds].
  set (m2 := delete p1 (pl_fds w)). assert (Hstd : std m2).
  { intros d Hd. unfold m2. rewrite lookup_delete_ne, F by lia. apply (std_insert _ p1 _ (std_insert m p0 _ Hm)), Hd. }
  assert (Hdup : delete 0 m2 !! p0 = Some (ReadEnd q)) by (unfold m2; by rewrite !lookup_delete_ne by lia).
  assert (Hfree : free_fd (delete 0 m2) = 0) by (apply (lowest_closed m2); [done|lia|apply free_fd_ok]).
  rewrite net_bind. at_net ltac:(fun g s w => destruct (net_call (Dup p0) g s w eq_refl) as (s3 & -> & _)).
  unfold syscalls, plumbing_unix. cbn [pl_fds set_fds]. rewrite Hdup, Hfree. cbn [fst snd].
  rewrite net_bind. at_net ltac:(fun g s w => destruct (net_close p0 g s w) as (s4 & ->)). exists s4. cbn [pl_fds set_fds pl_pipes pl_next pl_out].
  unfold set_fds. cbn [pl_pipes pl_next pl_out]. do 2 f_equal. unfold m2. rewrite F. apply map_eq. intros i.
  rewrite !lookup_delete, !lookup_insert. repeat case_decide; subst; try lia; try congruence. rewrite !lookup_delete, !lookup_insert. repeat case_decide; subst; try lia; congruence.
Qed.

(** The numbers that a pipeline prints for an input. *)
Fixpoint sieve_list (fuel : nat) (xs : list Z) : list Z :=
  match fuel, xs with S fuel, p :: xs => p :: sieve_list fuel (pass p xs) | _, _ => [] end.

Definition prime_line (p : Z) : list byte := bytes_of "prime " ++ int_numeral 10 p true ++ [Byte.x0a].

Lemma prime_line_emits p : 0 <= p < 2 ^ 31 -> uemits 1 (printf (line "prime %d") [Num p]) tt (prime_line p).
Proof.
  intros Hp. apply (fprintf_emits 1 (line "prime %d")); [done|]. assert (E : s32 (s32 p) = p) by (rewrite s32_s32; apply s32_small; lia).
  unfold prime_line. rewrite <- E at 2. reflexivity.
Qed.

Lemma pass_Forall (Q : Z -> Prop) p xs : Forall Q xs -> Forall Q (pass p xs) /\ (length (pass p xs) <= length xs)%nat.
Proof.
  intros H. split; [|apply List.filter_length_le]. apply Forall_forall. intros x Hx. rewrite Forall_forall in H. apply H.
  apply list_elem_of_In in Hx. apply List.filter_In in Hx as [Hx _]. by apply list_elem_of_In.
Qed.

Lemma net_wait {B} (f : Z -> U B) s w : exists s', net (bind (call Wait) f s) w = net (f 0 s') w.
Proof. destruct (net_call Wait f s w eq_refl) as (s' & E & _). by exists s'. Qed.

Lemma sieve_net {B} bound sv (f : unit -> U B) : forall fuel xs s w q x n, ready (pl_fds w) -> pl_fds w !! 0 = Some (ReadEnd (x, q)) ->
  pl_fds w !! 1 = Some (Given n) -> pl_pipes w !! q = Some (ints xs) -> (q < pl_next w)%nat -> Forall (fun x => 2 <= x < 2 ^ 31) xs ->
  (length xs < fuel)%nat -> (length xs < bound)%nat ->
  exists w', net (bind (sieve bound sv fuel) f s) w = Some w' /\ pl_out w' = pl_out w ++ flat_map prime_line (sieve_list fuel xs).
Proof.
  intros fuel. revert f. induction fuel as [|fuel IH]; intros f xs s w q x n Hr H0 H1 Hq Hlt Hxs Hf Hb; [lia|]. cbn [sieve]. rewrite net_bind.
  assert (Hxs' : Forall (fun x => 0 <= x < 2 ^ 31) xs) by (eapply Forall_impl; [exact Hxs|]; simpl; intros; lia).
  at_net ltac:(fun g s w => destruct (net_read_int (sv_prime sv) g s w x q xs H0 Hq Hxs') as (s1 & z & ->)). destruct xs as [|p xs].
  { exists (set_pipe q [] w). split; [done|]. by rewrite app_nil_r. }
  change (4 =? 0) with false. cbn match. apply Forall_cons in Hxs as [Hp Hxs], Hxs' as [_ Hxs']. rewrite net_bind.
  at_net ltac:(fun g s w => destruct (net_emits _ tt _ n g s w (prime_line_emits p ltac:(lia)) H1) as (s2 & -> & _)).
  rewrite net_bind. at_net ltac:(fun g s w => destruct (net_pipe g s w Hr) as (p0 & p1 & s3 & w3 & -> & Hpip & Pi3 & Nx3 & Ou3)).
  cbn [set_out set_pipe pl_fds pl_pipes pl_next pl_out] in *. change (0 <? 0) with false. cbn match. rewrite net_bind.
  destruct (piped_ends _ _ _ _ _ Hpip) as [R0 R1]. pose proof Hpip as (F3 & B0 & B1 & Hne & N0 & N1).
  at_net ltac:(fun g s w => destruct (net_fork g s w) as (s4 & s5 & _ & _ & ->)). change (1 =? 0) with false. change (0 =? 0) with true. cbn match.
  (* the parent *)
  do 2 rewrite net_bind. at_net ltac:(fun g s w => destruct (net_close p0 g s w) as (s6 & ->)). rewrite net_bind.
  at_net ltac:(fun g s w' => destruct (sieve_loop sv p p1 g q x (pl_next w) [] ltac:(lia) ltac:(lia) bound xs [] s w') as (s7 & w7 & -> & F7 & Nx7 & Ou7 & Pi7)).
  { cbn [pl_fds set_fds]. by rewrite lookup_delete_ne, F3, !lookup_insert_ne by lia. }
  { cbn [pl_fds set_fds]. rewrite lookup_delete_ne by lia. exact R1. }
  { cbn [pl_pipes set_fds]. rewrite Pi3, lookup_insert_ne, lookup_insert_eq by lia. done. }
  { cbn [pl_pipes set_fds]. by rewrite Pi3, lookup_insert_eq. }
  { done. }
  { simpl in Hb. lia. }
  rewrite net_bind. at_net ltac:(fun g s w => destruct (net_close p1 g s w) as (s8 & ->)).
  rewrite net_bind. at_net ltac:(fun g s w => destruct (net_wait g s w) as (s9 & ->)). rewrite bind_ret.
  cbn [net exit u_call set_u_call bind obind]. cbn [pl_next set_fds] in Nx7.
  (* the child *)
  rewrite net_bind. at_net ltac:(fun g s w' => destruct (net_side (sieve bound sv fuel) g (pl_fds w) p0 p1 (pipe_id (pl_next w)) s w' Hr) as (s10 & ->)); [done|].
  destruct (pass_Forall _ p xs Hxs) as [Hxs2 Hlen]. simpl in Hf, Hb.
  at_net ltac:(fun g s w' => destruct (IH g (pass p xs) s w' (pl_next w) [] n) as (wf & -> & Ow)); cbn [set_fds pl_fds pl_pipes pl_next pl_out].
  { apply ready_insert; [lia|done]. }
  { apply lookup_insert_eq. }
  { by rewrite lookup_insert_ne by lia. }
  { exact Pi7. }
  { lia. }
  { done. }
  { lia. }
  { lia. }
  eexists. split; [done|]. rewrite Ow. cbn [set_fds pl_out sieve_list flat_map]. cbn [set_fds pl_out] in Ou7. by rewrite Ou7, Ou3, <- app_assoc.
Qed.

(** ** The sieve of Eratosthenes *)

Lemma pass_spec p xs x : p <> 0 -> x ∈ pass p xs <-> x ∈ xs /\ ~ (p | x).
Proof.
  intros Hp. unfold pass. rewrite !list_elem_of_In, List.filter_In, negb_true_iff, Z.eqb_neq, Z.rem_divide by done. done.
Qed.

Lemma pass_sorted p xs : StronglySorted Z.lt xs -> StronglySorted Z.lt (pass p xs).
Proof.
  induction 1 as [|y ys Hs IH Hy]; [constructor|]. cbn [pass List.filter]. destruct (negb _); [|done]. constructor; [done|].
  by apply (pass_Forall _ p).
Qed.

(** The first number and what is left of the rest: those that no smaller one divides. *)
Lemma sieve_list_spec fuel : forall xs, StronglySorted Z.lt xs -> Forall (fun x => 2 <= x) xs -> (length xs <= fuel)%nat ->
  StronglySorted Z.lt (sieve_list fuel xs) /\ forall x, x ∈ sieve_list fuel xs <-> x ∈ xs /\ forall y, y ∈ xs -> y < x -> ~ (y | x).
Proof.
  induction fuel as [|fuel IH]; intros xs Hs H2 Hl; (destruct xs as [|p xs]; [cbn [sieve_list]; split; [constructor|]; intros x; rewrite elem_of_nil; tauto|]); [simpl in Hl; lia|].
  apply StronglySorted_inv in Hs as [Hs Hp]. apply Forall_cons in H2 as [Hp2 H2]. cbn [sieve_list]. simpl in Hl.
  destruct (pass_Forall _ p xs H2) as [H2' Hl']. destruct (IH (pass p xs) (pass_sorted p xs Hs) H2' ltac:(lia)) as [Hs' Hx].
  assert (Hlt : forall x, x ∈ xs -> p < x) by (by rewrite Forall_forall in Hp). split.
  - constructor; [done|]. apply Forall_forall. intros x Hin. apply Hx in Hin as [Hin _]. apply pass_spec in Hin as [Hin _]; [by apply Hlt|lia].
  - intros x. rewrite !elem_of_cons, Hx, pass_spec by lia. split.
    + intros [->|[[Hin Hd] Hall]].
      * split; [by left|]. intros y [->|Hy]%elem_of_cons Hyx; [lia|]. specialize (Hlt y Hy). lia.
      * split; [by right|]. intros y [->|Hy]%elem_of_cons Hyx; [done|]. intros Hyd. apply (Hall y); [|done|done]. apply pass_spec; [lia|].
        split; [done|]. intros Hpy. by apply Hd, (Z.divide_trans _ y).
    + intros [[->|Hin] Hall]; [by left|]. right. split.
      * split; [done|]. apply Hall; [by left|by apply Hlt].
      * intros y Hy. apply Hall. right. by apply pass_spec in Hy as [Hy _]; [|lia].
Qed.

Definition numbers : list Z := map Z.of_nat (seq 2 279).

Lemma numbers_spec x : x ∈ numbers <-> 2 <= x <= 280.
Proof.
  unfold numbers. rewrite list_elem_of_In, in_map_iff. split.
  - intros (n & <- & Hn%in_seq). lia.
  - intros Hx. exists (Z.to_nat x). split; [lia|]. apply in_seq. lia.
Qed.

Lemma seq_sorted n : forall k, StronglySorted Z.lt (map Z.of_nat (seq k n)).
Proof.
  induction n as [|n IH]; intros k; [constructor|]. cbn [seq map]. constructor; [apply IH|]. apply Forall_forall. intros x Hx.
  apply list_elem_of_In, in_map_iff in Hx as (i & <- & Hi%in_seq). lia.
Qed.

Lemma sieve_primes fuel : (279 <= fuel)%nat -> StronglySorted Z.lt (sieve_list fuel numbers) /\
  forall x, x ∈ sieve_list fuel numbers <-> x <= 280 /\ prime x.
Proof.
  intros Hf. destruct (sieve_list_spec fuel numbers) as [Hs Hx]; [apply seq_sorted| |by unfold numbers; rewrite length_map, length_seq|].
  { apply Forall_forall. intros x Hx%numbers_spec. lia. }
  split; [done|]. intros x. rewrite Hx, numbers_spec, <- prime_alt. unfold Z.prime. setoid_rewrite numbers_spec. split.
  - intros [Hr Hall]. split; [lia|]. split; [lia|]. intros y Hy. apply Hall; lia.
  - intros (Hle & H1 & Hall). split; [lia|]. intros y Hy Hyx. apply Hall. lia.
Qed.

(** ** The program *)

(** What [main] does for each number. *)
Definition send (p1 i : Z) : U unit :=
  let! r := write_int p1 i in
  if negb (r =? 4) then
    fprintf 2 (line "primes: main write error") [] ;;
    exit 1
  else ret tt.

Lemma net_send {B} p1 y q (f : unit -> U B) : forall xs ys s w, pl_fds w !! p1 = Some (WriteEnd (y, q)) -> pl_pipes w !! q = Some (ints ys) ->
  exists s' w', net (bind (forM xs (send p1)) f s) w = net (f tt s') w' /\ pl_fds w' = pl_fds w /\ pl_next w' = pl_next w /\ pl_out w' = pl_out w /\
    pl_pipes w' !! q = Some (ints (ys ++ xs)).
Proof.
  induction xs as [|x xs IH]; intros ys s w Hfd Hq; cbn [forM].
  - exists s, w. by rewrite bind_ret, app_nil_r.
  - rewrite net_bind. unfold send at 1. rewrite net_bind. at_net ltac:(fun g s w => destruct (net_write_int p1 x g s w y q (ints ys) Hfd Hq) as (s1 & -> & _)).
    change (4 =? 4) with true. cbn [negb]. rewrite bind_ret.
    match goal with |- context [net (bind (forM xs _) f s1) ?w1] => destruct (IH (ys ++ [x]) s1 w1) as (s' & w' & E & H1 & H2 & H3 & H4) end.
    + done.
    + cbn [set_pipe pl_pipes]. rewrite lookup_insert_eq, ints_app. change (ints [x]) with (le_split 4 x ++ []). by rewrite app_nil_r.
    + exists s', w'. rewrite E. split_and!; try done. by rewrite H4, <- app_assoc.
Qed.

Lemma numbers_range : Forall (fun x => 2 <= x < 2 ^ 31) numbers.
Proof. apply Forall_forall. intros x Hx%numbers_spec. lia. Qed.

Lemma primes_net bound sv s w n : ready (pl_fds w) -> pl_fds w !! 1 = Some (Given n) -> (300 <= bound)%nat ->
  exists w', net (primes_main bound sv s) w = Some w' /\ pl_out w' = pl_out w ++ flat_map prime_line (sieve_list bound numbers).
Proof.
  intros Hr H1 Hb. unfold primes_main. at_net ltac:(fun g s w => destruct (net_pipe g s w Hr) as (p0 & p1 & s3 & w3 & -> & Hpip & Pi3 & Nx3 & Ou3)).
  destruct (piped_ends _ _ _ _ _ Hpip) as [R0 R1]. pose proof Hpip as (F3 & B0 & B1 & Hne & N0 & N1).
  at_net ltac:(fun g s w => destruct (net_fork g s w) as (s4 & s5 & _ & _ & ->)). change (1 =? 0) with false. change (0 =? 0) with true. cbn match.
  rewrite net_bind. at_net ltac:(fun g s w => destruct (net_close p0 g s w) as (s6 & ->)). rewrite net_bind. fold (send p1). fold numbers.
  at_net ltac:(fun g s w' => destruct (net_send p1 [] (pl_next w) g numbers [] s w') as (s7 & w7 & -> & F7 & Nx7 & Ou7 & Pi7)).
  { cbn [pl_fds set_fds]. rewrite lookup_delete_ne by lia. exact R1. }
  { cbn [pl_pipes set_fds]. by rewrite Pi3, lookup_insert_eq. }
  rewrite net_bind. at_net ltac:(fun g s w => destruct (net_close p1 g s w) as (s8 & ->)).
  rewrite net_bind. at_net ltac:(fun g s w => destruct (net_wait g s w) as (s9 & ->)). rewrite bind_ret.
  cbn [net exit u_call set_u_call]. cbn [pl_next set_fds] in Nx7.
  at_net ltac:(fun g s w' => destruct (net_side (sieve bound sv bound) g (pl_fds w) p0 p1 (pipe_id (pl_next w)) s w' Hr) as (s10 & ->)); [done|].
  at_net ltac:(fun g s w' => destruct (sieve_net bound sv g bound numbers s w' (pl_next w) [] n) as (wf & -> & Ow)); cbn [set_fds pl_fds pl_pipes pl_next pl_out].
  { apply ready_insert; [lia|done]. }
  { apply lookup_insert_eq. }
  { by rewrite lookup_insert_ne by lia. }
  { exact Pi7. }
  { lia. }
  { apply numbers_range. }
  { unfold numbers. rewrite length_map, length_seq. lia. }
  { unfold numbers. rewrite length_map, length_seq. lia. }
  eexists. split; [done|]. rewrite Ow. cbn [set_fds pl_out]. cbn [set_fds pl_out] in Ou7. by rewrite Ou7, Ou3.
Qed.



End Primes.
