(* ===== verification/Grind.v ===== *)
(** * [user/grind.c]

    The program that makes random system calls for ever, and its random numbers.
    The theorems are about the generator: [do_rand] computes the product of
    [7^5] and the seed modulo [2^31 - 1] as its comment says, and the numbers of
    [rand] run through all values of their range, each once, before they
    repeat. *)

From Stdlib Require Import Znumtheory Zpow_facts.
From S2P Require Import Prelude Riscv Memory CString Block Uart Printf User UserPrintf Umalloc Programs.
Import User.Ulib UserPrintf.UPrintf Programs.Programs.

Module Grind.

(** The addresses of [rand_next] and of the variables of [go] and [iter], and of
    the string that the output of the pipeline is compared with. *)
Record grind_vars := GrindVars {
  gv_next : Z; gv_buf : Z; gv_st : Z; gv_c : Z; gv_out : Z; gv_hi : Z; gv_st1 : Z; gv_st2 : Z }.

Section Grind.
Variables (bound : nat) (gv : grind_vars).

Definition std (p v : Z) : U unit := modify (fun s => set_u_mem (st64 (u_mem s) p v) s).

Definition stw (p v : Z) : U unit := modify (fun s => set_u_mem (st32 (u_mem s) p v) s).

(** [wait(&status)], where [st] is the address of [status]. *)
Definition wait_status (st : Z) : U Z :=
  let! r := ecall Wait in
  stbs st r.2 ;;
  ret r.1.

(** ** Random numbers *)

Definition do_rand (ctx : Z) : U Z :=
  let! c := ldd ctx in
  (* Transform to [1, 0x7ffffffe] range. *)
  let x := c mod 0x7ffffffe + 1 in
  let hi := Z.quot x 127773 in
  let lo := Z.rem x 127773 in
  let x := 16807 * lo - 2836 * hi in
  let x := if x <? 0 then x + 0x7fffffff else x in
  (* Transform to [0, 0x7ffffffd] range. *)
  let x := x - 1 in
  std ctx (u64 x) ;;
  ret (s32 x).

Definition rand : U Z := do_rand (gv_next gv).

(** ** The system calls *)

Definition create_close (path : string) : U unit :=
  let! fd := call (Open (bytes_of path) (Z.lor O_CREATE O_RDWR)) in
  call (Close fd) ;;
  ret tt.

(** [printf] or [fprintf] of a message, and [exit]. *)
Definition fail {A} (fd : Z) (msg : string) (status : Z) : U A :=
  fprintf fd (line msg) [] ;;
  exit status.

(** A [fork] whose child runs [child] and exits; the parent goes on with the pid. *)
Definition fork_child (child : U unit) : U Z :=
  let! pid := call Fork in
  if pid =? 0 then child ;; exit 0
  else if pid <? 0 then fail 1 "grind: fork failed" 1
  else ret pid.

Definition go_pipe : U unit :=
  let! (r, f0, f1) := pipe in
  if r <? 0 then fail 1 "grind: pipe failed" 1 else
  fork_child (
    call Fork ;;
    call Fork ;;
    let! n := call (Write f1 (bytes_of "x")) in
    (if negb (n =? 1) then printf (line "grind: pipe write failed") [] else ret tt) ;;
    let! n := read f0 (gv_c gv) 1 in
    (if negb (n =? 1) then printf (line "grind: pipe read failed") [] else ret tt)) ;;
  call (Close f0) ;;
  call (Close f1) ;;
  call Wait ;;
  ret tt.

Definition go_create : U unit :=
  call (Unlink (bytes_of "c")) ;;
  (* should always succeed. check that there are free i-nodes,
     file descriptors, blocks. *)
  let! fd1 := call (Open (bytes_of "c") (Z.lor O_CREATE O_RDWR)) in
  if fd1 <? 0 then fail 1 "grind: create c failed" 1 else
  let! n := call (Write fd1 (bytes_of "x")) in
  if negb (n =? 1) then fail 1 "grind: write c failed" 1 else
  let! r := fstat fd1 (gv_st gv) in
  if negb (r =? 0) then fail 1 "grind: fstat failed" 1 else
  let! size := st_size (gv_st gv) in
  if negb (size =? 1) then
    printf (line "grind: fstat reports wrong size %d") [Num (s32 size)] ;;
    exit 1
  else
  let! ino := st_ino (gv_st gv) in
  if 200 <? ino then
    printf (line "grind: fstat reports crazy i-number %d") [Num ino] ;;
    exit 1
  else
  call (Close fd1) ;;
  call (Unlink (bytes_of "c")) ;;
  ret tt.

(** echo hi | cat *)
Definition go_echo (a0 a1 b0 b1 : Z) : U unit :=
  call (Close b0) ;;
  call (Close b1) ;;
  call (Close a0) ;;
  call (Close 1) ;;
  let! d := call (Dup a1) in
  if negb (d =? 1) then fail 2 "grind: dup failed" 1 else
  call (Close a1) ;;
  call (Exec (bytes_of "grindir/../echo") [bytes_of "echo"; bytes_of "hi"]) ;;
  fail 2 "grind: echo: not found" 2.

Definition go_cat (a0 a1 b0 b1 : Z) : U unit :=
  call (Close a1) ;;
  call (Close b0) ;;
  call (Close 0) ;;
  let! d := call (Dup a0) in
  if negb (d =? 0) then fail 2 "grind: dup failed" 4 else
  call (Close a0) ;;
  call (Close 1) ;;
  let! d := call (Dup b1) in
  if negb (d =? 1) then fail 2 "grind: dup failed" 5 else
  call (Close b1) ;;
  call (Exec (bytes_of "/cat") [bytes_of "cat"]) ;;
  fail 2 "grind: cat: not found" 6.

Definition QUOTE : string := String (Ascii.ascii_of_nat 34) EmptyString.

Definition go_pipeline : U unit :=
  let! (r, a0, a1) := pipe in
  if r <? 0 then fail 2 "grind: pipe failed" 1 else
  let! (r, b0, b1) := pipe in
  if r <? 0 then fail 2 "grind: pipe failed" 1 else
  let! pid1 := call Fork in
  if pid1 =? 0 then go_echo a0 a1 b0 b1
  else if pid1 <? 0 then fail 2 "grind: fork failed" 3 else
  let! pid2 := call Fork in
  if pid2 =? 0 then go_cat a0 a1 b0 b1
  else if pid2 <? 0 then fail 2 "grind: fork failed" 7 else
  call (Close a0) ;;
  call (Close a1) ;;
  call (Close b1) ;;
  let buf := gv_out gv in
  stbs buf [Byte.x00; Byte.x00; Byte.x00; Byte.x00] ;;
  read b0 (buf + 0) 1 ;;
  read b0 (buf + 1) 1 ;;
  read b0 (buf + 2) 1 ;;
  call (Close b0) ;;
  wait_status (gv_st1 gv) ;;
  wait_status (gv_st2 gv) ;;
  let! st1 := ldw (gv_st1 gv) in
  let! st2 := ldw (gv_st2 gv) in
  let! bad := if negb (s32 st1 =? 0) then ret true else if negb (s32 st2 =? 0) then ret true
    else let! c := strcmp bound buf (gv_hi gv) in ret (negb (c =? 0)) in
  if bad then
    let! out := cstring bound buf in
    printf (line ("grind: exec pipeline failed %d %d " ++ QUOTE ++ "%s" ++ QUOTE)) [Num (s32 st1); Num (s32 st2); Str (Some out)] ;;
    exit 1
  else ret tt.

(** What [go] does for the number [what], and the new [fd]. *)
Definition go_case (break0 what fd : Z) : U Z :=
  let same (c : U unit) := c ;; ret fd in
  if what =? 1 then same (create_close "grindir/../a")
  else if what =? 2 then same (create_close "grindir/../grindir/../b")
  else if what =? 3 then same (call (Unlink (bytes_of "grindir/../a")) ;; ret tt)
  else if what =? 4 then
    let! r := call (Chdir (bytes_of "grindir")) in
    if negb (r =? 0) then fail 1 "grind: chdir grindir failed" 1 else
    same (call (Unlink (bytes_of "../b")) ;; call (Chdir (bytes_of "/")) ;; ret tt)
  else if what =? 5 then
    call (Close fd) ;;
    call (Open (bytes_of "/grindir/../a") (Z.lor O_CREATE O_RDWR))
  else if what =? 6 then
    call (Close fd) ;;
    call (Open (bytes_of "/./grindir/./../b") (Z.lor O_CREATE O_RDWR))
  else if what =? 7 then same (write fd (gv_buf gv) 999 ;; ret tt)
  else if what =? 8 then same (read fd (gv_buf gv) 999 ;; ret tt)
  else if what =? 9 then
    same (call (Mkdir (bytes_of "grindir/../a")) ;; create_close "a/../a/./a" ;; call (Unlink (bytes_of "a/a")) ;; ret tt)
  else if what =? 10 then
    same (call (Mkdir (bytes_of "/../b")) ;; create_close "grindir/../b/b" ;; call (Unlink (bytes_of "b/b")) ;; ret tt)
  else if what =? 11 then
    same (call (Unlink (bytes_of "b")) ;; call (Link (bytes_of "../grindir/./../a") (bytes_of "../b")) ;; ret tt)
  else if what =? 12 then
    same (call (Unlink (bytes_of "../grindir/../a")) ;; call (Link (bytes_of ".././b") (bytes_of "/grindir/../a")) ;; ret tt)
  else if what =? 13 then same (fork_child (ret tt) ;; call Wait ;; ret tt)
  else if what =? 14 then same (fork_child (call Fork ;; call Fork ;; ret tt) ;; call Wait ;; ret tt)
  else if what =? 15 then same (Umalloc.sbrk 6011 ;; ret tt)
  else if what =? 16 then
    let! top := Umalloc.sbrk 0 in
    if break0 <? top then same (let! top := Umalloc.sbrk 0 in Umalloc.sbrk (- (top - break0)) ;; ret tt) else ret fd
  else if what =? 17 then
    let! pid := fork_child (create_close "a") in
    let! r := call (Chdir (bytes_of "../grindir/..")) in
    if negb (r =? 0) then fail 1 "grind: chdir failed" 1 else
    same (call (Kill pid) ;; call Wait ;; ret tt)
  else if what =? 18 then same (fork_child (let! me := call Getpid in call (Kill me) ;; ret tt) ;; call Wait ;; ret tt)
  else if what =? 19 then same go_pipe
  else if what =? 20 then
    same (fork_child (
      call (Unlink (bytes_of "a")) ;;
      call (Mkdir (bytes_of "a")) ;;
      call (Chdir (bytes_of "a")) ;;
      call (Unlink (bytes_of "../a")) ;;
      call (Open (bytes_of "x") (Z.lor O_CREATE O_RDWR)) ;;
      call (Unlink (bytes_of "x")) ;;
      ret tt) ;;
      call Wait ;;
      ret tt)
  else if what =? 21 then same go_create
  else if what =? 22 then same go_pipeline
  else ret fd.

Definition go_body (which_child break0 : Z) : Z * Z -> U (Z * Z + unit) := fun '(iters, fd) =>
  let iters := u64 (iters + 1) in
  (if iters mod 500 =? 0 then call (Write 1 (bytes_of (if negb (which_child =? 0) then "B" else "A"))) ;; ret tt else ret tt) ;;
  let! r := rand in
  let! fd := go_case break0 (Z.rem r 23) fd in
  ret (inl (iters, fd)).

Definition go (which_child : Z) : U unit :=
  let! break0 := Umalloc.sbrk 0 in
  call (Mkdir (bytes_of "grindir")) ;;
  let! r := call (Chdir (bytes_of "grindir")) in
  if negb (r =? 0) then fail 1 "grind: chdir grindir failed" 1 else
  call (Chdir (bytes_of "/")) ;;
  while bound (go_body which_child break0) (0, -1).

Definition set_seed (f : Z -> Z) : U unit := let! r := ldd (gv_next gv) in std (gv_next gv) (u64 (f r)).

Definition iter : U unit :=
  call (Unlink (bytes_of "a")) ;;
  call (Unlink (bytes_of "b")) ;;
  let! pid1 := call Fork in
  if pid1 <? 0 then fail 1 "grind: fork failed" 1
  else if pid1 =? 0 then
    set_seed (fun r => Z.lxor r 31) ;;
    go 0 ;;
    exit 0
  else
  let! pid2 := call Fork in
  if pid2 <? 0 then fail 1 "grind: fork failed" 1
  else if pid2 =? 0 then
    set_seed (fun r => Z.lxor r 7177) ;;
    go 1 ;;
    exit 0
  else
  stw (gv_st1 gv) (u32 (-1)) ;;
  wait_status (gv_st1 gv) ;;
  let! st1 := ldw (gv_st1 gv) in
  (if negb (s32 st1 =? 0) then call (Kill pid1) ;; call (Kill pid2) ;; ret tt else ret tt) ;;
  stw (gv_st2 gv) (u32 (-1)) ;;
  wait_status (gv_st2 gv) ;;
  exit 0.

Definition main_round (_ : unit) : U (unit + unit) :=
  let! pid := call Fork in
  if pid =? 0 then iter ;; exit 0 else
  (if 0 <? pid then call Wait ;; ret tt else ret tt) ;;
  call (Sleep 20) ;;
  set_seed (fun r => r + 1) ;;
  ret (inl tt).

Definition grind_main : U unit := while bound main_round tt.

End Grind.

(** ** The modulus and the multiplier *)

Definition P : Z := 2 ^ 31 - 1.

Definition A : Z := 7 ^ 5.

(** None of the [n] numbers from [d] divides [p]. *)
Fixpoint undivided (n : nat) (d p : Z) : bool :=
  match n with
  | O => true
  | S n => negb (p mod d =? 0) && undivided n (d + 1) p
  end.

Lemma undivided_spec n p : forall d e, undivided n d p = true -> d <= e < d + Z.of_nat n -> p mod e <> 0.
Proof.
  induction n as [|n IH]; intros d e H He; [lia|]. cbn [undivided] in H. apply andb_true_iff in H as [H1%negb_true_iff%Z.eqb_neq H2].
  destruct (decide (e = d)) as [->|]; [done|]. apply (IH _ _ H2). lia.
Qed.

Lemma undivided_prime n p : 1 < p -> p < (Z.of_nat n + 2) * (Z.of_nat n + 2) -> undivided n 2 p = true -> Z.prime p.
Proof.
  intros Hp Hk H. split; [done|]. intros d Hd [q E].
  assert (Hno : forall e f, p = e * f -> 1 < e < 2 + Z.of_nat n -> False).
  { intros e f Ee He. apply (undivided_spec n p 2 e H); [lia|]. rewrite Ee, Z.mul_comm. apply Z_mod_mult. }
  assert (Hq : 1 < q) by nia. destruct (decide (d < 2 + Z.of_nat n)).
  - apply (Hno d q); lia.
  - apply (Hno q d); [done|]. split; [done|]. nia.
Qed.

Lemma P_prime : Z.prime P.
Proof. apply (undivided_prime (Z.to_nat (Z.sqrt P - 1))); vm_compute; reflexivity. Qed.

Lemma A_small x : 0 < x < P -> ~ (P | x).
Proof. intros Hx H%Z.divide_pos_le; lia. Qed.

Lemma prime_divisor n : 1 < n -> exists r, Z.prime r /\ (r | n).
Proof.
  revert n. apply (well_founded_ind (Z.lt_wf 0) (fun n => 1 < n -> exists r, Z.prime r /\ (r | n))). intros n IH Hn. destruct (prime_dec n) as [H|H].
  - exists n. split; [by apply prime_alt|apply Z.divide_refl].
  - destruct (not_prime_divide n Hn H) as (m & Hm & Hd). destruct (IH m) as (r & Hr & Hrm); [lia|lia|]. exists r. split; [done|].
    by eapply Z.divide_trans.
Qed.

(** The prime factors of [P - 1]. *)
Definition factors : list Z := [2; 3; 3; 7; 11; 31; 151; 331].

Lemma factors_prime q : In q factors -> Z.prime q.
Proof. simpl. intros H. repeat destruct H as [<-|H]; [..|done];
  match goal with |- Z.prime ?q => apply (undivided_prime (Z.to_nat (Z.sqrt q - 1))) end; vm_compute; reflexivity. Qed.

Lemma divides_factor r : Z.prime r -> (r | P - 1) -> In r factors.
Proof.
  intros Hr H. assert (E : P - 1 = fold_right Z.mul 1 factors) by reflexivity. rewrite E in H.
  assert (HF : forall l, (forall q, In q l -> Z.prime q) -> (r | fold_right Z.mul 1 l) -> In r l).
  { induction l as [|q l IH]; cbn [fold_right In]; intros Hl Hd.
    - apply Z.divide_1_r_nonneg in Hd; [subst r|]; destruct Hr; lia.
    - apply Z.divide_prime_mul in Hd as [Hd|Hd]; [left|right|done].
      + symmetry. apply Z.divide_prime_prime; auto.
      + apply IH; auto. }
  apply HF; [apply factors_prime|done].
Qed.

(** ** The order of the multiplier *)

(** [A] to the power of [e] is 1 modulo [P]. *)
Definition unit_power (e : Z) : Prop := A ^ e mod P = 1.

Lemma unit_power_compute e : Zpow_mod A e P = A ^ e mod P.
Proof. apply Zpow_mod_correct. done. Qed.

Lemma unit_power_mul e k : 0 <= e -> 0 <= k -> unit_power e -> unit_power (e * k).
Proof.
  intros He Hk H. unfold unit_power in *. rewrite Z.pow_mul_r by done. rewrite Zpower_mod by done. rewrite H. by rewrite Z.pow_1_l, Z.mod_1_l.
Qed.

Lemma unit_power_add e f : 0 <= e -> 0 <= f -> unit_power e -> unit_power (e + f) <-> unit_power f.
Proof. intros He Hf H. unfold unit_power in *. rewrite Z.pow_add_r by done. by rewrite Zmult_mod, H, Z.mul_1_l, Z.mod_mod. Qed.

Lemma unit_power_gcd e : 0 <= e -> forall d, 0 < d -> unit_power d -> unit_power e -> unit_power (Z.gcd d e).
Proof.
  revert e. apply (well_founded_ind (Z.lt_wf 0) (fun e => 0 <= e -> forall d, 0 < d -> unit_power d -> unit_power e -> unit_power (Z.gcd d e))).
  intros e IH He d Hd H1 H2. destruct (decide (e = 0)) as [->|Hne]; [by rewrite Z.gcd_0_r, Z.abs_eq by lia|].
  rewrite Z.gcd_comm, <- Z.gcd_mod, Z.gcd_comm by done. pose proof (Z.mod_pos_bound d e). apply IH; try lia; try done.
  rewrite (Z.div_mod d e) in H1 by done. apply unit_power_add in H1; [done| | |]; [|lia|].
  - apply Z.mul_nonneg_nonneg; [lia|]. apply Z.div_pos; lia.
  - apply unit_power_mul; [lia| |done]. apply Z.div_pos; lia.
Qed.

Lemma unit_power_times e x : unit_power e -> (A ^ e * x) mod P = x mod P.
Proof. intros H. unfold unit_power in H. by rewrite Zmult_mod, H, Z.mul_1_l, Z.mod_mod. Qed.

Lemma unit_power_P : unit_power (P - 1).
Proof. unfold unit_power. rewrite <- unit_power_compute. vm_compute. reflexivity. Qed.

Lemma unit_power_order d : 0 < d -> unit_power d -> (P - 1 | d).
Proof.
  intros Hd H. pose proof unit_power_P as HN.
  pose proof (unit_power_gcd (P - 1) ltac:(unfold P; lia) d Hd H HN) as Hg. set (g := Z.gcd d (P - 1)) in *.
  assert (Hgd : (g | d)) by apply Z.gcd_divide_l. assert (HgN : (g | P - 1)) by apply Z.gcd_divide_r.
  assert (Hg0 : 0 < g) by (pose proof (Z.gcd_nonneg d (P - 1)); assert (g <> 0) by (intros E; apply Z.gcd_eq_0 in E; lia); lia).
  destruct (decide (g = P - 1)) as [E|Hne]; [by rewrite <- E|exfalso]. destruct HgN as [k Ek].
  assert (HP : 0 < P - 1) by done.
  assert (Hk : 1 < k) by (clear - Ek Hne HP Hg0; generalize dependent (P - 1); intros; destruct (decide (k = 1)); nia). destruct (prime_divisor k Hk) as (r & Hr & [j Ej]).
  assert (Hin : In r factors) by (apply divides_factor; [done|]; exists (j * g); rewrite Ek, Ej; ring).
  assert (Hr1 : 1 < r) by apply Hr. assert (Hj : 0 <= j) by (clear - Hk Hr1 Ej; nia).
  assert (Hu : unit_power ((P - 1) / r)).
  { replace ((P - 1) / r) with (g * j); [apply unit_power_mul; [lia|done|done]|]. rewrite Ek, Ej.
    replace (j * r * g) with (g * j * r) by ring. rewrite Z.div_mul; [done|lia]. }
  unfold unit_power in Hu. rewrite <- unit_power_compute in Hu. clear - Hin Hu. simpl in Hin.
  repeat destruct Hin as [<-|Hin]; [..|done]; vm_compute in Hu; discriminate.
Qed.

(** ** The generator *)

(** [x / 127773] and [x mod 127773] give the product without its multiple of [P]. *)
Lemma schrage x : 0 < x < P ->
  let y := 16807 * Z.rem x 127773 - 2836 * Z.quot x 127773 in
  - P < y < P /\ (if y <? 0 then y + 0x7fffffff else y) = (A * x) mod P.
Proof.
  intros Hx y. pose proof (Z.quot_rem' x 127773) as E. pose proof (Z.rem_bound_pos x 127773 ltac:(lia) ltac:(lia)) as Hr.
  pose proof (Z.quot_pos x 127773 ltac:(lia) ltac:(lia)) as Hq. set (hi := Z.quot x 127773) in *. set (lo := Z.rem x 127773) in *.
  assert (Hh : hi <= 16807) by (unfold P in *; lia). assert (Hy : - P < y < P) by (unfold P, y in *; lia). split; [done|].
  assert (EA : A * x = P * hi + y) by (unfold y; change A with 16807; change P with 2147483647; lia).
  destruct (Z.ltb_spec y 0).
  - apply (Z.mod_unique_pos _ _ (hi - 1)); [unfold P in *; lia|]. rewrite EA. change 0x7fffffff with P. lia.
  - apply (Z.mod_unique_pos _ _ hi); lia.
Qed.

Lemma product_range x y : 0 < x < P -> 0 < y < P -> 0 < (x * y) mod P < P.
Proof.
  intros Hx Hy. pose proof (Z.mod_pos_bound (x * y) P ltac:(done)) as H. assert ((x * y) mod P <> 0); [|lia].
  intros Hd. apply Z.mod_divide in Hd; [|done]. apply (Z.divide_prime_mul _ _ _ P_prime) in Hd as [Hd|Hd]; [by apply (A_small x)|by apply (A_small y)].
Qed.

Lemma do_rand_step ctx s : let x := ld64 (u_mem s) ctx mod (P - 1) + 1 in
  0 < x < P /\ do_rand ctx s = Ok ((A * x) mod P - 1) (set_u_mem (st64 (u_mem s) ctx ((A * x) mod P - 1)) s).
Proof.
  intros x. pose proof (Z.mod_pos_bound (ld64 (u_mem s) ctx) (P - 1) ltac:(done)) as Hm. assert (Hx : 0 < x < P) by (unfold x, P in *; lia).
  split; [done|]. unfold do_rand, ldd. rewrite bind_gets. change 0x7ffffffe with (P - 1). fold x. cbv zeta.
  destruct (schrage x Hx) as [_ ->]. pose proof (product_range A x ltac:(done) Hx) as Hy. unfold std. rewrite bind_modify. unfold ret.
  rewrite s32_small, u64_small by (unfold P in *; lia). done.
Qed.

(** [do_rand] computes what its comment says: from a seed brought to the range
    from 1 to [2^31 - 2] it makes [7^5] times the seed modulo [2^31 - 1], less
    one; it returns this number, which is between 0 and [0x7ffffffd], and stores
    it as the next seed, and nothing else. *)
Theorem do_rand_correct (ctx : Z) (s : uproc) :
  exists v, do_rand ctx s = Ok v (set_u_mem (st64 (u_mem s) ctx v) s) /\ 0 <= v <= 0x7ffffffd /\
    v + 1 = (7 ^ 5 * (ld64 (u_mem s) ctx mod (2 ^ 31 - 2) + 1)) mod (2 ^ 31 - 1).
Proof.
  destruct (do_rand_step ctx s) as [Hx E]. eexists. split; [exact E|]. change (2 ^ 31 - 2) with (P - 1). change (7 ^ 5) with A. change (2 ^ 31 - 1) with P.
  pose proof (product_range A _ ltac:(done) Hx). split; [unfold P in *; lia|lia].
Qed.

(** The numbers of [n] calls of [rand]. *)
Fixpoint rands (gv : grind_vars) (n : nat) : U (list Z) :=
  match n with
  | O => ret []
  | S n => let! v := rand gv in let! vs := rands gv n in ret (v :: vs)
  end.

(** The number of the call [i], when the first seed is [x]. *)
Definition nth_rand (x : Z) (i : nat) : Z := (A ^ Z.of_nat (S i) * x) mod P - 1.

Lemma power_range x i : 0 < x < P -> 0 < (A ^ Z.of_nat i * x) mod P < P.
Proof.
  intros Hx. induction i as [|i IH]; [rewrite Z.mul_1_l, Z.mod_small; lia|].
  rewrite Nat2Z.inj_succ, Z.pow_succ_r, <- Z.mul_assoc by lia. rewrite <- Zmult_mod_idemp_r. by apply product_range.
Qed.

Lemma nth_rand_range x i : 0 < x < P -> 0 <= nth_rand x i < P - 1.
Proof. intros Hx. unfold nth_rand. pose proof (power_range x (S i) Hx). lia. Qed.

Lemma rands_ok gv n : forall s, let x := ld64 (u_mem s) (gv_next gv) mod (P - 1) + 1 in
  exists s', rands gv n s = Ok (map (nth_rand x) (seq 0 n)) s' /\
    ld64 (u_mem s') (gv_next gv) mod (P - 1) + 1 = (A ^ Z.of_nat n * x) mod P.
Proof.
  induction n as [|n IH]; intros s x; destruct (do_rand_step (gv_next gv) s) as [Hx E].
  - exists s. split; [done|]. rewrite Z.mul_1_l, (Z.mod_small x); [done|]. fold x in Hx. lia.
  - fold x in Hx, E. set (v := (A * x) mod P - 1) in *. set (s1 := set_u_mem _ s) in E.
    pose proof (product_range A x ltac:(done) Hx) as Hv. destruct (IH s1) as (s' & E1 & Hs').
    assert (Ev : ld64 (u_mem s1) (gv_next gv) mod (P - 1) + 1 = (A * x) mod P).
    { simpl. rewrite ld64_st64, u64_small by (unfold v, P in *; lia). rewrite Z.mod_small; unfold v; lia. }
    rewrite Ev in E1, Hs'. exists s'. split.
    + cbn [rands]. unfold rand. krun E. krun E1. unfold ret. f_equal. cbn [seq map]. f_equal.
      rewrite <- seq_shift, map_map. apply map_ext. intros i. unfold nth_rand. rewrite Zmult_mod_idemp_r, Z.mul_assoc.
      rewrite (Z.mul_comm _ A), <- Z.pow_succ_r by lia. by rewrite <- Nat2Z.inj_succ.
    + rewrite Hs', Zmult_mod_idemp_r, Z.mul_assoc, (Z.mul_comm _ A), <- Z.pow_succ_r by lia. by rewrite <- Nat2Z.inj_succ.
Qed.

Lemma nth_rand_inj x i j : 0 < x < P -> (i < j)%nat -> Z.of_nat j - Z.of_nat i < P - 1 -> nth_rand x i <> nth_rand x j.
Proof.
  intros Hx Hij Hlt E. unfold nth_rand in E. set (y := (A ^ Z.of_nat (S i) * x) mod P) in *. pose proof (power_range x (S i) Hx) as Hy. fold y in Hy.
  set (d := Z.of_nat j - Z.of_nat i) in *.
  assert (E2 : (A ^ d * y) mod P = y).
  { unfold y at 1. rewrite Zmult_mod_idemp_r, Z.mul_assoc, <- Z.pow_add_r by lia. replace (d + Z.of_nat (S i)) with (Z.of_nat (S j)) by lia. lia. }
  assert (Hdiv : (P | (A ^ d - 1) * y)).
  { apply Z.mod_divide; [done|]. rewrite Z.mul_sub_distr_r, Z.mul_1_l, Zminus_mod, E2, (Z.mod_small y) by lia. by rewrite Z.sub_diag. }
  apply (Z.divide_prime_mul _ _ _ P_prime) in Hdiv as [Hdiv|Hdiv]; [|by apply (A_small y)].
  assert (Hu : unit_power d).
  { unfold unit_power. apply Z.mod_divide in Hdiv; [|done]. rewrite Zminus_mod in Hdiv. change (1 mod P) with 1 in Hdiv.
    pose proof (Z.mod_pos_bound (A ^ d) P ltac:(done)). apply Z.mod_divide in Hdiv as [q Eq]; [|done].
    assert (q = 0) by (unfold P in *; nia). lia. }
  apply unit_power_order, Z.divide_pos_le in Hu; lia.
Qed.

(** C25: The numbers of [rand] have the full period: whatever the seed, [2^31 - 2]
    successive calls return each number from 0 to [0x7ffffffd] exactly once, and
    leave the seed congruent to the one they began with. *)
Theorem rand_full_period (gv : grind_vars) (s : uproc) :
  exists vs s', rands gv (Z.to_nat (2 ^ 31 - 2)) s = Ok vs s' /\ NoDup vs /\ (forall v, v ∈ vs <-> 0 <= v <= 0x7ffffffd) /\
    ld64 (u_mem s') (gv_next gv) mod (2 ^ 31 - 2) = ld64 (u_mem s) (gv_next gv) mod (2 ^ 31 - 2).
Proof.
  assert (HN : Z.of_nat (Z.to_nat (2 ^ 31 - 2)) = P - 1) by (by rewrite Z2Nat.id). generalize dependent (Z.to_nat (2 ^ 31 - 2)). intros N HN.
  destruct (rands_ok gv N s) as (s' & E & Hs). destruct (do_rand_step (gv_next gv) s) as [Hx _].
  set (x := ld64 (u_mem s) (gv_next gv) mod (P - 1) + 1) in *. eexists _, s'. split; [exact E|].
  assert (Hnd : NoDup (map (nth_rand x) (seq 0 N))).
  { apply NoDup_fmap_2_strong; [|apply NoDup_seq]. intros i j Hi%elem_of_seq Hj%elem_of_seq Eij.
    destruct (decide (i = j)); [done|exfalso]. destruct (decide (i < j)%nat); [apply (nth_rand_inj x i j Hx)|apply (nth_rand_inj x j i Hx)]; try done; lia. }
  assert (Hin : forall v, v ∈ map (nth_rand x) (seq 0 N) -> 0 <= v < P - 1).
  { intros v (i & -> & _)%list_elem_of_fmap. by apply nth_rand_range. }
  split; [done|]. split.
  - intros v. split; [intros Hv%Hin; unfold P in Hv; lia|]. intros Hv. apply list_elem_of_In.
    apply (NoDup_length_incl (l := map (nth_rand x) (seq 0 N)) (l' := map Z.of_nat (seq 0 N))).
    + by apply NoDup_ListNoDup.
    + by rewrite !length_map.
    + intros u Hu%list_elem_of_In%Hin. apply in_map_iff. exists (Z.to_nat u). rewrite in_seq. lia.
    + apply in_map_iff. exists (Z.to_nat v). rewrite in_seq. unfold P in HN. lia.
  - change (2 ^ 31 - 2) with (P - 1). rewrite (unit_power_times (Z.of_nat N)) in Hs by (rewrite HN; apply unit_power_P).
    rewrite (Z.mod_small x) in Hs by lia. unfold x in Hs. lia.
Qed.

End Grind.
