(* ===== verification/Usertests.v ===== *)
(** * [user/usertests.c]

    The tests of the system calls, and the program that runs them.  A test is a
    computation of the process that the driver forks for it; a failed test prints
    a message and exits with a status that is not 0.  The tests that pass bad
    addresses to the kernel or touch memory that the process does not have are
    not here: the memory of a process in this model has all addresses. *)

From S2P Require Import Prelude Riscv Memory CString Block Bio Fs Uart Printf User UserPrintf Umalloc Programs Grind.
Import User.Ulib UserPrintf.UPrintf Programs.Programs Grind.Grind.

Module Usertests.

Definition BUFSZ : Z := (MAXOPBLOCKS + 2) * BSIZE.

(** The addresses of [buf] and [uninit], of the variables of a test, and of the
    static variables of the allocator. *)
Record test_vars := TestVars {
  tv_buf : Z; tv_uninit : Z; tv_local : Z; tv_xstatus : Z; tv_de : Z; tv_c : Z; tv_base : Z; tv_freep : Z }.

Section Tests.
Variables (bound : nat) (tv : test_vars).

Abbreviation buf := (tv_buf tv).

(** [wait(&xstatus)]: the pid, and the variable. *)
Definition wait_x : U (Z * Z) :=
  let! r := wait_status (tv_xstatus tv) in
  let! x := ldw (tv_xstatus tv) in
  ret (r, s32 x).

(** [printf(msg, s, ...); exit(1);] *)
Definition oops {A} (s : list byte) (msg : string) (ap : list va) : U A :=
  printf msg (Str (Some s) :: ap) ;;
  exit 1.

(** [if(!ok) c] *)
Definition unless (ok : bool) (c : U unit) : U unit := if ok then ret tt else c.

Definition opn (path : string) (mode : Z) : U Z := call (Open (bytes_of path) mode).

Definition unl (path : string) : U Z := call (Unlink (bytes_of path)).

Definition mkd (path : string) : U Z := call (Mkdir (bytes_of path)).

Definition chd (path : string) : U Z := call (Chdir (bytes_of path)).

Definition lnk (old new : string) : U Z := call (Link (bytes_of old) (bytes_of new)).

Definition put (fd : Z) (bs : string) : U Z := call (Write fd (bytes_of bs)).

Definition times (n : Z) (f : Z -> U unit) : U unit := forM (map Z.of_nat (seq 0 (Z.to_nat n))) f.

Definition CR : Z := Z.lor O_CREATE O_RDWR.

Definition CW : Z := Z.lor O_CREATE O_WRONLY.

Definition CWT : Z := Z.lor CW O_TRUNC.

(** A [fork] whose child runs [child]; the parent goes on with the pid. *)
Definition forks (s : list byte) (child : U unit) : U Z :=
  let! pid := call Fork in
  if pid <? 0 then oops s (line "%s: fork failed") []
  else if pid =? 0 then child ;; exit 0
  else ret pid.

(** ** Truncation *)

Definition truncate1 (s : list byte) : U unit :=
  unl "truncfile" ;;
  let! fd1 := opn "truncfile" CWT in
  put fd1 "abcd" ;;
  call (Close fd1) ;;
  let! fd2 := opn "truncfile" O_RDONLY in
  let! n := read fd2 (tv_local tv) 32 in
  unless (n =? 4) (oops s (line "%s: read %d bytes, wanted 4") [Num n]) ;;
  let! fd1 := opn "truncfile" (Z.lor O_WRONLY O_TRUNC) in
  let! fd3 := opn "truncfile" O_RDONLY in
  let! n := read fd3 (tv_local tv) 32 in
  unless (n =? 0) (printf (line "aaa fd3=%d") [Num fd3] ;; oops s (line "%s: read %d bytes, wanted 0") [Num n]) ;;
  let! n := read fd2 (tv_local tv) 32 in
  unless (n =? 0) (printf (line "bbb fd2=%d") [Num fd2] ;; oops s (line "%s: read %d bytes, wanted 0") [Num n]) ;;
  put fd1 "abcdef" ;;
  let! n := read fd3 (tv_local tv) 32 in
  unless (n =? 6) (oops s (line "%s: read %d bytes, wanted 6") [Num n]) ;;
  let! n := read fd2 (tv_local tv) 32 in
  unless (n =? 2) (oops s (line "%s: read %d bytes, wanted 2") [Num n]) ;;
  unl "truncfile" ;;
  call (Close fd1) ;;
  call (Close fd2) ;;
  call (Close fd3) ;;
  ret tt.

Definition truncate2 (s : list byte) : U unit :=
  unl "truncfile" ;;
  let! fd1 := opn "truncfile" CWT in
  put fd1 "abcd" ;;
  let! fd2 := opn "truncfile" (Z.lor O_TRUNC O_WRONLY) in
  let! n := put fd1 "x" in
  unless (n =? -1) (oops s (line "%s: write returned %d, expected -1") [Num n]) ;;
  unl "truncfile" ;;
  call (Close fd1) ;;
  call (Close fd2) ;;
  ret tt.

Definition truncate3 (s : list byte) : U unit :=
  let! fd := opn "truncfile" CWT in
  call (Close fd) ;;
  forks s (times 100 (fun _ =>
    let! fd := opn "truncfile" O_WRONLY in
    unless (0 <=? fd) (oops s (line "%s: open failed") []) ;;
    let! n := put fd "1234567890" in
    unless (n =? 10) (oops s (line "%s: write got %d, expected 10") [Num n]) ;;
    call (Close fd) ;;
    let! fd := opn "truncfile" O_RDONLY in
    read fd (tv_local tv) 32 ;;
    call (Close fd) ;;
    ret tt)) ;;
  times 150 (fun _ =>
    let! fd := opn "truncfile" CWT in
    unless (0 <=? fd) (oops s (line "%s: open failed") []) ;;
    let! n := put fd "xxx" in
    unless (n =? 3) (oops s (line "%s: write got %d, expected 3") [Num n]) ;;
    call (Close fd) ;;
    ret tt) ;;
  let! (_, xstatus) := wait_x in
  unl "truncfile" ;;
  exit xstatus.

(** ** Inodes, files and directories *)

Definition iputtest (s : list byte) : U unit :=
  let! r := mkd "iputdir" in
  unless (0 <=? r) (oops s (line "%s: mkdir failed") []) ;;
  let! r := chd "iputdir" in
  unless (0 <=? r) (oops s (line "%s: chdir iputdir failed") []) ;;
  let! r := unl "../iputdir" in
  unless (0 <=? r) (oops s (line "%s: unlink ../iputdir failed") []) ;;
  let! r := chd "/" in
  unless (0 <=? r) (oops s (line "%s: chdir / failed") []).

Definition exitiputtest (s : list byte) : U unit :=
  forks s (
    let! r := mkd "iputdir" in
    unless (0 <=? r) (oops s (line "%s: mkdir failed") []) ;;
    let! r := chd "iputdir" in
    unless (0 <=? r) (oops s (line "%s: child chdir failed") []) ;;
    let! r := unl "../iputdir" in
    unless (0 <=? r) (oops s (line "%s: unlink ../iputdir failed") [])) ;;
  let! (_, xstatus) := wait_x in
  exit xstatus.

Definition openiputtest (s : list byte) : U unit :=
  let! r := mkd "oidir" in
  unless (0 <=? r) (oops s (line "%s: mkdir oidir failed") []) ;;
  forks s (
    let! fd := opn "oidir" O_RDWR in
    unless (fd <? 0) (oops s (line "%s: open directory for write succeeded") [])) ;;
  call (Sleep 1) ;;
  let! r := unl "oidir" in
  unless (r =? 0) (oops s (line "%s: unlink failed") []) ;;
  let! (_, xstatus) := wait_x in
  exit xstatus.

Definition opentest (s : list byte) : U unit :=
  let! fd := opn "echo" 0 in
  unless (0 <=? fd) (oops s (line "%s: open echo failed!") []) ;;
  call (Close fd) ;;
  let! fd := opn "doesnotexist" 0 in
  unless (fd <? 0) (oops s (line "%s: open doesnotexist succeeded!") []).

Definition writetest (s : list byte) : U unit :=
  let! fd := opn "small" CR in
  unless (0 <=? fd) (oops s (line "%s: error: creat small failed!") []) ;;
  times 100 (fun i =>
    let! n := put fd "aaaaaaaaaa" in
    unless (n =? 10) (oops s (line "%s: error: write aa %d new file failed") [Num i]) ;;
    let! n := put fd "bbbbbbbbbb" in
    unless (n =? 10) (oops s (line "%s: error: write bb %d new file failed") [Num i])) ;;
  call (Close fd) ;;
  let! fd := opn "small" O_RDONLY in
  unless (0 <=? fd) (oops s (line "%s: error: open small failed!") []) ;;
  let! i := read fd buf (100 * 10 * 2) in
  unless (i =? 100 * 10 * 2) (oops s (line "%s: read failed") []) ;;
  call (Close fd) ;;
  let! r := unl "small" in
  unless (0 <=? r) (oops s (line "%s: unlink small failed") []).

Definition writebig_read (s : list byte) (fd n : Z) : U (Z + unit) :=
  let! i := read fd buf BSIZE in
  if i =? 0 then
    unless (n =? MAXFILE) (oops s "%s: read only %d blocks from big" [Num n]) ;;
    ret (inr tt)
  else
  unless (i =? BSIZE) (oops s (line "%s: read failed %d") [Num i]) ;;
  let! x := ldw buf in
  unless (s32 x =? n) (oops s (line "%s: read content of block %d is %d") [Num n; Num (s32 x)]) ;;
  ret (inl (n + 1)).

Definition writebig (s : list byte) : U unit :=
  let! fd := opn "big" CR in
  unless (0 <=? fd) (oops s (line "%s: error: creat big failed!") []) ;;
  times MAXFILE (fun i =>
    stw buf i ;;
    let! n := write fd buf BSIZE in
    unless (n =? BSIZE) (oops s (line "%s: error: write big file failed i=%d") [Num i])) ;;
  call (Close fd) ;;
  let! fd := opn "big" O_RDONLY in
  unless (0 <=? fd) (oops s (line "%s: error: open big failed!") []) ;;
  while bound (writebig_read s fd) 0 ;;
  call (Close fd) ;;
  let! r := unl "big" in
  unless (0 <=? r) (oops s (line "%s: unlink big failed") []).

(** A name of characters that are computed. *)
Definition name_of (cs : list Z) : list byte := map byte.of_Z cs.

Definition createtest (s : list byte) : U unit :=
  times 52 (fun i =>
    let! fd := call (Open (name_of [97; 48 + i]) CR) in
    call (Close fd) ;;
    ret tt) ;;
  times 52 (fun i => call (Unlink (name_of [97; 48 + i])) ;; ret tt).

Definition dirtest (s : list byte) : U unit :=
  let! r := mkd "dir0" in
  unless (0 <=? r) (oops s (line "%s: mkdir failed") []) ;;
  let! r := chd "dir0" in
  unless (0 <=? r) (oops s (line "%s: chdir dir0 failed") []) ;;
  let! r := chd ".." in
  unless (0 <=? r) (oops s (line "%s: chdir .. failed") []) ;;
  let! r := unl "dir0" in
  unless (0 <=? r) (oops s (line "%s: unlink dir0 failed") []).

Definition exectest (s : list byte) : U unit :=
  unl "echo-ok" ;;
  let! pid := call Fork in
  unless (0 <=? pid) (oops s (line "%s: fork failed") []) ;;
  (if pid =? 0 then
     call (Close 1) ;;
     let! fd := opn "echo-ok" CW in
     unless (0 <=? fd) (oops s (line "%s: create failed") []) ;;
     unless (fd =? 1) (oops s (line "%s: wrong fd") []) ;;
     let! r := call (Exec (bytes_of "echo") [bytes_of "echo"; bytes_of "OK"]) in
     unless (0 <=? r) (oops s (line "%s: exec echo failed") [])
   else ret tt) ;;
  let! (r, xstatus) := wait_x in
  unless (r =? pid) (printf (line "%s: wait failed!") [Str (Some s)]) ;;
  unless (xstatus =? 0) (exit xstatus) ;;
  let! fd := opn "echo-ok" O_RDONLY in
  unless (0 <=? fd) (oops s (line "%s: open failed") []) ;;
  let! n := read fd (tv_local tv) 2 in
  unless (n =? 2) (oops s (line "%s: read failed") []) ;;
  unl "echo-ok" ;;
  let! b0 := ldb (tv_local tv) in
  let! b1 := ldb (tv_local tv + 1) in
  if Byte.eqb b0 Byte.x4f && Byte.eqb b1 Byte.x4b then exit 0
  else oops s (line "%s: wrong output") [].

(** ** Processes *)

Definition pipe1_fill (seq : Z) : U Z :=
  while 1034 (fun '(i, seq) =>
    if i <? 1033 then
      stb (buf + i) (byte.of_Z (seq mod 256)) ;;
      ret (inl (i + 1, seq + 1))
    else ret (inr seq)) (0, seq).

(** The bytes of the buffer are the next of the sequence; [None] when one is not. *)
Definition pipe1_check (n seq : Z) : U (option Z) :=
  while (S (Z.to_nat n)) (fun '(i, seq) =>
    if i <? n then
      let! b := ldb (buf + i) in
      if negb (byte.unsigned b =? seq mod 256) then ret (inr None) else ret (inl (i + 1, seq + 1))
    else ret (inr (Some seq))) (0, seq).

Definition pipe1_read (fd : Z) : Z * Z * Z -> U (Z * Z * Z + option Z) := fun '(total, cc, seq) =>
  let! n := read fd buf cc in
  if 0 <? n then
    let! r := pipe1_check n seq in
    match r with
    | None => ret (inr None)
    | Some seq =>
        let cc := cc * 2 in
        ret (inl (total + n, (if BUFSZ <? cc then BUFSZ else cc), seq))
    end
  else ret (inr (Some total)).

Definition pipe1 (s : list byte) : U unit :=
  let! (r, f0, f1) := pipe in
  unless (r =? 0) (oops s (line "%s: pipe() failed") []) ;;
  let! pid := call Fork in
  if pid =? 0 then
    call (Close f0) ;;
    while 6 (fun '(n, seq) =>
      if n <? 5 then
        let! seq := pipe1_fill seq in
        let! r := write f1 buf 1033 in
        unless (r =? 1033) (oops s (line "%s: pipe1 oops 1") []) ;;
        ret (inl (n + 1, seq))
      else ret (inr tt)) (0, 0) ;;
    exit 0
  else if 0 <? pid then
    call (Close f1) ;;
    let! r := while bound (pipe1_read f0) (0, 1, 0) in
    match r with
    | None => printf (line "%s: pipe1 oops 2") [Str (Some s)]
    | Some total =>
        unless (total =? 5 * 1033) (oops s (line "%s: pipe1 oops 3 total %d") [Num total]) ;;
        call (Close f0) ;;
        let! (_, xstatus) := wait_x in
        exit xstatus
    end
  else oops s (line "%s: fork() failed") [].

Definition killstatus (s : list byte) : U unit :=
  times 100 (fun _ =>
    let! pid1 := forks s (while bound (fun _ => call Getpid ;; ret (inl tt)) tt) in
    call (Sleep 1) ;;
    call (Kill pid1) ;;
    let! (_, xst) := wait_x in
    unless (xst =? -1) (oops s (line "%s: status should be -1") [])) ;;
  exit 0.

(** [for(;;);] *)
Definition forever : U unit := fun s => Spin s.

Definition preempt (s : list byte) : U unit :=
  let! pid1 := call Fork in
  unless (0 <=? pid1) (oops s "%s: fork failed" []) ;;
  (if pid1 =? 0 then forever else ret tt) ;;
  let! pid2 := forks s forever in
  let! (_, p0, p1) := pipe in
  let! pid3 := forks s (
    call (Close p0) ;;
    let! n := put p1 "x" in
    unless (n =? 1) (printf "%s: preempt write error" [Str (Some s)]) ;;
    call (Close p1) ;;
    forever) in
  call (Close p1) ;;
  let! n := read p0 buf BUFSZ in
  if negb (n =? 1) then printf "%s: preempt read error" [Str (Some s)] else
  call (Close p0) ;;
  printf "kill... " [] ;;
  call (Kill pid1) ;;
  call (Kill pid2) ;;
  call (Kill pid3) ;;
  printf "wait... " [] ;;
  call Wait ;;
  call Wait ;;
  call Wait ;;
  ret tt.

Definition exitwait (s : list byte) : U unit :=
  times 100 (fun i =>
    let! pid := call Fork in
    unless (0 <=? pid) (oops s (line "%s: fork failed") []) ;;
    if negb (pid =? 0) then
      let! (r, xstate) := wait_x in
      unless (r =? pid) (oops s (line "%s: wait wrong pid") []) ;;
      unless (i =? xstate) (oops s (line "%s: wait wrong exit status") [])
    else exit i).

Definition reparent (s : list byte) : U unit :=
  let! master_pid := call Getpid in
  times 200 (fun _ =>
    let! pid := call Fork in
    unless (0 <=? pid) (oops s (line "%s: fork failed") []) ;;
    if negb (pid =? 0) then
      let! r := call Wait in
      unless (r =? pid) (oops s (line "%s: wait wrong pid") [])
    else
      let! pid2 := call Fork in
      unless (0 <=? pid2) (call (Kill master_pid) ;; exit 1) ;;
      exit 0) ;;
  exit 0.

Definition twochildren (s : list byte) : U unit :=
  times 1000 (fun _ =>
    forks s (ret tt) ;;
    forks s (ret tt) ;;
    call Wait ;;
    call Wait ;;
    ret tt).

Definition forkfork (s : list byte) : U unit :=
  times 2 (fun _ =>
    let! pid := call Fork in
    unless (0 <=? pid) (oops s "%s: fork failed" []) ;;
    if pid =? 0 then
      times 200 (fun _ =>
        let! pid1 := call Fork in
        unless (0 <=? pid1) (exit 1) ;;
        unless (negb (pid1 =? 0)) (exit 0) ;;
        call Wait ;;
        ret tt) ;;
      exit 0
    else ret tt) ;;
  times 2 (fun _ =>
    let! (_, xstatus) := wait_x in
    unless (xstatus =? 0) (oops s "%s: fork in child failed" [])).

Definition stopforking : U unit := let! fd := opn "stopforking" CR in call (Close fd) ;; ret tt.

Definition forking (_ : unit) : U (unit + unit) :=
  let! fd := opn "stopforking" 0 in
  unless (fd <? 0) (exit 0) ;;
  let! r := call Fork in
  unless (0 <=? r) stopforking ;;
  ret (inl tt).

Definition forkforkfork (s : list byte) : U unit :=
  unl "stopforking" ;;
  let! pid := call Fork in
  unless (0 <=? pid) (oops s "%s: fork failed" []) ;;
  (if pid =? 0 then
     while bound forking tt ;;
     exit 0
   else ret tt) ;;
  call (Sleep 20) ;;
  stopforking ;;
  call Wait ;;
  call (Sleep 10) ;;
  ret tt.

Definition reparent2 (s : list byte) : U unit :=
  times 800 (fun _ =>
    let! pid1 := call Fork in
    unless (0 <=? pid1) (fail 1 "fork failed" 1) ;;
    unless (negb (pid1 =? 0)) (call Fork ;; call Fork ;; exit 0) ;;
    call Wait ;;
    ret tt) ;;
  exit 0.

(** The pointers that [mem] keeps are in the blocks it has allocated. *)
Definition mem_all (m1 : Z) : U (Z + Z) :=
  let! m2 := Umalloc.malloc (tv_base tv) (tv_freep tv) bound 10001 in
  if m2 =? 0 then ret (inr m1) else
  std m2 m1 ;;
  ret (inl m2).

Definition mem_free (m1 : Z) : U (Z + unit) :=
  if m1 =? 0 then ret (inr tt) else
  let! m2 := ldd m1 in
  Umalloc.free (tv_freep tv) bound m1 ;;
  ret (inl m2).

Definition mem (s : list byte) : U unit :=
  let! pid := call Fork in
  if pid =? 0 then
    let! m1 := while bound mem_all 0 in
    while bound mem_free m1 ;;
    let! m1 := Umalloc.malloc (tv_base tv) (tv_freep tv) bound (1024 * 20) in
    unless (negb (m1 =? 0)) (oops s (line "%s: couldn't allocate mem?!!") []) ;;
    Umalloc.free (tv_freep tv) bound m1 ;;
    exit 0
  else
    let! (_, xstatus) := wait_x in
    unless (negb (xstatus =? -1)) (exit 0) ;;
    exit xstatus.

(** ** More file system tests *)

(** [for(i = 0; i < n; i++) f(p[i])], a fold over the bytes at [p]. *)
Definition each_byte {A} (p n : Z) (f : A -> byte -> U A) (a : A) : U A :=
  while (S (Z.to_nat n)) (fun '(i, a) =>
    if i <? n then
      let! b := ldb (p + i) in
      let! a := f a b in
      ret (inl (i + 1, a))
    else ret (inr a)) (0, a).

Definition sharedfd_read (fd : Z) : Z * Z -> U (Z * Z + Z * Z) := fun st =>
  let! n := read fd (tv_local tv) 10 in
  if 0 <? n then
    let! st := each_byte (tv_local tv) 10 (fun '(nc, np) b =>
      ret (if Byte.eqb b Byte.x63 then nc + 1 else nc, if Byte.eqb b Byte.x70 then np + 1 else np)) st in
    ret (inl st)
  else ret (inr st).

Definition sharedfd (s : list byte) : U unit :=
  unl "sharedfd" ;;
  let! fd := opn "sharedfd" CR in
  unless (0 <=? fd) (oops s "%s: cannot open sharedfd for writing" []) ;;
  let! pid := call Fork in
  memset (tv_local tv) (if pid =? 0 then 99 else 112) 10 ;;
  times 1000 (fun _ =>
    let! n := write fd (tv_local tv) 10 in
    unless (n =? 10) (oops s (line "%s: write sharedfd failed") [])) ;;
  (if pid =? 0 then exit 0
   else
     let! (_, xstatus) := wait_x in
     unless (xstatus =? 0) (exit xstatus)) ;;
  call (Close fd) ;;
  let! fd := opn "sharedfd" 0 in
  unless (0 <=? fd) (oops s (line "%s: cannot open sharedfd for reading") []) ;;
  let! (nc, np) := while bound (sharedfd_read fd) (0, 0) in
  call (Close fd) ;;
  unl "sharedfd" ;;
  if (nc =? 1000 * 10) && (np =? 1000 * 10) then exit 0
  else oops s (line "%s: nc/np test fails") [].

Definition fourfiles_read (s : list byte) (fd i total : Z) : U (Z + Z) :=
  let! n := read fd buf BUFSZ in
  if 0 <? n then
    each_byte buf n (fun _ b => unless (byte.unsigned b =? 48 + i) (oops s (line "%s: wrong char") [])) tt ;;
    ret (inl (total + n))
  else ret (inr total).

Definition fourfiles (s : list byte) : U unit :=
  times 4 (fun pi =>
    let fname := name_of [102; 48 + pi] in
    call (Unlink fname) ;;
    forks s (
      let! fd := call (Open fname CR) in
      unless (0 <=? fd) (oops s (line "%s: create failed") []) ;;
      memset buf (48 + pi) 500 ;;
      times 12 (fun _ =>
        let! n := write fd buf 500 in
        unless (n =? 500) (printf (line "write failed %d") [Num n] ;; exit 1))) ;;
    ret tt) ;;
  times 4 (fun _ =>
    let! (_, xstatus) := wait_x in
    unless (xstatus =? 0) (exit xstatus)) ;;
  times 4 (fun i =>
    let fname := name_of [102; 48 + i] in
    let! fd := call (Open fname 0) in
    let! total := while bound (fourfiles_read s fd i) 0 in
    call (Close fd) ;;
    unless (total =? 12 * 500) (printf (line "wrong length %d") [Num total] ;; exit 1) ;;
    call (Unlink fname) ;;
    ret tt).

Definition createdelete (s : list byte) : U unit :=
  times 4 (fun pi =>
    forks s (times 20 (fun i =>
      let! fd := call (Open (name_of [112 + pi; 48 + i]) CR) in
      unless (0 <=? fd) (oops s (line "%s: create failed") []) ;;
      call (Close fd) ;;
      if (0 <? i) && (i mod 2 =? 0) then
        let! r := call (Unlink (name_of [112 + pi; 48 + i / 2])) in
        unless (0 <=? r) (oops s (line "%s: unlink failed") [])
      else ret tt)) ;;
    ret tt) ;;
  times 4 (fun _ =>
    let! (_, xstatus) := wait_x in
    unless (xstatus =? 0) (exit 1)) ;;
  times 20 (fun i => times 4 (fun pi =>
    let name := name_of [112 + pi; 48 + i] in
    let! fd := call (Open name 0) in
    (if ((i =? 0) || (20 / 2 <=? i)) && (fd <? 0) then oops s (line "%s: oops createdelete %s didn't exist") [Str (Some name)]
     else if ((1 <=? i) && (i <? 20 / 2)) && (0 <=? fd) then oops s (line "%s: oops createdelete %s did exist") [Str (Some name)]
     else ret tt) ;;
    if 0 <=? fd then call (Close fd) ;; ret tt else ret tt)) ;;
  times 20 (fun i => times 4 (fun pi => call (Unlink (name_of [112 + pi; 48 + i])) ;; ret tt)).

Definition unlinkread (s : list byte) : U unit :=
  let! fd := opn "unlinkread" CR in
  unless (0 <=? fd) (oops s (line "%s: create unlinkread failed") []) ;;
  put fd "hello" ;;
  call (Close fd) ;;
  let! fd := opn "unlinkread" O_RDWR in
  unless (0 <=? fd) (oops s (line "%s: open unlinkread failed") []) ;;
  let! r := unl "unlinkread" in
  unless (r =? 0) (oops s (line "%s: unlink unlinkread failed") []) ;;
  let! fd1 := opn "unlinkread" CR in
  put fd1 "yyy" ;;
  call (Close fd1) ;;
  let! n := read fd buf BUFSZ in
  unless (n =? 5) (oops s "%s: unlinkread read failed" []) ;;
  let! b := ldb buf in
  unless (Byte.eqb b Byte.x68) (oops s (line "%s: unlinkread wrong data") []) ;;
  let! n := write fd buf 10 in
  unless (n =? 10) (oops s (line "%s: unlinkread write failed") []) ;;
  call (Close fd) ;;
  unl "unlinkread" ;;
  ret tt.

Definition linktest (s : list byte) : U unit :=
  unl "lf1" ;;
  unl "lf2" ;;
  let! fd := opn "lf1" CR in
  unless (0 <=? fd) (oops s (line "%s: create lf1 failed") []) ;;
  let! n := put fd "hello" in
  unless (n =? 5) (oops s (line "%s: write lf1 failed") []) ;;
  call (Close fd) ;;
  let! r := lnk "lf1" "lf2" in
  unless (0 <=? r) (oops s (line "%s: link lf1 lf2 failed") []) ;;
  unl "lf1" ;;
  let! r := opn "lf1" 0 in
  unless (r <? 0) (oops s (line "%s: unlinked lf1 but it is still there!") []) ;;
  let! fd := opn "lf2" 0 in
  unless (0 <=? fd) (oops s (line "%s: open lf2 failed") []) ;;
  let! n := read fd buf BUFSZ in
  unless (n =? 5) (oops s (line "%s: read lf2 failed") []) ;;
  call (Close fd) ;;
  let! r := lnk "lf2" "lf2" in
  unless (r <? 0) (oops s (line "%s: link lf2 lf2 succeeded! oops") []) ;;
  unl "lf2" ;;
  let! r := lnk "lf2" "lf1" in
  unless (r <? 0) (oops s (line "%s: link non-existent succeeded! oops") []) ;;
  let! r := lnk "." "lf1" in
  unless (r <? 0) (oops s (line "%s: link . lf1 succeeded! oops") []).

(** Both processes make the file [i], by a link or by [open]; the child exits. *)
Definition concreate_make (i : Z) : U unit :=
  let file := name_of [67; 48 + i] in
  call (Unlink file) ;;
  let! pid := call Fork in
  (if negb (pid =? 0) && (i mod 3 =? 1) then call (Link (bytes_of "C0") file) ;; ret tt
   else if (pid =? 0) && (i mod 5 =? 1) then call (Link (bytes_of "C0") file) ;; ret tt
   else
     let! fd := call (Open file CR) in
     unless (0 <=? fd) (printf (line "concreate create %s failed") [Str (Some file)] ;; exit 1) ;;
     call (Close fd) ;;
     ret tt) ;;
  if pid =? 0 then exit 0
  else
    let! (_, xstatus) := wait_x in
    unless (xstatus =? 0) (exit 1).

(** The entry is marked in [fa], at [tv_local]; [n] counts the entries. *)
Definition concreate_entry (s : list byte) (fd n : Z) : U (Z + Z) :=
  let de := tv_de tv in
  let fa := tv_local tv in
  let! r := read fd de 16 in
  if negb (0 <? r) then ret (inr n) else
  let! inum := ldh de in
  if inum =? 0 then ret (inl n) else
  let! c0 := ldb (de + 2) in
  let! c2 := ldb (de + 4) in
  if Byte.eqb c0 Byte.x43 && Byte.eqb c2 Byte.x00 then
    let! c1 := ldb (de + 3) in
    let i := byte.unsigned c1 - 48 in
    let! name := cstring bound (de + 2) in
    unless (negb ((i <? 0) || (40 <=? i))) (oops s (line "%s: concreate weird file %s") [Str (Some name)]) ;;
    let! f := ldb (fa + i) in
    unless (Byte.eqb f Byte.x00) (oops s (line "%s: concreate duplicate file %s") [Str (Some name)]) ;;
    stb (fa + i) Byte.x01 ;;
    ret (inl (n + 1))
  else ret (inl n).

Definition concreate (s : list byte) : U unit :=
  times 40 concreate_make ;;
  memset (tv_local tv) 0 40 ;;
  let! fd := opn "." 0 in
  let! n := while bound (concreate_entry s fd) 0 in
  call (Close fd) ;;
  unless (n =? 40) (oops s (line "%s: concreate not enough files in directory listing") []) ;;
  times 40 (fun i =>
    let file := name_of [67; 48 + i] in
    let! pid := call Fork in
    unless (0 <=? pid) (oops s (line "%s: fork failed") []) ;;
    (if ((i mod 3 =? 0) && (pid =? 0)) || ((i mod 3 =? 1) && negb (pid =? 0)) then
       times 6 (fun _ => let! fd := call (Open file 0) in call (Close fd) ;; ret tt)
     else times 6 (fun _ => call (Unlink file) ;; ret tt)) ;;
    if pid =? 0 then exit 0 else call Wait ;; ret tt).

Definition linkunlink (s : list byte) : U unit :=
  unl "x" ;;
  let! pid := call Fork in
  unless (0 <=? pid) (oops s (line "%s: fork failed") []) ;;
  while 101 (fun '(i, x) =>
    if i <? 100 then
      let x := u32 (x * 1103515245 + 12345) in
      (if x mod 3 =? 0 then let! fd := opn "x" CR in call (Close fd) ;; ret tt
       else if x mod 3 =? 1 then lnk "cat" "x" ;; ret tt
       else unl "x" ;; ret tt) ;;
      ret (inl (i + 1, x))
    else ret (inr tt)) (0, if negb (pid =? 0) then 1 else 97) ;;
  if negb (pid =? 0) then call Wait ;; ret tt else exit 0.

(** [if(open(path, mode) >= 0) oops] *)
Definition cannot_open (s : list byte) (path : string) (mode : Z) (msg : string) : U unit :=
  let! r := opn path mode in
  unless (r <? 0) (oops s (line msg) []).

(** [if(c != 0) oops] and [if(c == 0) oops] *)
Definition must (s : list byte) (c : U Z) (msg : string) : U unit := let! r := c in unless (r =? 0) (oops s (line msg) []).

Definition must_not (s : list byte) (c : U Z) (msg : string) : U unit := let! r := c in unless (negb (r =? 0)) (oops s (line msg) []).

Definition subdir_make (s : list byte) : U unit :=
  unl "ff" ;;
  must s (mkd "dd") "%s: mkdir dd failed" ;;
  let! fd := opn "dd/ff" CR in
  unless (0 <=? fd) (oops s (line "%s: create dd/ff failed") []) ;;
  put fd "ff" ;;
  call (Close fd) ;;
  let! r := unl "dd" in
  unless (r <? 0) (oops s (line "%s: unlink dd (non-empty dir) succeeded!") []) ;;
  must s (mkd "/dd/dd") "%s: subdir mkdir dd/dd failed" ;;
  let! fd := opn "dd/dd/ff" CR in
  unless (0 <=? fd) (oops s (line "%s: create dd/dd/ff failed") []) ;;
  put fd "FF" ;;
  call (Close fd) ;;
  let! fd := opn "dd/dd/../ff" 0 in
  unless (0 <=? fd) (oops s (line "%s: open dd/dd/../ff failed") []) ;;
  let! cc := read fd buf BUFSZ in
  let! b := ldb buf in
  unless ((cc =? 2) && Byte.eqb b Byte.x66) (oops s (line "%s: dd/dd/../ff wrong content") []) ;;
  call (Close fd) ;;
  must s (lnk "dd/dd/ff" "dd/dd/ffff") "%s: link dd/dd/ff dd/dd/ffff failed" ;;
  must s (unl "dd/dd/ff") "%s: unlink dd/dd/ff failed" ;;
  cannot_open s "dd/dd/ff" O_RDONLY "%s: open (unlinked) dd/dd/ff succeeded" ;;
  must s (chd "dd") "%s: chdir dd failed" ;;
  must s (chd "dd/../../dd") "%s: chdir dd/../../dd failed" ;;
  must s (chd "dd/../../../dd") "%s: chdir dd/../../../dd failed" ;;
  must s (chd "./..") "%s: chdir ./.. failed" ;;
  let! fd := opn "dd/dd/ffff" 0 in
  unless (0 <=? fd) (oops s (line "%s: open dd/dd/ffff failed") []) ;;
  let! n := read fd buf BUFSZ in
  unless (n =? 2) (oops s (line "%s: read dd/dd/ffff wrong len") []) ;;
  call (Close fd) ;;
  ret tt.

Definition subdir_fail (s : list byte) : U unit :=
  cannot_open s "dd/dd/ff" O_RDONLY "%s: open (unlinked) dd/dd/ff succeeded!" ;;
  cannot_open s "dd/ff/ff" CR "%s: create dd/ff/ff succeeded!" ;;
  cannot_open s "dd/xx/ff" CR "%s: create dd/xx/ff succeeded!" ;;
  cannot_open s "dd" O_CREATE "%s: create dd succeeded!" ;;
  cannot_open s "dd" O_RDWR "%s: open dd rdwr succeeded!" ;;
  cannot_open s "dd" O_WRONLY "%s: open dd wronly succeeded!" ;;
  must_not s (lnk "dd/ff/ff" "dd/dd/xx") "%s: link dd/ff/ff dd/dd/xx succeeded!" ;;
  must_not s (lnk "dd/xx/ff" "dd/dd/xx") "%s: link dd/xx/ff dd/dd/xx succeeded!" ;;
  must_not s (lnk "dd/ff" "dd/dd/ffff") "%s: link dd/ff dd/dd/ffff succeeded!" ;;
  must_not s (mkd "dd/ff/ff") "%s: mkdir dd/ff/ff succeeded!" ;;
  must_not s (mkd "dd/xx/ff") "%s: mkdir dd/xx/ff succeeded!" ;;
  must_not s (mkd "dd/dd/ffff") "%s: mkdir dd/dd/ffff succeeded!" ;;
  must_not s (unl "dd/xx/ff") "%s: unlink dd/xx/ff succeeded!" ;;
  must_not s (unl "dd/ff/ff") "%s: unlink dd/ff/ff succeeded!" ;;
  must_not s (chd "dd/ff") "%s: chdir dd/ff succeeded!" ;;
  must_not s (chd "dd/xx") "%s: chdir dd/xx succeeded!" ;;
  must s (unl "dd/dd/ffff") "%s: unlink dd/dd/ff failed" ;;
  must s (unl "dd/ff") "%s: unlink dd/ff failed" ;;
  must_not s (unl "dd") "%s: unlink non-empty dd succeeded!" ;;
  let! r := unl "dd/dd" in
  unless (0 <=? r) (oops s (line "%s: unlink dd/dd failed") []) ;;
  let! r := unl "dd" in
  unless (0 <=? r) (oops s (line "%s: unlink dd failed") []).

Definition subdir (s : list byte) : U unit := subdir_make s ;; subdir_fail s.

Definition bigwrite (s : list byte) : U unit :=
  unl "bigwrite" ;;
  while 100 (fun sz =>
    if sz <? (MAXOPBLOCKS + 2) * BSIZE then
      let! fd := opn "bigwrite" CR in
      unless (0 <=? fd) (oops s (line "%s: cannot create bigwrite") []) ;;
      times 2 (fun _ =>
        let! cc := write fd buf sz in
        unless (cc =? sz) (oops s (line "%s: write(%d) ret %d") [Num sz; Num cc])) ;;
      call (Close fd) ;;
      unl "bigwrite" ;;
      ret (inl (sz + 471))
    else ret (inr tt)) 499.

Definition bigfile_read (s : list byte) (fd : Z) : Z * Z -> U (Z * Z + Z) := fun '(i, total) =>
  let! cc := read fd buf 300 in
  unless (0 <=? cc) (oops s (line "%s: read bigfile failed") []) ;;
  if cc =? 0 then ret (inr total) else
  unless (cc =? 300) (oops s (line "%s: short read bigfile") []) ;;
  let! b0 := ldb buf in
  let! b1 := ldb (buf + 299) in
  unless ((byte.unsigned b0 =? i / 2) && (byte.unsigned b1 =? i / 2)) (oops s (line "%s: read bigfile wrong data") []) ;;
  ret (inl (i + 1, total + cc)).

Definition bigfile (s : list byte) : U unit :=
  unl "bigfile.dat" ;;
  let! fd := opn "bigfile.dat" CR in
  unless (0 <=? fd) (oops s "%s: cannot create bigfile" []) ;;
  times 20 (fun i =>
    memset buf i 600 ;;
    let! n := write fd buf 600 in
    unless (n =? 600) (oops s (line "%s: write bigfile failed") [])) ;;
  call (Close fd) ;;
  let! fd := opn "bigfile.dat" 0 in
  unless (0 <=? fd) (oops s (line "%s: cannot open bigfile") []) ;;
  let! total := while bound (bigfile_read s fd) (0, 0) in
  call (Close fd) ;;
  unless (total =? 20 * 600) (oops s (line "%s: read bigfile wrong total") []) ;;
  unl "bigfile.dat" ;;
  ret tt.

Definition fourteen (s : list byte) : U unit :=
  must s (mkd "12345678901234") "%s: mkdir 12345678901234 failed" ;;
  must s (mkd "12345678901234/123456789012345") "%s: mkdir 12345678901234/123456789012345 failed" ;;
  let! fd := opn "123456789012345/123456789012345/123456789012345" O_CREATE in
  unless (0 <=? fd) (oops s (line "%s: create 123456789012345/123456789012345/123456789012345 failed") []) ;;
  call (Close fd) ;;
  let! fd := opn "12345678901234/12345678901234/12345678901234" 0 in
  unless (0 <=? fd) (oops s (line "%s: open 12345678901234/12345678901234/12345678901234 failed") []) ;;
  call (Close fd) ;;
  must_not s (mkd "12345678901234/12345678901234") "%s: mkdir 12345678901234/12345678901234 succeeded!" ;;
  must_not s (mkd "123456789012345/12345678901234") "%s: mkdir 12345678901234/123456789012345 succeeded!" ;;
  (* clean up *)
  unl "123456789012345/12345678901234" ;;
  unl "12345678901234/12345678901234" ;;
  unl "12345678901234/12345678901234/12345678901234" ;;
  unl "123456789012345/123456789012345/123456789012345" ;;
  unl "12345678901234/123456789012345" ;;
  unl "12345678901234" ;;
  ret tt.

Definition rmdot (s : list byte) : U unit :=
  must s (mkd "dots") "%s: mkdir dots failed" ;;
  must s (chd "dots") "%s: chdir dots failed" ;;
  must_not s (unl ".") "%s: rm . worked!" ;;
  must_not s (unl "..") "%s: rm .. worked!" ;;
  must s (chd "/") "%s: chdir / failed" ;;
  must_not s (unl "dots/.") "%s: unlink dots/. worked!" ;;
  must_not s (unl "dots/..") "%s: unlink dots/.. worked!" ;;
  must s (unl "dots") "%s: unlink dots failed!".

Definition dirfile (s : list byte) : U unit :=
  let! fd := opn "dirfile" O_CREATE in
  unless (0 <=? fd) (oops s (line "%s: create dirfile failed") []) ;;
  call (Close fd) ;;
  must_not s (chd "dirfile") "%s: chdir dirfile succeeded!" ;;
  cannot_open s "dirfile/xx" 0 "%s: create dirfile/xx succeeded!" ;;
  cannot_open s "dirfile/xx" O_CREATE "%s: create dirfile/xx succeeded!" ;;
  must_not s (mkd "dirfile/xx") "%s: mkdir dirfile/xx succeeded!" ;;
  must_not s (unl "dirfile/xx") "%s: unlink dirfile/xx succeeded!" ;;
  must_not s (lnk "README" "dirfile/xx") "%s: link to dirfile/xx succeeded!" ;;
  must s (unl "dirfile") "%s: unlink dirfile failed!" ;;
  cannot_open s "." O_RDWR "%s: open . for writing succeeded!" ;;
  let! fd := opn "." 0 in
  let! n := put fd "x" in
  unless (negb (0 <? n)) (oops s (line "%s: write . succeeded!") []) ;;
  call (Close fd) ;;
  ret tt.

Definition iref (s : list byte) : U unit :=
  let close_if (fd : Z) : U unit := if 0 <=? fd then call (Close fd) ;; ret tt else ret tt in
  times (Z.of_nat NINODE + 1) (fun _ =>
    must s (mkd "irefd") "%s: mkdir irefd failed" ;;
    must s (chd "irefd") "%s: chdir irefd failed" ;;
    call (Mkdir []) ;;
    call (Link (bytes_of "README") []) ;;
    let! fd := call (Open [] O_CREATE) in
    close_if fd ;;
    let! fd := opn "xx" O_CREATE in
    close_if fd ;;
    unl "xx" ;;
    ret tt) ;;
  (* clean up *)
  times (Z.of_nat NINODE + 1) (fun _ => chd ".." ;; unl "irefd" ;; ret tt) ;;
  chd "/" ;;
  ret tt.

Definition forktest (s : list byte) : U unit :=
  let! n := while 1001 Programs.forktest_fork 0 in
  unless (negb (n =? 0)) (oops s (line "%s: no fork at all!") []) ;;
  unless (negb (n =? 1000)) (oops s (line "%s: fork claimed to work 1000 times!") []) ;;
  while 1001 (fun n =>
    if 0 <? n then
      let! r := call Wait in
      unless (0 <=? r) (oops s (line "%s: wait stopped early") []) ;;
      ret (inl (n - 1))
    else ret (inr tt)) n ;;
  let! r := call Wait in
  unless (r =? -1) (oops s (line "%s: wait got too many") []).

(** ** Arguments and memory *)

Definition copyinstr2 (s : list byte) : U unit :=
  let b := replicate (Z.to_nat MAXPATH) Byte.x78 in
  let! ret_ := call (Unlink b) in
  unless (ret_ =? -1) (printf (line "unlink(%s) returned %d, not -1") [Str (Some b); Num ret_] ;; exit 1) ;;
  let! fd := call (Open b CW) in
  unless (fd =? -1) (printf (line "open(%s) returned %d, not -1") [Str (Some b); Num fd] ;; exit 1) ;;
  let! ret_ := call (Link b b) in
  unless (ret_ =? -1) (printf (line "link(%s, %s) returned %d, not -1") [Str (Some b); Str (Some b); Num ret_] ;; exit 1) ;;
  let! ret_ := call (Exec b [bytes_of "xx"]) in
  unless (ret_ =? -1) (printf (line "exec(%s) returned %d, not -1") [Str (Some b); Num fd] ;; exit 1) ;;
  let! pid := call Fork in
  unless (0 <=? pid) (fail 1 "fork failed" 1) ;;
  (if pid =? 0 then
     let big := replicate (Z.to_nat PGSIZE) Byte.x78 in
     let! ret_ := call (Exec (bytes_of "echo") [big; big; big]) in
     unless (ret_ =? -1) (printf (line "exec(echo, BIG) returned %d, not -1") [Num fd] ;; exit 1) ;;
     exit 747 (* OK *)
   else ret tt) ;;
  stw (tv_xstatus tv) 0 ;;
  let! (_, st) := wait_x in
  unless (st =? 747) (fail 1 "exec(echo, BIG) succeeded, should have failed" 1).

Definition bigargtest (s : list byte) : U unit :=
  unl "bigarg-ok" ;;
  let! pid := call Fork in
  (if pid =? 0 then
     let big := replicate 399 Byte.x20 in
     (* this exec() should fail (and return) because the
        arguments are too large. *)
     call (Exec (bytes_of "echo") (replicate (MAXARG - 1) big)) ;;
     let! fd := opn "bigarg-ok" O_CREATE in
     call (Close fd) ;;
     exit 0
   else unless (0 <=? pid) (oops s (line "%s: bigargtest: fork failed") [])) ;;
  let! (_, xstatus) := wait_x in
  unless (xstatus =? 0) (exit xstatus) ;;
  let! fd := opn "bigarg-ok" 0 in
  unless (0 <=? fd) (oops s (line "%s: bigarg test failed!") []) ;;
  call (Close fd) ;;
  ret tt.

Definition bsstest (s : list byte) : U unit :=
  each_byte (tv_uninit tv) 10000 (fun _ b => unless (Byte.eqb b Byte.x00) (oops s (line "%s: bss test failed") [])) tt.

(** The value of [sbrk] that reports a failure. *)
Definition NOMEM : Z := 0xffffffffffffffff.

Abbreviation sbrk := Umalloc.sbrk.

Definition sbrkbasic (s : list byte) : U unit :=
  let TOOMUCH := 1024 * 1024 * 1024 in
  (* does sbrk() return the expected failure value? *)
  let! pid := call Fork in
  unless (0 <=? pid) (fail 1 "fork failed in sbrkbasic" 1) ;;
  (if pid =? 0 then
     let! a := sbrk TOOMUCH in
     unless (negb (a =? NOMEM)) (exit 0) ;;
     times (TOOMUCH / 4096) (fun i => stb (a + 4096 * i) Byte.x63) ;;
     exit 1
   else ret tt) ;;
  let! (_, xstatus) := wait_x in
  unless (negb (xstatus =? 1)) (oops s (line "%s: too much memory allocated!") []) ;;
  (* can one sbrk() less than a page? *)
  let! a := sbrk 0 in
  let! a := while (S (Z.to_nat 5000)) (fun '(i, a) =>
    if i <? 5000 then
      let! b := sbrk 1 in
      unless (b =? a) (oops s (line "%s: sbrk test failed %d %p %p") [Num i; Num a; Num b]) ;;
      stb b Byte.x01 ;;
      ret (inl (i + 1, b + 1))
    else ret (inr a)) (0, a) in
  let! pid := call Fork in
  unless (0 <=? pid) (oops s (line "%s: sbrk test fork failed") []) ;;
  sbrk 1 ;;
  let! c := sbrk 1 in
  unless (c =? a + 1) (oops s (line "%s: sbrk test failed post-fork") []) ;;
  unless (negb (pid =? 0)) (exit 0) ;;
  let! (_, xstatus) := wait_x in
  exit xstatus.

(** A child that moves the break, which [wait(0)] collects. *)
Definition sbrk_child (child : U unit) : U unit :=
  let! pid := call Fork in
  unless (0 <=? pid) (fail 1 "fork failed" 1) ;;
  unless (negb (pid =? 0)) (child ;; exit 0) ;;
  call Wait ;;
  ret tt.

Definition sbrkbugs (s : list byte) : U unit :=
  sbrk_child (let! sz := sbrk 0 in sbrk (- s32 sz) ;; ret tt) ;;
  sbrk_child (let! sz := sbrk 0 in sbrk (- (s32 sz - 3500)) ;; ret tt) ;;
  sbrk_child (
    (* set the break in the middle of a page. *)
    let! sz := sbrk 0 in
    sbrk (10 * 4096 + 2048 - sz) ;;
    (* reduce the break a bit, but not enough to
       cause a page to be freed. *)
    sbrk (-10) ;;
    ret tt) ;;
  exit 0.

Definition sbrklast (s : list byte) : U unit :=
  let! top := sbrk 0 in
  (if negb (top mod 4096 =? 0) then sbrk (4096 - top mod 4096) ;; ret tt else ret tt) ;;
  sbrk 4096 ;;
  sbrk 10 ;;
  sbrk (-20) ;;
  let! top := sbrk 0 in
  let p := top - 64 in
  stb p Byte.x78 ;;
  stb (p + 1) Byte.x00 ;;
  let! fd := open bound p CR in
  write fd p 1 ;;
  call (Close fd) ;;
  let! fd := open bound p O_RDWR in
  stb p Byte.x00 ;;
  read fd p 1 ;;
  let! b := ldb p in
  unless (Byte.eqb b Byte.x78) (exit 1).

Definition sbrk8000 (s : list byte) : U unit :=
  sbrk 0x80000004 ;;
  let! top := sbrk 0 in
  let! b := ldb (top - 1) in
  stb (top - 1) (byte.of_Z ((byte.unsigned b + 1) mod 256)).

(** ** Slow tests *)

Definition bigdir (s : list byte) : U unit :=
  let name i := name_of [120; 48 + i / 64; 48 + i mod 64] in
  unl "bd" ;;
  let! fd := opn "bd" O_CREATE in
  unless (0 <=? fd) (oops s (line "%s: bigdir create failed") []) ;;
  call (Close fd) ;;
  times 500 (fun i =>
    let! r := call (Link (bytes_of "bd") (name i)) in
    unless (r =? 0) (oops s (line "%s: bigdir i=%d link(bd, %s) failed") [Num i; Str (Some (name i))])) ;;
  unl "bd" ;;
  times 500 (fun i =>
    let! r := call (Unlink (name i)) in
    unless (r =? 0) (oops s "%s: bigdir unlink failed" [])).

Definition manywrites (s : list byte) : U unit :=
  times 4 (fun ci =>
    let! pid := call Fork in
    unless (0 <=? pid) (fail 1 "fork failed" 1) ;;
    if pid =? 0 then
      let name := name_of [98; 97 + ci] in
      call (Unlink name) ;;
      times 30 (fun _ =>
        times (ci + 1) (fun _ =>
          let! fd := call (Open name CR) in
          unless (0 <=? fd) (oops s (line "%s: cannot create %s") [Str (Some name)]) ;;
          let! cc := write fd buf BUFSZ in
          unless (cc =? BUFSZ) (oops s (line "%s: write(%d) ret %d") [Num BUFSZ; Num cc]) ;;
          call (Close fd) ;;
          ret tt) ;;
        call (Unlink name) ;;
        ret tt) ;;
      call (Unlink name) ;;
      exit 0
    else ret tt) ;;
  times 4 (fun _ =>
    stw (tv_xstatus tv) 0 ;;
    let! (_, st) := wait_x in
    unless (st =? 0) (exit st)) ;;
  exit 0.

(** [sbrk(4096)] and a store to the page, until it fails; [f] after each page. *)
Definition grab_pages (f : U unit) (_ : unit) : U (unit + unit) :=
  let! a := sbrk 4096 in
  if a =? NOMEM then ret (inr tt) else
  stb (a + 4096 - 1) Byte.x01 ;;
  f ;;
  ret (inl tt).

Definition execout (s : list byte) : U unit :=
  times 15 (fun avail =>
    let! pid := call Fork in
    if pid <? 0 then fail 1 "fork failed" 1
    else if pid =? 0 then
      (* allocate all of memory. *)
      while bound (grab_pages (ret tt)) tt ;;
      (* free a few pages, in order to let exec() make some
         progress. *)
      times avail (fun _ => sbrk (-4096) ;; ret tt) ;;
      call (Close 1) ;;
      call (Exec (bytes_of "echo") [bytes_of "echo"; bytes_of "x"]) ;;
      exit 0
    else call Wait ;; ret tt) ;;
  exit 0.

Definition zz_name (i : Z) : list byte := name_of [122; 122; 48 + i / 32; 48 + i mod 32].

(** Empty files are created until one cannot be. *)
Definition create_zz (nzz i : Z) : U (Z + unit) :=
  if i <? nzz then
    call (Unlink (zz_name i)) ;;
    let! fd := call (Open (zz_name i) (Z.lor CR O_TRUNC)) in
    if fd <? 0 then ret (inr tt) else
    call (Close fd) ;;
    ret (inl (i + 1))
  else ret (inr tt).

(** A file is written until the disk is full; the result is [done]. *)
Definition fill_big (fd i : Z) : U (Z + bool) :=
  if i <? MAXFILE then
    let! n := write fd (tv_local tv) BSIZE in
    if negb (n =? BSIZE) then call (Close fd) ;; ret (inr true) else ret (inl (i + 1))
  else ret (inr false).

Definition diskfull_fill (s : list byte) (fi : Z) : U (Z + unit) :=
  if 48 + fi <? 127 then
    let name := name_of [98; 105; 103; 48 + fi] in
    call (Unlink name) ;;
    let! fd := call (Open name (Z.lor CR O_TRUNC)) in
    if fd <? 0 then
      (* oops, ran out of inodes before running out of blocks. *)
      printf (line "%s: could not create file %s") [Str (Some s); Str (Some name)] ;;
      ret (inr tt)
    else
    let! done := while (S (Z.to_nat MAXFILE)) (fill_big fd) 0 in
    call (Close fd) ;;
    if (done : bool) then ret (inr tt) else ret (inl (fi + 1))
  else ret (inr tt).

Definition diskfull (s : list byte) : U unit :=
  unl "diskfulldir" ;;
  while 80 (diskfull_fill s) 0 ;;
  (* now that there are no free blocks, test that dirlink()
     merely fails (doesn't panic) if it can't extend
     directory content. *)
  while 129 (create_zz 128) 0 ;;
  (* this mkdir() is expected to fail. *)
  let! r := mkd "diskfulldir" in
  unless (negb (r =? 0)) (printf (line "%s: mkdir(diskfulldir) unexpectedly succeeded!") [Str (Some s)]) ;;
  unl "diskfulldir" ;;
  times 128 (fun i => call (Unlink (zz_name i)) ;; ret tt) ;;
  times 79 (fun i => call (Unlink (name_of [98; 105; 103; 48 + i])) ;; ret tt).

Definition outofinodes (s : list byte) : U unit :=
  while 1025 (create_zz 1024) 0 ;;
  times 1024 (fun i => call (Unlink (zz_name i)) ;; ret tt).

(** ** The driver *)

Definition run (f : list byte -> U unit) (s : list byte) : U bool :=
  printf "test %s: " [Str (Some s)] ;;
  let! pid := call Fork in
  unless (0 <=? pid) (fail 1 "runtest: fork error" 1) ;;
  if pid =? 0 then
    f s ;;
    exit 0
  else
    let! (_, xstatus) := wait_x in
    (if negb (xstatus =? 0) then printf (line "FAILED") [] else printf (line "OK") []) ;;
    ret (xstatus =? 0).

(** A table of tests: the functions and their names.  [justone] is the name of
    the only test to run. *)
Definition test : Type := (list byte -> U unit) * list byte.

Definition selected (justone : option (list byte)) (s : list byte) : bool :=
  match justone with None => true | Some j => bool_decide (s = j) end.

Fixpoint runtests (tests : list test) (justone : option (list byte)) (continuous : Z) : U Z :=
  match tests with
  | [] => ret 0
  | t :: tests =>
      if selected justone t.2 then
        let! ok := run t.1 t.2 in
        if negb ok && negb (continuous =? 2) then
          printf (line "SOME TESTS FAILED") [] ;;
          ret 1
        else runtests tests justone continuous
      else runtests tests justone continuous
  end.

Definition countfree_read (fd n : Z) : U (Z + Z) :=
  let! cc := read fd (tv_c tv) 1 in
  if cc <? 0 then fail 1 "read() failed in countfree()" 1
  else if cc =? 0 then ret (inr n)
  else ret (inl (n + 1)).

Definition countfree : U Z :=
  let! (r, f0, f1) := pipe in
  unless (0 <=? r) (fail 1 "pipe() failed in countfree()" 1) ;;
  let! pid := call Fork in
  unless (0 <=? pid) (fail 1 "fork failed in countfree()" 1) ;;
  (if pid =? 0 then
     call (Close f0) ;;
     while bound (grab_pages (
       (* report back one more page. *)
       let! n := put f1 "x" in
       unless (n =? 1) (fail 1 "write() failed in countfree()" 1))) tt ;;
     exit 0
   else ret tt) ;;
  call (Close f1) ;;
  let! n := while bound (countfree_read f0) 0 in
  call (Close f0) ;;
  call Wait ;;
  ret n.

Definition drive_round (quicktests slowtests : list test) (quick : bool) (continuous : Z) (justone : option (list byte)) (_ : unit) : U (unit + Z) :=
  printf (line "usertests starting") [] ;;
  let! free0 := countfree in
  let! r := runtests quicktests justone continuous in
  if negb (r =? 0) && negb (continuous =? 2) then ret (inr 1) else
  let! r :=
    if negb quick then
      unless (negb (bool_decide (justone = None))) (printf (line "usertests slow tests starting") []) ;;
      runtests slowtests justone continuous
    else ret 0 in
  if negb (r =? 0) && negb (continuous =? 2) then ret (inr 1) else
  let! free1 := countfree in
  let lost := free1 <? free0 in
  unless (negb lost) (printf (line "FAILED -- lost some free pages %d (out of %d)") [Num free1; Num free0]) ;;
  if lost && negb (continuous =? 2) then ret (inr 1)
  else if negb (continuous =? 0) then ret (inl tt)
  else ret (inr 0).

Definition drivetests (quicktests slowtests : list test) (quick : bool) (continuous : Z) (justone : option (list byte)) : U Z :=
  while bound (drive_round quicktests slowtests quick continuous justone) tt.

(** What the arguments ask for: [quick], [continuous] and [justone]. *)
Definition options (argc : Z) (arg : list byte) : option (bool * Z * option (list byte)) :=
  if (argc =? 2) && bool_decide (arg = bytes_of "-q") then Some (true, 0, None)
  else if (argc =? 2) && bool_decide (arg = bytes_of "-c") then Some (false, 1, None)
  else if (argc =? 2) && bool_decide (arg = bytes_of "-C") then Some (false, 2, None)
  else if (argc =? 2) && negb (bool_decide (arg !! 0%nat = Some Byte.x2d)) then Some (false, 0, Some arg)
  else if 1 <? argc then None
  else Some (false, 0, None).

Definition usertests_main (quicktests slowtests : list test) (argc argv : Z) : U unit :=
  let! arg := if argc =? 2 then arg_string bound argv 1 else ret [] in
  match options argc arg with
  | None =>
      printf (line "Usage: usertests [-c] [-C] [-q] [testname]") [] ;;
      exit 1
  | Some (quick, continuous, justone) =>
      let! r := drivetests quicktests slowtests quick continuous justone in
      unless (r =? 0) (exit 1) ;;
      printf (line "ALL TESTS PASSED") [] ;;
      exit 0
  end.

End Tests.

End Usertests.
