(* ===== verification/UsertestsOk.v ===== *)
(** * The driver of [usertests]

    What the exit status of [usertests] says.  The kernel is an interface, [Lab]:
    processes that print, a pipe, and pages that a process can allocate.  A
    child runs to its end before its parent goes on, and [wait] returns the
    status of the oldest child that has not been waited for.  Tests are arbitrary
    programs; a test may lose pages for good. *)

From S2P Require Import Prelude Riscv Memory CString Block Uart Printf User UserPrintf Grep Shell ShellParse ShellRun Umalloc Programs Grind Usertests.
Import User.Ulib UserPrintf.UPrintf Programs.Programs Grind.Grind Usertests.Usertests.

Module UsertestsOk.

(** ** The kernel *)

(** [enter] is the world of a child that is forked, and [leave] what it leaves to
    its parent.  [pages] are the pages that a child forked now, with a pipe
    between the two, could allocate; [free] are those that the process itself can
    still allocate, and [held] those that it has allocated.  [chan] is the pipe
    that was made last: its descriptors and its contents. *)
Class Lab (W : Type) `{!Unix W} := {
  enter : W -> W;
  leave : W -> W -> W;
  pid_of : W -> Z;
  pages : W -> nat;
  free : W -> nat;
  held : W -> nat;
  chan : W -> option (Z * Z * list byte);
  lab_pid : forall w, 0 < pid_of w;
  lab_enter : forall w, free (enter w) = pages w /\ held (enter w) = 0%nat /\ chan (enter w) = chan w;
  lab_leave : forall w c, pages (leave w c) = (free c + held c)%nat /\ chan (leave w c) = chan c;
  lab_sbrk : forall w, let r := syscalls w (Sbrk 4096) in chan r.2 = chan w /\
    match free w with
    | O => r.1.1 = -1 /\ free r.2 = 0%nat /\ held r.2 = held w
    | S n => 0 <= r.1.1 < 2 ^ 63 /\ free r.2 = n /\ held r.2 = S (held w)
    end;
  lab_pipe : forall w, exists p0 p1, let r := syscalls w Pipe in r.1 = (0, le_split 4 p0 ++ le_split 4 p1) /\
    0 <= p0 < 2 ^ 31 /\ 1 < p1 < 2 ^ 31 /\ pages r.2 = pages w /\ chan r.2 = Some (p0, p1, []);
  lab_write : forall w p0 p1 c b, chan w = Some (p0, p1, c) -> p1 <> 1 -> let r := syscalls w (Write p1 [b]) in
    r.1.1 = 1 /\ free r.2 = free w /\ held r.2 = held w /\ chan r.2 = Some (p0, p1, c ++ [b]);
  lab_read : forall w p0 p1 c, chan w = Some (p0, p1, c) -> let r := syscalls w (Read p0 1) in
    r.1.1 = Z.of_nat (length (take 1 c)) /\ pages r.2 = pages w /\ chan r.2 = Some (p0, p1, drop 1 c);
  lab_close : forall w fd, let w' := (syscalls w (Close fd)).2 in
    pages w' = pages w /\ free w' = free w /\ held w' = held w /\ chan w' = chan w;
  lab_print : forall w bs, let w' := (syscalls w (Write 1 bs)).2 in pages w' = pages w
}.

Section Ok.
Context {W : Type} `{!Unix W} `{!Lab W}.
Implicit Types (w : W) (s : uproc) (kids : list (Z * Z)).

(** Runs a process, each child to its end before the parent goes on. *)
Fixpoint sync {A} (o : outcome uproc A) kids w : ending W A :=
  match o with
  | Ok a s => Returned a s w
  | Panic msg s => Crashed msg s w
  | Spin _ | Fuel => Stuck
  | Switch s k =>
      match u_call s with
      | Exit status => Exited status s w
      | Fork =>
          match sync (k (set_u_answer (0, []) s)) [] (enter w) with
          | Exited st _ c => sync (k (set_u_answer (pid_of w, []) s)) (kids ++ [(pid_of w, st)]) (leave w c)
          | _ => Stuck
          end
      | Wait =>
          match kids with
          | (p, st) :: kids => sync (k (set_u_answer (p, le_split 4 st) s)) kids w
          | [] => sync (k (set_u_answer (-1, []) s)) [] w
          end
      | c => let '(r, w') := syscalls w c in sync (k (set_u_answer r s)) kids w'
      end
  end.

(** ** Steps *)

Lemma sync_assoc {A B C} (o : outcome uproc A) (f : A -> U B) (g : B -> U C) : forall kids w,
  sync (obind (obind o f) g) kids w = sync (obind o (fun a => bind (f a) g)) kids w.
Proof.
  induction o as [a s|msg s|s|s k IH|]; intros kids w; try done. cbn [obind sync]. destruct (u_call s); try done;
    try (destruct (syscalls w _); apply IH).
  - rewrite IH. destruct (sync (obind (k _) _) [] (enter w)); try done; apply IH.
  - destruct kids as [|[p st] kids]; apply IH.
Qed.

Lemma sync_bind {A B C} (c : U A) (f : A -> U B) (g : B -> U C) s kids w :
  sync (bind (bind c f) g s) kids w = sync (bind c (fun a => bind (f a) g) s) kids w.
Proof. apply sync_assoc. Qed.

(** The calls that [syscalls] answers. *)
Definition plain (c : syscall) : bool := match c with Fork | Exit _ | Wait => false | _ => true end.

Lemma sync_ecall {B} c (f : answer -> U B) s kids w : plain c = true ->
  exists s', sync (bind (ecall c) f s) kids w = sync (f (syscalls w c).1 s') kids (syscalls w c).2 /\ u_mem s' = u_mem s.
Proof.
  intros Hc. exists (set_u_answer (syscalls w c).1 (set_u_call c s)). split; [|done]. unfold bind, ecall. simpl.
  destruct c; try done; by destruct (syscalls w _).
Qed.

Lemma sync_call {B} c (f : Z -> U B) s kids w : plain c = true ->
  exists s', sync (bind (call c) f s) kids w = sync (f (syscalls w c).1.1 s') kids (syscalls w c).2 /\ u_mem s' = u_mem s.
Proof.
  intros Hc. unfold call. rewrite sync_bind. destruct (sync_ecall c (fun r => bind (ret r.1) f) s kids w Hc) as (s' & E & M).
  exists s'. by rewrite E, bind_ret.
Qed.

Lemma sync_fork {B} (g : Z -> U B) s kids w : exists s1 s2, u_mem s1 = u_mem s /\ u_mem s2 = u_mem s /\
  sync (bind (call Fork) g s) kids w =
    match sync (g 0 s1) [] (enter w) with
    | Exited st _ c => sync (g (pid_of w) s2) (kids ++ [(pid_of w, st)]) (leave w c)
    | _ => Stuck
    end.
Proof. eexists (set_u_answer (0, []) (set_u_call Fork s)), (set_u_answer (pid_of w, []) (set_u_call Fork s)). done. Qed.

Lemma sync_emits {A B} (c : U A) a o (f : A -> U B) s kids w : uemits 1 c a o ->
  exists s' w', sync (bind c f s) kids w = sync (f a s') kids w' /\ u_mem s' = u_mem s /\ pages w' = pages w.
Proof.
  intros H. specialize (H s). unfold bind. remember (u_mem s) as m eqn:Hm. clear Hm. revert w.
  induction H as [a t|t k bs a m o Hc H IH]; intros w; cbn [obind sync]; [by exists t, w|].
  rewrite Hc. pose proof (lab_print w bs) as Hp. destruct (syscalls w (Write 1 bs)) as [r w1]. destruct (IH r w1) as (s' & w' & E & M & P).
  exists s', w'. split_and!; [done|done|]. by rewrite P.
Qed.

(** A message with its arguments, printed. *)
Lemma sync_printf {B} fmt ap (f : unit -> U B) s kids w :
  forallb (fun b => negb (Byte.eqb b Byte.x00)) (bytes_of fmt) = true -> is_Some (text (length (bytes_of fmt)) (bytes_of fmt) ap) ->
  exists s' w', sync (bind (printf fmt ap) f s) kids w = sync (f tt s') kids w' /\ u_mem s' = u_mem s /\ pages w' = pages w.
Proof. intros Hn [o Ho]. apply (sync_emits _ _ o). by apply (fprintf_emits 1 fmt). Qed.

Lemma sync_while {A B C} fuel (body : A -> U (A + B)) a (f : B -> U C) s kids w :
  sync (bind (while (S fuel) body a) f s) kids w =
  sync (bind (body a) (fun r => match r with inl a => bind (while fuel body a) f | inr b => f b end) s) kids w.
Proof.
  cbn [while]. rewrite sync_bind. unfold bind. generalize (body a s). intros o. revert kids w.
  induction o as [r s'|msg s'|s'|s' k IH|]; intros kids w; try done; [by destruct r|].
  cbn [obind sync]. destruct (u_call s'); try done; try (destruct (syscalls w _); apply IH).
  - rewrite !IH. destruct (sync _ [] (enter w)); try done; apply IH.
  - destruct kids as [|[p st] kids]; apply IH.
Qed.

Lemma sync_exit {A B} st (g : A -> U B) s kids w : exists s', sync (bind (exit st) g s) kids w = Exited st s' w.
Proof. by eexists. Qed.

Ltac step_call s := match goal with |- context [sync (bind (call ?x) ?g ?t) ?k ?v] => destruct (sync_call x g t k v eq_refl) as (s & -> & _) end.

Ltac step_ecall s := match goal with |- context [sync (bind (ecall ?x) ?g ?t) ?k ?v] => destruct (sync_ecall x g t k v eq_refl) as (s & -> & _) end.

Ltac step_fork s1 s2 := match goal with |- context [sync (bind (call Fork) ?g ?t) ?k ?v] => destruct (sync_fork g t k v) as (s1 & s2 & _ & _ & ->) end.

Ltac step_close s P F H C := match goal with |- context [sync (bind (call (Close ?fd)) ?g ?t) ?k ?v] =>
  destruct (sync_call (Close fd) g t k v eq_refl) as (s & -> & _); destruct (lab_close v fd) as (P & F & H & C) end.

Ltac step_printf s w P := match goal with |- context [sync (bind (printf ?m ?a) ?g ?t) ?k ?v] =>
  destruct (sync_printf m a g t k v eq_refl ltac:(by eexists)) as (s & w & -> & _ & P) end.

(** ** Counting the free pages *)

Variables (bound : nat) (tv : test_vars).

Definition report (p1 : Z) : U unit :=
  let! n := put p1 "x" in
  unless (n =? 1) (fail 1 "write() failed in countfree()" 1).

Lemma sync_report {B} p0 p1 c (f : unit -> U B) s kids w : chan w = Some (p0, p1, c) -> p1 <> 1 ->
  exists s' w', sync (bind (report p1) f s) kids w = sync (f tt s') kids w' /\ free w' = free w /\ held w' = held w /\
    chan w' = Some (p0, p1, c ++ [Byte.x78]).
Proof.
  intros Hc Hp. unfold report, put. rewrite sync_bind. change (bytes_of "x") with [Byte.x78].
  destruct (lab_write w p0 p1 c Byte.x78 Hc Hp) as (Er & F & H & C).
  step_call s1.
  rewrite Er. cbn [Z.eqb Pos.eqb unless]. rewrite bind_ret. by eexists _, _.
Qed.

Lemma grab_loop {B} p0 p1 (f : unit -> U B) : p1 <> 1 -> forall n fuel s kids w c,
  free w = n -> (n < fuel)%nat -> chan w = Some (p0, p1, c) ->
  exists s' w', sync (bind (while fuel (grab_pages (report p1)) tt) f s) kids w = sync (f tt s') kids w' /\
    free w' = 0%nat /\ held w' = (n + held w)%nat /\ chan w' = Some (p0, p1, c ++ replicate n Byte.x78).
Proof.
  intros Hp. induction n as [|n IH]; intros fuel s kids w c Hn Hf Hc; (destruct fuel as [|fuel]; [lia|]); rewrite sync_while;
    unfold grab_pages at 1, Umalloc.sbrk; rewrite !sync_bind; change (s32 4096) with 4096;
    step_call s1;
    rewrite bind_ret; destruct (lab_sbrk w) as [Ec Es]; rewrite Hn in Es; destruct Es as (Er & F & H).
  - rewrite Er. change (u64 (-1) =? NOMEM) with true. cbn [negb]. rewrite bind_ret. eexists _, _. split_and!; [done|done|by rewrite H|].
    by rewrite Ec, app_nil_r.
  - rewrite u64_small by lia. rewrite (proj2 (Z.eqb_neq _ NOMEM)) by (unfold NOMEM; lia). unfold stb. rewrite sync_bind, bind_modify, sync_bind.
    match goal with |- context [sync (bind (report p1) ?g ?t) kids ?v] => destruct (sync_report p0 p1 c g t kids v ltac:(by rewrite Ec) Hp) as (s2 & w2 & -> & F2 & H2 & C2) end.
    rewrite bind_ret. destruct (IH fuel s2 kids w2 (c ++ [Byte.x78])) as (s' & w' & E & F3 & H3 & C3); [by rewrite F2|lia|done|].
    exists s', w'. split_and!; [done|done|rewrite H3, H2, H; lia|]. by rewrite C3, <- app_assoc.
Qed.

Lemma count_loop {B} p0 p1 (f : Z -> U B) : forall fuel c n s kids w, (length c < fuel)%nat -> chan w = Some (p0, p1, c) ->
  exists s' w', sync (bind (while fuel (countfree_read tv p0) n) f s) kids w = sync (f (n + Z.of_nat (length c)) s') kids w' /\ pages w' = pages w.
Proof.
  induction fuel as [|fuel IH]; intros c n s kids w Hf Hc; [lia|]. rewrite sync_while. unfold countfree_read at 1, read. rewrite !sync_bind.
  step_ecall s1.
  destruct (lab_read w p0 p1 c Hc) as (Er & P & C). unfold stbs. rewrite sync_bind, bind_modify, bind_ret, Er.
  destruct c as [|b c].
  - change (Z.of_nat (length (take 1 (@nil byte)))) with 0. cbn [Z.ltb Z.compare Z.eqb]. rewrite bind_ret. cbn [length Z.of_nat]. rewrite Z.add_0_r. by eexists _, _.
  - change (Z.of_nat (length (take 1 (b :: c)))) with 1. cbn [Z.ltb Z.compare Z.eqb]. rewrite bind_ret. cbn [length] in *.
    destruct (IH c (n + 1) (set_u_mem (st_bytes (u_mem s1) (tv_c tv) (syscalls w (Read p0 1)).1.2) s1) kids (syscalls w (Read p0 1)).2)
      as (s' & w' & E & P'); [lia|done|]. exists s', w'. split; [|by rewrite P'].
    rewrite E. f_equal. f_equal. lia.
Qed.

Lemma sync_pipe {B} (f : Z * Z * Z -> U B) s kids w : exists p0 p1 s' w',
  sync (bind pipe f s) kids w = sync (f (0, p0, p1) s') kids w' /\ p1 <> 1 /\ pages w' = pages w /\ chan w' = Some (p0, p1, []).
Proof.
  destruct (lab_pipe w) as (p0 & p1 & Er & H0 & H1 & P & C). unfold pipe. rewrite sync_bind.
  step_ecall s1.
  exists p0, p1, s1, (syscalls w Pipe).2. rewrite bind_ret, Er. cbn [fst snd]. split_and!; [|lia|done|done].
  destruct (ShellRun.pipe_answer p0 p1) as [-> ->]; [lia|lia|done].
Qed.

Lemma sync_exits {A B} (o : outcome uproc A) (g : A -> U B) : forall kids w n s' w',
  sync o kids w = Exited n s' w' -> sync (obind o g) kids w = Exited n s' w'.
Proof.
  induction o as [a s|msg s|s|s k IH|]; intros kids w n s' w' H; try done. cbn [obind sync] in *.
  destruct (u_call s); try done; try (destruct (syscalls w _); by apply IH); try (by injection H as <- <- <-).
  - destruct (sync (k _) [] (enter w)) as [| st t c| |] eqn:E; try done. rewrite (IH _ _ _ _ _ _ E). by apply IH.
  - destruct kids as [|[p st] kids]; by apply IH.
Qed.

Lemma countfree_ok {B} (f : Z -> U B) s w : (pages w < bound)%nat ->
  exists s' w', sync (bind (countfree bound tv) f s) [] w = sync (f (Z.of_nat (pages w)) s') [] w' /\ pages w' = pages w.
Proof.
  intros Hb. unfold countfree. rewrite sync_bind.
  match goal with |- context [sync (bind pipe ?g s) [] w] => destruct (sync_pipe g s [] w) as (p0 & p1 & s1 & w1 & -> & Hp & P1 & C1) end.
  cbn [Z.leb Z.compare unless]. rewrite sync_bind, bind_ret, sync_bind.
  step_fork s2 s3.
  cbn [Z.leb Z.compare unless Z.eqb]. rewrite sync_bind, bind_ret, !sync_bind.
  destruct (lab_enter w1) as (F0 & H0 & C0).
  step_close s4 P4 F1 H1 C2.
  rewrite sync_bind.
  match goal with |- context [sync (bind (while bound _ tt) ?g s4) [] ?v] =>
    destruct (grab_loop p0 p1 g Hp (pages w) bound s4 [] v []) as (s5 & w5 & E5 & F5 & H5 & C5) end;
    [by rewrite F1, F0|done|by rewrite C2, C0|]. unfold report in E5. rewrite E5.
  match goal with |- context [sync (bind (exit 0) ?g s5) [] w5] => destruct (sync_exit 0 g s5 [] w5) as (s6 & ->) end.
  destruct (lab_leave w1 w5) as [L1 L2]. pose proof (lab_pid w1) as Hpid.
  rewrite (proj2 (Z.leb_le 0 _)), (proj2 (Z.eqb_neq _ 0)) by lia. cbn [unless app]. rewrite !sync_bind, bind_ret, sync_bind, bind_ret.
  rewrite sync_bind.
  step_close s7 P7 F7 H7 C7.
  rewrite sync_bind.
  match goal with |- context [sync (bind (while bound _ 0) ?g s7) ?k ?v] =>
    destruct (count_loop p0 p1 g bound (replicate (pages w) Byte.x78) 0 s7 k v) as (s8 & w8 & -> & P8) end;
    [by rewrite length_replicate|by rewrite C7, L2, C5|]. rewrite length_replicate, Z.add_0_l, sync_bind.
  step_close s9 P9 F9 H9 C9.
  eexists _, _. split; [reflexivity|]. rewrite P9, P8, P7, L1, F5, H5, H1, H0. lia.
Qed.

(** ** Running the tests *)

(** The process of the test [t] exits with the status [st], whatever the state it is
    started in, and loses [lk] pages. *)
Definition settles (t : test) (st : Z) (lk : nat) : Prop := - 2 ^ 31 <= st < 2 ^ 31 /\
  forall s w, exists s' c, sync ((t.1 t.2 ;; exit 0 : U unit) s) [] (enter w) = Exited st s' c /\ pages (leave w c) = (pages w - lk)%nat.

(** A child that ends in [exit] does not go on. *)
Lemma sync_child {A B} (c : U unit) (g : A -> U B) st s kids w n s' w' :
  sync ((c ;; exit st : U unit) s) kids w = Exited n s' w' -> sync (bind (c ;; exit st) g s) kids w = Exited n s' w'.
Proof.
  intros E. rewrite sync_bind. pose proof (sync_exits _ (fun _ : unit => exit st : U B) _ _ _ _ _ E) as E'.
  unfold bind at 1 in E'. by rewrite sync_assoc in E'.
Qed.

Lemma sync_wait {B} (f : Z * Z -> U B) p st s kids w : - 2 ^ 31 <= st < 2 ^ 31 ->
  exists s', sync (bind (wait_x tv) f s) ((p, st) :: kids) w = sync (f (p, st) s') kids w.
Proof.
  intros Hst. unfold wait_x, wait_status. rewrite !sync_bind. unfold stbs, ldw.
  exists (set_u_mem (st_bytes (u_mem s) (tv_xstatus tv) (le_split 4 st)) (set_u_answer (p, le_split 4 st) (set_u_call Wait s))).
  unfold bind at 1, ecall. cbn [obind sync u_call set_u_call u_answer set_u_answer].
  repeat first [rewrite sync_bind | rewrite bind_modify | rewrite bind_ret | rewrite bind_gets]. cbn [u_mem set_u_mem set_u_answer set_u_call fst snd].
  change (st_bytes (u_mem s) (tv_xstatus tv) (le_split 4 st)) with (st32 (u_mem s) (tv_xstatus tv) st). rewrite ld32_st32.
  unfold s32, u32. rewrite Z.mod_mod by lia. fold (s32 st). by rewrite s32_small.
Qed.

Lemma run_ok {B} t st lk (f : bool -> U B) s w : settles t st lk ->
  exists s' w', sync (bind (run tv t.1 t.2) f s) [] w = sync (f (st =? 0) s') [] w' /\ pages w' = (pages w - lk)%nat.
Proof.
  intros [Hst Ht]. unfold run. rewrite sync_bind.
  step_printf s1 w1 P1.
  rewrite sync_bind.
  step_fork s2 s3.
  cbn [Z.leb Z.compare unless Z.eqb]. rewrite sync_bind, bind_ret. destruct (Ht s2 w1) as (s4 & c & E & P). rewrite (sync_child _ _ _ _ _ _ _ _ _ E).
  pose proof (lab_pid w1) as Hpid. rewrite (proj2 (Z.leb_le 0 _)), (proj2 (Z.eqb_neq _ 0)) by lia. cbn [unless app]. rewrite !sync_bind, bind_ret, sync_bind.
  match goal with |- context [sync (bind (wait_x tv) ?g s3) ?k ?v] => destruct (sync_wait g (pid_of w1) st s3 [] v Hst) as (s5 & ->) end.
  rewrite sync_bind. destruct (st =? 0); cbn [negb];
    step_printf s6 w6 P6; (eexists _, _; split; [by rewrite bind_ret|]; lia).
Qed.

(** Which tests [usertests] runs, and what they do. *)
Variables (status : test -> Z) (lost : test -> nat).

Definition passes (t : test) : bool := status t =? 0.

Definition chosen (justone : option (list byte)) (tests : list test) : list test := List.filter (fun t => selected justone t.2) tests.

Lemma chosen_app justone l l' : chosen justone (l ++ l') = chosen justone l ++ chosen justone l'.
Proof. apply List.filter_app. Qed.

Definition all_lost (tests : list test) : nat := list_sum (map lost tests).

Lemma all_lost_app l l' : all_lost (l ++ l') = (all_lost l + all_lost l')%nat.
Proof. unfold all_lost. by rewrite map_app, list_sum_app. Qed.

Lemma runtests_ok {B} tests justone (f : Z -> U B) : Forall (fun t => settles t (status t) (lost t)) tests -> forall s w,
  let l := chosen justone tests in
  exists s' w', sync (bind (runtests tv tests justone 0) f s) [] w = sync (f (if forallb passes l then 0 else 1) s') [] w' /\
    (pages w' <= pages w)%nat /\ (forallb passes l = true -> pages w' = (pages w - all_lost l)%nat).
Proof.
  induction 1 as [|t tests Ht _ IH]; intros s w l; unfold l, chosen; cbn [runtests List.filter].
  - rewrite bind_ret. exists s, w. split_and!; [done|lia|]. unfold all_lost. simpl. lia.
  - destruct (selected justone t.2); [|apply IH]. rewrite sync_bind.
    match goal with |- context [sync (bind (run _ _ _) ?g s) [] w] => destruct (run_ok t _ _ g s w Ht) as (s1 & w1 & -> & P1) end.
    cbn [forallb]. unfold passes at 1 3. destruct (status t =? 0); cbn [negb andb].
    + destruct (IH s1 w1) as (s' & w' & -> & P2 & P3). eexists _, _. split_and!; [done|lia|]. intros Hl. specialize (P3 Hl).
      change (pages w' = pages w - (lost t + all_lost (chosen justone tests)))%nat. lia.
    + change (negb (0 =? 2)) with true. cbn [andb]. rewrite sync_bind. step_printf s2 w2 P2. rewrite bind_ret. eexists _, _. split_and!; [done|lia|done].
Qed.

Section Round.
Variables (quicktests slowtests : list test).
Hypothesis Hquick : Forall (fun t => settles t (status t) (lost t)) quicktests.
Hypothesis Hslow : Forall (fun t => settles t (status t) (lost t)) slowtests.

(** The tests of a run: [quick] leaves the slow ones out. *)
Definition all_chosen (quick : bool) (justone : option (list byte)) : list test :=
  chosen justone (quicktests ++ if quick then [] else slowtests).

Definition clean (t : test) : bool := passes t && (lost t =? 0)%nat.

Lemma clean_spec l : forallb clean l = forallb passes l && (all_lost l =? 0)%nat.
Proof.
  induction l as [|t l IH]; [done|]. change (all_lost (t :: l)) with (lost t + all_lost l)%nat. cbn [forallb]. rewrite IH. unfold clean.
  destruct (passes t), (forallb passes l), (Nat.eqb_spec (lost t) 0) as [->|], (Nat.eqb_spec (all_lost l) 0) as [->|];
    cbn [andb]; try done; symmetry; apply Nat.eqb_neq; lia.
Qed.

Lemma slow_ok {B} (quick : bool) justone (f : Z -> U B) s w :
  let l := chosen justone (if quick then [] else slowtests) in
  exists s' w', sync (bind (if negb quick then
      unless (negb (bool_decide (justone = None))) (printf (line "usertests slow tests starting") []) ;; runtests tv slowtests justone 0
    else ret 0) f s) [] w = sync (f (if forallb passes l then 0 else 1) s') [] w' /\
    (pages w' <= pages w)%nat /\ (forallb passes l = true -> pages w' = (pages w - all_lost l)%nat).
Proof.
  destruct quick; cbn [negb].
  - rewrite bind_ret. exists s, w. split_and!; [done|lia|]. unfold all_lost. simpl. lia.
  - rewrite sync_bind. destruct (bool_decide (justone = None)); cbn [negb unless].
    + step_printf s1 w1 P1. destruct (runtests_ok slowtests justone f Hslow s1 w1) as (s' & w' & -> & P2 & P3). rewrite <- P1. by eexists _, _.
    + rewrite bind_ret. apply (runtests_ok slowtests justone f Hslow).
Qed.

Lemma round_ok {B} (quick : bool) justone (f : unit + Z -> U B) s w : (0 < pages w < bound)%nat -> exists s' w',
  sync (bind (drive_round bound tv quicktests slowtests quick 0 justone tt) f s) [] w =
  sync (f (inr (if forallb clean (all_chosen quick justone) then 0 else 1)) s') [] w'.
Proof.
  intros Hb. unfold drive_round. rewrite sync_bind. step_printf s1 w1 P1. rewrite sync_bind.
  match goal with |- context [sync (bind (countfree _ _) ?g s1) [] w1] => destruct (countfree_ok g s1 w1) as (s2 & w2 & -> & P2) end; [lia|].
  rewrite sync_bind.
  match goal with |- context [sync (bind (runtests _ _ _ _) ?g s2) [] w2] => destruct (runtests_ok quicktests justone g Hquick s2 w2) as (s3 & w3 & -> & L3 & P3) end.
  unfold all_chosen. rewrite chosen_app, clean_spec, forallb_app, all_lost_app.
  destruct (forallb passes (chosen justone quicktests)) eqn:E1; [specialize (P3 eq_refl)|change (negb (1 =? 0) && negb (0 =? 2)) with true; cbv iota; cbn [andb]; rewrite bind_ret; by eexists _, _].
  change (negb (0 =? 0) && negb (0 =? 2)) with false. cbv iota. rewrite sync_bind.
  match goal with |- context [sync (bind (if negb quick then _ else _) ?g s3) [] w3] => destruct (slow_ok quick justone g s3 w3) as (s4 & w4 & -> & L4 & P4) end.
  destruct (forallb passes (chosen justone (if quick then [] else slowtests))) eqn:E2;
    [specialize (P4 eq_refl)|change (negb (1 =? 0) && negb (0 =? 2)) with true; cbv iota; cbn [andb]; rewrite bind_ret; by eexists _, _].
  change (negb (0 =? 0) && negb (0 =? 2)) with false. cbv iota. rewrite sync_bind. cbn [andb].
  match goal with |- context [sync (bind (countfree _ _) ?g s4) [] w4] => destruct (countfree_ok g s4 w4) as (s5 & w5 & -> & P5) end; [lia|].
  match goal with |- context [Nat.eqb ?n 0] => destruct (Nat.eqb_spec n 0) end.
  - rewrite (proj2 (Z.ltb_ge _ _)) by lia. cbn [negb unless andb]. rewrite sync_bind, bind_ret. change (negb (0 =? 0)) with false. cbv iota.
    rewrite bind_ret. by eexists _, _.
  - rewrite (proj2 (Z.ltb_lt _ _)) by lia. cbn [negb unless andb]. rewrite sync_bind. step_printf s6 w6 P6. change (negb (0 =? 2)) with true. cbv iota.
    rewrite bind_ret. by eexists _, _.
Qed.

Lemma main_ok argc argv arg quick justone s w :
  (argc = 1 /\ arg = [] \/ argc = 2 /\ cstr (u_mem s) (ld64 (u_mem s) (argv + 8)) arg /\ (length arg < bound)%nat) ->
  options argc arg = Some (quick, 0, justone) -> (0 < pages w < bound)%nat ->
  exists s' w', sync (usertests_main bound tv quicktests slowtests argc argv s) [] w =
    Exited (if forallb clean (all_chosen quick justone) then 0 else 1) s' w'.
Proof.
  intros Harg Hopt Hb. unfold usertests_main.
  assert (E : (if argc =? 2 then arg_string bound argv 1 else ret []) s = Ok arg s).
  { destruct Harg as [[-> ->]|(-> & Hs & Hl)]; [done|]. cbn [Z.eqb Pos.eqb]. unfold arg_string, Grep.arg. rewrite bind_gets. by apply cstring_ok. }
  rewrite (bind_Ok _ _ _ _ _ E), Hopt. unfold drivetests.
  assert (Ew : forall (body : unit -> U (unit + Z)) (f : Z -> U unit), sync (bind (while bound body tt) f s) [] w =
    sync (bind (body tt) (fun r => match r with inl a => bind (while (pred bound) body a) f | inr b => f b end) s) [] w).
  { intros body f. rewrite <- sync_while. by rewrite Nat.succ_pred by lia. }
  rewrite Ew.
  match goal with |- context [sync (bind (drive_round _ _ _ _ _ _ _ _) ?g s) [] w] => destruct (round_ok quick justone g s w) as (s1 & w1 & E1) end; [lia|].
  rewrite E1. destruct (forallb clean _).
  - cbn [Z.eqb unless]. rewrite bind_ret. step_printf s2 w2 P2. by eexists _, _.
  - cbn [Z.eqb unless]. by eexists _, _.
Qed.

End Round.
End Ok.


(** ** A small kernel *)

(** Its [kill] loses a page. *)
Record lab := LabWorld { lb_free : nat; lb_held : nat; lb_chan : option (Z * Z * list byte) }.

#[export] Instance lab_unix : Unix lab := fun w c =>
  match c with
  | Sbrk _ => match lb_free w with O => ((-1, []), w) | S n => ((8192, []), LabWorld n (S (lb_held w)) (lb_chan w)) end
  | Pipe => ((0, le_split 4 3 ++ le_split 4 4), LabWorld (lb_free w) (lb_held w) (Some (3, 4, [])))
  | Write fd bs =>
      match lb_chan w with
      | Some (p0, p1, c) => if fd =? p1 then ((Z.of_nat (length bs), []), LabWorld (lb_free w) (lb_held w) (Some (p0, p1, c ++ bs))) else ((0, []), w)
      | None => ((0, []), w)
      end
  | Read fd n =>
      match lb_chan w with
      | Some (p0, p1, c) => ((Z.of_nat (length (take (Z.to_nat n) c)), take (Z.to_nat n) c), LabWorld (lb_free w) (lb_held w) (Some (p0, p1, drop (Z.to_nat n) c)))
      | None => ((-1, []), w)
      end
  | Kill _ => ((0, []), LabWorld (lb_free w - 1) (lb_held w) (lb_chan w))
  | _ => ((0, []), w)
  end.

#[export, refine] Instance lab_lab : Lab lab := {
  enter w := LabWorld (lb_free w) 0 (lb_chan w);
  leave w c := LabWorld (lb_free c + lb_held c) (lb_held w) (lb_chan c);
  pid_of _ := 7;
  pages := lb_free;
  free := lb_free;
  held := lb_held;
  chan := lb_chan
}.
Proof.
  - done.
  - done.
  - done.
  - intros [[|n] h c]; simpl; split_and!; try done; lia.
  - intros w. exists 3, 4. simpl. split_and!; try done; lia.
  - intros [n h ch] p0 p1 c b E Hp. cbn [lb_chan] in E. subst ch. unfold syscalls, lab_unix. cbn [lb_chan]. by rewrite Z.eqb_refl.
  - intros [n h ch] p0 p1 c E. cbn [lb_chan] in E. by subst ch.
  - done.
  - intros [n h [[[p0 p1] c]|]] bs; [|done]. unfold syscalls, lab_unix. cbn [lb_chan]. by destruct (1 =? p1).
Defined.

Definition good : test := (fun _ => ret tt, bytes_of "good").

Definition leaky : test := (fun _ => call (Kill 1) ;; ret tt, bytes_of "leaky").


End UsertestsOk.
